(* ===== verification/_CoqProject ===== *)
-Q . S2P
Prelude.v
Crc32.v
Mem.v
CString.v
Printf.v
PmicBus.v
PmicCore.v
Axp152.v
Axp1530.v
Axp2101.v
Axp2202.v
Axp221.v
Axp81X.v
Axp806.v
Axp809.v
Axp8191.v
Axp858.v
Sy8827g.v
Tcs4838.v
Axp.v
Checksum.v
Heap.v
Gpt.v
Env.v
UCrc32.v
Flash.v
Sparse.v
SpriteVerify.v
ImgDecode.v
SpriteCard.v
CardBoot.v
BootImage.v
SdMmc.v
BootPkg.v
Spinand.v
BootParam.v
LoadImage.v
Package.v
Elf.v
Boot0.v
SecMap.v
SecObject.v
SecMmc.v
Lz4.v
Lz4Part.v
KernelImage.v
KernelRun.v
KernelPar.v
