(* ===== verification/Prelude.v ===== *)
(** * Verification of the Allwinner brandy-2.0 boot chain

    ** The program

    [src/brandy-2.0] holds the boot chain of Allwinner's Tina V821 SDK: the
    first-stage loader [spl] (boot0/sboot/pmboot), and a U-Boot 2018 tree with
    the flashing tool [sprite].  This development is about Allwinner's own
    logic in both:

    - a C runtime without a library: block memory operations, strings, a
      [printf] family, a CRC and a first-fit heap;
    - power management: a bus to the PMIC, twelve drivers built from regulator
      tables, and a dispatcher that probes them;
    - finding and checking what to boot: additive image checksums, the GPT
      partition table and the environment with its redundant copy;
    - loading it: the boot package from a card, SPI NOR or SPI NAND, the boot
      parameter region, the images inside the package (plain or compressed),
      ELF files for a second core;
    - the flashing tool: firmware images on a card, raw and sparse partitions,
      read-back verification, the boot areas.

    The parts interact by calls: the environment asks the partition table for
    its two partitions, allocates on the heap, reads flash, checks copies with
    the CRC; the package loaders use the flash map or the environment and the
    partition table to find a copy and the checksum to accept it; the image
    loader walks the package that a package loader left in memory; the PMIC
    drivers go through the bus helpers and are reached through the dispatcher;
    the flashing tool reads items of a firmware image and feeds them to the
    raw or the sparse writer.

    ** The files (paths under spl unless they name u-boot-2018)

    Runtime:
    - [Prelude]: machine integers as [Z] with explicit wrap-around ([u8],
      [u32], [s32], ...), bit lemmas, little-endian bytes, the tactics.
    - [Crc32]: common/crc32.c.  [crc32], table and loop.
    - [Mem]: common/memcpy_sunxi.c, memset_sunxi.c and [memmove] of string.c,
      over a byte memory ([gmap Z Z]) in which an unmapped access faults.
    - [CString]: common/string.c and linux/ctype.h.  A [char] pointer is the
      list of bytes to the end of its object.
    - [Printf]: common/printf.c.

    Power:
    - [PmicBus]: drivers/pmic_bus.c.  The class [I2cBus] is the transport and
      the chip, the class [RegisterBus] what a working bus promises, [SimBus]
      an instance with transfer failures.
    - [PmicCore]: the table type of include/arch/axp.h and the routines each
      driver repeats (search, set, get, ramp), once, with their theory.
    - [Axp152], [Axp1530], [Axp2101], [Axp2202], [Axp221], [Axp81X], [Axp806],
      [Axp809], [Axp8191], [Axp858], [Sy8827g], [Tcs4838]: the drivers of
      drivers/power: constants, regulator tables, operations.
    - [Axp]: drivers/power/axp.c, the dispatcher, and the theorems about all
      driver tables.

    Boot data:
    - [Checksum]: common/boot_utils.c.
    - [Heap]: common/malloc.c on the byte memory of [Mem], headers included.
    - [Gpt]: common/part_efi.c and the SPI NOR [load_gpt], on [Heap] and
      [CString].
    - [Env]: common/env.c, on [Gpt], [Heap] and [Crc32].

    Flashing tool (u-boot-2018):
    - [UCrc32]: lib/crc32.c, the word-at-a-time CRC.
    - [Flash]: the sector interface of drivers/sunxi_flash that the tool uses,
      as a class with the outcome of each transfer.
    - [Sparse]: sprite/sparse/sparse.c, the streaming writer and its static
      variables.
    - [SpriteVerify]: sprite/sprite_verify.c.
    - [ImgDecode]: sprite/firmware/imgdecode.c, firmware images on a card.
    - [SpriteCard]: the partition downloads of sprite/sprite_card.c.
    - [CardBoot]: the boot areas of a card, in the same file.

    Loaders:
    - [BootImage]: the TOC1 header, the checksum on byte memory, the flash map
      (drivers/sunxi_flashmap) and the read interface of a boot medium.
    - [SdMmc]: initialisation and reads of nboot/load_image_mmc.
    - [BootPkg]: the package loaders of nboot/load_image_mmc and
      nboot/load_image_spinor, in all their build variants.
    - [Spinand]: reading around bad blocks (drivers/nand/general/spinand) and
      the package loader of nboot/load_image_nand.
    - [BootParam]: common/boot_param.c.
    - [LoadImage]: nboot/main/load_image.c and load_comp_image.c; [Package] has
      the layout of a whole package and what unpacking it leaves.
    - [Elf]: common/elf_loader.c.
    - [Boot0]: nboot/main/boot0_main.c, [main] and [update_uboot_info] over the
      class [boot_storage]; card, SPI NOR and SPI NAND are its instances, and
      [CheckedStorage] and [TellsStorage] are what boot0 relies on.
    - [SecMap]: u-boot-2018/sprite/sprite_secstorage.c, the map of the keys of
      the secure storage and its operations over the class [sec_device];
      [LawfulSec] is what they need of the device.
    - [SecObject]: u-boot-2018/sprite/sprite_secure_object.c, the objects kept
      under the keys; [ObjectStorage] is what they need of the device.
    - [SecMmc]: the two copies of every item on a card
      (u-boot-2018/drivers/sunxi_flash/mmc/sdmmc.c), an instance of these
      classes.
    - [Lz4]: common/lz4/lz4.c and lz4_wrapper.c, the block decoder and the frame
      decoder [ulz4fn].
    - [Lz4Part]: the decoder of the same files that is called again as the data
      arrives, lz4_part_decompress and LZ4_part_decompress_seq.
    - [KernelImage]: the kernel loaders, common/linux_loader.c,
      common/flash_loader.c and solution/solution_common/sunxi_bootimage.c, on
      [Gpt], [Env], [Heap] and [Lz4].
    - [KernelRun]: these together, from a cold start to the jump.
    - [KernelPar]: load_bimage in the build that decodes the kernel while it is
      being read, on [Lz4Part]; the transfer is a list of what each poll sees.

    State is passed explicitly: the byte memory, the heap inside it, and one
    record per file of static variables ([gpt_state], [env_state],
    [axp_state], [sparse_state], [mmc_state], [image_state]).  [None] is always
    undefined behaviour (an access outside mapped memory or outside an array,
    signed overflow, or a loop that ran out of fuel); error codes are the C
    integers.  Build options are records or classes ([cfg], [heap_layout],
    [env_config], [pkg_build], [image_build]).  Storage and controllers are
    classes too ([storage], [mmc_host], [spinor_chip], [nand_chip],
    [flash_driver]): a transfer gives the bytes it delivered and whether it
    succeeded, and a failed one may have delivered some.

    ** What the theorems show

    - Memory and strings: each block routine is one write of the bytes the
      source held; each string routine returns what the strings denote; a
      number printed with [%u] or [%x] reads back as itself.
    - CRC and checksums: both table-driven CRCs are the bit-serial polynomial
      division and detect bursts of four bytes; both [verify_addsum] variants
      compute one sum, restore the image and detect every change of one word.
    - Heap: every use of the heap, but for one kind of [realloc] that is shown
      to lose a block, keeps the blocks handed out and not given back aligned,
      in bounds and disjoint, and the allocator's list is exactly these;
      [malloc] is first fit on that list, [free] undoes it, [realloc] keeps the
      contents.
    - Partition table and environment: lookups return the first entry of the
      name; opening keeps the newer valid copy, by serial bytes that wrap, and
      exactly one buffer.
    - Power: for every regulator of every driver (but two that are shown
      broken) the voltage stored is the greatest supported one not above the
      voltage closest to the request between the regulator's limits, and no
      other bit is touched; reading returns it, and the dispatcher
      drives exactly the chip it detected.
    - Package loaders: a card never boots an unverified package and does boot
      the first good one; SPI NAND gathers a copy from the good blocks and
      takes the first copy with a right checksum.
    - Boot parameters: loading always leaves a usable region, and what one boot
      seals the next one accepts unchanged.
    - Images: which item name takes which branch; a package of plain and
      compressed U-Boot and plain RTOS is unpacked, every image at its run
      address, and the bases announced are these; a well-formed ELF file is
      loaded as its program headers say, but for segments without bytes in the
      file, which keep what their memory held.
    - Boot stage: boot0 starts nothing but the images of a package with a right
      magic and checksum over the length in its header, on a board that came
      up, and enters the first one announced with the bases of the next;
      U-Boot's header holds what the boot found and is otherwise unchanged.
    - Secure storage: it is a finite map of at most 31 keys that survives
      closing and opening; a secure object written is read back; while flashing,
      damage to the first copy of a key does no harm.
    - Kernel: a well-formed LZ4 frame is decoded to its data, with matches that
      overlap their own output, and no input makes the decoder write outside its
      buffer.  Decoding piece by piece gives the same data, however the frame is
      cut behind its header, if ten bytes follow the frame and the memory it
      arrives in held no 255; without that it can fail, which is shown too.  An
      Android boot image is loaded part by part, from fixed sectors with a
      second copy or from the partition the environment names; from a cold
      start [load_and_run_kernel] finds it through partition table and
      environment and enters it with all parts in place.  The build that
      decodes while the transfer goes on does the same if no poll before the
      one that finds the kernel announces the end of the frame, and that one
      finds the rest of the image or can wait for it; a read error during that
      is lost where a ramdisk is loaded.
    - Flashing: the sparse writer leaves exactly the expanded image however the
      file is cut, keeps its variables well typed, and each of its calls takes
      no more turns than there are bytes; raw
      downloads write the file and stay inside the partition; a firmware image
      is read back item by item; the partition table check is exact.
    - Defects: each file that shows one states it as a theorem ([memcpy_large]
      on lengths that are no multiple of eight, [verify_addsum] on short
      images, [realloc] losing a block, sizes near 2^32, the cache-line
      configuration of the heap, NULL size pointers of partition lookups, the
      enlargements that [realloc] does not count, the flag [deinit_gpt] leaves, three regulator tables, the time stamp of
      [printf]; skipped chunks of 4 GiB and fill tails of sparse images, sparse
      data that leaves its partition, boot checks that accept everything; the
      OTA search that accepts a bad package, SPI NOR packages that are never
      checked, the endless search over bad blocks, overlapping decompression
      buffers, unannounced compressed device trees, uncleared ELF segments;
      names of 64 characters that clear the map of the secure storage, second
      copies on the card that are never used, keys that overrun a structure, a
      missing kernel partition that ends in a jump to an uninitialised address,
      block checksums that are cut by a piece, input bytes that decide before
      they are read, read errors of the kernel that are lost, device trees and
      plain kernels that are copied before they are read).

    ** Bounds and fuel

    Addresses, [long] and [size_t] are 32 bits wide.  Loops over data are
    structural; the others carry fuel that the theorems prove sufficient: byte
    loops get one more than the length, the heap walks one more than the
    number of mapped bytes (a list of distinct headers is shorter), the
    environment walks two more than the block, the voltage ramp the distance
    in millivolts plus two, the sparse writer and the walks over the key map of
    the secure storage one turn per byte, the ELF loops 65537 turns ([e_phnum]
    and [e_shnum] are 16 bits wide).  The search for
    good NAND blocks, which has no bound in the code, takes its fuel as an
    argument and needs more than the number of blocks looked at; the item loop
    of [load_image] takes its fuel as an argument too; the piecewise LZ4
    decoder has three turns more than its input has bytes, and its polls are a
    list.  [memcpy_large], which may not terminate, is shown to exhaust any fuel.

    ** What is not modelled

    The TWI/RSB, UART, SPI, NAND and MMC controllers, DRAM training, clocks
    and keys are register I/O: the bus, card and flash interfaces stand for
    what the modelled code uses of them.  Cache and NEON switches, delays and
    trace output have no effect on the modelled state.  zlib, LZMA, libfdt and
    U-Boot itself are third-party code; their decompressors,
    [fdt_check_header] and [fdt_initrd] are arguments of the model.

    ** Plan

    Next: the secure and the standby stage (sboot, pmboot) and the rest of the
    flashing tool (sprite_download.c, sprite_auto_update.c). *)

From stdpp Require Export prelude gmap strings.
From Stdlib Require Export ZArith Lia.

Local Open Scope Z_scope.

(** ** Machine integers

    A w-bit integer is a [Z] in [0, 2^w); a signed one lies in
    [-2^(w-1), 2^(w-1)).  The conversions below are the C conversions to the
    fixed-width types of the sources ([u8], [u16], [u32]/[uint], [int]). *)

Definition u8 (x : Z) : Z := x mod 256.
Definition u16 (x : Z) : Z := x mod 65536.
Definition u32 (x : Z) : Z := x mod 4294967296.
Definition s8 (x : Z) : Z := (x + 128) mod 256 - 128.
Definition s32 (x : Z) : Z := (x + 2147483648) mod 4294967296 - 2147483648.

Definition is_u8 (x : Z) : Prop := 0 <= x < 256.
Definition is_u32 (x : Z) : Prop := 0 <= x < 4294967296.

Declare Scope c_scope.
Delimit Scope c_scope with C.
(** Wrapping arithmetic on [u32]. *)
Notation "a ⊞ b" := (u32 (a + b)) (at level 50, left associativity) : c_scope.
Notation "a ⊟ b" := (u32 (a - b)) (at level 50, left associativity) : c_scope.
Notation "a ⊠ b" := (u32 (a * b)) (at level 40, left associativity) : c_scope.

(** Division with remainder by literals is linear after this hook. *)
Ltac zmod := Z.to_euclidean_division_equations; lia.

Lemma u8_bound x : is_u8 (u8 x).
Proof. unfold is_u8, u8. apply Z.mod_pos_bound. lia. Qed.

Lemma u32_bound x : is_u32 (u32 x).
Proof. unfold is_u32, u32. apply Z.mod_pos_bound. lia. Qed.

Lemma u8_small x : is_u8 x → u8 x = x.
Proof. apply Z.mod_small. Qed.

Lemma u32_small x : is_u32 x → u32 x = x.
Proof. apply Z.mod_small. Qed.

Lemma u32_idemp x : u32 (u32 x) = u32 x.
Proof. apply u32_small, u32_bound. Qed.

Lemma u32_add_l x y : u32 (u32 x + y) = u32 (x + y).
Proof. unfold u32. by rewrite Zplus_mod_idemp_l. Qed.

Lemma u32_add_r x y : u32 (x + u32 y) = u32 (x + y).
Proof. unfold u32. by rewrite Zplus_mod_idemp_r. Qed.

Lemma u32_sub_l x y : u32 (u32 x - y) = u32 (x - y).
Proof. unfold u32. by rewrite Zminus_mod_idemp_l. Qed.

Lemma u32_sub_r x y : u32 (x - u32 y) = u32 (x - y).
Proof. unfold u32. by rewrite Zminus_mod_idemp_r. Qed.

Lemma s32_small x : -2147483648 <= x < 2147483648 → s32 x = x.
Proof. intros. unfold s32. rewrite Z.mod_small; lia. Qed.

Lemma s8_small x : -128 <= x < 128 → s8 x = x.
Proof. intros. unfold s8. rewrite Z.mod_small; lia. Qed.

(** A difference of two bytes truncated to [signed char] vanishes only on
    equal bytes. *)
Lemma s8_sub_zero a b : is_u8 a → is_u8 b → s8 (a - b) = 0 ↔ a = b.
Proof. unfold is_u8, s8. intros. split; [|intros ->]; zmod. Qed.

Create HintDb word discriminated.
Create Rewrite HintDb word.
#[export] Hint Resolve u8_bound u32_bound : word.
#[export] Hint Rewrite u32_idemp u32_add_l u32_add_r u32_sub_l u32_sub_r : word.

(** ** Bits *)

(** Equality of two integers by comparing their bits. *)
Ltac bits_ext n Hn := apply Z.bits_inj'; intros n Hn.

Lemma testbit_above (x w n : Z) : 0 <= w → 0 <= x < 2 ^ w → w <= n → Z.testbit x n = false.
Proof.
  intros Hw Hx Hn. destruct (decide (x = 0)) as [->|]; [apply Z.bits_0|].
  apply Z.bits_above_log2; [lia|]. assert (Z.log2 x < w); [|lia].
  apply Z.log2_lt_pow2; lia.
Qed.

Lemma testbit_bound (x w : Z) :
  0 <= w → 0 <= x → (∀ n, w <= n → Z.testbit x n = false) → x < 2 ^ w.
Proof.
  intros Hw Hx Hb. destruct (decide (x = 0)) as [->|]; [apply Z.pow_pos_nonneg; lia|].
  apply Z.log2_lt_pow2; [lia|]. apply Z.nle_gt. intros Hle.
  assert (Z.testbit x (Z.log2 x) = true) by (apply Z.bit_log2; lia).
  rewrite Hb in H; [done|lia].
Qed.

Lemma land_bound_r (x y w : Z) : 0 <= w → 0 <= y < 2 ^ w → 0 <= Z.land x y < 2 ^ w.
Proof.
  intros Hw Hy. assert (0 <= Z.land x y) by (apply Z.land_nonneg; lia).
  split; [done|]. apply testbit_bound; [done..|]. intros n Hn.
  rewrite Z.land_spec, (testbit_above y w n) by lia. apply andb_false_r.
Qed.

Lemma lxor_bound (x y w : Z) :
  0 <= w → 0 <= x < 2 ^ w → 0 <= y < 2 ^ w → 0 <= Z.lxor x y < 2 ^ w.
Proof.
  intros Hw Hx Hy. assert (0 <= Z.lxor x y) by (apply Z.lxor_nonneg; lia).
  split; [done|]. apply testbit_bound; [done..|]. intros n Hn.
  by rewrite Z.lxor_spec, (testbit_above x w n), (testbit_above y w n) by lia.
Qed.

Lemma lor_bound (x y w : Z) :
  0 <= w → 0 <= x < 2 ^ w → 0 <= y < 2 ^ w → 0 <= Z.lor x y < 2 ^ w.
Proof.
  intros Hw Hx Hy. assert (0 <= Z.lor x y) by (apply Z.lor_nonneg; lia).
  split; [done|]. apply testbit_bound; [done..|]. intros n Hn.
  by rewrite Z.lor_spec, (testbit_above x w n), (testbit_above y w n) by lia.
Qed.

Lemma shiftr_bound (x w k : Z) : 0 <= w → 0 <= k → 0 <= x < 2 ^ (w + k) → 0 <= Z.shiftr x k < 2 ^ w.
Proof.
  intros Hw Hk Hx. rewrite Z.shiftr_div_pow2 by lia.
  rewrite Z.pow_add_r in Hx by lia.
  split; [apply Z.div_pos; nia|]. apply Z.div_lt_upper_bound; nia.
Qed.

(** ** Byte strings *)

Abbreviation bytes := (list Z).

Definition is_byte_list (l : bytes) : Prop := Forall is_u8 l.

#[global] Instance is_u8_dec x : Decision (is_u8 x).
Proof. unfold is_u8. apply _. Defined.

(** Little-endian value of a byte list and its inverse. *)
Fixpoint le_val (l : bytes) : Z :=
  match l with
  | [] => 0
  | b :: l' => b + 256 * le_val l'
  end.

Fixpoint le_bytes (n : nat) (x : Z) : bytes :=
  match n with
  | O => []
  | S n' => x mod 256 :: le_bytes n' (x / 256)
  end.

(** [n] bytes of [l] from offset [off]; [None] when they run past its end. *)
Definition slice (off n : nat) (l : bytes) : option bytes :=
  if decide (off + n <= length l)%nat then Some (take n (drop off l)) else None.

(** A little-endian load of [n] bytes at [off]. *)
Definition load_le (n off : nat) (l : bytes) : option Z := le_val <$> slice off n l.

Lemma le_val_bound l : is_byte_list l → 0 <= le_val l < 256 ^ Z.of_nat (length l).
Proof.
  induction 1 as [|b l Hb Hl IH]; simpl; [lia|].
  rewrite Nat2Z.inj_succ, Z.pow_succ_r by lia. unfold is_u8 in Hb. lia.
Qed.

Lemma length_le_bytes n x : length (le_bytes n x) = n.
Proof. revert x; induction n; intros; simpl; auto. Qed.

Lemma le_bytes_byte n x : is_byte_list (le_bytes n x).
Proof.
  revert x; induction n as [|n IH]; intros x; simpl; constructor; [|apply IH].
  apply Z.mod_pos_bound; lia.
Qed.

Lemma le_val_bytes n x : 0 <= x < 256 ^ Z.of_nat n → le_val (le_bytes n x) = x.
Proof.
  revert x; induction n as [|n IH]; intros x Hx; simpl.
  - simpl in Hx. lia.
  - rewrite Nat2Z.inj_succ, Z.pow_succ_r in Hx by lia. rewrite IH; [|zmod].
    pose proof (Z.div_mod x 256). lia.
Qed.

Lemma le_bytes_val l : is_byte_list l → le_bytes (length l) (le_val l) = l.
Proof.
  induction 1 as [|b l Hb Hl IH]; [done|]. unfold is_u8 in Hb. simpl.
  replace ((b + 256 * le_val l) mod 256) with b by zmod.
  replace ((b + 256 * le_val l) / 256) with (le_val l) by zmod.
  by rewrite IH.
Qed.

Lemma le_val_app l1 l2 : le_val (l1 ++ l2) = le_val l1 + 256 ^ Z.of_nat (length l1) * le_val l2.
Proof.
  induction l1 as [|b l1 IH]; simpl; [lia|].
  rewrite IH, Nat2Z.inj_succ, Z.pow_succ_r by lia. lia.
Qed.

Lemma slice_app_l off n l1 l2 r : slice off n l1 = Some r → slice off n (l1 ++ l2) = Some r.
Proof.
  unfold slice. repeat case_decide; try done; rewrite ?length_app in *; [|lia].
  intros [= <-]. rewrite drop_app_le by lia. rewrite take_app_le; [done|].
  rewrite length_drop. lia.
Qed.

Lemma slice_app_r off n l1 l2 : slice (length l1 + off) n (l1 ++ l2) = slice off n l2.
Proof.
  unfold slice. rewrite length_app. repeat case_decide; try lia; [|done].
  by rewrite drop_app_add.
Qed.

Lemma slice_all l1 l2 : slice 0 (length l1) (l1 ++ l2) = Some l1.
Proof.
  unfold slice. rewrite length_app. case_decide; [|lia].
  by rewrite drop_0, take_app_length.
Qed.

Lemma slice_length off n l r : slice off n l = Some r → length r = n.
Proof.
  unfold slice. case_decide; [|done]. intros [= <-].
  rewrite length_take, length_drop. lia.
Qed.

(** A load of an encoded field. *)
Lemma load_le_bytes n x l1 l2 :
  0 <= x < 256 ^ Z.of_nat n → load_le n (length l1) (l1 ++ le_bytes n x ++ l2) = Some x.
Proof.
  intros Hx. unfold load_le. rewrite <- (Nat.add_0_r (length l1)), slice_app_r.
  rewrite <- (length_le_bytes n x) at 1. rewrite slice_all. simpl. by rewrite le_val_bytes.
Qed.

Lemma load_le_take n off l : (off + n <= length l)%nat → load_le n off l = Some (le_val (take n (drop off l))).
Proof. intros H. unfold load_le, slice. destruct (decide _); done. Qed.

Lemma load_le_app n off l1 l2 : (off + n <= length l1)%nat → load_le n off (l1 ++ l2) = load_le n off l1.
Proof.
  intros Hle. unfold load_le. destruct (slice off n l1) as [r|] eqn:Hs.
  - by rewrite (slice_app_l _ _ _ l2 _ Hs).
  - unfold slice in Hs. case_decide; [done|lia].
Qed.

(** A store of [bs] at [off] of a buffer. *)
Definition splice (off : nat) (bs l : bytes) : bytes := take off l ++ bs ++ drop (off + length bs) l.

Lemma splice_restore off bs l :
  (off + length bs <= length l)%nat →
  splice off (take (length bs) (drop off l)) (splice off bs l) = l.
Proof.
  intros H. unfold splice. rewrite length_take_le by (rewrite length_drop; lia).
  assert (Hto : length (take off l) = off) by (rewrite length_take; lia).
  rewrite take_app_le, take_take, Nat.min_id by lia.
  rewrite drop_app_ge, Hto by lia. replace (off + length bs - off)%nat with (length bs) by lia.
  rewrite drop_app_length. rewrite <- drop_drop, take_drop. apply take_drop.
Qed.

Lemma length_splice off bs l : (off + length bs <= length l)%nat → length (splice off bs l) = length l.
Proof. intros H. unfold splice. rewrite !length_app, length_take, length_drop. lia. Qed.

Lemma splice_byte off bs l : is_byte_list bs → is_byte_list l → is_byte_list (splice off bs l).
Proof. intros Hb Hl. unfold splice. repeat apply Forall_app_2; auto using Forall_take, Forall_drop. Qed.

(** What was stored, and the bytes beside it. *)
Lemma splice_eq off bs l : (off + length bs <= length l)%nat → take (length bs) (drop off (splice off bs l)) = bs.
Proof.
  intros H. unfold splice. rewrite drop_app_ge by (rewrite length_take; lia).
  rewrite length_take, Nat.min_l, Nat.sub_diag, drop_0 by lia. apply take_app_length.
Qed.

Lemma splice_ne off bs l o k :
  (off + length bs <= length l)%nat → (o + k <= off ∨ off + length bs <= o)%nat →
  take k (drop o (splice off bs l)) = take k (drop o l).
Proof.
  intros H [Ho|Ho]; unfold splice.
  - rewrite drop_app_le, take_app_le by (rewrite ?length_drop, length_take; lia).
    by rewrite skipn_firstn_comm, take_take, Nat.min_l by lia.
  - rewrite app_assoc, drop_app_ge by (rewrite length_app, length_take; lia).
    rewrite length_app, length_take, drop_drop. do 2 f_equal. lia.
Qed.

(** ** Lists and options *)

Lemma bind_Some_inv {A B} (m : option A) (f : A → option B) b :
  (m ≫= f) = Some b → ∃ a, m = Some a ∧ f a = Some b.
Proof. destruct m; simpl; [eauto|done]. Qed.

Lemma elem_mid {A} (l1 : list A) b l2 : b ∈ l1 ++ b :: l2.
Proof. apply elem_of_app. right. by left. Qed.

Lemma elem_insert_mid {A} (l1 : list A) b l2 d : d ∈ l1 ++ l2 → d ∈ l1 ++ b :: l2.
Proof. rewrite !elem_of_app, elem_of_cons. tauto. Qed.

Lemma Forall_take_drop {A} (P : A → Prop) n l : Forall P l → Forall P (take n l) ∧ Forall P (drop n l).
Proof. intros. split; [by apply Forall_take|by apply Forall_drop]. Qed.

(** Invert the binds, ifs and matches of an executable definition that
    returned [Some]. *)
Ltac some_inv :=
  repeat match goal with
  | H : None = Some _ |- _ => discriminate H
  | H : Some _ = Some _ |- _ => injection H as H; try subst
  | H : (_ ≫= _) = Some _ |- _ => apply bind_Some_inv in H as (? & ? & H)
  | H : context [if ?b then _ else _] |- _ => destruct b eqn:?; try discriminate H
  | H : context [match ?x with _ => _ end] |- _ => destruct x eqn:?; try discriminate H
  end.

(** Reduce a bind on a value already known. *)
Ltac sbind := cbn [mbind option_bind].

(** Turn boolean comparisons of the code into propositions. *)
Ltac bool_to_prop :=
  repeat match goal with
  | H : (_ && _) = true |- _ => apply andb_true_iff in H as [? H]
  | H : (_ || _) = false |- _ => apply orb_false_iff in H as [? H]
  | H : negb _ = true |- _ => apply negb_true_iff in H
  | H : negb _ = false |- _ => apply negb_false_iff in H
  | H : (_ <? _) = true |- _ => apply Z.ltb_lt in H
  | H : (_ <? _) = false |- _ => apply Z.ltb_ge in H
  | H : (_ <=? _) = true |- _ => apply Z.leb_le in H
  | H : (_ <=? _) = false |- _ => apply Z.leb_gt in H
  | H : (_ =? _) = true |- _ => apply Z.eqb_eq in H
  | H : (_ =? _) = false |- _ => apply Z.eqb_neq in H
  end.
