(* ===== verification/Crc32.v ===== *)
(** * CRC-32 (spl/common/crc32.c)

    The table-driven CRC that guards the environment blocks ([env.c]) and, in
    the flashing tool, the partition tables ([sprite_verify.c]).  The file
    proves that the table-driven loop computes the reflected CRC-32 of
    polynomial 0xEDB88320 bit by bit, that it detects every corruption
    confined to four consecutive bytes, and what its ignored first argument
    means for callers. *)

From S2P Require Import Prelude.

Local Open Scope Z_scope.

(** ** The code *)

Definition crc32_table : list Z :=
  [ 0x00000000; 0x77073096; 0xEE0E612C; 0x990951BA; 0x076DC419; 0x706AF48F;
    0xE963A535; 0x9E6495A3; 0x0EDB8832; 0x79DCB8A4; 0xE0D5E91E; 0x97D2D988;
    0x09B64C2B; 0x7EB17CBD; 0xE7B82D07; 0x90BF1D91; 0x1DB71064; 0x6AB020F2;
    0xF3B97148; 0x84BE41DE; 0x1ADAD47D; 0x6DDDE4EB; 0xF4D4B551; 0x83D385C7;
    0x136C9856; 0x646BA8C0; 0xFD62F97A; 0x8A65C9EC; 0x14015C4F; 0x63066CD9;
    0xFA0F3D63; 0x8D080DF5; 0x3B6E20C8; 0x4C69105E; 0xD56041E4; 0xA2677172;
    0x3C03E4D1; 0x4B04D447; 0xD20D85FD; 0xA50AB56B; 0x35B5A8FA; 0x42B2986C;
    0xDBBBC9D6; 0xACBCF940; 0x32D86CE3; 0x45DF5C75; 0xDCD60DCF; 0xABD13D59;
    0x26D930AC; 0x51DE003A; 0xC8D75180; 0xBFD06116; 0x21B4F4B5; 0x56B3C423;
    0xCFBA9599; 0xB8BDA50F; 0x2802B89E; 0x5F058808; 0xC60CD9B2; 0xB10BE924;
    0x2F6F7C87; 0x58684C11; 0xC1611DAB; 0xB6662D3D; 0x76DC4190; 0x01DB7106;
    0x98D220BC; 0xEFD5102A; 0x71B18589; 0x06B6B51F; 0x9FBFE4A5; 0xE8B8D433;
    0x7807C9A2; 0x0F00F934; 0x9609A88E; 0xE10E9818; 0x7F6A0DBB; 0x086D3D2D;
    0x91646C97; 0xE6635C01; 0x6B6B51F4; 0x1C6C6162; 0x856530D8; 0xF262004E;
    0x6C0695ED; 0x1B01A57B; 0x8208F4C1; 0xF50FC457; 0x65B0D9C6; 0x12B7E950;
    0x8BBEB8EA; 0xFCB9887C; 0x62DD1DDF; 0x15DA2D49; 0x8CD37CF3; 0xFBD44C65;
    0x4DB26158; 0x3AB551CE; 0xA3BC0074; 0xD4BB30E2; 0x4ADFA541; 0x3DD895D7;
    0xA4D1C46D; 0xD3D6F4FB; 0x4369E96A; 0x346ED9FC; 0xAD678846; 0xDA60B8D0;
    0x44042D73; 0x33031DE5; 0xAA0A4C5F; 0xDD0D7CC9; 0x5005713C; 0x270241AA;
    0xBE0B1010; 0xC90C2086; 0x5768B525; 0x206F85B3; 0xB966D409; 0xCE61E49F;
    0x5EDEF90E; 0x29D9C998; 0xB0D09822; 0xC7D7A8B4; 0x59B33D17; 0x2EB40D81;
    0xB7BD5C3B; 0xC0BA6CAD; 0xEDB88320; 0x9ABFB3B6; 0x03B6E20C; 0x74B1D29A;
    0xEAD54739; 0x9DD277AF; 0x04DB2615; 0x73DC1683; 0xE3630B12; 0x94643B84;
    0x0D6D6A3E; 0x7A6A5AA8; 0xE40ECF0B; 0x9309FF9D; 0x0A00AE27; 0x7D079EB1;
    0xF00F9344; 0x8708A3D2; 0x1E01F268; 0x6906C2FE; 0xF762575D; 0x806567CB;
    0x196C3671; 0x6E6B06E7; 0xFED41B76; 0x89D32BE0; 0x10DA7A5A; 0x67DD4ACC;
    0xF9B9DF6F; 0x8EBEEFF9; 0x17B7BE43; 0x60B08ED5; 0xD6D6A3E8; 0xA1D1937E;
    0x38D8C2C4; 0x4FDFF252; 0xD1BB67F1; 0xA6BC5767; 0x3FB506DD; 0x48B2364B;
    0xD80D2BDA; 0xAF0A1B4C; 0x36034AF6; 0x41047A60; 0xDF60EFC3; 0xA867DF55;
    0x316E8EEF; 0x4669BE79; 0xCB61B38C; 0xBC66831A; 0x256FD2A0; 0x5268E236;
    0xCC0C7795; 0xBB0B4703; 0x220216B9; 0x5505262F; 0xC5BA3BBE; 0xB2BD0B28;
    0x2BB45A92; 0x5CB36A04; 0xC2D7FFA7; 0xB5D0CF31; 0x2CD99E8B; 0x5BDEAE1D;
    0x9B64C2B0; 0xEC63F226; 0x756AA39C; 0x026D930A; 0x9C0906A9; 0xEB0E363F;
    0x72076785; 0x05005713; 0x95BF4A82; 0xE2B87A14; 0x7BB12BAE; 0x0CB61B38;
    0x92D28E9B; 0xE5D5BE0D; 0x7CDCEFB7; 0x0BDBDF21; 0x86D3D2D4; 0xF1D4E242;
    0x68DDB3F8; 0x1FDA836E; 0x81BE16CD; 0xF6B9265B; 0x6FB077E1; 0x18B74777;
    0x88085AE6; 0xFF0F6A70; 0x66063BCA; 0x11010B5C; 0x8F659EFF; 0xF862AE69;
    0x616BFFD3; 0x166CCF45; 0xA00AE278; 0xD70DD2EE; 0x4E048354; 0x3903B3C2;
    0xA7672661; 0xD06016F7; 0x4969474D; 0x3E6E77DB; 0xAED16A4A; 0xD9D65ADC;
    0x40DF0B66; 0x37D83BF0; 0xA9BCAE53; 0xDEBB9EC5; 0x47B2CF7F; 0x30B5FFE9;
    0xBDBDF21C; 0xCABAC28A; 0x53B39330; 0x24B4A3A6; 0xBAD03605; 0xCDD70693;
    0x54DE5729; 0x23D967BF; 0xB3667A2E; 0xC4614AB8; 0x5D681B02; 0x2A6F2B94;
    0xB40BBE37; 0xC30C8EA1; 0x5A05DF1B; 0x2D02EF8D ].

(** One iteration of the loop of [crc32_0]. *)
Definition crc32_step (crc b : Z) : Z :=
  Z.lxor (Z.land (Z.shiftr crc 8) 0x00FFFFFF)
         (nth (Z.to_nat (Z.land (Z.lxor crc b) 0x000000FF)) crc32_table 0).

Fixpoint crc32_loop (crc : Z) (data : bytes) (length : nat) {struct length} : option Z :=
  match length with
  | O => Some crc
  | S length' =>
      match data with
      | [] => None                      (* read past the buffer *)
      | b :: data' => crc32_loop (crc32_step crc b) data' length'
      end
  end.

Definition crc32_0 (data : bytes) (length : nat) : option Z :=
  crc ← crc32_loop 0xFFFFFFFF data length; Some (Z.lxor crc 0xFFFFFFFF).

(** The first argument is not used by the source. *)
Definition crc32 (crc : Z) (buf : bytes) (len : nat) : option Z := crc32_0 buf len.

(** ** The reference: one polynomial division step per bit *)

Definition crc_poly : Z := 0xEDB88320.

Definition crc_bit (c : Z) : Z :=
  if Z.testbit c 0 then Z.lxor (Z.shiftr c 1) crc_poly else Z.shiftr c 1.

Fixpoint crc_bits (n : nat) (c : Z) : Z :=
  match n with O => c | S n' => crc_bits n' (crc_bit c) end.

Definition crc_byte (c b : Z) : Z := crc_bits 8 (Z.lxor c b).

Definition crc_state (c : Z) (l : bytes) : Z := fold_left crc_byte l c.

Definition crc_ref (l : bytes) : Z := Z.lxor (crc_state 0xFFFFFFFF l) 0xFFFFFFFF.

(** ** Lemmas *)

Abbreviation word32 c := (0 <= c < 2 ^ 32) (only parsing).

Lemma crc_bit_word c : word32 c → word32 (crc_bit c).
Proof.
  intros Hc. assert (word32 (Z.shiftr c 1)).
  { rewrite Z.shiftr_div_pow2 by lia. change (2 ^ 32) with 4294967296 in *. zmod. }
  unfold crc_bit. case_match; [|done]. apply lxor_bound; [lia|done|].
  unfold crc_poly. lia.
Qed.

Lemma crc_bits_word n c : word32 c → word32 (crc_bits n c).
Proof. revert c. induction n; simpl; intros; auto using crc_bit_word. Qed.

Lemma crc_bit_lxor a b : crc_bit (Z.lxor a b) = Z.lxor (crc_bit a) (crc_bit b).
Proof.
  unfold crc_bit. rewrite Z.lxor_spec, Z.shiftr_lxor.
  destruct (Z.testbit a 0), (Z.testbit b 0); simpl; bits_ext n Hn;
    rewrite !Z.lxor_spec; by repeat destruct (Z.testbit _ _).
Qed.

Lemma crc_bits_lxor n a b : crc_bits n (Z.lxor a b) = Z.lxor (crc_bits n a) (crc_bits n b).
Proof. revert a b. induction n; simpl; intros; [done|]. by rewrite crc_bit_lxor. Qed.

(** The low zero bits are shifted out unchanged. *)
Lemma crc_bits_shift n c :
  0 <= c → crc_bits n (Z.shiftl c (Z.of_nat n)) = c.
Proof.
  revert c. induction n as [|n IH]; intros c Hc; simpl; [by rewrite Z.shiftl_0_r|].
  assert (crc_bit (Z.shiftl c (Z.of_nat (S n))) = Z.shiftl c (Z.of_nat n)) as ->; [|auto].
  unfold crc_bit. rewrite Z.shiftl_spec_low by lia.
  rewrite Z.shiftr_shiftl_l by lia. f_equal. lia.
Qed.

Lemma crc_bits_split n m c : crc_bits (n + m) c = crc_bits m (crc_bits n c).
Proof. revert c. induction n; simpl; auto. Qed.

(** The 256 table entries are the reference applied to the index. *)
Lemma crc32_table_spec i :
  0 <= i < 256 → nth (Z.to_nat i) crc32_table 0 = crc_bits 8 i.
Proof.
  intros Hi.
  assert (Forall (λ i : nat, nth i crc32_table 0 = crc_bits 8 (Z.of_nat i)) (seq 0 256)) as Hall.
  { apply (bool_decide_unpack _). vm_compute. exact I. }
  rewrite Forall_forall in Hall. specialize (Hall (Z.to_nat i)).
  rewrite Z2Nat.id in Hall by lia. apply Hall, elem_of_seq. lia.
Qed.

Lemma split_low_byte x : x = Z.lxor (Z.shiftl (Z.shiftr x 8) 8) (Z.land x 255).
Proof.
  change 255 with (Z.ones 8). bits_ext n Hn. rewrite Z.lxor_spec, Z.shiftl_spec by lia.
  destruct (decide (n < 8)) as [Hlt|Hge].
  - rewrite (Z.testbit_neg_r _ (n - 8)), Z.land_spec, Z.ones_spec_low by lia.
    by rewrite andb_true_r, xorb_false_l.
  - rewrite Z.shiftr_spec, Z.land_spec, Z.ones_spec_high by lia.
    rewrite andb_false_r, xorb_false_r. f_equal. lia.
Qed.

Lemma crc32_step_spec c b : word32 c → is_u8 b → crc32_step c b = crc_byte c b.
Proof.
  intros Hc Hb. unfold crc32_step, crc_byte.
  assert (Z.shiftr (Z.lxor c b) 8 = Z.shiftr c 8) as Hhi.
  { rewrite Z.shiftr_lxor. assert (Z.shiftr b 8 = 0) as ->; [|by rewrite Z.lxor_0_r].
    rewrite Z.shiftr_div_pow2 by lia. unfold is_u8 in Hb. change (2 ^ 8) with 256. zmod. }
  assert (word32 (Z.shiftr c 8) ∧ Z.shiftr c 8 < 2 ^ 24) as [Hs Hs24].
  { rewrite Z.shiftr_div_pow2 by lia. change (2 ^ 8) with 256. change (2 ^ 32) with 4294967296 in *.
    change (2 ^ 24) with 16777216. zmod. }
  rewrite crc32_table_spec by (apply (land_bound_r _ 255 8); lia).
  rewrite (split_low_byte (Z.lxor c b)) at 2. rewrite crc_bits_lxor, Hhi.
  rewrite (crc_bits_shift 8) by lia. f_equal.
  change 0xFFFFFF with (Z.ones 24). rewrite Z.land_ones by lia. apply Z.mod_small. lia.
Qed.

Lemma crc_byte_word c b : word32 c → is_u8 b → word32 (crc_byte c b).
Proof.
  intros Hc Hb. apply crc_bits_word, lxor_bound; [lia|done|]. unfold is_u8 in Hb. lia.
Qed.

Lemma crc_state_word c l : word32 c → is_byte_list l → word32 (crc_state c l).
Proof.
  intros Hc Hl. revert c Hc. induction Hl; simpl; intros; auto using crc_byte_word.
Qed.

Lemma crc_state_app c l1 l2 : crc_state c (l1 ++ l2) = crc_state (crc_state c l1) l2.
Proof. apply fold_left_app. Qed.

Lemma crc32_loop_spec c l rest :
  word32 c → is_byte_list l → crc32_loop c (l ++ rest) (length l) = Some (crc_state c l).
Proof.
  intros Hc Hl. revert c Hc. induction Hl as [|b l Hb Hl IH]; intros c Hc; simpl; [done|].
  rewrite crc32_step_spec by done. by apply IH, crc_byte_word.
Qed.

(** Processing a run of bytes is one long division of the state xor the
    little-endian value of the run. *)
Lemma crc_state_bits c l :
  is_byte_list l → crc_state c l = crc_bits (8 * length l) (Z.lxor c (le_val l)).
Proof.
  intros Hl. revert c. induction Hl as [|b l Hb Hl IH]; intros c.
  { simpl. by rewrite Z.lxor_0_r. }
  change (crc_state c (b :: l)) with (crc_state (crc_byte c b) l).
  rewrite IH. change (length (b :: l)) with (S (length l)).
  replace (8 * S (length l))%nat with (8 + 8 * length l)%nat by lia.
  rewrite crc_bits_split. f_equal. unfold crc_byte. change (le_val (b :: l)) with (b + 256 * le_val l).
  assert (b + 256 * le_val l = Z.lxor b (Z.shiftl (le_val l) 8)) as ->.
  { pose proof (le_val_bound l Hl). rewrite Z.shiftl_mul_pow2 by lia.
    rewrite <- Z.add_nocarry_lxor; [lia|]. bits_ext n Hn. rewrite Z.land_spec, Z.bits_0.
    destruct (decide (n < 8)).
    - rewrite Z.mul_pow2_bits_low by lia. apply andb_false_r.
    - by rewrite (testbit_above b 8 n) by (unfold is_u8 in Hb; lia). }
  rewrite <- Z.lxor_assoc, (crc_bits_lxor 8 (Z.lxor c b)). pose proof (le_val_bound l Hl).
  by rewrite (crc_bits_shift 8) by lia.
Qed.

Lemma crc_bit_inj a b : word32 a → word32 b → crc_bit a = crc_bit b → a = b.
Proof.
  intros Ha Hb Heq.
  assert (∀ c, word32 c → Z.testbit (crc_bit c) 31 = Z.testbit c 0) as Htop.
  { intros c Hc. unfold crc_bit.
    assert (Z.testbit (Z.shiftr c 1) 31 = false) as Hz.
    { rewrite Z.shiftr_spec by lia. apply (testbit_above c 32); lia. }
    destruct (Z.testbit c 0) eqn:?; [rewrite Z.lxor_spec|]; by rewrite Hz. }
  assert (Z.testbit a 0 = Z.testbit b 0) as H0 by (by rewrite <- !Htop, Heq by done).
  assert (Z.shiftr a 1 = Z.shiftr b 1) as Hs.
  { unfold crc_bit in Heq. rewrite H0 in Heq. destruct (Z.testbit b 0); [|done].
    rewrite <- (Z.lxor_0_r (Z.shiftr a 1)), <- (Z.lxor_0_r (Z.shiftr b 1)).
    by rewrite <- (Z.lxor_nilpotent crc_poly), <- !Z.lxor_assoc, Heq. }
  bits_ext n Hn. destruct (decide (n = 0)) as [->|]; [done|].
  apply (f_equal (λ z, Z.testbit z (n - 1))) in Hs.
  rewrite !Z.shiftr_spec in Hs by lia. by replace (n - 1 + 1) with n in Hs by lia.
Qed.

Lemma crc_bits_inj n a b : word32 a → word32 b → crc_bits n a = crc_bits n b → a = b.
Proof.
  revert a b. induction n as [|n IH]; simpl; intros a b Ha Hb Heq; [done|].
  apply crc_bit_inj; [done..|]. apply IH; auto using crc_bit_word.
Qed.

Lemma lxor_inj_r c a b : Z.lxor c a = Z.lxor c b → a = b.
Proof.
  intros H. rewrite <- (Z.lxor_0_l a), <- (Z.lxor_0_l b), <- (Z.lxor_nilpotent c).
  by rewrite !Z.lxor_assoc, H.
Qed.

Lemma crc_state_inj c1 c2 l :
  word32 c1 → word32 c2 → is_byte_list l → crc_state c1 l = crc_state c2 l → c1 = c2.
Proof.
  intros H1 H2 Hl. revert c1 c2 H1 H2. induction Hl as [|b l Hb Hl IH]; simpl; intros; [done|].
  assert (crc_byte c1 b = crc_byte c2 b) as Heq by auto using crc_byte_word.
  unfold crc_byte in Heq. rewrite !(Z.lxor_comm _ b) in Heq.
  apply crc_bits_inj in Heq; [by eapply lxor_inj_r|..]; unfold is_u8 in Hb; apply lxor_bound; lia.
Qed.

Lemma crc_window_inj c l1 l2 :
  word32 c → is_byte_list l1 → is_byte_list l2 → length l1 = length l2 → (length l1 <= 4)%nat →
  crc_state c l1 = crc_state c l2 → l1 = l2.
Proof.
  intros Hc Hl1 Hl2 Hlen H4 Heq. rewrite !crc_state_bits, Hlen in Heq by done.
  assert (∀ l, is_byte_list l → (length l <= 4)%nat → word32 (le_val l)) as Hw.
  { intros l Hl Hle. pose proof (le_val_bound l Hl).
    assert (256 ^ Z.of_nat (length l) <= 256 ^ 4) by (apply Z.pow_le_mono_r; lia). lia. }
  apply crc_bits_inj in Heq; [|apply lxor_bound; auto with lia..].
  apply lxor_inj_r in Heq. rewrite <- (le_bytes_val l1), <- (le_bytes_val l2) by done. congruence.
Qed.

Lemma crc32_loop_over c l n : (length l < n)%nat → crc32_loop c l n = None.
Proof.
  revert c n. induction l as [|b l IH]; intros c [|n] Hn; simpl in *; try lia; [done|].
  apply IH. lia.
Qed.

Lemma crc32_take crc buf len :
  is_byte_list buf → (len <= length buf)%nat → crc32 crc buf len = Some (crc_ref (take len buf)).
Proof.
  intros Hb Hlen. unfold crc32, crc32_0.
  pose proof (crc32_loop_spec 0xFFFFFFFF (take len buf) (drop len buf)) as Hloop.
  rewrite take_drop, length_take_le in Hloop by done.
  rewrite Hloop; [done|lia|by apply Forall_take].
Qed.

(** ** Theorems *)

(** C35: on every byte buffer the table-driven [crc32] returns the CRC-32
    computed by one polynomial division step per bit (reflected polynomial
    0xEDB88320, initial value and final xor 0xFFFFFFFF) of the first [len]
    bytes, whatever its first argument; it reads past the buffer exactly when
    [len] exceeds its length. *)
Theorem crc32_is_reference crc buf len :
  is_byte_list buf →
  crc32 crc buf len =
    if decide (len <= length buf)%nat then Some (crc_ref (take len buf)) else None.
Proof.
  intros Hb. case_decide; [by apply crc32_take|].
  unfold crc32, crc32_0. rewrite crc32_loop_over by lia. done.
Qed.

Lemma crc32_is_reference_witness :
  crc32 0 [0x31; 0x32; 0x33; 0x34; 0x35; 0x36; 0x37; 0x38; 0x39] 9 = Some 0xCBF43926.
Proof.
  rewrite crc32_is_reference; [vm_compute; reflexivity|].
  apply (bool_decide_unpack _). vm_compute. exact I.
Defined.

(** Two buffers that differ only inside one window of at most four bytes
    have different checksums, so such a corruption of a stored block is
    always detected. *)
Theorem crc32_detects_burst crc pre w1 w2 post n :
  is_byte_list (pre ++ w1 ++ post) → is_byte_list w2 →
  length w1 = length w2 → (length w1 <= 4)%nat → w1 ≠ w2 →
  n = length (pre ++ w1 ++ post) →
  crc32 crc (pre ++ w1 ++ post) n ≠ crc32 crc (pre ++ w2 ++ post) n.
Proof.
  unfold is_byte_list. rewrite !Forall_app. intros (Hp & Hw1 & Hq) Hw2 Hl H4 Hne ->.
  rewrite !crc32_take, !firstn_all; try (rewrite ?length_app, ?Hl; lia);
    try (unfold is_byte_list; by rewrite ?Forall_app).
  rewrite !length_app, Hl, <- !length_app, firstn_all. intros [= Heq].
  unfold crc_ref in Heq. rewrite !(Z.lxor_comm _ 0xFFFFFFFF) in Heq. apply lxor_inj_r in Heq.
  rewrite !crc_state_app in Heq.
  assert (word32 (crc_state 0xFFFFFFFF pre)) by (apply crc_state_word; [lia|done]).
  apply crc_state_inj in Heq; [|by apply crc_state_word..|done].
  by apply crc_window_inj in Heq.
Qed.

Lemma crc32_detects_burst_witness :
  crc32 0 ([1; 2] ++ [3; 4] ++ [5]) 5 ≠ crc32 0 ([1; 2] ++ [7; 7] ++ [5]) 5.
Proof.
  apply crc32_detects_burst; try reflexivity; try (simpl; lia); try done;
    apply (bool_decide_unpack _); vm_compute; exact I.
Defined.
