(* ===== verification/Mem.v ===== *)
(** * Memory copies (spl/common/memcpy_sunxi.c, memset_sunxi.c, string.c)

    Byte-addressed memory and the block operations of the boot loader:
    [memcpy] (16-byte unrolled, word and byte loops), [memcpy_large] (8-byte
    words), [memset] (alignment prologue, replicated word, byte tail) and
    [memmove] (forward through [memcpy], or backward byte by byte).  [long] is
    32 bits wide, as on the ARM and RV32 cores this loader is built for.  The
    theorems give each routine's effect as one write of the bytes that were in
    the source before the call, also when the two ranges of [memmove]
    overlap. *)

From S2P Require Import Prelude.

Local Open Scope Z_scope.

(** ** Memory *)

(** The bytes of the mapped addresses; an access outside them faults. *)
Abbreviation mem := (gmap Z Z).

Fixpoint load_n (n : nat) (m : mem) (a : Z) : option bytes :=
  match n with
  | O => Some []
  | S n' => b ← m !! a; bs ← load_n n' m (a + 1); Some (b :: bs)
  end.

Definition store_byte (m : mem) (a v : Z) : option mem :=
  match m !! a with Some _ => Some (<[a := v]> m) | None => None end.

Fixpoint store_n (m : mem) (a : Z) (bs : bytes) : option mem :=
  match bs with
  | [] => Some m
  | b :: bs' => m' ← store_byte m a b; store_n m' (a + 1) bs'
  end.

(** [*dst = *src] on a [k]-byte object: the whole object is read first. *)
Definition copy_obj (k : nat) (m : mem) (dst src : Z) : option mem :=
  bs ← load_n k m src; store_n m dst bs.

(** ** memcpy_sunxi.c *)

Definition LITTLEBLOCKSIZE : Z := 4.
Definition BIGBLOCKSIZE : Z := 16.
Definition LARGEBLOCKSIZE : Z := 32.

Definition UNALIGNED (x y : Z) : bool := negb (Z.lor (Z.land x 3) (Z.land y 3) =? 0).
Definition TOO_SMALL (len : Z) : bool := len <? BIGBLOCKSIZE.

(** Four consecutive [*d++ = *s++] on [k]-byte words. *)
Definition copy4 (k : nat) (m : mem) (dst src : Z) : option mem :=
  let w := Z.of_nat k in
  m ← copy_obj k m dst src;
  m ← copy_obj k m (dst + w) (src + w);
  m ← copy_obj k m (dst + 2 * w) (src + 2 * w);
  copy_obj k m (dst + 3 * w) (src + 3 * w).

(** [while (len0 >= 4 * k)]: the unrolled loop on [k]-byte words. *)
Fixpoint memcpy_big (k fuel : nat) (m : mem) (dst src len : Z) : option (mem * Z * Z * Z) :=
  match fuel with
  | O => None
  | S f =>
      let blk := 4 * Z.of_nat k in
      if blk <=? len then
        m ← copy4 k m dst src; memcpy_big k f m (dst + blk) (src + blk) (len - blk)
      else Some (m, dst, src, len)
  end.

(** [while (len0 >= LITTLEBLOCKSIZE)]; with [k = 1] the residual byte loop. *)
Fixpoint memcpy_little (k fuel : nat) (m : mem) (dst src len : Z) : option (mem * Z * Z * Z) :=
  match fuel with
  | O => None
  | S f =>
      if Z.of_nat k <=? len then
        m ← copy_obj k m dst src;
        memcpy_little k f m (dst + Z.of_nat k) (src + Z.of_nat k) (len - Z.of_nat k)
      else Some (m, dst, src, len)
  end.

Definition memcpy (m : mem) (dst0 src0 len0 : Z) : option mem :=
  let fuel := S (Z.to_nat len0) in
  '(m, dst, src, len) ←
    (if negb (TOO_SMALL len0) && negb (UNALIGNED src0 dst0) then
       '(m, dst, src, len) ← memcpy_big 4 fuel m dst0 src0 len0;
       memcpy_little 4 fuel m dst src len
     else Some (m, dst0, src0, len0));
  '(m, _, _, _) ← memcpy_little 1 fuel m dst src len;
  Some m.

(** [while (len0 > 0)] of [memcpy_large]: [len0] is a [size_t] and wraps. *)
Fixpoint memcpy_large_tail (fuel : nat) (m : mem) (dst src len : Z) : option mem :=
  match fuel with
  | O => None
  | S f =>
      if 0 <? len then
        m ← copy_obj 8 m dst src; memcpy_large_tail f m (dst + 8) (src + 8) (u32 (len - 8))
      else Some m
  end.

Definition memcpy_large (fuel : nat) (m : mem) (dst0 src0 len0 : Z) : option mem :=
  '(m, dst, src, len) ← memcpy_big 8 fuel m dst0 src0 len0;
  memcpy_large_tail fuel m dst src len.

(** ** memset_sunxi.c *)

Definition LBLOCKSIZE : Z := 4.

(** The alignment prologue; [None] in the second component is its early
    [return]. *)
Fixpoint memset_head (fuel : nat) (m : mem) (s c n : Z) : option (mem * option (Z * Z)) :=
  match fuel with
  | O => None
  | S f =>
      if negb (Z.land s 3 =? 0) then
        if n =? 0 then Some (m, None)
        else m ← store_byte m s (u8 c); memset_head f m (s + 1) c (n - 1)
      else Some (m, Some (s, n))
  end.

Definition memset_buffer (c : Z) : Z :=
  let d := Z.land c 0xff in
  let buffer := Z.lor (Z.shiftl d 8) d in
  u32 (Z.lor buffer (Z.shiftl buffer 16)).

(** [k] word stores of [buffer]. *)
Fixpoint store_words (k : nat) (m : mem) (s buffer : Z) : option mem :=
  match k with
  | O => Some m
  | S k' => m ← store_n m s (le_bytes 4 buffer); store_words k' m (s + 4) buffer
  end.

Fixpoint memset_words (k fuel : nat) (m : mem) (s buffer n : Z) : option (mem * Z * Z) :=
  match fuel with
  | O => None
  | S f =>
      let blk := LBLOCKSIZE * Z.of_nat k in
      if blk <=? n then
        m ← store_words k m s buffer; memset_words k f m (s + blk) buffer (n - blk)
      else Some (m, s, n)
  end.

Fixpoint memset_tail (fuel : nat) (m : mem) (s c n : Z) : option mem :=
  match fuel with
  | O => None
  | S f =>
      if n =? 0 then Some m
      else m ← store_byte m s (u8 c); memset_tail f m (s + 1) c (n - 1)
  end.

Definition memset (m0 : mem) (m c n : Z) : option mem :=
  let fuel := (4 + Z.to_nat n)%nat in
  '(m1, st) ← memset_head fuel m0 m c n;
  match st with
  | None => Some m1
  | Some (s, n) =>
      '(m1, s, n) ←
        (if LBLOCKSIZE <=? n then
           let buffer := memset_buffer c in
           '(m1, s, n) ← memset_words 4 fuel m1 s buffer n;
           memset_words 1 fuel m1 s buffer n
         else Some (m1, s, n));
      memset_tail fuel m1 s c n
  end.

(** ** memmove (string.c) *)

(** [while (count--) *--tmp = *--s;] *)
Fixpoint memmove_back (count : nat) (m : mem) (tmp s : Z) : option mem :=
  match count with
  | O => Some m
  | S c =>
      b ← m !! (s - 1); m ← store_byte m (tmp - 1) b; memmove_back c m (tmp - 1) (s - 1)
  end.

Definition memmove (m : mem) (dest src count : Z) : option mem :=
  if dest =? src then Some m
  else if dest <? src then memcpy m dest src count
  else memmove_back (Z.to_nat count) m (dest + count) (src + count).

(** ** Specification: one write of a list of bytes *)

Fixpoint write_bytes (m : mem) (a : Z) (bs : bytes) : mem :=
  match bs with
  | [] => m
  | b :: bs' => write_bytes (<[a := b]> m) (a + 1) bs'
  end.

Definition mapped (m : mem) (a n : Z) : Prop := ∀ x, a <= x < a + n → is_Some (m !! x).

(** An executable test for [mapped]. *)
Definition mappedb (m : mem) (a n : Z) : bool :=
  forallb (λ i : nat, bool_decide (is_Some (m !! (a + Z.of_nat i)))) (seq 0 (Z.to_nat n)).

Lemma mappedb_spec m a n : mappedb m a n = true → mapped m a n.
Proof.
  unfold mappedb, mapped. rewrite forallb_forall. intros H x Hx.
  specialize (H (Z.to_nat (x - a))). rewrite bool_decide_eq_true, Z2Nat.id in H by lia.
  replace (a + (x - a)) with x in H by lia. apply H, in_seq. lia.
Qed.

Lemma mapped_insert m a n x v : mapped m a n → mapped (<[x := v]> m) a n.
Proof.
  intros H y Hy. destruct (decide (x = y)) as [->|].
  - rewrite lookup_insert_eq. eauto.
  - rewrite lookup_insert_ne by done. auto.
Qed.

Lemma mapped_write m a n b bs : mapped m a n → mapped (write_bytes m b bs) a n.
Proof. revert m b. induction bs; simpl; intros; auto using mapped_insert. Qed.

Lemma mapped_sub m a n a' n' : mapped m a n → a <= a' → a' + n' <= a + n → mapped m a' n'.
Proof. intros H ?? x Hx. apply H. lia. Qed.

Lemma store_byte_mapped m a n x v :
  mapped m a n → a <= x < a + n → store_byte m x v = Some (<[x := v]> m).
Proof. intros H Hx. unfold store_byte. destruct (H x Hx) as [? ->]. done. Qed.

Lemma store_n_spec m a bs :
  mapped m a (Z.of_nat (length bs)) → store_n m a bs = Some (write_bytes m a bs).
Proof.
  revert m a. induction bs as [|b bs IH]; intros m a H; [done|].
  cbn [store_n write_bytes]. rewrite length_cons in H.
  rewrite (store_byte_mapped _ _ _ _ _ H) by lia. simpl.
  apply IH, mapped_insert. eapply mapped_sub; [done|lia..].
Qed.

Lemma write_bytes_app m a l1 l2 :
  write_bytes m a (l1 ++ l2) = write_bytes (write_bytes m a l1) (a + Z.of_nat (length l1)) l2.
Proof.
  revert m a. induction l1 as [|b l1 IH]; intros m a; cbn [write_bytes app].
  - f_equal. simpl. lia.
  - rewrite IH. f_equal. rewrite length_cons. lia.
Qed.

Lemma lookup_write_out m a bs x :
  x < a ∨ a + Z.of_nat (length bs) <= x → write_bytes m a bs !! x = m !! x.
Proof.
  revert m a. induction bs as [|b bs IH]; intros m a Hx; [done|].
  rewrite length_cons in Hx. cbn [write_bytes]. rewrite IH by lia.
  apply lookup_insert_ne. lia.
Qed.

Lemma load_write_eq m a bs : load_n (length bs) (write_bytes m a bs) a = Some bs.
Proof.
  revert m a. induction bs as [|b bs IH]; intros m a; [done|]. cbn [length load_n write_bytes].
  rewrite lookup_write_out by lia. rewrite lookup_insert_eq. sbind. by rewrite IH.
Qed.

Lemma load_n_ext n m1 m2 a :
  (∀ x, a <= x < a + Z.of_nat n → m1 !! x = m2 !! x) → load_n n m1 a = load_n n m2 a.
Proof.
  revert a. induction n as [|n IH]; intros a H; [done|]. cbn [load_n].
  rewrite (H a) by lia. rewrite (IH (a + 1)); [done|]. intros. apply H. lia.
Qed.

Lemma load_n_length n m a bs : load_n n m a = Some bs → length bs = n.
Proof.
  revert a bs. induction n as [|n IH]; simpl; intros a bs H; some_inv; [done|].
  simpl. f_equal. eauto.
Qed.

Lemma load_n_app n1 n2 m a bs :
  load_n (n1 + n2) m a = Some bs →
  load_n n1 m a = Some (take n1 bs) ∧ load_n n2 m (a + Z.of_nat n1) = Some (drop n1 bs).
Proof.
  revert a bs. induction n1 as [|n1 IH]; simpl; intros a bs H.
  - rewrite take_0, drop_0. by replace (a + Z.of_nat 0) with a by lia.
  - some_inv. rewrite H0. simpl. destruct (IH _ _ H1) as [-> Hd]. simpl. split; [done|].
    rewrite <- Hd. f_equal. lia.
Qed.

(** The bytes [j .. j+k) of a loaded block. *)
Lemma load_n_sub n m a bs j k :
  load_n n m a = Some bs → (j + k <= n)%nat →
  load_n k m (a + Z.of_nat j) = Some (take k (drop j bs)).
Proof.
  intros H Hle. replace n with (j + (k + (n - j - k)))%nat in H by lia.
  apply load_n_app in H as [_ H]. by apply load_n_app in H as [H _].
Qed.

(** Storing what memory holds changes nothing. *)
Lemma store_same m a bs : load_n (length bs) m a = Some bs → store_n m a bs = Some m.
Proof.
  revert a. induction bs as [|b bs IH]; intros a H; [done|]. cbn [length load_n] in H.
  apply bind_Some_inv in H as (b' & Hb & H). apply bind_Some_inv in H as (bs' & Hbs & [= -> ->]).
  cbn [store_n]. unfold store_byte. rewrite Hb. sbind. rewrite insert_id by done. auto.
Qed.

Lemma store_n_inv m a bs m' : store_n m a bs = Some m' → m' = write_bytes m a bs.
Proof.
  revert m a. induction bs as [|b bs IH]; intros m a H; [by injection H|]. cbn [store_n] in H.
  apply bind_Some_inv in H as (m1 & H1 & H2). unfold store_byte in H1.
  destruct (m !! a); [|done]. injection H1 as <-. by apply IH in H2.
Qed.

Lemma load_n_join n1 n2 m a x y :
  load_n n1 m a = Some x → load_n n2 m (a + Z.of_nat n1) = Some y → load_n (n1 + n2) m a = Some (x ++ y).
Proof.
  revert a x. induction n1 as [|n1 IH]; intros a x Hx Hy; cbn [Nat.add load_n] in *.
  - injection Hx as <-. cbn [app]. rewrite <- Hy. f_equal. lia.
  - apply bind_Some_inv in Hx as (b & Hb & Hx). apply bind_Some_inv in Hx as (x' & Hx' & [= <-]).
    rewrite Hb. sbind. rewrite (IH (a + 1) x' Hx'); [done|]. rewrite <- Hy. f_equal. lia.
Qed.

(** A write inside a block changes the block by a splice. *)
Lemma load_write_inside n m a p off bs :
  load_n n m a = Some p → (off + length bs <= n)%nat →
  load_n n (write_bytes m (a + Z.of_nat off) bs) a = Some (splice off bs p).
Proof.
  intros Hp Ho. set (m' := write_bytes _ _ _). pose proof (load_n_length _ _ _ _ Hp) as Hl.
  assert (load_n off m' a = Some (take off p)) as H1.
  { rewrite (load_n_ext off m' m a); [|intros x Hx; apply lookup_write_out; lia].
    pose proof (load_n_sub n m a p 0 off Hp ltac:(lia)) as H. by rewrite Z.add_0_r, drop_0 in H. }
  assert (load_n (length bs) m' (a + Z.of_nat off) = Some bs) as H2 by apply load_write_eq.
  assert (load_n (n - (off + length bs)) m' (a + Z.of_nat (off + length bs)) = Some (drop (off + length bs) p)) as H3.
  { rewrite (load_n_ext _ m' m); [|intros x Hx; apply lookup_write_out; lia].
    rewrite (load_n_sub n m a p _ _ Hp) by lia. f_equal. apply take_ge. rewrite length_drop. lia. }
  unfold splice. replace n with (off + (length bs + (n - (off + length bs))))%nat by lia.
  apply load_n_join; [done|]. apply load_n_join; [done|]. rewrite <- H3. f_equal. lia.
Qed.

(** ** Forward copying *)

Section forward.
Context (m : mem) (dst src : Z) (bs : bytes).
Context (Hload : load_n (length bs) m src = Some bs)
        (Hmap : mapped m dst (Z.of_nat (length bs)))
        (Hfwd : dst <= src ∨ src + Z.of_nat (length bs) <= dst).

(** The memory after the first [j] bytes. *)
Let st (j : nat) : mem := write_bytes m dst (take j bs).

Lemma copy_obj_step k j :
  (j + k <= length bs)%nat →
  copy_obj k (st j) (dst + Z.of_nat j) (src + Z.of_nat j) = Some (st (j + k)).
Proof.
  intros Hjk. unfold copy_obj.
  assert (length (take j bs) = j) as Hlj by (rewrite length_take; lia).
  rewrite (load_n_ext _ (st j) m).
  2:{ intros x Hx. apply lookup_write_out. rewrite Hlj. lia. }
  rewrite (load_n_sub _ _ _ _ j k Hload) by done. simpl.
  assert (length (take k (drop j bs)) = k) as Hlk by (rewrite length_take, length_drop; lia).
  rewrite store_n_spec.
  - unfold st. rewrite <- Hlj at 2. rewrite <- write_bytes_app, take_take_drop. done.
  - apply mapped_write. rewrite Hlk. eapply mapped_sub; [exact Hmap|lia..].
Qed.

Lemma copy4_step k j :
  (j + 4 * k <= length bs)%nat →
  copy4 k (st j) (dst + Z.of_nat j) (src + Z.of_nat j) = Some (st (j + 4 * k)).
Proof.
  intros Hjk. unfold copy4. rewrite copy_obj_step by lia. sbind.
  assert (∀ i (x : Z), x + Z.of_nat j + Z.of_nat i * Z.of_nat k = x + Z.of_nat (j + i * k)) as Ha
    by (intros; lia).
  pose proof (Ha 1%nat) as H1. pose proof (Ha 2%nat) as H2. pose proof (Ha 3%nat) as H3.
  rewrite Z.mul_1_l in H1. rewrite !H1.
  replace (j + k)%nat with (j + 1 * k)%nat by lia. rewrite copy_obj_step by lia. sbind.
  rewrite !(H2 : ∀ x, x + Z.of_nat j + 2 * Z.of_nat k = _).
  replace (j + 1 * k + k)%nat with (j + 2 * k)%nat by lia. rewrite copy_obj_step by lia. sbind.
  rewrite !(H3 : ∀ x, x + Z.of_nat j + 3 * Z.of_nat k = _).
  replace (j + 2 * k + k)%nat with (j + 3 * k)%nat by lia. rewrite copy_obj_step by lia.
  do 2 f_equal. lia.
Qed.

Let rest (j : nat) : Z := Z.of_nat (length bs) - Z.of_nat j.

Lemma memcpy_big_run k fuel j :
  (0 < k)%nat → (j <= length bs)%nat → (length bs - j < fuel)%nat →
  ∃ q, (j + 4 * k * q <= length bs)%nat ∧ (length bs - (j + 4 * k * q) < 4 * k)%nat ∧
    memcpy_big k fuel (st j) (dst + Z.of_nat j) (src + Z.of_nat j) (rest j) =
    let j' := (j + 4 * k * q)%nat in
    Some (st j', dst + Z.of_nat j', src + Z.of_nat j', rest j').
Proof.
  intros Hk. revert j. induction fuel as [|f IH]; intros j Hj Hf; [lia|].
  cbn [memcpy_big]. destruct (Z.leb_spec (4 * Z.of_nat k) (rest j)) as [Hle|Hgt].
  - rewrite copy4_step by (unfold rest in Hle; lia). sbind.
    destruct (IH (j + 4 * k)%nat) as (q & Hq1 & Hq2 & Hrun); [unfold rest in Hle; lia..|].
    exists (S q). replace (j + 4 * k * S q)%nat with (j + 4 * k + 4 * k * q)%nat by lia.
    split; [lia|]. split; [lia|]. etransitivity; [|exact Hrun].
    unfold rest. f_equal; lia.
  - exists 0%nat. unfold rest in Hgt. replace (j + 4 * k * 0)%nat with j by lia.
    split; [lia|]. split; [lia|]. done.
Qed.

Lemma memcpy_little_run k fuel j :
  (0 < k)%nat → (j <= length bs)%nat → (length bs - j < fuel)%nat →
  ∃ q, (j + k * q <= length bs)%nat ∧ (length bs - (j + k * q) < k)%nat ∧
    memcpy_little k fuel (st j) (dst + Z.of_nat j) (src + Z.of_nat j) (rest j) =
    let j' := (j + k * q)%nat in
    Some (st j', dst + Z.of_nat j', src + Z.of_nat j', rest j').
Proof.
  intros Hk. revert j. induction fuel as [|f IH]; intros j Hj Hf; [lia|].
  cbn [memcpy_little]. destruct (Z.leb_spec (Z.of_nat k) (rest j)) as [Hle|Hgt].
  - rewrite copy_obj_step by (unfold rest in Hle; lia). sbind.
    destruct (IH (j + k)%nat) as (q & Hq1 & Hq2 & Hrun); [unfold rest in Hle; lia..|].
    exists (S q). replace (j + k * S q)%nat with (j + k + k * q)%nat by lia.
    split; [lia|]. split; [lia|]. etransitivity; [|exact Hrun].
    unfold rest. f_equal; lia.
  - exists 0%nat. unfold rest in Hgt. replace (j + k * 0)%nat with j by lia.
    split; [lia|]. split; [lia|]. done.
Qed.

Lemma memcpy_bytes_run fuel j :
  (j <= length bs)%nat → (length bs - j < fuel)%nat →
  memcpy_little 1 fuel (st j) (dst + Z.of_nat j) (src + Z.of_nat j) (rest j) =
  Some (write_bytes m dst bs, dst + Z.of_nat (length bs), src + Z.of_nat (length bs), 0).
Proof.
  intros Hj Hf. destruct (memcpy_little_run 1 fuel j) as (q & Hq1 & Hq2 & ->); [lia..|].
  replace (j + 1 * q)%nat with (length bs) by lia. unfold st, rest.
  rewrite firstn_all, Z.sub_diag. done.
Qed.

Lemma memcpy_forward : memcpy m dst src (Z.of_nat (length bs)) = Some (write_bytes m dst bs).
Proof.
  unfold memcpy. rewrite Nat2Z.id.
  assert (st 0 = m ∧ rest 0 = Z.of_nat (length bs) ∧ ∀ x, x + Z.of_nat 0 = x) as (H0 & Hr0 & Hz).
  { unfold st, rest. rewrite take_0. repeat split; lia. }
  case_match.
  - destruct (memcpy_big_run 4 (S (length bs)) 0) as (q & ? & ? & Hb); [lia..|].
    rewrite H0, Hr0, !Hz in Hb. rewrite Hb. sbind.
    destruct (memcpy_little_run 4 (S (length bs)) (0 + 16 * q)%nat) as (r & ? & ? & Hl); [lia..|].
    etransitivity; [apply (f_equal (λ o, o ≫= _)); exact Hl|]. sbind.
    by rewrite memcpy_bytes_run by lia.
  - pose proof (memcpy_bytes_run (S (length bs)) 0) as Hb.
    rewrite H0, Hr0, !Hz in Hb. sbind. by rewrite Hb by lia.
Qed.
End forward.

Lemma write_insert_comm m a bs x v :
  x < a → <[x := v]> (write_bytes m a bs) = write_bytes (<[x := v]> m) a bs.
Proof.
  revert m a. induction bs as [|b bs IH]; intros m a Hx; [done|]. cbn [write_bytes].
  rewrite IH by lia. f_equal. apply insert_insert_ne. lia.
Qed.

Lemma load_n_lookup n m a bs j :
  load_n n m a = Some bs → (j < n)%nat → m !! (a + Z.of_nat j) = bs !! j.
Proof.
  revert a bs j. induction n as [|n IH]; intros a bs j H Hj; [lia|]. simpl in H. some_inv.
  destruct j as [|j]; simpl.
  - by replace (a + Z.of_nat 0) with a by lia.
  - rewrite <- (IH (a + 1) _ j) by (done || lia). f_equal. lia.
Qed.

(** Backward copying towards higher addresses. *)
Lemma memmove_back_run m dst src bs n :
  load_n (length bs) m src = Some bs → mapped m dst (Z.of_nat (length bs)) → src < dst →
  (n <= length bs)%nat →
  memmove_back n (write_bytes m (dst + Z.of_nat n) (drop n bs)) (dst + Z.of_nat n) (src + Z.of_nat n)
  = Some (write_bytes m dst bs).
Proof.
  intros Hload Hmap Hlt. induction n as [|n IH]; intros Hn.
  { rewrite drop_0, Z.add_0_r. done. }
  destruct (lookup_lt_is_Some_2 bs n) as [b Hb]; [lia|].
  cbn [memmove_back]. rewrite lookup_write_out by lia.
  replace (src + Z.of_nat (S n) - 1) with (src + Z.of_nat n) by lia.
  replace (dst + Z.of_nat (S n) - 1) with (dst + Z.of_nat n) by lia.
  rewrite (load_n_lookup _ _ _ _ n Hload), Hb by lia. sbind.
  rewrite (store_byte_mapped _ dst (Z.of_nat (length bs))) by (lia || by apply mapped_write). sbind.
  rewrite write_insert_comm by lia. rewrite <- IH by lia. f_equal.
  rewrite (drop_S bs b n Hb). cbn [write_bytes]. f_equal. lia.
Qed.

Lemma memmove_spec m dst src bs :
  load_n (length bs) m src = Some bs → mapped m dst (Z.of_nat (length bs)) →
  memmove m dst src (Z.of_nat (length bs)) = Some (write_bytes m dst bs).
Proof.
  intros Hload Hmap. unfold memmove. destruct (Z.eqb_spec dst src) as [->|].
  - f_equal. clear Hmap. revert Hload. generalize (length bs). revert src.
    induction bs as [|b bs IH]; intros a [|n] H; simpl in H; some_inv; try done.
    cbn [write_bytes]. rewrite insert_id by done. by eapply IH.
  - destruct (Z.ltb_spec dst src).
    + apply memcpy_forward; [done..|lia].
    + rewrite Nat2Z.id. pose proof (memmove_back_run m dst src bs (length bs) Hload Hmap) as Hb.
      rewrite drop_all in Hb. apply Hb; lia.
Qed.

(** ** memcpy_large *)

Lemma memcpy_large_tail_run m dst src bs fuel j :
  load_n (length bs) m src = Some bs → mapped m dst (Z.of_nat (length bs)) →
  dst <= src ∨ src + Z.of_nat (length bs) <= dst → Z.of_nat (length bs) < 2 ^ 32 →
  (j <= length bs)%nat → (length bs - j < fuel)%nat → Nat.divide 8 (length bs - j) →
  memcpy_large_tail fuel (write_bytes m dst (take j bs)) (dst + Z.of_nat j) (src + Z.of_nat j)
    (Z.of_nat (length bs) - Z.of_nat j) = Some (write_bytes m dst bs).
Proof.
  intros Hload Hmap Hfwd Hsz. change (2 ^ 32) with 4294967296 in Hsz.
  revert j. induction fuel as [|f IH]; intros j Hj Hf [q Hq]; [lia|].
  cbn [memcpy_large_tail]. destruct (Z.ltb_spec 0 (Z.of_nat (length bs) - Z.of_nat j)).
  - rewrite copy_obj_step by (done || lia). sbind. rewrite u32_small by (unfold is_u32; lia).
    rewrite <- (IH (j + 8)%nat); [f_equal; lia|lia|lia|]. exists (q - 1)%nat. lia.
  - replace j with (length bs) by lia. by rewrite firstn_all.
Qed.

Lemma memcpy_large_spec m dst src bs fuel :
  load_n (length bs) m src = Some bs → mapped m dst (Z.of_nat (length bs)) →
  dst <= src ∨ src + Z.of_nat (length bs) <= dst → Z.of_nat (length bs) < 2 ^ 32 →
  Nat.divide 8 (length bs) → (length bs < fuel)%nat →
  memcpy_large fuel m dst src (Z.of_nat (length bs)) = Some (write_bytes m dst bs).
Proof.
  intros Hload Hmap Hfwd Hsz [k Hk] Hf. unfold memcpy_large.
  destruct (memcpy_big_run m dst src bs Hload Hmap Hfwd 8 fuel 0) as (q & Hq1 & Hq2 & Hb); [lia..|].
  rewrite take_0 in Hb. cbn [write_bytes] in Hb. rewrite !Z.add_0_r, Z.sub_0_r in Hb.
  rewrite Hb. sbind. apply memcpy_large_tail_run; [done..|lia|lia|].
  exists (k - 4 * q)%nat. lia.
Qed.

(** The wrapped length keeps its residue modulo 8, so it never reaches 0. *)
Lemma memcpy_large_tail_diverges fuel m dst src len :
  len mod 8 ≠ 0 → is_u32 len → memcpy_large_tail fuel m dst src len = None.
Proof.
  revert m dst src len. induction fuel as [|f IH]; intros m dst src len Hmod Hlen; [done|].
  cbn [memcpy_large_tail]. unfold is_u32 in Hlen.
  destruct (Z.ltb_spec 0 len); [|assert (len = 0) by lia; subst; done].
  destruct (copy_obj 8 m dst src); [|done]. sbind. apply IH; [|apply u32_bound].
  unfold u32. zmod.
Qed.

Lemma memcpy_big_len k fuel m dst src len m' dst' src' len' :
  (0 < k)%nat → memcpy_big k fuel m dst src len = Some (m', dst', src', len') → 0 <= len →
  0 <= len' <= len ∧ ∃ q, len' = len - 4 * Z.of_nat k * q.
Proof.
  intros Hk. revert m dst src len. induction fuel as [|f IH]; intros m dst src len H Hl; [done|].
  cbn [memcpy_big] in H. destruct (Z.leb_spec (4 * Z.of_nat k) len).
  - some_inv. apply IH in H as [? [q ?]]; [|lia]. split; [lia|]. exists (q + 1). lia.
  - injection H as <- <- <- <-. split; [lia|]. exists 0. lia.
Qed.

(** ** memset *)

Section fill.
Context (m : mem) (a c : Z) (n : nat) (Hmap : mapped m a (Z.of_nat n)).

Let st (j : nat) : mem := write_bytes m a (replicate j (u8 c)).

Lemma fill_step j l :
  (j + length l <= n)%nat → l = replicate (length l) (u8 c) →
  store_n (st j) (a + Z.of_nat j) l = Some (st (j + length l)).
Proof.
  intros Hj Hl. rewrite store_n_spec.
  - unfold st. rewrite replicate_add, <- Hl, write_bytes_app, length_replicate. done.
  - apply mapped_write. eapply mapped_sub; [exact Hmap|lia..].
Qed.

Lemma fill_byte j : (j < n)%nat → store_byte (st j) (a + Z.of_nat j) (u8 c) = Some (st (S j)).
Proof.
  intros Hj. pose proof (fill_step j [u8 c]) as H. simpl in H.
  rewrite Nat.add_1_r in H. rewrite <- H by (done || lia).
  by destruct (store_byte _ _ _).
Qed.

Lemma memset_buffer_bytes : le_bytes 4 (memset_buffer c) = replicate 4 (u8 c).
Proof.
  unfold memset_buffer. change 0xff with (Z.ones 8). rewrite Z.land_ones by lia.
  change (2 ^ 8) with 256. change (c mod 256) with (u8 c).
  pose proof (u8_bound c) as Hd. set (d := u8 c) in *. clearbody d. unfold is_u8 in Hd.
  assert (∀ x k, 0 <= k → 0 <= x < 2 ^ k → Z.lor (Z.shiftl x k) x = 2 ^ k * x + x) as Hlor.
  { intros x k Hk Hx. rewrite Z.shiftl_mul_pow2 by done. rewrite <- Z.add_nocarry_lor; [lia|].
    { bits_ext i Hi. rewrite Z.land_spec, Z.bits_0. destruct (decide (i < k)).
        - by rewrite Z.mul_pow2_bits_low by lia.
        - rewrite (testbit_above x k) by lia. apply andb_false_r. } }
  rewrite (Hlor d 8) by lia. rewrite Z.lor_comm, (Hlor _ 16) by lia.
  change (2 ^ 8) with 256. change (2 ^ 16) with 65536. unfold u32. cbn [le_bytes replicate].
  rewrite (Z.mod_small _ 4294967296) by lia. repeat f_equal; zmod.
Qed.

Lemma store_words_run k j :
  (j + 4 * k <= n)%nat →
  store_words k (st j) (a + Z.of_nat j) (memset_buffer c) = Some (st (j + 4 * k)).
Proof.
  revert j. induction k as [|k IH]; intros j Hj; cbn [store_words].
  - do 2 f_equal. lia.
  - rewrite memset_buffer_bytes, fill_step by (rewrite ?length_replicate; done || lia).
    sbind. rewrite length_replicate.
    replace (a + Z.of_nat j + 4) with (a + Z.of_nat (j + 4)) by lia.
    rewrite IH by lia. do 2 f_equal. lia.
Qed.

Let rest (j : nat) : Z := Z.of_nat n - Z.of_nat j.

Lemma memset_words_run k fuel j :
  (0 < k)%nat → (j <= n)%nat → (n - j < fuel)%nat →
  ∃ j', (j <= j' <= n)%nat ∧
    memset_words k fuel (st j) (a + Z.of_nat j) (memset_buffer c) (rest j) =
    Some (st j', a + Z.of_nat j', rest j').
Proof.
  intros Hk. revert j. induction fuel as [|f IH]; intros j Hj Hf; [lia|].
  cbn [memset_words]. unfold LBLOCKSIZE.
  destruct (Z.leb_spec (4 * Z.of_nat k) (rest j)) as [Hle|Hgt].
  - unfold rest in Hle. rewrite store_words_run by lia. sbind.
    destruct (IH (j + 4 * k)%nat) as (j' & Hj' & Hrun); [lia..|].
    exists j'. split; [lia|]. rewrite <- Hrun. unfold rest. f_equal; lia.
  - exists j. auto.
Qed.

Lemma memset_tail_run fuel j :
  (j <= n)%nat → (n - j < fuel)%nat →
  memset_tail fuel (st j) (a + Z.of_nat j) c (rest j) = Some (st n).
Proof.
  revert j. induction fuel as [|f IH]; intros j Hj Hf; [lia|]. cbn [memset_tail].
  destruct (Z.eqb_spec (rest j) 0) as [He|Hne]; unfold rest in *.
  - replace j with n by lia. done.
  - rewrite fill_byte by lia. sbind. rewrite <- (IH (S j)) by lia. f_equal; lia.
Qed.

Lemma memset_head_run fuel j :
  (j <= n)%nat → (n - j < fuel)%nat →
  ∃ j', (j' <= n)%nat ∧
    memset_head fuel (st j) (a + Z.of_nat j) c (rest j) =
    Some (st j', if decide (j' = n ∧ Z.land (a + Z.of_nat n) 3 ≠ 0) then None
                 else Some (a + Z.of_nat j', rest j')).
Proof.
  revert j. induction fuel as [|f IH]; intros j Hj Hf; [lia|]. cbn [memset_head].
  destruct (Z.eqb_spec (Z.land (a + Z.of_nat j) 3) 0) as [Ha|Ha]; cbn [negb].
  { exists j. split; [done|]. rewrite decide_False; [done|]. intros [-> Hd]. by apply Hd. }
  destruct (Z.eqb_spec (rest j) 0) as [He|Hne]; unfold rest in *.
  - replace j with n in * by lia. exists n. split; [done|]. by rewrite decide_True.
  - rewrite fill_byte by lia. sbind. destruct (IH (S j)) as (j' & ? & Hrun); [lia..|].
    exists j'. split; [done|]. rewrite <- Hrun. f_equal; lia.
Qed.

Lemma memset_spec : memset m a c (Z.of_nat n) = Some (write_bytes m a (replicate n (u8 c))).
Proof.
  unfold memset. rewrite Nat2Z.id.
  destruct (memset_head_run (4 + n) 0) as (j & Hj & Hh); [lia..|].
  unfold st at 1, rest at 1 in Hh. cbn [replicate write_bytes] in Hh.
  rewrite Z.add_0_r, Z.sub_0_r in Hh. rewrite Hh. sbind.
  case_decide as Hd; [by destruct Hd as [-> _]|]. sbind.
  destruct (LBLOCKSIZE <=? rest j).
  - destruct (memset_words_run 4 (4 + n) j) as (j1 & Hj1 & ->); [lia..|]. sbind.
    destruct (memset_words_run 1 (4 + n) j1) as (j2 & Hj2 & ->); [lia..|]. sbind.
    apply memset_tail_run; lia.
  - sbind. apply memset_tail_run; lia.
Qed.
End fill.

(** Memory holding [bs] from address [a]. *)
Definition mem_of (a : Z) (bs : bytes) : mem := write_bytes ∅ a bs.

Lemma mapped_mem_of a bs : mapped (mem_of a bs) a (Z.of_nat (length bs)).
Proof.
  intros x Hx. pose proof (load_write_eq ∅ a bs) as Hl.
  pose proof (load_n_lookup _ _ _ _ (Z.to_nat (x - a)) Hl ltac:(lia)) as Hk.
  replace (a + Z.of_nat (Z.to_nat (x - a))) with x in Hk by lia. unfold mem_of. rewrite Hk.
  apply lookup_lt_is_Some. lia.
Qed.

(** A write that covers an earlier one. *)
Lemma write_bytes_over m a l1 l2 :
  (length l1 <= length l2)%nat → write_bytes (write_bytes m a l1) a l2 = write_bytes m a l2.
Proof.
  intros Hl. apply map_eq. intros x. destruct (decide (a <= x < a + Z.of_nat (length l2))) as [Hin|Hout].
  - pose proof (load_n_lookup _ _ _ _ (Z.to_nat (x - a)) (load_write_eq (write_bytes m a l1) a l2) ltac:(lia)) as H1.
    pose proof (load_n_lookup _ _ _ _ (Z.to_nat (x - a)) (load_write_eq m a l2) ltac:(lia)) as H2.
    replace (a + Z.of_nat (Z.to_nat (x - a))) with x in * by lia. congruence.
  - by rewrite !lookup_write_out by lia.
Qed.

(** ** Memory of bytes *)
Definition byte_mem (m : mem) : Prop := map_Forall (λ _ v, is_u8 v) m.

Lemma byte_mem_load n m a bs : byte_mem m → load_n n m a = Some bs → is_byte_list bs.
Proof.
  intros Hb. revert a bs. induction n as [|n IH]; intros a bs Hl; cbn [load_n] in Hl.
  - injection Hl as <-. by apply Forall_nil.
  - apply bind_Some_inv in Hl as (x & Hx & Hl). apply bind_Some_inv in Hl as (r & Hr & Hl). injection Hl as <-.
    apply Forall_cons. split; [by eapply Hb|by eapply IH].
Qed.

Lemma byte_mem_write m a bs : byte_mem m → is_byte_list bs → byte_mem (write_bytes m a bs).
Proof.
  revert m a. induction bs as [|b bs IH]; intros m a Hm Hb; [done|]. apply Forall_cons in Hb as [Hx Hb].
  cbn [write_bytes]. apply IH; [|done]. by apply map_Forall_insert_2.
Qed.

Lemma byte_mem_store m a bs m' : byte_mem m → is_byte_list bs → store_n m a bs = Some m' → byte_mem m'.
Proof. intros Hm Hb Hs. rewrite (store_n_inv _ _ _ _ Hs). by apply byte_mem_write. Qed.

(** Every routine above keeps memory a memory of bytes. *)
Create HintDb byte_mem.
#[export] Hint Resolve byte_mem_write byte_mem_store le_bytes_byte : byte_mem.

Ltac byte_steps := some_inv; simplify_eq; eauto with byte_mem.

Lemma byte_mem_copy_obj k m d s m' : byte_mem m → copy_obj k m d s = Some m' → byte_mem m'.
Proof. unfold copy_obj. intros Hm Hc. some_inv. eapply byte_mem_store; [done| |done]. by eapply byte_mem_load. Qed.
#[export] Hint Resolve byte_mem_copy_obj : byte_mem.

Lemma byte_mem_copy4 k m d s m' : byte_mem m → copy4 k m d s = Some m' → byte_mem m'.
Proof. unfold copy4. intros Hm Hc. byte_steps. Qed.
#[export] Hint Resolve byte_mem_copy4 : byte_mem.

Lemma byte_mem_big k fuel m d s n m' d' s' n' : byte_mem m → memcpy_big k fuel m d s n = Some (m', d', s', n') → byte_mem m'.
Proof. revert m d s n. induction fuel as [|fuel IH]; intros m d s n Hm Hc; cbn [memcpy_big] in Hc; byte_steps. Qed.

Lemma byte_mem_little k fuel m d s n m' d' s' n' : byte_mem m → memcpy_little k fuel m d s n = Some (m', d', s', n') → byte_mem m'.
Proof. revert m d s n. induction fuel as [|fuel IH]; intros m d s n Hm Hc; cbn [memcpy_little] in Hc; byte_steps. Qed.
#[export] Hint Resolve byte_mem_big byte_mem_little : byte_mem.

Lemma byte_mem_memcpy m d s n m' : byte_mem m → memcpy m d s n = Some m' → byte_mem m'.
Proof. unfold memcpy. intros Hm Hc. byte_steps. Qed.

Lemma byte_mem_store_byte m a v m' : byte_mem m → store_byte m a (u8 v) = Some m' → byte_mem m'.
Proof. unfold store_byte. intros Hm Hs. case_match; [|done]. injection Hs as <-. apply map_Forall_insert_2; [apply u8_bound|done]. Qed.

Lemma byte_mem_store_words k m s b m' : byte_mem m → store_words k m s b = Some m' → byte_mem m'.
Proof. revert m s. induction k as [|k IH]; intros m s Hm Hs; cbn [store_words] in Hs; byte_steps. Qed.
#[export] Hint Resolve byte_mem_memcpy byte_mem_store_byte byte_mem_store_words : byte_mem.

Lemma byte_mem_memset_head fuel m s c n m' r : byte_mem m → memset_head fuel m s c n = Some (m', r) → byte_mem m'.
Proof. revert m s n. induction fuel as [|fuel IH]; intros m s n Hm Hs; cbn [memset_head] in Hs; byte_steps. Qed.

Lemma byte_mem_memset_words k fuel m s b n m' s' n' : byte_mem m → memset_words k fuel m s b n = Some (m', s', n') → byte_mem m'.
Proof. revert m s n. induction fuel as [|fuel IH]; intros m s n Hm Hs; cbn [memset_words] in Hs; byte_steps. Qed.

Lemma byte_mem_memset_tail fuel m s c n m' : byte_mem m → memset_tail fuel m s c n = Some m' → byte_mem m'.
Proof. revert m s n. induction fuel as [|fuel IH]; intros m s n Hm Hs; cbn [memset_tail] in Hs; byte_steps. Qed.
#[export] Hint Resolve byte_mem_memset_head byte_mem_memset_words byte_mem_memset_tail : byte_mem.

Lemma byte_mem_memset m a c n m' : byte_mem m → memset m a c n = Some m' → byte_mem m'.
Proof. unfold memset. intros Hm Hs. byte_steps. Qed.
#[export] Hint Resolve byte_mem_memset : byte_mem.

(** ** Theorems *)

(** [memmove] stores at the destination the bytes the source held before
    the call, however the two ranges overlap, and touches nothing else:
    the forward path through [memcpy] (word loops included) and the backward
    loop both amount to one write of the [length bs] source bytes. *)
Theorem memmove_moves m dst src bs :
  load_n (length bs) m src = Some bs → mapped m dst (Z.of_nat (length bs)) →
  memmove m dst src (Z.of_nat (length bs)) = Some (write_bytes m dst bs).
Proof. apply memmove_spec. Qed.

(** Thirty-two bytes moved up by one address, so that the ranges overlap. *)
Lemma memmove_moves_witness :
  let m := mem_of 0x1000 (Z.of_nat <$> seq 0 40) in
  memmove m 0x1001 0x1000 32 = Some (write_bytes m 0x1001 (Z.of_nat <$> seq 0 32)).
Proof.
  intros m. change 32 with (Z.of_nat (length (Z.of_nat <$> seq 0 32))).
  apply memmove_moves; [vm_compute; reflexivity|].
  apply mappedb_spec. vm_compute. reflexivity.
Defined.

(** [memcpy] copies correctly when the ranges are disjoint or the
    destination lies below the source, for every length and alignment: its
    unrolled, word and byte loops terminate and together write exactly the
    source bytes. *)
Theorem memcpy_copies m dst src bs :
  load_n (length bs) m src = Some bs → mapped m dst (Z.of_nat (length bs)) →
  dst <= src ∨ src + Z.of_nat (length bs) <= dst →
  memcpy m dst src (Z.of_nat (length bs)) = Some (write_bytes m dst bs).
Proof. apply memcpy_forward. Qed.

Lemma memcpy_copies_witness :
  let m := mem_of 0x1000 (Z.of_nat <$> seq 0 64) in
  memcpy m 0x1000 0x1004 39 = Some (write_bytes m 0x1000 (Z.of_nat <$> seq 4 39)).
Proof.
  intros m. change 39 with (Z.of_nat (length (Z.of_nat <$> seq 4 39))).
  apply memcpy_copies; [vm_compute; reflexivity| |lia].
  apply mappedb_spec. vm_compute. reflexivity.
Defined.

(** [memset] fills exactly [n] bytes with the low byte of [c], for every
    alignment of the start address and every [n]. *)
Theorem memset_fills m a c n :
  mapped m a (Z.of_nat n) →
  memset m a c (Z.of_nat n) = Some (write_bytes m a (replicate n (u8 c))).
Proof. apply memset_spec. Qed.

Lemma memset_fills_witness :
  let m := mem_of 0x1000 (replicate 40 7) in
  memset m 0x1003 0x1ff 29 = Some (write_bytes m 0x1003 (replicate 29 255)).
Proof.
  intros m. apply (memset_fills m 0x1003 0x1ff 29).
  apply mappedb_spec. vm_compute. reflexivity.
Defined.

(** [memcpy_large] copies a block whose length is a multiple of eight, and
    never returns for any other length: the remaining length steps over zero
    and wraps around. *)
Theorem memcpy_large_total m dst src bs fuel :
  load_n (length bs) m src = Some bs → mapped m dst (Z.of_nat (length bs)) →
  dst <= src ∨ src + Z.of_nat (length bs) <= dst → Z.of_nat (length bs) < 2 ^ 32 →
  (length bs < fuel)%nat →
  memcpy_large fuel m dst src (Z.of_nat (length bs)) =
    if Z.of_nat (length bs) mod 8 =? 0 then Some (write_bytes m dst bs) else None.
Proof.
  intros Hload Hmap Hfwd Hsz Hf. destruct (Z.eqb_spec (Z.of_nat (length bs) mod 8) 0) as [He|He].
  - apply memcpy_large_spec; try done. apply Z.mod_divide in He as [q Hq]; [|lia].
    exists (Z.to_nat q). lia.
  - unfold memcpy_large. destruct (memcpy_big _ _ _ _ _ _) as [[[[m' d'] s'] l']|] eqn:Hb; [|done].
    apply memcpy_big_len in Hb as [Hl [q ->]]; [|lia..]. sbind.
    apply memcpy_large_tail_diverges; [|unfold is_u32; lia]. clear -He. zmod.
Qed.

Lemma memcpy_large_total_witness :
  let m := mem_of 0x1000 (Z.of_nat <$> seq 0 96) in
  memcpy_large 50 m 0x1030 0x1000 44 = None.
Proof.
  intros m. change 44 with (Z.of_nat (length (Z.of_nat <$> seq 0 44))).
  rewrite memcpy_large_total; [reflexivity|vm_compute; reflexivity| |simpl; lia..].
  apply mappedb_spec. vm_compute. reflexivity.
Defined.
