(* ===== verification/CString.v ===== *)
(** * C strings (spl/common/string.c, the [_ctype] table of printf.c)

    A [char] pointer is the list of bytes from its target to the end of the
    object it points into, so that [p + 1] is the tail and a read at the end
    of the object is a fault, [None].  Plain [char] is unsigned on the ARM and
    RISC-V targets.  A pointer result is an offset from the argument, [NULL]
    is the inner [None].  Writers return the new contents of the destination
    object.  The theorems relate each routine to the strings its arguments
    denote. *)

From S2P Require Import Prelude.

Local Open Scope Z_scope.

(** ** Reading routines *)

Fixpoint strlen (s : bytes) : option nat :=
  match s with
  | [] => None
  | c :: s' => if c =? 0 then Some 0%nat else n ← strlen s'; Some (S n)
  end.

Fixpoint strnlen (s : bytes) (count : nat) {struct count} : option nat :=
  match count with
  | O => Some 0%nat
  | S count' =>
      match s with
      | [] => None
      | c :: s' => if c =? 0 then Some 0%nat else n ← strnlen s' count'; Some (S n)
      end
  end.

(** [__res] is a [signed char]: the difference is truncated to 8 bits. *)
Fixpoint strcmp (cs ct : bytes) {struct cs} : option Z :=
  match cs, ct with
  | c :: cs', d :: ct' =>
      let res := s8 (c - d) in
      if negb (res =? 0) || (c =? 0) then Some res else strcmp cs' ct'
  | _, _ => None
  end.

Fixpoint strncmp_loop (res : Z) (cs ct : bytes) (count : nat) {struct count} : option Z :=
  match count with
  | O => Some res
  | S count' =>
      match cs, ct with
      | c :: cs', d :: ct' =>
          let res := s8 (c - d) in
          if negb (res =? 0) || (c =? 0) then Some res else strncmp_loop res cs' ct' count'
      | _, _ => None
      end
  end.

Definition strncmp (cs ct : bytes) (count : nat) : option Z := strncmp_loop 0 cs ct count.

Fixpoint strchr (s : bytes) (c : Z) : option (option nat) :=
  match s with
  | [] => None
  | x :: s' =>
      if negb (x =? u8 c) then
        if x =? 0 then Some None else r ← strchr s' c; Some (option_map S r)
      else Some (Some 0%nat)
  end.

(** The [do ... while (--p >= s)] loop, [p] as an offset from [s]. *)
Fixpoint strrchr_loop (s : bytes) (c : Z) (p : nat) : option (option nat) :=
  x ← s !! p;
  if x =? u8 c then Some (Some p)
  else match p with O => Some None | S p' => strrchr_loop s c p' end.

Definition strrchr (s : bytes) (c : Z) : option (option nat) :=
  n ← strlen s; strrchr_loop s c n.

(** The inner loop of [strspn]: is [*p] in [accept]? *)
Fixpoint strspn_accept (p : Z) (a : bytes) : option bool :=
  match a with
  | [] => None
  | x :: a' =>
      if x =? 0 then Some false else if p =? x then Some true else strspn_accept p a'
  end.

Fixpoint strspn_loop (s accept : bytes) (count : nat) {struct s} : option nat :=
  match s with
  | [] => None
  | p :: s' =>
      if p =? 0 then Some count
      else found ← strspn_accept p accept;
           if (found : bool) then strspn_loop s' accept (S count) else Some count
  end.

Definition strspn (s accept : bytes) : option nat := strspn_loop s accept 0.

Fixpoint memcmp_loop (res : Z) (su1 su2 : bytes) (count : nat) {struct count} : option Z :=
  match count with
  | O => Some res
  | S count' =>
      match su1, su2 with
      | x :: su1', y :: su2' =>
          let res := s8 (x - y) in
          if negb (res =? 0) then Some res else memcmp_loop res su1' su2' count'
      | _, _ => None
      end
  end.

Definition memcmp (cs ct : bytes) (count : nat) : option Z := memcmp_loop 0 cs ct count.

Fixpoint memscan (p : bytes) (c : Z) (size : nat) {struct size} : option nat :=
  match size with
  | O => Some 0%nat
  | S size' =>
      match p with
      | [] => None
      | x :: p' => if x =? c then Some 0%nat else n ← memscan p' c size'; Some (S n)
      end
  end.

Fixpoint memchr (p : bytes) (c : Z) (n : nat) {struct n} : option (option nat) :=
  match n with
  | O => Some None
  | S n' =>
      match p with
      | [] => None
      | x :: p' => if u8 c =? x then Some (Some 0%nat) else r ← memchr p' c n'; Some (option_map S r)
      end
  end.

(** The loop of [strstr]; [l1] counts down from [strlen(s1)], so it bounds the
    iterations. *)
Fixpoint strstr_loop (s1 s2 : bytes) (l1 l2 : nat) {struct s1} : option (option nat) :=
  if (l2 <=? l1)%nat then
    res ← memcmp s1 s2 l2;
    if res =? 0 then Some (Some 0%nat)
    else match s1 with
         | [] => None
         | _ :: s1' => r ← strstr_loop s1' s2 (l1 - 1) l2; Some (option_map S r)
         end
  else Some None.

Definition strstr (s1 s2 : bytes) : option (option nat) :=
  l2 ← strlen s2;
  if (l2 =? 0)%nat then Some (Some 0%nat)
  else l1 ← strlen s1; strstr_loop s1 s2 l1 l2.

(** ** Writing routines *)

Fixpoint strcpy (dest src : bytes) {struct src} : option bytes :=
  match dest, src with
  | _ :: dest', c :: src' =>
      if c =? 0 then Some (c :: dest') else d ← strcpy dest' src'; Some (c :: d)
  | _, _ => None
  end.

Fixpoint strncpy (dest src : bytes) (count : nat) {struct count} : option bytes :=
  match count with
  | O => Some dest
  | S count' =>
      match dest, src with
      | _ :: dest', c :: src' =>
          if c =? 0 then Some (c :: dest') else d ← strncpy dest' src' count'; Some (c :: d)
      | _, _ => None
      end
  end.

(** The two loops of [strcat]: skip the string in [dest], then copy. *)
Fixpoint strcat (dest src : bytes) {struct dest} : option bytes :=
  match dest with
  | [] => None
  | d :: dest' => if d =? 0 then strcpy dest src else r ← strcat dest' src; Some (d :: r)
  end.

(** The copying loop of [strncat]; [count > 0]. *)
Fixpoint strncat_copy (dest src : bytes) (count : nat) {struct count} : option bytes :=
  match dest, src with
  | _ :: dest', c :: src' =>
      if c =? 0 then Some (c :: dest')
      else match count with
           | O => None
           | 1%nat => match dest' with [] => None | _ :: dest'' => Some (c :: 0 :: dest'') end
           | S count' => d ← strncat_copy dest' src' count'; Some (c :: d)
           end
  | _, _ => None
  end.

Fixpoint strncat_skip (dest src : bytes) (count : nat) {struct dest} : option bytes :=
  match dest with
  | [] => None
  | d :: dest' =>
      if d =? 0 then strncat_copy dest src count
      else r ← strncat_skip dest' src count; Some (d :: r)
  end.

Definition strncat (dest src : bytes) (count : nat) : option bytes :=
  if (count =? 0)%nat then Some dest else strncat_skip dest src count.

(** ** Character classes: [_ctype] of printf.c and linux/ctype.h *)

Definition _U : Z := 0x01.
Definition _L : Z := 0x02.
Definition _D : Z := 0x04.
Definition _C : Z := 0x08.
Definition _P : Z := 0x10.
Definition _S : Z := 0x20.
Definition _X : Z := 0x40.
Definition _SP : Z := 0x80.

Definition _ctype : list Z :=
  replicate 9 _C ++ replicate 5 (Z.lor _C _S) ++ replicate 18 _C ++
  [Z.lor _S _SP] ++ replicate 15 _P ++
  replicate 10 _D ++ replicate 7 _P ++
  replicate 6 (Z.lor _U _X) ++ replicate 20 _U ++ replicate 6 _P ++
  replicate 6 (Z.lor _L _X) ++ replicate 20 _L ++ replicate 4 _P ++ [_C] ++
  replicate 32 0 ++
  [Z.lor _S _SP] ++ replicate 31 _P ++
  replicate 23 _U ++ [_P] ++ replicate 7 _U ++ replicate 24 _L ++ [_P] ++ replicate 8 _L.

Definition ismask (c : Z) : Z := nth (Z.to_nat (u8 c)) _ctype 0.
Definition has_class (c mask : Z) : bool := negb (Z.land (ismask c) mask =? 0).
Definition isalnum (c : Z) : bool := has_class c (Z.lor _U (Z.lor _L _D)).
Definition isdigit (c : Z) : bool := has_class c _D.
Definition islower (c : Z) : bool := has_class c _L.
Definition isupper (c : Z) : bool := has_class c _U.
Definition isxdigit (c : Z) : bool := has_class c (Z.lor _D _X).
Definition tolower (c : Z) : Z := if isupper c then u8 (c + 32) else c.
Definition toupper (c : Z) : Z := if islower c then u8 (c - 32) else c.

(** ** Numbers *)

(** The pointer and the base after the fix-up; [s[1]] and [s[2]] are read only
    as far as the conditions of the source evaluate. *)
Definition _parse_integer_fixup_radix (s : bytes) (base : Z) : option (bytes * Z) :=
  base ←
    (if base =? 0 then
       c0 ← s !! 0%nat;
       if c0 =? 48 then
         c1 ← s !! 1%nat;
         if tolower c1 =? 120 then
           c2 ← s !! 2%nat; Some (if isxdigit c2 then 16 else 8)
         else Some 8
       else Some 10
     else Some base);
  if base =? 16 then
    c0 ← s !! 0%nat;
    if c0 =? 48 then
      c1 ← s !! 1%nat;
      if tolower c1 =? 120 then Some (drop 2 s, base) else Some (s, base)
    else Some (s, base)
  else Some (s, base).

Definition digit_value (c : Z) : Z :=
  if isdigit c then c - 48 else (if islower c then toupper c else c) - 65 + 10.

Fixpoint strtoul_loop (cp : bytes) (base result : Z) : option (Z * bytes) :=
  match cp with
  | [] => None
  | c :: cp' =>
      if isxdigit c && (digit_value c <? base) then
        strtoul_loop cp' base (u32 (result * base + digit_value c))
      else Some (result, cp)
  end.

(** The result and the [*endp] it leaves. *)
Definition simple_strtoul (cp : bytes) (base : Z) : option (Z * bytes) :=
  '(cp, base) ← _parse_integer_fixup_radix cp base;
  strtoul_loop cp base 0.

(** ** Strings *)

(** The characters of a C string: bytes other than the terminator. *)
Definition is_char (c : Z) : Prop := 0 < c < 256.
Definition is_cstr (a : bytes) : Prop := Forall is_char a.

#[global] Instance is_char_dec c : Decision (is_char c).
Proof. unfold is_char. apply _. Defined.

#[global] Instance is_cstr_dec a : Decision (is_cstr a).
Proof. unfold is_cstr. apply _. Defined.

(** Lexicographic order of the characters as unsigned bytes. *)
Fixpoint lex (a b : bytes) : comparison :=
  match a, b with
  | [], [] => Eq
  | [], _ :: _ => Lt
  | _ :: _, [] => Gt
  | x :: a', y :: b' => match x ?= y with Eq => lex a' b' | o => o end
  end.

Lemma char_u8 c : is_char c → is_u8 c.
Proof. unfold is_char, is_u8. lia. Qed.

Lemma u8_zero : is_u8 0.
Proof. unfold is_u8. lia. Qed.

Lemma char_nonzero c : is_char c → (c =? 0) = false.
Proof. unfold is_char. intros. apply Z.eqb_neq. lia. Qed.

#[export] Hint Resolve char_u8 u8_zero : word.

Lemma s8_sub_eqb x y : is_u8 x → is_u8 y → (s8 (x - y) =? 0) = (x =? y).
Proof.
  intros Hx Hy. pose proof (s8_sub_zero x y Hx Hy) as H.
  destruct (Z.eqb_spec x y) as [->|]; [apply Z.eqb_eq; by apply H|].
  apply Z.eqb_neq. by rewrite H.
Qed.

Lemma strlen_spec a r : is_cstr a → strlen (a ++ 0 :: r) = Some (length a).
Proof.
  induction 1 as [|c a Hc Ha IH]; [done|]. cbn [strlen app].
  rewrite char_nonzero by done. by rewrite IH.
Qed.

Lemma strnlen_spec a r n : is_cstr a → strnlen (a ++ 0 :: r) n = Some (n `min` length a)%nat.
Proof.
  intros Ha. revert n. induction Ha as [|c a Hc Ha IH]; intros [|n]; try done.
  cbn [strnlen app]. rewrite char_nonzero by done. by rewrite IH.
Qed.

(** One step of the comparing loops on equal characters. *)
Lemma s8_same x : s8 (x - x) = 0.
Proof. by rewrite Z.sub_diag. Qed.

Lemma strcmp_spec a b r1 r2 :
  is_cstr a → is_cstr b →
  ∃ res, strcmp (a ++ 0 :: r1) (b ++ 0 :: r2) = Some res ∧ (res = 0 ↔ a = b).
Proof.
  intros Ha. revert b. induction Ha as [|x a Hx Ha IH]; intros b Hb; inversion_clear Hb as [|y b' Hy Hb'];
    cbn [strcmp app]; rewrite ?s8_same, ?s8_sub_eqb by auto with word.
  - by exists 0.
  - rewrite Z.eqb_sym, char_nonzero by done. simpl. eexists. split; [done|].
    rewrite s8_sub_zero by auto with word. unfold is_char in Hy. split; [lia|done].
  - rewrite char_nonzero by done. simpl. eexists. split; [done|].
    rewrite s8_sub_zero by auto with word. unfold is_char in Hx. split; [lia|done].
  - rewrite (char_nonzero x) by done. destruct (Z.eqb_spec x y) as [->|Hne]; simpl.
    + destruct (IH b' Hb') as (res & -> & Hres). exists res. split; [done|]. rewrite Hres.
      split; [by intros ->|by intros [= ->]].
    + eexists. split; [done|]. rewrite s8_sub_zero by auto with word. split; [done|by intros [= ->]].
Qed.

Lemma strcmp_order a b r1 r2 :
  Forall (λ c, 0 < c < 128) a → Forall (λ c, 0 < c < 128) b →
  ∃ res, strcmp (a ++ 0 :: r1) (b ++ 0 :: r2) = Some res ∧ (res ?= 0) = lex a b.
Proof.
  intros Ha. revert b. induction Ha as [|x a Hx Ha IH]; intros b Hb; inversion_clear Hb as [|y b' Hy Hb'];
    cbn [strcmp app lex]; rewrite ?s8_small by lia.
  - by exists 0.
  - destruct (Z.eqb_spec (0 - y) 0); [lia|]. eexists. split; [done|]. by apply Z.compare_lt_iff; lia.
  - destruct (Z.eqb_spec (x - 0) 0); [lia|]. eexists. split; [done|]. by apply Z.compare_gt_iff; lia.
  - destruct (Z.eqb_spec (x - y) 0), (Z.eqb_spec x 0); try lia; simpl.
    + assert (x = y) as -> by lia. rewrite Z.compare_refl. auto.
    + eexists. split; [done|]. rewrite <- Z.compare_sub.
      by destruct (x ?= y) eqn:E; [apply Z.compare_eq in E; lia|..].
Qed.

Lemma memcmp_loop_spec a b n :
  is_byte_list a → is_byte_list b → (n <= length a)%nat → (n <= length b)%nat →
  ∃ res, memcmp_loop 0 a b n = Some res ∧ (res = 0 ↔ take n a = take n b).
Proof.
  revert a b. induction n as [|n IH]; intros a b Ha Hb Hla Hlb; [by exists 0|].
  destruct Ha as [|x a Hx Ha]; simpl in Hla; [lia|]. destruct Hb as [|y b Hy Hb]; simpl in Hlb; [lia|].
  cbn [memcmp_loop take]. rewrite s8_sub_eqb by done.
  destruct (Z.eqb_spec x y) as [->|Hne]; simpl.
  - rewrite s8_same. destruct (IH a b) as (res & -> & Hres); [done..|lia|lia|].
    exists res. split; [done|]. rewrite Hres. split; [by intros ->|by intros [= ->]].
  - eexists. split; [done|]. rewrite s8_sub_zero by done. split; [done|by intros [= ->]].
Qed.

Lemma strncmp_spec a b r1 r2 n :
  is_cstr a → is_cstr b →
  ∃ res, strncmp (a ++ 0 :: r1) (b ++ 0 :: r2) n = Some res ∧ (res = 0 ↔ take n a = take n b).
Proof.
  unfold strncmp. intros Ha. revert b n.
  induction Ha as [|x a Hx Ha IH]; intros b [|n] Hb; try (by exists 0);
    inversion_clear Hb as [|y b' Hy Hb'];
    cbn [strncmp_loop app take]; rewrite ?s8_same, ?s8_sub_eqb by auto with word.
  - by exists 0.
  - rewrite Z.eqb_sym, char_nonzero by done. simpl. eexists. split; [done|].
    rewrite s8_sub_zero by auto with word. unfold is_char in Hy. split; [lia|done].
  - rewrite char_nonzero by done. simpl. eexists. split; [done|].
    rewrite s8_sub_zero by auto with word. unfold is_char in Hx. split; [lia|done].
  - rewrite (char_nonzero x) by done. destruct (Z.eqb_spec x y) as [->|Hne]; simpl.
    + rewrite s8_same. destruct (IH b' n Hb') as (res & -> & Hres). exists res. split; [done|].
      rewrite Hres. split; [by intros ->|by intros [= ->]].
    + eexists. split; [done|]. rewrite s8_sub_zero by auto with word. split; [done|by intros [= ->]].
Qed.

Lemma strcpy_spec a r d :
  is_cstr a → strcpy d (a ++ 0 :: r) =
    if (length a <? length d)%nat then Some (a ++ 0 :: drop (S (length a)) d) else None.
Proof.
  intros Ha. revert d. induction Ha as [|c a Hc Ha IH]; intros [|x d]; try done.
  cbn [strcpy app]. rewrite char_nonzero by done. rewrite IH. simpl.
  change (S (length a) <? S (length d))%nat with (length a <? length d)%nat. by case_match.
Qed.

Lemma strcat_spec a b r d :
  is_cstr a → is_cstr b →
  strcat (a ++ 0 :: d) (b ++ 0 :: r) =
    if (length b <=? length d)%nat then Some (a ++ b ++ 0 :: drop (length b) d) else None.
Proof.
  intros Ha Hb. induction Ha as [|c a Hc Ha IH]; cbn [strcat app].
  - change (0 =? 0) with true. cbn iota. rewrite strcpy_spec by done. done.
  - rewrite char_nonzero by done. rewrite IH. by case_match.
Qed.

Lemma cstr_bytes a : is_cstr a → is_byte_list a.
Proof. intros H. eapply Forall_impl; [exact H|apply char_u8]. Qed.

Lemma prefix_take_iff {A} (a b : list A) : b `prefix_of` a ↔ take (length b) a = b.
Proof.
  split; [intros [k ->]; apply take_app_length|]. intros <-. apply prefix_take.
Qed.

(** [memcmp] looks at the first [n] bytes only. *)
Lemma memcmp_loop_app z l l' r r' n :
  (n <= length l)%nat → (n <= length l')%nat →
  memcmp_loop z (l ++ r) (l' ++ r') n = memcmp_loop z l l' n.
Proof.
  revert z l l'. induction n as [|n IH]; intros z l l' Hl Hl'; [done|].
  destruct l, l'; simpl in *; try lia. case_match; [done|]. apply IH; lia.
Qed.

Lemma memcmp_prefix a b r1 r2 :
  is_cstr a → is_cstr b → (length b <= length a)%nat →
  ∃ res, memcmp (a ++ r1) (b ++ r2) (length b) = Some res ∧ (res = 0 ↔ b `prefix_of` a).
Proof.
  intros Ha Hb Hle. unfold memcmp. rewrite memcmp_loop_app by lia.
  destruct (memcmp_loop_spec a b (length b)) as (res & Hr & Hiff); auto using cstr_bytes.
  exists res. split; [done|]. by rewrite Hiff, firstn_all, prefix_take_iff.
Qed.

Lemma strstr_loop_spec a b r1 r2 :
  is_cstr a → is_cstr b → b ≠ [] →
  ∃ res, strstr_loop (a ++ 0 :: r1) (b ++ 0 :: r2) (length a) (length b) = Some res ∧
    match res with
    | Some i => b `prefix_of` drop i a ∧ ∀ j, (j < i)%nat → ¬ b `prefix_of` drop j a
    | None => ∀ j, ¬ b `prefix_of` drop j a
    end.
Proof.
  intros Ha Hb Hne.
  assert (∀ a : bytes, (length a < length b)%nat → ∀ j, ¬ b `prefix_of` drop j a) as Hshort.
  { intros a' Hl j Hp. apply prefix_length in Hp. rewrite length_drop in Hp. lia. }
  induction Ha as [|c a Hc Ha IH].
  { exists None. assert (length b ≠ 0)%nat by (by destruct b).
    split; [by destruct b|]. apply Hshort. simpl. lia. }
  cbn [strstr_loop app]. destruct (Nat.leb_spec (length b) (length (c :: a))) as [Hle|Hgt].
  2:{ exists None. split; [done|]. by apply Hshort. }
  destruct (memcmp_prefix (c :: a) b (0 :: r1) (0 :: r2)) as (z & Hz & Hiff);
    [by constructor|done..|].
  cbn [app] in Hz. rewrite Hz. sbind. destruct (Z.eqb_spec z 0) as [->|Hnz].
  - exists (Some 0%nat). split; [done|]. split; [by apply Hiff|lia].
  - rewrite length_cons, Nat.sub_1_r. cbn [Nat.pred]. destruct IH as (res & -> & Hres). sbind.
    assert (¬ b `prefix_of` c :: a) by (by rewrite <- Hiff).
    exists (option_map S res). split; [done|]. destruct res as [i|]; simpl.
    + destruct Hres as [Hp Hj]. split; [done|]. intros [|j] Hlt; [done|]. apply Hj. lia.
    + intros [|j]; [done|]. apply Hres.
Qed.

Lemma strchr_spec a r c :
  is_cstr a → is_char c →
  ∃ res, strchr (a ++ 0 :: r) c = Some res ∧
    match res with
    | Some i => a !! i = Some c ∧ c ∉ take i a
    | None => c ∉ a
    end.
Proof.
  intros Ha Hc. assert (u8 c = c) as Hu by (apply u8_small; auto with word).
  induction Ha as [|x a Hx Ha IH]; cbn [strchr app]; rewrite Hu.
  - exists None. rewrite Z.eqb_sym, char_nonzero by done. split; [done|]. apply not_elem_of_nil.
  - destruct (Z.eqb_spec x c) as [->|Hne]; simpl.
    + exists (Some 0%nat). split; [done|]. split; [done|]. apply not_elem_of_nil.
    + rewrite char_nonzero by done. destruct IH as (res & -> & Hres). exists (option_map S res).
      split; [done|]. destruct res; simpl; rewrite not_elem_of_cons; intuition congruence.
Qed.

Lemma strrchr_loop_spec (l : bytes) c p :
  (p < length l)%nat → is_u8 c →
  ∃ res, strrchr_loop l c p = Some res ∧
    match res with
    | Some i => (i <= p)%nat ∧ l !! i = Some c ∧ ∀ j, (i < j <= p)%nat → l !! j ≠ Some c
    | None => ∀ j, (j <= p)%nat → l !! j ≠ Some c
    end.
Proof.
  intros Hp Hc. induction p as [|p IH]; cbn [strrchr_loop];
    destruct (lookup_lt_is_Some_2 l _ Hp) as [x Hx]; rewrite Hx; sbind;
    rewrite u8_small by done; destruct (Z.eqb_spec x c) as [->|Hne].
  - exists (Some 0%nat). split; [done|]. repeat split; [lia|done|]. intros. lia.
  - exists None. split; [done|]. intros j Hj. replace j with 0%nat by lia. congruence.
  - exists (Some (S p)). split; [done|]. repeat split; [lia|done|]. intros. lia.
  - destruct IH as (res & -> & Hres); [lia|]. exists res. split; [done|].
    assert (l !! S p ≠ Some c) by congruence. destruct res as [i|].
    + destruct Hres as (? & ? & Hj). repeat split; [lia|done|]. intros j Hj'.
      destruct (decide (j = S p)) as [->|]; [done|]. apply Hj. lia.
    + intros j Hj'. destruct (decide (j = S p)) as [->|]; [done|]. apply Hres. lia.
Qed.

(** ** Theorems *)

(** On C strings [strcmp] stays inside both strings and returns zero
    exactly when they are equal; when both are 7-bit its sign is their
    lexicographic order. *)
Theorem strcmp_compares a b r1 r2 :
  is_cstr a → is_cstr b →
  ∃ res, strcmp (a ++ 0 :: r1) (b ++ 0 :: r2) = Some res ∧ (res = 0 ↔ a = b) ∧
    (Forall (λ c, c < 128) a → Forall (λ c, c < 128) b → (res ?= 0) = lex a b).
Proof.
  intros Ha Hb. destruct (strcmp_spec a b r1 r2 Ha Hb) as (res & Hr & Hz).
  exists res. split; [done|]. split; [done|]. intros H1 H2.
  assert (∀ l, is_cstr l → Forall (λ c, c < 128) l → Forall (λ c, 0 < c < 128) l) as Hasc.
  { intros l Hl H. eapply Forall_impl; [apply Forall_and; split; [exact Hl|exact H]|].
    unfold is_char. simpl. lia. }
  destruct (strcmp_order a b r1 r2) as (res' & Hr' & Ho); auto. congruence.
Qed.

(** The string "boot" against "boots". *)
Lemma strcmp_compares_witness :
  ∃ res, strcmp ([98; 111; 111; 116] ++ 0 :: []) ([98; 111; 111; 116; 115] ++ 0 :: [7]) = Some res ∧
    res ≠ 0.
Proof.
  destruct (strcmp_compares [98; 111; 111; 116] [98; 111; 111; 116; 115] [] [7])
    as (res & Hr & Hz & _); [apply (bool_decide_unpack _); vm_compute; exact I..|].
  exists res. split; [exact Hr|]. rewrite Hz. discriminate.
Defined.

(** [strncmp] and [memcmp] return zero exactly when the first [n]
    characters (bytes) agree. *)
Theorem strncmp_memcmp_prefix a b r1 r2 n :
  is_cstr a → is_cstr b → (n <= length a)%nat → (n <= length b)%nat →
  ∃ r r', strncmp (a ++ 0 :: r1) (b ++ 0 :: r2) n = Some r ∧
          memcmp (a ++ 0 :: r1) (b ++ 0 :: r2) n = Some r' ∧
          (r = 0 ↔ take n a = take n b) ∧ (r' = 0 ↔ r = 0).
Proof.
  intros Ha Hb Hla Hlb. destruct (strncmp_spec a b r1 r2 n Ha Hb) as (r & Hr & Hz).
  unfold memcmp. rewrite memcmp_loop_app by done.
  destruct (memcmp_loop_spec a b n) as (r' & Hr' & Hz'); auto using cstr_bytes.
  exists r, r'. by rewrite Hz'.
Qed.

Lemma strncmp_memcmp_prefix_witness :
  ∃ r r', strncmp ([98; 111; 111; 116] ++ 0 :: []) ([98; 111; 120] ++ 0 :: []) 2 = Some r ∧
          memcmp ([98; 111; 111; 116] ++ 0 :: []) ([98; 111; 120] ++ 0 :: []) 2 = Some r' ∧ r = 0 ∧ r' = 0.
Proof.
  destruct (strncmp_memcmp_prefix [98; 111; 111; 116] [98; 111; 120] [] [] 2)
    as (r & r' & H1 & H2 & H3 & H4);
    [apply (bool_decide_unpack _); vm_compute; exact I..|simpl; lia|simpl; lia|].
  exists r, r'. assert (r = 0) by (apply H3; reflexivity). rewrite H4. auto.
Defined.

(** [strstr] returns the first position at which the second string
    occurs in the first, and [NULL] when there is none; it never reads
    outside either string. *)
Theorem strstr_first a b r1 r2 :
  is_cstr a → is_cstr b →
  ∃ res, strstr (a ++ 0 :: r1) (b ++ 0 :: r2) = Some res ∧
    match res with
    | Some i => b `prefix_of` drop i a ∧ ∀ j, (j < i)%nat → ¬ b `prefix_of` drop j a
    | None => ∀ j, ¬ b `prefix_of` drop j a
    end.
Proof.
  intros Ha Hb. unfold strstr. rewrite !strlen_spec by done. sbind.
  destruct (Nat.eqb_spec (length b) 0) as [H0|Hn].
  - apply nil_length_inv in H0 as ->. exists (Some 0%nat). split; [done|].
    split; [apply prefix_nil|lia].
  - apply strstr_loop_spec; [done..|]. by intros ->.
Qed.

Lemma strstr_first_witness :
  ∃ res, strstr ([1; 2; 1; 2; 3] ++ 0 :: []) ([1; 2; 3] ++ 0 :: []) = Some res ∧ res = Some 2%nat.
Proof.
  destruct (strstr_first [1; 2; 1; 2; 3] [1; 2; 3] [] []) as (res & Hr & _);
    [apply (bool_decide_unpack _); vm_compute; exact I..|].
  exists res. split; [exact Hr|]. vm_compute in Hr. congruence.
Defined.

(** [strcat] appends the second string and its terminator after the
    first, keeping the bytes beyond, exactly when the object has room for
    them; otherwise it writes outside the object. *)
Theorem strcat_appends a b r d :
  is_cstr a → is_cstr b →
  strcat (a ++ 0 :: d) (b ++ 0 :: r) =
    if (length b <=? length d)%nat then Some (a ++ b ++ 0 :: drop (length b) d) else None.
Proof. apply strcat_spec. Qed.

Lemma strcat_appends_witness :
  strcat ([1; 2] ++ 0 :: [9; 9; 9]) ([3; 4] ++ 0 :: []) = Some [1; 2; 3; 4; 0; 9].
Proof.
  rewrite strcat_appends; [reflexivity|apply (bool_decide_unpack _); vm_compute; exact I..].
Defined.

(** [strchr] finds the first and [strrchr] the last occurrence of a
    character of a string, or both return [NULL]. *)
Theorem strchr_strrchr a r c :
  is_cstr a → is_char c →
  ∃ p q, strchr (a ++ 0 :: r) c = Some p ∧ strrchr (a ++ 0 :: r) c = Some q ∧
    match p, q with
    | Some i, Some j => (i <= j)%nat ∧ a !! i = Some c ∧ a !! j = Some c ∧
        ∀ k, (k < i ∨ j < k)%nat → a !! k ≠ Some c
    | None, None => c ∉ a
    | _, _ => False
    end.
Proof.
  intros Ha Hc. destruct (strchr_spec a r c Ha Hc) as (p & Hp & Hps).
  assert (∀ k, (k <= length a)%nat → (a ++ 0 :: r) !! k = Some c ↔ a !! k = Some c) as Hlk.
  { intros k Hk. destruct (decide (k < length a)%nat); [by rewrite lookup_app_l|].
    rewrite lookup_app_r, (lookup_ge_None_2 a k) by lia. replace (k - length a)%nat with 0%nat by lia.
    split; [|done]. intros [= <-]. unfold is_char in Hc. lia. }
  destruct (strrchr_loop_spec (a ++ 0 :: r) c (length a)) as (q & Hq & Hqs);
    [rewrite length_app; simpl; lia|auto with word|].
  exists p, q. split; [done|]. split; [unfold strrchr; by rewrite strlen_spec|].
  destruct p as [i|], q as [j|].
  - destruct Hps as [Hi Hni], Hqs as (Hj & Hjc & Hlast).
    rewrite Hlk in Hjc by done. assert (∀ k, (k < i)%nat → a !! k ≠ Some c) as Hfirst.
    { intros k Hk Hkc. apply Hni, (list_elem_of_lookup_2 _ k). by rewrite lookup_take_lt. }
    split; [apply Nat.nlt_ge; intros Hlt; by apply (Hfirst j)|]. split; [done|]. split; [done|].
    intros k [Hk|Hk]; [auto|]. destruct (decide (k <= length a)%nat) as [Hle|].
    + rewrite <- Hlk by done. apply Hlast. lia.
    + rewrite lookup_ge_None_2 by lia. done.
  - destruct Hps as [Hi _]. pose proof (lookup_lt_Some _ _ _ Hi). apply (Hqs i); [lia|].
    by apply Hlk; [lia|].
  - destruct Hqs as (Hj & Hjc & _). apply Hlk in Hjc; [|done]. apply Hps.
    by eapply list_elem_of_lookup_2.
  - done.
Qed.

Lemma strchr_strrchr_witness :
  ∃ p q, strchr ([97; 47; 98; 47] ++ 0 :: []) 47 = Some p ∧
         strrchr ([97; 47; 98; 47] ++ 0 :: []) 47 = Some q ∧ p = Some 1%nat ∧ q = Some 3%nat.
Proof.
  destruct (strchr_strrchr [97; 47; 98; 47] [] 47) as (p & q & Hp & Hq & _);
    [apply (bool_decide_unpack _); vm_compute; exact I..|].
  exists p, q. split; [exact Hp|]. split; [exact Hq|]. vm_compute in Hp, Hq. split; congruence.
Defined.
