(* ===== verification/Printf.v ===== *)
(** * Formatted output (spl/common/printf.c)

    The loader's [printf] family: digit extraction by repeated subtraction
    ([div_out]), the conversions of [_vprintf] with their 12-byte digit
    buffer, [sprintf]/[snprintf] and the debug level.  [long] is 32 bits wide
    and the [DEBUG] and network conversions are compiled out, as in the
    loader's configuration.  The theorems: every number fits the digit buffer,
    printing a number and reading it back with [simple_strtoul] is the
    identity, and the time stamp of [printf] outgrows its own buffer. *)

From S2P Require Import Prelude CString.

Local Open Scope Z_scope.

(** ** struct printf_info *)

(** [bf] is the text written so far into the digit buffer. *)
Record printf_info := { bf : bytes; zs : bool }.

(** [char buf[12]] of [_vprintf]. *)
Definition BUF_SIZE : nat := 12.

(** [*info->bf++ = c]; [None] when the buffer is full. *)
Definition out (info : printf_info) (c : Z) : option printf_info :=
  if (length info.(bf) <? BUF_SIZE)%nat
  then Some {| bf := info.(bf) ++ [u8 c]; zs := info.(zs) |} else None.

Definition out_dgt (info : printf_info) (dgt : Z) : option printf_info :=
  info ← out info (dgt + (if dgt <? 10 then 48 else 97 - 10));
  Some {| bf := info.(bf); zs := true |}.

(** [while ( *num >= div) { *num -= div; dgt++; }]; [dgt] is an unsigned char. *)
Fixpoint div_loop (fuel : nat) (num div dgt : Z) : option (Z * Z) :=
  match fuel with
  | O => None
  | S f => if div <=? num then div_loop f (num - div) div (u8 (dgt + 1)) else Some (num, dgt)
  end.

(** Sixteen subtractions at most: [num < 16 * div] at every call. *)
Definition div_out (info : printf_info) (num div : Z) : option (printf_info * Z) :=
  '(num, dgt) ← div_loop 17 num div 0;
  if info.(zs) || (0 <? dgt) then info ← out_dgt info dgt; Some (info, num)
  else Some (info, num).

(** [for (; div; div /= base) div_out(info, &num, div);] *)
Fixpoint div_outs (fuel : nat) (info : printf_info) (num div base : Z) : option printf_info :=
  match fuel with
  | O => None
  | S f =>
      if div =? 0 then Some info
      else '(info, num) ← div_out info num div; div_outs f info num (div / base) base
  end.

(** The digits of [num], a single zero digit for 0. *)
Definition out_num (info : printf_info) (num div base : Z) : option printf_info :=
  if num =? 0 then out_dgt info 0 else div_outs 11 info num div base.

(** ** _vprintf *)

(** The variable arguments: a machine word, or a pointer to a string. *)
Inductive va_arg :=
  | VaWord (w : Z)
  | VaStr (s : bytes).

(** What a conversion prints: the digit buffer or the argument string, as the
    bytes up to the terminator. *)
Definition info0 : printf_info := {| bf := []; zs := false |}.

(** Case ['d']: the sign is written first, then the magnitude. *)
Definition conv_d (w : Z) : option printf_info :=
  if s32 w <? 0 then info ← out info0 45; out_num info (u32 (- s32 w)) 1000000000 10
  else out_num info0 (u32 w) 1000000000 10.

Definition conv_u (w : Z) : option printf_info := out_num info0 (u32 w) 1000000000 10.

Definition conv_x (w : Z) : option printf_info := out_num info0 (u32 w) 0x10000000 16.

(** [*info->bf = 0] and the text between the buffer's start and that byte. *)
Definition finish (info : printf_info) : option bytes :=
  if (length info.(bf) <? BUF_SIZE)%nat then Some info.(bf) else None.

(** The bytes of a string argument up to its terminator. *)
Fixpoint cstring (s : bytes) : option bytes :=
  match s with
  | [] => None
  | c :: s' => if c =? 0 then Some [] else t ← cstring s'; Some (c :: t)
  end.

(** The text printed from the digit buffer stops at its first zero byte. *)
Definition buffer_text (info : printf_info) : option bytes :=
  b ← finish info; cstring (b ++ [0]).

(** Skip [isalnum] characters after [%p]; the format's terminator stops it. *)
Fixpoint skip_alnum (fmt : bytes) : bytes :=
  match fmt with
  | [] => []
  | c :: fmt' => if isalnum c then skip_alnum fmt' else fmt
  end.

(** The field width: [width = width * 10 + ch - '0'] on an [int]. *)
Fixpoint scan_width (width : Z) (fmt : bytes) : Z * bytes :=
  match fmt with
  | [] => (width, [])
  | c :: fmt' => if (48 <=? c) && (c <=? 57) then scan_width (width * 10 + c - 48) fmt' else (width, fmt)
  end.

(** The padding of the two width loops followed by the text. *)
Definition pad (lz : bool) (width : Z) (p : bytes) : bytes :=
  replicate (Z.to_nat (width - Z.of_nat (length p))) (if lz then 48 else 32) ++ p.

(** The switch: the text, the rest of the format and of the arguments.  The
    inner [None] is [goto abort]. *)
Definition convert (ch : Z) (fmt : bytes) (va : list va_arg) :
    option (option (bytes * bytes * list va_arg)) :=
  let buffer (o : option printf_info) va :=
    info ← o; t ← buffer_text info; Some (Some (t, fmt, va)) in
  if ch =? 0 then Some None
  else if ch =? 117 then match va with VaWord w :: va => buffer (conv_u w) va | _ => None end
  else if ch =? 100 then match va with VaWord w :: va => buffer (conv_d w) va | _ => None end
  else if ch =? 120 then match va with VaWord w :: va => buffer (conv_x w) va | _ => None end
  else if ch =? 99 then match va with VaWord w :: va => buffer (out info0 w) va | _ => None end
  else if ch =? 115 then
    match va with VaStr s :: va => t ← cstring s; Some (Some (t, fmt, va)) | _ => None end
  else if ch =? 112 then
    match va with _ :: va => t ← buffer_text info0; Some (Some (t, skip_alnum fmt, va)) | _ => None end
  else if ch =? 37 then buffer (out info0 37) va
  else buffer (Some info0) va.

(** The flags, width and length modifiers between [%] and the conversion. *)
Definition scan_spec (fmt : bytes) : option (bool * Z * Z * bytes) :=
  match fmt with
  | [] => None
  | c :: f =>
      '(ch, f) ← (if c =? 45 then match f with [] => None | c :: f => Some (c, f) end else Some (c, f));
      '(lz, ch, f) ← (if ch =? 48 then match f with [] => None | c :: f => Some (true, c, f) end
                      else Some (false, ch, f));
      let '(width, f') := scan_width 0 (ch :: f) in
      match f' with
      | [] => None
      | ch :: f =>
          if ch =? 108 then match f with [] => None | c :: f => Some (lz, width, c, f) end
          else Some (lz, width, ch, f)
      end
  end.

(** The characters given to [putc]; reads of the format stay before its
    terminator.  [fuel] bounds the characters of [fmt]. *)
Fixpoint _vprintf (fuel : nat) (fmt : bytes) (va : list va_arg) : option bytes :=
  match fuel with
  | O => None
  | S fl =>
      match fmt with
      | [] => None
      | ch :: fmt =>
          if ch =? 0 then Some []
          else if negb (ch =? 37) then
            rest ← _vprintf fl fmt va;
            Some ((if ch =? 10 then [13; 10] else [ch]) ++ rest)
          else
            '(lz, width, ch, fmt) ← scan_spec fmt;
            r ← convert ch fmt va;
            match r with
            | None => Some []
            | Some (p, fmt, va) => rest ← _vprintf fl fmt va; Some (pad lz width p ++ rest)
            end
      end
  end.

Definition vprintf (fmt : bytes) (va : list va_arg) : option bytes :=
  _vprintf (length fmt) fmt va.

(** [sprintf] into an object [buf]: the text and its terminator, then the old
    bytes; [None] when they do not fit. *)
Definition sprintf (buf fmt : bytes) (va : list va_arg) : option bytes :=
  t ← vprintf fmt va;
  if (length t <? length buf)%nat then Some (t ++ 0 :: drop (S (length t)) buf) else None.

(** [size] is ignored by the source. *)
Definition snprintf (buf : bytes) (size : Z) (fmt : bytes) (va : list va_arg) : option bytes :=
  sprintf buf fmt va.

(** ** Debug level and printf *)

Record printf_state := { debug_mode : Z; debug_mode_to_uboot : Z }.

Definition sunxi_set_printf_debug_mode (st : printf_state) (debug_level to_uboot : Z) : printf_state * Z :=
  if 8 <? debug_level then (st, -1)
  else ({| debug_mode := debug_level; debug_mode_to_uboot := if to_uboot =? 0 then 0 else 1 |}, 0).

Definition sunxi_get_printf_debug_mode (st : printf_state) : Z := st.(debug_mode).

Definition sunxi_get_debug_mode_for_uboot (st : printf_state) : Z :=
  if st.(debug_mode_to_uboot) =? 0 then st.(debug_mode) else Z.lor st.(debug_mode) 0x80.

(** The string literal ["[%d]"]. *)
Definition stamp_fmt : bytes := [91; 37; 100; 93; 0].

(** [time_stamp[12]] is filled by [sprintf], then printed up to its
    terminator, and the message follows. *)
Definition printf (st : printf_state) (ticks : Z) (fmt : bytes) (va : list va_arg) : option bytes :=
  if st.(debug_mode) =? 0 then Some []
  else
    time_stamp ← sprintf (replicate 12 0) stamp_fmt [VaWord ticks];
    stamp ← cstring (time_stamp ++ [0]);
    t ← vprintf fmt va;
    Some (stamp ++ t).

(** ** Digits *)

Definition dchar (d : Z) : Z := if d <? 10 then d + 48 else d + 87.

(** The number a digit list denotes, most significant digit first. *)
Definition horner (base : Z) (acc : Z) (ds : list Z) : Z := fold_left (λ a d, a * base + d) ds acc.

Definition is_digit (base d : Z) : Prop := 0 <= d < base.

Lemma div_loop_spec fuel num div dgt :
  0 < div → 0 <= num → num / div < Z.of_nat fuel → 0 <= dgt → dgt + num / div < 256 →
  div_loop fuel num div dgt = Some (num mod div, dgt + num / div).
Proof.
  revert num dgt. induction fuel as [|f IH]; intros num dgt Hdiv Hnum Hf Hd Hb.
  { assert (0 <= num / div) by (apply Z.div_pos; lia). lia. }
  cbn [div_loop]. destruct (Z.leb_spec div num) as [Hle|Hgt].
  - assert (num / div = (num - div) / div + 1) as Hq.
    { replace num with (num - div + 1 * div) at 1 by lia. apply Z.div_add. lia. }
    assert (0 <= (num - div) / div) by (apply Z.div_pos; lia).
    rewrite u8_small by (unfold is_u8; lia). rewrite IH by lia. do 2 f_equal; [|lia].
    replace num with (num - div + 1 * div) at 2 by lia. rewrite Z.mod_add by lia. done.
  - by rewrite Z.mod_small, Z.div_small, Z.add_0_r by lia.
Qed.

Lemma out_dgt_spec info d :
  0 <= d < 16 → (length (bf info) < 12)%nat →
  out_dgt info d = Some {| bf := bf info ++ [dchar d]; zs := true |}.
Proof.
  intros Hd Hl. unfold out_dgt, out. apply Nat.ltb_lt in Hl. unfold BUF_SIZE. rewrite Hl. simpl.
  do 4 f_equal. unfold dchar. case_match; bool_to_prop; apply u8_small; unfold is_u8; lia.
Qed.

Lemma div_out_spec info num div :
  0 < div → 0 <= num < 16 * div → (length (bf info) < 12)%nat →
  div_out info num div =
    Some (if zs info || (0 <? num / div) then {| bf := bf info ++ [dchar (num / div)]; zs := true |}
          else info, num mod div).
Proof.
  intros Hdiv Hn Hl. unfold div_out.
  assert (0 <= num / div < 16) by (split; [apply Z.div_pos; lia|apply Z.div_lt_upper_bound; lia]).
  rewrite div_loop_spec by lia. sbind. rewrite Z.add_0_l. case_match; [|done].
  by rewrite out_dgt_spec by lia.
Qed.

(** All [k + 1] digits of [num], leading zeros included. *)
Fixpoint digs (base : Z) (k : nat) (num : Z) : list Z :=
  match k with
  | O => [num]
  | S k' => num / base ^ Z.of_nat k :: digs base k' (num mod base ^ Z.of_nat k)
  end.

Fixpoint strip (ds : list Z) : list Z :=
  match ds with
  | [] => []
  | d :: ds' => if 0 <? d then ds else strip ds'
  end.

Lemma length_digs base k num : length (digs base k num) = S k.
Proof. revert num. induction k; intros; simpl; auto. Qed.

Lemma strip_suffix ds : strip ds `suffix_of` ds.
Proof.
  induction ds as [|d ds IH]; [done|]. simpl. case_match; [done|]. by apply suffix_cons_r.
Qed.

Lemma digs_digit base k num :
  2 <= base → 0 <= num < base ^ Z.of_nat (S k) → Forall (is_digit base) (digs base k num).
Proof.
  intros Hb. revert num. induction k as [|k IH]; intros num Hn.
  - repeat constructor; change (Z.of_nat 1) with 1 in Hn; lia.
  - assert (0 < base ^ Z.of_nat (S k)) by (apply Z.pow_pos_nonneg; lia).
    rewrite Nat2Z.inj_succ, Z.pow_succ_r in Hn by lia. cbn [digs]. constructor.
    + split; [apply Z.div_pos; lia|apply Z.div_lt_upper_bound; lia].
    + apply IH, Z.mod_pos_bound. lia.
Qed.

Lemma horner_digs base k acc num :
  2 <= base → horner base acc (digs base k num) = acc * base ^ Z.of_nat (S k) + num.
Proof.
  intros Hb. revert acc num. induction k as [|k IH]; intros acc num.
  - change (Z.of_nat 1) with 1. simpl. lia.
  - assert (0 < base ^ Z.of_nat (S k)) by (apply Z.pow_pos_nonneg; lia).
    cbn [digs]. change (horner base acc (?d :: ?l)) with (horner base (acc * base + d) l).
    rewrite IH, (Nat2Z.inj_succ (S k)), Z.pow_succ_r by lia.
    rewrite (Z.div_mod num (base ^ Z.of_nat (S k))) at 3 by lia. lia.
Qed.

Lemma horner_strip base ds :
  Forall (is_digit base) ds → horner base 0 (strip ds) = horner base 0 ds.
Proof.
  induction 1 as [|d ds Hd Hds IH]; [done|]. cbn [strip]. case_match; [done|]. bool_to_prop.
  unfold is_digit in Hd. assert (d = 0) as -> by lia. done.
Qed.

(** The loop prints the digits of [num < base ^ (k + 1)], leading zeros only
    when a digit was written before. *)
Lemma div_outs_spec base k f info num :
  2 <= base <= 16 → (k + 2 <= f)%nat → (length (bf info) + S k <= 12)%nat →
  0 <= num < base ^ Z.of_nat (S k) →
  ∃ z, div_outs f info num (base ^ Z.of_nat k) base =
    Some {| bf := bf info ++ (dchar <$> (if zs info then digs base k num else strip (digs base k num)));
            zs := z |}.
Proof.
  intros Hb. revert f info num. induction k as [|k IH]; intros f info num Hf Hl Hn;
    (destruct f as [|f]; [lia|]); cbn [div_outs].
  - change (base ^ Z.of_nat 0) with 1. change (Z.of_nat 1) with 1 in Hn. cbn [Z.eqb].
    rewrite div_out_spec by lia. sbind. rewrite Z.div_1_r, Z.mod_1_r.
    replace (1 / base) with 0 by (symmetry; apply Z.div_small; lia).
    destruct f as [|f]; [lia|]. cbn [div_outs digs strip Z.eqb].
    destruct info as [b [|]]; simpl; [eauto|]. case_match; simpl; [eauto|]. rewrite app_nil_r. eauto.
  - assert (0 < base ^ Z.of_nat (S k)) by (apply Z.pow_pos_nonneg; lia).
    rewrite (Nat2Z.inj_succ (S k)), Z.pow_succ_r in Hn by lia.
    destruct (Z.eqb_spec (base ^ Z.of_nat (S k)) 0); [lia|].
    rewrite div_out_spec by (try lia; nia). sbind.
    replace (base ^ Z.of_nat (S k) / base) with (base ^ Z.of_nat k).
    2:{ rewrite Nat2Z.inj_succ, Z.pow_succ_r, Z.mul_comm, Z.div_mul by lia. done. }
    assert (0 <= num mod base ^ Z.of_nat (S k) < base ^ Z.of_nat (S k)) as Hm
      by (apply Z.mod_pos_bound; lia).
    cbn [digs strip]. destruct info as [b [|]]; cbn [bf zs orb] in *.
    + edestruct (IH f) as [z ->]; [lia| |exact Hm|]; cbn [bf zs];
        [rewrite length_app; simpl; lia|]. rewrite <- app_assoc. eauto.
    + case_match.
      * edestruct (IH f) as [z ->]; [lia| |exact Hm|]; cbn [bf zs];
        [rewrite length_app; simpl; lia|]. rewrite <- app_assoc. eauto.
      * edestruct (IH f) as [z ->]; [lia| |exact Hm|]; cbn [bf zs]; [lia|]. eauto.
Qed.

(** What [out_num] prints. *)
Definition num_digits (base : Z) (k : nat) (num : Z) : list Z :=
  if num =? 0 then [0] else strip (digs base k num).

Lemma num_digits_spec base k num :
  2 <= base → 0 <= num < base ^ Z.of_nat (S k) →
  Forall (is_digit base) (num_digits base k num) ∧ horner base 0 (num_digits base k num) = num ∧
  (length (num_digits base k num) <= S k)%nat ∧ num_digits base k num ≠ [].
Proof.
  intros Hb Hn. unfold num_digits. pose proof (digs_digit base k num Hb Hn) as Hd.
  pose proof (horner_digs base k 0 num Hb) as Hh. rewrite <- horner_strip in Hh by done.
  destruct (Z.eqb_spec num 0) as [->|Hnz].
  - repeat split; [repeat constructor; lia|simpl; lia|done].
  - destruct (strip_suffix (digs base k num)) as [l Hl]. repeat split.
    + rewrite Hl in Hd. by apply Forall_app in Hd as [_ ?].
    + lia.
    + pose proof (length_digs base k num) as Hlen. rewrite Hl, length_app in Hlen. lia.
    + intros Hnil. rewrite Hnil in Hh. change (horner base 0 []) with 0 in Hh. lia.
Qed.

Lemma out_num_spec base k info num :
  2 <= base <= 16 → (k <= 9)%nat → (length (bf info) + S k <= 12)%nat → zs info = false →
  0 <= num < base ^ Z.of_nat (S k) →
  ∃ z, out_num info num (base ^ Z.of_nat k) base =
    Some {| bf := bf info ++ (dchar <$> num_digits base k num); zs := z |}.
Proof.
  intros Hb Hk Hl Hz Hn. unfold out_num, num_digits. destruct (Z.eqb_spec num 0).
  - rewrite out_dgt_spec by lia. eauto.
  - destruct (div_outs_spec base k 11 info num) as [z ->]; [lia..|]. rewrite Hz. eauto.
Qed.

(** ** Reading digits back *)

Lemma dchar_class d :
  0 <= d < 16 → isxdigit (dchar d) = true ∧ digit_value (dchar d) = d ∧
    is_char (dchar d) ∧ tolower (dchar d) ≠ 120.
Proof.
  intros Hd.
  assert (Forall (λ d, isxdigit (dchar d) = true ∧ digit_value (dchar d) = d ∧
    is_char (dchar d) ∧ tolower (dchar d) ≠ 120) (Z.of_nat <$> seq 0 16)) as Hall.
  { apply (bool_decide_unpack _). vm_compute. exact I. }
  rewrite Forall_forall in Hall. apply Hall. apply list_elem_of_fmap.
  exists (Z.to_nat d). split; [lia|]. apply elem_of_seq. lia.
Qed.

Lemma horner_mono base acc ds :
  1 <= base → 0 <= acc → Forall (is_digit base) ds → acc <= horner base acc ds.
Proof.
  intros Hb Ha Hd. revert acc Ha. induction Hd as [|d ds Hd Hds IH]; intros acc Ha; [done|].
  unfold is_digit in Hd. change (horner base acc (d :: ds)) with (horner base (acc * base + d) ds).
  specialize (IH (acc * base + d)). nia.
Qed.

Lemma strtoul_digits base ds t rest acc :
  2 <= base <= 16 → Forall (is_digit base) ds → isxdigit t = false → 0 <= acc →
  horner base acc ds < 2 ^ 32 →
  strtoul_loop ((dchar <$> ds) ++ t :: rest) base acc = Some (horner base acc ds, t :: rest).
Proof.
  intros Hb Hd Ht. revert acc. induction Hd as [|d ds Hd Hds IH]; intros acc Ha Hlt.
  { cbn [fmap list_fmap app strtoul_loop]. by rewrite Ht. }
  unfold is_digit in Hd. change (horner base acc (d :: ds)) with (horner base (acc * base + d) ds) in *.
  pose proof (horner_mono base (acc * base + d) ds) as Hm.
  change (2 ^ 32) with 4294967296 in *.
  destruct (dchar_class d) as (Hx & Hv & _); [lia|].
  cbn [fmap list_fmap app strtoul_loop]. rewrite Hx, Hv.
  destruct (Z.ltb_spec d base); [|lia]. cbn [andb].
  assert (acc * base + d <= horner base (acc * base + d) ds) by (apply Hm; [lia|nia|done]).
  rewrite u32_small by (unfold is_u32; nia). apply IH; nia.
Qed.

(** A printed number in base 10 or 16 has no radix prefix. *)
Lemma fixup_digits base ds :
  base = 10 ∨ base = 16 → Forall (is_digit base) ds → ds ≠ [] →
  _parse_integer_fixup_radix ((dchar <$> ds) ++ [0]) base = Some ((dchar <$> ds) ++ [0], base).
Proof.
  intros [->| ->] Hd Hne; [done|]. unfold _parse_integer_fixup_radix. simpl.
  destruct Hd as [|d ds Hd Hds]; [done|]. cbn. case_match; [|done].
  destruct Hds as [|d' ds Hd' Hds]; [done|]. cbn.
  destruct (dchar_class d') as (_ & _ & _ & Hx); [done|].
  destruct (Z.eqb_spec (tolower (dchar d')) 120); done.
Qed.

Lemma cstring_chars l : is_cstr l → cstring (l ++ [0]) = Some l.
Proof.
  induction 1 as [|c l Hc Hl IH]; [done|]. cbn [cstring app]. rewrite char_nonzero by done.
  by rewrite IH.
Qed.

Lemma digits_cstr ds base : base <= 16 → Forall (is_digit base) ds → is_cstr (dchar <$> ds).
Proof.
  intros Hb Hd. apply Forall_fmap. eapply Forall_impl; [exact Hd|]. intros d Hdd.
  destruct (dchar_class d) as (_ & _ & Hc & _); [unfold is_digit in Hdd; lia|done].
Qed.

(** The three numeric conversions print the digits of their argument. *)
Lemma conv_u_spec w :
  ∃ z, conv_u w = Some {| bf := dchar <$> num_digits 10 9 (u32 w); zs := z |}.
Proof.
  pose proof (u32_bound w) as Hw. unfold is_u32 in Hw. unfold conv_u.
  destruct (out_num_spec 10 9 info0 (u32 w)) as [z Hz]; simpl; try done; try lia.
  exists z. exact Hz.
Qed.

Lemma conv_x_spec w :
  ∃ z, conv_x w = Some {| bf := dchar <$> num_digits 16 7 (u32 w); zs := z |}.
Proof.
  pose proof (u32_bound w) as Hw. unfold is_u32 in Hw. unfold conv_x.
  destruct (out_num_spec 16 7 info0 (u32 w)) as [z Hz]; simpl; try done; try lia.
  exists z. exact Hz.
Qed.

Lemma conv_d_spec w :
  ∃ z, conv_d w =
    Some {| bf := (if s32 w <? 0 then [45] else []) ++ (dchar <$> num_digits 10 9 (Z.abs (s32 w)));
            zs := z |}.
Proof.
  assert (-2147483648 <= s32 w < 2147483648) as Hw
    by (unfold s32; pose proof (Z.mod_pos_bound (w + 2147483648) 4294967296); lia).
  unfold conv_d. destruct (Z.ltb_spec (s32 w) 0) as [Hneg|Hpos].
  - rewrite u32_small by (unfold is_u32; lia). rewrite Z.abs_neq by lia.
    destruct (out_num_spec 10 9 {| bf := [45]; zs := false |} (- s32 w)) as [z Hz];
      simpl; try done; try lia. exists z. exact Hz.
  - rewrite Z.abs_eq by lia. assert (u32 w = s32 w) as ->.
    { unfold u32, s32 in *. zmod. }
    destruct (out_num_spec 10 9 info0 (s32 w)) as [z Hz]; simpl; try done; try lia.
    exists z. exact Hz.
Qed.

Lemma digits_length base k num :
  2 <= base → 0 <= num < base ^ Z.of_nat (S k) → (length (dchar <$> num_digits base k num) <= S k)%nat.
Proof. intros. rewrite length_fmap. by apply num_digits_spec. Qed.

Lemma buffer_text_spec info :
  is_cstr (bf info) → (length (bf info) < 12)%nat → buffer_text info = Some (bf info).
Proof.
  intros Hc Hl. unfold buffer_text, finish, BUF_SIZE. apply Nat.ltb_lt in Hl. rewrite Hl. sbind.
  by apply cstring_chars.
Qed.

Lemma num_text_spec base k num z :
  2 <= base <= 16 → 0 <= num < base ^ Z.of_nat (S k) → (k <= 9)%nat →
  buffer_text {| bf := dchar <$> num_digits base k num; zs := z |} =
    Some (dchar <$> num_digits base k num).
Proof.
  intros Hb Hn Hk. destruct (num_digits_spec base k num) as (Hd & _ & Hl & _); [lia..|].
  rewrite buffer_text_spec; cbn [bf]; [done| |rewrite length_fmap; lia].
  apply (digits_cstr _ base); [lia|done].
Qed.

Lemma strtoul_num base k num :
  base = 10 ∨ base = 16 → 0 <= num < base ^ Z.of_nat (S k) → num < 2 ^ 32 →
  simple_strtoul ((dchar <$> num_digits base k num) ++ [0]) base = Some (num, [0]).
Proof.
  intros Hb Hn H32. destruct (num_digits_spec base k num) as (Hd & Hh & _ & Hne); [lia..|].
  unfold simple_strtoul. rewrite fixup_digits by done. sbind.
  rewrite strtoul_digits; [by rewrite Hh|lia|done|done|lia|by rewrite Hh].
Qed.

Lemma pad_0 lz p : pad lz 0 p = p.
Proof. unfold pad. by replace (Z.to_nat (0 - Z.of_nat (length p))) with 0%nat by lia. Qed.

Lemma num_digits_short num :
  0 <= num < 10 ^ 10 → (length (num_digits 10 9 num) <= 9)%nat ↔ num < 10 ^ 9.
Proof.
  intros Hn. destruct (num_digits_spec 10 9 num) as (Hd & Hh & _); [lia|done|]. split.
  - intros Hle. rewrite <- Hh. assert (∀ ds, Forall (is_digit 10) ds → ∀ acc, 0 <= acc →
      horner 10 acc ds < (acc + 1) * 10 ^ Z.of_nat (length ds)) as Hub.
    { clear. induction 1 as [|d ds Hd Hds IH]; intros acc Ha.
      - change (horner 10 acc []) with acc. simpl. lia.
      - change (horner 10 acc (d :: ds)) with (horner 10 (acc * 10 + d) ds). unfold is_digit in Hd.
        rewrite length_cons, Nat2Z.inj_succ, Z.pow_succ_r by lia.
        assert (0 < 10 ^ Z.of_nat (length ds)) by (apply Z.pow_pos_nonneg; lia).
        specialize (IH (acc * 10 + d)). nia. }
    eapply Z.lt_le_trans; [apply Hub; [done|lia]|]. rewrite Z.mul_1_l. apply Z.pow_le_mono_r; lia.
  - intros Hlt. unfold num_digits. case_match; [simpl; lia|]. cbn [digs strip].
    change (Z.of_nat 9) with 9. rewrite (Z.div_small num (10 ^ 9)) by lia. cbn [Z.ltb Z.compare].
    fold (digs 10 8 (num mod 10 ^ 9)).
    destruct (strip_suffix (digs 10 8 (num mod 10 ^ 9))) as [l Hl].
    pose proof (length_digs 10 8 (num mod 10 ^ 9)) as Hlen. rewrite Hl, length_app in Hlen.
    simpl in Hlen |- *. lia.
Qed.

(** ** Theorems *)

(** Whatever word is printed with [%d], [%u] or [%x], its digits, sign and
    terminator fit the 12-byte buffer of [_vprintf]. *)
Theorem conversions_fit_buffer w :
  (∃ t, (conv_d w ≫= buffer_text) = Some t) ∧
  (∃ t, (conv_u w ≫= buffer_text) = Some t) ∧
  (∃ t, (conv_x w ≫= buffer_text) = Some t).
Proof.
  pose proof (u32_bound w) as Hw. unfold is_u32 in Hw.
  assert (-2147483648 <= s32 w < 2147483648) as Hs
    by (unfold s32; pose proof (Z.mod_pos_bound (w + 2147483648) 4294967296); lia).
  destruct (conv_d_spec w) as [zd ->], (conv_u_spec w) as [zu ->], (conv_x_spec w) as [zx ->]. sbind.
  split; [|split]; eexists; [|apply num_text_spec; simpl; lia..].
  destruct (num_digits_spec 10 9 (Z.abs (s32 w))) as (Hd & _ & Hl & _); [lia|simpl; lia|].
  apply buffer_text_spec; cbn [bf].
  - apply Forall_app. split; [|by apply (digits_cstr _ 10)].
    case_match; repeat constructor; lia.
  - rewrite length_app, length_fmap. case_match; simpl; lia.
Qed.

(** Printing a 32-bit number with [%u] or [%x] and reading the text back
    with [simple_strtoul] in base 10 or 16 gives the number again and stops at
    the terminator. *)
Theorem printf_strtoul_roundtrip n :
  is_u32 n →
  (∃ t, vprintf [37; 117; 0] [VaWord n] = Some t ∧ simple_strtoul (t ++ [0]) 10 = Some (n, [0])) ∧
  (∃ t, vprintf [37; 120; 0] [VaWord n] = Some t ∧ simple_strtoul (t ++ [0]) 16 = Some (n, [0])).
Proof.
  intros Hn. pose proof (u32_small n Hn) as Hu. unfold is_u32 in Hn.
  split; [exists (dchar <$> num_digits 10 9 n)|exists (dchar <$> num_digits 16 7 n)].
  - split; [|apply strtoul_num; simpl; lia]. unfold vprintf. cbn.
    destruct (conv_u_spec n) as [z ->]. rewrite Hu. sbind.
    rewrite num_text_spec by (simpl; lia). sbind. rewrite pad_0. simpl. by rewrite app_nil_r.
  - split; [|apply strtoul_num; simpl; lia]. unfold vprintf. cbn.
    destruct (conv_x_spec n) as [z ->]. rewrite Hu. sbind.
    rewrite num_text_spec by (simpl; lia). sbind. rewrite pad_0. simpl. by rewrite app_nil_r.
Qed.

Lemma printf_strtoul_roundtrip_witness :
  ∃ t, vprintf [37; 120; 0] [VaWord 0xdeadbeef] = Some t ∧
       simple_strtoul (t ++ [0]) 16 = Some (0xdeadbeef, [0]).
Proof. apply (printf_strtoul_roundtrip 0xdeadbeef). unfold is_u32. lia. Defined.

(** The time stamp [printf] formats into its own 12-byte array fits
    exactly while the tick count is below 10^9; from there to the end of the
    positive [int] range the terminator is written past the array. *)
Theorem printf_stamp_overflow ticks :
  0 <= ticks < 2147483648 →
  is_Some (sprintf (replicate 12 0) stamp_fmt [VaWord ticks]) ↔ ticks < 10 ^ 9.
Proof.
  intros Ht. rewrite <- num_digits_short by (simpl; lia).
  destruct (conv_d_spec ticks) as [z Hz]. rewrite s32_small in Hz by lia.
  rewrite Z.abs_eq in Hz by lia. destruct (Z.ltb_spec ticks 0); [lia|]. cbn [app] in Hz.
  assert (vprintf stamp_fmt [VaWord ticks] = Some (91 :: (dchar <$> num_digits 10 9 ticks) ++ [93])) as Hv.
  { unfold vprintf, stamp_fmt. cbn. rewrite Hz. sbind.
    rewrite num_text_spec by (simpl; lia). sbind. by rewrite pad_0. }
  unfold sprintf. rewrite Hv. sbind.
  rewrite length_replicate, length_cons, length_app, length_fmap. cbn [length].
  rewrite <- Nat.add_succ_r. destruct (Nat.ltb_spec (length (num_digits 10 9 ticks) + 2) 12).
  - split; [lia|eauto].
  - split; [by intros [? ?]|lia].
Qed.

Lemma printf_stamp_overflow_witness : sprintf (replicate 12 0) stamp_fmt [VaWord 1000000000] = None.
Proof.
  apply eq_None_not_Some. rewrite printf_stamp_overflow; lia.
Defined.
