(* ===== verification/PmicBus.v ===== *)
(** * The PMIC bus (spl/drivers/pmic_bus.c)

    The power drivers reach the PMIC through [pmic_bus_read] and
    [pmic_bus_write], which the configured transport (the TWI controller)
    implements.  The transport together with the chip behind it is an
    interface, [I2cBus]: a state and three operations.  [RegisterBus] states
    what a working bus promises for ordinary registers; the drivers' theorems
    are proved against it, and [SimBus], a register file with a schedule of
    transfer failures, implements it.

    A driver is a state-passing program returning the C [int]; [None] is
    undefined behaviour (an array read out of bounds). *)

From S2P Require Import Prelude.

Local Open Scope Z_scope.

(** ** The transport *)

(** [i2c_read] returns its status (0 is success) and what it left in [*data];
    [i2c_write] its status. *)
Class I2cBus (S : Type) := {
  i2c_init_cpus : Z → Z → S → S;
  i2c_read : Z → Z → S → S * (Z * Z);
  i2c_write : Z → Z → Z → S → S * Z;
}.

(** What the bus promises: a successful read returns the register, a
    successful write sets it, and no transfer touches any other register.
    [plain] are the registers without side effects of their own. *)
Class RegisterBus (S : Type) `{I2cBus S} (plain : Z → Z → Prop) := {
  reg : S → Z → Z → Z;
  reg_is_u8 s rt r : is_u8 (reg s rt r);
  read_data s rt r s' v : i2c_read rt r s = (s', (0, v)) → plain rt r → v = reg s rt r;
  read_frame s rt r s' st v : i2c_read rt r s = (s', (st, v)) → plain rt r →
    ∀ rt' r', reg s' rt' r' = reg s rt' r';
  write_data s rt r v s' : i2c_write rt r v s = (s', 0) → plain rt r → is_u8 v → reg s' rt r = v;
  write_frame s rt r v s' st : i2c_write rt r v s = (s', st) → plain rt r →
    ∀ rt' r', (rt', r') ≠ (rt, r) → reg s' rt' r' = reg s rt' r';
}.

(** ** Programs *)

Definition prog (S : Type) : Type := S → option (S * Z).

Section ops.
Context {S : Type} `{I2cBus S}.

Definition pmic_bus_init (device_addr runtime_addr : Z) : prog S :=
  λ s, Some (i2c_init_cpus device_addr runtime_addr s, 0).

Definition pmic_bus_read (runtime_addr reg : Z) (s : S) : S * (Z * Z) := i2c_read runtime_addr reg s.

Definition pmic_bus_write (runtime_addr reg data : Z) (s : S) : S * Z := i2c_write runtime_addr reg data s.

Definition ret (z : Z) : prog S := λ s, Some (s, z).

(** [if (pmic_bus_read(rt, r, &v)) return -1;] *)
Definition check_read (rt r : Z) (k : Z → prog S) : prog S := λ s,
  let '(s', (st, v)) := pmic_bus_read rt r s in
  if st =? 0 then k v s' else Some (s', -1).

(** [if (pmic_bus_write(rt, r, v)) return -1;] *)
Definition check_write (rt r v : Z) (k : prog S) : prog S := λ s,
  let '(s', st) := pmic_bus_write rt r v s in
  if st =? 0 then k s' else Some (s', -1).

(** The same transfers with the status ignored. *)
Definition do_read (rt r : Z) (k : Z → prog S) : prog S := λ s,
  let '(s', (_, v)) := pmic_bus_read rt r s in k v s'.

Definition do_write (rt r v : Z) (k : prog S) : prog S := λ s,
  let '(s', _) := pmic_bus_write rt r v s in k s'.

(** A call whose result the caller looks at. *)
Definition call (p : prog S) (k : Z → prog S) : prog S := λ s,
  match p s with Some (s', z) => k z s' | None => None end.

Definition pmic_bus_setbits (runtime_addr reg bits : Z) : prog S := λ s,
  let '(s', (st, val)) := pmic_bus_read runtime_addr reg s in
  if negb (st =? 0) then Some (s', st)
  else let '(s'', st) := pmic_bus_write runtime_addr reg (Z.lor val bits) s' in Some (s'', st).

Definition pmic_bus_clrbits (runtime_addr reg bits : Z) : prog S := λ s,
  let '(s', (st, val)) := pmic_bus_read runtime_addr reg s in
  if negb (st =? 0) then Some (s', st)
  else let '(s'', st) := pmic_bus_write runtime_addr reg (Z.land val (Z.lnot bits)) s' in Some (s'', st).
End ops.

Declare Scope pmic_scope.
Delimit Scope pmic_scope with pmic.
Notation "v '<-!' 'rd' rt r ';;' k" := (check_read rt r (λ v, k))
  (at level 61, rt at level 9, r at level 9, k at level 200, right associativity) : pmic_scope.
Notation "v '<-' 'rd' rt r ';;' k" := (do_read rt r (λ v, k))
  (at level 61, rt at level 9, r at level 9, k at level 200, right associativity) : pmic_scope.
Notation "'wr!' rt r v ';;' k" := (check_write rt r v k)
  (at level 61, rt at level 9, r at level 9, v at level 9, k at level 200, right associativity) : pmic_scope.
Notation "'wr' rt r v ';;' k" := (do_write rt r v k)
  (at level 61, rt at level 9, r at level 9, v at level 9, k at level 200, right associativity) : pmic_scope.
Notation "v '<-' 'call' p ';;' k" := (call p (λ v, k))
  (at level 61, p at level 9, k at level 200, right associativity) : pmic_scope.

(** ** A simulated chip *)

(** The registers, and for each coming transfer whether it fails; a failed
    transfer changes nothing. *)
Record sim := Sim { sim_regs : gmap (Z * Z) Z; sim_fail : list bool }.

Definition sim_reg (s : sim) (rt r : Z) : Z := u8 (default 0 (sim_regs s !! (rt, r))).

Definition sim_next (s : sim) : bool * sim :=
  match sim_fail s with
  | [] => (false, s)
  | f :: fs => (f, Sim (sim_regs s) fs)
  end.

#[export] Instance SimBus : I2cBus sim := {|
  i2c_init_cpus := λ _ _ s, s;
  i2c_read := λ rt r s, let '(f, s') := sim_next s in (s', if f then (-1, 0) else (0, sim_reg s rt r));
  i2c_write := λ rt r v s,
    let '(f, s') := sim_next s in
    if f then (s', -1) else (Sim (<[(rt, r) := v]> (sim_regs s')) (sim_fail s'), 0);
|}.

Lemma sim_next_regs s f s' : sim_next s = (f, s') → sim_regs s' = sim_regs s.
Proof. unfold sim_next. destruct (sim_fail s); naive_solver. Qed.

Lemma sim_reg_eq s s' rt r : sim_regs s' = sim_regs s → sim_reg s' rt r = sim_reg s rt r.
Proof. unfold sim_reg. by intros ->. Qed.

#[export] Instance SimBus_laws : RegisterBus sim (λ _ _, True).
Proof.
  refine {| reg := sim_reg |}; simpl.
  - intros. apply u8_bound.
  - intros s rt r s' v Hr _. destruct (sim_next s) as [[] ?]; congruence.
  - intros s rt r s' st v Hr _ rt' r'. destruct (sim_next s) as [f s1] eqn:E.
    apply sim_next_regs in E. injection Hr as <- _. by apply sim_reg_eq.
  - intros s rt r v s' Hw _ Hv. destruct (sim_next s) as [[] s1]; [done|].
    injection Hw as <-. unfold sim_reg. simpl. rewrite lookup_insert_eq. by apply u8_small.
  - intros s rt r v s' st Hw _ rt' r' Hne. destruct (sim_next s) as [[] s1] eqn:E;
      apply sim_next_regs in E; injection Hw as <- _; [by apply sim_reg_eq|].
    unfold sim_reg. simpl. rewrite lookup_insert_ne by congruence. congruence.
Defined.
