(* ===== verification/PmicCore.v ===== *)
(** * Voltage tables and the regulator algorithm (spl/drivers/power)

    Every PMIC driver of the loader carries the same table type
    ([axp_contrl_info], include/arch/axp.h) and the same three routines over
    it: look a regulator up by name, program a voltage and an enable bit
    ([pmu_set_vol]), read the voltage back ([pmu_get_vol]); three of them add
    a ramp that walks from the present voltage to the requested one.  The
    routines are written once here, over the table and the chip's bus address;
    each driver file instantiates them.

    Abstractly a regulator is the ascending list of the voltages it supports
    ([supported]) and its register field holds an index into that list.  The
    theorems show that the routines implement this: a request is clamped and
    rounded down to a supported voltage, its index is stored without touching
    any other bit, and reading returns that voltage. *)

From S2P Require Import Prelude CString PmicBus.

Local Open Scope Z_scope.
Local Open Scope c_scope.
Local Open Scope pmic_scope.

(** ** include/arch/axp.h *)

Record axp_step_info := Step {
  step_min_vol : Z; step_max_vol : Z; step_val : Z; regation : Z }.

Record axp_contrl_info := Ctrl {
  name : bytes;
  min_vol : Z; max_vol : Z;
  cfg_reg_addr : Z; cfg_reg_mask : Z;
  ctrl_reg_addr : Z; ctrl_bit_ofs : Z;
  reg_addr_offest : Z;
  axp_step_tbl : list axp_step_info }.

Definition AXP_BOOT_SOURCE_BUTTON : Z := 0.
Definition AXP_BOOT_SOURCE_IRQ_LOW : Z := 1.
Definition AXP_BOOT_SOURCE_VBUS_USB : Z := 2.
Definition AXP_BOOT_SOURCE_CHARGER : Z := 3.
Definition AXP_BOOT_SOURCE_BATTERY : Z := 4.

(** A string literal and the initialiser of a four-element step table, whose
    missing elements are zero. *)
Definition lit (s : string) : bytes := (λ a, Z.of_N (Ascii.N_of_ascii a)) <$> String.list_ascii_of_string s.
Definition steps (l : list axp_step_info) : list axp_step_info :=
  l ++ replicate (4 - length l) (Step 0 0 0 0).

(** ** Routines shared by the drivers *)

(** [get_ctrl_info_from_tbl]: the first entry whose whole name is a prefix of
    the argument; the outer [None] is a read outside a string. *)
Fixpoint get_ctrl_info_from_tbl (tbl : list axp_contrl_info) (nm : bytes) : option (option axp_contrl_info) :=
  match tbl with
  | [] => Some None
  | e :: tbl' =>
      n ← strlen (name e ++ [0]);
      r ← strncmp (nm ++ [0]) (name e ++ [0]) n;
      if r =? 0 then Some (Some e) else get_ctrl_info_from_tbl tbl' nm
  end.

(** The number of codes of one step, [(max - min + step) / step]. *)
Definition step_count (st : axp_step_info) : Z :=
  (step_max_vol st ⊟ step_min_vol st ⊞ step_val st) / step_val st.

(** [reg_value |= code << ofs], and the inversion of the field for a step
    marked [regation]. *)
Definition program_code (e : axp_contrl_info) (st : axp_step_info) (code reg_value : Z) : Z :=
  let reg_value := u8 (Z.lor reg_value (Z.shiftl code (reg_addr_offest e))) in
  if regation st =? 0 then reg_value
  else
    let reg_value_temp := u8 (Z.land (Z.lnot reg_value) (cfg_reg_mask e)) in
    u8 (Z.lor (Z.land reg_value (Z.lnot (cfg_reg_mask e))) reg_value_temp).

(** The step loop of [pmu_set_vol]; the suffix of the table stands for the
    index, its end for a read of [axp_step_tbl[4]]. *)
Fixpoint step_loop (e : axp_contrl_info) (tbl : list axp_step_info) (base_step set_vol reg_value : Z) : option Z :=
  match tbl with
  | [] => None
  | st :: tbl' =>
      if step_max_vol st =? 0 then Some reg_value
      else
        set_vol ←
          (if step_max_vol st <? set_vol then
             nx ← head tbl';
             Some (if set_vol <? step_min_vol nx then step_max_vol st else set_vol)
           else Some set_vol);
        if set_vol <=? step_max_vol st then
          Some (program_code e st (base_step + (set_vol ⊟ step_min_vol st) / step_val st) reg_value)
        else step_loop e tbl' (u8 (base_step + step_count st)) set_vol reg_value
  end.

(** The clamp at the top of [pmu_set_vol]. *)
Definition clamp_vol (e : axp_contrl_info) (set_vol : Z) : Z :=
  if set_vol <? min_vol e then min_vol e
  else if max_vol e <? set_vol then max_vol e else set_vol.

(** [reg_value] with the enable bit cleared or set. *)
Definition onoff_value (e : axp_contrl_info) (onoff reg_value : Z) : Z :=
  if onoff =? 0 then u8 (Z.land reg_value (Z.lnot (Z.shiftl 1 (ctrl_bit_ofs e))))
  else u8 (Z.lor reg_value (Z.shiftl 1 (ctrl_bit_ofs e))).

Section routines.
Context {S : Type} `{I2cBus S} (rt : Z).

Definition undefined : prog S := λ _, None.

(** The enable bit, the second half of [pmu_set_vol]. *)
Definition set_onoff (e : axp_contrl_info) (onoff : Z) : prog S :=
  if onoff <? 0 then ret 0
  else
    reg_value <-! rd rt (ctrl_reg_addr e) ;;
    wr! rt (ctrl_reg_addr e) (onoff_value e onoff reg_value) ;; ret 0.

(** The voltage, its first half. *)
Definition set_item_vol (e : axp_contrl_info) (set_vol onoff : Z) : prog S :=
  if (0 <? set_vol) && negb (min_vol e =? 0) then
    let set_vol := clamp_vol e set_vol in
    reg_value <-! rd rt (cfg_reg_addr e) ;;
    let reg_value := u8 (Z.land reg_value (Z.lnot (cfg_reg_mask e))) in
    match step_loop e (axp_step_tbl e) 0 set_vol reg_value with
    | None => undefined
    | Some reg_value => wr! rt (cfg_reg_addr e) reg_value ;; set_onoff e onoff
    end
  else set_onoff e onoff.

Definition set_vol_tbl (tbl : list axp_contrl_info) (nm : bytes) (set_vol onoff : Z) : prog S :=
  match get_ctrl_info_from_tbl tbl nm with
  | None => undefined
  | Some None => ret (-1)
  | Some (Some e) => set_item_vol e set_vol onoff
  end.

(** The field as [pmu_get_vol] extracts it, and its complement in the field. *)
Definition field_of (e : axp_contrl_info) (reg_value : Z) : Z :=
  Z.shiftr (Z.land reg_value (cfg_reg_mask e)) (reg_addr_offest e).

Definition flip_field (e : axp_contrl_info) (st : axp_step_info) (v : Z) : Z :=
  if regation st =? 0 then v
  else u8 (Z.land (Z.lnot v) (Z.shiftr (cfg_reg_mask e) (reg_addr_offest e))).

(** The decoding loop of [pmu_get_vol]; -1 after the last step. *)
Fixpoint get_loop (e : axp_contrl_info) (tbl : list axp_step_info) (base_step1 base_step2 reg_value : Z) : option Z :=
  match tbl with
  | [] => None
  | st :: tbl' =>
      if step_max_vol st =? 0 then Some (-1)
      else
        let base_step1 := u8 (base_step1 + step_count st) in
        let reg_value := flip_field e st reg_value in
        if reg_value <? base_step1 then
          Some (s32 ((reg_value - base_step2) * step_val st + step_min_vol st))
        else
          get_loop e tbl' base_step1 (u8 (base_step2 + step_count st)) (flip_field e st reg_value)
  end.

Definition get_item_vol (e : axp_contrl_info) : prog S :=
  reg_value <-! rd rt (ctrl_reg_addr e) ;;
  if Z.land reg_value (Z.shiftl 1 (ctrl_bit_ofs e)) =? 0 then ret 0
  else
    reg_value <-! rd rt (cfg_reg_addr e) ;;
    match get_loop e (axp_step_tbl e) 0 0 (field_of e reg_value) with
    | None => undefined
    | Some vol => ret vol
    end.

Definition get_vol_tbl (tbl : list axp_contrl_info) (nm : bytes) : prog S :=
  match get_ctrl_info_from_tbl tbl nm with
  | None => undefined
  | Some None => ret (-1)
  | Some (Some e) => get_item_vol e
  end.

(** ** The ramp *)

(** [step_voltage]: the smallest step of the table, 0xffff when it has none. *)
Fixpoint min_step (tbl : list axp_step_info) (step_voltage : Z) : option Z :=
  match tbl with
  | [] => None
  | st :: tbl' =>
      if step_val st =? 0 then Some step_voltage
      else min_step tbl' (if step_val st <? step_voltage then step_val st else step_voltage)
  end.

(** [for (temp_vol = ...; temp_vol >= set_vol; temp_vol -= step_voltage)] and
    its mirror image; [set] is the driver's own [pmu_set_vol]. *)
Fixpoint ramp_down (fuel : nat) (set : Z → prog S) (temp_vol set_vol step_voltage : Z) : prog S :=
  match fuel with
  | O => undefined
  | Datatypes.S f =>
      if set_vol <=? temp_vol then
        r <- call (set temp_vol) ;;
        if negb (r =? 0) then ret (-1)
        else ramp_down f set (temp_vol - step_voltage) set_vol step_voltage
      else ret 0
  end.

Fixpoint ramp_up (fuel : nat) (set : Z → prog S) (temp_vol set_vol step_voltage : Z) : prog S :=
  match fuel with
  | O => undefined
  | Datatypes.S f =>
      if temp_vol <=? set_vol then
        r <- call (set temp_vol) ;;
        if negb (r =? 0) then ret (-1)
        else ramp_up f set (temp_vol + step_voltage) set_vol step_voltage
      else ret 0
  end.

Definition ramp_fuel (a b : Z) : nat := Z.to_nat (Z.abs (a - b) + 2).

Definition ramp_vol_tbl (tbl : list axp_contrl_info) (nm : bytes) (set_vol onoff : Z) : prog S :=
  src_vol <- call (get_vol_tbl tbl nm) ;;
  match get_ctrl_info_from_tbl tbl nm with
  | None => undefined
  | Some None => ret (-1)
  | Some (Some e) =>
      match min_step (axp_step_tbl e) 0xffff with
      | None => undefined
      | Some step_voltage =>
          if step_voltage =? 0xffff then ret (-1)
          else if set_vol <? src_vol then
            ramp_down (ramp_fuel src_vol set_vol) (λ v, set_vol_tbl tbl nm v onoff) src_vol set_vol step_voltage
          else if src_vol <? set_vol then
            ramp_up (ramp_fuel src_vol set_vol) (λ v, set_vol_tbl tbl nm v onoff) src_vol set_vol step_voltage
          else ret 0
      end
  end.
End routines.

(** ** Specification: the supported voltages *)

(** The steps in use: those before the first zero [step_max_vol]. *)
Fixpoint active (tbl : list axp_step_info) : list axp_step_info :=
  match tbl with
  | [] => []
  | st :: tbl' => if step_max_vol st =? 0 then [] else st :: active tbl'
  end.

Definition step_vols (st : axp_step_info) : list Z :=
  (λ k, step_min_vol st + Z.of_nat k * step_val st) <$>
    seq 0 (Z.to_nat ((step_max_vol st - step_min_vol st) / step_val st + 1)).

Definition vols (l : list axp_step_info) : list Z := concat (step_vols <$> l).

Definition supported (e : axp_contrl_info) : list Z := vols (active (axp_step_tbl e)).

(** [c] is the index of the greatest element of [l] not above [v]. *)
Definition is_floor (l : list Z) (v : Z) (c : nat) (q : Z) : Prop :=
  l !! c = Some q ∧ q <= v ∧ ∀ c' q', l !! c' = Some q' → q' <= v → (c' <= c)%nat.

(** *** Well-formed table entries *)

Definition wf_step (st : axp_step_info) : bool :=
  (0 <? step_min_vol st) && (step_min_vol st <=? step_max_vol st) &&
  (step_max_vol st <? 65536) && (0 <? step_val st) && (step_val st <? 65536).

(** Steps in ascending order without overlap, all of one polarity [neg]. *)
Fixpoint wf_steps (neg : bool) (l : list axp_step_info) : bool :=
  match l with
  | [] => true
  | st :: l' =>
      wf_step st && Bool.eqb (negb (regation st =? 0)) neg &&
      match l' with [] => true | nx :: _ => step_max_vol st <? step_min_vol nx end &&
      wf_steps neg l'
  end.

Definition first_min (l : list axp_step_info) : Z := default 0 (step_min_vol <$> head l).
Definition last_max (l : list axp_step_info) : Z := default 0 (step_max_vol <$> last l).

(** The width of the field and its mask. *)
Definition field_width (e : axp_contrl_info) : Z :=
  Z.log2 (Z.shiftr (cfg_reg_mask e) (reg_addr_offest e) + 1).

Definition neg_of (e : axp_contrl_info) : bool :=
  match active (axp_step_tbl e) with [] => false | st :: _ => negb (regation st =? 0) end.

Definition wf_ctrl (e : axp_contrl_info) : bool :=
  let l := active (axp_step_tbl e) in
  wf_steps (neg_of e) l && negb (length l =? 0)%nat &&
  (first_min l <=? min_vol e) && (min_vol e <=? max_vol e) && (max_vol e <=? last_max l) &&
  (0 <=? reg_addr_offest e) && (reg_addr_offest e + field_width e <=? 8) &&
  (cfg_reg_mask e =? Z.shiftl (Z.ones (field_width e)) (reg_addr_offest e)) &&
  (Z.of_nat (length (supported e)) <=? 2 ^ field_width e) && (Z.of_nat (length (supported e)) <? 256) &&
  (0 <=? ctrl_bit_ofs e) && (ctrl_bit_ofs e <? 8) &&
  (negb (cfg_reg_addr e =? ctrl_reg_addr e) || negb (Z.testbit (cfg_reg_mask e) (ctrl_bit_ofs e))) &&
  forallb (λ c, bool_decide (is_char c)) (name e).

(** *** Floors *)

Lemma is_floor_app_l l1 l2 v c q :
  is_floor l1 v c q → Forall (λ q', v < q') l2 → is_floor (l1 ++ l2) v c q.
Proof.
  intros (Hq & Hle & Hmax) Hl2. split; [by apply lookup_app_l_Some|]. split; [done|].
  intros c' q' Hc' Hq'. destruct (decide (c' < length l1)%nat) as [Hlt|Hge].
  - rewrite lookup_app_l in Hc' by done. eauto.
  - rewrite lookup_app_r in Hc' by lia. apply list_elem_of_lookup_2 in Hc'.
    rewrite Forall_forall in Hl2. specialize (Hl2 _ Hc'). lia.
Qed.

Lemma is_floor_app_r l1 l2 v c q :
  is_floor l2 v c q → is_floor (l1 ++ l2) v (length l1 + c) q.
Proof.
  intros (Hq & Hle & Hmax). split; [|split; [done|]].
  - rewrite lookup_app_r by lia. by replace (length l1 + c - length l1)%nat with c by lia.
  - intros c' q' Hc' Hq'. destruct (decide (c' < length l1)%nat) as [Hlt|Hge]; [lia|].
    rewrite lookup_app_r in Hc' by lia. specialize (Hmax _ _ Hc' Hq'). lia.
Qed.

Lemma lookup_step_vols st k q :
  step_vols st !! k = Some q ↔
  q = step_min_vol st + Z.of_nat k * step_val st ∧
  (k < Z.to_nat ((step_max_vol st - step_min_vol st) / step_val st + 1))%nat.
Proof.
  unfold step_vols. rewrite list_lookup_fmap_Some. split.
  - intros (i & -> & Hi). apply lookup_seq in Hi as [-> ?]. done.
  - intros [-> Hk]. exists k. split; [done|]. apply lookup_seq. lia.
Qed.

Lemma length_step_vols st :
  length (step_vols st) = Z.to_nat ((step_max_vol st - step_min_vol st) / step_val st + 1).
Proof. unfold step_vols. by rewrite length_fmap, length_seq. Qed.

Record good_step (st : axp_step_info) : Prop := {
  gs_min : 0 < step_min_vol st;
  gs_le : step_min_vol st <= step_max_vol st;
  gs_max : step_max_vol st < 65536;
  gs_val : 0 < step_val st < 65536;
}.

Lemma wf_step_good st : wf_step st = true → good_step st.
Proof. unfold wf_step. intros H. bool_to_prop. by split; try lia. Qed.

Lemma step_count_good st :
  good_step st → step_count st = Z.of_nat (length (step_vols st)) ∧ 0 < step_count st.
Proof.
  intros [H1 H2 H3 H4]. unfold step_count. rewrite length_step_vols.
  assert (0 <= (step_max_vol st - step_min_vol st) / step_val st) by (apply Z.div_pos; lia).
  rewrite (u32_small (step_max_vol st - step_min_vol st)) by (unfold is_u32; lia).
  rewrite u32_small by (unfold is_u32; lia).
  replace (step_max_vol st - step_min_vol st + step_val st)
    with (step_max_vol st - step_min_vol st + 1 * step_val st) by lia.
  rewrite Z.div_add by lia. rewrite Z2Nat.id by lia. lia.
Qed.

(** Rounding inside one step: a request above its end counts as its end. *)
Lemma step_floor st v :
  good_step st → step_min_vol st <= v →
  let v' := Z.min v (step_max_vol st) in
  let c := Z.to_nat ((v' - step_min_vol st) / step_val st) in
  is_floor (step_vols st) v c (step_min_vol st + Z.of_nat c * step_val st).
Proof.
  intros [H1 H2 H3 H4] Hv v' c.
  assert (0 <= (v' - step_min_vol st) / step_val st) by (apply Z.div_pos; lia).
  assert ((v' - step_min_vol st) / step_val st <= (step_max_vol st - step_min_vol st) / step_val st)
    by (apply Z.div_le_mono; lia).
  pose proof (Z.div_mod (v' - step_min_vol st) (step_val st)) as Hdm.
  pose proof (Z.mod_pos_bound (v' - step_min_vol st) (step_val st)) as Hmb.
  split; [|split].
  - apply lookup_step_vols. split; [done|]. unfold c. lia.
  - unfold c. rewrite Z2Nat.id by lia. lia.
  - intros c' q' [-> Hc']%lookup_step_vols Hle. unfold c.
    assert (Z.of_nat c' <= (v' - step_min_vol st) / step_val st); [|lia].
    apply Z.div_le_lower_bound; [lia|].
    assert (Z.of_nat c' <= (step_max_vol st - step_min_vol st) / step_val st) as Hc by lia.
    assert (step_val st * Z.of_nat c' <= step_max_vol st - step_min_vol st).
    { pose proof (Z.mul_div_le (step_max_vol st - step_min_vol st) (step_val st)). nia. }
    lia.
Qed.

Lemma wf_steps_cons neg st l :
  wf_steps neg (st :: l) = true →
  good_step st ∧ negb (regation st =? 0) = neg ∧ (l ≠ [] → step_max_vol st < first_min l) ∧
  wf_steps neg l = true.
Proof.
  cbn [wf_steps]. rewrite !andb_true_iff. intros [[[Hst Hneg] Hnx] Hl].
  split; [by apply wf_step_good|]. split; [by apply Bool.eqb_prop|]. split; [|done].
  destruct l; [done|]. intros _. unfold first_min. simpl. by apply Z.ltb_lt.
Qed.

Lemma vols_lower neg l v : wf_steps neg l = true → v < first_min l → Forall (λ q, v < q) (vols l).
Proof.
  revert v. induction l as [|st l IH]; intros v Hwf Hv; [constructor|].
  apply wf_steps_cons in Hwf as ([H1 H2 H3 H4] & _ & Hnx & Hl). unfold first_min in Hv. simpl in Hv.
  unfold vols. cbn [fmap list_fmap concat]. apply Forall_app. split.
  - apply Forall_lookup. intros k q [-> _]%lookup_step_vols. nia.
  - destruct l as [|nx l]; [constructor|]. specialize (Hnx ltac:(done)). apply IH; [done|lia].
Qed.

Lemma vols_cons st l : vols (st :: l) = step_vols st ++ vols l.
Proof. done. Qed.

(** The loop of [pmu_set_vol] stores the index of the rounded voltage. *)
Lemma step_loop_spec e neg l z base v reg_value :
  wf_steps neg l = true → l ≠ [] → first_min l <= v <= last_max l →
  0 <= base → base + Z.of_nat (length (vols l)) < 256 →
  ∃ c q st, step_loop e (l ++ z) base v reg_value =
      Some (program_code e st (base + Z.of_nat c) reg_value) ∧
    negb (regation st =? 0) = neg ∧ is_floor (vols l) v c q.
Proof.
  revert base. induction l as [|st l IH]; intros base Hwf Hne Hv Hb Hlen; [done|].
  apply wf_steps_cons in Hwf as (Hst & Hneg & Hnx & Hl).
  pose proof (step_count_good st Hst) as [Hcnt Hcp]. pose proof (step_floor st v Hst) as Hfl.
  destruct Hst as [H1 H2 H3 H4]. rewrite vols_cons, length_app in Hlen.
  destruct Hv as [Hv1 Hv2]. unfold first_min in Hv1. simpl in Hv1. specialize (Hfl Hv1). simpl in Hfl.
  cbn [step_loop app]. destruct (Z.eqb_spec (step_max_vol st) 0); [lia|].
  (* the voltage written when the loop stops at this step *)
  assert (∀ v', v' = Z.min v (step_max_vol st) → Forall (λ q, v < q) (vols l) →
    ∃ c q st', Some (program_code e st (base + (v' ⊟ step_min_vol st) / step_val st) reg_value) =
      Some (program_code e st' (base + Z.of_nat c) reg_value) ∧
      negb (regation st' =? 0) = neg ∧ is_floor (vols (st :: l)) v c q) as Hstop.
  { intros v' -> Hlater. do 2 eexists. exists st. split; [|split; [done|by apply is_floor_app_l]].
    rewrite u32_small by (unfold is_u32; lia). rewrite Z2Nat.id by (apply Z.div_pos; lia). done. }
  destruct (Z.ltb_spec (step_max_vol st) v) as [Hgt|Hle]; sbind.
  2:{ destruct (Z.leb_spec v (step_max_vol st)); [|lia]. apply Hstop; [lia|].
      destruct l as [|nx l]; [constructor|]. specialize (Hnx ltac:(done)).
      apply (vols_lower neg); [done|lia]. }
  destruct l as [|nx l]; [unfold last_max in Hv2; simpl in Hv2; lia|].
  specialize (Hnx ltac:(done)). cbn [head app]. sbind.
  destruct (Z.ltb_spec v (step_min_vol nx)) as [Hgap|Hge].
  - rewrite Z.leb_refl. apply Hstop; [lia|]. by apply (vols_lower neg).
  - destruct (Z.leb_spec v (step_max_vol st)); [lia|].
    rewrite u8_small by (unfold is_u8; lia).
    destruct (IH (base + step_count st)) as (c & q & st' & Hrun & Hn' & Hf); [done..|lia|lia|].
    exists (length (step_vols st) + c)%nat, q, st'. split; [|split; [done|by apply is_floor_app_r]].
    cbn [app] in Hrun. rewrite Hrun. do 2 f_equal. lia.
Qed.

(** The decoding loop returns the voltage at the stored index. *)
Lemma get_loop_spec e neg l z base c q stored :
  wf_steps neg l = true → vols l !! c = Some q → 0 <= base →
  base + Z.of_nat (length (vols l)) < 256 →
  (∀ st, negb (regation st =? 0) = neg →
     flip_field e st stored = base + Z.of_nat c ∧ flip_field e st (base + Z.of_nat c) = stored) →
  get_loop e (l ++ z) base base stored = Some q.
Proof.
  revert base c. induction l as [|st l IH]; intros base c Hwf Hc Hb Hlen Hflip; [done|].
  apply wf_steps_cons in Hwf as (Hst & Hneg & Hnx & Hl).
  pose proof (step_count_good st Hst) as [Hcnt Hcp].
  rewrite vols_cons, length_app in Hlen. rewrite vols_cons in Hc.
  cbn [get_loop app]. destruct (Hflip st Hneg) as [Hf1 Hf2]. rewrite Hf1.
  destruct Hst as [H1 H2 H3 H4].
  destruct (Z.eqb_spec (step_max_vol st) 0); [lia|].
  rewrite u8_small by (unfold is_u8; lia).
  destruct (Z.ltb_spec (base + Z.of_nat c) (base + step_count st)) as [Hlt|Hge].
  - rewrite lookup_app_l in Hc by lia. apply lookup_step_vols in Hc as [-> Hc].
    assert (Z.of_nat c * step_val st <= step_max_vol st - step_min_vol st).
    { pose proof (Z.mul_div_le (step_max_vol st - step_min_vol st) (step_val st)). nia. }
    rewrite s32_small by lia. f_equal. lia.
  - rewrite lookup_app_r in Hc by lia. rewrite Hf2.
    apply (IH _ (c - length (step_vols st))%nat); [done..|lia|lia|].
    replace (base + step_count st + Z.of_nat (c - length (step_vols st)))
      with (base + Z.of_nat c) by lia. done.
Qed.

(** *** The register field *)

Lemma testbit_u8 x n : 0 <= n → Z.testbit (u8 x) n = (n <? 8) && Z.testbit x n.
Proof.
  intros Hn. unfold u8. change 256 with (2 ^ 8). destruct (Z.ltb_spec n 8).
  - by rewrite Z.mod_pow2_bits_low by lia.
  - by rewrite Z.mod_pow2_bits_high by lia.
Qed.

Lemma testbit_mask w o n :
  0 <= w → 0 <= o → 0 <= n → Z.testbit (Z.shiftl (Z.ones w) o) n = (o <=? n) && (n <? o + w).
Proof.
  intros Hw Ho Hn. rewrite Z.shiftl_spec by done. destruct (Z.leb_spec o n).
  - destruct (Z.ltb_spec n (o + w)); [apply Z.ones_spec_low|apply Z.ones_spec_high]; lia.
  - apply Z.testbit_neg_r. lia.
Qed.

(** The shape of a well-formed entry's field. *)
Record good_field (e : axp_contrl_info) (w : Z) : Prop := {
  gf_ofs : 0 <= reg_addr_offest e;
  gf_w : 0 <= w;
  gf_fit : reg_addr_offest e + w <= 8;
  gf_mask : cfg_reg_mask e = Z.shiftl (Z.ones w) (reg_addr_offest e);
}.

Lemma good_field_shr e w : good_field e w → Z.shiftr (cfg_reg_mask e) (reg_addr_offest e) = Z.ones w.
Proof.
  intros [H1 H2 H3 ->]. rewrite Z.shiftr_shiftl_l, Z.sub_diag by done. apply Z.shiftl_0_r.
Qed.

Definition in_field (e : axp_contrl_info) (w n : Z) : bool :=
  (reg_addr_offest e <=? n) && (n <? reg_addr_offest e + w).

Lemma testbit_program e w st code r n :
  good_field e w → 0 <= code < 2 ^ w → 0 <= n →
  Z.testbit (program_code e st code (u8 (Z.land r (Z.lnot (cfg_reg_mask e))))) n =
    (n <? 8) && if in_field e w n then xorb (negb (regation st =? 0)) (Z.testbit code (n - reg_addr_offest e))
    else Z.testbit r n.
Proof.
  intros [H1 H2 H3 H4] Hc Hn. unfold program_code, in_field. rewrite H4.
  set (mask := Z.shiftl (Z.ones w) (reg_addr_offest e)).
  assert (n < reg_addr_offest e ∨ reg_addr_offest e + w <= n →
    Z.testbit code (n - reg_addr_offest e) = false) as Hout.
  { intros [?|?]; [apply Z.testbit_neg_r; lia|apply (testbit_above code w); lia]. }
  assert (Z.testbit (u8 (Z.lor (u8 (Z.land r (Z.lnot mask))) (Z.shiftl code (reg_addr_offest e)))) n =
    (n <? 8) && if in_field e w n then Z.testbit code (n - reg_addr_offest e) else Z.testbit r n) as Hpos.
  { rewrite testbit_u8, Z.lor_spec, testbit_u8, Z.land_spec, Z.lnot_spec, Z.shiftl_spec by done.
    unfold mask, in_field. rewrite testbit_mask by done. destruct (Z.ltb_spec n 8); [|done].
    destruct (Z.leb_spec (reg_addr_offest e) n), (Z.ltb_spec n (reg_addr_offest e + w)); cbn [andb negb];
      rewrite ?andb_true_r, ?andb_false_r; try done;
      rewrite Hout by lia; apply orb_false_r. }
  destruct (Z.eqb_spec (regation st) 0) as [Hr|Hr]; cbn [negb].
  - rewrite Hpos. unfold in_field. by repeat case_match.
  - rewrite testbit_u8, Z.lor_spec, (testbit_u8 (Z.land (Z.lnot _) mask)), !Z.land_spec, !Z.lnot_spec, Hpos by done.
    unfold mask, in_field. rewrite testbit_mask by done. destruct (Z.ltb_spec n 8); [|done].
    destruct (Z.leb_spec (reg_addr_offest e) n), (Z.ltb_spec n (reg_addr_offest e + w)); cbn [andb negb xorb];
      rewrite ?andb_true_r, ?andb_false_r, ?orb_false_r; done.
Qed.

Lemma testbit_field e w x n :
  good_field e w → 0 <= n →
  Z.testbit (field_of e x) n = Z.testbit x (n + reg_addr_offest e) && (n <? w).
Proof.
  intros [H1 H2 H3 H4] Hn. unfold field_of. rewrite Z.shiftr_spec, Z.land_spec, H4, testbit_mask by lia.
  f_equal. destruct (Z.leb_spec (reg_addr_offest e) (n + reg_addr_offest e)); [|lia].
  destruct (Z.ltb_spec (n + reg_addr_offest e) (reg_addr_offest e + w)), (Z.ltb_spec n w); done || lia.
Qed.

Lemma testbit_flip e w st x n :
  good_field e w → 0 <= x < 2 ^ w → 0 <= n →
  Z.testbit (flip_field e st x) n = (n <? w) && xorb (negb (regation st =? 0)) (Z.testbit x n).
Proof.
  intros Hg Hx Hn. unfold flip_field. rewrite (good_field_shr e w Hg). destruct Hg as [H1 H2 H3 H4].
  assert (w <= n → Z.testbit x n = false) as Hhi by (intros; apply (testbit_above x w); lia).
  destruct (Z.eqb_spec (regation st) 0); cbn [negb].
  - destruct (Z.ltb_spec n w); [|by rewrite Hhi]. by destruct (Z.testbit x n).
  - rewrite testbit_u8, Z.land_spec, Z.lnot_spec by lia. destruct (Z.ltb_spec n w).
    + rewrite Z.ones_spec_low by lia. destruct (Z.ltb_spec n 8); [|lia]. by destruct (Z.testbit x n).
    + rewrite Z.ones_spec_high by lia. rewrite andb_false_r. apply andb_false_r.
Qed.

Lemma flip_bound e w st x : good_field e w → 0 <= x < 2 ^ w → 0 <= flip_field e st x < 2 ^ w.
Proof.
  intros Hg Hx. assert (0 <= flip_field e st x) as H0.
  { unfold flip_field. case_match; [lia|]. apply u8_bound. }
  split; [done|]. apply testbit_bound; [apply Hg|done|]. intros n Hn. pose proof (gf_w e w Hg).
  rewrite (testbit_flip e w) by (done || lia). by destruct (Z.ltb_spec n w); [lia|].
Qed.

Lemma flip_flip e w st x :
  good_field e w → 0 <= x < 2 ^ w → flip_field e st (flip_field e st x) = x.
Proof.
  intros Hg Hx. bits_ext n Hn. pose proof (flip_bound e w st x Hg Hx).
  rewrite !(testbit_flip e w) by (done || lia). destruct (Z.ltb_spec n w); simpl.
  - by destruct (regation st =? 0), (Z.testbit x n).
  - symmetry. apply (testbit_above x w); lia || apply Hg.
Qed.

Lemma field_program e w st code r :
  good_field e w → 0 <= code < 2 ^ w →
  field_of e (program_code e st code (u8 (Z.land r (Z.lnot (cfg_reg_mask e))))) = flip_field e st code.
Proof.
  intros Hg Hc. bits_ext n Hn. pose proof (gf_ofs e w Hg). pose proof (gf_fit e w Hg).
  rewrite (testbit_field e w), (testbit_flip e w) by (done || lia).
  rewrite (testbit_program e w) by (done || lia). unfold in_field.
  replace (n + reg_addr_offest e - reg_addr_offest e) with n by lia.
  destruct (Z.ltb_spec n w); [|by rewrite andb_false_r].
  destruct (Z.ltb_spec (n + reg_addr_offest e) 8), (Z.leb_spec (reg_addr_offest e) (n + reg_addr_offest e)),
    (Z.ltb_spec (n + reg_addr_offest e) (reg_addr_offest e + w)); try lia. by rewrite andb_true_r.
Qed.

Record good_ctrl (e : axp_contrl_info) : Prop := {
  gc_steps : wf_steps (neg_of e) (active (axp_step_tbl e)) = true;
  gc_ne : active (axp_step_tbl e) ≠ [];
  gc_min : 0 < min_vol e;
  gc_lo : first_min (active (axp_step_tbl e)) <= min_vol e;
  gc_le : min_vol e <= max_vol e;
  gc_hi : max_vol e <= last_max (active (axp_step_tbl e));
  gc_field : good_field e (field_width e);
  gc_codes : Z.of_nat (length (supported e)) <= 2 ^ field_width e;
  gc_codes8 : Z.of_nat (length (supported e)) < 256;
  gc_bit : 0 <= ctrl_bit_ofs e < 8;
  gc_sep : cfg_reg_addr e ≠ ctrl_reg_addr e ∨ in_field e (field_width e) (ctrl_bit_ofs e) = false;
  gc_name : is_cstr (name e);
}.

Lemma wf_ctrl_good e : wf_ctrl e = true → good_ctrl e.
Proof.
  unfold wf_ctrl. rewrite !andb_true_iff. intros Hwf. destruct_and! Hwf. bool_to_prop.
  assert (active (axp_step_tbl e) ≠ []) as Hne.
  { intros Hnil. rewrite Hnil in *. done. }
  assert (0 < first_min (active (axp_step_tbl e))).
  { destruct (active (axp_step_tbl e)) as [|st l]; [done|].
    match goal with H : wf_steps _ _ = true |- _ => apply wf_steps_cons in H as ([? _ _ _] & _) end. done. }
  assert (good_field e (field_width e)) as Hf.
  { split; [done|apply Z.log2_nonneg|done|done]. }
  split; try done; try lia.
  - match goal with H : (_ || _) = true |- _ => apply orb_true_iff in H as [H|H]; bool_to_prop end;
      [by left|right]. destruct Hf as [? ? ? Hm]. rewrite Hm, testbit_mask in * by done. done.
  - match goal with H : forallb _ _ = true |- _ => rewrite forallb_forall in H; rename H into Hch end.
    apply Forall_forall. intros x Hx. apply list_elem_of_In in Hx. specialize (Hch x Hx).
    by apply bool_decide_eq_true in Hch.
Qed.

Lemma active_prefix tbl : ∃ z, tbl = active tbl ++ z.
Proof.
  induction tbl as [|st tbl [z Hz]]; [by exists []|]. simpl. case_match; [by exists (st :: tbl)|].
  exists z. simpl. by rewrite <- Hz.
Qed.

(** The polarity of the entry as a step. *)
Definition polarity (e : axp_contrl_info) : axp_step_info := Step 0 0 0 (Z.b2z (neg_of e)).

(** The index a register value holds: its field, or the field's complement for
    an entry of negative polarity. *)
Definition stored_index (e : axp_contrl_info) (x : Z) : Z :=
  let f := (x / 2 ^ reg_addr_offest e) mod 2 ^ field_width e in
  if neg_of e then 2 ^ field_width e - 1 - f else f.

(** The voltage a request stands for: the one closest to it between the
    limits of the entry. *)
Definition nearest (e : axp_contrl_info) (v t : Z) : Prop :=
  min_vol e <= t <= max_vol e ∧ ∀ u, min_vol e <= u <= max_vol e → Z.abs (v - t) <= Z.abs (v - u).

Lemma flip_polarity e st x :
  negb (regation st =? 0) = neg_of e → flip_field e st x = flip_field e (polarity e) x.
Proof.
  unfold flip_field, polarity. cbn [regation]. intros <-. by destruct (Z.eqb_spec (regation st) 0).
Qed.

Lemma clamp_nearest e v : good_ctrl e → nearest e v (clamp_vol e v).
Proof.
  intros [? ? ? ? Hle]. unfold clamp_vol, nearest. repeat case_match; bool_to_prop; split; [lia| |lia| |lia|]; intros u Hu; lia.
Qed.

Lemma stored_index_flip e x :
  good_field e (field_width e) → stored_index e x = flip_field e (polarity e) (field_of e x).
Proof.
  intros Hg. unfold stored_index. pose proof (gf_ofs e _ Hg). pose proof (gf_w e _ Hg). pose proof (gf_fit e _ Hg).
  assert ((x / 2 ^ reg_addr_offest e) mod 2 ^ field_width e = field_of e x) as ->.
  { bits_ext n Hn. rewrite (testbit_field e (field_width e)) by done. rewrite <- Z.shiftr_div_pow2 by done.
    destruct (Z.ltb_spec n (field_width e)).
    - rewrite Z.mod_pow2_bits_low, Z.shiftr_spec by lia. by rewrite andb_true_r.
    - rewrite Z.mod_pow2_bits_high by lia. by rewrite andb_false_r. }
  unfold flip_field, polarity. cbn [regation]. rewrite (good_field_shr e (field_width e) Hg).
  destruct (neg_of e); cbn [Z.b2z Z.eqb]; [|done].
  assert (∀ n, 0 <= n → field_width e <= n → Z.testbit (field_of e x) n = false) as Hhi.
  { intros n Hn Hw. rewrite (testbit_field e (field_width e)) by done. destruct (Z.ltb_spec n (field_width e)); [lia|]. apply andb_false_r. }
  replace (2 ^ field_width e - 1) with (Z.ones (field_width e)) by (rewrite Z.ones_equiv; lia).
  rewrite Z.sub_nocarry_ldiff.
  2:{ bits_ext n Hn. rewrite Z.ldiff_spec, Z.bits_0. destruct (decide (n < field_width e)).
      - rewrite Z.ones_spec_low by lia. by rewrite andb_false_r.
      - by rewrite Hhi by lia. }
  bits_ext n Hn. rewrite testbit_u8, Z.ldiff_spec, Z.land_spec, Z.lnot_spec by done.
  destruct (decide (n < field_width e)).
  - rewrite Z.ones_spec_low by lia. destruct (Z.ltb_spec n 8); [|lia]. by rewrite andb_true_r.
  - rewrite Z.ones_spec_high by lia. by rewrite !andb_false_r.
Qed.

(** The register value [pmu_set_vol] computes for a request. *)
Lemma set_value_spec e v x :
  good_ctrl e →
  ∃ c q y, step_loop e (axp_step_tbl e) 0 (clamp_vol e v) (u8 (Z.land x (Z.lnot (cfg_reg_mask e)))) = Some y ∧
    is_floor (supported e) (clamp_vol e v) c q ∧ is_u8 y ∧ stored_index e y = Z.of_nat c ∧
    ∀ n, 0 <= n < 8 → in_field e (field_width e) n = false → Z.testbit y n = Z.testbit x n.
Proof.
  intros Hg. destruct (clamp_nearest e v Hg) as [Hcl _]. destruct (active_prefix (axp_step_tbl e)) as [z Hz].
  destruct Hg as [Hs Hne Hm0 Hlo Hle Hhi Hf Hn Hn8 Hb Hsep _].
  rewrite Hz. destruct (step_loop_spec e (neg_of e) (active (axp_step_tbl e)) z 0 (clamp_vol e v)
    (u8 (Z.land x (Z.lnot (cfg_reg_mask e))))) as (c & q & st & Hrun & Hneg & Hfl);
    [done|done|lia|lia|exact Hn8|].
  assert (0 <= Z.of_nat c < 2 ^ field_width e) as Hc.
  { destruct Hfl as [Hlk _]. apply lookup_lt_Some in Hlk. unfold supported in Hn. lia. }
  exists c, q, (program_code e st (Z.of_nat c) (u8 (Z.land x (Z.lnot (cfg_reg_mask e))))).
  split; [exact Hrun|]. split; [exact Hfl|]. split; [|split].
  - unfold program_code. case_match; apply u8_bound.
  - rewrite stored_index_flip by done. rewrite (field_program e (field_width e)) by done.
    rewrite (flip_polarity e st) by done. by apply (flip_flip e (field_width e)).
  - intros n Hn' Hout. rewrite (testbit_program e (field_width e)) by (done || lia).
    rewrite Hout. by destruct (Z.ltb_spec n 8); [|lia].
Qed.

Lemma field_bound e w x : good_field e w → 0 <= x → 0 <= field_of e x < 2 ^ w.
Proof.
  intros Hf Hx. assert (0 <= field_of e x) as Hnn by (apply Z.shiftr_nonneg, Z.land_nonneg; by left).
  split; [done|]. apply testbit_bound; [apply Hf|done|]. intros n Hn. pose proof (gf_w e _ Hf).
  rewrite (testbit_field e w) by (done || lia).
  destruct (Z.ltb_spec n w); [lia|]. apply andb_false_r.
Qed.

(** The voltage [pmu_get_vol] computes from a register value. *)
Lemma get_value_spec e x c q :
  good_ctrl e → is_u8 x → stored_index e x = Z.of_nat c → supported e !! c = Some q →
  get_loop e (axp_step_tbl e) 0 0 (field_of e x) = Some q.
Proof.
  intros Hg Hx Hidx Hq. destruct (active_prefix (axp_step_tbl e)) as [z Hz]. pose proof (gc_field e Hg) as Hf.
  rewrite Hz. apply (get_loop_spec e (neg_of e) _ z 0 c q); [apply Hg|done|done|apply Hg|].
  intros st Hneg. rewrite Z.add_0_l, <- Hidx. rewrite stored_index_flip by done.
  rewrite !(flip_polarity e st) by done. split; [done|].
  apply (flip_flip e (field_width e)); [done|]. apply field_bound; [done|]. unfold is_u8 in Hx. lia.
Qed.

Lemma testbit_onoff e onoff x n :
  0 <= ctrl_bit_ofs e < 8 → 0 <= n → is_u8 x →
  Z.testbit (onoff_value e onoff x) n =
    if n =? ctrl_bit_ofs e then negb (onoff =? 0) else Z.testbit x n.
Proof.
  intros Hb Hn Hx.
  assert (8 <= n → Z.testbit x n = false) as Hhi by (apply (testbit_above x 8); [lia|done]).
  unfold onoff_value. rewrite Z.shiftl_1_l. destruct (onoff =? 0);
    rewrite testbit_u8, ?Z.land_spec, ?Z.lor_spec, ?Z.lnot_spec, Z.pow2_bits_eqb by lia;
    rewrite (Z.eqb_sym (ctrl_bit_ofs e)); destruct (Z.eqb_spec n (ctrl_bit_ofs e)) as [->|];
    destruct (Z.ltb_spec n 8) || destruct (Z.ltb_spec (ctrl_bit_ofs e) 8);
    rewrite ?Hhi by lia; rewrite ?andb_true_r, ?andb_false_r, ?orb_false_r, ?orb_true_r; try done; lia.
Qed.

(** *** Register effects of the routines *)

(** The table search returns the first entry whose name is a prefix of the
    argument. *)
Lemma get_ctrl_info_spec tbl nm :
  Forall (λ e, is_cstr (name e)) tbl → is_cstr nm →
  get_ctrl_info_from_tbl tbl nm = Some (head (filter (λ e, name e `prefix_of` nm) tbl)).
Proof.
  intros Ht Hnm. induction Ht as [|e tbl He Ht IH]; [done|]. cbn [get_ctrl_info_from_tbl].
  rewrite strlen_spec by done. sbind.
  destruct (strncmp_spec nm (name e) [] [] (length (name e)) Hnm He) as (r & -> & Hr). sbind.
  rewrite firstn_all, <- prefix_take_iff in Hr. rewrite filter_cons.
  destruct (Z.eqb_spec r 0) as [->|Hne].
  - by rewrite decide_True by (by apply Hr).
  - by rewrite decide_False by (by rewrite <- Hr).
Qed.

Section effects.
Context {S : Type} `{RegisterBus S plain} (rt : Z).

(** Registers outside [ex] keep their value; bits outside [ex] keep theirs. *)
Definition regs_kept (ex : Z → Z → Prop) (s s' : S) : Prop :=
  ∀ rt' r, ¬ ex rt' r → reg s' rt' r = reg s rt' r.

Definition bits_kept (ex : Z → Z → Z → Prop) (s s' : S) : Prop :=
  ∀ rt' r n, 0 <= n → ¬ ex rt' r n → Z.testbit (reg s' rt' r) n = Z.testbit (reg s rt' r) n.

Definition cfg_bits (e : axp_contrl_info) (rt' r n : Z) : Prop :=
  rt' = rt ∧ r = cfg_reg_addr e ∧ in_field e (field_width e) n = true.

Definition ctrl_bit (e : axp_contrl_info) (onoff rt' r n : Z) : Prop :=
  rt' = rt ∧ r = ctrl_reg_addr e ∧ n = ctrl_bit_ofs e ∧ 0 <= onoff.

Definition item_regs (e : axp_contrl_info) (rt' r : Z) : Prop :=
  rt' = rt ∧ (r = cfg_reg_addr e ∨ r = ctrl_reg_addr e).

(** The enable bit follows [onoff], and nothing else changed. *)
Definition onoff_set (e : axp_contrl_info) (onoff : Z) (s s' : S) : Prop :=
  (0 <= onoff → Z.testbit (reg s' rt (ctrl_reg_addr e)) (ctrl_bit_ofs e) = negb (onoff =? 0)) ∧
  bits_kept (ctrl_bit e onoff) s s'.

(** The field holds the index of the greatest supported voltage not above the
    voltage between the limits that is closest to the request, the enable bit follows [onoff], and no other bit of any
    register changed. *)
Definition vol_set (e : axp_contrl_info) (v onoff : Z) (s s' : S) : Prop :=
  (∃ t c q, nearest e v t ∧ is_floor (supported e) t c q ∧
          stored_index e (reg s' rt (cfg_reg_addr e)) = Z.of_nat c) ∧
  (0 <= onoff → Z.testbit (reg s' rt (ctrl_reg_addr e)) (ctrl_bit_ofs e) = negb (onoff =? 0)) ∧
  bits_kept (λ rt' r n, cfg_bits e rt' r n ∨ ctrl_bit e onoff rt' r n) s s'.

Lemma testbit_reg_high s rt' r n : 8 <= n → Z.testbit (reg s rt' r) n = false.
Proof. intros Hn. apply (testbit_above _ 8); [lia| |done]. apply reg_is_u8. Qed.

Lemma bits_kept_eq s s' : (∀ rt' r, reg s' rt' r = reg s rt' r) → ∀ ex, bits_kept ex s s'.
Proof. intros Heq ex rt' r n _ _. by rewrite Heq. Qed.

Lemma regs_kept_trans ex s1 s2 s3 : regs_kept ex s1 s2 → regs_kept ex s2 s3 → regs_kept ex s1 s3.
Proof. intros H1 H2 rt' r Hex. rewrite H2, H1; done. Qed.

Lemma bits_kept_trans ex s1 s2 s3 : bits_kept ex s1 s2 → bits_kept ex s2 s3 → bits_kept ex s1 s3.
Proof. intros H1 H2 rt' r n Hn Hex. rewrite H2, H1; done. Qed.

Lemma bits_kept_mono (ex ex' : Z → Z → Z → Prop) s s' :
  (∀ rt' r n, ex rt' r n → ex' rt' r n) → bits_kept ex s s' → bits_kept ex' s s'.
Proof. intros Hi H1 rt' r n Hn Hex. apply H1; [done|]. intros Hx. by apply Hex, Hi. Qed.

(** A checked read: either the register's value, or a return of -1. *)
Lemma check_read_spec r k s :
  plain rt r →
  ∃ s1, (∀ rt' r', reg s1 rt' r' = reg s rt' r') ∧
    (check_read rt r k s = Some (s1, -1) ∨ check_read rt r k s = k (reg s rt r) s1).
Proof.
  intros Hp. unfold check_read, pmic_bus_read. destruct (i2c_read rt r s) as [s1 [st v]] eqn:Hr.
  exists s1. pose proof (read_frame _ _ _ _ _ _ Hr Hp) as Hfr. split; [done|].
  destruct (Z.eqb_spec st 0) as [->|]; [|by left]. right.
  by rewrite (read_data _ _ _ _ _ Hr Hp).
Qed.

(** A checked write: the register holds [v] afterwards, or -1 is returned. *)
Lemma check_write_spec r v k s :
  plain rt r → is_u8 v →
  ∃ s1, (∀ rt' r', (rt', r') ≠ (rt, r) → reg s1 rt' r' = reg s rt' r') ∧
    (check_write rt r v k s = Some (s1, -1) ∨
     (check_write rt r v k s = k s1 ∧ reg s1 rt r = v)).
Proof.
  intros Hp Hv. unfold check_write, pmic_bus_write. destruct (i2c_write rt r v s) as [s1 st] eqn:Hw.
  exists s1. pose proof (write_frame _ _ _ _ _ _ Hw Hp) as Hfr. split; [done|].
  destruct (Z.eqb_spec st 0) as [->|]; [|by left]. right. split; [done|].
  by apply (write_data _ _ _ _ _ Hw).
Qed.

(** The enable half of [pmu_set_vol]. *)
Lemma set_onoff_spec e onoff s :
  good_ctrl e → plain rt (ctrl_reg_addr e) →
  ∃ s' r, set_onoff rt e onoff s = Some (s', r) ∧ (r = 0 ∨ r = -1) ∧
    regs_kept (item_regs e) s s' ∧ (r = 0 → onoff_set e onoff s s').
Proof.
  intros Hg Hp. pose proof (gc_bit e Hg) as Hb. unfold set_onoff. destruct (Z.ltb_spec onoff 0).
  { exists s, 0. split; [done|]. split; [by left|]. split; [done|]. intros _. split; [lia|done]. }
  pose proof (λ x n, testbit_onoff e onoff x n Hb) as Hval.
  set (k x := check_write rt (ctrl_reg_addr e) (onoff_value e onoff x) (ret 0)).
  destruct (check_read_spec (ctrl_reg_addr e) k s Hp) as (s1 & Hk1 & [Hrun|Hrun]); rewrite Hrun.
  { exists s1, (-1). split; [done|]. split; [by right|]. split; [intros ? ? _; auto|done]. }
  set (x := reg s rt (ctrl_reg_addr e)).
  assert (is_u8 (onoff_value e onoff x)) as Hu8 by (unfold onoff_value; case_match; apply u8_bound).
  destruct (check_write_spec (ctrl_reg_addr e) (onoff_value e onoff x) (ret 0) s1 Hp Hu8)
    as (s2 & Hk2 & [Hrun2|[Hrun2 Hv]]); unfold k; rewrite Hrun2;
    [exists s2, (-1)|exists s2, 0]; (split; [done|]); (split; [auto|]).
  all: split; [intros rt' r Hne; rewrite Hk2, Hk1; [done|]; intros [= -> ->]; apply Hne; split; auto|].
  { done. }
  intros _. split.
  - intros _. rewrite Hv, Hval, Z.eqb_refl by (lia || apply reg_is_u8). done.
  - intros rt' r n Hn Hne. destruct (decide ((rt', r) = (rt, ctrl_reg_addr e))) as [[= -> ->]|Hd].
    + rewrite Hv, Hval by (lia || apply reg_is_u8). destruct (Z.eqb_spec n (ctrl_bit_ofs e)); [|done].
      exfalso. apply Hne. split; auto.
    + by rewrite Hk2, Hk1.
Qed.

(** The whole of [pmu_set_vol] on a table entry. *)
Lemma set_item_vol_spec e v onoff s :
  good_ctrl e → plain rt (cfg_reg_addr e) → plain rt (ctrl_reg_addr e) → 0 < v →
  ∃ s' r, set_item_vol rt e v onoff s = Some (s', r) ∧ (r = 0 ∨ r = -1) ∧
    regs_kept (item_regs e) s s' ∧ (r = 0 → vol_set e v onoff s s').
Proof.
  intros Hg Hpc Hpo Hv. pose proof (gc_min e Hg) as Hmin. unfold set_item_vol.
  destruct (Z.ltb_spec 0 v); [|lia]. destruct (Z.eqb_spec (min_vol e) 0) as [?|_]; [lia|]. cbn [andb negb].
  match goal with |- context [check_read rt (cfg_reg_addr e) ?k s] => set (K := k) end.
  destruct (check_read_spec (cfg_reg_addr e) K s Hpc) as (s1 & Hk1 & [Hrun|Hrun]); rewrite Hrun; clear Hrun.
  { exists s1, (-1). split; [done|]. split; [by right|]. split; [intros ? ? _; auto|done]. }
  destruct (set_value_spec e v (reg s rt (cfg_reg_addr e)) Hg) as (c & q & y & Hy & Hfl & Hu8 & Hidx & Hout).
  unfold K. rewrite Hy. clear K Hy.
  destruct (check_write_spec (cfg_reg_addr e) y (set_onoff rt e onoff) s1 Hpc Hu8)
    as (s2 & Hk2 & [Hrun|[Hrun Hset]]); rewrite Hrun; clear Hrun.
  { exists s2, (-1). split; [done|]. split; [by right|]. split; [|done].
    intros rt' r Hne. rewrite Hk2, Hk1; [done|]. intros [= -> ->]. apply Hne. split; auto. }
  destruct (set_onoff_spec e onoff s2 Hg Hpo) as (s3 & r & Hrun & Hr & Hkept & Hon).
  exists s3, r. split; [done|]. split; [done|]. split.
  { eapply regs_kept_trans; [|exact Hkept]. intros rt' r' Hne. rewrite Hk2, Hk1; [done|].
    intros [= -> ->]. apply Hne. split; auto. }
  intros Hr0. destruct (Hon Hr0) as [Hen Hbits]. split; [|split; [done|]].
  - exists (clamp_vol e v), c, q. split; [by apply clamp_nearest|]. split; [done|].
    rewrite <- Hidx, <- Hset. rewrite !stored_index_flip by apply Hg. f_equal.
    destruct (gc_field e Hg) as [Ho Hw Hfit Hm]. bits_ext n Hn.
    rewrite !(testbit_field e (field_width e)) by (apply Hg || done).
    destruct (Z.ltb_spec n (field_width e)); [|by rewrite !andb_false_r]. f_equal. apply Hbits; [lia|].
    intros (_ & Hsame & Hbit & _). destruct (gc_sep e Hg) as [Hsep|Hsep]; [done|].
    rewrite <- Hbit in Hsep. unfold in_field in Hsep. apply andb_false_iff in Hsep as []; bool_to_prop; lia.
  - eapply bits_kept_trans; [|eapply bits_kept_mono; [|exact Hbits]; auto].
    intros rt' r' n Hn Hne. destruct (decide ((rt', r') = (rt, cfg_reg_addr e))) as [[= -> ->]|Hd].
    + rewrite Hset. destruct (decide (n < 8)) as [Hlt|Hge].
      * apply Hout; [lia|]. apply not_true_is_false. intros Hin. apply Hne. left. split; auto.
      * rewrite testbit_reg_high, (testbit_above y 8) by (done || lia). done.
    + by rewrite Hk2, Hk1.
Qed.

(** Reading back a regulator that is on and whose field holds index [c]. *)
Lemma get_item_vol_spec e s c q :
  good_ctrl e → plain rt (cfg_reg_addr e) → plain rt (ctrl_reg_addr e) →
  Z.testbit (reg s rt (ctrl_reg_addr e)) (ctrl_bit_ofs e) = true →
  stored_index e (reg s rt (cfg_reg_addr e)) = Z.of_nat c → supported e !! c = Some q →
  ∃ s' r, get_item_vol rt e s = Some (s', r) ∧ (r = q ∨ r = -1) ∧ regs_kept (λ _ _, False) s s'.
Proof.
  intros Hg Hpc Hpo Hon Hidx Hq. unfold get_item_vol.
  match goal with |- context [check_read rt (ctrl_reg_addr e) ?k s] => set (K := k) end.
  destruct (check_read_spec (ctrl_reg_addr e) K s Hpo) as (s1 & Hk1 & [Hrun|Hrun]); rewrite Hrun; clear Hrun.
  { exists s1, (-1). split; [done|]. split; [by right|]. intros ? ? _; auto. }
  unfold K. clear K. destruct (Z.eqb_spec (Z.land (reg s rt (ctrl_reg_addr e)) (Z.shiftl 1 (ctrl_bit_ofs e))) 0) as [Hz0|_].
  { exfalso. pose proof (gc_bit e Hg). apply (f_equal (λ z, Z.testbit z (ctrl_bit_ofs e))) in Hz0.
    rewrite Z.land_spec, Hon, Z.bits_0, Z.shiftl_1_l, Z.pow2_bits_true in Hz0 by lia. done. }
  match goal with |- context [check_read rt (cfg_reg_addr e) ?k s1] => set (K := k) end.
  destruct (check_read_spec (cfg_reg_addr e) K s1 Hpc) as (s2 & Hk2 & [Hrun|Hrun]); rewrite Hrun; clear Hrun.
  { exists s2, (-1). split; [done|]. split; [by right|]. intros ? ? _. by rewrite Hk2, Hk1. }
  unfold K. clear K. rewrite Hk1, (get_value_spec e _ c q) by (done || apply reg_is_u8).
  exists s2, q. split; [done|]. split; [by left|]. intros ? ? _. by rewrite Hk2, Hk1.
Qed.

(** A call of [pmu_set_vol] with any argument: a non-positive voltage only
    drives the enable bit. *)
Lemma set_item_any e v onoff s :
  good_ctrl e → plain rt (cfg_reg_addr e) → plain rt (ctrl_reg_addr e) →
  ∃ s' r, set_item_vol rt e v onoff s = Some (s', r) ∧ (r = 0 ∨ r = -1) ∧
    regs_kept (item_regs e) s s' ∧
    (r = 0 → bits_kept (λ rt' r' n, cfg_bits e rt' r' n ∨ ctrl_bit e onoff rt' r' n) s s' ∧
             (0 < v → vol_set e v onoff s s')).
Proof.
  intros Hg Hpc Hpo. destruct (decide (0 < v)) as [Hv|Hv].
  - destruct (set_item_vol_spec e v onoff s Hg Hpc Hpo Hv) as (s' & r & Hrun & Hr & Hk & Hset).
    exists s', r. split; [done|]. split; [done|]. split; [done|]. intros Hr0.
    specialize (Hset Hr0). split; [apply Hset|done].
  - unfold set_item_vol. destruct (Z.ltb_spec 0 v); [lia|]. cbn [andb].
    destruct (set_onoff_spec e onoff s Hg Hpo) as (s' & r & Hrun & Hr & Hk & Hon).
    exists s', r. split; [done|]. split; [done|]. split; [done|]. intros Hr0.
    split; [|lia]. eapply bits_kept_mono; [|apply (Hon Hr0)]. auto.
Qed.

(** The last call of a ramp decides the voltage. *)
Definition ramped (e : axp_contrl_info) (lo hi onoff : Z) (s s' : S) : Prop :=
  (∃ v t c q, lo <= v <= hi ∧ nearest e v t ∧ is_floor (supported e) t c q ∧
     stored_index e (reg s' rt (cfg_reg_addr e)) = Z.of_nat c) ∧
  (0 <= onoff → Z.testbit (reg s' rt (ctrl_reg_addr e)) (ctrl_bit_ofs e) = negb (onoff =? 0)) ∧
  bits_kept (λ rt' r n, cfg_bits e rt' r n ∨ ctrl_bit e onoff rt' r n) s s'.

Section ramp.
Context (e : axp_contrl_info) (onoff step v : Z).
Context (Hg : good_ctrl e) (Hpc : plain rt (cfg_reg_addr e)) (Hpo : plain rt (ctrl_reg_addr e)).
Context (Hstep : 0 < step <= v).

Let set (t : Z) : prog S := set_item_vol rt e t onoff.

Lemma ramp_up_spec fuel temp s :
  v - temp + 1 < Z.of_nat fuel → temp <= v →
  ∃ s' r, ramp_up fuel set temp v step s = Some (s', r) ∧ (r = 0 ∨ r = -1) ∧
    regs_kept (item_regs e) s s' ∧ (r = 0 → ramped e (v - step + 1) v onoff s s').
Proof.
  revert temp s. induction fuel as [|f IH]; intros temp s Hf Ht; [lia|].
  cbn [ramp_up]. destruct (Z.leb_spec temp v); [|lia]. unfold call.
  destruct (set_item_any e temp onoff s Hg Hpc Hpo) as (s1 & r & Hrun & Hr & Hk & Heff).
  unfold set at 1. rewrite Hrun. destruct Hr as [->| ->]; cbn [Z.eqb negb].
  2:{ exists s1, (-1). split; [done|]. split; [by right|]. split; [done|]. intros; lia. }
  specialize (Heff eq_refl) as [Hb Hset]. destruct (decide (temp + step <= v)) as [Hnext|Hlast].
  - destruct (IH (temp + step) s1) as (s' & r & Hrun' & Hr & Hk' & Hramp); [lia|done|].
    exists s', r. split; [done|]. split; [done|]. split; [by eapply regs_kept_trans|].
    intros Hr0. destruct (Hramp Hr0) as (Ht' & Hen & Hb'). split; [done|]. split; [done|].
    by eapply bits_kept_trans.
  - destruct f as [|f]; [lia|]. cbn [ramp_up]. destruct (Z.leb_spec (temp + step) v); [lia|].
    exists s1, 0. split; [done|]. split; [by left|]. split; [done|]. intros _.
    destruct (Hset ltac:(lia)) as ((t & c & q & Hfl & Hidx) & Hen & _).
    split; [|split; done]. exists temp, t, c, q. split; [lia|done].
Qed.

Lemma ramp_down_spec fuel temp s :
  temp - v + 1 < Z.of_nat fuel → v <= temp →
  ∃ s' r, ramp_down fuel set temp v step s = Some (s', r) ∧ (r = 0 ∨ r = -1) ∧
    regs_kept (item_regs e) s s' ∧ (r = 0 → ramped e v (v + step - 1) onoff s s').
Proof.
  revert temp s. induction fuel as [|f IH]; intros temp s Hf Ht; [lia|].
  cbn [ramp_down]. destruct (Z.leb_spec v temp); [|lia]. unfold call.
  destruct (set_item_any e temp onoff s Hg Hpc Hpo) as (s1 & r & Hrun & Hr & Hk & Heff).
  unfold set at 1. rewrite Hrun. destruct Hr as [->| ->]; cbn [Z.eqb negb].
  2:{ exists s1, (-1). split; [done|]. split; [by right|]. split; [done|]. intros; lia. }
  specialize (Heff eq_refl) as [Hb Hset]. destruct (decide (v <= temp - step)) as [Hnext|Hlast].
  - destruct (IH (temp - step) s1) as (s' & r & Hrun' & Hr & Hk' & Hramp); [lia|done|].
    exists s', r. split; [done|]. split; [done|]. split; [by eapply regs_kept_trans|].
    intros Hr0. destruct (Hramp Hr0) as (Ht' & Hen & Hb'). split; [done|]. split; [done|].
    by eapply bits_kept_trans.
  - destruct f as [|f]; [lia|]. cbn [ramp_down]. destruct (Z.leb_spec v (temp - step)); [lia|].
    exists s1, 0. split; [done|]. split; [by left|]. split; [done|]. intros _.
    destruct (Hset ltac:(lia)) as ((t & c & q & Hfl & Hidx) & Hen & _).
    split; [|split; done]. exists temp, t, c, q. split; [lia|done].
Qed.
End ramp.
End effects.

Lemma get_loop_total e tbl b1 b2 x :
  active tbl ≠ tbl → is_Some (get_loop e tbl b1 b2 x).
Proof.
  revert b1 b2 x. induction tbl as [|st tbl IH]; intros b1 b2 x Hne; [done|].
  cbn [get_loop]. simpl in Hne. case_match; [by eexists|]. case_match; [by eexists|].
  apply IH. congruence.
Qed.

Lemma get_item_any {S} `{RegisterBus S plain} rt e s :
  plain rt (cfg_reg_addr e) → plain rt (ctrl_reg_addr e) → active (axp_step_tbl e) ≠ axp_step_tbl e →
  ∃ s' r, get_item_vol rt e s = Some (s', r) ∧ ∀ rt' r', reg s' rt' r' = reg s rt' r'.
Proof.
  intros Hpc Hpo Hact. unfold get_item_vol.
  match goal with |- context [check_read rt (ctrl_reg_addr e) ?k s] => set (K := k) end.
  destruct (check_read_spec rt (ctrl_reg_addr e) K s Hpo) as (s1 & Hk1 & [Hrun|Hrun]); rewrite Hrun; clear Hrun;
    [by eauto|].
  unfold K. clear K. case_match; [by exists s1, 0|].
  match goal with |- context [check_read rt (cfg_reg_addr e) ?k s1] => set (K := k) end.
  destruct (check_read_spec rt (cfg_reg_addr e) K s1 Hpc) as (s2 & Hk2 & [Hrun|Hrun]); rewrite Hrun; clear Hrun;
    [exists s2, (-1); split; [done|]; intros; by rewrite Hk2, Hk1|].
  unfold K. destruct (get_loop_total e (axp_step_tbl e) 0 0 (field_of e (reg s1 rt (cfg_reg_addr e))) Hact) as [q ->].
  exists s2, q. split; [done|]. intros. by rewrite Hk2, Hk1.
Qed.

(** ** Theorems over the bus interface *)

Section theorems.
Context {S : Type} `{RegisterBus S plain} (rt : Z) (tbl : list axp_contrl_info) (nm : bytes).

(** C31: on any bus that keeps the register promises, programming a positive
    voltage on a well-formed regulator never reads outside the step table and
    returns 0 or -1.  On 0 the register field holds the index of the greatest
    supported voltage not above [t], where [t] is the voltage between the limits
    of the regulator that is closest to the request; the enable bit follows
    [onoff], and no other bit of any register has changed.  On -1 only the
    regulator's own two registers may differ. *)
Theorem set_vol_programs e v onoff s :
  get_ctrl_info_from_tbl tbl nm = Some (Some e) → wf_ctrl e = true →
  plain rt (cfg_reg_addr e) → plain rt (ctrl_reg_addr e) → 0 < v →
  ∃ s' r, set_vol_tbl rt tbl nm v onoff s = Some (s', r) ∧ (r = 0 ∨ r = -1) ∧
    regs_kept (item_regs rt e) s s' ∧ (r = 0 → vol_set rt e v onoff s s').
Proof.
  intros Hfind Hwf Hpc Hpo Hv. unfold set_vol_tbl. rewrite Hfind.
  apply set_item_vol_spec; auto using wf_ctrl_good.
Qed.

(** After a successful set with the regulator switched on, reading the
    regulator returns the supported voltage the request was rounded down to
    (or reports a bus error), and changes no register. *)
Theorem set_get_roundtrip e v s s' s'' r :
  get_ctrl_info_from_tbl tbl nm = Some (Some e) → wf_ctrl e = true →
  plain rt (cfg_reg_addr e) → plain rt (ctrl_reg_addr e) → 0 < v →
  set_vol_tbl rt tbl nm v 1 s = Some (s', 0) → get_vol_tbl rt tbl nm s' = Some (s'', r) →
  r = -1 ∨ ∃ t c, nearest e v t ∧ is_floor (supported e) t c r.
Proof.
  intros Hfind Hwf Hpc Hpo Hv Hset Hget. pose proof (wf_ctrl_good e Hwf) as Hg.
  unfold set_vol_tbl in Hset. unfold get_vol_tbl in Hget. rewrite Hfind in Hset, Hget.
  destruct (set_item_vol_spec rt e v 1 s Hg Hpc Hpo Hv) as (s1 & r1 & Hrun & _ & _ & Hprog).
  rewrite Hset in Hrun. injection Hrun as <- <-.
  destruct (Hprog eq_refl) as ((t & c & q & Hn & Hfl & Hidx) & Hen & _).
  destruct (get_item_vol_spec rt e s' c q Hg Hpc Hpo) as (s2 & r2 & Hrun & Hr & _);
    [by apply Hen|done|apply Hfl|].
  rewrite Hget in Hrun. injection Hrun as <- <-. destruct Hr as [->| ->]; [right; by exists t, c|by left].
Qed.

(** The ramp terminates and returns 0 or -1; unless the regulator already
    reports the requested voltage, on 0 its field holds the index of a
    supported voltage obtained by rounding a value less than one step away
    from the request, and only the field and the enable bit have changed. *)
Theorem ramp_reaches e v onoff step s :
  get_ctrl_info_from_tbl tbl nm = Some (Some e) → wf_ctrl e = true →
  plain rt (cfg_reg_addr e) → plain rt (ctrl_reg_addr e) →
  active (axp_step_tbl e) ≠ axp_step_tbl e → min_step (axp_step_tbl e) 0xffff = Some step →
  step < 0xffff → 0 < step <= v →
  ∃ s1 src s' r, get_vol_tbl rt tbl nm s = Some (s1, src) ∧
    ramp_vol_tbl rt tbl nm v onoff s = Some (s', r) ∧ (r = 0 ∨ r = -1) ∧
    regs_kept (item_regs rt e) s s' ∧
    (r = 0 → src ≠ v → ramped rt e (v - step + 1) (v + step - 1) onoff s s').
Proof.
  intros Hfind Hwf Hpc Hpo Hact Hmin Hlt Hstep. pose proof (wf_ctrl_good e Hwf) as Hg.
  destruct (get_item_any rt e s Hpc Hpo Hact) as (s1 & src & Hget & Hk1).
  exists s1, src. unfold ramp_vol_tbl, call, set_vol_tbl, get_vol_tbl. rewrite Hfind, Hget, Hmin.
  destruct (Z.eqb_spec step 0xffff) as [?|_]; [lia|].
  assert (regs_kept (item_regs rt e) s s1) as Hk0 by (intros ? ? _; auto).
  assert (∀ lo hi s', v - step + 1 <= lo → hi <= v + step - 1 → ramped rt e lo hi onoff s1 s' →
    ramped rt e (v - step + 1) (v + step - 1) onoff s s') as Hwiden.
  { intros lo hi s' Hlo Hhi ((w & t & c & q & Ht & Hfl) & Hen & Hb). split; [|split; [done|]].
    - exists w, t, c, q. split; [lia|done].
    - eapply bits_kept_trans; [|exact Hb]. by apply bits_kept_eq. }
  destruct (Z.ltb_spec v src) as [Hgt|Hle]; [|destruct (Z.ltb_spec src v) as [Hlt'|Hge]].
  - destruct (ramp_down_spec rt e onoff step v Hg Hpc Hpo Hstep (ramp_fuel src v) src s1)
      as (s' & r & Hrun & Hr & Hk & Hramp); [unfold ramp_fuel; lia|lia|].
    exists s', r. do 3 (split; [done|]). split; [by eapply regs_kept_trans|].
    intros Hr0 _. eapply Hwiden; [| |by apply Hramp]; lia.
  - destruct (ramp_up_spec rt e onoff step v Hg Hpc Hpo Hstep (ramp_fuel src v) src s1)
      as (s' & r & Hrun & Hr & Hk & Hramp); [unfold ramp_fuel; lia|lia|].
    exists s', r. do 3 (split; [done|]). split; [by eapply regs_kept_trans|].
    intros Hr0 _. eapply Hwiden; [| |by apply Hramp]; lia.
  - exists s1, 0. split; [done|]. split; [done|]. split; [by left|]. split; [done|]. intros _ Hne. lia.
Qed.
End theorems.

(** *** A regulator for the witnesses *)

Definition ex_ctrl : axp_contrl_info :=
  Ctrl (lit "dcdc1") 500 3400 0x13 0x7f 0x10 0 0
    (steps [Step 500 1200 10 0; Step 1220 1540 20 0; Step 1600 3400 100 0]).

Lemma set_vol_programs_witness :
  ∃ s' r, set_vol_tbl 0x36 [ex_ctrl] (lit "dcdc1") 1575 1 (Sim ∅ []) = Some (s', r) ∧
    (r = 0 → vol_set 0x36 ex_ctrl 1575 1 (Sim ∅ []) s').
Proof.
  destruct (set_vol_programs (S := sim) 0x36 [ex_ctrl] (lit "dcdc1") ex_ctrl 1575 1 (Sim ∅ []))
    as (s' & r & Hrun & _ & _ & Hv); [vm_compute; reflexivity|vm_compute; reflexivity|exact I|exact I|lia|].
  exists s', r. split; [exact Hrun|exact Hv].
Defined.

Lemma set_get_roundtrip_witness :
  ∃ s' s'', set_vol_tbl 0x36 [ex_ctrl] (lit "dcdc1") 1575 1 (Sim ∅ []) = Some (s', 0) ∧
    get_vol_tbl 0x36 [ex_ctrl] (lit "dcdc1") s' = Some (s'', 1540) ∧
    (1540 = -1 ∨ ∃ t c, nearest ex_ctrl 1575 t ∧ is_floor (supported ex_ctrl) t c 1540).
Proof.
  do 2 eexists. split; [vm_compute; reflexivity|]. split; [vm_compute; reflexivity|].
  eapply (set_get_roundtrip (S := sim) 0x36 [ex_ctrl] (lit "dcdc1") ex_ctrl 1575 (Sim ∅ []));
    [vm_compute; reflexivity|vm_compute; reflexivity|exact I|exact I|lia|vm_compute; reflexivity|vm_compute; reflexivity].
Defined.

Lemma ramp_reaches_witness :
  ∃ s' r, ramp_vol_tbl 0x36 [ex_ctrl] (lit "dcdc1") 900 1 (Sim {[(0x36, 0x10) := 1]} []) = Some (s', r).
Proof.
  destruct (ramp_reaches (S := sim) 0x36 [ex_ctrl] (lit "dcdc1") ex_ctrl 900 1 10 (Sim {[(0x36, 0x10) := 1]} []))
    as (s1 & src & s' & r & _ & Hrun & _);
    [vm_compute; reflexivity|vm_compute; reflexivity|exact I|exact I|vm_compute; discriminate
    |vm_compute; reflexivity|lia|lia|].
  exists s', r. exact Hrun.
Defined.
