(* ===== verification/Axp152.v ===== *)
(** * AXP152 (spl/drivers/power/axp152.c)

    The regulator table and the operations of the AXP152 driver, with the
    addresses of the TWI configuration.  Its [pmu_set_vol] is the ramp of
    [PmicCore]. *)

From S2P Require Import Prelude CString PmicBus PmicCore.

Local Open Scope Z_scope.
Local Open Scope pmic_scope.

(** ** Registers *)

Definition AXP152_DC1OUT_VOL : Z := 0x26.
Definition AXP152_OUTPUT_CTL : Z := 0x12.
Definition AXP152_DC2OUT_VOL : Z := 0x23.
Definition AXP152_DC3OUT_VOL : Z := 0x27.
Definition AXP152_DC4OUT_VOL : Z := 0x2B.
Definition AXP152_ALDO12OUT_VOL : Z := 0x28.
Definition AXP152_DLDO1OUT_VOL : Z := 0x29.
Definition AXP152_DLDO2OUT_VOL : Z := 0x2A.
Definition AXP152_LDO0_VOL : Z := 0x15.
Definition AXP152_GPIO2_LDO_MOD : Z := 0x96.
Definition AXP152_GPIO2_CTL : Z := 0x92.
Definition AXP152_RUNTIME_ADDR : Z := 0x30.
Definition AXP152_DEVICE_ADDR : Z := 400000.
Definition AXP152_CHIP_ID : Z := 0x05.
Definition AXP152_VERSION : Z := 0x03.
Definition AXP152_INTSTS2 : Z := 0x49.
Definition AXP152_VOFF_SET : Z := 0x31.
Definition AXP152_POK_SET : Z := 0x36.
Definition AXP152_DCDC_MODESET : Z := 0x80.
Definition AXP152_VOUT_MONITOR : Z := 0x81.
Definition AXP152_HOTOVER_CTL : Z := 0x8F.
Definition AXP152_GPIO1_CTL : Z := 0x91.
Definition AXP152_DC2OUT_DVM : Z := 0x25.

(** ** The regulator table *)

Definition axp_ctrl_tbl : list axp_contrl_info := [
    Ctrl (lit "dcdc1") 1700 3500 AXP152_DC1OUT_VOL 0x0f AXP152_OUTPUT_CTL 7 0
      (steps [Step 1700 2100 100 0; Step 2400 2800 100 0; Step 3000 3500 100 0]);
    Ctrl (lit "dcdc2") 700 2275 AXP152_DC2OUT_VOL 0x3f AXP152_OUTPUT_CTL 6 0
      (steps [Step 700 2275 25 0]);
    Ctrl (lit "dcdc3") 700 3500 AXP152_DC3OUT_VOL 0x3f AXP152_OUTPUT_CTL 5 0
      (steps [Step 700 3500 50 0]);
    Ctrl (lit "dcdc4") 700 3500 AXP152_DC4OUT_VOL 0x7f AXP152_OUTPUT_CTL 4 0
      (steps [Step 700 3500 25 0]);
    Ctrl (lit "aldo1") 1200 3300 AXP152_ALDO12OUT_VOL 0xf0 AXP152_OUTPUT_CTL 3 4
      (steps [Step 1200 2000 100 0; Step 2500 2700 200 0; Step 2800 3000 200 0; Step 3100 3300 100 0]);
    Ctrl (lit "aldo2") 1200 3300 AXP152_ALDO12OUT_VOL 0x0f AXP152_OUTPUT_CTL 2 0
      (steps [Step 1200 2000 100 0; Step 2500 2700 200 0; Step 2800 3000 200 0; Step 3100 3300 100 0]);
    Ctrl (lit "dldo1") 700 3500 AXP152_DLDO1OUT_VOL 0x1f AXP152_OUTPUT_CTL 1 0
      (steps [Step 700 3500 100 0]);
    Ctrl (lit "dldo2") 700 3500 AXP152_DLDO2OUT_VOL 0x1f AXP152_OUTPUT_CTL 0 0
      (steps [Step 700 3500 100 0]);
    Ctrl (lit "ldo0") 2500 5000 AXP152_LDO0_VOL 0x30 AXP152_LDO0_VOL 7 4
      (steps [Step 2500 2800 300 1; Step 3300 5000 1700 1]);
    Ctrl (lit "gpio2ldo") 1800 3300 AXP152_GPIO2_LDO_MOD 0x0f AXP152_GPIO2_CTL 7 0
      (steps [Step 1800 3300 100 0]) ].

(** ** Operations *)

Section driver.
Context {S : Type} `{I2cBus S}.

Definition axp152_probe_power_key : prog S :=
  reg_value <-! rd AXP152_RUNTIME_ADDR AXP152_INTSTS2 ;;
  let reg_value := Z.land reg_value 0x03 in
  if negb (reg_value =? 0) then
    wr! AXP152_RUNTIME_ADDR AXP152_INTSTS2 (Z.lor reg_value (Z.shiftl 0x01 1)) ;; ret (Z.land reg_value 3)
  else ret (Z.land reg_value 3).

Definition find_ctrl_info : bytes → option (option axp_contrl_info) := get_ctrl_info_from_tbl axp_ctrl_tbl.

(** Textually the shared routine of [PmicCore], with this chip's address. *)
Definition pmu_axp152_set_vol : bytes → Z → Z → prog S := set_vol_tbl AXP152_RUNTIME_ADDR axp_ctrl_tbl.

Definition pmu_get_vol : bytes → prog S := get_vol_tbl AXP152_RUNTIME_ADDR axp_ctrl_tbl.

Definition pmu_set_vol : bytes → Z → Z → prog S := ramp_vol_tbl AXP152_RUNTIME_ADDR axp_ctrl_tbl.

Definition axp152_set_ddr_voltage (set_vol : Z) : prog S := pmu_set_vol (lit "dcdc3") set_vol 1.

Definition axp152_set_efuse_voltage (set_vol : Z) : prog S := pmu_set_vol (lit "aldo1") set_vol 1.

Definition axp152_set_pll_voltage (set_vol : Z) : prog S := pmu_set_vol (lit "dcdc2") set_vol 1.

Definition axp152_set_sys_voltage (set_vol onoff : Z) : prog S := pmu_set_vol (lit "dcdc1") set_vol onoff.

Definition axp152_necessary_reg_enable : prog S :=
  wr! AXP152_RUNTIME_ADDR AXP152_VOFF_SET 0 ;;
  wr! AXP152_RUNTIME_ADDR AXP152_POK_SET 0xd ;;
  wr! AXP152_RUNTIME_ADDR AXP152_DCDC_MODESET 0xf ;;
  wr! AXP152_RUNTIME_ADDR AXP152_VOUT_MONITOR 0xdd ;;
  wr! AXP152_RUNTIME_ADDR AXP152_HOTOVER_CTL 0x85 ;;
  wr! AXP152_RUNTIME_ADDR AXP152_GPIO1_CTL 0x03 ;;
  reg_value <-! rd AXP152_RUNTIME_ADDR AXP152_HOTOVER_CTL ;;
  wr! AXP152_RUNTIME_ADDR AXP152_HOTOVER_CTL (Z.lor (Z.land reg_value (Z.lnot 0x3)) 0x2) ;;
  reg_value <-! rd AXP152_RUNTIME_ADDR AXP152_DC2OUT_DVM ;;
  wr! AXP152_RUNTIME_ADDR AXP152_DC2OUT_DVM (Z.lor reg_value 0x5) ;;
  ret 0.

Definition axp152_reg_read (addr : Z) : S → S * (Z * Z) := pmic_bus_read AXP152_RUNTIME_ADDR addr.

Definition axp152_reg_write (addr val : Z) : S → S * Z := pmic_bus_write AXP152_RUNTIME_ADDR addr val.

Definition axp152_axp_init (power_mode : Z) : prog S :=
  r <- call (pmic_bus_init AXP152_DEVICE_ADDR AXP152_RUNTIME_ADDR) ;;
  if negb (r =? 0) then ret (-1)
  else
    pmu_type <-! rd AXP152_RUNTIME_ADDR AXP152_VERSION ;;
    if Z.land pmu_type 0x0F =? AXP152_CHIP_ID then
      _r <- call axp152_necessary_reg_enable ;;
      if power_mode =? 3 then
        _r <- call (pmu_set_vol (lit "ldo0") 3300 1) ;;
        _r <- call (pmu_set_vol (lit "dldo1") 3300 0) ;;
        ret AXP152_CHIP_ID
      else ret AXP152_CHIP_ID
    else ret (-1).
End driver.
