(* ===== verification/Axp1530.v ===== *)
(** * AXP1530 (spl/drivers/power/axp1530.c)

    The regulator table and the operations of the AXP1530 driver, with the
    addresses of the TWI configuration and without the optional
    [CFG_AXP1530A_NECESSARY_REG_ENABLE] block.  Its [pmu_get_vol] ignores the
    [regation] mark, which no entry of its table carries. *)

From S2P Require Import Prelude CString PmicBus PmicCore.

Local Open Scope Z_scope.
Local Open Scope pmic_scope.

(** ** Registers *)

Definition AXP1530_DC1OUT_VOL : Z := 0x13.
Definition AXP1530_OUTPUT_POWER_ON_OFF_CTL : Z := 0x10.
Definition AXP1530_DC2OUT_VOL : Z := 0x14.
Definition AXP1530_DC3OUT_VOL : Z := 0x15.
Definition AXP1530_ALDO1OUT_VOL : Z := 0x16.
Definition AXP1530_DLDO1OUT_VOL : Z := 0x17.
Definition AXP1530_RUNTIME_ADDR : Z := 0x36.
Definition AXP1530_DEVICE_ADDR : Z := 400000.
Definition AXP1530_CHIP_ID : Z := 0x48.
Definition AXP313A_CHIP_ID : Z := 0x4B.
Definition AXP313B_CHIP_ID : Z := 0x4C.
Definition AXP323_CHIP_ID : Z := 0x49.
Definition AXP1530_VERSION : Z := 0x03.
Definition AXP1530_IRQ_STATUS : Z := 0x21.
Definition AXP1530_POWER_DOMN_SEQUENCE : Z := 0x1A.

(** ** The regulator table *)

Definition axp_ctrl_tbl : list axp_contrl_info := [
    Ctrl (lit "dcdc1") 500 3400 AXP1530_DC1OUT_VOL 0x7f AXP1530_OUTPUT_POWER_ON_OFF_CTL 0 0
      (steps [Step 500 1200 10 0; Step 1220 1540 20 0; Step 1600 3400 100 0]);
    Ctrl (lit "dcdc2") 500 1540 AXP1530_DC2OUT_VOL 0x7f AXP1530_OUTPUT_POWER_ON_OFF_CTL 1 0
      (steps [Step 500 1200 10 0; Step 1220 1540 20 0]);
    Ctrl (lit "dcdc3") 500 1840 AXP1530_DC3OUT_VOL 0x7f AXP1530_OUTPUT_POWER_ON_OFF_CTL 2 0
      (steps [Step 500 1200 10 0; Step 1220 1840 20 0]);
    Ctrl (lit "aldo1") 500 3500 AXP1530_ALDO1OUT_VOL 0x1f AXP1530_OUTPUT_POWER_ON_OFF_CTL 3 0
      (steps [Step 500 3500 100 0]);
    Ctrl (lit "dldo1") 500 3500 AXP1530_DLDO1OUT_VOL 0x1f AXP1530_OUTPUT_POWER_ON_OFF_CTL 4 0
      (steps [Step 500 3500 100 0]) ].

(** ** Operations *)

Section driver.
Context {S : Type} `{I2cBus S}.

Definition axp1530_probe_power_key : prog S :=
  reg_value <-! rd AXP1530_RUNTIME_ADDR AXP1530_IRQ_STATUS ;;
  let reg_value := Z.land reg_value (Z.shiftl 0x03 4) in
  if negb (reg_value =? 0) then
    wr! AXP1530_RUNTIME_ADDR AXP1530_IRQ_STATUS reg_value ;; ret (Z.land (Z.shiftr reg_value 4) 3)
  else ret (Z.land (Z.shiftr reg_value 4) 3).

Definition find_ctrl_info : bytes → option (option axp_contrl_info) := get_ctrl_info_from_tbl axp_ctrl_tbl.

(** Textually the shared routine of [PmicCore], with this chip's address. *)
Definition pmu_set_vol : bytes → Z → Z → prog S := set_vol_tbl AXP1530_RUNTIME_ADDR axp_ctrl_tbl.

(** The decoding loop without the inversion of [regation] steps. *)
Fixpoint get_loop_plain (tbl : list axp_step_info) (base_step1 base_step2 reg_value : Z) : option Z :=
  match tbl with
  | [] => None
  | st :: tbl' =>
      if step_max_vol st =? 0 then Some (-1)
      else
        let base_step1 := u8 (base_step1 + step_count st) in
        if reg_value <? base_step1 then
          Some (s32 ((reg_value - base_step2) * step_val st + step_min_vol st))
        else get_loop_plain tbl' base_step1 (u8 (base_step2 + step_count st)) reg_value
  end.

Definition pmu_get_vol (nm : bytes) : prog S :=
  match get_ctrl_info_from_tbl axp_ctrl_tbl nm with
  | None => undefined
  | Some None => ret (-1)
  | Some (Some e) =>
      reg_value <-! rd AXP1530_RUNTIME_ADDR (ctrl_reg_addr e) ;;
      if Z.land reg_value (Z.shiftl 0x01 (ctrl_bit_ofs e)) =? 0 then ret 0
      else
        reg_value <-! rd AXP1530_RUNTIME_ADDR (cfg_reg_addr e) ;;
        match get_loop_plain (axp_step_tbl e) 0 0 (field_of e reg_value) with
        | None => undefined
        | Some vol => ret vol
        end
  end.

(** The loops of [axp1530_set_ddr_voltage]: 50 mV steps, results ignored. *)
Fixpoint ddr_down (fuel : nat) (temp_vol set_vol : Z) : prog S :=
  match fuel with
  | O => undefined
  | Datatypes.S f =>
      if set_vol <=? temp_vol then
        _r <- call (pmu_set_vol (lit "dcdc3") temp_vol 1) ;; ddr_down f (temp_vol - 50) set_vol
      else ret 0
  end.

Fixpoint ddr_up (fuel : nat) (temp_vol set_vol : Z) : prog S :=
  match fuel with
  | O => undefined
  | Datatypes.S f =>
      if temp_vol <=? set_vol then
        _r <- call (pmu_set_vol (lit "dcdc3") temp_vol 1) ;; ddr_up f (temp_vol + 50) set_vol
      else ret 0
  end.

Definition axp1530_set_ddr_voltage (set_vol : Z) : prog S :=
  src_vol <- call (pmu_get_vol (lit "dcdc3")) ;;
  if set_vol <? src_vol then ddr_down (ramp_fuel src_vol set_vol) src_vol set_vol
  else if src_vol <? set_vol then ddr_up (ramp_fuel src_vol set_vol) src_vol set_vol
  else ret 0.

Definition axp1530_set_efuse_voltage (set_vol : Z) : prog S := pmu_set_vol (lit "aldo1") set_vol 1.

Definition axp1530_set_pll_voltage (set_vol : Z) : prog S := pmu_set_vol (lit "dcdc2") set_vol 1.

Definition axp1530_set_sys_voltage (set_vol onoff : Z) : prog S := pmu_set_vol (lit "dcdc1") set_vol onoff.

(** Every transfer status is ignored; the result is [ret1 && ret2]. *)
Definition axp1530_set_cpu_voltage_ext (set_vol : Z) : prog S :=
  val <- rd AXP1530_RUNTIME_ADDR 0x13 ;;
  wr AXP1530_RUNTIME_ADDR 0x14 (Z.lor val 0x80) ;;
  wr AXP1530_RUNTIME_ADDR 0x1D 0x1E ;;
  wr AXP1530_RUNTIME_ADDR 0x22 0x00 ;;
  ret2 <- call (pmu_set_vol (lit "dcdc2") set_vol 1) ;;
  ret1 <- call (pmu_set_vol (lit "dcdc1") set_vol 1) ;;
  wr AXP1530_RUNTIME_ADDR 0x22 0x02 ;;
  ret (if negb (ret1 =? 0) && negb (ret2 =? 0) then 1 else 0).

Definition axp1530_necessary_reg_enable : prog S :=
  reg_value <-! rd AXP1530_RUNTIME_ADDR AXP1530_DC2OUT_VOL ;;
  wr! AXP1530_RUNTIME_ADDR AXP1530_DC2OUT_VOL (Z.lor reg_value (Z.shiftl 0x1 7)) ;;
  reg_value <-! rd AXP1530_RUNTIME_ADDR AXP1530_POWER_DOMN_SEQUENCE ;;
  wr! AXP1530_RUNTIME_ADDR AXP1530_POWER_DOMN_SEQUENCE (Z.lor reg_value (Z.shiftl 0x1 1)) ;;
  ret 0.

Definition axp1530_reg_read (addr : Z) : S → S * (Z * Z) := pmic_bus_read AXP1530_RUNTIME_ADDR addr.

Definition axp1530_reg_write (addr val : Z) : S → S * Z := pmic_bus_write AXP1530_RUNTIME_ADDR addr val.

Definition axp1530_axp_init (power_mode : Z) : prog S :=
  r <- call (pmic_bus_init AXP1530_DEVICE_ADDR AXP1530_RUNTIME_ADDR) ;;
  if negb (r =? 0) then ret (-1)
  else
    pmu_type <-! rd AXP1530_RUNTIME_ADDR AXP1530_VERSION ;;
    let pmu_type := Z.land pmu_type 0xCF in
    if (pmu_type =? AXP1530_CHIP_ID) || (pmu_type =? AXP313A_CHIP_ID) ||
       (pmu_type =? AXP313B_CHIP_ID) || (pmu_type =? AXP323_CHIP_ID) then
      _r <- call axp1530_necessary_reg_enable ;; ret AXP1530_CHIP_ID
    else ret (-1).
End driver.
