(* ===== verification/Axp2101.v ===== *)
(** * AXP2101 (spl/drivers/power/axp2101.c)

    The regulator table and the operations of the AXP2101 driver, with the
    addresses of the TWI configuration. *)

From S2P Require Import Prelude CString PmicBus PmicCore.

Local Open Scope Z_scope.
Local Open Scope pmic_scope.

(** ** Registers *)

Definition AXP2101_DC2OUT_VOL : Z := 0x83.
Definition AXP2101_OUTPUT_CTL0 : Z := 0x80.
Definition AXP2101_DC3OUT_VOL : Z := 0x84.
Definition AXP2101_DC4OUT_VOL : Z := 0x85.
Definition AXP2101_ALDO1OUT_VOL : Z := 0x92.
Definition AXP2101_OUTPUT_CTL2 : Z := 0x90.
Definition AXP2101_BLDO1OUT_VOL : Z := 0x96.
Definition AXP2101_BLDO2OUT_VOL : Z := 0x97.
Definition AXP2101_RUNTIME_ADDR : Z := 0x34.
Definition AXP2101_DEVICE_ADDR : Z := 400000.
Definition AXP2101_CHIP_ID : Z := 0x47.
Definition AXP2101_CHIP_ID_B : Z := 0x4a.
Definition AXP2101_VERSION : Z := 0x03.
Definition AXP2101_CHARGE1 : Z := 0x62.
Definition AXP2101_VBUS_CUR_SET : Z := 0x16.
Definition AXP2101_BAT_AVERVOL_H6 : Z := 0x34.
Definition AXP2101_OUTPUT_CTL1 : Z := 0x81.
Definition AXP2101_TWI_ADDR_EXT : Z := 0xFF.
Definition AXP2101_EFUS_OP_CFG : Z := 0xF0.
Definition AXP2101_EFREQ_CTRL : Z := 0xF1.
Definition AXP2101_SELLP_CFG : Z := 0x26.
Definition AXP2101_VSYS_MIN : Z := 0x14.
Definition AXP2101_VBUS_VOL_SET : Z := 0x15.
Definition AXP2101_OFF_CTL : Z := 0x10.
Definition AXP2101_PWEON_PWEOFF_EN : Z := 0x22.
Definition AXP2101_DCDC_PWEOFF_EN : Z := 0x23.
Definition AXP2101_INTSTS1 : Z := 0x49.
Definition PMU_POWER_KEY_STATUS : Z := AXP2101_INTSTS1.
Definition PMU_POWER_KEY_OFFSET : Z := 0x2.
Definition CONFIG_DDR_VOL_NAME_EXT : bytes := lit "dcdc4".

(** ** The regulator table *)

Definition axp_ctrl_tbl : list axp_contrl_info := [
    Ctrl (lit "dcdc2") 500 1540 AXP2101_DC2OUT_VOL 0x7f AXP2101_OUTPUT_CTL0 1 0
      (steps [Step 500 1200 10 0; Step 1220 1540 20 0]);
    Ctrl (lit "dcdc3") 500 3400 AXP2101_DC3OUT_VOL 0x7f AXP2101_OUTPUT_CTL0 2 0
      (steps [Step 500 1200 10 0; Step 1220 1540 20 0; Step 1600 3400 100 0]);
    Ctrl (lit "dcdc4") 500 1840 AXP2101_DC4OUT_VOL 0x7f AXP2101_OUTPUT_CTL0 3 0
      (steps [Step 500 1200 10 0; Step 1220 1840 20 0]);
    Ctrl (lit "aldo1") 500 3500 AXP2101_ALDO1OUT_VOL 0x1f AXP2101_OUTPUT_CTL2 0 0
      (steps [Step 500 3500 100 0]);
    Ctrl (lit "bldo1") 500 3500 AXP2101_BLDO1OUT_VOL 0x1f AXP2101_OUTPUT_CTL2 4 0
      (steps [Step 500 3500 100 0]);
    Ctrl (lit "bldo2") 500 3500 AXP2101_BLDO2OUT_VOL 0x1f AXP2101_OUTPUT_CTL2 5 0
      (steps [Step 500 3500 100 0]) ].

(** ** Operations *)

Section driver.
Context {S : Type} `{I2cBus S}.

Definition disable_dcdc_pfm_mode : prog S :=
  val <- rd AXP2101_RUNTIME_ADDR 0x80 ;;
  wr AXP2101_RUNTIME_ADDR 0x80 (Z.lor (Z.lor val (Z.shiftl 0x01 3)) (Z.shiftl 0x01 4)) ;;
  wr AXP2101_RUNTIME_ADDR 0xff 0x0 ;;
  wr AXP2101_RUNTIME_ADDR 0xf4 0x6 ;;
  wr AXP2101_RUNTIME_ADDR 0xf2 0x4 ;;
  wr AXP2101_RUNTIME_ADDR 0xf5 0x4 ;;
  wr AXP2101_RUNTIME_ADDR 0xff 0x1 ;;
  wr AXP2101_RUNTIME_ADDR 0x12 0x40 ;;
  wr AXP2101_RUNTIME_ADDR 0xff 0x0 ;;
  ret 0.

Definition axp2101_probe_power_key : prog S :=
  reg_value <-! rd AXP2101_RUNTIME_ADDR PMU_POWER_KEY_STATUS ;;
  let reg_value := Z.land reg_value (Z.shiftl 0x03 PMU_POWER_KEY_OFFSET) in
  if negb (reg_value =? 0) then
    wr! AXP2101_RUNTIME_ADDR PMU_POWER_KEY_STATUS reg_value ;; ret (Z.land (Z.shiftr reg_value PMU_POWER_KEY_OFFSET) 3)
  else ret (Z.land (Z.shiftr reg_value PMU_POWER_KEY_OFFSET) 3).

Definition find_ctrl_info : bytes → option (option axp_contrl_info) := get_ctrl_info_from_tbl axp_ctrl_tbl.

(** Textually the shared routine of [PmicCore], with this chip's address. *)
Definition pmu_set_vol : bytes → Z → Z → prog S := set_vol_tbl AXP2101_RUNTIME_ADDR axp_ctrl_tbl.

Definition axp2101_set_ddr_voltage (set_vol : Z) : prog S := pmu_set_vol CONFIG_DDR_VOL_NAME_EXT set_vol 1.

Definition axp2101_set_efuse_voltage (set_vol : Z) : prog S := pmu_set_vol (lit "bldo1") set_vol 1.

Definition axp2101_set_pll_voltage (set_vol : Z) : prog S := pmu_set_vol (lit "dcdc2") set_vol 1.

Definition axp2101_set_sys_voltage (set_vol onoff : Z) : prog S := pmu_set_vol (lit "dcdc3") set_vol onoff.

Definition axp2101_set_sys_voltage_ext (nm : bytes) (set_vol onoff : Z) : prog S := pmu_set_vol nm set_vol onoff.

(** The block for chips other than the second version. *)
Definition soften3_disable : prog S :=
  wr AXP2101_RUNTIME_ADDR AXP2101_TWI_ADDR_EXT 0x00 ;;
  wr AXP2101_RUNTIME_ADDR AXP2101_EFUS_OP_CFG 0x06 ;;
  wr AXP2101_RUNTIME_ADDR AXP2101_EFREQ_CTRL 0x04 ;;
  wr AXP2101_RUNTIME_ADDR AXP2101_TWI_ADDR_EXT 0x01 ;;
  wr AXP2101_RUNTIME_ADDR AXP2101_SELLP_CFG 0x30 ;;
  wr AXP2101_RUNTIME_ADDR AXP2101_TWI_ADDR_EXT 0x00 ;;
  wr AXP2101_RUNTIME_ADDR AXP2101_EFREQ_CTRL 0x00 ;;
  wr AXP2101_RUNTIME_ADDR AXP2101_EFUS_OP_CFG 0x00 ;;
  ret 0.

Definition axp2101_set_necessary_reg (pmu_type : Z) : prog S :=
  wr AXP2101_RUNTIME_ADDR AXP2101_CHARGE1 0x9 ;;
  wr AXP2101_RUNTIME_ADDR AXP2101_VBUS_CUR_SET 0x5 ;;
  _r <- call (if negb (pmu_type =? AXP2101_CHIP_ID_B) then wr AXP2101_RUNTIME_ADDR AXP2101_BAT_AVERVOL_H6 0x40 ;; ret 0 else ret 0) ;;
  reg_value <- rd AXP2101_RUNTIME_ADDR AXP2101_OUTPUT_CTL1 ;;
  wr AXP2101_RUNTIME_ADDR AXP2101_OUTPUT_CTL1 (Z.lor reg_value (Z.lor (Z.lor (Z.shiftl 1 2) (Z.shiftl 1 4)) (Z.lor (Z.shiftl 1 3) (Z.shiftl 1 5)))) ;;
  _r <- call (if negb (pmu_type =? AXP2101_CHIP_ID_B) then soften3_disable else ret 0) ;;
  reg_value <- rd AXP2101_RUNTIME_ADDR AXP2101_VSYS_MIN ;;
  wr AXP2101_RUNTIME_ADDR AXP2101_VSYS_MIN (Z.land reg_value (Z.lnot (Z.shiftl 0x7 4))) ;;
  reg_value <- rd AXP2101_RUNTIME_ADDR AXP2101_VBUS_VOL_SET ;;
  wr AXP2101_RUNTIME_ADDR AXP2101_VBUS_VOL_SET (Z.land reg_value (Z.lnot (Z.shiftl 0xf 0))) ;;
  reg_value <- rd AXP2101_RUNTIME_ADDR AXP2101_OFF_CTL ;;
  wr AXP2101_RUNTIME_ADDR AXP2101_OFF_CTL (Z.lor reg_value (Z.shiftl 3 2)) ;;
  reg_value <- rd AXP2101_RUNTIME_ADDR AXP2101_PWEON_PWEOFF_EN ;;
  wr AXP2101_RUNTIME_ADDR AXP2101_PWEON_PWEOFF_EN (Z.lor reg_value (Z.shiftl 1 1)) ;;
  reg_value <- rd AXP2101_RUNTIME_ADDR AXP2101_DCDC_PWEOFF_EN ;;
  wr AXP2101_RUNTIME_ADDR AXP2101_DCDC_PWEOFF_EN (Z.land reg_value (Z.lnot (Z.shiftl 1 0))) ;;
  ret 0.

Definition axp2101_reg_read (addr : Z) : S → S * (Z * Z) := pmic_bus_read AXP2101_RUNTIME_ADDR addr.

Definition axp2101_reg_write (addr val : Z) : S → S * Z := pmic_bus_write AXP2101_RUNTIME_ADDR addr val.

Definition axp2101_axp_init (power_mode : Z) : prog S :=
  r <- call (pmic_bus_init AXP2101_DEVICE_ADDR AXP2101_RUNTIME_ADDR) ;;
  if negb (r =? 0) then ret (-1)
  else
    pmu_type <-! rd AXP2101_RUNTIME_ADDR AXP2101_VERSION ;;
    let pmu_type := Z.land pmu_type 0xCF in
    if (pmu_type =? AXP2101_CHIP_ID) || (pmu_type =? AXP2101_CHIP_ID_B) then
      _r <- call (axp2101_set_necessary_reg pmu_type) ;; ret AXP2101_CHIP_ID
    else ret (-1).
End driver.
