(* ===== verification/Axp2202.v ===== *)
(** * AXP2202 (spl/drivers/power/axp2202.c)

    The regulator table and the operations of the AXP2202 driver in the TWI
    configuration, where the chip's address is a variable
    ([axp2202_runtime_addr]) that the initialisation probes: every operation
    takes it as its first argument [rt] and the initialisation returns it. *)

From S2P Require Import Prelude CString PmicBus PmicCore.

Local Open Scope Z_scope.
Local Open Scope pmic_scope.

(** ** Registers *)

Definition AXP2202_DC1OUT_VOL : Z := 0x83.
Definition AXP2202_OUTPUT_CTL0 : Z := 0x80.
Definition AXP2202_DC2OUT_VOL : Z := 0x84.
Definition AXP2202_DC3OUT_VOL : Z := 0x85.
Definition AXP2202_ALDO1OUT_VOL : Z := 0x93.
Definition AXP2202_OUTPUT_CTL2 : Z := 0x90.
Definition AXP2202_ALDO2OUT_VOL : Z := 0x94.
Definition AXP2202_ALDO3OUT_VOL : Z := 0x95.
Definition AXP2202_ALDO4OUT_VOL : Z := 0x96.
Definition AXP2202_BLDO1OUT_VOL : Z := 0x97.
Definition AXP2202_BLDO2OUT_VOL : Z := 0x98.
Definition AXP2202_BLDO3OUT_VOL : Z := 0x99.
Definition AXP2202_BLDO4OUT_VOL : Z := 0x9A.
Definition AXP2202_CLDO1OUT_VOL : Z := 0x9B.
Definition AXP2202_OUTPUT_CTL3 : Z := 0x91.
Definition AXP2202_DEVICE_ADDR : Z := 400000.
Definition AXP2202_B_RUNTIME_ADDR : Z := 0x34.
Definition AXP2202_C_RUNTIME_ADDR : Z := 0x35.
Definition AXP2202_CHIP_ID : Z := 0x03.
Definition AXP2202_CHIP_ID_EXT : Z := 0x0e.
Definition AXP2202_CHIP_VER_EXT : Z := 0x0f.
Definition AXP2202_OUTPUT_CTL1 : Z := 0x81.
Definition AXP2202_PWRON_STATUS : Z := 0x20.
Definition AXP2202_VBUS_CUR_SET : Z := 0x17.
Definition AXP2202_ADC_CH0 : Z := 0xC0.
Definition AXP2202_VSYS_MIN : Z := 0x15.
Definition AXP2202_DCDC_PWEOFF_EN : Z := 0x23.
Definition AXP2202_MODULE_EN : Z := 0x19.
Definition AXP2202_INTSTS1 : Z := 0x49.
Definition PMU_POWER_KEY_STATUS : Z := AXP2202_INTSTS1.
Definition PMU_POWER_KEY_OFFSET : Z := 0x2.

(** ** The regulator table *)

Definition axp_ctrl_tbl : list axp_contrl_info := [
    Ctrl (lit "dcdc1") 500 1540 AXP2202_DC1OUT_VOL 0x7f AXP2202_OUTPUT_CTL0 0 0
      (steps [Step 500 1200 10 0; Step 1220 1540 20 0]);
    Ctrl (lit "dcdc2") 500 3400 AXP2202_DC2OUT_VOL 0x7f AXP2202_OUTPUT_CTL0 1 0
      (steps [Step 500 1200 10 0; Step 1220 1540 20 0; Step 1600 3400 100 0]);
    Ctrl (lit "dcdc3") 500 1840 AXP2202_DC3OUT_VOL 0x7f AXP2202_OUTPUT_CTL0 2 0
      (steps [Step 500 1200 10 0; Step 1220 1840 20 0]);
    Ctrl (lit "aldo1") 500 3500 AXP2202_ALDO1OUT_VOL 0x1f AXP2202_OUTPUT_CTL2 0 0
      (steps [Step 500 3500 100 0]);
    Ctrl (lit "aldo2") 500 3500 AXP2202_ALDO2OUT_VOL 0x1f AXP2202_OUTPUT_CTL2 1 0
      (steps [Step 500 3500 100 0]);
    Ctrl (lit "aldo3") 500 3500 AXP2202_ALDO3OUT_VOL 0x1f AXP2202_OUTPUT_CTL2 2 0
      (steps [Step 500 3500 100 0]);
    Ctrl (lit "aldo4") 500 3500 AXP2202_ALDO4OUT_VOL 0x1f AXP2202_OUTPUT_CTL2 3 0
      (steps [Step 500 3500 100 0]);
    Ctrl (lit "bldo1") 500 3500 AXP2202_BLDO1OUT_VOL 0x1f AXP2202_OUTPUT_CTL2 4 0
      (steps [Step 500 3500 100 0]);
    Ctrl (lit "bldo2") 500 3500 AXP2202_BLDO2OUT_VOL 0x1f AXP2202_OUTPUT_CTL2 5 0
      (steps [Step 500 3500 100 0]);
    Ctrl (lit "bldo3") 500 3500 AXP2202_BLDO3OUT_VOL 0x1f AXP2202_OUTPUT_CTL2 6 0
      (steps [Step 500 3500 100 0]);
    Ctrl (lit "bldo4") 500 3500 AXP2202_BLDO4OUT_VOL 0x1f AXP2202_OUTPUT_CTL2 7 0
      (steps [Step 500 3500 100 0]);
    Ctrl (lit "cldo1") 500 3500 AXP2202_CLDO1OUT_VOL 0x1f AXP2202_OUTPUT_CTL3 0 0
      (steps [Step 500 3500 100 0]) ].

(** ** Operations *)

Section driver.
Context {S : Type} `{I2cBus S}.
Context (rt : Z).

Definition disable_dcdc_pfm_mode : prog S :=
  val <- rd rt AXP2202_OUTPUT_CTL1 ;;
  wr rt AXP2202_OUTPUT_CTL1 (Z.lor (Z.lor val (Z.shiftl 0x01 3)) (Z.shiftl 0x01 4)) ;;
  ret 0.

Definition axp2202_probe_power_key : prog S :=
  reg_value <-! rd rt PMU_POWER_KEY_STATUS ;;
  let reg_value := Z.land reg_value (Z.shiftl 0x03 PMU_POWER_KEY_OFFSET) in
  if negb (reg_value =? 0) then
    wr! rt PMU_POWER_KEY_STATUS reg_value ;; ret (Z.land (Z.shiftr reg_value PMU_POWER_KEY_OFFSET) 3)
  else ret (Z.land (Z.shiftr reg_value PMU_POWER_KEY_OFFSET) 3).

Definition axp2202_get_power_source : prog S :=
  reg_value <-! rd rt AXP2202_PWRON_STATUS ;;
  if negb (Z.land reg_value (Z.shiftl 1 0) =? 0) then ret AXP_BOOT_SOURCE_BUTTON
  else if negb (Z.land reg_value (Z.shiftl 1 1) =? 0) then ret AXP_BOOT_SOURCE_IRQ_LOW
  else if negb (Z.land reg_value (Z.shiftl 1 2) =? 0) then ret AXP_BOOT_SOURCE_VBUS_USB
  else if negb (Z.land reg_value (Z.shiftl 1 3) =? 0) then ret AXP_BOOT_SOURCE_CHARGER
  else if negb (Z.land reg_value (Z.shiftl 1 4) =? 0) then ret AXP_BOOT_SOURCE_BATTERY
  else ret (-1).

Definition find_ctrl_info : bytes → option (option axp_contrl_info) := get_ctrl_info_from_tbl axp_ctrl_tbl.

(** Textually the shared routine of [PmicCore], with this chip's address. *)
Definition pmu_set_vol : bytes → Z → Z → prog S := set_vol_tbl rt axp_ctrl_tbl.

Definition axp2202_set_ddr_voltage (set_vol : Z) : prog S := pmu_set_vol (lit "dcdc3") set_vol 1.

Definition axp2202_set_ddr4_2v5_voltage (set_vol : Z) : prog S := pmu_set_vol (lit "bldo2") set_vol 1.

Definition axp2202_set_efuse_voltage (set_vol : Z) : prog S := pmu_set_vol (lit "cldo1") set_vol 1.

Definition axp2202_set_pll_voltage (set_vol : Z) : prog S := pmu_set_vol (lit "dcdc1") set_vol 1.

Definition axp2202_set_sys_voltage (set_vol onoff : Z) : prog S := pmu_set_vol (lit "dcdc2") set_vol onoff.

Definition axp2202_set_sys_voltage_ext (nm : bytes) (set_vol onoff : Z) : prog S := pmu_set_vol nm set_vol onoff.

Definition axp2202_set_necessary_reg : prog S :=
  wr rt AXP2202_VBUS_CUR_SET 0x26 ;;
  reg_value <- rd rt AXP2202_ADC_CH0 ;;
  wr rt AXP2202_ADC_CH0 (Z.lor reg_value 0x33) ;;
  _v <- rd rt AXP2202_VSYS_MIN ;;
  wr rt AXP2202_VSYS_MIN 0x06 ;;
  reg_value <- rd rt AXP2202_DCDC_PWEOFF_EN ;;
  wr rt AXP2202_DCDC_PWEOFF_EN (Z.land reg_value (Z.lnot (Z.shiftl 1 0))) ;;
  reg_value <- rd rt AXP2202_CHIP_VER_EXT ;;
  if negb (reg_value =? 0) then
    reg_value <- rd rt AXP2202_MODULE_EN ;;
    wr rt AXP2202_MODULE_EN (Z.lor reg_value 0x10) ;; ret 0
  else
    reg_value <- rd rt AXP2202_MODULE_EN ;;
    wr rt AXP2202_MODULE_EN (Z.land reg_value 0xEF) ;; ret 0.

(** The test of the identification byte, for the address in use. *)
Definition axp2202_detect (pmu_type : Z) : prog S :=
  if pmu_type =? 0x02 then
    _r <- call axp2202_set_necessary_reg ;; ret AXP2202_CHIP_ID
  else ret (-1).
End driver.

Section init.
Context {S : Type} `{I2cBus S}.

(** The new [axp2202_runtime_addr] and the result. *)
Definition axp2202_axp_init (power_mode : Z) (s : S) : option (S * (Z * Z)) :=
  let s := i2c_init_cpus AXP2202_DEVICE_ADDR AXP2202_B_RUNTIME_ADDR s in
  let '(s, (st, pmu_type)) := pmic_bus_read AXP2202_B_RUNTIME_ADDR AXP2202_CHIP_ID_EXT s in
  if st =? 0 then
    '(s, r) ← axp2202_detect AXP2202_B_RUNTIME_ADDR pmu_type s; Some (s, (AXP2202_B_RUNTIME_ADDR, r))
  else
    let '(s, (st, pmu_type)) := pmic_bus_read AXP2202_C_RUNTIME_ADDR AXP2202_CHIP_ID_EXT s in
    if st =? 0 then
      '(s, r) ← axp2202_detect AXP2202_C_RUNTIME_ADDR pmu_type s; Some (s, (AXP2202_C_RUNTIME_ADDR, r))
    else Some (s, (AXP2202_C_RUNTIME_ADDR, -1)).
End init.
