(* ===== verification/Axp221.v ===== *)
(** * AXP221 (spl/drivers/power/axp221.c)

    The regulator table and the operations of the AXP221 driver, with the
    addresses of the TWI configuration; the platform-specific blocks of
    [axp221_necessary_reg_enable] are not compiled in.  Its [pmu_set_vol] is the
    ramp of [PmicCore]. *)

From S2P Require Import Prelude CString PmicBus PmicCore.

Local Open Scope Z_scope.
Local Open Scope pmic_scope.

(** ** Registers *)

Definition BOOT_POWER221_DC2OUT_VOL : Z := 0x22.
Definition BOOT_POWER221_OUTPUT_CTL1 : Z := 0x10.
Definition BOOT_POWER221_DC3OUT_VOL : Z := 0x23.
Definition BOOT_POWER221_DC5OUT_VOL : Z := 0x25.
Definition AXP221_RUNTIME_ADDR : Z := 0x34.
Definition AXP221_DEVICE_ADDR : Z := 400000.
Definition AXP221_CHIP_ID : Z := 0x06.
Definition AXP221_SUNXI_CPU_VOL : bytes := lit "dcdc2".
Definition AXP221_SUNXI_SYS_VOL : bytes := lit "dcdc3".
Definition AXP221_SUNXI_DRAM_VOL : bytes := lit "dcdc5".
Definition BOOT_POWER221_VERSION : Z := 0x03.
Definition BOOT_POWER221_VOFF_SET : Z := 0x31.
Definition BOOT_POWER221_OTG_STATUS : Z := 0x02.
Definition BOOT_POWER221_INTSTS5 : Z := 0x4c.
Definition BOOT_POWER221_POWER_KEY_STATUS : Z := BOOT_POWER221_INTSTS5.
Definition BOOT_POWER221_POWER_KEY_OFFSET : Z := 0x5.

(** ** The regulator table *)

Definition axp_ctrl_tbl : list axp_contrl_info := [
    Ctrl (lit "dcdc2") 600 1540 BOOT_POWER221_DC2OUT_VOL 0x3f BOOT_POWER221_OUTPUT_CTL1 2 0
      (steps [Step 600 1540 20 0]);
    Ctrl (lit "dcdc3") 600 1860 BOOT_POWER221_DC3OUT_VOL 0x3f BOOT_POWER221_OUTPUT_CTL1 3 0
      (steps [Step 600 1540 20 0]);
    Ctrl (lit "dcdc5") 1000 2550 BOOT_POWER221_DC5OUT_VOL 0x1f BOOT_POWER221_OUTPUT_CTL1 5 0
      (steps [Step 1000 2550 50 0]) ].

(** ** Operations *)

Section driver.
Context {S : Type} `{I2cBus S}.

Definition axp221_set_power_reset : prog S :=
  reg_value <-! rd AXP221_RUNTIME_ADDR BOOT_POWER221_VOFF_SET ;;
  wr! AXP221_RUNTIME_ADDR BOOT_POWER221_VOFF_SET (Z.lor reg_value (Z.shiftl 1 6)) ;;
  ret 0.

Definition axp221_probe_power_key : prog S :=
  reg_value <-! rd AXP221_RUNTIME_ADDR BOOT_POWER221_POWER_KEY_STATUS ;;
  let reg_value := Z.land reg_value (Z.shiftl 0x03 BOOT_POWER221_POWER_KEY_OFFSET) in
  if negb (reg_value =? 0) then
    wr! AXP221_RUNTIME_ADDR BOOT_POWER221_POWER_KEY_STATUS reg_value ;; ret (Z.land (Z.shiftr reg_value BOOT_POWER221_POWER_KEY_OFFSET) 3)
  else ret (Z.land (Z.shiftr reg_value BOOT_POWER221_POWER_KEY_OFFSET) 3).

Definition axp221_get_power_source : prog S :=
  reg_value <-! rd AXP221_RUNTIME_ADDR BOOT_POWER221_OTG_STATUS ;;
  if negb (Z.land reg_value (Z.shiftl 1 0) =? 0) then ret AXP_BOOT_SOURCE_BUTTON
  else if negb (Z.land reg_value (Z.shiftl 1 1) =? 0) then ret AXP_BOOT_SOURCE_CHARGER
  else if negb (Z.land reg_value (Z.shiftl 1 2) =? 0) then ret AXP_BOOT_SOURCE_BATTERY
  else ret (-1).

Definition find_ctrl_info : bytes → option (option axp_contrl_info) := get_ctrl_info_from_tbl axp_ctrl_tbl.

(** The shared routine of [PmicCore] and a last, ignored, read for a trace
    message after the enable bit was written. *)
Definition pmu_axp221_set_vol (nm : bytes) (set_vol onoff : Z) : prog S :=
  r <- call (set_vol_tbl AXP221_RUNTIME_ADDR axp_ctrl_tbl nm set_vol onoff) ;;
  if negb (r =? 0) || (onoff <? 0) then ret r
  else _v <- rd AXP221_RUNTIME_ADDR BOOT_POWER221_DC5OUT_VOL ;; ret 0.

Definition pmu_get_vol : bytes → prog S := get_vol_tbl AXP221_RUNTIME_ADDR axp_ctrl_tbl.

(** The ramp of [PmicCore] over this driver's own [pmu_axp221_set_vol]. *)
Definition pmu_set_vol (nm : bytes) (set_vol onoff : Z) : prog S :=
  src_vol <- call (pmu_get_vol nm) ;;
  match get_ctrl_info_from_tbl axp_ctrl_tbl nm with
  | None => undefined
  | Some None => ret (-1)
  | Some (Some e) =>
      match min_step (axp_step_tbl e) 0xffff with
      | None => undefined
      | Some step_voltage =>
          if step_voltage =? 0xffff then ret (-1)
          else if set_vol <? src_vol then
            ramp_down (ramp_fuel src_vol set_vol) (λ v, pmu_axp221_set_vol nm v onoff) src_vol set_vol step_voltage
          else if src_vol <? set_vol then
            ramp_up (ramp_fuel src_vol set_vol) (λ v, pmu_axp221_set_vol nm v onoff) src_vol set_vol step_voltage
          else ret 0
      end
  end.

Definition axp221_set_ddr_voltage (set_vol : Z) : prog S := pmu_set_vol AXP221_SUNXI_DRAM_VOL set_vol 1.

Definition axp221_set_pll_voltage (set_vol : Z) : prog S := pmu_set_vol AXP221_SUNXI_CPU_VOL set_vol 1.

Definition axp221_set_sys_voltage (set_vol onoff : Z) : prog S := pmu_set_vol AXP221_SUNXI_SYS_VOL set_vol onoff.

Definition axp221_set_sys_voltage_ext (nm : bytes) (set_vol onoff : Z) : prog S := pmu_set_vol nm set_vol onoff.

Definition axp221_necessary_reg_enable : prog S := ret 0.

Definition axp221_reg_read (addr : Z) : S → S * (Z * Z) := pmic_bus_read AXP221_RUNTIME_ADDR addr.

Definition axp221_reg_write (addr val : Z) : S → S * Z := pmic_bus_write AXP221_RUNTIME_ADDR addr val.

Definition axp221_axp_init (power_mode : Z) : prog S :=
  r <- call (pmic_bus_init AXP221_DEVICE_ADDR AXP221_RUNTIME_ADDR) ;;
  if negb (r =? 0) then ret (-1)
  else
    pmu_type <-! rd AXP221_RUNTIME_ADDR BOOT_POWER221_VERSION ;;
    let pmu_type := Z.land pmu_type 0xCF in
    if pmu_type =? 0x06 then
      _r <- call axp221_necessary_reg_enable ;; ret AXP221_CHIP_ID
    else ret (-1).
End driver.
