(* ===== verification/Axp81X.v ===== *)
(** * AXP81X (spl/drivers/power/axp81X.c)

    The regulator table and the operations of the AXP81X driver, with the
    addresses of the TWI configuration; the platform-specific blocks of
    [axp81X_necessary_reg_enable] are not compiled in.  Its [pmu_set_vol] is the
    ramp of [PmicCore]. *)

From S2P Require Import Prelude CString PmicBus PmicCore.

Local Open Scope Z_scope.
Local Open Scope pmic_scope.

(** ** Registers *)

Definition BOOT_POWER81X_DC2OUT_VOL : Z := 0x21.
Definition BOOT_POWER81X_OUTPUT_CTL1 : Z := 0x10.
Definition BOOT_POWER81X_DC4OUT_VOL : Z := 0x23.
Definition BOOT_POWER81X_DC5OUT_VOL : Z := 0x24.
Definition AXP81X_RUNTIME_ADDR : Z := 0x34.
Definition AXP81X_DEVICE_ADDR : Z := 400000.
Definition AXP81X_CHIP_ID : Z := 0x11.
Definition AXP81X_SUNXI_CPU_VOL : bytes := lit "dcdc2".
Definition AXP81X_SUNXI_SYS_VOL : bytes := lit "dcdc4".
Definition AXP81X_SUNXI_DRAM_VOL : bytes := lit "dcdc5".
Definition BOOT_POWER81X_VERSION : Z := 0x03.
Definition BOOT_POWER81X_VOFF_SET : Z := 0x31.
Definition BOOT_POWER81X_OTG_STATUS : Z := 0x02.
Definition BOOT_POWER81X_INTSTS5 : Z := 0x4c.
Definition BOOT_POWER81X_POWER_KEY_STATUS : Z := BOOT_POWER81X_INTSTS5.
Definition BOOT_POWER81X_POWER_KEY_OFFSET : Z := 0x3.

(** ** The regulator table *)

Definition axp_ctrl_tbl : list axp_contrl_info := [
    Ctrl (lit "dcdc2") 500 1300 BOOT_POWER81X_DC2OUT_VOL 0x7f BOOT_POWER81X_OUTPUT_CTL1 1 0
      (steps [Step 500 1200 10 0; Step 1220 1300 20 0]);
    Ctrl (lit "dcdc4") 500 1300 BOOT_POWER81X_DC4OUT_VOL 0x7f BOOT_POWER81X_OUTPUT_CTL1 3 0
      (steps [Step 500 1200 10 0; Step 1220 1300 20 0]);
    Ctrl (lit "dcdc5") 800 1840 BOOT_POWER81X_DC5OUT_VOL 0x7f BOOT_POWER81X_OUTPUT_CTL1 4 0
      (steps [Step 800 1110 10 0; Step 1120 1840 20 0]) ].

(** ** Operations *)

Section driver.
Context {S : Type} `{I2cBus S}.

Definition axp81X_set_power_reset : prog S :=
  reg_value <-! rd AXP81X_RUNTIME_ADDR BOOT_POWER81X_VOFF_SET ;;
  wr! AXP81X_RUNTIME_ADDR BOOT_POWER81X_VOFF_SET (Z.lor reg_value (Z.shiftl 1 6)) ;;
  ret 0.

Definition axp81X_probe_power_key : prog S :=
  reg_value <-! rd AXP81X_RUNTIME_ADDR BOOT_POWER81X_POWER_KEY_STATUS ;;
  let reg_value := Z.land reg_value (Z.shiftl 0x03 BOOT_POWER81X_POWER_KEY_OFFSET) in
  if negb (reg_value =? 0) then
    wr! AXP81X_RUNTIME_ADDR BOOT_POWER81X_POWER_KEY_STATUS reg_value ;; ret (Z.land (Z.shiftr reg_value BOOT_POWER81X_POWER_KEY_OFFSET) 3)
  else ret (Z.land (Z.shiftr reg_value BOOT_POWER81X_POWER_KEY_OFFSET) 3).

Definition axp81X_get_power_source : prog S :=
  reg_value <-! rd AXP81X_RUNTIME_ADDR BOOT_POWER81X_OTG_STATUS ;;
  if negb (Z.land reg_value (Z.shiftl 1 0) =? 0) then ret AXP_BOOT_SOURCE_BUTTON
  else if negb (Z.land reg_value (Z.shiftl 1 1) =? 0) then ret AXP_BOOT_SOURCE_CHARGER
  else if negb (Z.land reg_value (Z.shiftl 1 2) =? 0) then ret AXP_BOOT_SOURCE_BATTERY
  else ret (-1).

Definition find_ctrl_info : bytes → option (option axp_contrl_info) := get_ctrl_info_from_tbl axp_ctrl_tbl.

(** Textually the shared routine of [PmicCore], with this chip's address. *)
Definition pmu_axp81X_set_vol : bytes → Z → Z → prog S := set_vol_tbl AXP81X_RUNTIME_ADDR axp_ctrl_tbl.

Definition pmu_get_vol : bytes → prog S := get_vol_tbl AXP81X_RUNTIME_ADDR axp_ctrl_tbl.

Definition pmu_set_vol : bytes → Z → Z → prog S := ramp_vol_tbl AXP81X_RUNTIME_ADDR axp_ctrl_tbl.

Definition axp81X_set_ddr_voltage (set_vol : Z) : prog S := pmu_set_vol AXP81X_SUNXI_DRAM_VOL set_vol 1.

Definition axp81X_set_pll_voltage (set_vol : Z) : prog S := pmu_set_vol AXP81X_SUNXI_CPU_VOL set_vol 1.

Definition axp81X_set_sys_voltage (set_vol onoff : Z) : prog S := pmu_set_vol AXP81X_SUNXI_SYS_VOL set_vol onoff.

Definition axp81X_set_sys_voltage_ext (nm : bytes) (set_vol onoff : Z) : prog S := pmu_set_vol nm set_vol onoff.

Definition axp81X_necessary_reg_enable : prog S := ret 0.

Definition axp81X_reg_read (addr : Z) : S → S * (Z * Z) := pmic_bus_read AXP81X_RUNTIME_ADDR addr.

Definition axp81X_reg_write (addr val : Z) : S → S * Z := pmic_bus_write AXP81X_RUNTIME_ADDR addr val.

Definition axp81X_axp_init (power_mode : Z) : prog S :=
  r <- call (pmic_bus_init AXP81X_DEVICE_ADDR AXP81X_RUNTIME_ADDR) ;;
  if negb (r =? 0) then ret (-1)
  else
    pmu_type <-! rd AXP81X_RUNTIME_ADDR BOOT_POWER81X_VERSION ;;
    let pmu_type := Z.land pmu_type 0xCF in
    if pmu_type =? 0x41 then
      _r <- call axp81X_necessary_reg_enable ;; ret AXP81X_CHIP_ID
    else ret (-1).
End driver.
