(* ===== verification/Axp806.v ===== *)
(** * AXP806 (spl/drivers/power/axp806.c)

    The regulator table and the operations of the AXP806 driver, with the
    addresses of the TWI configuration. *)

From S2P Require Import Prelude CString PmicBus PmicCore.

Local Open Scope Z_scope.
Local Open Scope pmic_scope.

(** ** Registers *)

Definition AXP806_DCAOUT_VOL : Z := 0x12.
Definition AXP806_OUTPUT_CTL1 : Z := 0x10.
Definition AXP806_DCBOUT_VOL : Z := 0x13.
Definition AXP806_DCCOUT_VOL : Z := 0x14.
Definition AXP806_DCDOUT_VOL : Z := 0x15.
Definition AXP806_DCEOUT_VOL : Z := 0x16.
Definition AXP806_ALDO1OUT_VOL : Z := 0x17.
Definition AXP806_ALDO2OUT_VOL : Z := 0x18.
Definition AXP806_ALDO3OUT_VOL : Z := 0x19.
Definition AXP806_BLDO1OUT_VOL : Z := 0x20.
Definition AXP806_OUTPUT_CTL2 : Z := 0x11.
Definition AXP806_BLDO2OUT_VOL : Z := 0x21.
Definition AXP806_BLDO3OUT_VOL : Z := 0x22.
Definition AXP806_BLDO4OUT_VOL : Z := 0x23.
Definition AXP806_CLDO1OUT_VOL : Z := 0x24.
Definition AXP806_CLDO2OUT_VOL : Z := 0x25.
Definition AXP806_CLDO3OUT_VOL : Z := 0x26.
Definition AXP806_RUNTIME_ADDR : Z := 0x36.
Definition AXP806_DEVICE_ADDR : Z := 400000.
Definition AXP806_CHIP_ID : Z := 0x40.
Definition AXP806_IC_TYPE : Z := 0x03.
Definition AXP806_STARUP_SRC : Z := 0x00.
Definition PMU_POWER_KEY_STATUS : Z := 0x49.
Definition PMU_POWER_KEY_OFFSET : Z := 0.
Definition AXP806_DCMOD_CTL1 : Z := 0x1A.
Definition AXP806_DIASBLE : Z := 0x32.
Definition AXP806_IRQ_SETTING : Z := 0x1F.

(** ** The regulator table *)

Definition axp_ctrl_tbl : list axp_contrl_info := [
    Ctrl (lit "dcdca") 600 1520 AXP806_DCAOUT_VOL 0x7f AXP806_OUTPUT_CTL1 0 0
      (steps [Step 600 1100 10 0; Step 1120 1520 20 0]);
    Ctrl (lit "dcdcb") 1000 2550 AXP806_DCBOUT_VOL 0x1f AXP806_OUTPUT_CTL1 1 0
      (steps [Step 1000 2550 50 0]);
    Ctrl (lit "dcdcc") 600 1520 AXP806_DCCOUT_VOL 0x7f AXP806_OUTPUT_CTL1 2 0
      (steps [Step 600 1100 10 0; Step 1120 1520 20 0]);
    Ctrl (lit "dcdcd") 600 3300 AXP806_DCDOUT_VOL 0x3f AXP806_OUTPUT_CTL1 3 0
      (steps [Step 600 1500 20 0; Step 1600 3300 100 0]);
    Ctrl (lit "dcdce") 1100 3400 AXP806_DCEOUT_VOL 0x1f AXP806_OUTPUT_CTL1 4 0
      (steps [Step 1100 3400 100 0]);
    Ctrl (lit "aldo1") 700 3300 AXP806_ALDO1OUT_VOL 0x1f AXP806_OUTPUT_CTL1 5 0
      (steps [Step 700 3300 100 0]);
    Ctrl (lit "aldo2") 700 3400 AXP806_ALDO2OUT_VOL 0x1f AXP806_OUTPUT_CTL1 6 0
      (steps [Step 700 3400 100 0]);
    Ctrl (lit "aldo3") 700 3300 AXP806_ALDO3OUT_VOL 0x1f AXP806_OUTPUT_CTL1 7 0
      (steps [Step 700 3300 100 0]);
    Ctrl (lit "bldo1") 700 1900 AXP806_BLDO1OUT_VOL 0x0f AXP806_OUTPUT_CTL2 0 0
      (steps [Step 700 1900 100 0]);
    Ctrl (lit "bldo2") 700 1900 AXP806_BLDO2OUT_VOL 0x0f AXP806_OUTPUT_CTL2 1 0
      (steps [Step 700 1900 100 0]);
    Ctrl (lit "bldo3") 700 1900 AXP806_BLDO3OUT_VOL 0x0f AXP806_OUTPUT_CTL2 2 0
      (steps [Step 700 1900 100 0]);
    Ctrl (lit "bldo4") 700 1900 AXP806_BLDO4OUT_VOL 0x0f AXP806_OUTPUT_CTL2 3 0
      (steps [Step 700 1900 100 0]);
    Ctrl (lit "cldo1") 700 3300 AXP806_CLDO1OUT_VOL 0x1f AXP806_OUTPUT_CTL2 4 0
      (steps [Step 700 3300 100 0]);
    Ctrl (lit "cldo2") 700 4200 AXP806_CLDO2OUT_VOL 0x1f AXP806_OUTPUT_CTL2 5 0
      (steps [Step 700 3400 100 0; Step 3600 4200 200 0]);
    Ctrl (lit "cldo3") 700 3300 AXP806_CLDO3OUT_VOL 0x1f AXP806_OUTPUT_CTL2 6 0
      (steps [Step 700 3300 100 0]) ].

(** ** Operations *)

Section driver.
Context {S : Type} `{I2cBus S}.

Definition axp806_probe_power_key : prog S :=
  reg_value <-! rd AXP806_RUNTIME_ADDR PMU_POWER_KEY_STATUS ;;
  let reg_value := Z.land reg_value (Z.shiftl 0x03 PMU_POWER_KEY_OFFSET) in
  if negb (reg_value =? 0) then
    wr! AXP806_RUNTIME_ADDR PMU_POWER_KEY_STATUS reg_value ;; ret (Z.land (Z.shiftr reg_value PMU_POWER_KEY_OFFSET) 3)
  else ret (Z.land (Z.shiftr reg_value PMU_POWER_KEY_OFFSET) 3).

Definition axp806_get_power_source : prog S :=
  reg_value <-! rd AXP806_RUNTIME_ADDR AXP806_STARUP_SRC ;;
  if negb (Z.land reg_value (Z.shiftl 1 0) =? 0) then ret AXP_BOOT_SOURCE_VBUS_USB
  else if negb (Z.land reg_value (Z.shiftl 1 2) =? 0) then ret AXP_BOOT_SOURCE_BUTTON
  else if negb (Z.land reg_value (Z.shiftl 1 3) =? 0) then ret AXP_BOOT_SOURCE_IRQ_LOW
  else ret (-1).

Definition find_ctrl_info : bytes → option (option axp_contrl_info) := get_ctrl_info_from_tbl axp_ctrl_tbl.

(** Textually the shared routine of [PmicCore], with this chip's address. *)
Definition pmu_set_vol : bytes → Z → Z → prog S := set_vol_tbl AXP806_RUNTIME_ADDR axp_ctrl_tbl.

Definition axp806_set_ddr_voltage (set_vol : Z) : prog S := pmu_set_vol (lit "dcdcd") set_vol 1.

Definition axp806_set_pll_voltage (set_vol : Z) : prog S := pmu_set_vol (lit "dcdca") set_vol 1.

Definition axp806_set_sys_voltage (set_vol onoff : Z) : prog S := pmu_set_vol (lit "dcdcc") set_vol onoff.

Definition axp806_set_sys_voltage_ext (nm : bytes) (set_vol onoff : Z) : prog S := pmu_set_vol nm set_vol onoff.

Definition axp806_necessary_reg_enable : prog S :=
  reg_val <-! rd AXP806_RUNTIME_ADDR AXP806_DCMOD_CTL1 ;;
  wr! AXP806_RUNTIME_ADDR AXP806_DCMOD_CTL1 (Z.lor reg_val 0x7) ;;
  reg_val <-! rd AXP806_RUNTIME_ADDR AXP806_DIASBLE ;;
  wr! AXP806_RUNTIME_ADDR AXP806_DIASBLE (Z.lor reg_val (Z.shiftl 0x1 4)) ;;
  reg_val <-! rd AXP806_RUNTIME_ADDR AXP806_IRQ_SETTING ;;
  wr! AXP806_RUNTIME_ADDR AXP806_IRQ_SETTING (Z.lor reg_val (Z.shiftl 0x1 7)) ;;
  ret 0.

Definition axp806_reg_read (addr : Z) : S → S * (Z * Z) := pmic_bus_read AXP806_RUNTIME_ADDR addr.

Definition axp806_reg_write (addr val : Z) : S → S * Z := pmic_bus_write AXP806_RUNTIME_ADDR addr val.

Definition axp806_axp_init (power_mode : Z) : prog S :=
  r <- call (pmic_bus_init AXP806_DEVICE_ADDR AXP806_RUNTIME_ADDR) ;;
  if negb (r =? 0) then ret (-1)
  else
    pmu_type <-! rd AXP806_RUNTIME_ADDR AXP806_IC_TYPE ;;
    let pmu_type := Z.land pmu_type 0xCF in
    if pmu_type =? AXP806_CHIP_ID then
      _r <- call axp806_necessary_reg_enable ;; ret AXP806_CHIP_ID
    else ret (-1).
End driver.
