(* ===== verification/Axp809.v ===== *)
(** * AXP809 (spl/drivers/power/axp809.c)

    The regulator table and the operations of the AXP809 driver, with the
    addresses of the TWI configuration. *)

From S2P Require Import Prelude CString PmicBus PmicCore.

Local Open Scope Z_scope.
Local Open Scope pmic_scope.

(** ** Registers *)

Definition BOOT_POWER809_DC2OUT_VOL : Z := 0x22.
Definition BOOT_POWER809_OUTPUT_CTL1 : Z := 0x10.
Definition BOOT_POWER809_DC3OUT_VOL : Z := 0x23.
Definition BOOT_POWER809_DC5OUT_VOL : Z := 0x25.
Definition BOOT_POWER809_ALDO3OUT_VOL : Z := 0x2A.
Definition BOOT_POWER809_OUTPUT_CTL2 : Z := 0x12.
Definition AXP809_RUNTIME_ADDR : Z := 0x34.
Definition AXP809_DEVICE_ADDR : Z := 400000.
Definition AXP809_CHIP_ID : Z := 0x12.
Definition PMU_IC_TYPY_REG : Z := 0x3.
Definition VDD_SYS_VOL : Z := 920.
Definition VOL_ON : Z := 1.
Definition BOOT_POWER809_INTSTS5 : Z := 0x4c.
Definition PMU_POWER_KEY_STATUS : Z := BOOT_POWER809_INTSTS5.
Definition PMU_POWER_KEY_OFFSET : Z := 0x3.

(** ** The regulator table *)

Definition axp_ctrl_tbl : list axp_contrl_info := [
    Ctrl (lit "dcdc2") 600 1540 BOOT_POWER809_DC2OUT_VOL 0x3f BOOT_POWER809_OUTPUT_CTL1 2 0
      (steps [Step 600 1540 20 0]);
    Ctrl (lit "dcdc3") 600 1860 BOOT_POWER809_DC3OUT_VOL 0x3f BOOT_POWER809_OUTPUT_CTL1 3 0
      (steps [Step 600 1860 20 0]);
    Ctrl (lit "dcdc5") 1000 2550 BOOT_POWER809_DC5OUT_VOL 0x1f BOOT_POWER809_OUTPUT_CTL1 5 0
      (steps [Step 1000 2550 50 0]);
    Ctrl (lit "aldo3") 700 3300 BOOT_POWER809_ALDO3OUT_VOL 0x1f BOOT_POWER809_OUTPUT_CTL2 5 0
      (steps [Step 1000 2550 100 0]) ].

(** ** Operations *)

Section driver.
Context {S : Type} `{I2cBus S}.

Definition find_ctrl_info : bytes → option (option axp_contrl_info) := get_ctrl_info_from_tbl axp_ctrl_tbl.

(** Textually the shared routine of [PmicCore], with this chip's address. *)
Definition pmu_set_vol : bytes → Z → Z → prog S := set_vol_tbl AXP809_RUNTIME_ADDR axp_ctrl_tbl.

Definition axp809_probe_power_key : prog S :=
  reg_value <-! rd AXP809_RUNTIME_ADDR PMU_POWER_KEY_STATUS ;;
  let reg_value := Z.land reg_value (Z.shiftl 0x03 PMU_POWER_KEY_OFFSET) in
  if negb (reg_value =? 0) then
    wr! AXP809_RUNTIME_ADDR PMU_POWER_KEY_STATUS reg_value ;; ret (Z.land (Z.shiftr reg_value PMU_POWER_KEY_OFFSET) 3)
  else ret (Z.land (Z.shiftr reg_value PMU_POWER_KEY_OFFSET) 3).

Definition axp809_set_ddr_voltage (set_vol : Z) : prog S := pmu_set_vol (lit "dcdc5") set_vol 1.

Definition axp809_set_pll_voltage (set_vol : Z) : prog S := pmu_set_vol (lit "dcdc2") set_vol 1.

Definition axp809_set_efuse_voltage (set_vol : Z) : prog S := pmu_set_vol (lit "aldo3") set_vol 1.

Definition axp809_set_sys_voltage (set_vol onoff : Z) : prog S := pmu_set_vol (lit "dcdc3") set_vol onoff.

Definition axp809_reg_read (addr : Z) : S → S * (Z * Z) := pmic_bus_read AXP809_RUNTIME_ADDR addr.

Definition axp809_reg_write (addr val : Z) : S → S * Z := pmic_bus_write AXP809_RUNTIME_ADDR addr val.

Definition axp809_axp_init (power_mode : Z) : prog S :=
  r <- call (pmic_bus_init AXP809_DEVICE_ADDR AXP809_RUNTIME_ADDR) ;;
  if negb (r =? 0) then ret (-1)
  else
    pmu_type <-! rd AXP809_RUNTIME_ADDR PMU_IC_TYPY_REG ;;
    let pmu_type := Z.land pmu_type 0xCF in
    if pmu_type =? 0x42 then
      _r <- call (axp809_set_sys_voltage VDD_SYS_VOL VOL_ON) ;; ret AXP809_CHIP_ID
    else ret (-1).
End driver.
