(* ===== verification/Axp8191.v ===== *)
(** * AXP8191 (spl/drivers/power/axp8191.c)

    The regulator table (the entries that are not commented out) and the
    operations of the AXP8191 driver. *)

From S2P Require Import Prelude CString PmicBus PmicCore.

Local Open Scope Z_scope.
Local Open Scope pmic_scope.

(** ** Registers *)

Definition AXP8191_DC2OUT_VOL : Z := 0x13.
Definition AXP8191_DCDC_POWER_ON_OFF_CTL1 : Z := 0x10.
Definition AXP8191_DC3OUT_VOL : Z := 0x14.
Definition AXP8191_DC4OUT_VOL : Z := 0x15.
Definition AXP8191_DC6OUT_VOL : Z := 0x17.
Definition AXP8191_DC7OUT_VOL : Z := 0x18.
Definition AXP8191_DC8OUT_VOL : Z := 0x19.
Definition AXP8191_ELDO1OUT_VOL : Z := 0x3A.
Definition AXP8191_LDO_POWER_ON_OFF_CTL3 : Z := 0x22.
Definition AXP8191_RUNTIME_ADDR : Z := 0x36.
Definition AXP8191_DEVICE_ADDR : Z := 400000.
Definition AXP8191_CHIP_ID : Z := 0x0E.
Definition AXP8191_IRQ_STATUS2 : Z := 0x49.
Definition AXP8191_POWER_ON_OFF_SOURCE_INDIVATION : Z := 0x50.
Definition AXP8191_DC9OUT_VOL : Z := 0x1A.
Definition PMU_POWER_KEY_OFFSET : Z := 0x3.

(** ** The regulator table *)

Definition axp_ctrl_tbl : list axp_contrl_info := [
    Ctrl (lit "dcdc2") 500 1540 AXP8191_DC2OUT_VOL 0x7f AXP8191_DCDC_POWER_ON_OFF_CTL1 1 0
      (steps [Step 500 1200 10 0; Step 1220 1540 20 0]);
    Ctrl (lit "dcdc3") 500 1540 AXP8191_DC3OUT_VOL 0x7f AXP8191_DCDC_POWER_ON_OFF_CTL1 2 0
      (steps [Step 500 1200 10 0; Step 1220 1540 20 0]);
    Ctrl (lit "dcdc4") 500 1540 AXP8191_DC4OUT_VOL 0x7f AXP8191_DCDC_POWER_ON_OFF_CTL1 3 0
      (steps [Step 500 1200 10 0; Step 1220 1540 20 0]);
    Ctrl (lit "dcdc6") 500 2760 AXP8191_DC6OUT_VOL 0x7f AXP8191_DCDC_POWER_ON_OFF_CTL1 5 0
      (steps [Step 500 1200 10 0; Step 1220 1540 20 0; Step 1800 2400 20 0; Step 2440 2760 40 0]);
    Ctrl (lit "dcdc7") 500 1840 AXP8191_DC7OUT_VOL 0x7f AXP8191_DCDC_POWER_ON_OFF_CTL1 6 0
      (steps [Step 500 1200 10 0; Step 1220 1840 20 0]);
    Ctrl (lit "dcdc8") 500 3400 AXP8191_DC8OUT_VOL 0x7f AXP8191_DCDC_POWER_ON_OFF_CTL1 7 0
      (steps [Step 500 1200 10 0; Step 1220 1540 20 0; Step 1900 3400 100 0]);
    Ctrl (lit "eldo1") 500 1500 AXP8191_ELDO1OUT_VOL 0x3f AXP8191_LDO_POWER_ON_OFF_CTL3 6 0
      (steps [Step 500 1500 25 0]) ].

(** ** Operations *)

Section driver.
Context {S : Type} `{I2cBus S}.

Definition axp8191_probe_power_key : prog S :=
  reg_value <-! rd AXP8191_RUNTIME_ADDR AXP8191_IRQ_STATUS2 ;;
  let reg_value := Z.land reg_value (Z.shiftl 0x03 PMU_POWER_KEY_OFFSET) in
  if negb (reg_value =? 0) then
    wr! AXP8191_RUNTIME_ADDR AXP8191_IRQ_STATUS2 reg_value ;; ret (Z.land (Z.shiftr reg_value PMU_POWER_KEY_OFFSET) 3)
  else ret (Z.land (Z.shiftr reg_value PMU_POWER_KEY_OFFSET) 3).

Definition axp8191_get_power_source : prog S :=
  reg_value <-! rd AXP8191_RUNTIME_ADDR AXP8191_POWER_ON_OFF_SOURCE_INDIVATION ;;
  if negb (Z.land reg_value (Z.shiftl 1 0) =? 0) then ret AXP_BOOT_SOURCE_VBUS_USB
  else if negb (Z.land reg_value (Z.shiftl 1 1) =? 0) then ret AXP_BOOT_SOURCE_BUTTON
  else if negb (Z.land reg_value (Z.shiftl 1 2) =? 0) then ret AXP_BOOT_SOURCE_IRQ_LOW
  else ret (-1).

Definition find_ctrl_info : bytes → option (option axp_contrl_info) := get_ctrl_info_from_tbl axp_ctrl_tbl.

(** Textually the shared routine of [PmicCore], with this chip's address. *)
Definition pmu_set_vol : bytes → Z → Z → prog S := set_vol_tbl AXP8191_RUNTIME_ADDR axp_ctrl_tbl.

Definition axp8191_set_pll_voltage (set_vol : Z) : prog S :=
  r <- call (pmu_set_vol (lit "dcdc3") set_vol 1) ;;
  if negb (r =? 0) then ret (-1)
  else
    r <- call (pmu_set_vol (lit "dcdc4") set_vol 1) ;;
    if negb (r =? 0) then ret (-1) else ret 0.

Definition axp8191_set_ddr_voltage (set_vol : Z) : prog S := pmu_set_vol (lit "dcdc8") set_vol 1.

Definition axp8191_set_sys_voltage (set_vol onoff : Z) : prog S := pmu_set_vol (lit "dcdc2") set_vol onoff.

Definition axp8191_set_sys_voltage_ext (nm : bytes) (set_vol onoff : Z) : prog S := pmu_set_vol nm set_vol onoff.

(** [for (i = 0; i <= AXP8191_DC9OUT_VOL - AXP8191_DC2OUT_VOL; i++)]. *)
Fixpoint dvm_loop (n : nat) (i : Z) : prog S :=
  match n with
  | O => ret 0
  | Datatypes.S n' =>
      pmu_value <- rd AXP8191_RUNTIME_ADDR (AXP8191_DC2OUT_VOL + i) ;;
      wr AXP8191_RUNTIME_ADDR (AXP8191_DC2OUT_VOL + i) (Z.lor pmu_value 0x80) ;;
      dvm_loop n' (i + 1)
  end.

Definition axp8191_necessary_reg_enable : prog S :=
  pmu_value <- rd AXP8191_RUNTIME_ADDR AXP8191_DCDC_POWER_ON_OFF_CTL1 ;;
  wr AXP8191_RUNTIME_ADDR AXP8191_DCDC_POWER_ON_OFF_CTL1 (Z.lor pmu_value 0x08) ;;
  dvm_loop (Z.to_nat (AXP8191_DC9OUT_VOL - AXP8191_DC2OUT_VOL + 1)) 0.

Definition axp8191_axp_init (power_mode : Z) : prog S :=
  r <- call (pmic_bus_init AXP8191_DEVICE_ADDR AXP8191_RUNTIME_ADDR) ;;
  if negb (r =? 0) then ret (-1)
  else
    pmu_type <-! rd AXP8191_RUNTIME_ADDR AXP8191_CHIP_ID ;;
    if pmu_type =? 0x03 then
      _r <- call axp8191_necessary_reg_enable ;; ret AXP8191_CHIP_ID
    else ret (-1).
End driver.
