(* ===== verification/Axp858.v ===== *)
(** * AXP858 (spl/drivers/power/axp858.c)

    The regulator table and the operations of the AXP858 driver, with the
    addresses of the TWI configuration. *)

From S2P Require Import Prelude CString PmicBus PmicCore.

Local Open Scope Z_scope.
Local Open Scope pmic_scope.

(** ** Registers *)

Definition PMU_DC2OUT_VOL : Z := 0x14.
Definition PMU_ONOFF_CTL1 : Z := 0x10.
Definition PMU_DC3OUT_VOL : Z := 0x15.
Definition PMU_DC4OUT_VOL : Z := 0x16.
Definition PMU_DC5OUT_VOL : Z := 0x17.
Definition PMU_ALDO2_VOL : Z := 0x20.
Definition PMU_ONOFF_CTL2 : Z := 0x11.
Definition PMU_ALDO5_VOL : Z := 0x23.
Definition AXP858_RUNTIME_ADDR : Z := 0x36.
Definition AXP858_DEVICE_ADDR : Z := 400000.
Definition AXP858_CHIP_ID : Z := 0x14.
Definition PMU_IC_TYPE : Z := 0x03.
Definition PMU_DCDC_MODE_CTL1 : Z := 0x1a.
Definition PMU_POWER_KEY_STATUS : Z := 0x4c.
Definition PMU_POWER_KEY_OFFSET : Z := 0x3.

(** ** The regulator table *)

Definition axp_ctrl_tbl : list axp_contrl_info := [
    Ctrl (lit "dcdc2") 500 1540 PMU_DC2OUT_VOL 0x7f PMU_ONOFF_CTL1 1 0
      (steps [Step 500 1200 10 0; Step 1220 1540 20 0]);
    Ctrl (lit "dcdc3") 500 1540 PMU_DC3OUT_VOL 0x7f PMU_ONOFF_CTL1 2 0
      (steps [Step 500 1200 10 0; Step 1220 1540 20 0]);
    Ctrl (lit "dcdc4") 500 1540 PMU_DC4OUT_VOL 0x7f PMU_ONOFF_CTL1 3 0
      (steps [Step 500 1200 10 0; Step 1220 1540 20 0]);
    Ctrl (lit "dcdc5") 800 1840 PMU_DC5OUT_VOL 0x7f PMU_ONOFF_CTL1 4 0
      (steps [Step 800 1120 10 0; Step 1140 1840 20 0]);
    Ctrl (lit "aldo2") 700 3300 PMU_ALDO2_VOL 0x1f PMU_ONOFF_CTL2 1 0
      (steps [Step 700 3300 100 0]);
    Ctrl (lit "aldo5") 700 3300 PMU_ALDO5_VOL 0x1f PMU_ONOFF_CTL2 4 0
      (steps [Step 700 3300 100 0]) ].

(** ** Operations *)

Section driver.
Context {S : Type} `{I2cBus S}.

Definition disable_dcdc_pfm_mode : prog S :=
  val <- rd AXP858_RUNTIME_ADDR 0x80 ;;
  wr AXP858_RUNTIME_ADDR 0x80 (Z.lor (Z.lor val (Z.shiftl 0x01 3)) (Z.shiftl 0x01 4)) ;;
  wr AXP858_RUNTIME_ADDR 0xff 0x0 ;;
  wr AXP858_RUNTIME_ADDR 0xf4 0x6 ;;
  wr AXP858_RUNTIME_ADDR 0xf2 0x4 ;;
  wr AXP858_RUNTIME_ADDR 0xf5 0x4 ;;
  wr AXP858_RUNTIME_ADDR 0xff 0x1 ;;
  wr AXP858_RUNTIME_ADDR 0x12 0x40 ;;
  wr AXP858_RUNTIME_ADDR 0xff 0x0 ;;
  ret 0.

Definition axp858_probe_power_key : prog S :=
  reg_value <-! rd AXP858_RUNTIME_ADDR PMU_POWER_KEY_STATUS ;;
  let reg_value := Z.land reg_value (Z.shiftl 0x03 PMU_POWER_KEY_OFFSET) in
  if negb (reg_value =? 0) then
    wr! AXP858_RUNTIME_ADDR PMU_POWER_KEY_STATUS reg_value ;; ret (Z.land (Z.shiftr reg_value PMU_POWER_KEY_OFFSET) 3)
  else ret (Z.land (Z.shiftr reg_value PMU_POWER_KEY_OFFSET) 3).

Definition find_ctrl_info : bytes → option (option axp_contrl_info) := get_ctrl_info_from_tbl axp_ctrl_tbl.

(** Textually the shared routine of [PmicCore], with this chip's address. *)
Definition pmu_set_vol : bytes → Z → Z → prog S := set_vol_tbl AXP858_RUNTIME_ADDR axp_ctrl_tbl.

Definition axp858_set_ddr_voltage (set_vol : Z) : prog S := pmu_set_vol (lit "dcdc5") set_vol 1.

Definition axp858_set_ddr4_2v5_voltage (set_vol : Z) : prog S := pmu_set_vol (lit "aldo5") set_vol 1.

Definition axp858_set_pll_voltage (set_vol : Z) : prog S := pmu_set_vol (lit "dcdc2") set_vol 1.

Definition axp858_set_sys_voltage (set_vol onoff : Z) : prog S := pmu_set_vol (lit "dcdc3") set_vol onoff.

Definition axp858_set_sys_voltage_ext (nm : bytes) (set_vol onoff : Z) : prog S := pmu_set_vol nm set_vol onoff.

Definition axp858_necessary_reg_enable : prog S :=
  reg_value <-! rd AXP858_RUNTIME_ADDR PMU_DCDC_MODE_CTL1 ;;
  wr! AXP858_RUNTIME_ADDR PMU_DCDC_MODE_CTL1 (Z.lor reg_value (Z.shiftl 1 0)) ;;
  ret 0.

Definition axp858_reg_read (addr : Z) : S → S * (Z * Z) := pmic_bus_read AXP858_RUNTIME_ADDR addr.

Definition axp858_reg_write (addr val : Z) : S → S * Z := pmic_bus_write AXP858_RUNTIME_ADDR addr val.

Definition axp858_axp_init (power_mode : Z) : prog S :=
  r <- call (pmic_bus_init AXP858_DEVICE_ADDR AXP858_RUNTIME_ADDR) ;;
  if negb (r =? 0) then ret (-1)
  else
    pmu_type <-! rd AXP858_RUNTIME_ADDR PMU_IC_TYPE ;;
    let pmu_type := Z.land pmu_type 0xCF in
    if pmu_type =? 0x44 then
      _r <- call axp858_necessary_reg_enable ;; ret AXP858_CHIP_ID
    else ret (-1).
End driver.
