(* ===== verification/Sy8827g.v ===== *)
(** * SY8827G (spl/drivers/power/sy8827g.c)

    The external step-down converter SY8827G: its table is in units of 100 uV,
    so [ext_set_vol] multiplies the request by ten and then runs the shared routine
    of [PmicCore]; the structure types of its header are those of axp.h under
    another name. *)

From S2P Require Import Prelude CString PmicBus PmicCore.

Local Open Scope Z_scope.
Local Open Scope pmic_scope.

(** ** Registers *)

Definition SY8827G_VSEL0 : Z := 0x00.
Definition SY8827G_VSEL1 : Z := 0x01.
Definition SY8827G_RUNTIME_ADDR : Z := 0x60.
Definition SY8827G_DEVICE_ADDR : Z := 400000.
Definition SY8827G_CHIP_ID : Z := 0x80.
Definition SY8827G_ID1 : Z := 0x03.

(** ** The regulator table *)

Definition ext_ctrl_tbl : list axp_contrl_info := [
    Ctrl (lit "dcdc0") 6000 13875 SY8827G_VSEL0 0x3f SY8827G_VSEL0 7 0
      (steps [Step 6000 13875 125 0]);
    Ctrl (lit "dcdc1") 6000 13875 SY8827G_VSEL1 0x3f SY8827G_VSEL1 7 0
      (steps [Step 6000 13875 125 0]) ].

(** ** Operations *)

Section driver.
Context {S : Type} `{I2cBus S}.

Definition find_ctrl_info : bytes → option (option axp_contrl_info) := get_ctrl_info_from_tbl ext_ctrl_tbl.

(** The shared routine on ten times the request ([set_vol * 10] on an [int])
    and a last, ignored, read of the control register. *)
Definition ext_set_vol (nm : bytes) (set_vol onoff : Z) : prog S :=
  match get_ctrl_info_from_tbl ext_ctrl_tbl nm with
  | None => undefined
  | Some None => ret (-1)
  | Some (Some e) =>
      r <- call (set_item_vol SY8827G_RUNTIME_ADDR e (s32 (set_vol * 10)) onoff) ;;
      if negb (r =? 0) || (onoff <? 0) then ret r
      else _v <- rd SY8827G_RUNTIME_ADDR (ctrl_reg_addr e) ;; ret 0
  end.

Definition sy8827g_set_pll_voltage (set_vol : Z) : prog S := ext_set_vol (lit "dcdc0") set_vol 1.

Definition sy8827g_set_necessary_reg : prog S := ret 0.

Definition sy8827g_ext_init (power_mode : Z) : prog S :=
  r <- call (pmic_bus_init SY8827G_DEVICE_ADDR SY8827G_RUNTIME_ADDR) ;;
  if negb (r =? 0) then ret (-1)
  else
    reg_value <-! rd SY8827G_RUNTIME_ADDR SY8827G_ID1 ;;
    if Z.land reg_value 0xE0 =? 0x80 then
      _r <- call sy8827g_set_necessary_reg ;; ret SY8827G_CHIP_ID
    else ret (-1).
End driver.
