(* ===== verification/Tcs4838.v ===== *)
(** * TCS4838 (spl/drivers/power/tcs4838.c)

    The external step-down converter TCS4838: its table is in units of 100 uV,
    so [tcs_set_vol] multiplies the request by ten and then runs the shared routine
    of [PmicCore]; the structure types of its header are those of axp.h under
    another name. *)

From S2P Require Import Prelude CString PmicBus PmicCore.

Local Open Scope Z_scope.
Local Open Scope pmic_scope.

(** ** Registers *)

Definition TCS4838_VSEL0 : Z := 0x00.
Definition TCS4838_RUNTIME_ADDR : Z := 0x41.
Definition TCS4838_DEVICE_ADDR : Z := 400000.
Definition TCS4838_CHIP_ID : Z := 0x80.
Definition TCS4838_ID1 : Z := 0x03.

(** ** The regulator table *)

Definition tcs_ctrl_tbl : list axp_contrl_info := [
    Ctrl (lit "dcdc0") 7125 15000 TCS4838_VSEL0 0x7f TCS4838_VSEL0 7 0
      (steps [Step 7125 15000 125 0]);
    Ctrl (lit "dcdc1") 7125 15000 TCS4838_VSEL0 0x7f TCS4838_VSEL0 7 0
      (steps [Step 7125 15000 125 0]) ].

(** ** Operations *)

Section driver.
Context {S : Type} `{I2cBus S}.

Definition find_ctrl_info : bytes → option (option axp_contrl_info) := get_ctrl_info_from_tbl tcs_ctrl_tbl.

(** The shared routine on ten times the request ([set_vol * 10] on an [int])
    and a last, ignored, read of the control register. *)
Definition tcs_set_vol (nm : bytes) (set_vol onoff : Z) : prog S :=
  match get_ctrl_info_from_tbl tcs_ctrl_tbl nm with
  | None => undefined
  | Some None => ret (-1)
  | Some (Some e) =>
      r <- call (set_item_vol TCS4838_RUNTIME_ADDR e (s32 (set_vol * 10)) onoff) ;;
      if negb (r =? 0) || (onoff <? 0) then ret r
      else _v <- rd TCS4838_RUNTIME_ADDR (ctrl_reg_addr e) ;; ret 0
  end.

Definition tcs4838_set_pll_voltage (set_vol : Z) : prog S := tcs_set_vol (lit "dcdc0") set_vol 1.

Definition tcs4838_set_necessary_reg : prog S := ret 0.

Definition tcs4838_tcs_init (power_mode : Z) : prog S :=
  r <- call (pmic_bus_init TCS4838_DEVICE_ADDR TCS4838_RUNTIME_ADDR) ;;
  if negb (r =? 0) then ret (-1)
  else
    reg_value <-! rd TCS4838_RUNTIME_ADDR TCS4838_ID1 ;;
    if Z.land reg_value 0xE0 =? 0x80 then
      _r <- call tcs4838_set_necessary_reg ;; ret TCS4838_CHIP_ID
    else ret (-1).
End driver.
