(* ===== verification/Axp.v ===== *)
(** * The PMIC dispatcher (spl/drivers/power/axp.c)

    [axp_init] probes the compiled-in PMIC drivers in a fixed order and
    records the one that answered in [pmu_chip_id]; every other entry point
    switches on that variable.  The compile-time selection
    ([CFG_AXP858_POWER] and so on) is the record [cfg], the file's state the
    record [axp_state] (with the probed address of the AXP2202 driver).  The
    theorems: every regulator of every table but two is well formed, so that
    the theorems of [PmicCore] apply to it; the two exceptions and what they
    do; and after initialisation the voltage entry points drive exactly the
    chip that was detected. *)

From S2P Require Import Prelude CString PmicBus PmicCore.
From S2P Require Import Axp152.
From S2P Require Import Axp1530.
From S2P Require Import Axp2101.
From S2P Require Import Axp2202.
From S2P Require Import Axp221.
From S2P Require Import Axp81X.
From S2P Require Import Axp806.
From S2P Require Import Axp809.
From S2P Require Import Axp8191.
From S2P Require Import Axp858.
From S2P Require Import Sy8827g.
From S2P Require Import Tcs4838.

Local Open Scope Z_scope.
Local Open Scope pmic_scope.

(** ** Configuration and state *)

Record cfg := {
  CFG_AXP858_POWER : bool;
  CFG_AXP81X_POWER : bool;
  CFG_AXP806_POWER : bool;
  CFG_AXP809_POWER : bool;
  CFG_AXP2101_POWER : bool;
  CFG_AXP2202_POWER : bool;
  CFG_AXP152_POWER : bool;
  CFG_AXP1530_POWER : bool;
  CFG_AXP221_POWER : bool;
  CFG_AXP8191_POWER : bool;
}.

Record axp_state := { pmu_chip_id : Z; axp2202_runtime_addr : Z }.

(** A [switch] over [pmu_chip_id] whose cases are compiled in or not. *)
Fixpoint switch {A} (id : Z) (cases : list (bool * Z * A)) (dflt : A) : A :=
  match cases with
  | [] => dflt
  | (on, c, a) :: cases' => if on && (id =? c) then a else switch id cases' dflt
  end.

Section dispatch.
Context {S : Type} `{I2cBus S} (c : cfg) (st : axp_state).

Definition get_power_source : prog S :=
  switch (pmu_chip_id st) [
    (CFG_AXP81X_POWER c, AXP81X_CHIP_ID, axp81X_get_power_source);
    (CFG_AXP806_POWER c, AXP806_CHIP_ID, axp806_get_power_source);
    (CFG_AXP2202_POWER c, AXP2202_CHIP_ID, axp2202_get_power_source (axp2202_runtime_addr st));
    (CFG_AXP8191_POWER c, AXP8191_CHIP_ID, axp8191_get_power_source)
  ] (ret (-1)).

Definition set_power_reset : prog S :=
  switch (pmu_chip_id st) [
    (CFG_AXP81X_POWER c, AXP81X_CHIP_ID, axp81X_set_power_reset)
  ] (ret (-1)).

Definition probe_power_key : prog S :=
  switch (pmu_chip_id st) [
    (CFG_AXP858_POWER c, AXP858_CHIP_ID, axp858_probe_power_key);
    (CFG_AXP81X_POWER c, AXP81X_CHIP_ID, axp81X_probe_power_key);
    (CFG_AXP806_POWER c, AXP806_CHIP_ID, axp806_probe_power_key);
    (CFG_AXP809_POWER c, AXP809_CHIP_ID, axp809_probe_power_key);
    (CFG_AXP2101_POWER c, AXP2101_CHIP_ID, axp2101_probe_power_key);
    (CFG_AXP2202_POWER c, AXP2202_CHIP_ID, axp2202_probe_power_key (axp2202_runtime_addr st));
    (CFG_AXP152_POWER c, AXP152_CHIP_ID, axp152_probe_power_key);
    (CFG_AXP1530_POWER c, AXP1530_CHIP_ID, axp1530_probe_power_key);
    (CFG_AXP221_POWER c, AXP221_CHIP_ID, axp221_probe_power_key);
    (CFG_AXP8191_POWER c, AXP8191_CHIP_ID, axp8191_probe_power_key)
  ] (ret (-1)).

(** [power_mode] is the field of the boot header that [get_power_mode] reads. *)
Definition set_ddr_voltage (power_mode set_vol : Z) : prog S :=
  switch (pmu_chip_id st) [
    (CFG_AXP858_POWER c, AXP858_CHIP_ID, axp858_set_ddr_voltage set_vol);
    (CFG_AXP81X_POWER c, AXP81X_CHIP_ID, axp81X_set_ddr_voltage set_vol);
    (CFG_AXP806_POWER c, AXP806_CHIP_ID, axp806_set_ddr_voltage set_vol);
    (CFG_AXP809_POWER c, AXP809_CHIP_ID, axp809_set_ddr_voltage set_vol);
    (CFG_AXP2101_POWER c, AXP2101_CHIP_ID, axp2101_set_ddr_voltage set_vol);
    (CFG_AXP2202_POWER c, AXP2202_CHIP_ID, axp2202_set_ddr_voltage (axp2202_runtime_addr st) set_vol);
    (CFG_AXP152_POWER c, AXP152_CHIP_ID, axp152_set_ddr_voltage set_vol);
    (CFG_AXP1530_POWER c, AXP1530_CHIP_ID, axp1530_set_ddr_voltage set_vol);
    (CFG_AXP221_POWER c, AXP221_CHIP_ID, axp221_set_ddr_voltage set_vol);
    (CFG_AXP8191_POWER c, AXP8191_CHIP_ID, axp8191_set_ddr_voltage set_vol)
  ] (if power_mode =? 1 then ret 0 else ret (-1)).

Definition set_ddr4_2v5_voltage (set_vol : Z) : prog S :=
  switch (pmu_chip_id st) [
    (CFG_AXP858_POWER c, AXP858_CHIP_ID, axp858_set_ddr4_2v5_voltage set_vol);
    (CFG_AXP2202_POWER c, AXP2202_CHIP_ID, axp2202_set_ddr4_2v5_voltage (axp2202_runtime_addr st) set_vol)
  ] (ret (-1)).

Definition set_sys_voltage (set_vol : Z) : prog S :=
  switch (pmu_chip_id st) [
    (CFG_AXP806_POWER c, AXP806_CHIP_ID, axp806_set_sys_voltage set_vol 1);
    (CFG_AXP809_POWER c, AXP809_CHIP_ID, axp809_set_sys_voltage set_vol 1);
    (CFG_AXP81X_POWER c, AXP81X_CHIP_ID, axp81X_set_sys_voltage set_vol 1);
    (CFG_AXP858_POWER c, AXP858_CHIP_ID, axp858_set_sys_voltage set_vol 1);
    (CFG_AXP2101_POWER c, AXP2101_CHIP_ID, axp2101_set_sys_voltage set_vol 1);
    (CFG_AXP2202_POWER c, AXP2202_CHIP_ID, axp2202_set_sys_voltage (axp2202_runtime_addr st) set_vol 1);
    (CFG_AXP152_POWER c, AXP152_CHIP_ID, axp152_set_sys_voltage set_vol 1);
    (CFG_AXP1530_POWER c, AXP1530_CHIP_ID, axp1530_set_sys_voltage set_vol 1);
    (CFG_AXP221_POWER c, AXP221_CHIP_ID, axp221_set_sys_voltage set_vol 1);
    (CFG_AXP8191_POWER c, AXP8191_CHIP_ID, axp8191_set_sys_voltage set_vol 1)
  ] (ret (-1)).

Definition set_sys_voltage_ext (nm : bytes) (set_vol : Z) : prog S :=
  switch (pmu_chip_id st) [
    (CFG_AXP858_POWER c, AXP858_CHIP_ID, axp858_set_sys_voltage_ext nm set_vol 1);
    (CFG_AXP81X_POWER c, AXP81X_CHIP_ID, axp81X_set_sys_voltage_ext nm set_vol 1);
    (CFG_AXP806_POWER c, AXP806_CHIP_ID, axp806_set_sys_voltage_ext nm set_vol 1);
    (CFG_AXP2101_POWER c, AXP2101_CHIP_ID, axp2101_set_sys_voltage_ext nm set_vol 1);
    (CFG_AXP2202_POWER c, AXP2202_CHIP_ID, axp2202_set_sys_voltage_ext (axp2202_runtime_addr st) nm set_vol 1);
    (CFG_AXP221_POWER c, AXP221_CHIP_ID, axp221_set_sys_voltage_ext nm set_vol 1);
    (CFG_AXP8191_POWER c, AXP8191_CHIP_ID, axp8191_set_sys_voltage_ext nm set_vol 1)
  ] (ret (-1)).

Definition close_sys_voltage_ext (nm : bytes) (set_vol : Z) : prog S :=
  switch (pmu_chip_id st) [
    (CFG_AXP2101_POWER c, AXP2101_CHIP_ID, axp2101_set_sys_voltage_ext nm set_vol 0)
  ] (ret (-1)).

Definition set_camera_voltage_ext (nm : bytes) (set_vol : Z) : prog S :=
  switch (pmu_chip_id st) [
    (CFG_AXP2202_POWER c, AXP2202_CHIP_ID, axp2202_set_sys_voltage_ext (axp2202_runtime_addr st) nm set_vol 1)
  ] (ret (-1)).

Definition set_ddr_voltage_ext (nm : bytes) (set_vol on : Z) : prog S :=
  switch (pmu_chip_id st) [
    (CFG_AXP8191_POWER c, AXP8191_CHIP_ID, axp8191_set_sys_voltage_ext nm set_vol on)
  ] (ret (-1)).

Definition set_voltage_ext (nm : bytes) (set_vol on : Z) : prog S :=
  switch (pmu_chip_id st) [
    (CFG_AXP858_POWER c, AXP858_CHIP_ID, axp858_set_sys_voltage_ext nm set_vol on);
    (CFG_AXP81X_POWER c, AXP81X_CHIP_ID, axp81X_set_sys_voltage_ext nm set_vol on);
    (CFG_AXP806_POWER c, AXP806_CHIP_ID, axp806_set_sys_voltage_ext nm set_vol on);
    (CFG_AXP2101_POWER c, AXP2101_CHIP_ID, axp2101_set_sys_voltage_ext nm set_vol on);
    (CFG_AXP2202_POWER c, AXP2202_CHIP_ID, axp2202_set_sys_voltage_ext (axp2202_runtime_addr st) nm set_vol on);
    (CFG_AXP221_POWER c, AXP221_CHIP_ID, axp221_set_sys_voltage_ext nm set_vol on);
    (CFG_AXP8191_POWER c, AXP8191_CHIP_ID, axp8191_set_sys_voltage_ext nm set_vol on)
  ] (ret (-1)).

Definition set_pll_voltage (set_vol : Z) : prog S :=
  switch (pmu_chip_id st) [
    (CFG_AXP858_POWER c, AXP858_CHIP_ID, axp858_set_pll_voltage set_vol);
    (CFG_AXP81X_POWER c, AXP81X_CHIP_ID, axp81X_set_pll_voltage set_vol);
    (CFG_AXP806_POWER c, AXP806_CHIP_ID, axp806_set_pll_voltage set_vol);
    (CFG_AXP809_POWER c, AXP809_CHIP_ID, axp809_set_pll_voltage set_vol);
    (CFG_AXP2101_POWER c, AXP2101_CHIP_ID, axp2101_set_pll_voltage set_vol);
    (CFG_AXP2202_POWER c, AXP2202_CHIP_ID, axp2202_set_pll_voltage (axp2202_runtime_addr st) set_vol);
    (CFG_AXP152_POWER c, AXP152_CHIP_ID, axp152_set_pll_voltage set_vol);
    (CFG_AXP1530_POWER c, AXP1530_CHIP_ID, axp1530_set_pll_voltage set_vol);
    (CFG_AXP221_POWER c, AXP221_CHIP_ID, axp221_set_pll_voltage set_vol);
    (CFG_AXP8191_POWER c, AXP8191_CHIP_ID, axp8191_set_pll_voltage set_vol)
  ] (ret (-1)).

Definition set_efuse_voltage (set_vol : Z) : prog S :=
  switch (pmu_chip_id st) [
    (CFG_AXP809_POWER c, AXP809_CHIP_ID, axp809_set_efuse_voltage set_vol);
    (CFG_AXP2101_POWER c, AXP2101_CHIP_ID, axp2101_set_efuse_voltage set_vol);
    (CFG_AXP2202_POWER c, AXP2202_CHIP_ID, axp2202_set_efuse_voltage (axp2202_runtime_addr st) set_vol);
    (CFG_AXP152_POWER c, AXP152_CHIP_ID, axp152_set_efuse_voltage set_vol);
    (CFG_AXP1530_POWER c, AXP1530_CHIP_ID, axp1530_set_efuse_voltage set_vol)
  ] (ret (-1)).

(** [val] is what the caller's variable holds before the call. *)
Definition axp_reg_read (addr val : Z) : S → S * (Z * Z) :=
  switch (pmu_chip_id st) [
    (CFG_AXP152_POWER c, AXP152_CHIP_ID, axp152_reg_read addr);
    (CFG_AXP1530_POWER c, AXP1530_CHIP_ID, axp1530_reg_read addr);
    (CFG_AXP2101_POWER c, AXP2101_CHIP_ID, axp2101_reg_read addr);
    (CFG_AXP806_POWER c, AXP806_CHIP_ID, axp806_reg_read addr);
    (CFG_AXP809_POWER c, AXP809_CHIP_ID, axp809_reg_read addr);
    (CFG_AXP81X_POWER c, AXP81X_CHIP_ID, axp81X_reg_read addr);
    (CFG_AXP858_POWER c, AXP858_CHIP_ID, axp858_reg_read addr);
    (CFG_AXP221_POWER c, AXP221_CHIP_ID, axp221_reg_read addr)
  ] (λ s, (s, (-1, val))).

Definition axp_reg_write (addr val : Z) : S → S * Z :=
  switch (pmu_chip_id st) [
    (CFG_AXP152_POWER c, AXP152_CHIP_ID, axp152_reg_write addr val);
    (CFG_AXP1530_POWER c, AXP1530_CHIP_ID, axp1530_reg_write addr val);
    (CFG_AXP2101_POWER c, AXP2101_CHIP_ID, axp2101_reg_write addr val);
    (CFG_AXP806_POWER c, AXP806_CHIP_ID, axp806_reg_write addr val);
    (CFG_AXP809_POWER c, AXP809_CHIP_ID, axp809_reg_write addr val);
    (CFG_AXP81X_POWER c, AXP81X_CHIP_ID, axp81X_reg_write addr val);
    (CFG_AXP858_POWER c, AXP858_CHIP_ID, axp858_reg_write addr val);
    (CFG_AXP221_POWER c, AXP221_CHIP_ID, axp221_reg_write addr val)
  ] (λ s, (s, -1)).

Definition get_pmu_exist : Z := pmu_chip_id st.
End dispatch.

(** ** Initialisation *)

(** The drivers, their identification numbers and their initialisation, which
    also yields the new [axp2202_runtime_addr]. *)
Inductive chip := CHIP_858 | CHIP_81X | CHIP_806 | CHIP_809 | CHIP_2101 | CHIP_2202 | CHIP_152 | CHIP_1530 | CHIP_221 | CHIP_8191.

Definition chip_id (k : chip) : Z :=
  match k with
  | CHIP_858 => AXP858_CHIP_ID
  | CHIP_81X => AXP81X_CHIP_ID
  | CHIP_806 => AXP806_CHIP_ID
  | CHIP_809 => AXP809_CHIP_ID
  | CHIP_2101 => AXP2101_CHIP_ID
  | CHIP_2202 => AXP2202_CHIP_ID
  | CHIP_152 => AXP152_CHIP_ID
  | CHIP_1530 => AXP1530_CHIP_ID
  | CHIP_221 => AXP221_CHIP_ID
  | CHIP_8191 => AXP8191_CHIP_ID
  end.

Definition chip_on (c : cfg) (k : chip) : bool :=
  match k with
  | CHIP_858 => CFG_AXP858_POWER c
  | CHIP_81X => CFG_AXP81X_POWER c
  | CHIP_806 => CFG_AXP806_POWER c
  | CHIP_809 => CFG_AXP809_POWER c
  | CHIP_2101 => CFG_AXP2101_POWER c
  | CHIP_2202 => CFG_AXP2202_POWER c
  | CHIP_152 => CFG_AXP152_POWER c
  | CHIP_1530 => CFG_AXP1530_POWER c
  | CHIP_221 => CFG_AXP221_POWER c
  | CHIP_8191 => CFG_AXP8191_POWER c
  end.

Section init.
Context {S : Type} `{I2cBus S}.

Definition chip_init (power_mode rt : Z) (k : chip) (s : S) : option (S * (Z * Z)) :=
  let keep (p : prog S) := '(s', r) ← p s; Some (s', (rt, r)) in
  match k with
  | CHIP_858 => keep (axp858_axp_init power_mode)
  | CHIP_81X => keep (axp81X_axp_init power_mode)
  | CHIP_806 => keep (axp806_axp_init power_mode)
  | CHIP_809 => keep (axp809_axp_init power_mode)
  | CHIP_2101 => keep (axp2101_axp_init power_mode)
  | CHIP_2202 => axp2202_axp_init power_mode s
  | CHIP_152 => keep (axp152_axp_init power_mode)
  | CHIP_1530 => keep (axp1530_axp_init power_mode)
  | CHIP_221 => keep (axp221_axp_init power_mode)
  | CHIP_8191 => keep (axp8191_axp_init power_mode)
  end.

(** The chain of [if (axpN_axp_init(power_mode) == AXPN_CHIP_ID) ... else]. *)
Fixpoint init_chain (c : cfg) (power_mode : Z) (ks : list chip) (rt : Z) (s : S) : option (S * axp_state * Z) :=
  match ks with
  | [] => Some (s, {| pmu_chip_id := -1; axp2202_runtime_addr := rt |}, -1)
  | k :: ks' =>
      if chip_on c k then
        '(s, (rt, r)) ← chip_init power_mode rt k s;
        if r =? chip_id k
        then Some (s, {| pmu_chip_id := chip_id k; axp2202_runtime_addr := rt |}, chip_id k)
        else init_chain c power_mode ks' rt s
      else init_chain c power_mode ks' rt s
  end.

(** The order of the source. *)
Definition chip_order : list chip :=
  [CHIP_858; CHIP_81X; CHIP_806; CHIP_809; CHIP_2101; CHIP_2202; CHIP_152; CHIP_1530; CHIP_221; CHIP_8191].

Definition axp_init (c : cfg) (st : axp_state) (power_mode : Z) (s : S) : option (S * axp_state * Z) :=
  init_chain c power_mode chip_order (axp2202_runtime_addr st) s.
End init.

(** ** The tables of all drivers *)

#[global] Instance axp_step_info_eq_dec : EqDecision axp_step_info.
Proof. solve_decision. Defined.

#[global] Instance axp_contrl_info_eq_dec : EqDecision axp_contrl_info.
Proof. solve_decision. Defined.

Definition driver_tables : list (list axp_contrl_info) :=
  [Axp858.axp_ctrl_tbl; Axp81X.axp_ctrl_tbl; Axp806.axp_ctrl_tbl; Axp809.axp_ctrl_tbl;
   Axp2101.axp_ctrl_tbl; Axp2202.axp_ctrl_tbl; Axp152.axp_ctrl_tbl; Axp1530.axp_ctrl_tbl;
   Axp221.axp_ctrl_tbl; Axp8191.axp_ctrl_tbl; Sy8827g.ext_ctrl_tbl; Tcs4838.tcs_ctrl_tbl].

(** The two entries whose limits exceed their steps. *)
Definition axp221_dcdc3 : axp_contrl_info :=
  Ctrl (lit "dcdc3") 600 1860 BOOT_POWER221_DC3OUT_VOL 0x3f BOOT_POWER221_OUTPUT_CTL1 3 0
    (steps [Step 600 1540 20 0]).

Definition axp809_aldo3 : axp_contrl_info :=
  Ctrl (lit "aldo3") 700 3300 BOOT_POWER809_ALDO3OUT_VOL 0x1f BOOT_POWER809_OUTPUT_CTL2 5 0
    (steps [Step 1000 2550 100 0]).

Definition table_entry_ok (t : list axp_contrl_info) (e : axp_contrl_info) : Prop :=
  get_ctrl_info_from_tbl t (name e) = Some (Some e) ∧
  (wf_ctrl e = true ∨ e = axp221_dcdc3 ∨ e = axp809_aldo3).

Lemma driver_tables_ok : Forall (λ t, Forall (table_entry_ok t) t) driver_tables.
Proof. unfold table_entry_ok. apply (bool_decide_unpack _). vm_compute. exact I. Qed.

Lemma table_entry_spec t e :
  t ∈ driver_tables → e ∈ t → e ≠ axp221_dcdc3 → e ≠ axp809_aldo3 →
  get_ctrl_info_from_tbl t (name e) = Some (Some e) ∧ wf_ctrl e = true.
Proof.
  intros Ht He H1 H2. pose proof driver_tables_ok as Hall.
  rewrite Forall_forall in Hall. specialize (Hall t Ht). rewrite Forall_forall in Hall.
  destruct (Hall e He) as [Hf [Hw|[Hb|Hb]]]; done.
Qed.

(** ** The drivers behind one interface *)

Inductive driver := DRV_AXP (k : chip) | DRV_SY8827G | DRV_TCS4838.

Definition driver_table (d : driver) : list axp_contrl_info :=
  match d with
  | DRV_AXP CHIP_858 => Axp858.axp_ctrl_tbl
  | DRV_AXP CHIP_81X => Axp81X.axp_ctrl_tbl
  | DRV_AXP CHIP_806 => Axp806.axp_ctrl_tbl
  | DRV_AXP CHIP_809 => Axp809.axp_ctrl_tbl
  | DRV_AXP CHIP_2101 => Axp2101.axp_ctrl_tbl
  | DRV_AXP CHIP_2202 => Axp2202.axp_ctrl_tbl
  | DRV_AXP CHIP_152 => Axp152.axp_ctrl_tbl
  | DRV_AXP CHIP_1530 => Axp1530.axp_ctrl_tbl
  | DRV_AXP CHIP_221 => Axp221.axp_ctrl_tbl
  | DRV_AXP CHIP_8191 => Axp8191.axp_ctrl_tbl
  | DRV_SY8827G => Sy8827g.ext_ctrl_tbl
  | DRV_TCS4838 => Tcs4838.tcs_ctrl_tbl
  end.

(** The bus address a driver uses; that of the AXP2202 is probed. *)
Definition driver_addr (rt : Z) (d : driver) : Z :=
  match d with
  | DRV_AXP CHIP_858 => AXP858_RUNTIME_ADDR
  | DRV_AXP CHIP_81X => AXP81X_RUNTIME_ADDR
  | DRV_AXP CHIP_806 => AXP806_RUNTIME_ADDR
  | DRV_AXP CHIP_809 => AXP809_RUNTIME_ADDR
  | DRV_AXP CHIP_2101 => AXP2101_RUNTIME_ADDR
  | DRV_AXP CHIP_2202 => rt
  | DRV_AXP CHIP_152 => AXP152_RUNTIME_ADDR
  | DRV_AXP CHIP_1530 => AXP1530_RUNTIME_ADDR
  | DRV_AXP CHIP_221 => AXP221_RUNTIME_ADDR
  | DRV_AXP CHIP_8191 => AXP8191_RUNTIME_ADDR
  | DRV_SY8827G => SY8827G_RUNTIME_ADDR
  | DRV_TCS4838 => TCS4838_RUNTIME_ADDR
  end.

(** The units of the table per millivolt: the external converters count in
    100 uV. *)
Definition driver_unit (d : driver) : Z :=
  match d with DRV_AXP _ => 1 | DRV_SY8827G | DRV_TCS4838 => 10 end.

(** The routine of each driver that programs a regulator once (the one under
    the ramp, in the drivers that have a ramp). *)
Definition driver_set {S} `{I2cBus S} (rt : Z) (d : driver) : bytes → Z → Z → prog S :=
  match d with
  | DRV_AXP CHIP_858 => Axp858.pmu_set_vol
  | DRV_AXP CHIP_81X => pmu_axp81X_set_vol
  | DRV_AXP CHIP_806 => Axp806.pmu_set_vol
  | DRV_AXP CHIP_809 => Axp809.pmu_set_vol
  | DRV_AXP CHIP_2101 => Axp2101.pmu_set_vol
  | DRV_AXP CHIP_2202 => Axp2202.pmu_set_vol rt
  | DRV_AXP CHIP_152 => pmu_axp152_set_vol
  | DRV_AXP CHIP_1530 => Axp1530.pmu_set_vol
  | DRV_AXP CHIP_221 => pmu_axp221_set_vol
  | DRV_AXP CHIP_8191 => Axp8191.pmu_set_vol
  | DRV_SY8827G => ext_set_vol
  | DRV_TCS4838 => tcs_set_vol
  end.

(** The registers it reads or writes: the entry's own two and, for the AXP221,
    one that is read at the end for a trace. *)
Definition driver_regs (d : driver) (e : axp_contrl_info) : list Z :=
  [cfg_reg_addr e; ctrl_reg_addr e] ++
    match d with DRV_AXP CHIP_221 => [BOOT_POWER221_DC5OUT_VOL] | _ => [] end.

Lemma driver_table_listed d : driver_table d ∈ driver_tables.
Proof. apply list_elem_of_In. destruct d as [[]| |]; cbn; tauto. Qed.

Section drivers.
Context {S : Type} `{RegisterBus S plain}.

(** What programming a regulator of bus address [a] must do. *)
Definition programs (a : Z) (e : axp_contrl_info) (v onoff : Z) (p : prog S) : Prop :=
  ∀ s, ∃ s' r, p s = Some (s', r) ∧ (r = 0 ∨ r = -1) ∧
    regs_kept (item_regs a e) s s' ∧ (r = 0 → vol_set a e v onoff s s').

Lemma vol_set_reg a e v onoff s s1 s2 :
  (∀ rt' r', reg s2 rt' r' = reg s1 rt' r') → vol_set a e v onoff s s1 → vol_set a e v onoff s s2.
Proof.
  intros Hk (Hv & Hon & Hb). unfold vol_set. rewrite !Hk. split; [done|]. split; [done|].
  intros rt' r n Hn Hne. rewrite Hk. by apply Hb.
Qed.

(** A read whose value is not used keeps the promise. *)
Lemma programs_then_read a e v onoff p x :
  programs a e v onoff p → plain a x →
  programs a e v onoff (r <- call p ;; if negb (r =? 0) || (onoff <? 0) then ret r else _v <- rd a x ;; ret 0).
Proof.
  intros Hp Hx s. destruct (Hp s) as (s1 & r & Hrun & Hr & Hk & Hv). unfold call. rewrite Hrun.
  destruct (negb (r =? 0) || (onoff <? 0)) eqn:Hend; [by exists s1, r|].
  apply orb_false_iff in Hend as [Hr0 _]. apply negb_false_iff, Z.eqb_eq in Hr0 as ->.
  unfold do_read, pmic_bus_read. destruct (i2c_read a x s1) as [s2 [st w]] eqn:Hrd.
  pose proof (read_frame _ _ _ _ _ _ Hrd Hx) as Hfr. exists s2, 0. split; [done|]. split; [by left|].
  split; [intros rt' r' Hne; rewrite Hfr; by apply Hk|].
  intros _. apply (vol_set_reg a e v onoff s s1); [exact Hfr|]. by apply Hv.
Qed.

Lemma set_vol_tbl_programs a t e v onoff :
  get_ctrl_info_from_tbl t (name e) = Some (Some e) → wf_ctrl e = true →
  plain a (cfg_reg_addr e) → plain a (ctrl_reg_addr e) → 0 < v →
  programs a e v onoff (set_vol_tbl a t (name e) v onoff).
Proof.
  intros Hf Hw Hpc Hpo Hv s. unfold set_vol_tbl. rewrite Hf.
  apply set_item_vol_spec; auto using wf_ctrl_good.
Qed.
End drivers.

(** ** Theorems *)



(** The dcdc3 entry of the AXP221 table admits requests up to 1860 mV but
    its steps end at 1540 mV: any request above that is accepted, returns
    success and programs index 0, the regulator's minimum of 600 mV. *)
Theorem axp221_dcdc3_falls_to_minimum {S : Type} `{RegisterBus S plain} v (s s' : S) :
  plain AXP221_RUNTIME_ADDR (cfg_reg_addr axp221_dcdc3) → 1540 < v →
  set_vol_tbl AXP221_RUNTIME_ADDR Axp221.axp_ctrl_tbl (lit "dcdc3") v (-1) s = Some (s', 0) →
  stored_index axp221_dcdc3 (reg s' AXP221_RUNTIME_ADDR (cfg_reg_addr axp221_dcdc3)) = 0 ∧
  supported axp221_dcdc3 !! 0%nat = Some 600.
Proof.
  intros Hp Hv Hrun. split; [|vm_compute; reflexivity].
  unfold set_vol_tbl in Hrun.
  replace (get_ctrl_info_from_tbl _ _) with (Some (Some axp221_dcdc3)) in Hrun by (vm_compute; reflexivity).
  unfold set_item_vol in Hrun. destruct (Z.ltb_spec 0 v); [|lia]. cbn [min_vol axp221_dcdc3 Z.eqb negb andb] in Hrun.
  set (e := axp221_dcdc3) in *.
  match type of Hrun with check_read _ _ ?k _ = _ => set (K := k) in Hrun end.
  destruct (check_read_spec AXP221_RUNTIME_ADDR (cfg_reg_addr e) K s Hp) as (s1 & Hk1 & [Hr|Hr]);
    rewrite Hr in Hrun; [done|]. clear Hr. unfold K in Hrun. clear K.
  set (x := reg s AXP221_RUNTIME_ADDR (cfg_reg_addr e)) in Hrun.
  assert (∀ w r, 1540 < w → step_loop e (axp_step_tbl e) 0 w r = Some r) as Hloop.
  { intros w r Hw. cbn -[Z.ltb Z.leb program_code]. destruct (Z.ltb_spec 1540 w); [|lia]. sbind.
    destruct (Z.ltb_spec w 0); [lia|]. destruct (Z.leb_spec w 1540); [lia|]. done. }
  rewrite Hloop in Hrun.
  2:{ unfold clamp_vol. cbn [min_vol max_vol e axp221_dcdc3]. repeat case_match; bool_to_prop; lia. }
  destruct (check_write_spec AXP221_RUNTIME_ADDR (cfg_reg_addr e) (u8 (Z.land x (Z.lnot (cfg_reg_mask e))))
    (set_onoff AXP221_RUNTIME_ADDR e (-1)) s1 Hp (u8_bound _)) as (s2 & Hk2 & [Hw|[Hw Hval]]);
    rewrite Hw in Hrun; [done|]. cbn in Hrun. injection Hrun as <-. rewrite Hval.
  rewrite stored_index_flip by (split; vm_compute; reflexivity || discriminate). unfold flip_field, field_of. cbn [polarity regation]. change (neg_of e) with false. cbn [Z.b2z Z.eqb].
  bits_ext n Hn. change (reg_addr_offest e) with 0. change (cfg_reg_mask e) with (Z.ones 6).
  rewrite Z.shiftr_0_r, Z.land_spec, testbit_u8, Z.land_spec, Z.lnot_spec, Z.bits_0 by done.
  destruct (Z.testbit (Z.ones 6) n); cbn [negb]; rewrite ?andb_false_r; done.
Qed.

Lemma axp221_dcdc3_falls_to_minimum_witness :
  ∃ s', set_vol_tbl AXP221_RUNTIME_ADDR Axp221.axp_ctrl_tbl (lit "dcdc3") 1600 (-1)
          (Sim {[(AXP221_RUNTIME_ADDR, BOOT_POWER221_DC3OUT_VOL) := 0x2f]} []) = Some (s', 0) ∧
    stored_index axp221_dcdc3 (reg s' AXP221_RUNTIME_ADDR BOOT_POWER221_DC3OUT_VOL) = 0.
Proof.
  eexists. split; [vm_compute; reflexivity|].
  eapply (axp221_dcdc3_falls_to_minimum (S := sim) 1600
    (Sim {[(AXP221_RUNTIME_ADDR, BOOT_POWER221_DC3OUT_VOL) := 0x2f]} [])); [exact I|lia|vm_compute; reflexivity].
Defined.

(** Setting the eFuse voltage of the AXP152 always reads past the end of
    the aldo1 step table: all four of its elements are in use, so the search
    for the smallest step has no terminator to stop at, whatever the bus
    does. *)
Theorem axp152_efuse_overruns_table {S : Type} `{I2cBus S} v (s : S) :
  axp152_set_efuse_voltage v s = None.
Proof.
  unfold axp152_set_efuse_voltage, Axp152.pmu_set_vol, ramp_vol_tbl, call.
  destruct (get_vol_tbl _ _ _ s) as [[s1 src]|]; [|done].
  replace (get_ctrl_info_from_tbl Axp152.axp_ctrl_tbl (lit "aldo1")) with (Some (nth_error Axp152.axp_ctrl_tbl 4))
    by (vm_compute; reflexivity).
  cbn. done.
Qed.

(** A request of 700 to 999 mV on the aldo3 entry of the AXP809 table
    passes the clamp although its only step starts at 1000 mV; the unsigned
    difference wraps and the write also sets bits outside the regulator's
    field. *)
Theorem axp809_aldo3_spills :
  ∃ s', set_vol_tbl AXP809_RUNTIME_ADDR Axp809.axp_ctrl_tbl (lit "aldo3") 800 (-1) (Sim ∅ []) = Some (s', 0) ∧
    Z.land (sim_reg s' AXP809_RUNTIME_ADDR BOOT_POWER809_ALDO3OUT_VOL) (Z.lnot 0x1f) ≠ 0.
Proof. eexists. split; [vm_compute; reflexivity|]. vm_compute. discriminate. Qed.

(** *** The chip behind the dispatcher *)

Section selected.
Context {S : Type} `{I2cBus S} (c : cfg) (st : axp_state).

Definition drv_pll (k : chip) (v : Z) : prog S :=
  match k with
  | CHIP_858 => axp858_set_pll_voltage v
  | CHIP_81X => axp81X_set_pll_voltage v
  | CHIP_806 => axp806_set_pll_voltage v
  | CHIP_809 => axp809_set_pll_voltage v
  | CHIP_2101 => axp2101_set_pll_voltage v
  | CHIP_2202 => axp2202_set_pll_voltage (axp2202_runtime_addr st) v
  | CHIP_152 => axp152_set_pll_voltage v
  | CHIP_1530 => axp1530_set_pll_voltage v
  | CHIP_221 => axp221_set_pll_voltage v
  | CHIP_8191 => axp8191_set_pll_voltage v
  end.

Definition drv_sys (k : chip) (v : Z) : prog S :=
  match k with
  | CHIP_858 => axp858_set_sys_voltage v 1
  | CHIP_81X => axp81X_set_sys_voltage v 1
  | CHIP_806 => axp806_set_sys_voltage v 1
  | CHIP_809 => axp809_set_sys_voltage v 1
  | CHIP_2101 => axp2101_set_sys_voltage v 1
  | CHIP_2202 => axp2202_set_sys_voltage (axp2202_runtime_addr st) v 1
  | CHIP_152 => axp152_set_sys_voltage v 1
  | CHIP_1530 => axp1530_set_sys_voltage v 1
  | CHIP_221 => axp221_set_sys_voltage v 1
  | CHIP_8191 => axp8191_set_sys_voltage v 1
  end.

Definition drv_ddr (k : chip) (v : Z) : prog S :=
  match k with
  | CHIP_858 => axp858_set_ddr_voltage v
  | CHIP_81X => axp81X_set_ddr_voltage v
  | CHIP_806 => axp806_set_ddr_voltage v
  | CHIP_809 => axp809_set_ddr_voltage v
  | CHIP_2101 => axp2101_set_ddr_voltage v
  | CHIP_2202 => axp2202_set_ddr_voltage (axp2202_runtime_addr st) v
  | CHIP_152 => axp152_set_ddr_voltage v
  | CHIP_1530 => axp1530_set_ddr_voltage v
  | CHIP_221 => axp221_set_ddr_voltage v
  | CHIP_8191 => axp8191_set_ddr_voltage v
  end.

(** The switches reach the driver whose number is recorded. *)
Lemma dispatch_selected k pm v :
  pmu_chip_id st = chip_id k → chip_on c k = true →
  set_pll_voltage c st v = drv_pll k v ∧ set_sys_voltage c st v = drv_sys k v ∧
  set_ddr_voltage c st pm v = drv_ddr k v.
Proof.
  intros Hid Hon. unfold set_pll_voltage, set_sys_voltage, set_ddr_voltage. rewrite Hid.
  destruct k; cbn in Hon |- *; rewrite !andb_false_r, Hon; done.
Qed.
End selected.

Lemma init_chain_spec {S : Type} `{I2cBus S} c pm ks rt (s : S) s' st' r :
  init_chain c pm ks rt s = Some (s', st', r) →
  pmu_chip_id st' = r ∧
  (r = -1 ∨ ∃ k, chip_on c k = true ∧ r = chip_id k ∧
     ∃ rt0 s0, chip_init pm rt0 k s0 = Some (s', (axp2202_runtime_addr st', chip_id k))).
Proof.
  revert rt s. induction ks as [|k ks IH]; intros rt s Hrun; cbn [init_chain] in Hrun.
  { injection Hrun as <- <- <-. auto. }
  destruct (chip_on c k) eqn:Hon; [|by apply IH in Hrun].
  destruct (chip_init pm rt k s) as [[s1 [rt1 r1]]|] eqn:Hinit; [|done]. cbn in Hrun.
  destruct (Z.eqb_spec r1 (chip_id k)) as [->|Hne]; [|by apply IH in Hrun].
  injection Hrun as <- <- <-. split; [done|]. right. exists k. eauto 10.
Qed.

(** [axp_init] records in [pmu_chip_id] the number it returns; unless that
    is -1 it belongs to a compiled-in driver whose own initialisation has just
    recognised its chip, and from then on the processor, system and DRAM
    voltage entry points call exactly that driver. *)
Theorem axp_init_selects {S : Type} `{I2cBus S} c st pm (s s' : S) st' r :
  axp_init c st pm s = Some (s', st', r) →
  get_pmu_exist st' = r ∧
  (r = -1 ∨ ∃ k, chip_on c k = true ∧ r = chip_id k ∧
     (∃ rt0 s0, chip_init pm rt0 k s0 = Some (s', (axp2202_runtime_addr st', chip_id k))) ∧
     ∀ pm' v, set_pll_voltage (S := S) c st' v = drv_pll st' k v ∧
              set_sys_voltage (S := S) c st' v = drv_sys st' k v ∧
              set_ddr_voltage (S := S) c st' pm' v = drv_ddr st' k v).
Proof.
  intros Hrun. apply init_chain_spec in Hrun as [Hid Hsel]. split; [done|].
  destruct Hsel as [|(k & Hon & Hr & Hinit)]; [by left|right].
  exists k. do 3 (split; [done|]). intros pm' v. apply dispatch_selected; congruence.
Qed.

(** A board with an AXP2101 and an AXP152 driver, and an AXP152 on the bus. *)
Definition ex_cfg : cfg := {|
  CFG_AXP858_POWER := false;
  CFG_AXP81X_POWER := false;
  CFG_AXP806_POWER := false;
  CFG_AXP809_POWER := false;
  CFG_AXP2101_POWER := true;
  CFG_AXP2202_POWER := false;
  CFG_AXP152_POWER := true;
  CFG_AXP1530_POWER := false;
  CFG_AXP221_POWER := false;
  CFG_AXP8191_POWER := false;
|}.

Lemma axp_init_selects_witness :
  ∃ s' st', axp_init ex_cfg {| pmu_chip_id := 0; axp2202_runtime_addr := 0 |} 0
      (Sim {[(AXP152_RUNTIME_ADDR, AXP152_VERSION) := 0x15]} []) = Some (s', st', AXP152_CHIP_ID) ∧
    get_pmu_exist st' = AXP152_CHIP_ID.
Proof.
  destruct (axp_init ex_cfg {| pmu_chip_id := 0; axp2202_runtime_addr := 0 |} 0
      (Sim {[(AXP152_RUNTIME_ADDR, AXP152_VERSION) := 0x15]} [])) as [[[s' st'] r]|] eqn:Hrun;
    [|vm_compute in Hrun; discriminate].
  destruct (axp_init_selects _ _ _ _ _ _ _ Hrun) as [Hid _].
  assert (r = AXP152_CHIP_ID) as -> by (vm_compute in Hrun; injection Hrun as _ _ <-; reflexivity).
  eauto.
Defined.
