(* ===== verification/Checksum.v ===== *)
(** * Image checksums (spl/common/boot_utils.c)

    The additive checksum over 32-bit words that guards the boot packages:
    the scalar [verify_addsum] with its four-word unrolled do-while loop, its
    NEON variant, the kernel variant and [sunxi_generate_checksum]; and the
    division helper and function mask of the same file.  Memory is the list
    of words from the image's base to the end of mapped memory; a word read
    beyond it is a fault ([None]).

    The theorems: both variants compute the same sum and restore the header;
    a sealed image verifies; every change of a single word is detected; an
    image shorter than 16 bytes makes the scalar loop run away. *)

From S2P Require Import Prelude.

Local Open Scope Z_scope.
Local Open Scope c_scope.

(** ** Data *)

Abbreviation words := (list Z).

Definition STAMP_VALUE : Z := 0x5F0A6C39.

(** Word index of [add_sum] in [sbrom_toc1_head_info_t]: 16 bytes of name and
    the magic come first. *)
Definition add_sum_idx : nat := 5.

(** ** verify_addsum, scalar *)

(** [do { sum += *buf++; (four times) } while ((count -= 4) > 3);] on an
    unsigned counter; the result is the sum, the pointer and the counter. *)
Fixpoint sum4_loop (sum : Z) (buf : words) (count : Z) {struct buf} : option (Z * words * Z) :=
  match buf with
  | a :: b :: c :: d :: buf' =>
      let sum := sum ⊞ a ⊞ b ⊞ c ⊞ d in
      let count := count ⊟ 4 in
      if 3 <? count then sum4_loop sum buf' count else Some (sum, buf', count)
  | _ => None
  end.

(** [while (count-- > 0) sum += *buf++;] *)
Fixpoint sum_tail (sum : Z) (buf : words) (count : Z) {struct buf} : option Z :=
  if count =? 0 then Some sum
  else match buf with
       | [] => None
       | a :: buf' => sum_tail (sum ⊞ a) buf' (count - 1)
       end.

Definition sum_scalar (buf : words) (count : Z) : option Z :=
  '(sum, buf, count) ← sum4_loop 0 buf count; sum_tail sum buf count.

(** The memory after the call and the result. *)
Definition verify_addsum (mem : words) (size : Z) : option (words * Z) :=
  src_sum ← mem !! add_sum_idx;
  let mem1 := <[add_sum_idx := STAMP_VALUE]> mem in
  sum ← sum_scalar mem1 (Z.shiftr size 2);
  Some (<[add_sum_idx := src_sum]> mem1, if sum =? src_sum then 0 else -1).

(** ** verify_addsum, NEON *)

Definition vec4 : Type := Z * Z * Z * Z.

Definition vaddq_u32 (x y : vec4) : vec4 :=
  let '(x0, x1, x2, x3) := x in let '(y0, y1, y2, y3) := y in
  (x0 ⊞ y0, x1 ⊞ y1, x2 ⊞ y2, x3 ⊞ y3).

(** [while (count >= 4)]: load a vector, add, advance. *)
Fixpoint neon_loop (sum_vec : vec4) (buf : words) (count : Z) {struct buf} : option (vec4 * words * Z) :=
  if 4 <=? count then
    match buf with
    | a :: b :: c :: d :: buf' => neon_loop (vaddq_u32 sum_vec (a, b, c, d)) buf' (count - 4)
    | _ => None
    end
  else Some (sum_vec, buf, count).

Definition sum_neon (buf : words) (count : Z) : option Z :=
  '(sum_vec, buf, count) ← neon_loop (0, 0, 0, 0) buf count;
  let '(l0, l1, l2, l3) := sum_vec in
  sum_tail (0 ⊞ l0 ⊞ l1 ⊞ l2 ⊞ l3) buf count.

Definition verify_addsum_neon (mem : words) (size : Z) : option (words * Z) :=
  src_sum ← mem !! add_sum_idx;
  let mem1 := <[add_sum_idx := STAMP_VALUE]> mem in
  sum ← sum_neon mem1 (Z.shiftr size 2);
  Some (<[add_sum_idx := src_sum]> mem1, if sum =? src_sum then 0 else -1).

(** ** The other sums *)

Definition verify_addsum_for_kernel (mem : words) (size src_sum : Z) : option Z :=
  sum ← sum_scalar mem (Z.shiftr size 2);
  Some (if sum =? src_sum then 0 else -1).

(** [count] is an [int] here and goes down by [4 * div] per four words. *)
Fixpoint gen_loop (div sum : Z) (buf : words) (count : Z) {struct buf} : option (Z * words * Z) :=
  match buf with
  | a :: b :: c :: d :: buf' =>
      let sum := sum ⊞ a ⊞ b ⊞ c ⊞ d in
      let count := s32 (count - 4 * div) in
      if 3 <? count then gen_loop div sum buf' count else Some (sum, buf', count)
  | _ => None
  end.

(** [while (count-- > 0)] on an [int]. *)
Definition gen_tail (sum : Z) (buf : words) (count : Z) : option Z :=
  sum_tail sum buf (Z.max count 0).

Definition sunxi_generate_checksum (buffer : words) (length div src_sum : Z) : option Z :=
  '(sum, buf, count) ← gen_loop div 0 buffer (Z.shiftr length 2);
  sum ← gen_tail sum buf count;
  Some (sum ⊟ src_sum ⊞ STAMP_VALUE).

Definition sunxi_verify_checksum (buffer : words) (length src_sum : Z) : option Z :=
  sum ← sunxi_generate_checksum buffer length 1 src_sum;
  Some (if sum =? src_sum then 0 else -1).

(** ** g_mod and the function mask *)

(** The subtraction loop; [quot] is the caller's [*quot_p]. *)
Fixpoint g_mod_loop (fuel : nat) (dividend divisor quot : Z) : option (Z * Z) :=
  match fuel with
  | O => None
  | S f =>
      if divisor <=? dividend then g_mod_loop f (dividend - divisor) divisor (quot ⊞ 1)
      else Some (dividend, quot)
  end.

(** The remainder and [*quot_p]; at most [dividend] subtractions. *)
Definition g_mod (dividend divisor : Z) : option (Z * Z) :=
  if divisor =? 0 then Some (0, 0)
  else if divisor =? 1 then Some (0, dividend)
  else g_mod_loop (S (Z.to_nat dividend)) dividend divisor 0.

Definition set_uboot_func_mask (uboot_func_mask mask : Z) : Z := Z.lor uboot_func_mask mask.
Definition get_uboot_func_mask (uboot_func_mask mask : Z) : Z := Z.land uboot_func_mask mask.

(** ** Reference: the sum of a list of words modulo 2^32 *)

Definition wsum (l : words) : Z := u32 (foldr Z.add 0 l).

(** ** Lemmas *)

Lemma foldr_add a l : foldr Z.add a l = foldr Z.add 0 l + a.
Proof. induction l as [|x l IH]; simpl; [lia|]. rewrite IH. lia. Qed.

Lemma wsum_app l1 l2 : wsum (l1 ++ l2) = u32 (wsum l1 + wsum l2).
Proof. unfold wsum. rewrite foldr_app, u32_add_l, u32_add_r, foldr_add. done. Qed.

Lemma sum_tail_spec sum l rest :
  sum_tail (u32 sum) (l ++ rest) (Z.of_nat (length l)) = Some (u32 (sum + foldr Z.add 0 l)).
Proof.
  revert sum. induction l as [|a l IH]; intros sum.
  - cbn [app length foldr]. rewrite Z.add_0_r. by destruct rest.
  - cbn [app sum_tail]. rewrite length_cons. destruct (Z.eqb_spec (Z.of_nat (S (length l))) 0); [lia|].
    replace (Z.of_nat (S (length l)) - 1) with (Z.of_nat (length l)) by lia.
    rewrite u32_add_l, IH. cbn [foldr]. do 2 f_equal. lia.
Qed.

Lemma sum4_u32 sum a b c d : u32 sum ⊞ a ⊞ b ⊞ c ⊞ d = u32 (sum + (a + (b + (c + d)))).
Proof.
  rewrite (u32_add_l sum a), (u32_add_l (sum + a) b), (u32_add_l (sum + a + b) c),
    (u32_add_l (sum + a + b + c) d). f_equal. lia.
Qed.

(** Both loops reduce to the sum of the words they consume. *)
Lemma sum4_loop_spec sum l rest :
  (4 <= length l)%nat → Z.of_nat (length l) < 2 ^ 32 →
  ∃ l1 l2, l = l1 ++ l2 ∧ (length l2 < 4)%nat ∧
    sum4_loop (u32 sum) (l ++ rest) (Z.of_nat (length l)) =
    Some (u32 (sum + foldr Z.add 0 l1), l2 ++ rest, Z.of_nat (length l2)).
Proof.
  change (2 ^ 32) with 4294967296. intros H4 H32. remember (length l) as n eqn:Hn.
  revert l sum Hn H4 H32. induction n as [n IH] using lt_wf_ind. intros l sum Hn H4 H32.
  do 4 (destruct l as [|? l]; [simpl in Hn; lia|]). simpl in Hn.
  cbn [app sum4_loop]. rewrite sum4_u32.
  rewrite u32_small by (unfold is_u32; lia).
  destruct (Z.ltb_spec 3 (Z.of_nat n - 4)) as [Hgo|Hstop].
  - destruct (IH (length l) ltac:(lia) l (sum + (z + (z0 + (z1 + z2)))) eq_refl ltac:(lia) ltac:(lia))
      as (l1 & l2 & -> & Hl2 & Hrun).
    exists (z :: z0 :: z1 :: z2 :: l1), l2. split; [done|]. split; [done|].
    replace (Z.of_nat n - 4) with (Z.of_nat (length (l1 ++ l2))) by lia.
    rewrite Hrun. cbn [foldr]. do 3 f_equal. f_equal. lia.
  - exists [z; z0; z1; z2], l. split; [done|]. split; [lia|]. cbn [foldr]. do 3 f_equal; [|lia].
    f_equal. lia.
Qed.

Lemma sum_scalar_spec l rest :
  (4 <= length l)%nat → Z.of_nat (length l) < 2 ^ 32 →
  sum_scalar (l ++ rest) (Z.of_nat (length l)) = Some (wsum l).
Proof.
  intros H4 H32. destruct (sum4_loop_spec 0 l rest H4 H32) as (l1 & l2 & Hl & Hl2 & Hrun).
  unfold sum_scalar. change 0 with (u32 0). rewrite Hrun. sbind. rewrite sum_tail_spec.
  rewrite Hl, wsum_app. unfold wsum. by rewrite u32_add_l, u32_add_r.
Qed.

(** Fewer than four words: the counter wraps and the loop leaves the memory. *)
Lemma sum4_loop_runs_away sum buf count :
  Z.of_nat (length buf) <= count → count < 2 ^ 32 → 0 <= count →
  7 < count - Z.of_nat (length buf) → sum4_loop sum buf count = None.
Proof.
  change (2 ^ 32) with 4294967296. remember (length buf) as n eqn:Hn.
  revert buf sum count Hn. induction n as [n IH] using lt_wf_ind. intros buf sum count Hn Hle H32 H0 Hgap.
  do 4 (destruct buf as [|? buf]; [done|]). simpl in Hn. cbn [sum4_loop].
  rewrite (u32_small (count - 4)) by (unfold is_u32; lia).
  destruct (Z.ltb_spec 3 (count - 4)); [|lia]. apply (IH (length buf)); [lia|done|lia|lia|lia|lia].
Qed.

Lemma sum4_loop_short sum buf count :
  0 <= count < 4 → Z.of_nat (length buf) <= 2 ^ 32 - 16 → sum4_loop sum buf count = None.
Proof.
  change (2 ^ 32) with 4294967296. intros Hc Hlen. do 4 (destruct buf as [|? buf]; [done|]).
  rewrite !length_cons in Hlen. cbn [sum4_loop].
  assert (u32 (count - 4) = 4294967296 + count - 4) as -> by (unfold u32; zmod).
  destruct (Z.ltb_spec 3 (4294967296 + count - 4)); [|lia].
  apply sum4_loop_runs_away; lia.
Qed.

Definition vtotal (v : vec4) : Z := let '(x0, x1, x2, x3) := v in x0 + x1 + x2 + x3.

Lemma vtotal_add v a b c d :
  u32 (vtotal (vaddq_u32 v (a, b, c, d))) = u32 (vtotal v + (a + (b + (c + d)))).
Proof. destruct v as [[[x0 x1] x2] x3]. unfold vaddq_u32, vtotal, u32. zmod. Qed.

Lemma neon_loop_spec v l rest :
  ∃ v' l1 l2, l = l1 ++ l2 ∧ (length l2 < 4)%nat ∧
    neon_loop v (l ++ rest) (Z.of_nat (length l)) = Some (v', l2 ++ rest, Z.of_nat (length l2)) ∧
    u32 (vtotal v') = u32 (vtotal v + foldr Z.add 0 l1).
Proof.
  remember (length l) as n eqn:Hn. revert l v Hn.
  induction n as [n IH] using lt_wf_ind. intros l v Hn. destruct (decide (n < 4)%nat) as [Hlt|Hge].
  { exists v, [], l. split; [done|]. split; [lia|]. cbn [foldr]. rewrite Z.add_0_r, Hn. split; [|done].
    destruct (l ++ rest); cbn [neon_loop]; destruct (Z.leb_spec 4 (Z.of_nat (length l))); done || lia. }
  do 4 (destruct l as [|? l]; [simpl in Hn; lia|]). simpl in Hn. cbn [app neon_loop].
  destruct (Z.leb_spec 4 (Z.of_nat n)); [|lia].
  destruct (IH (length l) ltac:(lia) l (vaddq_u32 v (z, z0, z1, z2)) eq_refl)
    as (v' & l1 & l2 & -> & Hl2 & Hrun & Htot).
  exists v', (z :: z0 :: z1 :: z2 :: l1), l2. split; [done|]. split; [done|].
  replace (Z.of_nat n - 4) with (Z.of_nat (length (l1 ++ l2))) by lia. split; [done|].
  rewrite Htot, <- u32_add_l, vtotal_add, u32_add_l. cbn [foldr]. f_equal. lia.
Qed.

Lemma sum_neon_spec l rest : sum_neon (l ++ rest) (Z.of_nat (length l)) = Some (wsum l).
Proof.
  destruct (neon_loop_spec (0, 0, 0, 0) l rest) as (v & l1 & l2 & Hl & Hl2 & Hrun & Htot).
  unfold sum_neon. rewrite Hrun. sbind. destruct v as [[[x0 x1] x2] x3].
  assert (0 ⊞ x0 ⊞ x1 ⊞ x2 ⊞ x3 = u32 (foldr Z.add 0 l1)) as ->.
  { change 0 with (u32 0) at 1. rewrite sum4_u32. etransitivity; [|etransitivity; [exact Htot|]];
      f_equal; unfold vtotal; lia. }
  rewrite sum_tail_spec. unfold wsum. rewrite Hl, foldr_app, (foldr_add (foldr _ _ l2)). done.
Qed.

Lemma gen_loop_1 sum buf count :
  4 <= count < 2 ^ 31 → gen_loop 1 sum buf count = sum4_loop sum buf count.
Proof.
  change (2 ^ 31) with 2147483648. remember (length buf) as n eqn:Hn. revert buf sum count Hn.
  induction n as [n IH] using lt_wf_ind. intros buf sum count Hn Hc.
  do 4 (destruct buf as [|? buf]; [done|]). simpl in Hn. cbn [gen_loop sum4_loop].
  rewrite s32_small, (u32_small (count - 4)) by (unfold is_u32; lia). rewrite Z.mul_1_r.
  destruct (Z.ltb_spec 3 (count - 4)); [|done]. apply (IH (length buf)); [lia|done|lia].
Qed.

Lemma wsum_insert l i x y : l !! i = Some y → wsum (<[i := x]> l) = u32 (wsum l - y + x).
Proof.
  intros Hi. unfold wsum. rewrite insert_take_drop by (by eapply lookup_lt_Some).
  rewrite <- (take_drop_middle l i y Hi) at 3.
  rewrite !foldr_app. cbn [foldr]. rewrite !(foldr_add (_ + _)).
  unfold u32. zmod.
Qed.

Lemma shiftr2 size : Z.shiftr size 2 = size / 4.
Proof. apply (Z.shiftr_div_pow2 size 2). lia. Qed.

(** The whole of [verify_addsum]: the result and the restored memory. *)
Definition image_words (mem : words) (size : Z) : words :=
  take (Z.to_nat (size / 4)) (<[add_sum_idx := STAMP_VALUE]> mem).

Lemma split_image mem size :
  0 <= size → size / 4 <= Z.of_nat (length mem) →
  <[add_sum_idx := STAMP_VALUE]> mem =
    image_words mem size ++ drop (Z.to_nat (size / 4)) (<[add_sum_idx := STAMP_VALUE]> mem) ∧
  Z.of_nat (length (image_words mem size)) = size / 4.
Proof.
  intros H0 Hle. unfold image_words. split; [by rewrite take_drop|].
  rewrite length_take, length_insert. assert (0 <= size / 4) by (apply Z.div_pos; lia). lia.
Qed.

Lemma insert_restore (mem : words) i y x : mem !! i = Some y → <[i := y]> (<[i := x]> mem) = mem.
Proof. intros Hi. rewrite list_insert_insert_eq. by apply list_insert_id. Qed.

Lemma verify_addsum_spec mem size y :
  mem !! add_sum_idx = Some y → 16 <= size < 2 ^ 32 → size / 4 <= Z.of_nat (length mem) →
  verify_addsum mem size = Some (mem, if wsum (image_words mem size) =? y then 0 else -1).
Proof.
  intros Hy Hsz Hle. unfold verify_addsum. rewrite Hy. sbind. rewrite shiftr2.
  destruct (split_image mem size) as [Hsp Hlen]; [lia|done|]. rewrite Hsp at 1. rewrite <- Hlen.
  assert (4 <= size / 4 < 2 ^ 32) by (change (2 ^ 32) with 4294967296 in *; zmod).
  rewrite sum_scalar_spec by lia. sbind. by rewrite insert_restore.
Qed.

Lemma verify_addsum_neon_spec mem size y :
  mem !! add_sum_idx = Some y → 0 <= size < 2 ^ 32 → size / 4 <= Z.of_nat (length mem) →
  verify_addsum_neon mem size = Some (mem, if wsum (image_words mem size) =? y then 0 else -1).
Proof.
  intros Hy Hsz Hle. unfold verify_addsum_neon. rewrite Hy. sbind. rewrite shiftr2.
  destruct (split_image mem size) as [Hsp Hlen]; [lia|done|]. rewrite Hsp at 1. rewrite <- Hlen.
  rewrite sum_neon_spec. sbind. by rewrite insert_restore.
Qed.

Lemma g_mod_loop_spec fuel dividend divisor quot :
  0 < divisor → 0 <= dividend → dividend / divisor < Z.of_nat fuel →
  0 <= quot → quot + dividend / divisor < 2 ^ 32 →
  g_mod_loop fuel dividend divisor quot = Some (dividend mod divisor, quot + dividend / divisor).
Proof.
  change (2 ^ 32) with 4294967296. revert dividend quot.
  induction fuel as [|f IH]; intros dividend quot Hd Hn Hf Hq Hb.
  { assert (0 <= dividend / divisor) by (apply Z.div_pos; lia). lia. }
  cbn [g_mod_loop]. destruct (Z.leb_spec divisor dividend) as [Hle|Hgt].
  - assert (dividend / divisor = (dividend - divisor) / divisor + 1) as Hdiv.
    { replace dividend with (dividend - divisor + 1 * divisor) at 1 by lia. apply Z.div_add. lia. }
    assert (0 <= (dividend - divisor) / divisor) by (apply Z.div_pos; lia).
    rewrite u32_small by (unfold is_u32; lia). rewrite IH by lia. do 2 f_equal; [|lia].
    replace dividend with (dividend - divisor + 1 * divisor) at 2 by lia. by rewrite Z.mod_add by lia.
  - by rewrite Z.mod_small, Z.div_small, Z.add_0_r by lia.
Qed.

(** ** Theorems *)

(** On every image of at least 16 bytes inside mapped memory the scalar
    and the NEON [verify_addsum] agree: each leaves memory exactly as it found
    it and returns 0 if and only if the sum modulo 2^32 of the image's words,
    with the stamp in place of the checksum field, is the checksum field. *)
Theorem verify_addsum_scalar_neon mem size y :
  mem !! add_sum_idx = Some y → 16 <= size < 2 ^ 32 → size / 4 <= Z.of_nat (length mem) →
  verify_addsum mem size = verify_addsum_neon mem size ∧
  verify_addsum mem size = Some (mem, if wsum (image_words mem size) =? y then 0 else -1).
Proof.
  intros Hy Hsz Hle. rewrite (verify_addsum_spec mem size y), (verify_addsum_neon_spec mem size y); auto with lia.
Qed.

Lemma verify_addsum_scalar_neon_witness :
  verify_addsum [1; 2; 3; 4; 5; 0x5F0A6C39 + 36; 6; 7; 8] 36 = Some ([1; 2; 3; 4; 5; 0x5F0A6C39 + 36; 6; 7; 8], 0).
Proof.
  rewrite (proj2 (verify_addsum_scalar_neon [1; 2; 3; 4; 5; 0x5F0A6C39 + 36; 6; 7; 8] 36 (0x5F0A6C39 + 36) eq_refl ltac:(lia) ltac:(vm_compute; discriminate))).
  vm_compute. reflexivity.
Defined.

(** C24: an image whose checksum field holds the stamped sum of its words
    verifies, and changing any single other word of it to a different value
    makes the verification fail. *)
Theorem verify_addsum_seals mem size i w x :
  16 <= size < 2 ^ 32 → size / 4 <= Z.of_nat (length mem) → 5 < size / 4 →
  mem !! add_sum_idx = Some (wsum (image_words mem size)) →
  (i ≠ add_sum_idx) → Z.of_nat i < size / 4 → mem !! i = Some w → is_u32 w → is_u32 x → x ≠ w →
  verify_addsum mem size = Some (mem, 0) ∧
  verify_addsum (<[i := x]> mem) size = Some (<[i := x]> mem, -1).
Proof.
  intros Hsz Hle H5 Hsum Hi Hin Hw Hwu Hxu Hne.
  rewrite (verify_addsum_spec mem size _ Hsum Hsz Hle), Z.eqb_refl. split; [done|].
  rewrite (verify_addsum_spec (<[i := x]> mem) size (wsum (image_words mem size))).
  - do 2 f_equal. destruct (Z.eqb_spec (wsum (image_words (<[i := x]> mem) size)) (wsum (image_words mem size))) as [He|]; [|done].
    exfalso. apply Hne. unfold image_words in He.
    rewrite list_insert_insert_ne in He by done. rewrite take_insert_lt in He by lia.
    rewrite (wsum_insert _ i x w) in He.
    2:{ rewrite lookup_take_lt by lia. by rewrite list_lookup_insert_ne. }
    pose proof (u32_bound (foldr Z.add 0 (take (Z.to_nat (size / 4)) (<[add_sum_idx:=STAMP_VALUE]> mem)))) as Hb.
    change (is_u32 (wsum (take (Z.to_nat (size / 4)) (<[add_sum_idx:=STAMP_VALUE]> mem)))) in Hb.
    set (W := wsum _) in *. clearbody W. unfold is_u32, u32 in *. zmod.
  - by rewrite list_lookup_insert_ne.
  - done.
  - by rewrite length_insert.
Qed.

Lemma verify_addsum_seals_witness :
  let mem := [1; 2; 3; 4; 5; 0x5F0A6C39 + 36; 6; 7; 8] in
  verify_addsum mem 36 = Some (mem, 0) ∧ verify_addsum (<[2%nat := 9]> mem) 36 = Some (<[2%nat := 9]> mem, -1).
Proof.
  intros mem. apply (verify_addsum_seals mem 36 2 3 9); unfold is_u32, add_sum_idx; simpl; try lia; try done.
Defined.

(** For an image of fewer than 16 bytes the word counter of the scalar
    [verify_addsum] is below four when the unrolled loop subtracts four: it
    wraps, and the loop reads on through the whole address space instead of
    stopping at the image's end. *)
Theorem verify_addsum_short_overruns mem size :
  0 <= size < 16 → Z.of_nat (length mem) <= 2 ^ 30 → verify_addsum mem size = None.
Proof.
  intros Hsz Hlen. unfold verify_addsum. destruct (mem !! add_sum_idx); [|done]. sbind.
  unfold sum_scalar. rewrite shiftr2, sum4_loop_short; [done|zmod|]. rewrite length_insert.
  change (2 ^ 30) with 1073741824 in Hlen. lia.
Qed.

Lemma verify_addsum_short_overruns_witness : verify_addsum (replicate 64 0) 12 = None.
Proof. apply verify_addsum_short_overruns; [lia|]. rewrite length_replicate. lia. Defined.

(** [sunxi_generate_checksum] with [div = 1] returns the sum of the
    buffer's words with the stamp in place of the given checksum, so that
    [sunxi_verify_checksum] accepts a buffer exactly when its checksum was
    made that way. *)
Theorem generate_verify_checksum l rest src :
  (4 <= length l)%nat → 4 * Z.of_nat (length l) < 2 ^ 31 → is_u32 src →
  sunxi_generate_checksum (l ++ rest) (4 * Z.of_nat (length l)) 1 src = Some (u32 (wsum l - src + STAMP_VALUE)) ∧
  sunxi_verify_checksum (l ++ rest) (4 * Z.of_nat (length l)) src =
    Some (if u32 (wsum l - src + STAMP_VALUE) =? src then 0 else -1).
Proof.
  intros H4 H31 Hsrc.
  assert (sunxi_generate_checksum (l ++ rest) (4 * Z.of_nat (length l)) 1 src =
    Some (u32 (wsum l - src + STAMP_VALUE))) as Hgen.
  { unfold sunxi_generate_checksum. rewrite shiftr2.
    replace (4 * Z.of_nat (length l) / 4) with (Z.of_nat (length l)) by zmod.
    rewrite gen_loop_1 by lia. destruct (sum4_loop_spec 0 l rest) as (l1 & l2 & Hl & _ & Hrun); [lia|lia|].
    change 0 with (u32 0) at 1. rewrite Hrun. sbind. unfold gen_tail.
    rewrite Z.max_l by lia. rewrite sum_tail_spec. sbind.
    rewrite !u32_add_l. unfold wsum.
    by rewrite Hl, foldr_app, (foldr_add (foldr _ _ l2)). }
  unfold sunxi_verify_checksum. rewrite Hgen. done.
Qed.

Lemma generate_verify_checksum_witness :
  sunxi_generate_checksum ([1; 2; 3; 4; 5] ++ [9]) 20 1 3 = Some (12 + STAMP_VALUE).
Proof. apply (generate_verify_checksum [1; 2; 3; 4; 5] [9] 3); unfold is_u32; simpl; lia. Defined.

(** [g_mod] terminates and returns the remainder and the quotient of a
    division by repeated subtraction; a zero divisor gives zero for both. *)
Theorem g_mod_divides dividend divisor :
  is_u32 dividend → 0 <= divisor →
  g_mod dividend divisor =
    Some (if divisor =? 0 then 0 else dividend mod divisor, dividend / divisor).
Proof.
  unfold is_u32. intros Hn Hd. unfold g_mod. destruct (Z.eqb_spec divisor 0) as [->|].
  { by rewrite Z.div_0_r. }
  destruct (Z.eqb_spec divisor 1) as [->|]; [by rewrite Z.mod_1_r, Z.div_1_r|].
  assert (dividend / divisor <= dividend) by (apply Z.div_le_upper_bound; nia).
  rewrite g_mod_loop_spec; [by rewrite Z.add_0_l|lia|lia|lia|lia|].
  change (2 ^ 32) with 4294967296. lia.
Qed.

Lemma g_mod_divides_witness : g_mod 1000 7 = Some (6, 142).
Proof. rewrite g_mod_divides; [reflexivity|unfold is_u32; lia|lia]. Defined.
