(* ===== verification/Heap.v ===== *)
(** * The boot heap (spl/common/malloc.c)

    A first-fit allocator over one region: a singly linked list of headers
    ([alloc_struct_t]) kept inside the heap memory itself, between two static
    nodes.  The model runs on the byte memory of [Mem]: a header is sixteen
    little-endian bytes at its address, so that a client that writes outside
    its block, or an allocation that overlaps a header, really changes the
    list.  Pointers and [phys_addr_t] are 32 bits wide; the arithmetic of the
    code wraps.

    [heap_rep] says that the list in memory represents a list of blocks, each
    behind its header, disjoint and in address order.  The theorems: every
    sequence of allocations, releases, reallocations and writes by a client
    inside its own blocks keeps [heap_rep], and the blocks of the list are the
    blocks the client holds; [malloc] is first fit and fails
    only when no gap is large enough; [realloc] keeps the contents; and the
    four ways in which the code goes wrong (a moved block placed in the gap
    before the old one is lost, an enlargement that fits the rounding is not
    counted, sizes near 2^32 wrap, and the cache-line configuration overlaps
    the next header). *)

From S2P Require Import Prelude Mem.

Local Open Scope Z_scope.
Local Open Scope c_scope.

(** ** Data *)

(** Where the linker put the two static nodes, and the optional
    [CFG_RISCV_CACHE_LINE]. *)
Class heap_layout := HeapLayout {
  boot_heap_head : Z;
  boot_heap_tail : Z;
  cache_line : option Z
}.

(** [sizeof(struct alloc_struct_t)] and the offsets of its fields. *)
Definition sizeof_node : Z := 16.
Definition off_address : Z := 0.
Definition off_size : Z := 4.
Definition off_o_size : Z := 8.
Definition off_next : Z := 12.

Definition rd32 (m : mem) (a : Z) : option Z := le_val <$> load_n 4 m a.
Definition wr32 (m : mem) (a v : Z) : option mem := store_n m a (le_bytes 4 v).

Section code.
Context `{L : heap_layout}.

Definition MY_BYTE_ALIGN (x : Z) : Z :=
  let c := default 16 cache_line in (x ⊞ (c - 1)) / c * c.

(** ** malloc_init *)

Definition malloc_init (m : mem) (pHeapHead nHeapSize : Z) : option mem :=
  m ← wr32 m (boot_heap_tail + off_size) 0;
  m ← wr32 m (boot_heap_head + off_size) 0;
  m ← wr32 m (boot_heap_head + off_address) pHeapHead;
  m ← wr32 m (boot_heap_tail + off_address) (pHeapHead ⊞ nHeapSize);
  m ← wr32 m (boot_heap_head + off_next) boot_heap_tail;
  wr32 m (boot_heap_tail + off_next) 0.

(** ** malloc *)

(** The scan for a gap; the result is the node before it, or the last node. *)
Fixpoint malloc_scan (fuel : nat) (m : mem) (ptr actual_bytes : Z) : option Z :=
  match fuel with
  | O => None
  | S f =>
      nxt ← rd32 m (ptr + off_next);
      if nxt =? 0 then Some ptr
      else
        next_address ← rd32 m (nxt + off_address);
        a ← rd32 m (ptr + off_address);
        s ← rd32 m (ptr + off_size);
        if u32 (a + s + 2 * sizeof_node + actual_bytes) <=? next_address then Some ptr
        else malloc_scan f m nxt actual_bytes
  end.

(** A list without a cycle has fewer nodes than memory has bytes. *)
Definition scan_fuel (m : mem) : nat := S (size m).

Definition malloc (m : mem) (num_bytes : Z) : option (mem * Z) :=
  if num_bytes =? 0 then Some (m, 0)
  else
    let actual_bytes := MY_BYTE_ALIGN num_bytes in
    ptr ← malloc_scan (scan_fuel m) m boot_heap_head actual_bytes;
    nxt ← rd32 m (ptr + off_next);
    if nxt =? 0 then Some (m, 0)
    else
      a ← rd32 m (ptr + off_address);
      s ← rd32 m (ptr + off_size);
      let newptr := a ⊞ s in
      if newptr =? 0 then Some (m, 0)
      else
        let addr := u32 (a + s + sizeof_node) in
        let addr := match cache_line with Some _ => MY_BYTE_ALIGN addr | None => addr end in
        m ← wr32 m (newptr + off_address) addr;
        m ← wr32 m (newptr + off_size) actual_bytes;
        m ← wr32 m (newptr + off_o_size) num_bytes;
        pn ← rd32 m (ptr + off_next);
        m ← wr32 m (newptr + off_next) pn;
        m ← wr32 m (ptr + off_next) newptr;
        r ← rd32 m (newptr + off_address);
        Some (m, r).

(** ** free and realloc *)

(** The search of both: the node before the one whose address is [p], or the
    last node. *)
Fixpoint find_prev (fuel : nat) (m : mem) (ptr p : Z) : option Z :=
  match fuel with
  | O => None
  | S f =>
      nxt ← rd32 m (ptr + off_next);
      if nxt =? 0 then Some ptr
      else
        next_address ← rd32 m (nxt + off_address);
        if next_address =? p then Some ptr else find_prev f m nxt p
  end.

Definition free (m : mem) (p : Z) : option mem :=
  if p =? 0 then Some m
  else
    prev ← find_prev (scan_fuel m) m boot_heap_head p;
    ptr ← rd32 m (prev + off_next);
    if ptr =? 0 then Some m
    else nxt ← rd32 m (ptr + off_next); wr32 m (prev + off_next) nxt.

Definition realloc (m : mem) (p num_bytes : Z) : option (mem * Z) :=
  if p =? 0 then malloc m num_bytes
  else if num_bytes =? 0 then Some (m, p)
  else
    prev ← find_prev (scan_fuel m) m boot_heap_head p;
    ptr ← rd32 m (prev + off_next);
    if ptr =? 0 then Some (m, 0)
    else
      o_size ← rd32 m (ptr + off_o_size);
      let actual_bytes := MY_BYTE_ALIGN (o_size ⊞ num_bytes) in
      psize ← rd32 m (ptr + off_size);
      if actual_bytes =? psize then Some (m, p)
      else
        nxt ← rd32 m (ptr + off_next);
        next_address ← rd32 m (nxt + off_address);
        address ← rd32 m (ptr + off_address);
        if u32 (address + actual_bytes + 2 * sizeof_node) <=? next_address then
          m ← wr32 m (ptr + off_size) actual_bytes;
          m ← wr32 m (ptr + off_o_size) (o_size ⊞ num_bytes);
          Some (m, p)
        else
          '(m, tmp) ← malloc m actual_bytes;
          if tmp =? 0 then Some (m, 0)
          else
            address ← rd32 m (ptr + off_address);
            psize ← rd32 m (ptr + off_size);
            m ← memcpy m tmp address psize;
            nxt ← rd32 m (ptr + off_next);
            m ← wr32 m (prev + off_next) nxt;
            Some (m, tmp).

End code.

(** ** Words in memory *)

(** The memory after a word store that does not fault. *)
Definition w32 (m : mem) (a v : Z) : mem := write_bytes m a (le_bytes 4 v).

Lemma wr32_mapped m a v : mapped m a 4 → wr32 m a v = Some (w32 m a v).
Proof. intros H. unfold wr32. by rewrite store_n_spec by (by rewrite length_le_bytes). Qed.

Lemma lookup_w32_out m a v x : x < a ∨ a + 4 <= x → w32 m a v !! x = m !! x.
Proof. intros H. apply lookup_write_out. by rewrite length_le_bytes. Qed.

Lemma rd32_ext m1 m2 a : (∀ x, a <= x < a + 4 → m1 !! x = m2 !! x) → rd32 m1 a = rd32 m2 a.
Proof. intros H. unfold rd32. by rewrite (load_n_ext 4 m1 m2 a). Qed.

Lemma rd32_w32_eq m a v : is_u32 v → rd32 (w32 m a v) a = Some v.
Proof.
  intros H. unfold rd32, w32. rewrite <- (length_le_bytes 4 v) at 1. rewrite load_write_eq.
  change (Some (le_val (le_bytes 4 v)) = Some v). by rewrite le_val_bytes.
Qed.

Lemma rd32_w32_ne m a v b : a + 4 <= b ∨ b + 4 <= a → rd32 (w32 m a v) b = rd32 m b.
Proof. intros H. apply rd32_ext. intros x Hx. apply lookup_w32_out. lia. Qed.

Lemma mapped_w32 m a n b v : mapped m a n → mapped (w32 m b v) a n.
Proof. apply mapped_write. Qed.

Create HintDb heap.
#[export] Hint Resolve mapped_w32 mapped_write : heap.

(** One store of the code into a mapped range. *)
Ltac wr_step H :=
  rewrite wr32_mapped by (repeat apply mapped_w32; eapply mapped_sub; [exact H|lia..]); sbind.

(** ** Headers *)

(** The four fields of the node at [p]. *)
Definition node_at (m : mem) (p a s o nx : Z) : Prop :=
  rd32 m (p + off_address) = Some a ∧ rd32 m (p + off_size) = Some s ∧
  rd32 m (p + off_o_size) = Some o ∧ rd32 m (p + off_next) = Some nx.

Definition same_at (m m' : mem) (p n : Z) : Prop := ∀ x, p <= x < p + n → m' !! x = m !! x.

Lemma node_at_same m m' p a s o nx : same_at m m' p 16 → node_at m p a s o nx → node_at m' p a s o nx.
Proof.
  unfold node_at, off_address, off_size, off_o_size, off_next. intros H.
  rewrite !(rd32_ext m' m) by (intros; apply H; lia). done.
Qed.

Lemma same_w32 m a v p n : a + 4 <= p ∨ p + n <= a → same_at m (w32 m a v) p n.
Proof. intros H x Hx. apply lookup_w32_out. lia. Qed.

Lemma same_trans m1 m2 m3 p n : same_at m1 m2 p n → same_at m2 m3 p n → same_at m1 m3 p n.
Proof. intros H1 H2 x Hx. rewrite H2, H1; auto. Qed.

(** The four stores that make a header. *)
Definition put_node (m : mem) (p a s o nx : Z) : mem :=
  w32 (w32 (w32 (w32 m (p + off_address) a) (p + off_size) s) (p + off_o_size) o) (p + off_next) nx.

Lemma node_at_put m p a s o nx :
  is_u32 a → is_u32 s → is_u32 o → is_u32 nx → node_at (put_node m p a s o nx) p a s o nx.
Proof.
  intros. unfold node_at, put_node, off_address, off_size, off_o_size, off_next.
  repeat split; repeat first [rewrite rd32_w32_eq by done | rewrite rd32_w32_ne by lia]; done.
Qed.

Lemma same_put m p a s o nx q n : p + 16 <= q ∨ q + n <= p → same_at m (put_node m p a s o nx) q n.
Proof.
  intros H. unfold put_node, off_address, off_size, off_o_size, off_next.
  repeat (eapply same_trans; [|apply same_w32; lia]). done.
Qed.

Lemma mapped_put m p a s o nx q n : mapped m q n → mapped (put_node m p a s o nx) q n.
Proof. intros H. unfold put_node. auto with heap. Qed.
#[export] Hint Resolve mapped_put : heap.

Lemma node_at_set_next m p a s o nx nx' :
  is_u32 nx' → node_at m p a s o nx → node_at (w32 m (p + off_next) nx') p a s o nx'.
Proof.
  unfold node_at, off_address, off_size, off_o_size, off_next. intros Hn (?&?&?&?).
  rewrite rd32_w32_eq by done. rewrite !rd32_w32_ne by lia. done.
Qed.

(** ** Lists of blocks *)

(** A block: its header, its address, the size it got and the size asked. *)
Record blk := Blk { hdr : Z; adr : Z; sz : Z; osz : Z }.

#[global] Instance blk_eq_dec : EqDecision blk.
Proof. solve_decision. Defined.

(** In address order from [lo], each behind its header, aligned, and large
    enough for what was asked. *)
Fixpoint wfl (lo : Z) (l : list blk) : Prop :=
  match l with
  | [] => True
  | b :: l' =>
      lo <= hdr b ∧ hdr b mod 16 = 0 ∧ adr b = hdr b + 16 ∧
      sz b mod 16 = 0 ∧ (0 < osz b ∧ osz b <= sz b < osz b + 16) ∧ wfl (adr b + sz b) l'
  end.

Fixpoint end_of (lo : Z) (l : list blk) : Z :=
  match l with
  | [] => lo
  | b :: l' => end_of (adr b + sz b) l'
  end.

Definition first (l : list blk) (t : Z) : Z := match l with [] => t | b :: _ => hdr b end.

(** The nodes of [l] are linked in memory, the last one to [t]. *)
Fixpoint linked (m : mem) (l : list blk) (t : Z) : Prop :=
  match l with
  | [] => True
  | b :: l' => node_at m (hdr b) (adr b) (sz b) (osz b) (first l' t) ∧ linked m l' t
  end.

Lemma wfl_app lo l1 l2 : wfl lo (l1 ++ l2) ↔ wfl lo l1 ∧ wfl (end_of lo l1) l2.
Proof. revert lo. induction l1 as [|b l1 IH]; intros lo; simpl; [tauto|]. rewrite IH. tauto. Qed.

Lemma end_of_app lo l1 l2 : end_of lo (l1 ++ l2) = end_of (end_of lo l1) l2.
Proof. revert lo. induction l1; simpl; auto. Qed.

Lemma first_app l1 l2 t : first (l1 ++ l2) t = first l1 (first l2 t).
Proof. by destruct l1. Qed.

Lemma linked_app m l1 l2 t : linked m (l1 ++ l2) t ↔ linked m l1 (first l2 t) ∧ linked m l2 t.
Proof. induction l1 as [|b l1 IH]; simpl; [tauto|]. rewrite IH, first_app. tauto. Qed.

Lemma linked_same m m' l t :
  (∀ b, b ∈ l → same_at m m' (hdr b) 16) → linked m l t → linked m' l t.
Proof.
  induction l as [|b l IH]; simpl; [done|]. intros H [Hn Hl]. split.
  - eapply node_at_same; [|exact Hn]. apply H. constructor.
  - apply IH; [|done]. intros c Hc. apply H. by constructor.
Qed.

Lemma wfl_end lo l : wfl lo l → lo <= end_of lo l.
Proof.
  revert lo. induction l as [|b l IH]; simpl; intros lo H; [lia|].
  destruct H as (?&?&?&?&?&H). apply IH in H. lia.
Qed.

Lemma wfl_mem lo l b :
  wfl lo l → b ∈ l →
  lo <= hdr b ∧ hdr b mod 16 = 0 ∧ adr b = hdr b + 16 ∧ sz b mod 16 = 0 ∧ (0 < osz b ∧ osz b <= sz b < osz b + 16) ∧
  adr b + sz b <= end_of lo l.
Proof.
  revert lo. induction l as [|c l IH]; simpl; intros lo H Hb; [by apply elem_of_nil in Hb|].
  destruct H as (?&?&?&?&?&H). pose proof (wfl_end _ _ H).
  apply elem_of_cons in Hb as [->|Hb]; [lia|]. destruct (IH _ H Hb) as (?&?&?&?&?&?). lia.
Qed.

Lemma wfl_pair lo l x c :
  wfl lo l → x ∈ l → c ∈ l → x = c ∨ adr x + sz x <= hdr c ∨ adr c + sz c <= hdr x.
Proof.
  revert lo. induction l as [|b l IH]; simpl; intros lo H Hx Hc; [by apply elem_of_nil in Hx|].
  destruct H as (?&?&?&?&?&H).
  apply elem_of_cons in Hx as [->|Hx]; apply elem_of_cons in Hc as [->|Hc]; [by left|..|eauto].
  - destruct (wfl_mem _ _ _ H Hc) as (?&?&?&?&?&?). lia.
  - destruct (wfl_mem _ _ _ H Hx) as (?&?&?&?&?&?). lia.
Qed.

Lemma wfl_fresh lo l1 c l2 : wfl lo (l1 ++ c :: l2) → c ∉ l1 ++ l2.
Proof.
  intros Hwf Hc. apply wfl_app in Hwf as [H1 (?&?&?&?&?&H2)]. apply elem_of_app in Hc as [Hc|Hc].
  - destruct (wfl_mem _ _ _ H1 Hc) as (?&?&?&?&?&?). lia.
  - destruct (wfl_mem _ _ _ H2 Hc) as (?&?&?&?&?&?). lia.
Qed.

Definition sep (b c : blk) : Prop := hdr b + 16 <= hdr c ∨ hdr c + 16 <= hdr b.

(** Redirecting the link of [q]. *)
Lemma relink m N1 q M N2 t :
  linked m (N1 ++ q :: M) t → linked m N2 t → (∀ c, c ∈ N1 ++ N2 → sep q c) → is_u32 (first N2 t) →
  linked (w32 m (hdr q + off_next) (first N2 t)) (N1 ++ q :: N2) t.
Proof.
  intros Hl H2 Hsep Hu.
  assert (∀ c, c ∈ N1 ++ N2 → same_at m (w32 m (hdr q + off_next) (first N2 t)) (hdr c) 16) as Hs.
  { intros c Hc. apply same_w32. unfold off_next. destruct (Hsep c Hc); lia. }
  apply linked_app in Hl as [Hl1 [Hq _]]. apply linked_app. split; [|split].
  - eapply linked_same; [|exact Hl1]. intros b Hb. apply Hs, elem_of_app. auto.
  - by eapply node_at_set_next.
  - eapply linked_same; [|exact H2]. intros b Hb. apply Hs, elem_of_app. auto.
Qed.

(** The last node of [q :: l]. *)
Fixpoint last_node (q : blk) (l : list blk) : blk :=
  match l with
  | [] => q
  | b :: l' => last_node b l'
  end.

Lemma last_node_split q l : ∃ N1, q :: l = N1 ++ [last_node q l].
Proof.
  revert q. induction l as [|b l IH]; intros q; [by exists []|].
  destruct (IH b) as [N1 E]. exists (q :: N1). simpl. by rewrite <- E.
Qed.

Lemma end_of_last q l : end_of (adr q + sz q) l = adr (last_node q l) + sz (last_node q l).
Proof. revert q. induction l as [|b l IH]; intros q; simpl; auto. Qed.

(** ** The represented heap *)

Section rep.
Context `{L : heap_layout} (base limit : Z).

(** Where the region and the two static nodes lie. *)
Record heap_room : Prop := {
  room_head : 0 < boot_heap_head ∧ boot_heap_head + 16 < 2 ^ 32;
  room_tail : 0 < boot_heap_tail ∧ boot_heap_tail + 16 < 2 ^ 32;
  room_statics : boot_heap_head + 16 <= boot_heap_tail ∨ boot_heap_tail + 16 <= boot_heap_head;
  room_head_out : boot_heap_head + 16 <= base ∨ limit <= boot_heap_head;
  room_tail_out : boot_heap_tail + 16 <= base ∨ limit <= boot_heap_tail;
  room_base : 0 < base ∧ base mod 16 = 0 ∧ base <= limit ∧ limit < 2 ^ 32
}.

Definition head_blk (o : Z) : blk := Blk boot_heap_head base 0 o.

(** Memory [m] holds a heap whose live blocks are [l]. *)
Record heap_rep (m : mem) (l : list blk) : Prop := {
  rep_room : heap_room;
  rep_map_head : mapped m boot_heap_head 16;
  rep_map_tail : mapped m boot_heap_tail 16;
  rep_map : mapped m base (limit - base);
  rep_wf : wfl base l;
  rep_end : end_of base l <= limit;
  rep_tail : ∃ o, node_at m boot_heap_tail limit 0 o 0;
  rep_links : ∃ o, linked m (head_blk o :: l) boot_heap_tail
}.

(** The specification of the search: the first place where a block of [need]
    bytes, its header and one more header fit. *)
Fixpoint first_gap (lo need : Z) (l : list blk) : option (list blk * list blk) :=
  if lo + 32 + need <=? match l with [] => limit | b :: _ => adr b end then Some ([], l)
  else match l with
       | [] => None
       | b :: l' => '(l1, l2) ← first_gap (adr b + sz b) need l'; Some (b :: l1, l2)
       end.

Lemma first_gap_split lo need l l1 l2 :
  first_gap lo need l = Some (l1, l2) →
  l = l1 ++ l2 ∧ end_of lo l1 + 32 + need <= match l2 with [] => limit | b :: _ => adr b end.
Proof.
  revert lo l1 l2. induction l as [|b l IH]; intros lo l1 l2 H; cbn [first_gap] in H.
  - destruct (Z.leb_spec (lo + 32 + need) limit); [|done]. injection H as [= <- <-]. done.
  - destruct (Z.leb_spec (lo + 32 + need) (adr b)); [injection H as [= <- <-]; done|].
    apply bind_Some_inv in H as ([g1 g2] & Hg & H). injection H as [= <- <-].
    by apply IH in Hg as [-> ?].
Qed.

(** Headers do not touch each other. *)
Lemma nodes_apart m l o N1 q N2 c :
  heap_rep m l → head_blk o :: l = N1 ++ q :: N2 → c ∈ N1 ++ N2 → sep q c.
Proof.
  intros [[? ? ? ? ? ?] ? ? ? Hwf Hend _ _] E Hc. unfold sep.
  destruct N1 as [|h N1]; simpl in E; injection E as <- ->.
  - destruct (wfl_mem _ _ _ Hwf Hc) as (?&?&?&?&?&?). simpl. lia.
  - apply wfl_app in Hwf as [H1 [? H2]]. rewrite end_of_app in Hend. simpl in Hend.
    destruct H2 as (?&?&?&?&H2). pose proof (wfl_end _ _ H1). pose proof (wfl_end _ _ H2).
    simpl in Hc. apply elem_of_cons in Hc as [->|Hc]; [simpl; lia|].
    apply elem_of_app in Hc as [Hc|Hc].
    + destruct (wfl_mem _ _ _ H1 Hc) as (?&?&?&?&?&?). lia.
    + destruct (wfl_mem _ _ _ H2 Hc) as (?&?&?&?&?&?). lia.
Qed.

(** No header lies in a block's payload. *)
Lemma payload_apart m l o x c :
  heap_rep m l → x ∈ head_blk o :: l → c ∈ l → hdr x + 16 <= adr c ∨ adr c + sz c <= hdr x.
Proof.
  intros [[? ? ? ? ? ?] ? ? ? Hwf Hend _ _] Hx Hc.
  destruct (wfl_mem _ _ _ Hwf Hc) as (?&?&?&?&?&?).
  apply elem_of_cons in Hx as [->|Hx]; [simpl; lia|].
  destruct (wfl_mem _ _ _ Hwf Hx) as (?&?&?&?&?&?).
  destruct (wfl_pair _ _ _ _ Hwf Hx Hc) as [->|[|]]; lia.
Qed.

(** The fields of a live block's header. *)
Lemma rep_fields m l b :
  heap_rep m l → b ∈ l → rd32 m (hdr b + off_address) = Some (adr b) ∧ rd32 m (hdr b + off_size) = Some (sz b).
Proof.
  intros [_ _ _ _ _ _ _ (o & Hl)] Hb. apply list_elem_of_split in Hb as (k1 & k2 & ->).
  rewrite app_comm_cons in Hl. by apply linked_app in Hl as [_ [(?&?&_) _]].
Qed.

Lemma rep_first_u32 m l1 l2 : heap_rep m (l1 ++ l2) → 0 < first l2 boot_heap_tail ∧ is_u32 (first l2 boot_heap_tail).
Proof.
  intros [[? ? ? ? ? ?] ? ? ? Hwf Hend _ _]. unfold is_u32. change (2 ^ 32) with 4294967296 in *.
  apply wfl_app in Hwf as [Hw1 Hwf]. rewrite end_of_app in Hend. apply wfl_end in Hw1.
  destruct l2 as [|b l2]; simpl in *; [lia|].
  destruct Hwf as (?&?&?&?&?&Hwf). apply wfl_end in Hwf. lia.
Qed.

(** The list is shorter than memory is large. *)
Lemma rep_fuel m l : heap_rep m l → (length l + 2 <= scan_fuel m)%nat.
Proof.
  intros Hrep. unfold scan_fuel. cut (length (hdr <$> head_blk 0 :: l) <= size m)%nat.
  { rewrite length_fmap. simpl. lia. }
  assert (NoDup (hdr <$> head_blk 0 :: l)) as Hnd.
  { apply NoDup_alt. intros i j x Hi Hj. destruct (decide (i = j)) as [|Hij]; [done|exfalso].
    rewrite list_lookup_fmap in Hi, Hj. apply fmap_Some in Hi as (b & Hi & ->), Hj as (c & Hj & E).
    pose proof (take_drop_middle _ _ _ Hi) as Hspl. symmetry in Hspl.
    assert (c ∈ take i (head_blk 0 :: l) ++ drop (S i) (head_blk 0 :: l)) as Hc.
    { apply elem_of_app. destruct (decide (j < i)%nat).
      - left. apply list_elem_of_lookup. exists j. by rewrite lookup_take_lt.
      - right. apply list_elem_of_lookup. exists (j - S i)%nat. rewrite lookup_drop.
        by replace (S i + (j - S i))%nat with j by lia. }
    destruct (nodes_apart _ _ _ _ _ _ _ Hrep Hspl Hc); lia. }
  rewrite <- (size_list_to_set (C := gset Z)) by exact Hnd. rewrite <- (size_dom (D := gset Z)).
  apply subseteq_size. intros x Hx. apply elem_of_list_to_set, list_elem_of_fmap in Hx as (b & -> & Hb).
  apply elem_of_dom. destruct Hrep as [[? ? ? ? ? ?] Hmh ? Hm Hwf Hend _ _].
  apply elem_of_cons in Hb as [->|Hb]; [apply Hmh; simpl; lia|].
  destruct (wfl_mem _ _ _ Hwf Hb) as (?&?&?&?&?&?). apply Hm. lia.
Qed.

Section spec.
Context (Hcl : cache_line = None).

Lemma malloc_scan_spec fuel m q l o need :
  node_at m boot_heap_tail limit 0 o 0 → linked m (q :: l) boot_heap_tail → 0 < boot_heap_tail →
  wfl (adr q + sz q) l → end_of (adr q + sz q) l <= limit → 0 <= need → 0 < adr q + sz q →
  limit + 32 + need < 2 ^ 32 → (length l + 2 <= fuel)%nat →
  malloc_scan fuel m (hdr q) need =
    Some (match first_gap (adr q + sz q) need l with
          | Some (l1, _) => hdr (last_node q l1)
          | None => boot_heap_tail
          end).
Proof.
  change (2 ^ 32) with 4294967296. intros (Hta&Hts&_&Htn) Hl Ht Hwf Hend Hn Hlo Hlim. revert q l Hl Hwf Hend Hlo.
  induction fuel as [|fuel IH]; intros q l Hl Hwf Hend Hlo Hfuel; [lia|].
  destruct Hl as [(Ha&Hs&_&Hnx) Hl]. cbn [malloc_scan]. rewrite Hnx. sbind.
  pose proof (wfl_end _ _ Hwf). destruct l as [|b l]; cbn [first first_gap] in *.
  - destruct (Z.eqb_spec boot_heap_tail 0) as [|_]; [lia|]. rewrite Hta, Ha, Hs. sbind.
    unfold sizeof_node. rewrite u32_small by (unfold is_u32; simpl in Hend; lia).
    replace (adr q + sz q + 2 * 16 + need) with (adr q + sz q + 32 + need) by lia.
    destruct (Z.leb_spec (adr q + sz q + 32 + need) limit); [done|].
    destruct fuel as [|fuel]; [simpl in Hfuel; lia|]. cbn [malloc_scan]. by rewrite Htn.
  - pose proof Hl as [(Hba&_) _]. destruct Hwf as (?&?&?&?&?&Hwf). pose proof (wfl_end _ _ Hwf). simpl in Hend.
    destruct (Z.eqb_spec (hdr b) 0) as [|_]; [lia|]. rewrite Hba, Ha, Hs. sbind.
    unfold sizeof_node. rewrite u32_small by (unfold is_u32; lia).
    replace (adr q + sz q + 2 * 16 + need) with (adr q + sz q + 32 + need) by lia.
    destruct (Z.leb_spec (adr q + sz q + 32 + need) (adr b)); [done|].
    rewrite (IH b l); [|done..|lia|simpl in Hfuel; lia].
    destruct (first_gap (adr b + sz b) need l) as [[l1 l2]|]; done.
Qed.

Lemma align_spec x : 0 <= x → x + 15 < 2 ^ 32 →
  MY_BYTE_ALIGN x mod 16 = 0 ∧ x <= MY_BYTE_ALIGN x < x + 16.
Proof.
  change (2 ^ 32) with 4294967296. intros H0 H1. unfold MY_BYTE_ALIGN. rewrite Hcl. simpl.
  rewrite u32_small by (unfold is_u32; lia). zmod.
Qed.

(** A request whose sums do not wrap. *)
Definition request_ok (n : Z) : Prop := 0 < n ∧ limit + n + 47 < 2 ^ 32.

(** The block [malloc] makes in a gap after [l1]. *)
Definition new_blk (l1 : list blk) (n : Z) : blk :=
  Blk (end_of base l1) (end_of base l1 + 16) (MY_BYTE_ALIGN n) n.

(** Payload bytes of the live blocks are the same. *)
Definition same_payload (l : list blk) (m m' : mem) : Prop :=
  ∀ b, b ∈ l → same_at m m' (adr b) (sz b).

(** Nothing changed but the region and the two static nodes. *)
Definition same_outside (m m' : mem) : Prop :=
  ∀ x, (x < base ∨ limit <= x) → (x < boot_heap_head ∨ boot_heap_head + 16 <= x) →
       (x < boot_heap_tail ∨ boot_heap_tail + 16 <= x) → m' !! x = m !! x.

Lemma same_outside_trans m1 m2 m3 : same_outside m1 m2 → same_outside m2 m3 → same_outside m1 m3.
Proof. intros H1 H2 x ???. rewrite H2, H1; auto. Qed.

(** A link field of a node of the heap. *)
Lemma outside_next m l o q v :
  heap_rep m l → q ∈ head_blk o :: l → same_outside m (w32 m (hdr q + off_next) v).
Proof.
  intros [[? ? ? ? ? ?] _ _ _ Hwf Hend _ _] Hq x ???. apply lookup_w32_out. unfold off_next.
  apply elem_of_cons in Hq as [->|Hq]; [simpl; lia|]. destruct (wfl_mem _ _ _ Hwf Hq) as (?&?&?&?&?&?). lia.
Qed.

Lemma wfl_mod lo l : wfl lo l → lo mod 16 = 0 → end_of lo l mod 16 = 0.
Proof.
  revert lo. induction l as [|b l IH]; simpl; intros lo H Hlo; [done|].
  destruct H as (?&?&?&?&?&H). apply IH; [done|]. zmod.
Qed.

(** The blocks after an insertion into a gap. *)
Lemma insert_wf l1 l2 n :
  heap_room → request_ok n → wfl base (l1 ++ l2) → end_of base (l1 ++ l2) <= limit →
  end_of base l1 + 32 + MY_BYTE_ALIGN n <= match l2 with [] => limit | b :: _ => adr b end →
  wfl base (l1 ++ new_blk l1 n :: l2) ∧ end_of base (l1 ++ new_blk l1 n :: l2) <= limit.
Proof.
  intros [? ? ? ? ? Hb] [Hn Hlim] Hwf Hend Hgap. change (2 ^ 32) with 4294967296 in *.
  apply wfl_app in Hwf as [H1 H2]. rewrite end_of_app in Hend.
  destruct (align_spec n) as [Hm Hr]; [lia|change (2 ^ 32) with 4294967296; lia|].
  pose proof (wfl_end _ _ H1). pose proof (wfl_mod _ _ H1 ltac:(lia)).
  rewrite wfl_app, end_of_app. simpl. destruct l2 as [|b l2]; simpl in *.
  - repeat split; try done; lia.
  - destruct H2 as (?&?&?&?&?&H2). repeat split; try done; try lia.
Qed.

(** The new header is away from every other node. *)
Lemma new_apart m l o l1 l2 n c :
  heap_rep m l → l = l1 ++ l2 → request_ok n →
  end_of base l1 + 32 + MY_BYTE_ALIGN n <= match l2 with [] => limit | b :: _ => adr b end →
  c ∈ head_blk o :: l → sep (new_blk l1 n) c.
Proof.
  intros Hrep -> Hok Hgap Hc.
  destruct (insert_wf l1 l2 n (rep_room _ _ Hrep) Hok (rep_wf _ _ Hrep) (rep_end _ _ Hrep) Hgap) as [Hwf Hend].
  destruct Hrep as [[? ? ? ? ? ?] _ _ _ _ _ _ _]. unfold sep.
  rewrite end_of_app in Hend. apply wfl_app in Hwf as [H1 Hwf]. pose proof (wfl_end _ _ H1).
  cbn [end_of] in Hend. destruct Hwf as (?&?&?&?&?&H2). pose proof (wfl_end _ _ H2).
  apply elem_of_cons in Hc as [->|Hc]; [simpl in *; lia|].
  apply elem_of_app in Hc as [Hc|Hc].
  - destruct (wfl_mem _ _ _ H1 Hc) as (?&?&?&?&?&?). simpl. lia.
  - destruct (wfl_mem _ _ _ H2 Hc) as (?&?&?&?&?&?). simpl in *. lia.
Qed.

(** Facts about the block before a gap. *)
Lemma rep_split m l o l1 l2 :
  heap_rep m l → linked m (head_blk o :: l) boot_heap_tail → l = l1 ++ l2 →
  ∃ N1 q, q = last_node (head_blk o) l1 ∧ head_blk o :: l1 = N1 ++ [q] ∧
    head_blk o :: l = N1 ++ q :: l2 ∧ adr q + sz q = end_of base l1 ∧
    node_at m (hdr q) (adr q) (sz q) (osz q) (first l2 boot_heap_tail) ∧ mapped m (hdr q) 16.
Proof.
  intros Hrep Hl ->. destruct (last_node_split (head_blk o) l1) as [N1 E].
  exists N1, (last_node (head_blk o) l1). split; [done|]. split; [done|].
  assert (head_blk o :: l1 ++ l2 = N1 ++ last_node (head_blk o) l1 :: l2) as E2.
  { change (head_blk o :: l1 ++ l2) with ((head_blk o :: l1) ++ l2). rewrite E, <- app_assoc. done. }
  split; [done|]. split.
  { rewrite <- end_of_last. simpl. by rewrite Z.add_0_r. }
  split.
  - rewrite E2 in Hl. apply linked_app in Hl as [_ [Hq _]]. done.
  - destruct Hrep as [? ? ? Hm Hwf Hend _ _].
    assert (last_node (head_blk o) l1 ∈ head_blk o :: l1 ++ l2) as Hin.
    { rewrite E2. apply elem_mid. }
    apply elem_of_cons in Hin as [->|Hin]; [done|].
    destruct (wfl_mem _ _ _ Hwf Hin) as (?&?&?&?&?&?). eapply mapped_sub; [exact Hm|lia..].
Qed.

Definition malloc_result (l : list blk) (m : mem) (n : Z) (r : option (mem * Z)) : Prop :=
  match first_gap base (MY_BYTE_ALIGN n) l with
  | None => r = Some (m, 0)
  | Some (l1, l2) =>
      ∃ m', r = Some (m', adr (new_blk l1 n)) ∧ heap_rep m' (l1 ++ new_blk l1 n :: l2) ∧ same_payload l m m' ∧ same_outside m m'
  end.

(** The memory [malloc] leaves, with the node [q] before the gap. *)
Lemma malloc_insert m l o l1 l2 n :
  heap_rep m l → request_ok n → linked m (head_blk o :: l) boot_heap_tail →
  first_gap base (MY_BYTE_ALIGN n) l = Some (l1, l2) →
  let q := last_node (head_blk o) l1 in
  let b := new_blk l1 n in
  let m' := w32 (put_node m (hdr b) (adr b) (sz b) (osz b) (first l2 boot_heap_tail)) (hdr q + off_next) (hdr b) in
  heap_rep m' (l1 ++ b :: l2) ∧ same_payload l m m' ∧ same_outside m m'.
Proof.
  intros Hrep Hok Hl Hgap q b m'. apply first_gap_split in Hgap as [-> Hgap].
  destruct (rep_split _ _ _ l1 l2 Hrep Hl eq_refl) as (N1 & q' & Hq' & E1 & E2 & Hend & Hnode & Hmq).
  fold q in Hq'. subst q'.
  pose proof (λ c, new_apart m _ o l1 l2 n c Hrep eq_refl Hok Hgap) as Hap. fold b in Hap.
  pose proof (rep_first_u32 _ _ _ Hrep) as [_ Hfu].
  destruct (insert_wf l1 l2 n (rep_room _ _ Hrep) Hok (rep_wf _ _ Hrep) (rep_end _ _ Hrep) Hgap) as [Hwf' Hend'].
  fold b in Hwf', Hend'.
  assert (q ∈ head_blk o :: l1 ++ l2) as Hqin by (rewrite E2; apply elem_of_app; right; by left).
  assert (b ∈ l1 ++ b :: l2) as Hbin by apply elem_mid.
  destruct (wfl_mem _ _ _ Hwf' Hbin) as (Hb1&_&Hb2&_&Hb3&Hb4).
  pose proof (Hap q Hqin) as Hqb.
  pose proof Hrep as [Hroom Hmh Hmt Hm Hwf Hendl (ot & Htl) _].
  pose proof Hroom as [? ? ? ? ? ?].
  assert (is_u32 (hdr b) ∧ is_u32 (adr b) ∧ is_u32 (sz b) ∧ is_u32 (osz b)) as (Hu1&Hu2&Hu3&Hu4).
  { unfold is_u32. change (2 ^ 32) with 4294967296 in *. destruct Hok. lia. }
  set (m1 := put_node m (hdr b) (adr b) (sz b) (osz b) (first l2 boot_heap_tail)) in *.
  assert (∀ c, c ∈ head_blk o :: l1 ++ l2 → same_at m m1 (hdr c) 16) as Hs1.
  { intros c Hc. apply same_put. destruct (Hap c Hc); lia. }
  split; [constructor|split].
  - done.
  - unfold m', m1. auto with heap.
  - unfold m', m1. auto with heap.
  - unfold m', m1. auto with heap.
  - done.
  - done.
  - exists ot. eapply node_at_same; [|exact Htl]. apply (same_trans m m1); [apply same_put; lia|].
    apply same_w32. unfold off_next.
    apply elem_of_cons in Hqin as [->|Hqin]; [simpl; lia|].
    destruct (wfl_mem _ _ _ Hwf Hqin) as (?&?&?&?&?&?). lia.
  - exists o. change (head_blk o :: l1 ++ b :: l2) with ((head_blk o :: l1) ++ b :: l2).
    rewrite E1, <- app_assoc. apply (relink m1 N1 q l2 (b :: l2) boot_heap_tail).
    + rewrite E2 in Hl. eapply linked_same; [|exact Hl]. rewrite <- E2. done.
    + split; [by apply node_at_put|]. rewrite E2 in Hl. apply linked_app in Hl as [_ [_ Hl]].
      eapply linked_same; [|exact Hl]. intros c Hc. apply Hs1. rewrite E2. apply elem_of_app. right. by right.
    + intros c Hc. apply elem_of_app in Hc as [Hc|Hc].
      * eapply nodes_apart; [exact Hrep|exact E2|]. apply elem_of_app. by left.
      * apply elem_of_cons in Hc as [->|Hc]; [unfold sep in *; lia|].
        eapply nodes_apart; [exact Hrep|exact E2|]. apply elem_of_app. by right.
    + done.
  - intros c Hc. pose proof (payload_apart _ _ _ _ _ Hrep Hqin Hc).
    assert (c ∈ l1 ++ b :: l2) as Hc' by (apply elem_of_app in Hc as [|]; apply elem_of_app; [by left|right; by right]).
    destruct (wfl_mem _ _ _ Hwf' Hc') as (?&?&?&?&?&?).
    apply (same_trans m m1); [apply same_put|apply same_w32; unfold off_next; lia].
    destruct (wfl_pair _ _ _ _ Hwf' Hbin Hc') as [->|[|]]; lia.
  - apply (same_outside_trans m m1).
    + intros x ???. apply (same_put _ _ _ _ _ _ x 1); lia.
    + intros x ???. apply lookup_w32_out. unfold off_next.
      apply elem_of_cons in Hqin as [->|Hqin]; [simpl; lia|].
      destruct (wfl_mem _ _ _ Hwf Hqin) as (?&?&?&?&?&?). lia.
Qed.

(** [malloc] on the node found by the scan. *)
Lemma malloc_spec m l n : heap_rep m l → request_ok n → malloc_result l m n (malloc m n).
Proof.
  intros Hrep Hok. pose proof Hrep as [[? Ht ? ? ? ?] _ _ Hm Hwf Hend (ot & Htl) (o & Hl)].
  pose proof Hok as [Hn Hlim]. change (2 ^ 32) with 4294967296 in *.
  destruct (align_spec n) as [_ Hr]; [lia|change (2 ^ 32) with 4294967296; lia|].
  unfold malloc_result, malloc. destruct (Z.eqb_spec n 0) as [|_]; [lia|].
  pose proof (malloc_scan_spec (scan_fuel m) m (head_blk o) l ot (MY_BYTE_ALIGN n) Htl Hl) as Hscan.
  cbn [head_blk adr sz hdr] in Hscan. rewrite Z.add_0_r in Hscan. change (2 ^ 32) with 4294967296 in *.
  rewrite Hscan; [|lia|done|done|lia|lia|lia|by apply rep_fuel]. sbind.
  destruct (first_gap base (MY_BYTE_ALIGN n) l) as [[l1 l2]|] eqn:Hgap.
  2:{ destruct Htl as (_&_&_&->). sbind. done. }
  destruct (malloc_insert m l o l1 l2 n Hrep Hok Hl Hgap) as [Hrep' Hsame].
  apply first_gap_split in Hgap as [-> Hgap].
  destruct (rep_split _ _ _ l1 l2 Hrep Hl eq_refl) as (N1 & q & Hq & E1 & E2 & Hqe & (Ha&Hs&_&Hnx) & Hmq).
  fold (head_blk o). rewrite <- Hq in *. rewrite Hnx, Ha, Hs. sbind.
  pose proof (rep_first_u32 _ _ _ Hrep) as [Hf Hfu].
  destruct (Z.eqb_spec (first l2 boot_heap_tail) 0) as [|_]; [lia|].
  assert (q ∈ head_blk o :: l1 ++ l2) as Hqin by (rewrite E2; apply elem_of_app; right; by left).
  pose proof (new_apart m _ o l1 l2 n q Hrep eq_refl Hok Hgap Hqin) as Hqb.
  assert (base <= end_of base l1 ∧ end_of base l1 + 16 + MY_BYTE_ALIGN n <= limit) as [Hb Hlimit].
  { apply rep_wf in Hrep' as Hw. apply rep_end in Hrep' as He.
    apply wfl_app in Hw as [Hw1 (_&_&_&_&_&Hw2)]. apply wfl_end in Hw1, Hw2. rewrite end_of_app in He.
    simpl in *. lia. }
  rewrite Hqe, Hcl. unfold sizeof_node, sep in *. cbn [hdr adr sz osz new_blk] in *.
  rewrite !u32_small by (unfold is_u32; lia).
  set (e := end_of base l1) in *. destruct (Z.eqb_spec e 0) as [|_]; [lia|].
  assert (mapped m e 16) as Hme by (eapply mapped_sub; [exact Hm|lia..]).
  unfold off_address, off_size, off_o_size, off_next, put_node in *.
  do 3 wr_step Hme. rewrite !rd32_w32_ne, Hnx by lia. sbind. wr_step Hme. wr_step Hmq.
  rewrite !rd32_w32_ne, rd32_w32_eq by (unfold is_u32; lia). sbind. eauto.
Qed.

(** ** Unlinking *)

Lemma wfl_weaken lo lo' l : lo' <= lo → wfl lo l → wfl lo' l.
Proof. destruct l; simpl; [done|]. intros ? (?&?&?&?&?&?). repeat split; try done; lia. Qed.

Lemma wfl_remove lo l1 M l2 : wfl lo (l1 ++ M ++ l2) → wfl lo (l1 ++ l2) ∧ end_of lo (l1 ++ l2) <= end_of lo (l1 ++ M ++ l2).
Proof.
  rewrite !wfl_app, !end_of_app. intros (H1 & H2 & H3). pose proof (wfl_end _ _ H2).
  pose proof (wfl_end _ _ H3). split; [split; [done|by eapply wfl_weaken]|].
  destruct l2; simpl in *; lia.
Qed.

(** [prev->next = ptr->next]: the blocks [M] between the two leave the heap. *)
Lemma unlink m o l1 M l2 :
  heap_rep m (l1 ++ M ++ l2) → linked m (head_blk o :: l1 ++ M ++ l2) boot_heap_tail →
  let q := last_node (head_blk o) l1 in
  let m' := w32 m (hdr q + off_next) (first l2 boot_heap_tail) in
  wr32 m (hdr q + off_next) (first l2 boot_heap_tail) = Some m' ∧
  heap_rep m' (l1 ++ l2) ∧ same_payload (l1 ++ M ++ l2) m m' ∧ same_outside m m'.
Proof.
  intros Hrep Hl q m'.
  destruct (rep_split _ _ _ l1 (M ++ l2) Hrep Hl eq_refl) as (N1 & q' & Hq' & E1 & E2 & Hqe & Hnode & Hmq).
  fold q in Hq'. subst q'.
  assert (heap_rep m ((l1 ++ M) ++ l2)) as Hrep2 by (by rewrite <- app_assoc).
  pose proof (rep_first_u32 _ _ _ Hrep2) as [_ Hfu].
  assert (q ∈ head_blk o :: l1 ++ M ++ l2) as Hqin by (rewrite E2; apply elem_of_app; right; by left).
  pose proof Hrep as [Hroom Hmh Hmt Hm Hwf Hend (ot & Htl) _]. pose proof Hroom as [? ? ? ? ? ?].
  destruct (wfl_remove _ _ _ _ Hwf) as [Hwf' Hend'].
  split; [apply wr32_mapped; eapply mapped_sub; [exact Hmq|unfold off_next; lia..]|].
  split; [constructor|split].
  - done.
  - unfold m'. auto with heap.
  - unfold m'. auto with heap.
  - unfold m'. auto with heap.
  - done.
  - lia.
  - exists ot. eapply node_at_same; [|exact Htl]. apply same_w32. unfold off_next.
    apply elem_of_cons in Hqin as [->|Hqin]; [simpl; lia|].
    destruct (wfl_mem _ _ _ Hwf Hqin) as (?&?&?&?&?&?). lia.
  - exists o. change (head_blk o :: l1 ++ l2) with ((head_blk o :: l1) ++ l2). rewrite E1, <- app_assoc.
    rewrite E2 in Hl. apply (relink m N1 q (M ++ l2) l2); [done| |..|done].
    + apply linked_app in Hl as [_ [_ Hl]]. apply linked_app in Hl as [_ Hl]. done.
    + intros c Hc. eapply nodes_apart; [exact Hrep|exact E2|]. clear -Hc. rewrite !elem_of_app in *. tauto.
  - intros c Hc. pose proof (payload_apart _ _ _ _ _ Hrep Hqin Hc). apply same_w32. unfold off_next. lia.
  - exact (outside_next _ _ _ _ _ Hrep Hqin).
Qed.

(** The block at address [p], with its neighbours. *)
Fixpoint split_at (p : Z) (l : list blk) : option (list blk * blk * list blk) :=
  match l with
  | [] => None
  | b :: l' =>
      if adr b =? p then Some ([], b, l')
      else '(l1, c, l2) ← split_at p l'; Some (b :: l1, c, l2)
  end.

Lemma split_at_Some p l l1 b l2 : split_at p l = Some (l1, b, l2) → l = l1 ++ b :: l2 ∧ adr b = p.
Proof.
  revert l1. induction l as [|c l IH]; intros l1 H; simpl in H; [done|].
  destruct (Z.eqb_spec (adr c) p); [by injection H as [= <- <- <-]|].
  apply bind_Some_inv in H as ([[g1 d] g2] & Hg & H). injection H as [= <- <- <-].
  by apply IH in Hg as [-> ?].
Qed.

Lemma split_at_None p l : split_at p l = None → p ∉ adr <$> l.
Proof.
  induction l as [|c l IH]; simpl; intros H; [apply not_elem_of_nil|].
  destruct (Z.eqb_spec (adr c) p) as [|Hne]; [done|].
  destruct (split_at p l) as [[[??]?]|]; [done|]. apply not_elem_of_cons. auto.
Qed.

Lemma split_at_mid lo l1 b l2 : wfl lo (l1 ++ b :: l2) → split_at (adr b) (l1 ++ b :: l2) = Some (l1, b, l2).
Proof.
  revert lo. induction l1 as [|x l1 IH]; intros lo Hwf; simpl; [by rewrite Z.eqb_refl|].
  destruct Hwf as (?&?&?&?&?&Hwf). rewrite (IH _ Hwf).
  destruct (wfl_mem _ _ b Hwf) as (?&?&?&?&?&?); [apply elem_mid|].
  by destruct (Z.eqb_spec (adr x) (adr b)) as [|_]; [lia|].
Qed.

Lemma find_prev_spec fuel m q l o lo p :
  node_at m boot_heap_tail limit 0 o 0 → linked m (q :: l) boot_heap_tail → 0 < boot_heap_tail →
  wfl lo l → 0 < lo → p ≠ limit → (length l + 2 <= fuel)%nat →
  find_prev fuel m (hdr q) p =
    Some (match split_at p l with Some (l1, _, _) => hdr (last_node q l1) | None => boot_heap_tail end).
Proof.
  intros (Hta&Hts&_&Htn) Hl Ht Hwf Hlo Hp. revert q l lo Hl Hwf Hlo.
  induction fuel as [|fuel IH]; intros q l lo Hl Hwf Hlo Hfuel; [lia|].
  destruct Hl as [(Ha&Hs&_&Hnx) Hl]. cbn [find_prev]. rewrite Hnx. sbind.
  destruct l as [|b l]; cbn [first split_at] in *.
  - destruct (Z.eqb_spec boot_heap_tail 0) as [|_]; [lia|]. rewrite Hta. sbind.
    destruct (Z.eqb_spec limit p) as [|_]; [congruence|].
    destruct fuel as [|fuel]; [simpl in Hfuel; lia|]. cbn [find_prev]. by rewrite Htn.
  - pose proof Hl as [(Hba&_) _]. destruct Hwf as (?&?&?&?&?&Hwf).
    destruct (Z.eqb_spec (hdr b) 0) as [|_]; [lia|]. rewrite Hba. sbind.
    destruct (Z.eqb_spec (adr b) p) as [|_]; [done|].
    rewrite (IH b l (adr b + sz b)); [|done..|lia|simpl in Hfuel; lia].
    destruct (split_at p l) as [[[l1 c] l2]|]; done.
Qed.

Lemma find_prev_rep m l o p :
  heap_rep m l → linked m (head_blk o :: l) boot_heap_tail → p ≠ limit →
  find_prev (scan_fuel m) m boot_heap_head p =
    Some (match split_at p l with Some (l1, _, _) => hdr (last_node (head_blk o) l1) | None => boot_heap_tail end).
Proof.
  intros Hrep Hl Hp. pose proof Hrep as [[? ? ? ? ? ?] _ _ _ Hwf _ (ot & Htl) _].
  apply (find_prev_spec (scan_fuel m) m (head_blk o) l ot base p Htl Hl); try done; [lia..|].
  by apply rep_fuel.
Qed.

Lemma free_spec m l p :
  heap_rep m l → p ≠ 0 → p ≠ limit →
  match split_at p l with
  | None => free m p = Some m
  | Some (l1, _, l2) => ∃ m', free m p = Some m' ∧ heap_rep m' (l1 ++ l2) ∧ same_payload l m m' ∧ same_outside m m'
  end.
Proof.
  intros Hrep Hp0 Hpl. pose proof Hrep as [_ _ _ _ _ _ (ot & Htl) (o & Hl)].
  unfold free. destruct (Z.eqb_spec p 0) as [|_]; [done|]. rewrite (find_prev_rep m l o p Hrep Hl Hpl). sbind.
  destruct (split_at p l) as [[[l1 b] l2]|] eqn:Hs.
  2:{ destruct Htl as (_&_&_&->). done. }
  apply split_at_Some in Hs as [-> _].
  destruct (rep_split _ _ _ l1 (b :: l2) Hrep Hl eq_refl) as (N1 & q & Hq & E1 & E2 & Hqe & (_&_&_&Hnx) & Hmq).
  pose proof (rep_first_u32 _ _ _ Hrep) as [Hf _]. cbn [first] in *. rewrite <- Hq, Hnx. sbind.
  destruct (Z.eqb_spec (hdr b) 0) as [|_]; [lia|].
  assert (linked m (b :: l2) boot_heap_tail) as [(_&_&_&->) _].
  { rewrite E2 in Hl. by apply linked_app in Hl as [_ [_ Hl]]. }
  sbind. destruct (unlink m o l1 [b] l2 Hrep Hl) as (Hw & Hrep' & Hsame).
  rewrite <- Hq in *. rewrite Hw. eauto.
Qed.

(** ** Writes inside a block *)

Lemma write_payload m l c a bs :
  heap_rep m l → c ∈ l → adr c <= a → a + Z.of_nat (length bs) <= adr c + sz c →
  heap_rep (write_bytes m a bs) l ∧
  (∀ d, d ∈ l → d ≠ c → same_at m (write_bytes m a bs) (adr d) (sz d)) ∧
  same_outside m (write_bytes m a bs).
Proof.
  intros Hrep Hc Ha Hlen. pose proof Hrep as [Hroom Hmh Hmt Hm Hwf Hend (ot & Htl) (o & Hl)].
  pose proof Hroom as [? ? ? ? ? ?]. destruct (wfl_mem _ _ _ Hwf Hc) as (?&?&?&?&?&?).
  split; [constructor|split]; auto with heap.
  - exists ot. eapply node_at_same; [|exact Htl]. intros x Hx. apply lookup_write_out. lia.
  - exists o. eapply linked_same; [|exact Hl]. intros b Hb x Hx. apply lookup_write_out.
    pose proof (payload_apart _ _ _ _ _ Hrep Hb Hc). lia.
  - intros d Hd Hne x Hx. apply lookup_write_out. destruct (wfl_mem _ _ _ Hwf Hd) as (?&?&?&?&?&?).
    destruct (wfl_pair _ _ _ _ Hwf Hc Hd) as [->|[|]]; [done|lia..].
  - intros x ???. apply lookup_write_out. lia.
Qed.

(** A buffer cleared and then filled: the clients' use of a new block. *)
Lemma fill_block m l b bs k :
  heap_rep m l → b ∈ l → Z.of_nat k <= sz b → length bs = k →
  let m' := write_bytes (write_bytes m (adr b) (replicate k (u8 0))) (adr b) bs in
  memset m (adr b) 0 (Z.of_nat k) = Some (write_bytes m (adr b) (replicate k (u8 0))) ∧
  store_n (write_bytes m (adr b) (replicate k (u8 0))) (adr b) bs = Some m' ∧
  heap_rep m' l ∧ load_n k m' (adr b) = Some bs ∧
  (∀ d, d ∈ l → d ≠ b → same_at m m' (adr d) (sz d)) ∧
  same_outside m (write_bytes m (adr b) (replicate k (u8 0))) ∧ same_outside m m'.
Proof.
  intros Hrep Hb Hsz Hk m'. pose proof Hrep as [_ _ _ Hm Hwf Hend _ _].
  destruct (wfl_mem _ _ _ Hwf Hb) as (?&?&?&?&?&?).
  assert (mapped m (adr b) (Z.of_nat k)) as Hmb by (eapply mapped_sub; [exact Hm|lia..]).
  destruct (write_payload m l b (adr b) (replicate k (u8 0)) Hrep Hb) as (Hr1 & Hs1 & Ho1);
    [lia|rewrite length_replicate; lia|].
  destruct (write_payload _ l b (adr b) bs Hr1 Hb) as (Hr2 & Hs2 & Ho2); [lia..|].
  split; [by apply memset_spec|]. split; [apply store_n_spec; rewrite Hk; auto with heap|].
  split; [done|]. split; [rewrite <- Hk; apply load_write_eq|]. split; [|split; [done|]].
  - intros d Hd Hne. eapply same_trans; [by apply Hs1|by apply Hs2].
  - by eapply same_outside_trans.
Qed.

Lemma mapped_load m a n : mapped m a (Z.of_nat n) → ∃ bs, load_n n m a = Some bs ∧ length bs = n.
Proof.
  revert a. induction n as [|n IH]; intros a H; [by exists []|]. cbn [load_n].
  destruct (H a) as [b ->]; [lia|]. destruct (IH (a + 1)) as (bs & -> & Hlen).
  - intros x Hx. apply H. lia.
  - exists (b :: bs). simpl. auto.
Qed.

(** ** realloc *)

(** The specification: the block returned and the blocks then live. *)
Definition realloc_blocks (l1 : list blk) (b : blk) (l2 : list blk) (n : Z) : Z * list blk :=
  let l := l1 ++ b :: l2 in
  let act := MY_BYTE_ALIGN (osz b + n) in
  if act =? sz b then (adr b, l)
  else if adr b + act + 32 <=? match l2 with [] => limit | c :: _ => adr c end then
    (adr b, l1 ++ Blk (hdr b) (adr b) act (osz b + n) :: l2)
  else
    match first_gap base act l with
    | None => (0, l)
    | Some (g1, g2) =>
        let c := new_blk g1 act in
        (adr c,
         match Nat.compare (length g1) (length l1) with
         | Lt => (g1 ++ c :: drop (length g1) l1) ++ l2
         | Eq => l1 ++ l2
         | Gt => l1 ++ (drop (S (length l1)) g1 ++ c :: g2)
         end)
    end.

(** The three places of the first gap. *)
Lemma gap_cases (l1 : list blk) b l2 g1 g2 c :
  g1 ++ g2 = l1 ++ b :: l2 →
  ∃ l1' M l2', g1 ++ c :: g2 = l1' ++ M ++ l2' ∧ (∀ o, hdr (last_node (head_blk o) l1') = hdr (last_node (head_blk 0) l1)) ∧
    (∃ M', M = M' ++ [b]) ∧
    l1' ++ l2' = match Nat.compare (length g1) (length l1) with
                 | Lt => (g1 ++ c :: drop (length g1) l1) ++ l2
                 | Eq => l1 ++ l2
                 | Gt => l1 ++ (drop (S (length l1)) g1 ++ c :: g2)
                 end.
Proof.
  assert (∀ l o o', hdr (last_node (head_blk o) l) = hdr (last_node (head_blk o') l)) as Hh by (by intros [|]).
  intros E. apply app_eq_inv in E as [(r & -> & E)|(r & -> & E)].
  - destruct r as [|d r].
    + simpl in E. subst g2. rewrite app_nil_r in *. exists l1, [c; b], l2. split; [by rewrite <- ?app_assoc|].
      split; [auto|]. split; [by exists [c]|]. by rewrite Nat.compare_refl.
    + simpl in E. injection E as <- ->. exists l1, [b], (r ++ c :: g2). split; [by rewrite <- app_assoc|].
      split; [auto|]. split; [by exists []|].
      rewrite length_app. destruct (Nat.compare_spec (length l1 + length (b :: r)) (length l1)); simpl in *; [lia..|].
      f_equal. rewrite drop_app_ge by lia. replace (S (length l1) - length l1)%nat with 1%nat by lia. done.
  - destruct r as [|d r].
    + simpl in E. subst g2. rewrite app_nil_r in *. exists g1, [c; b], l2. split; [done|].
      split; [auto|]. split; [by exists [c]|]. by rewrite Nat.compare_refl.
    + subst g2. exists (g1 ++ c :: d :: r), [b], l2. split; [by rewrite <- app_assoc|].
      split; [|split; [by exists []|]].
      * intros o. rewrite !(Hh _ _ 0). clear. generalize (head_blk 0). induction g1 as [|x g1 IH]; intros q; simpl; auto.
      * rewrite length_app. destruct (Nat.compare_spec (length g1) (length g1 + length (d :: r))); simpl in *; [lia| |lia].
        rewrite drop_app_length. done.
Qed.

(** Growing in place. *)
Lemma resize_wf l1 b l2 s o' :
  wfl base (l1 ++ b :: l2) → end_of base (l1 ++ b :: l2) <= limit → s mod 16 = 0 → 0 < o' ∧ o' <= s < o' + 16 →
  adr b + s + 32 <= match l2 with [] => limit | c :: _ => adr c end →
  wfl base (l1 ++ Blk (hdr b) (adr b) s o' :: l2) ∧ end_of base (l1 ++ Blk (hdr b) (adr b) s o' :: l2) <= limit.
Proof.
  rewrite !wfl_app, !end_of_app. intros [H1 (?&?&?&?&?&H2)] Hend Hm Ho Hgap. simpl in *.
  destruct l2 as [|c l2]; simpl in *; [repeat split; try done; lia|].
  destruct H2 as (?&?&?&?&?&H2). repeat split; try done; lia.
Qed.

Lemma resize m l1 b l2 s o' :
  heap_rep m (l1 ++ b :: l2) → s mod 16 = 0 → 0 < o' ∧ o' <= s < o' + 16 → is_u32 s →
  adr b + s + 32 <= match l2 with [] => limit | c :: _ => adr c end →
  let m' := w32 (w32 m (hdr b + off_size) s) (hdr b + off_o_size) o' in
  heap_rep m' (l1 ++ Blk (hdr b) (adr b) s o' :: l2) ∧ same_payload (l1 ++ b :: l2) m m'.
Proof.
  intros Hrep Hm Ho Hu Hgap m'. pose proof Hrep as [Hroom Hmh Hmt Hmm Hwf Hend (ot & Htl) (o & Hl)].
  pose proof Hroom as [? ? ? ? ? ?]. destruct (resize_wf _ _ _ _ _ Hwf Hend Hm Ho Hgap) as [Hwf' Hend'].
  assert (b ∈ l1 ++ b :: l2) as Hb by apply elem_mid.
  destruct (wfl_mem _ _ _ Hwf Hb) as (?&?&?&?&?&?).
  assert (∀ p n, hdr b + 16 <= p ∨ p + n <= hdr b → same_at m m' p n) as Hs.
  { intros p n Hp. unfold m', off_size, off_o_size.
    eapply same_trans; [apply (same_w32 m (hdr b + 4) s)|apply same_w32]; lia. }
  split; [constructor|].
  - done.
  - unfold m'. auto with heap.
  - unfold m'. auto with heap.
  - unfold m'. auto with heap.
  - done.
  - done.
  - exists ot. eapply node_at_same; [|exact Htl]. apply Hs. lia.
  - exists o.
    assert (∀ c, c ∈ (head_blk o :: l1) ++ l2 → same_at m m' (hdr c) 16) as Hs'.
    { intros c Hc. apply Hs. destruct (nodes_apart m _ o (head_blk o :: l1) b l2 c Hrep eq_refl Hc); lia. }
    change (linked m ((head_blk o :: l1) ++ b :: l2) boot_heap_tail) in Hl.
    change (linked m' ((head_blk o :: l1) ++ Blk (hdr b) (adr b) s o' :: l2) boot_heap_tail).
    apply linked_app in Hl as [Hl1 [(Ha&_&_&Hn) Hl2]]. apply linked_app. split; [|split].
    + eapply linked_same; [|exact Hl1]. intros c Hc. apply Hs', elem_of_app. by left.
    + unfold node_at, m', off_address, off_size, off_o_size, off_next in *. simpl.
      unfold is_u32 in Hu.
      repeat split; repeat first [rewrite rd32_w32_eq by (unfold is_u32; lia) | rewrite rd32_w32_ne by lia]; done.
    + eapply linked_same; [|exact Hl2]. intros c Hc. apply Hs', elem_of_app. by right.
  - intros c Hc. apply Hs. destruct (payload_apart m _ o b c Hrep ltac:(by right) Hc); lia.
Qed.

(** The moving branch: copy, then unlink. *)
Lemma realloc_move m1 l1 b l2 g1 g2 c prev :
  g1 ++ g2 = l1 ++ b :: l2 → heap_rep m1 (g1 ++ c :: g2) → sz b <= sz c →
  prev = hdr (last_node (head_blk 0) l1) →
  ∃ bs m',
    load_n (Z.to_nat (sz b)) m1 (adr b) = Some bs ∧
    memcpy m1 (adr c) (adr b) (sz b) = Some (write_bytes m1 (adr c) bs) ∧
    (nxt ← rd32 (write_bytes m1 (adr c) bs) (hdr b + off_next);
     wr32 (write_bytes m1 (adr c) bs) (prev + off_next) nxt) = Some m' ∧
    heap_rep m' (match Nat.compare (length g1) (length l1) with
                 | Lt => (g1 ++ c :: drop (length g1) l1) ++ l2
                 | Eq => l1 ++ l2
                 | Gt => l1 ++ (drop (S (length l1)) g1 ++ c :: g2)
                 end) ∧
    load_n (Z.to_nat (sz b)) m' (adr c) = Some bs ∧
    (∀ d, d ∈ g1 ++ g2 → same_at m1 m' (adr d) (sz d)).
Proof.
  intros E Hrep Hsz ->. pose proof Hrep as [Hroom _ _ Hm Hwf Hend _ _].
  assert (c ∈ g1 ++ c :: g2) as Hc by apply elem_mid.
  assert (b ∈ g1 ++ c :: g2 ∧ b ≠ c) as [Hb Hbc].
  { assert (b ∈ g1 ++ g2) as Hb by (rewrite E; apply elem_of_app; right; by left).
    split; [rewrite elem_of_app, elem_of_cons in *; tauto|]. intros ->. by eapply wfl_fresh. }
  destruct (wfl_mem _ _ _ Hwf Hc) as (?&?&?&?&?&?). destruct (wfl_mem _ _ _ Hwf Hb) as (?&?&?&?&?&?).
  destruct (mapped_load m1 (adr b) (Z.to_nat (sz b))) as (bs & Hbs & Hlen).
  { eapply mapped_sub; [exact Hm|lia..]. }
  assert (Z.of_nat (length bs) = sz b) as Hlen' by lia.
  destruct (write_payload m1 _ c (adr c) bs Hrep Hc) as (Hrep2 & Hsame2 & _); [lia..|].
  set (m2 := write_bytes m1 (adr c) bs) in *.
  destruct (gap_cases l1 b l2 g1 g2 c E) as (l1' & M & l2' & EM & Hlast & (M' & HM) & Eres).
  rewrite EM in Hrep2. pose proof Hrep2 as [_ _ _ _ _ _ _ (o & Hl)].
  destruct (unlink m2 o l1' M l2' Hrep2 Hl) as (Hw & Hrep' & Hsame' & _).
  assert (rd32 m2 (hdr b + off_next) = Some (first l2' boot_heap_tail)) as Hnx.
  { clear - Hl HM. subst M. rewrite <- app_assoc, app_comm_cons in Hl. apply linked_app in Hl as [_ Hl].
    by apply linked_app in Hl as [_ [(_&_&_&?) _]]. }
  rewrite Hlast in *. exists bs. eexists. split; [done|]. split; [|split; [fold m2; rewrite Hnx; exact Hw|]].
  { rewrite <- Hlen'. apply memcpy_forward; [by rewrite Hlen|eapply mapped_sub; [exact Hm|lia..]|].
    destruct (wfl_pair _ _ _ _ Hwf Hb Hc) as [?|[|]]; [done|lia..]. }
  split; [by rewrite <- Eres|]. split.
  - rewrite (load_n_ext _ _ m2); [unfold m2; rewrite <- Hlen; apply load_write_eq|].
    intros x Hx. apply (Hsame' c); [by rewrite <- EM|lia].
  - intros d Hd. eapply same_trans; [apply Hsame2|apply Hsame'; rewrite <- EM].
    + rewrite elem_of_app, elem_of_cons in *. tauto.
    + intros ->. by eapply wfl_fresh.
    + rewrite elem_of_app, elem_of_cons in *. tauto.
Qed.

Lemma align_idem x : 0 <= x → x + 15 < 2 ^ 32 → MY_BYTE_ALIGN (MY_BYTE_ALIGN x) = MY_BYTE_ALIGN x.
Proof.
  change (2 ^ 32) with 4294967296. intros H0 H1. unfold MY_BYTE_ALIGN. rewrite Hcl. cbn [default].
  change (16 - 1) with 15. rewrite (u32_small (x + 15)) by (unfold is_u32; lia). rewrite u32_small by (unfold is_u32; zmod). zmod.
Qed.

Lemma realloc_spec m l1 b l2 n :
  heap_rep m (l1 ++ b :: l2) → 0 < n → limit + osz b + n + 64 < 2 ^ 32 →
  ∃ m', realloc m (adr b) n = Some (m', fst (realloc_blocks l1 b l2 n)) ∧
    heap_rep m' (snd (realloc_blocks l1 b l2 n)) ∧ same_payload (l1 ++ l2) m m' ∧
    (fst (realloc_blocks l1 b l2 n) ≠ 0 →
     load_n (Z.to_nat (sz b)) m' (fst (realloc_blocks l1 b l2 n)) = load_n (Z.to_nat (sz b)) m (adr b)).
Proof.
  intros Hrep Hn Hlim. pose proof Hrep as [Hroom _ _ Hm Hwf Hend (ot & Htl) (o & Hl)].
  pose proof Hroom as [? Ht ? ? ? ?]. change (2 ^ 32) with 4294967296 in *.
  assert (b ∈ l1 ++ b :: l2) as Hb by apply elem_mid.
  destruct (wfl_mem _ _ _ Hwf Hb) as (?&?&?&?&?&?).
  destruct (align_spec (osz b + n)) as [Hmod Hact]; [lia|change (2 ^ 32) with 4294967296; lia|].
  pose proof (find_prev_rep m _ o (adr b) Hrep Hl ltac:(lia)) as Hfind.
  rewrite (split_at_mid _ _ _ _ Hwf) in Hfind.
  destruct (rep_split _ _ _ l1 (b :: l2) Hrep Hl eq_refl) as (N1 & q & Hq & E1 & E2 & _ & (_&_&_&Hnq) & _).
  assert (linked m (b :: l2) boot_heap_tail) as Hlb by (rewrite E2 in Hl; by apply linked_app in Hl as [_ [_ Hl]]).
  destruct Hlb as [(Hba&Hbs&Hbo&Hbn) Hl2].
  unfold realloc, realloc_blocks.
  destruct (Z.eqb_spec (adr b) 0) as [|_]; [lia|]. destruct (Z.eqb_spec n 0) as [|_]; [lia|].
  rewrite Hfind. sbind. rewrite <- Hq, Hnq. sbind. cbn [first] in *.
  destruct (Z.eqb_spec (hdr b) 0) as [|_]; [lia|]. rewrite Hbo, Hbs. sbind.
  rewrite (u32_small (osz b + n)) by (unfold is_u32; lia). set (act := MY_BYTE_ALIGN (osz b + n)) in *.
  destruct (Z.eqb_spec act (sz b)) as [|Hne].
  { exists m. split_and!; by try intros ????. }
  rewrite Hbn, Hba. sbind.
  assert (rd32 m (first l2 boot_heap_tail + off_address) = Some (match l2 with [] => limit | c :: _ => adr c end)) as ->.
  { destruct l2 as [|c l2]; [apply Htl|]. by destruct Hl2 as [(?&_) _]. }
  sbind. unfold sizeof_node. rewrite u32_small by (unfold is_u32; lia).
  replace (adr b + act + 2 * 16) with (adr b + act + 32) by lia.
  destruct (Z.leb_spec (adr b + act + 32) (match l2 with [] => limit | c :: _ => adr c end)) as [Hgap|Hgap].
  - destruct (resize m l1 b l2 act (osz b + n) Hrep Hmod ltac:(lia) ltac:(unfold is_u32; lia) Hgap) as [Hrep' Hsame].
    assert (mapped m (hdr b) 16) as Hmb by (eapply mapped_sub; [exact Hm|lia..]).
    unfold off_size, off_o_size in *. do 2 wr_step Hmb. eexists. split; [done|]. split; [done|]. cbn [fst].
    split; [intros d Hd; by apply Hsame, elem_insert_mid|]. intros _. apply load_n_ext. intros x Hx. apply (Hsame b Hb). lia.
  - assert (request_ok act) as Hok.
    { split; [lia|]. change (2 ^ 32) with 4294967296. lia. }
    pose proof (malloc_spec m _ act Hrep Hok) as Hmal. unfold malloc_result in Hmal.
    assert (MY_BYTE_ALIGN act = act) as Hid by (apply align_idem; [lia|change (2 ^ 32) with 4294967296; lia]).
    rewrite Hid in Hmal. destruct (first_gap base act (l1 ++ b :: l2)) as [[g1 g2]|] eqn:Hg.
    2:{ rewrite Hmal. sbind. simpl. exists m. split_and!; by try intros ????. }
    destruct Hmal as (m1 & -> & Hrep1 & Hsame1 & _). apply first_gap_split in Hg as [Eg _]. symmetry in Eg. sbind.
    set (c := new_blk g1 act) in *.
    assert (sz b <= sz c) as Hsc by (change (sz c) with (MY_BYTE_ALIGN act); rewrite Hid; clearbody act; zmod).
    assert (0 < adr c) as Hcpos.
    { apply rep_wf in Hrep1. destruct (wfl_mem _ _ c Hrep1) as (?&?&?&?&?&?); [apply elem_mid|lia]. }
    destruct (Z.eqb_spec (adr c) 0) as [|_]; [lia|].
    destruct (realloc_move m1 l1 b l2 g1 g2 c (hdr q) Eg Hrep1 Hsc) as (bs & m' & Hbs1 & Hcp & Hw & Hrep' & Hld & Hsame').
    { rewrite Hq. by destruct l1. }
    assert (rd32 m1 (hdr b + off_address) = Some (adr b) ∧ rd32 m1 (hdr b + off_size) = Some (sz b)) as [-> ->].
    { rewrite <- Eg in Hb. apply (rep_fields m1 _ b Hrep1). by apply elem_insert_mid. }
    sbind. rewrite Hcp. sbind.
    destruct (rd32 (write_bytes m1 (adr c) bs) (hdr b + off_next)) as [nx|]; [|done]. cbn [mbind option_bind] in Hw. sbind.
    rewrite Hw. sbind. exists m'. split; [done|]. split; [done|]. cbn [fst].
    split.
    + intros d Hd. eapply same_trans; [by apply Hsame1, elem_insert_mid|apply Hsame'; rewrite Eg; by apply elem_insert_mid].
    + intros _. rewrite Hld, <- Hbs1. apply load_n_ext. intros x Hx. apply (Hsame1 b Hb). lia.
Qed.

(** ** Initialisation and reachable heaps *)

Lemma malloc_init_spec m :
  heap_room → mapped m boot_heap_head 16 → mapped m boot_heap_tail 16 → mapped m base (limit - base) →
  ∃ m', malloc_init m base (limit - base) = Some m' ∧ heap_rep m' [] ∧ same_outside m m'.
Proof.
  intros Hroom Hmh Hmt Hm. pose proof Hroom as [? ? ? ? ? ?]. change (2 ^ 32) with 4294967296 in *.
  unfold malloc_init, off_address, off_size, off_next.
  rewrite (u32_small (base + (limit - base))) by (unfold is_u32; lia).
  replace (base + (limit - base)) with limit by lia.
  wr_step Hmt. do 2 wr_step Hmh. wr_step Hmt. wr_step Hmh.
  rewrite wr32_mapped by (repeat apply mapped_w32; eapply mapped_sub; [exact Hmt|lia..]).
  eexists. split; [done|]. split; [|intros x ???; rewrite !lookup_w32_out by lia; done].
  constructor; auto 10 with heap; simpl; [done|lia|exists (default 0 (rd32 m (boot_heap_tail + 8)))
                                         |exists (default 0 (rd32 m (boot_heap_head + 8)))].
  - destruct (mapped_load m (boot_heap_tail + 8) 4) as (bs & Hbs & _); [eapply mapped_sub; [exact Hmt|lia..]|].
    unfold node_at, off_address, off_size, off_o_size, off_next.
    repeat split; repeat first [rewrite rd32_w32_eq by (unfold is_u32; lia) | rewrite rd32_w32_ne by lia]; try done.
    unfold rd32. by rewrite Hbs.
  - destruct (mapped_load m (boot_heap_head + 8) 4) as (bs & Hbs & _); [eapply mapped_sub; [exact Hmh|lia..]|].
    split; [|done]. unfold node_at, off_address, off_size, off_o_size, off_next. simpl.
    repeat split; repeat first [rewrite rd32_w32_eq by (unfold is_u32; lia) | rewrite rd32_w32_ne by lia]; try done.
    unfold rd32. by rewrite Hbs.
Qed.

Definition live (m : mem) (b : blk) : Prop := ∃ l, heap_rep m l ∧ b ∈ l.

Lemma live_split m b : live m b → ∃ l1 l2, heap_rep m (l1 ++ b :: l2) ∧ 0 < adr b < limit.
Proof.
  intros (l & Hrep & Hb). pose proof Hrep as [[? ? ? ? ? ?] _ _ _ Hwf Hend _ _].
  destruct (wfl_mem _ _ _ Hwf Hb) as (?&?&?&?&?&?).
  apply list_elem_of_split in Hb as (l1 & l2 & ->). exists l1, l2. split; [done|lia].
Qed.

(** *** A program and its heap *)

(** The rounding to sixteen bytes. *)
Definition up16 (x : Z) : Z := (x + 15) / 16 * 16.

(** What [realloc] counts for a block of [c] bytes enlarged by [n]: a block
    that moved is counted with its rounded size, and one whose rounded size is
    already right keeps its count. *)
Definition regrown (c n : Z) (moved : bool) : Z :=
  if moved then up16 (c + n) else if up16 (c + n) =? up16 c then c else c + n.

(** [realloc] returned [r] for [p], and [r] lies before [p] with no block the
    program holds in between: the case in which the block goes missing. *)
Definition lost (held : gmap Z Z) (p r : Z) : Prop :=
  r ≠ 0 ∧ r < p ∧ ∀ q c, held !! q = Some c → ¬ (r < q < p).

(** What a program does with its heap, and the blocks it then [held]s (the
    addresses it got and has not given back, with the bytes counted for them):
    the three operations, and writes inside its own blocks. *)
Inductive heap_step : mem * gmap Z Z → mem * gmap Z Z → Prop :=
| step_malloc m held n m' p :
    request_ok n → malloc m n = Some (m', p) →
    heap_step (m, held) (m', if p =? 0 then held else <[p := n]> held)
| step_free m held p c m' :
    held !! p = Some c → free m p = Some m' → heap_step (m, held) (m', delete p held)
| step_realloc m held p c n m' r :
    held !! p = Some c → 0 < n → limit + c + n + 64 < 2 ^ 32 → realloc m p n = Some (m', r) → ¬ lost held p r →
    heap_step (m, held) (m', if r =? 0 then held else <[r := regrown c n (negb (r =? p))]> (delete p held))
| step_write m held p c a bs :
    held !! p = Some c → p <= a → a + Z.of_nat (length bs) <= p + up16 c →
    heap_step (m, held) (write_bytes m a bs, held).

(** The blocks in the list are the blocks that are held. *)
Definition held_by (held : gmap Z Z) (l : list blk) : Prop :=
  ∀ p c, held !! p = Some c ↔ ∃ b, b ∈ l ∧ adr b = p ∧ osz b = c.

Lemma up16_spec x y : y mod 16 = 0 → x <= y < x + 16 → y = up16 x.
Proof. unfold up16. zmod. Qed.

Lemma wfl_up16 lo l b : wfl lo l → b ∈ l → sz b = up16 (osz b).
Proof. intros Hwf Hb. destruct (wfl_mem _ _ _ Hwf Hb) as (?&?&?&?&?&?). apply up16_spec; lia. Qed.

Lemma align_up16 x : 0 <= x → x + 15 < 2 ^ 32 → MY_BYTE_ALIGN x = up16 x.
Proof. intros H0 H1. destruct (align_spec x H0 H1). apply up16_spec; lia. Qed.

Lemma wfl_adr_inj lo l b c : wfl lo l → b ∈ l → c ∈ l → adr b = adr c → b = c.
Proof.
  intros Hwf Hb Hc Heq. destruct (wfl_mem _ _ _ Hwf Hb) as (?&?&?&?&?&?), (wfl_mem _ _ _ Hwf Hc) as (?&?&?&?&?&?).
  destruct (wfl_pair _ _ _ _ Hwf Hb Hc) as [|[|]]; [done|lia..].
Qed.

Lemma wfl_fresh_adr lo l1 b l2 c : wfl lo (l1 ++ b :: l2) → c ∈ l1 ++ l2 → adr c ≠ adr b.
Proof.
  intros Hwf Hc Heq. assert (c = b) as ->; [|by eapply wfl_fresh].
  eapply wfl_adr_inj; [exact Hwf|by apply elem_insert_mid|apply elem_mid|done].
Qed.

Lemma held_find held l p c : held_by held l → held !! p = Some c → ∃ l1 b l2, l = l1 ++ b :: l2 ∧ adr b = p ∧ osz b = c.
Proof. intros Hh Hp. apply Hh in Hp as (b & Hb & <- & <-). apply list_elem_of_split in Hb as (l1 & l2 & ->). by exists l1, b, l2. Qed.

Lemma held_insert held lo l1 b l2 :
  wfl lo (l1 ++ b :: l2) → held_by held (l1 ++ l2) → held_by (<[adr b := osz b]> held) (l1 ++ b :: l2).
Proof.
  intros Hwf Hh p c. split.
  - intros [[<- <-]|[Hne Hp]]%lookup_insert_Some; [exists b; split; [apply elem_mid|done]|].
    apply Hh in Hp as (d & Hd & ?). exists d. split; [by apply elem_insert_mid|done].
  - intros (d & Hd & <- & <-). apply lookup_insert_Some. destruct (decide (d = b)) as [->|Hne]; [by left|right].
    split; [|apply Hh; exists d; split; [|done]].
    + intros Heq. apply Hne. eapply wfl_adr_inj; [exact Hwf|done|apply elem_mid|done].
    + rewrite elem_of_app, elem_of_cons in *. tauto.
Qed.

Lemma held_delete held lo l1 b l2 :
  wfl lo (l1 ++ b :: l2) → held_by held (l1 ++ b :: l2) → held_by (delete (adr b) held) (l1 ++ l2).
Proof.
  intros Hwf Hh p c. split.
  - intros [Hne Hp]%lookup_delete_Some. apply Hh in Hp as (d & Hd & <- & <-). exists d. split; [|done].
    rewrite elem_of_app, elem_of_cons in *. destruct Hd as [|[->|]]; [by left|done|by right].
  - intros (d & Hd & <- & <-). apply lookup_delete_Some. split; [by apply not_eq_sym, (wfl_fresh_adr lo l1 b l2 d)|].
    apply Hh. exists d. split; [by apply elem_insert_mid|done].
Qed.

Lemma held_mid_insert held lo l l1 b l2 :
  l = l1 ++ l2 → wfl lo (l1 ++ b :: l2) → held_by held l → held_by (<[adr b := osz b]> held) (l1 ++ b :: l2).
Proof. intros ->. apply held_insert. Qed.

(** The list [realloc] leaves and the blocks the program then holds. *)
Lemma realloc_held m m' held l1 b l2 n r :
  heap_rep m (l1 ++ b :: l2) → held_by held (l1 ++ b :: l2) → 0 < n → limit + osz b + n + 64 < 2 ^ 32 →
  heap_rep m' (snd (realloc_blocks l1 b l2 n)) → r = fst (realloc_blocks l1 b l2 n) → ¬ lost held (adr b) r →
  held_by (if r =? 0 then held else <[r := regrown (osz b) n (negb (r =? adr b))]> (delete (adr b) held))
    (snd (realloc_blocks l1 b l2 n)).
Proof.
  intros Hrep Hh Hn Hlim Hrep' Hr Hlost. pose proof (rep_wf _ _ Hrep) as Hwf. pose proof (rep_room _ _ Hrep) as [? ? ? ? ? ?].
  destruct (wfl_mem _ _ _ Hwf (elem_mid l1 b l2)) as (?&?&?&?&?&?).
  pose proof (wfl_up16 _ _ _ Hwf (elem_mid l1 b l2)) as Hsz. pose proof (held_delete _ _ _ _ _ Hwf Hh) as Hd.
  apply rep_wf in Hrep'. revert Hr Hrep'. unfold realloc_blocks.
  change (2 ^ 32) with 4294967296 in *. rewrite align_up16, Hsz by (change (2 ^ 32) with 4294967296; lia).
  assert (up16 (osz b + n) = MY_BYTE_ALIGN (osz b + n)) as Hal by (rewrite align_up16; [done|lia|change (2 ^ 32) with 4294967296; lia]).
  unfold regrown. destruct (up16 (osz b + n) =? up16 (osz b)).
  { cbn [fst snd]. intros -> _. rewrite Z.eqb_refl. destruct (Z.eqb_spec (adr b) 0); [lia|]. cbn [negb]. by apply (held_insert _ base). }
  case_match; cbn [fst snd].
  { intros -> Hw. rewrite Z.eqb_refl. destruct (Z.eqb_spec (adr b) 0); [lia|]. cbn [negb].
    apply (held_insert _ base l1 (Blk (hdr b) (adr b) _ (osz b + n)) l2 Hw Hd). }
  destruct (first_gap base (up16 (osz b + n)) (l1 ++ b :: l2)) as [[g1 g2]|] eqn:Hg; [|by intros -> _].
  apply first_gap_split in Hg as [Eg Hroom]. cbn [fst snd]. set (c := new_blk g1 (up16 (osz b + n))) in *.
  intros -> Hw. assert (base <= end_of base g1).
  { apply wfl_end. apply (wfl_app base g1 g2). by rewrite <- Eg. }
  assert (osz b + n <= up16 (osz b + n)) as Hup by (unfold up16; zmod).
  assert (adr c = end_of base g1 + 16) as Hc by done. destruct (Z.eqb_spec (adr c) 0); [lia|].
  destruct (Nat.compare_spec (length g1) (length l1)) as [Hlen|Hlen|Hlen].
  - exfalso. apply Hlost. apply app_inj_1 in Eg as [<- <-]; [|done]. clear Hw. split; [done|].
    apply wfl_app in Hwf as [Hw1 (?&?&?&?&?&Hw2)]. cbn beta iota in Hroom. split; [lia|]. intros q k Hq Hin.
    apply Hh in Hq as (d & Hdin & <- & _). apply elem_of_app in Hdin as [Hdin|Hdin%elem_of_cons].
    + destruct (wfl_mem _ _ _ Hw1 Hdin) as (?&?&?&?&?&?). lia.
    + destruct Hdin as [->|Hdin]; [lia|]. destruct (wfl_mem _ _ _ Hw2 Hdin) as (?&?&?&?&?&?). lia.
  - apply app_eq_inv in Eg as [(k & -> & ->)|(k & -> & _)]; [|rewrite length_app in Hlen; lia].
    rewrite drop_app_length, <- !app_assoc in *. cbn [app] in *.
    assert (adr c < adr b).
    { apply wfl_app in Hw as [_ (_ & _ & _ & _ & _ & _)]. apply wfl_app in Hwf as [_ Hw2].
      destruct k as [|d k]; cbn [app wfl] in *; [lia|]. destruct Hw2 as (?&?&?&?&?&Hw2).
      destruct (wfl_mem _ _ b Hw2) as (?&?&?&?&?&?); [apply elem_mid|lia]. }
    destruct (Z.eqb_spec (adr c) (adr b)); [lia|]. exact (held_insert _ base g1 c (k ++ l2) Hw Hd).
  - apply app_eq_inv in Eg as [(k & -> & _)|(k & -> & Eg)]; [rewrite length_app in Hlen; lia|].
    destruct k as [|d k]; [rewrite app_nil_r in Hlen; lia|]. injection Eg as <- ->.
    rewrite drop_app_ge in * by lia. replace (S (length l1) - length l1)%nat with 1%nat in * by lia. cbn [drop] in *.
    assert (adr b < adr c).
    { apply wfl_app in Hwf as [_ (?&?&?&?&?&Hw2)]. rewrite end_of_app in *. cbn [end_of] in *.
      apply wfl_app in Hw2 as [Hw2 _]. apply wfl_end in Hw2. lia. }
    destruct (Z.eqb_spec (adr c) (adr b)); [lia|]. rewrite app_assoc in *. exact (held_insert _ base (l1 ++ k) c g2 Hw Hd).
Qed.

Lemma heap_step_rep st st' l :
  heap_rep (fst st) l → held_by (snd st) l → heap_step st st' → ∃ l', heap_rep (fst st') l' ∧ held_by (snd st') l'.
Proof.
  intros Hrep Hh Hstep. destruct Hstep as [m held n m' p Hok Hm|m held p c m' Hp Hf|m held p c n m' r Hp Hn Hlim Hr Hl|m held p c a bs Hp Ha Hlen];
    cbn [fst snd] in *.
  - pose proof (malloc_spec m l n Hrep Hok) as Hs. unfold malloc_result in Hs.
    destruct (first_gap _ _ _) as [[l1 l2]|] eqn:Hg.
    + destruct Hs as (m1 & Hm1 & Hrep1 & _). rewrite Hm in Hm1. injection Hm1 as -> ->. apply first_gap_split in Hg as [-> _].
      pose proof (wfl_mem _ _ _ (rep_wf _ _ Hrep1) (elem_mid l1 _ l2)) as (?&?&?&?&?&?). destruct (rep_room _ _ Hrep) as [? ? ? ? ? ?].
      change (end_of base l1 + 16) with (adr (new_blk l1 n)). destruct (Z.eqb_spec (adr (new_blk l1 n)) 0); [lia|]. eexists. split; [exact Hrep1|].
      exact (held_insert _ base l1 (new_blk l1 n) l2 (rep_wf _ _ Hrep1) Hh).
    + rewrite Hm in Hs. injection Hs as -> ->. eauto.
  - destruct (held_find _ _ _ _ Hh Hp) as (l1 & b & l2 & -> & <- & <-).
    destruct (live_split m b) as (_ & _ & _ & ?); [exists (l1 ++ b :: l2); split; [done|apply elem_mid]|].
    pose proof (free_spec m _ (adr b) Hrep ltac:(lia) ltac:(lia)) as Hs.
    rewrite (split_at_mid _ _ _ _ (rep_wf _ _ Hrep)) in Hs. destruct Hs as (m1 & Hm1 & Hrep1 & _).
    rewrite Hf in Hm1. injection Hm1 as ->. exists (l1 ++ l2). split; [done|]. exact (held_delete _ _ _ _ _ (rep_wf _ _ Hrep) Hh).
  - destruct (held_find _ _ _ _ Hh Hp) as (l1 & b & l2 & -> & <- & <-).
    destruct (realloc_spec m l1 b l2 n Hrep Hn Hlim) as (m1 & Hm1 & Hrep1 & _). rewrite Hr in Hm1. injection Hm1 as -> ->.
    eexists. split; [exact Hrep1|]. by apply (realloc_held m m1).
  - destruct (held_find _ _ _ _ Hh Hp) as (l1 & b & l2 & -> & <- & <-). pose proof (elem_mid l1 b l2) as Hb.
    rewrite <- (wfl_up16 _ _ _ (rep_wf _ _ Hrep) Hb) in Hlen. destruct (write_payload m _ b a bs Hrep Hb Ha Hlen) as [Hrep1 _]. eauto.
Qed.

Lemma heap_reach st st' l :
  heap_rep (fst st) l → held_by (snd st) l → rtc heap_step st st' → ∃ l', heap_rep (fst st') l' ∧ held_by (snd st') l'.
Proof.
  intros Hrep Hh Hr. revert l Hrep Hh. induction Hr as [|st st1 st2 Hs _ IH]; intros l Hrep Hh; [eauto|].
  destruct (heap_step_rep _ _ _ Hrep Hh Hs) as (l1 & Hrep1 & Hh1). eauto.
Qed.


End spec.
End rep.

(** ** A concrete heap *)

(** The static nodes at 0x100 and 0x110, the region from 0x140. *)
Definition demo_layout (c : option Z) : heap_layout := HeapLayout 0x100 0x110 c.
Definition demo_mem : mem := mem_of 0x100 (replicate 512 0).
Definition demo_init (c : option Z) : option mem := malloc_init (L := demo_layout c) demo_mem 0x140 (0x2c0 - 0x140).

Lemma demo_room c : heap_room (L := demo_layout c) 0x140 0x2c0.
Proof. constructor; simpl; try lia. by repeat split. Qed.

Lemma demo_rep :
  ∃ m, demo_init None = Some m ∧ heap_rep (L := demo_layout None) 0x140 0x2c0 m [].
Proof.
  unfold demo_init. destruct (malloc_init_spec (L := demo_layout None) 0x140 0x2c0 demo_mem) as (m & Hm & Hrep & _);
    [apply demo_room|apply mappedb_spec; vm_compute; reflexivity..|]. eauto.
Qed.

(** ** Theorems *)

(** C4: however a program uses its heap after [malloc_init] (allocations,
    releases and reallocations of blocks it holds in any order, and writes
    inside its own blocks; only the reallocation that [realloc_loses_block]
    shows is left out), the blocks it holds stay aligned to sixteen bytes,
    inside the region, at least as large as what is counted for them, and
    pairwise disjoint together with their headers; they are exactly the blocks
    in the allocator's list, and every one of them can be given back. *)
Theorem heap_safe `{L : heap_layout} base limit m0 m1 m held :
  cache_line = None → heap_room base limit →
  mapped m0 boot_heap_head 16 → mapped m0 boot_heap_tail 16 → mapped m0 base (limit - base) →
  malloc_init m0 base (limit - base) = Some m1 → rtc (heap_step limit) (m1, ∅) (m, held) →
  (∀ p c, held !! p = Some c →
     p mod 16 = 0 ∧ base + 16 <= p ∧ p + up16 c <= limit ∧ 0 < c <= up16 c ∧ is_Some (free m p)) ∧
  (∀ p c q d, held !! p = Some c → held !! q = Some d → p ≠ q → p + up16 c <= q - 16 ∨ q + up16 d <= p - 16) ∧
  (∃ l, heap_rep base limit m l ∧ held_by held l).
Proof.
  intros Hcl Hroom Hh Ht Hm Hinit Hr.
  destruct (malloc_init_spec base limit m0 Hroom Hh Ht Hm) as (m' & Hi & Hrep & _).
  rewrite Hinit in Hi. injection Hi as <-.
  destruct (heap_reach base limit Hcl (m1, ∅) (m, held) [] Hrep) as (l & Hl & Hheld); [|exact Hr|].
  { intros p c. split; [done|]. by intros (b & []%elem_of_nil & _). }
  cbn [fst snd] in *. pose proof Hl as [_ _ _ _ Hwf Hend _ _]. split; [|split; [|by exists l]].
  - intros p c (l1 & b & l2 & -> & <- & <-)%(held_find _ _ _ _ Hheld). pose proof (elem_mid l1 b l2) as Hb.
    destruct (live_split base limit m b) as (_ & _ & _ & ?); [by eexists|].
    pose proof (free_spec base limit m _ (adr b) Hl ltac:(lia) ltac:(lia)) as Hs.
    rewrite (split_at_mid _ _ _ _ Hwf) in Hs. destruct Hs as (m2 & Hm2 & _).
    destruct (wfl_mem _ _ _ Hwf Hb) as (?&?&Ha&?&?&?). rewrite <- (wfl_up16 _ _ _ Hwf Hb).
    split; [zmod|]. split; [lia|]. split; [lia|]. split; [lia|]. rewrite Hm2. by eexists.
  - intros p c q d Hp Hq Hne. apply Hheld in Hp as (b & Hb & <- & <-). apply Hheld in Hq as (e & He & <- & <-).
    rewrite <- (wfl_up16 _ _ _ Hwf Hb), <- (wfl_up16 _ _ _ Hwf He).
    destruct (wfl_mem _ _ _ Hwf Hb) as (?&?&?&?&?&?), (wfl_mem _ _ _ Hwf He) as (?&?&?&?&?&?).
    destruct (wfl_pair _ _ _ _ Hwf Hb He) as [->|[|]]; [done|lia..].
Qed.

Lemma heap_safe_witness :
  ∃ m1 m2 m3, demo_init None = Some m1 ∧ malloc (L := demo_layout None) m1 40 = Some (m2, 0x150) ∧
    malloc (L := demo_layout None) m2 20 = Some (m3, 0x190) ∧ is_Some (free (L := demo_layout None) m3 0x150).
Proof.
  destruct demo_rep as (m1 & Hi & Hrep). set (L := demo_layout None).
  assert (∀ n, 0 < n < 100 → request_ok 0x2c0 n) as Hok by (unfold request_ok; lia).
  pose proof (malloc_spec (L := L) 0x140 0x2c0 eq_refl m1 [] 40 Hrep (Hok 40 ltac:(lia))) as (m2 & Hm2 & Hrep2 & _).
  pose proof (malloc_spec (L := L) 0x140 0x2c0 eq_refl m2 _ 20 Hrep2 (Hok 20 ltac:(lia))) as (m3 & Hm3 & _).
  unfold demo_init in Hi. exists m1, m2, m3. split; [exact Hi|]. split; [exact Hm2|]. split; [exact Hm3|].
  destruct (heap_safe (L := L) 0x140 0x2c0 demo_mem m1 m3 (<[0x190 := 20]> (<[0x150 := 40]> ∅)) eq_refl (demo_room None)
    ltac:(apply mappedb_spec; vm_compute; reflexivity) ltac:(apply mappedb_spec; vm_compute; reflexivity)
    ltac:(apply mappedb_spec; vm_compute; reflexivity) Hi) as (Hall & _).
  { eapply rtc_l; [exact (step_malloc 0x2c0 m1 ∅ 40 m2 0x150 (Hok 40 ltac:(lia)) Hm2)|].
    apply rtc_once. exact (step_malloc 0x2c0 m2 (<[0x150 := 40]> ∅) 20 m3 0x190 (Hok 20 ltac:(lia)) Hm3). }
  apply (Hall 0x150 40 eq_refl).
Defined.

(** C30: [malloc] returns on every heap and is first fit: it takes the first
    gap that holds the request, its header and one spare header, makes exactly
    that block live and changes no live block's contents and nothing outside the
    region and the static nodes; it returns NULL,
    with memory unchanged, exactly when no gap is large enough. *)
Theorem malloc_first_fit `{L : heap_layout} base limit m l n :
  cache_line = None → heap_rep base limit m l → request_ok limit n →
  match first_gap limit base (MY_BYTE_ALIGN n) l with
  | None => malloc m n = Some (m, 0)
  | Some (l1, l2) =>
      ∃ m', malloc m n = Some (m', end_of base l1 + 16) ∧
        heap_rep base limit m' (l1 ++ Blk (end_of base l1) (end_of base l1 + 16) (MY_BYTE_ALIGN n) n :: l2) ∧
        l = l1 ++ l2 ∧ same_payload l m m' ∧ same_outside base limit m m'
  end.
Proof.
  intros Hcl Hrep Hok. pose proof (malloc_spec base limit Hcl m l n Hrep Hok) as H. unfold malloc_result in H.
  destruct (first_gap _ _ _ _) as [[l1 l2]|] eqn:Hg; [|done].
  destruct H as (m' & H1 & H2 & H3). exists m'. apply first_gap_split in Hg as [Hg _]. done.
Qed.

Lemma malloc_first_fit_witness :
  ∃ m m' l', demo_init None = Some m ∧ malloc (L := demo_layout None) m 40 = Some (m', 0x150) ∧
    heap_rep (L := demo_layout None) 0x140 0x2c0 m' l'.
Proof.
  destruct demo_rep as (m & Hm & Hrep). exists m.
  pose proof (malloc_first_fit (L := demo_layout None) 0x140 0x2c0 m [] 40 eq_refl Hrep ltac:(unfold request_ok; lia)) as H.
  vm_compute first_gap in H. destruct H as (m' & H1 & H2 & _). eauto.
Defined.

(** Giving a block back right after [malloc] returned it restores the
    list of live blocks and leaves every live block's contents as it was. *)
Theorem malloc_free_roundtrip `{L : heap_layout} base limit m l n m' p :
  cache_line = None → heap_rep base limit m l → request_ok limit n →
  malloc m n = Some (m', p) → p ≠ 0 →
  ∃ m'', free m' p = Some m'' ∧ heap_rep base limit m'' l ∧ same_payload l m m''.
Proof.
  intros Hcl Hrep Hok Hm Hp. pose proof (malloc_spec base limit Hcl m l n Hrep Hok) as H. unfold malloc_result in H.
  destruct (first_gap _ _ _ _) as [[l1 l2]|] eqn:Hg; [|congruence].
  destruct H as (m1 & H1 & H2 & H3 & _). rewrite Hm in H1. injection H1 as -> ->.
  apply first_gap_split in Hg as [-> _]. set (b := new_blk base l1 n) in *.
  assert (live base limit m1 b) as Hlive by (exists (l1 ++ b :: l2); split; [done|apply elem_of_app; right; by left]).
  destruct (live_split _ _ _ _ Hlive) as (_ & _ & _ & Hlim).
  pose proof (free_spec base limit m1 _ (adr b) H2 Hp ltac:(lia)) as Hf.
  rewrite (split_at_mid _ _ _ _ (rep_wf _ _ _ _ H2)) in Hf. destruct Hf as (m'' & Hf & Hrep' & Hs & _).
  exists m''. split; [exact Hf|]. split; [done|]. intros c Hc. eapply same_trans; [by apply H3|apply Hs].
  rewrite elem_of_app in *. rewrite elem_of_cons. tauto.
Qed.

Lemma malloc_free_roundtrip_witness :
  ∃ m m' m'', demo_init None = Some m ∧ malloc (L := demo_layout None) m 40 = Some (m', 0x150) ∧
    free (L := demo_layout None) m' 0x150 = Some m'' ∧ heap_rep (L := demo_layout None) 0x140 0x2c0 m'' [].
Proof.
  destruct demo_rep as (m & Hi & Hrep).
  assert (request_ok 0x2c0 40) as Hok by (unfold request_ok; lia).
  pose proof (malloc_spec (L := demo_layout None) 0x140 0x2c0 eq_refl m [] 40 Hrep Hok) as (m' & Hm & _).
  destruct (malloc_free_roundtrip (L := demo_layout None) 0x140 0x2c0 m [] 40 m' 0x150 eq_refl Hrep
    Hok Hm ltac:(done)) as (m'' & H1 & H2 & _). exists m, m', m''. auto.
Defined.

(** C32: [realloc] of a live block returns the block and the heap its
    specification gives, keeps the contents of every other live block, and,
    unless it returns NULL, the first [size] bytes of the result are the old
    block's bytes. *)
Theorem realloc_keeps_contents `{L : heap_layout} base limit m l1 b l2 n :
  cache_line = None → heap_rep base limit m (l1 ++ b :: l2) → 0 < n → limit + osz b + n + 64 < 2 ^ 32 →
  let '(r, l') := realloc_blocks base limit l1 b l2 n in
  ∃ m', realloc m (adr b) n = Some (m', r) ∧ heap_rep base limit m' l' ∧ same_payload (l1 ++ l2) m m' ∧
    (r ≠ 0 → load_n (Z.to_nat (sz b)) m' r = load_n (Z.to_nat (sz b)) m (adr b)).
Proof.
  intros Hcl Hrep Hn Hlim. pose proof (realloc_spec base limit Hcl m l1 b l2 n Hrep Hn Hlim) as H.
  destruct (realloc_blocks base limit l1 b l2 n). exact H.
Qed.

Lemma realloc_keeps_contents_witness :
  ∃ m m1 m2, demo_init None = Some m ∧ malloc (L := demo_layout None) m 40 = Some (m1, 0x150) ∧
    realloc (L := demo_layout None) m1 0x150 20 = Some (m2, 0x150) ∧
    load_n 48 m2 0x150 = load_n 48 m1 0x150.
Proof.
  destruct demo_rep as (m & Hi & Hrep).
  assert (request_ok 0x2c0 40) as Hok by (unfold request_ok; lia).
  pose proof (malloc_spec (L := demo_layout None) 0x140 0x2c0 eq_refl m [] 40 Hrep Hok) as (m1 & Hm & Hrep1 & _).
  destruct (realloc_keeps_contents (L := demo_layout None) 0x140 0x2c0 m1 [] (Blk 0x140 0x150 48 40) [] 20 eq_refl
    Hrep1 ltac:(lia) ltac:(simpl; lia)) as (m2 & H1 & _ & _ & H2).
  exists m, m1, m2. split; [exact Hi|]. split; [exact Hm|]. split; [exact H1|]. apply H2. done.
Defined.

(** ** Where the code goes wrong *)

(** When [realloc] has to move a block and the first gap lies directly
    before it, the new block goes missing: the call returns its address, but
    the unlinking of the old node drops both, and the next [malloc] hands the
    same address out again. *)
Theorem realloc_loses_block :
  (m ← demo_init None;
   '(m, a) ← malloc (L := demo_layout None) m 64;
   '(m, b) ← malloc (L := demo_layout None) m 16;
   '(m, c) ← malloc (L := demo_layout None) m 16;
   m ← free (L := demo_layout None) m a;
   '(m, d) ← realloc (L := demo_layout None) m b 16;
   '(m, e) ← malloc (L := demo_layout None) m 16;
   Some (a, b, c, d, e)) = Some (0x150, 0x1a0, 0x1c0, 0x150, 0x150).
Proof. vm_compute. reflexivity. Qed.

(** [realloc] does not count an enlargement that fits the rounding of the block:
    ten bytes enlarged twice by six are 22 bytes for the caller, but the block
    it gets back has sixteen, and the next block's header follows. *)
Theorem realloc_forgets_growth :
  (m ← demo_init None;
   '(m, a) ← malloc (L := demo_layout None) m 10;
   '(m, b) ← realloc (L := demo_layout None) m a 6;
   '(m, c) ← realloc (L := demo_layout None) m b 6;
   '(m, d) ← malloc (L := demo_layout None) m 16;
   s ← rd32 m (c - sizeof_node + off_size);
   Some (a, b, c, s, d - sizeof_node)) = Some (0x150, 0x150, 0x150, 16, 0x160).
Proof. vm_compute. reflexivity. Qed.

(** A request of at least 2^32 - 15 bytes wraps to a block of size zero:
    [malloc] does not fail, and the next block starts sixteen bytes behind
    it. *)
Theorem malloc_wraps n :
  2 ^ 32 - 15 <= n < 2 ^ 32 →
  MY_BYTE_ALIGN (L := demo_layout None) n = 0 ∧
  (m ← demo_init None;
   '(m, a) ← malloc (L := demo_layout None) m 0xfffffff8;
   '(m, b) ← malloc (L := demo_layout None) m 16;
   Some (a, b)) = Some (0x150, 0x160).
Proof.
  intros Hn. split; [|vm_compute; reflexivity]. unfold MY_BYTE_ALIGN. cbn [demo_layout cache_line default].
  change (2 ^ 32) with 4294967296 in *. unfold u32. zmod.
Qed.

Lemma malloc_wraps_witness : MY_BYTE_ALIGN (L := demo_layout None) 0xfffffff8 = 0.
Proof. apply malloc_wraps. lia. Defined.

(** With [CFG_RISCV_CACHE_LINE] = 64 the address is aligned up after the
    gap was measured without the alignment: the block [d] returned by the
    fourth [malloc] covers the header (at 0x240) of the live block [c], and
    once the program has written [d]'s own 128 bytes the next [malloc]
    returns a block behind the end (0x2c0) of the region. *)
Theorem cache_line_overlaps :
  let L := demo_layout (Some 64) in
  (m ← demo_init (Some 64);
   '(m, a) ← malloc (L := L) m 1;
   '(m, b) ← malloc (L := L) m 64;
   '(m, c) ← malloc (L := L) m 1;
   m ← free (L := L) m b;
   '(m, d) ← malloc (L := L) m 128;
   hc ← rd32 m (0x240 + off_address);
   '(_, e) ← malloc (L := L) (write_bytes m d (replicate 128 255)) 16;
   Some (c, hc, d, e)) = Some (0x280, 0x280, 0x200, 0x2c0).
Proof. vm_compute. reflexivity. Qed.
