(* ===== verification/Gpt.v ===== *)
(** * The partition table (spl/common/part_efi.c)

    The cached GUID partition table: [init_gpt] allocates a buffer on the
    boot heap ([Heap]), reads the table from flash into it and keeps it when
    its signature is right; [get_part_info_by_name] searches it; [deinit_gpt]
    drops it.  All run on the byte memory, so that the output pointers of the
    search are addresses like any other.  The flash driver, the start sector
    of the table and the memory layout of the heap are parameters.

    The theorems: a search returns the first entry of that name, with the
    sector arithmetic of the code; [init_gpt] loads the table or releases its
    buffer; after [deinit_gpt] a new [init_gpt] reports success without
    loading anything; and callers that pass NULL for the size fault. *)

From S2P Require Import Prelude Mem CString Heap.

Local Open Scope Z_scope.
Local Open Scope c_scope.

(** ** Data *)

Definition SUNXI_MBR_SIZE : Z := 4 * 1024.
Definition GPT_HEADER_SIGNATURE : Z := 0x5452415020494645.
Definition GPT_ENTRY_OFFSET : Z := 1024.
Definition GPT_HEAD_OFFSET : Z := 512.
Definition PARTNAME_SZ : nat := 36.

(** Offsets in the packed [gpt_header] and [gpt_entry]. *)
Definition off_signature : Z := 0.
Definition off_num_partition_entries : Z := 80.
Definition sizeof_gpt_entry : Z := 128.
Definition off_starting_lba : Z := 32.
Definition off_ending_lba : Z := 40.
Definition off_partition_name : Z := 56.

(** The two static variables. *)
Record gpt_state := GptState { gpt_data_point : Z; is_gpt_init : Z }.

(** The storage driver: its initialisation result and the sectors it reads;
    [None] is a failed read.  [gpt_start_sector] is where the build puts the
    table. *)
Class storage := Storage {
  spl_flash_init : Z;
  spl_flash_read : Z → Z → option bytes;
  gpt_start_sector : Z
}.

Definition rdn (n : nat) (m : mem) (a : Z) : option Z := le_val <$> load_n n m a.

(** ** The code *)

Section code.
Context `{L : heap_layout} `{F : storage}.

(** A read into a buffer: nothing is stored when the driver fails. *)
Definition flash_read_to (m : mem) (start count buffer : Z) : option (mem * Z) :=
  match spl_flash_read start count with
  | Some bs => m ← store_n m buffer bs; Some (m, 0)
  | None => Some (m, -1)
  end.

Definition load_gpt (m : mem) (buffer : Z) : option (mem * Z) :=
  if negb (spl_flash_init =? 0) then Some (m, -1)
  else
    let sectors := 1 * SUNXI_MBR_SIZE / 512 in
    '(m, ret) ← flash_read_to m gpt_start_sector sectors buffer;
    if negb (ret =? 0) then Some (m, -1) else Some (m, 0).

Definition is_gpt_valid (m : mem) (buffer : Z) : option Z :=
  sig ← rdn 8 m (buffer + GPT_HEAD_OFFSET + off_signature);
  Some (if negb (sig =? GPT_HEADER_SIGNATURE) then 0 else 1).

(** The inner loop: the low bytes of the UTF-16 name. *)
Fixpoint char8_name (k : nat) (m : mem) (a : Z) : option bytes :=
  match k with
  | O => Some []
  | S k' => c ← rdn 2 m a; cs ← char8_name k' m (a + 2); Some (u8 c :: cs)
  end.

(** [k] entries from [entry] on; the caller's two pointers are written when
    the name is found. *)
Fixpoint part_loop (k : nat) (m : mem) (entry : Z) (name : bytes) (start_sector sectors : Z) :
    option (mem * Z) :=
  match k with
  | O => Some (m, -1)
  | S k' =>
      char8 ← char8_name PARTNAME_SZ m (entry + off_partition_name);
      r ← strcmp name char8;
      if r =? 0 then
        lba ← rdn 8 m (entry + off_starting_lba);
        m ← wr32 m start_sector (u32 lba);
        eba ← rdn 8 m (entry + off_ending_lba);
        lba ← rdn 8 m (entry + off_starting_lba);
        m ← wr32 m sectors (u32 eba ⊞ 1 ⊟ u32 lba);
        Some (m, 0)
      else part_loop k' m (entry + sizeof_gpt_entry) name start_sector sectors
  end.

Definition get_part_info_by_name (st : gpt_state) (m : mem) (name : bytes) (start_sector sectors : Z) :
    option (mem * Z) :=
  if gpt_data_point st =? 0 then Some (m, -1)
  else
    let gpt_head := gpt_data_point st + GPT_HEAD_OFFSET in
    sig ← rdn 8 m (gpt_head + off_signature);
    if negb (sig =? GPT_HEADER_SIGNATURE) then Some (m, -1)
    else
      num ← rdn 4 m (gpt_head + off_num_partition_entries);
      part_loop (Z.to_nat num) m (gpt_data_point st + GPT_ENTRY_OFFSET) name start_sector sectors.

Definition init_gpt (st : gpt_state) (m : mem) : option (mem * gpt_state * Z) :=
  if negb (is_gpt_init st =? 0) then Some (m, st, 0)
  else
    '(m, buffer) ← malloc m SUNXI_MBR_SIZE;
    if buffer =? 0 then Some (m, st, -1)
    else
      m ← memset m buffer 0 SUNXI_MBR_SIZE;
      '(m, ret) ← load_gpt m buffer;
      if negb (ret =? 0) then m ← free m buffer; Some (m, st, -1)
      else
        valid ← is_gpt_valid m buffer;
        if negb (valid =? 0) then Some (m, GptState buffer 1, 0)
        else m ← free m buffer; Some (m, st, -1).

Definition deinit_gpt (st : gpt_state) (m : mem) : option (mem * gpt_state * Z) :=
  if negb (gpt_data_point st =? 0) then
    m ← memset m (gpt_data_point st) 0 SUNXI_MBR_SIZE;
    m ← free m (gpt_data_point st);
    Some (m, GptState 0 (is_gpt_init st), 0)
  else Some (m, st, 0).

End code.

(** ** What the memory of a table means *)

Record part := Part { p_start : Z; p_end : Z; p_name : bytes }.

Definition entry_rep (m : mem) (a : Z) (e : part) : Prop :=
  rdn 8 m (a + off_starting_lba) = Some (p_start e) ∧ rdn 8 m (a + off_ending_lba) = Some (p_end e) ∧
  is_cstr (p_name e) ∧
  ∃ pad, char8_name PARTNAME_SZ m (a + off_partition_name) = Some (p_name e ++ 0 :: pad).

Fixpoint entries_rep (m : mem) (a : Z) (es : list part) : Prop :=
  match es with
  | [] => True
  | e :: es' => entry_rep m a e ∧ entries_rep m (a + sizeof_gpt_entry) es'
  end.

(** A valid table of the partitions [es] at [p]. *)
Definition gpt_rep (m : mem) (p : Z) (es : list part) : Prop :=
  p ≠ 0 ∧ rdn 8 m (p + GPT_HEAD_OFFSET + off_signature) = Some GPT_HEADER_SIGNATURE ∧
  rdn 4 m (p + GPT_HEAD_OFFSET + off_num_partition_entries) = Some (Z.of_nat (length es)) ∧
  entries_rep m (p + GPT_ENTRY_OFFSET) es.

Lemma rdn_ext n m1 m2 a :
  (∀ x, a <= x < a + Z.of_nat n → m1 !! x = m2 !! x) → rdn n m1 a = rdn n m2 a.
Proof. intros H. unfold rdn. by rewrite (load_n_ext n m1 m2 a). Qed.

Lemma rdn_slice n m a bs k off :
  load_n k m a = Some bs → (off + n <= k)%nat → rdn n m (a + Z.of_nat off) = load_le n off bs.
Proof.
  intros H Hle. pose proof (load_n_length _ _ _ _ H). unfold rdn, load_le, slice.
  rewrite (load_n_sub _ _ _ _ off n H Hle). rewrite decide_True by lia. done.
Qed.

(** The sector count of the code. *)
Lemma sectors_u32 s e : u32 e ⊞ 1 ⊟ u32 s = u32 (e + 1 - s).
Proof. unfold u32. zmod. Qed.

(** The first entry of a name. *)
Definition find_part (key : bytes) (es : list part) : option part :=
  snd <$> list_find (λ e, p_name e = key) es.

Lemma find_part_cons key e es :
  find_part key (e :: es) = if decide (p_name e = key) then Some e else find_part key es.
Proof.
  unfold find_part. cbn [list_find]. case_decide; [done|].
  by destruct (list_find _ es) as [[? ?]|].
Qed.

(** One step of the search. *)
Lemma part_loop_step k m a e es key r start_sector sectors :
  entries_rep m a (e :: es) → is_cstr key →
  part_loop (S k) m a (key ++ 0 :: r) start_sector sectors =
    if decide (p_name e = key) then
      m ← wr32 m start_sector (u32 (p_start e));
      eba ← rdn 8 m (a + off_ending_lba);
      lba ← rdn 8 m (a + off_starting_lba);
      m ← wr32 m sectors (u32 eba ⊞ 1 ⊟ u32 lba);
      Some (m, 0)
    else part_loop k m (a + sizeof_gpt_entry) (key ++ 0 :: r) start_sector sectors.
Proof.
  intros [(Hs & He & Hn & pad & Hname) _] Hkey. cbn [part_loop]. rewrite Hname. sbind.
  destruct (strcmp_spec key (p_name e) r pad Hkey Hn) as (res & -> & Hres). sbind.
  case_decide as Hd.
  - destruct (Z.eqb_spec res 0) as [_|Hne]; [by rewrite Hs|destruct Hne; by apply Hres].
  - destruct (Z.eqb_spec res 0) as [Heq|_]; [|done]. destruct Hd. symmetry. by apply Hres.
Qed.

Lemma part_loop_spec m a es key r start_sector sectors :
  entries_rep m a es → is_cstr key → mapped m start_sector 4 → mapped m sectors 4 →
  (start_sector + 4 <= a ∨ a + 128 * Z.of_nat (length es) <= start_sector) →
  part_loop (length es) m a (key ++ 0 :: r) start_sector sectors =
    match find_part key es with
    | Some e => Some (w32 (w32 m start_sector (u32 (p_start e))) sectors (u32 (p_end e + 1 - p_start e)), 0)
    | None => Some (m, -1)
    end.
Proof.
  intros Hrep Hkey Hm1 Hm2 Hdis. revert a Hrep Hdis. induction es as [|e es IH]; intros a Hrep Hdis; [done|].
  rewrite length_cons in *. rewrite (part_loop_step _ _ _ e es) by done. rewrite find_part_cons.
  destruct Hrep as [(Hs & He & _) Hrep]. case_decide.
  - rewrite wr32_mapped by done. sbind. unfold off_ending_lba, off_starting_lba in *.
    rewrite !(rdn_ext 8 (w32 _ _ _) m) by (intros; apply lookup_w32_out; lia).
    rewrite Hs, He. sbind. rewrite wr32_mapped by auto with heap. sbind. by rewrite sectors_u32.
  - apply IH; [done|]. unfold sizeof_gpt_entry. lia.
Qed.

(** With [sectors = NULL] and nothing mapped there. *)
Lemma part_loop_null m a es key r start_sector e :
  entries_rep m a es → is_cstr key → mapped m start_sector 4 → m !! 0 = None → 0 < start_sector →
  find_part key es = Some e →
  part_loop (length es) m a (key ++ 0 :: r) start_sector 0 = None.
Proof.
  intros Hrep Hkey Hm1 H0 Hpos. revert a Hrep. induction es as [|c es IH]; intros a Hrep; [done|].
  rewrite length_cons in *. rewrite (part_loop_step _ _ _ c es) by done. rewrite find_part_cons.
  destruct Hrep as [(Hs & He & _) Hrep]. case_decide; [intros _|by apply IH].
  rewrite wr32_mapped by done. sbind.
  set (m' := w32 m start_sector (u32 (p_start c))).
  destruct (rdn 8 m' (a + off_ending_lba)) as [eba|]; sbind; [|done].
  destruct (rdn 8 m' (a + off_starting_lba)) as [lba|]; sbind; [|done].
  unfold wr32. cbn [le_bytes store_n]. unfold store_byte.
  unfold m'. rewrite lookup_w32_out by lia. by rewrite H0.
Qed.

(** ** Loading and releasing the table *)

Section cycle.
Context `{L : heap_layout} `{F : storage} (base limit : Z).
Context (Hcl : cache_line = None).
Context (bs : bytes) (Hlen : length bs = 4096%nat)
        (Hinit : spl_flash_init = 0) (Hread : spl_flash_read gpt_start_sector 8 = Some bs).

Definition sig_ok : Prop := load_le 8 512 bs = Some GPT_HEADER_SIGNATURE.

Lemma align_4096 : MY_BYTE_ALIGN 4096 = 4096.
Proof. unfold MY_BYTE_ALIGN. rewrite Hcl. reflexivity. Qed.

(** The block [malloc] gives [init_gpt] after the blocks [l1]. *)
Definition gpt_blk (l1 : list blk) : blk := Blk (end_of base l1) (end_of base l1 + 16) 4096 4096.

Definition init_outcome (m : mem) (l : list blk) : Prop :=
  match first_gap limit base 4096 l with
  | None => init_gpt (GptState 0 0) m = Some (m, GptState 0 0, -1)
  | Some (l1, l2) =>
      ∃ m', same_payload l m m' ∧ same_outside base limit m m' ∧
        ((sig_ok ∧ init_gpt (GptState 0 0) m = Some (m', GptState (adr (gpt_blk l1)) 1, 0) ∧
          heap_rep base limit m' (l1 ++ gpt_blk l1 :: l2) ∧ load_n 4096 m' (adr (gpt_blk l1)) = Some bs) ∨
         (¬ sig_ok ∧ init_gpt (GptState 0 0) m = Some (m', GptState 0 0, -1) ∧ heap_rep base limit m' l))
  end.

(** [init_gpt] once it has its buffer. *)
Lemma init_gpt_run m m1 l b :
  malloc m 4096 = Some (m1, adr b) → heap_rep base limit m1 l → b ∈ l → sz b = 4096 →
  let m2 := write_bytes (write_bytes m1 (adr b) (replicate 4096 (u8 0))) (adr b) bs in
  init_gpt (GptState 0 0) m =
    (if decide (load_le 8 512 bs = Some GPT_HEADER_SIGNATURE) then Some (m2, GptState (adr b) 1, 0)
     else m3 ← free m2 (adr b); Some (m3, GptState 0 0, -1)) ∧
  heap_rep base limit m2 l ∧ load_n 4096 m2 (adr b) = Some bs ∧
  (∀ d, d ∈ l → d ≠ b → same_at m1 m2 (adr d) (sz d)) ∧ same_outside base limit m1 m2.
Proof.
  intros Hmal Hrep Hb Hsz m2.
  destruct (fill_block base limit m1 l b bs 4096 Hrep Hb ltac:(lia) Hlen) as (Hms & Hst & Hrep2 & Hld & Hs2 & _ & Ho2).
  split; [|done]. destruct (live_split base limit m1 b ltac:(by eexists)) as (_ & _ & _ & Hpos).
  unfold init_gpt. cbn [is_gpt_init]. change (negb (0 =? 0)) with false. cbn iota. change SUNXI_MBR_SIZE with 4096.
  rewrite Hmal. sbind. destruct (Z.eqb_spec (adr b) 0) as [|_]; [lia|].
  change 4096 with (Z.of_nat 4096) at 1. rewrite Hms. sbind. unfold load_gpt, flash_read_to.
  rewrite Hinit. change (1 * SUNXI_MBR_SIZE / 512) with 8. rewrite Hread. cbn [negb Z.eqb]. rewrite Hst. sbind.
  cbn [negb Z.eqb]. fold m2.
  unfold is_gpt_valid, off_signature, GPT_HEAD_OFFSET. rewrite Z.add_0_r.
  pose proof (rdn_slice 8 m2 (adr b) bs 4096 512 Hld ltac:(lia)) as Hsl.
  change (Z.of_nat 512) with 512 in Hsl. sbind. cbn [negb Z.eqb]. rewrite Hsl.
  destruct (load_le 8 512 bs) as [sg|] eqn:Hsig.
  2:{ unfold load_le, slice in Hsig. rewrite decide_True in Hsig by lia. done. }
  sbind. destruct (Z.eqb_spec sg GPT_HEADER_SIGNATURE) as [->|Hne]; cbn [negb Z.eqb].
  - by rewrite decide_True.
  - by rewrite decide_False by congruence.
Qed.

Lemma init_gpt_spec m l :
  heap_rep base limit m l → request_ok limit 4096 → init_outcome m l.
Proof.
  intros Hrep Hok. pose proof (malloc_spec base limit Hcl m l 4096 Hrep Hok) as Hmal.
  unfold malloc_result in Hmal. rewrite align_4096 in Hmal. unfold init_outcome.
  destruct (first_gap limit base 4096 l) as [[l1 l2]|] eqn:Hg.
  2:{ unfold init_gpt. change SUNXI_MBR_SIZE with 4096. by rewrite Hmal. }
  destruct Hmal as (m1 & Hmal & Hrep1 & Hs1 & Ho1). apply first_gap_split in Hg as [-> _].
  assert (new_blk base l1 4096 = gpt_blk l1) as Hnb by (unfold new_blk, gpt_blk; by rewrite align_4096).
  rewrite Hnb in *. set (b := gpt_blk l1) in *.
  assert (b ∈ l1 ++ b :: l2) as Hb by apply elem_mid.
  destruct (live_split base limit m1 b ltac:(by eexists)) as (_ & _ & _ & Hpos).
  destruct (init_gpt_run m m1 _ b Hmal Hrep1 Hb eq_refl) as (Hrun & Hrep2 & Hld & Hs2 & Ho2).
  set (m2 := write_bytes _ _ bs) in *.
  assert (same_payload (l1 ++ l2) m m2) as Hs.
  { intros d Hd. eapply same_trans; [by apply Hs1|apply Hs2].
    - by apply elem_insert_mid.
    - intros ->. eapply wfl_fresh; [exact (rep_wf _ _ _ _ Hrep1)|done]. }
  assert (same_outside base limit m m2) as Ho by (by eapply same_outside_trans).
  rewrite Hrun. case_decide as Hsig; [exists m2; split; [done|]; split; [done|]; by left|].
  pose proof (free_spec base limit m2 _ (adr b) Hrep2 ltac:(lia) ltac:(lia)) as Hf.
  rewrite (split_at_mid _ _ _ _ (rep_wf _ _ _ _ Hrep2)) in Hf. destruct Hf as (m3 & -> & Hrep3 & Hs3 & Ho3). sbind.
  exists m3. split; [|split; [by eapply same_outside_trans|right; done]].
  intros d Hd. eapply same_trans; [by apply Hs|apply Hs3].
  by apply elem_insert_mid.
Qed.

End cycle.

Section release.
Context `{L : heap_layout} (base limit : Z).

Lemma deinit_gpt_spec m l1 l2 i :
  heap_rep base limit m (l1 ++ gpt_blk base l1 :: l2) →
  ∃ m', deinit_gpt (GptState (adr (gpt_blk base l1)) i) m = Some (m', GptState 0 i, 0) ∧
    heap_rep base limit m' (l1 ++ l2) ∧ same_payload (l1 ++ l2) m m'.
Proof.
  intros Hrep. set (b := gpt_blk base l1) in *.
  assert (b ∈ l1 ++ b :: l2) as Hb by apply elem_mid.
  destruct (live_split base limit m b ltac:(by eexists)) as (_ & _ & _ & Hpos).
  unfold deinit_gpt. cbn [gpt_data_point is_gpt_init]. destruct (Z.eqb_spec (adr b) 0) as [|_]; [lia|].
  cbn [negb]. pose proof Hrep as [_ _ _ Hm Hwf Hend _ _].
  destruct (wfl_mem _ _ _ Hwf Hb) as (?&?&?&?&?&?). change (sz b) with 4096 in *.
  change SUNXI_MBR_SIZE with (Z.of_nat 4096).
  rewrite memset_spec by (eapply mapped_sub; [exact Hm|lia..]). sbind.
  destruct (write_payload base limit m _ b (adr b) (replicate 4096 (u8 0)) Hrep Hb) as (Hrep1 & Hs1 & _);
    [lia|rewrite length_replicate; change (sz b) with 4096; lia|].
  pose proof (free_spec base limit _ _ (adr b) Hrep1 ltac:(lia) ltac:(lia)) as Hf.
  rewrite (split_at_mid _ _ _ _ Hwf) in Hf. destruct Hf as (m3 & -> & Hrep3 & Hs3 & _). sbind.
  exists m3. split; [done|]. split; [done|]. intros d Hd.
  assert (d ∈ l1 ++ b :: l2) by by apply elem_insert_mid.
  eapply same_trans; [apply Hs1; [done|]|by apply Hs3]. intros ->. by eapply wfl_fresh.
Qed.

End release.

(** ** A concrete table *)

Definition demo_entry (s e : Z) (name : bytes) : bytes :=
  replicate 32 0 ++ le_bytes 8 s ++ le_bytes 8 e ++ replicate 8 0 ++
  concat ((λ c, [c; 0]) <$> name) ++ replicate (72 - 2 * length name) 0.

(** Two partitions: "env" (0x65 0x6e 0x76) and "boot". *)
Definition demo_gpt : bytes :=
  replicate 512 0 ++ le_bytes 8 GPT_HEADER_SIGNATURE ++ replicate 72 0 ++ le_bytes 4 2 ++ replicate 428 0 ++
  demo_entry 100 163 [0x65; 0x6e; 0x76] ++ demo_entry 164 1187 [0x62; 0x6f; 0x6f; 0x74] ++ replicate 2816 0.

Definition demo_parts : list part :=
  [Part 100 163 [0x65; 0x6e; 0x76]; Part 164 1187 [0x62; 0x6f; 0x6f; 0x74]].

Definition demo_storage : storage := Storage 0 (λ _ _, Some demo_gpt) 2016.

(** The table at 0x1000 and two output words behind it. *)
Definition demo_gpt_mem : mem := mem_of 0x1000 (demo_gpt ++ replicate 8 0).

Lemma demo_gpt_rep : gpt_rep demo_gpt_mem 0x1000 demo_parts.
Proof.
  split; [done|]. split; [vm_compute; reflexivity|]. split; [vm_compute; reflexivity|].
  split; [|split; [|done]]; (split; [vm_compute; reflexivity|]); (split; [vm_compute; reflexivity|]);
    (split; [repeat constructor; unfold is_char; simpl; lia|]); eexists; vm_compute; reflexivity.
Qed.

(** The same static nodes as [demo_layout], with a region of 8 KiB. *)
Definition big_mem : mem := mem_of 0x100 (replicate (Z.to_nat 8576) 0).

Lemma big_rep :
  ∃ m, malloc_init (L := demo_layout None) big_mem 0x140 (0x2240 - 0x140) = Some m ∧
    heap_rep (L := demo_layout None) 0x140 0x2240 m [].
Proof.
  destruct (malloc_init_spec (L := demo_layout None) 0x140 0x2240 big_mem) as (m & Hm & Hrep & _); [|..|eauto].
  - constructor; simpl; try lia. by repeat split.
  - apply mappedb_spec; vm_compute; reflexivity.
  - apply mappedb_spec; vm_compute; reflexivity.
  - apply mappedb_spec; vm_compute; reflexivity.
Qed.

(** ** Theorems *)

Lemma part_lookup_run st m es key r start_sector sectors :
  gpt_rep m (gpt_data_point st) es → is_cstr key → mapped m start_sector 4 → mapped m sectors 4 →
  start_sector + 4 <= gpt_data_point st + 1024 ∨ gpt_data_point st + 1024 + 128 * Z.of_nat (length es) <= start_sector →
  get_part_info_by_name st m (key ++ 0 :: r) start_sector sectors =
    match find_part key es with
    | Some e => Some (w32 (w32 m start_sector (u32 (p_start e))) sectors (u32 (p_end e + 1 - p_start e)), 0)
    | None => Some (m, -1)
    end.
Proof.
  intros (Hp & Hsig & Hnum & Hes) Hkey Hm1 Hm2 Hdis. unfold get_part_info_by_name.
  destruct (Z.eqb_spec (gpt_data_point st) 0) as [|_]; [done|]. rewrite Hsig. sbind. rewrite Z.eqb_refl. cbn [negb].
  rewrite Hnum. sbind. rewrite Nat2Z.id. by apply part_loop_spec.
Qed.

(** C26: on a valid table [get_part_info_by_name] returns the first partition
    of that name: it stores the low 32 bits of the start sector and the number
    of sectors [end + 1 - start] modulo 2^32 through its two pointers and
    returns 0; when no partition has the name it returns -1 and stores
    nothing. *)
Theorem part_lookup st m es key r start_sector sectors :
  gpt_rep m (gpt_data_point st) es → is_cstr key → mapped m start_sector 4 → mapped m sectors 4 →
  start_sector + 4 <= gpt_data_point st + 1024 ∨ gpt_data_point st + 1024 + 128 * Z.of_nat (length es) <= start_sector →
  get_part_info_by_name st m (key ++ 0 :: r) start_sector sectors =
    match find_part key es with
    | Some e => Some (w32 (w32 m start_sector (u32 (p_start e))) sectors (u32 (p_end e + 1 - p_start e)), 0)
    | None => Some (m, -1)
    end.
Proof. apply part_lookup_run. Qed.

Lemma part_lookup_witness :
  get_part_info_by_name (GptState 0x1000 1) demo_gpt_mem ([0x62; 0x6f; 0x6f; 0x74] ++ [0]) 0x2000 0x2004 =
    Some (w32 (w32 demo_gpt_mem 0x2000 164) 0x2004 1024, 0).
Proof.
  rewrite (part_lookup (GptState 0x1000 1) demo_gpt_mem demo_parts
    [0x62; 0x6f; 0x6f; 0x74] [] 0x2000 0x2004).
  - reflexivity.
  - exact demo_gpt_rep.
  - repeat constructor; unfold is_char; simpl; lia.
  - apply mappedb_spec; vm_compute; reflexivity.
  - apply mappedb_spec; vm_compute; reflexivity.
  - simpl. lia.
Defined.

(** A caller that passes NULL for the size, as the kernel loader does,
    makes a successful search store through it: nothing being mapped at
    address 0, the call faults exactly when the partition exists. *)
Theorem part_lookup_null_size st m es key r start_sector :
  gpt_rep m (gpt_data_point st) es → is_cstr key → mapped m start_sector 4 → 0 < start_sector → m !! 0 = None →
  is_Some (find_part key es) →
  get_part_info_by_name st m (key ++ 0 :: r) start_sector 0 = None.
Proof.
  intros (Hp & Hsig & Hnum & Hes) Hkey Hm1 Hpos H0 [e He]. unfold get_part_info_by_name.
  destruct (Z.eqb_spec (gpt_data_point st) 0) as [|_]; [done|]. rewrite Hsig. sbind. rewrite Z.eqb_refl. cbn [negb].
  rewrite Hnum. sbind. rewrite Nat2Z.id. by eapply part_loop_null.
Qed.

Lemma part_lookup_null_size_witness :
  get_part_info_by_name (GptState 0x1000 1) demo_gpt_mem ([0x62; 0x6f; 0x6f; 0x74] ++ [0]) 0x2000 0 = None.
Proof.
  apply (part_lookup_null_size (GptState 0x1000 1) demo_gpt_mem demo_parts
    [0x62; 0x6f; 0x6f; 0x74] [] 0x2000).
  - exact demo_gpt_rep.
  - repeat constructor; unfold is_char; simpl; lia.
  - apply mappedb_spec; vm_compute; reflexivity.
  - lia.
  - vm_compute. reflexivity.
  - vm_compute. eauto.
Defined.

(** [init_gpt] on an uninitialised state either finds no memory and
    changes nothing, or reads the table into a new block: with the right
    signature it keeps the block, holding the sectors read, and reports
    success; with a wrong one it gives the block back and returns -1.  No
    other live block changes, and no memory outside the heap. *)
Theorem init_gpt_loads `{L : heap_layout} `{F : storage} base limit bs m l :
  cache_line = None → spl_flash_init = 0 → spl_flash_read gpt_start_sector 8 = Some bs → length bs = 4096%nat →
  heap_rep base limit m l → request_ok limit 4096 → init_outcome base limit bs m l.
Proof. intros Hcl Hi Hr Hlen Hrep Hok. by apply init_gpt_spec. Qed.

Lemma init_gpt_loads_witness :
  ∃ m m', init_gpt (L := demo_layout None) (F := demo_storage) (GptState 0 0) m = Some (m', GptState 0x150 1, 0) ∧
    load_n 4096 m' 0x150 = Some demo_gpt.
Proof.
  destruct big_rep as (m & _ & Hrep). exists m.
  pose proof (init_gpt_loads (L := demo_layout None) (F := demo_storage) 0x140 0x2240 demo_gpt m [] eq_refl eq_refl
    eq_refl ltac:(vm_compute; reflexivity) Hrep ltac:(unfold request_ok; lia)) as H.
  unfold init_outcome in H. vm_compute first_gap in H. destruct H as (m' & _ & _ & [(_ & H1 & _ & H2)|(Hn & _)]).
  - exists m'. split; [exact H1|exact H2].
  - exfalso. apply Hn. vm_compute. reflexivity.
Defined.

(** [deinit_gpt] clears the table's block and gives it back, but keeps the
    initialised flag: from then on every [init_gpt] reports success without
    reading anything, and every search fails. *)
Theorem deinit_gpt_forgets `{L : heap_layout} `{F : storage} base limit m l1 l2 :
  cache_line = None → heap_rep base limit m (l1 ++ gpt_blk base l1 :: l2) →
  ∃ m' st', deinit_gpt (GptState (adr (gpt_blk base l1)) 1) m = Some (m', st', 0) ∧
    heap_rep base limit m' (l1 ++ l2) ∧ same_payload (l1 ++ l2) m m' ∧
    (∀ m'', init_gpt st' m'' = Some (m'', st', 0)) ∧
    (∀ m'' name start_sector sectors, get_part_info_by_name st' m'' name start_sector sectors = Some (m'', -1)).
Proof.
  intros Hcl Hrep. destruct (deinit_gpt_spec base limit m l1 l2 1 Hrep) as (m' & H1 & H2 & H3).
  exists m', (GptState 0 1). done.
Qed.

Lemma deinit_gpt_forgets_witness :
  ∃ m m' st', deinit_gpt (L := demo_layout None) (GptState 0x150 1) m = Some (m', st', 0) ∧
    init_gpt (L := demo_layout None) (F := demo_storage) st' m' = Some (m', st', 0).
Proof.
  destruct big_rep as (m0 & _ & Hrep0).
  pose proof (malloc_spec (L := demo_layout None) 0x140 0x2240 eq_refl m0 [] 4096 Hrep0 ltac:(unfold request_ok; lia))
    as (m & _ & Hrep & _).
  destruct (deinit_gpt_forgets (L := demo_layout None) (F := demo_storage) 0x140 0x2240 m [] [] eq_refl Hrep)
    as (m' & st' & H1 & _ & _ & H2 & _).
  exists m, m', st'. split; [exact H1|apply H2].
Defined.
