(* ===== verification/Env.v ===== *)
(** * The environment (spl/common/env.c)

    The boot environment: one or two copies of a block of [name=value]
    strings in flash, each guarded by a CRC-32 and, when there are two, a
    serial byte.  [fw_env_open] finds the partitions through the GPT ([Gpt]),
    reads the copies into buffers of the boot heap ([Heap]), checks them with
    [crc32] ([Crc32]) and keeps the newer valid one; [fw_getenv] searches it.

    The two sector numbers and sizes that [get_part_info_by_name] stores
    through pointers are words of the byte memory at the addresses of
    [env_vars]; the other static variables are the record [env_state].  The
    build options are [env_config].

    The theorems: [fw_getenv] returns the value of the first variable of that
    name; the redundant [fw_env_open] ends with the valid copy of the newer
    serial number in memory, releases the other and leaks nothing; with no
    valid copy it fails and leaks both buffers. *)

From S2P Require Import Prelude Crc32 Mem CString Heap Gpt.

Local Open Scope Z_scope.
Local Open Scope c_scope.

(** ** Data *)

(** "env" and "env-redund" with their terminators. *)
Definition ENV_NAME : bytes := [0x65; 0x6e; 0x76; 0].
Definition ENV_NAME_2 : bytes := [0x65; 0x6e; 0x76; 0x2d; 0x72; 0x65; 0x64; 0x75; 0x6e; 0x64; 0].

Inductive flag_scheme := FLAG_NONE | FLAG_BOOLEAN | FLAG_INCREMENTAL.

Definition active_flag : Z := 1.
Definition obsolete_flag : Z := 0.

Record environment_t := Environment {
  e_image : Z;
  e_crc : Z;
  e_flags : Z;
  e_data : Z;
  e_flag_scheme : flag_scheme
}.

Record env_state := EnvState {
  cur_envsize : Z;
  usable_envsize : Z;
  dev_current : Z;
  s_is_env_opened : Z;
  environment : environment_t
}.

(** Addresses of the four static words written through pointers. *)
Class env_vars := EnvVars {
  env_start_sector : Z;
  env_start_sector_2 : Z;
  env_sectors : Z;
  env_sectors_2 : Z
}.

(** [CFG_SUNXI_HAVE_REDUNDENV] and [CFG_SUNXI_ENV_SIZE] (4 KiB when the build
    does not set it). *)
Class env_config := EnvConfig { have_redundenv : bool; cfg_env_size : option Z }.

Definition env_size `{env_config} : Z := default (4 * 1024) cfg_env_size.

(** ** Reading a variable *)

(** [s1] points into a C string, [s2] into memory; 0 is NULL. *)
Fixpoint envmatch (m : mem) (s1 : bytes) (s2 : Z) : option Z :=
  match s1 with
  | [] => None
  | c :: s1' =>
      d ← m !! s2;
      if c =? d then if c =? 61 then Some (s2 + 1) else envmatch m s1' (s2 + 1)
      else if (c =? 0) && (d =? 61) then Some (s2 + 1) else Some 0
  end.

(** The first loop: skip empty bytes; [None] inside is its early return. *)
Fixpoint skip_zeros (fuel : nat) (m : mem) (nxt stop : Z) : option (option Z) :=
  match fuel with
  | O => None
  | S f =>
      c ← m !! nxt;
      if c =? 0 then if stop <=? nxt then Some None else skip_zeros f m (nxt + 1) stop
      else Some (Some nxt)
  end.

(** The inner loop: the end of the variable at [nxt]. *)
Fixpoint var_end (fuel : nat) (m : mem) (nxt stop : Z) : option (option Z) :=
  match fuel with
  | O => None
  | S f =>
      c ← m !! nxt;
      if c =? 0 then Some (Some nxt)
      else if stop <=? nxt then Some None else var_end f m (nxt + 1) stop
  end.

Fixpoint env_loop (fuel : nat) (m : mem) (name : bytes) (env stop : Z) : option Z :=
  match fuel with
  | O => None
  | S f =>
      c ← m !! env;
      if c =? 0 then Some 0
      else
        e ← var_end (S fuel) m env stop;
        match e with
        | None => Some 0
        | Some nxt =>
            val ← envmatch m name env;
            if val =? 0 then env_loop f m name (nxt + 1) stop else Some val
        end
  end.

Definition fw_getenv (st : env_state) (m : mem) (name : bytes) : option Z :=
  let data := e_data (environment st) in
  let stop := data + usable_envsize st in
  let fuel := S (S (Z.to_nat (usable_envsize st))) in
  s ← skip_zeros fuel m data stop;
  match s with
  | None => Some 0
  | Some nxt => env_loop fuel m name nxt stop
  end.

(** ** Opening and closing *)

Section code.
Context `{L : heap_layout} `{F : storage} `{V : env_vars} `{O : env_config}.

Definition set_cur_envsize (st : env_state) (n : Z) : env_state :=
  EnvState n (usable_envsize st) (dev_current st) (s_is_env_opened st) (environment st).
Definition set_usable_envsize (st : env_state) (n : Z) : env_state :=
  EnvState (cur_envsize st) n (dev_current st) (s_is_env_opened st) (environment st).
Definition set_dev_current (st : env_state) (n : Z) : env_state :=
  EnvState (cur_envsize st) (usable_envsize st) n (s_is_env_opened st) (environment st).
Definition set_opened (st : env_state) (n : Z) : env_state :=
  EnvState (cur_envsize st) (usable_envsize st) (dev_current st) n (environment st).
Definition set_environment (st : env_state) (e : environment_t) : env_state :=
  EnvState (cur_envsize st) (usable_envsize st) (dev_current st) (s_is_env_opened st) e.
Definition set_image (st : env_state) (p : Z) : env_state :=
  let e := environment st in
  set_environment st (Environment p (e_crc e) (e_flags e) (e_data e) (e_flag_scheme e)).
Definition set_scheme (st : env_state) (s : flag_scheme) : env_state :=
  let e := environment st in
  set_environment st (Environment (e_image e) (e_crc e) (e_flags e) (e_data e) s).

(** [get_part_info_by_name]'s results are not looked at. *)
Definition flash_env_init (g : gpt_state) (st : env_state) (m : mem) : option (mem * env_state * Z) :=
  '(m, _) ← get_part_info_by_name g m ENV_NAME env_start_sector env_sectors;
  '(m, _) ← (if have_redundenv then get_part_info_by_name g m ENV_NAME_2 env_start_sector_2 env_sectors_2
             else Some (m, 0));
  s1 ← rd32 m env_start_sector;
  s2 ← rd32 m env_start_sector_2;
  if (s1 =? 0) && (s2 =? 0) then Some (m, st, -1)
  else
    n1 ← rd32 m env_sectors;
    n2 ← rd32 m env_sectors_2;
    if negb (n1 =? 0) || (n1 =? n2) then Some (m, set_cur_envsize st env_size, 0)
    else if have_redundenv then Some (m, st, -1) else Some (m, st, 0).

Definition flash_env_read (st : env_state) (m : mem) (buf size : Z) : option (mem * Z) :=
  start ← (if dev_current st =? 0 then s ← rd32 m env_start_sector; Some (Some s)
           else if dev_current st =? 1 then s ← rd32 m env_start_sector_2; Some (Some s)
           else Some None);
  match start with
  | None => Some (m, -1)
  | Some start_sector =>
      if negb (spl_flash_init =? 0) then Some (m, -1)
      else
        '(m, ret) ← flash_read_to m start_sector (size / 512) buf;
        if negb (ret =? 0) then Some (m, -1) else Some (m, 0)
  end.

(** [flash_io(O_RDONLY)], the only mode this loader supports. *)
Definition flash_io (st : env_state) (m : mem) : option (mem * Z) :=
  flash_env_read st m (e_image (environment st)) (cur_envsize st).

Definition open_cleanup (st : env_state) (m : mem) (addr0 addr1 : Z) : option (mem * env_state * Z) :=
  m ← (if negb (addr0 =? 0) then free m addr0 else Some m);
  m ← (if have_redundenv && negb (addr1 =? 0) then free m addr1 else Some m);
  Some (m, st, -1).

(** [crc32(0, data, ENV_SIZE)] on memory. *)
Definition env_crc (m : mem) (data size : Z) : option Z :=
  bs ← load_n (Z.to_nat size) m data; crc32 0 bs (Z.to_nat size).

(** The choice of the copy; [None] is the return with -1. *)
Definition select_dev (scheme : flag_scheme) (crc0_ok crc1_ok : bool) (flag0 flag1 : Z) : option Z :=
  if crc0_ok && negb crc1_ok then Some 0
  else if negb crc0_ok && crc1_ok then Some 1
  else if negb crc0_ok && negb crc1_ok then None
  else
    match scheme with
    | FLAG_BOOLEAN =>
        Some (if (flag0 =? active_flag) && (flag1 =? obsolete_flag) then 0
              else if (flag0 =? obsolete_flag) && (flag1 =? active_flag) then 1
              else if flag0 =? flag1 then 0
              else if flag0 =? 0xFF then 0
              else if flag1 =? 0xFF then 1
              else 0)
    | FLAG_INCREMENTAL =>
        Some (if (flag0 =? 255) && (flag1 =? 0) then 1
              else if ((flag1 =? 255) && (flag0 =? 0)) || (flag1 <=? flag0) then 0
              else 1)
    | FLAG_NONE => None
    end.

(** The second half of [fw_env_open] with [CFG_SUNXI_HAVE_REDUNDENV]. *)
Definition open_redundant (st : env_state) (m : mem) (addr0 : Z) (crc0_ok : bool) :
    option (mem * env_state * Z) :=
  flag0 ← m !! e_flags (environment st);
  let st := set_dev_current st 1 in
  '(m, addr1) ← malloc m (cur_envsize st ⊞ 1024);
  if addr1 =? 0 then open_cleanup st m addr0 addr1
  else
    m ← memset m addr1 0 (cur_envsize st);
    let st := set_image st addr1 in
    '(m, rc) ← flash_io st m;
    if negb (rc =? 0) then open_cleanup st m addr0 addr1
    else
      let st := set_scheme st FLAG_INCREMENTAL in
      crc1 ← env_crc m (addr1 + 5) (usable_envsize st);
      rcrc ← rd32 m addr1;
      flag1 ← m !! (addr1 + 4);
      match select_dev (e_flag_scheme (environment st)) crc0_ok (crc1 =? rcrc) flag0 flag1 with
      | None => Some (m, st, -1)
      | Some dev =>
          let st := set_dev_current st dev in
          if negb (dev =? 0) then
            m ← free m addr0;
            Some (m, set_opened (set_environment st
                       (Environment addr1 addr1 (addr1 + 4) (addr1 + 5) (e_flag_scheme (environment st)))) 1, 0)
          else
            m ← free m addr1;
            Some (m, set_opened (set_image st addr0) 1, 0)
      end.

Definition fw_env_open (g : gpt_state) (st : env_state) (m : mem) : option (mem * env_state * Z) :=
  if negb (s_is_env_opened st =? 0) then Some (m, st, 0)
  else
    '(m, st, r) ← flash_env_init g st m;
    if negb (r =? 0) then Some (m, st, -1)
    else
      '(m, addr0) ← malloc m (cur_envsize st ⊞ 1024);
      if addr0 =? 0 then open_cleanup st m addr0 0
      else
        m ← memset m addr0 0 (cur_envsize st);
        let sch := e_flag_scheme (environment st) in
        let st := set_environment st
          (if have_redundenv then Environment addr0 addr0 (addr0 + 4) (addr0 + 5) sch
           else Environment addr0 addr0 0 (addr0 + 4) sch) in
        let st := set_usable_envsize st (u32 (cur_envsize st - 4 - if have_redundenv then 1 else 0)) in
        let st := set_dev_current st 0 in
        '(m, rc) ← flash_io st m;
        if negb (rc =? 0) then open_cleanup st m addr0 0
        else
          crc0 ← env_crc m (e_data (environment st)) (usable_envsize st);
          c ← rd32 m (e_crc (environment st));
          let crc0_ok := crc0 =? c in
          if have_redundenv then open_redundant st m addr0 crc0_ok
          else if negb crc0_ok then Some (m, st, -1) else Some (m, set_opened st 1, 0).

Definition fw_env_close (st : env_state) (m : mem) : option (mem * env_state * Z) :=
  m ← (if negb (e_image (environment st) =? 0) then free m (e_image (environment st)) else Some m);
  Some (m, set_opened (set_image st 0) 0, 0).

End code.

(** ** Bytes in memory *)

Fixpoint bytes_at (m : mem) (a : Z) (l : bytes) : Prop :=
  match l with
  | [] => True
  | c :: l' => m !! a = Some c ∧ bytes_at m (a + 1) l'
  end.

Lemma bytes_at_app m a l1 l2 :
  bytes_at m a (l1 ++ l2) ↔ bytes_at m a l1 ∧ bytes_at m (a + Z.of_nat (length l1)) l2.
Proof.
  revert a. induction l1 as [|c l1 IH]; intros a; cbn [bytes_at app].
  - rewrite Z.add_0_r. tauto.
  - rewrite IH, length_cons. replace (a + 1 + Z.of_nat (length l1)) with (a + Z.of_nat (S (length l1))) by lia. tauto.
Qed.

Lemma bytes_at_load m a l : load_n (length l) m a = Some l ↔ bytes_at m a l.
Proof.
  revert a. induction l as [|c l IH]; intros a; [done|]. cbn [length load_n bytes_at]. rewrite <- IH. split.
  - intros H. apply bind_Some_inv in H as (b & Hb & H). apply bind_Some_inv in H as (bs & Hbs & H).
    injection H as -> ->. done.
  - intros [-> ->]. done.
Qed.

(** ** Variables *)

(** The text of a variable and of a block of variables. *)
Definition var_text (nv : bytes * bytes) : bytes := nv.1 ++ 61 :: nv.2 ++ [0].
Definition block_text (vs : list (bytes * bytes)) : bytes := concat (var_text <$> vs) ++ [0].

Definition name_ok (n : bytes) : Prop := Forall (λ c, is_char c ∧ c ≠ 61) n.
Definition var_ok (nv : bytes * bytes) : Prop := name_ok nv.1 ∧ nv.1 ≠ [] ∧ is_cstr nv.2.

#[global] Instance name_ok_dec n : Decision (name_ok n).
Proof. unfold name_ok. apply _. Defined.
#[global] Instance var_ok_dec nv : Decision (var_ok nv).
Proof. unfold var_ok. apply _. Defined.

(** Where the value of the first variable named [key] starts, when the block
    starts at [a]. *)
Fixpoint value_addr (a : Z) (vs : list (bytes * bytes)) (key : bytes) : option Z :=
  match vs with
  | [] => None
  | (n, v) :: vs' =>
      if decide (n = key) then Some (a + Z.of_nat (length n) + 1)
      else value_addr (a + Z.of_nat (length n) + 1 + Z.of_nat (length v) + 1) vs' key
  end.

(** The value of the first variable named [key]. *)
Fixpoint lookup_var (vs : list (bytes * bytes)) (key : bytes) : option bytes :=
  match vs with
  | [] => None
  | (n, v) :: vs' => if decide (n = key) then Some v else lookup_var vs' key
  end.

Lemma envmatch_spec m key r n w s2 :
  name_ok key → name_ok n → bytes_at m s2 (n ++ 61 :: w) →
  envmatch m (key ++ 0 :: r) s2 = Some (if decide (n = key) then s2 + Z.of_nat (length n) + 1 else 0).
Proof.
  intros Hk. revert n s2. induction Hk as [|k key [Hk Hke] Hkey IH]; intros n s2 Hn Hm;
    destruct Hn as [|x n [Hx Hxe] Hn]; destruct Hm as [Hd Hm]; cbn [envmatch app]; rewrite Hd; sbind.
  - rewrite decide_True by done. change (0 =? 61) with false. simpl. f_equal. lia.
  - unfold is_char in Hx. destruct (Z.eqb_spec 0 x); [lia|]. destruct (Z.eqb_spec x 61); [lia|].
    by rewrite decide_False by done.
  - unfold is_char in Hk. destruct (Z.eqb_spec k 61); [lia|]. destruct (Z.eqb_spec k 0); [lia|].
    by rewrite decide_False by done.
  - destruct (Z.eqb_spec k x) as [->|Hne].
    + destruct (Z.eqb_spec x 61); [lia|]. rewrite (IH n) by done. f_equal.
      repeat case_decide; simplify_eq; try done. rewrite !length_cons. lia.
    + unfold is_char in Hk. destruct (Z.eqb_spec k 0); [lia|]. simpl. by rewrite decide_False by congruence.
Qed.

Lemma var_end_spec fuel m a stop l w :
  Forall is_char l → bytes_at m a (l ++ 0 :: w) → a + Z.of_nat (length l) <= stop → (length l < fuel)%nat →
  var_end fuel m a stop = Some (Some (a + Z.of_nat (length l))).
Proof.
  intros Hl. revert a fuel. induction Hl as [|c l Hc Hl IH]; intros a [|fuel] Hm Hs Hf; [lia| |lia|];
    destruct Hm as [Hd Hm]; cbn [var_end]; rewrite Hd; sbind.
  - simpl. by rewrite Z.add_0_r.
  - rewrite length_cons in *. unfold is_char in Hc. destruct (Z.eqb_spec c 0); [lia|].
    destruct (Z.leb_spec stop a); [lia|]. rewrite IH by (done || lia). do 2 f_equal. lia.
Qed.

Lemma var_chars nv : var_ok nv → Forall is_char (nv.1 ++ 61 :: nv.2).
Proof.
  intros (Hn & _ & Hv). apply Forall_app. split; [|constructor; [unfold is_char; lia|done]].
  eapply Forall_impl; [exact Hn|]. by intros ? [? _].
Qed.

Lemma env_loop_spec fuel m key r vs w a stop :
  0 <= a → name_ok key → Forall var_ok vs → bytes_at m a (block_text vs ++ w) →
  a + Z.of_nat (length (block_text vs)) <= stop → (length (block_text vs) <= fuel)%nat →
  env_loop fuel m (key ++ 0 :: r) a stop = Some (default 0 (value_addr a vs key)).
Proof.
  intros Ha Hkey Hvs. revert a fuel Ha. induction Hvs as [|[n v] vs Hv Hvs IH]; intros a fuel Ha Hm Hs Hf.
  - destruct fuel as [|fuel]; [simpl in Hf; lia|]. destruct Hm as [Hd _]. cbn [env_loop]. by rewrite Hd.
  - pose proof (var_chars _ Hv) as Hch. destruct Hv as (Hn & Hne & Hval). cbn [fst snd] in *.
    assert (block_text ((n, v) :: vs) = (n ++ 61 :: v) ++ 0 :: block_text vs) as E.
    { unfold block_text, var_text. simpl. repeat (rewrite <- app_assoc; simpl). done. }
    rewrite E in *. rewrite <- app_assoc in Hm. rewrite !length_app, !length_cons in Hs, Hf.
    destruct fuel as [|fuel]; [lia|]. cbn [env_loop].
    assert (∃ c, m !! a = Some c ∧ (c =? 0) = false) as (c & -> & Hc).
    { destruct n as [|c n]; [done|]. destruct Hm as [Hd _]. exists c. split; [done|].
      inversion Hn as [|?? [Hc _] _]. unfold is_char in Hc. by destruct (Z.eqb_spec c 0); [lia|]. }
    sbind. rewrite Hc. rewrite (var_end_spec (S (S fuel)) m a stop (n ++ 61 :: v) (block_text vs ++ w)); [|done..| |].
    2,3: rewrite length_app, length_cons; lia.
    sbind. rewrite (envmatch_spec m key r n (v ++ 0 :: block_text vs ++ w) a Hkey Hn).
    2:{ by rewrite <- app_assoc in Hm. }
    sbind. cbn [value_addr]. case_decide.
    + simpl. destruct (Z.eqb_spec (a + Z.of_nat (length n) + 1) 0); [lia|done].
    + simpl. rewrite length_app, length_cons. apply bytes_at_app in Hm as [_ Hm]. destruct Hm as [_ Hm].
      rewrite length_app, length_cons in Hm. rewrite (IH _ fuel).
      * do 3 f_equal. lia.
      * lia.
      * done.
      * lia.
      * lia.
Qed.

Lemma value_addr_pos a vs key p : value_addr a vs key = Some p → a < p.
Proof.
  revert a. induction vs as [|[n v] vs IH]; intros a H; simpl in H; [done|].
  case_decide; [injection H as <-; lia|]. apply IH in H. lia.
Qed.

Lemma value_addr_bytes m a vs key w :
  bytes_at m a (block_text vs ++ w) →
  match lookup_var vs key with
  | Some v => ∃ p, value_addr a vs key = Some p ∧ load_n (S (length v)) m p = Some (v ++ [0])
  | None => value_addr a vs key = None
  end.
Proof.
  revert a. induction vs as [|[n v] vs IH]; intros a Hm; [done|]. cbn [lookup_var value_addr].
  assert (block_text ((n, v) :: vs) = n ++ 61 :: (v ++ [0]) ++ block_text vs) as E.
  { unfold block_text, var_text. simpl. repeat (rewrite <- app_assoc; simpl). done. }
  rewrite E, <- app_assoc in Hm. apply bytes_at_app in Hm as [_ [_ Hm]]. rewrite <- app_assoc in Hm.
  apply bytes_at_app in Hm as [Hv Hm]. case_decide.
  - eexists. split; [done|]. rewrite <- (bytes_at_load m) in Hv. rewrite length_app, Nat.add_comm in Hv. exact Hv.
  - rewrite length_app in Hm. apply IH. replace (a + Z.of_nat (length n) + 1 + Z.of_nat (length v) + 1)
      with (a + Z.of_nat (length n) + 1 + Z.of_nat (length v + length [0])) by (simpl; lia). done.
Qed.

(** ** Opening the redundant environment *)

Section open.
Context `{L : heap_layout} `{F : storage} `{V : env_vars} `{O : env_config}.
Context (base limit : Z) (cur : nat).
Context (Hcl : cache_line = None) (Hred : have_redundenv = true) (Hsize : env_size = Z.of_nat cur).
Context (Hcur : (512 <= cur)%nat) (Hroom : limit + Z.of_nat cur + 1071 < 2 ^ 32) (Hinit : spl_flash_init = 0).

(** A static word that no heap operation touches. *)
Definition var_outside (a : Z) : Prop :=
  (a + 4 <= base ∨ limit <= a) ∧ (a + 4 <= boot_heap_head ∨ boot_heap_head + 16 <= a) ∧
  (a + 4 <= boot_heap_tail ∨ boot_heap_tail + 16 <= a).

Context (Hv1 : var_outside env_start_sector) (Hv2 : var_outside env_start_sector_2).

Lemma rd32_outside m m' a : var_outside a → same_outside base limit m m' → rd32 m' a = rd32 m a.
Proof. intros (?&?&?) Hs. apply rd32_ext. intros x Hx. apply Hs; lia. Qed.

(** The size of a buffer, and the block for one after [l1]. *)
Definition env_need : Z := MY_BYTE_ALIGN (Z.of_nat cur + 1024).
Definition env_blk (l1 : list blk) : blk :=
  Blk (end_of base l1) (end_of base l1 + 16) env_need (Z.of_nat cur + 1024).

Lemma env_request : heap_room base limit → request_ok limit (Z.of_nat cur + 1024).
Proof. intros Hr. pose proof (room_base _ _ Hr). split; [lia|]. change (2 ^ 32) with 4294967296 in *. lia. Qed.

(** Allocate, clear and read one copy. *)
Lemma read_copy m l l1 l2 s img d :
  heap_rep base limit m l → first_gap limit base env_need l = Some (l1, l2) →
  rd32 m (if d =? 0 then env_start_sector else env_start_sector_2) = Some s → d = 0 ∨ d = 1 →
  spl_flash_read s (Z.of_nat cur / 512) = Some img → length img = cur →
  let b := env_blk l1 in
  ∃ m1 m2 m3,
    malloc m (Z.of_nat cur ⊞ 1024) = Some (m1, adr b) ∧ adr b ≠ 0 ∧ adr b ≠ limit ∧
    memset m1 (adr b) 0 (Z.of_nat cur) = Some m2 ∧
    (∀ st, dev_current st = d → e_image (environment st) = adr b → cur_envsize st = Z.of_nat cur →
       flash_io st m2 = Some (m3, 0)) ∧
    heap_rep base limit m3 (l1 ++ b :: l2) ∧ load_n cur m3 (adr b) = Some img ∧
    same_payload l m m3 ∧ same_outside base limit m m3 ∧ l = l1 ++ l2.
Proof.
  intros Hrep Hg Hs Hd Hread Hlen b. pose proof (env_request (rep_room _ _ _ _ Hrep)) as Hok.
  pose proof (room_base _ _ (rep_room _ _ _ _ Hrep)) as Hbase. change (2 ^ 32) with 4294967296 in *.
  pose proof (malloc_spec base limit Hcl m l _ Hrep Hok) as Hmal. unfold malloc_result in Hmal.
  fold env_need in Hmal. rewrite Hg in Hmal. destruct Hmal as (m1 & Hmal & Hrep1 & Hs1 & Ho1).
  change (new_blk base l1 (Z.of_nat cur + 1024)) with b in *. apply first_gap_split in Hg as [-> _].
  assert (b ∈ l1 ++ b :: l2) as Hb by apply elem_mid.
  destruct (live_split base limit m1 b ltac:(by eexists)) as (_ & _ & _ & Hpos).
  assert (Z.of_nat cur <= sz b) as Hsz.
  { destruct (align_spec Hcl (Z.of_nat cur + 1024)); [lia|change (2 ^ 32) with 4294967296; lia|].
    change (sz b) with env_need. unfold env_need. lia. }
  destruct (fill_block base limit m1 _ b img cur Hrep1 Hb Hsz Hlen) as (Hms & Hst & Hrep2 & Hld & Hs2 & Ho2 & Ho3).
  eexists m1, _, _. rewrite u32_small by (unfold is_u32; lia).
  split; [done|]. split; [lia|]. split; [lia|]. split; [exact Hms|].
  split; [|split; [exact Hrep2|split; [exact Hld|split; [|split; [by eapply same_outside_trans|done]]]]].
  - intros st Hdev Himg Hc. unfold flash_io, flash_env_read. rewrite Hdev, Himg, Hc.
    assert (rd32 (write_bytes m1 (adr b) (replicate cur (u8 0)))
              (if d =? 0 then env_start_sector else env_start_sector_2) = Some s) as Hs'.
    { rewrite <- Hs. apply rd32_outside; [by destruct Hd as [->| ->]|by eapply same_outside_trans]. }
    destruct Hd as [->| ->]; cbn [Z.eqb Pos.eqb] in *; rewrite Hs'; sbind; rewrite Hinit; cbn [negb Z.eqb];
      unfold flash_read_to; rewrite Hread, Hst; done.
  - intros c Hc. eapply same_trans; [by apply Hs1|apply Hs2].
    + by apply elem_insert_mid.
    + intros ->. eapply wfl_fresh; [exact (rep_wf _ _ _ _ Hrep1)|done].
Qed.

Lemma crc32_total x l : is_Some (crc32 x l (length l)).
Proof.
  assert (∀ c, is_Some (crc32_loop c l (length l))) as H.
  { induction l as [|y l IH]; intros c; cbn [length crc32_loop]; eauto. }
  unfold crc32, crc32_0. destruct (H 0xFFFFFFFF) as [c ->]. eauto.
Qed.

(** What the code reads from a copy. *)
Definition copy_ok (img : bytes) : bool :=
  bool_decide (crc32 0 (drop 5 img) (cur - 5) = Some (le_val (take 4 img))).
Definition copy_flag (img : bytes) : Z := nth 4 img 0.

Lemma copy_fields m p img :
  load_n cur m p = Some img →
  ∃ c, env_crc m (p + 5) (Z.of_nat cur - 5) = Some c ∧ rd32 m p = Some (le_val (take 4 img)) ∧
    (c =? le_val (take 4 img)) = copy_ok img ∧ m !! (p + 4) = Some (copy_flag img).
Proof.
  intros Hld. pose proof (load_n_length _ _ _ _ Hld) as Hlen.
  assert (Z.to_nat (Z.of_nat cur - 5) = (cur - 5)%nat) as Hn by lia.
  pose proof (load_n_sub _ _ _ _ 5 (cur - 5) Hld ltac:(lia)) as Hdata. change (Z.of_nat 5) with 5 in Hdata.
  rewrite take_ge in Hdata by (rewrite length_drop; lia).
  pose proof (load_n_sub _ _ _ _ 0 4 Hld ltac:(lia)) as H4. rewrite Z.add_0_r, drop_0 in H4.
  pose proof (load_n_lookup _ _ _ _ 4 Hld ltac:(lia)) as Hf. change (Z.of_nat 4) with 4 in Hf.
  unfold env_crc. rewrite Hn, Hdata. sbind.
  destruct (crc32 0 (drop 5 img) (cur - 5)) as [c|] eqn:Hc.
  2:{ exfalso. destruct (crc32_total 0 (drop 5 img)) as [c Hc']. rewrite length_drop, Hlen in Hc'. congruence. }
  exists c. split; [done|]. unfold rd32. rewrite H4. split; [done|]. split.
  - unfold copy_ok. rewrite Hc. destruct (Z.eqb_spec c (le_val (take 4 img))) as [->|Hne].
    + by rewrite bool_decide_true.
    + rewrite bool_decide_false; [done|]. congruence.
  - rewrite Hf. destruct (lookup_lt_is_Some_2 img 4) as [x Hx]; [lia|]. rewrite Hx. unfold copy_flag.
    by rewrite nth_lookup, Hx.
Qed.

Lemma flash_env_init_cur g st m m0 st0 :
  flash_env_init g st m = Some (m0, st0, 0) → st0 = set_cur_envsize st (Z.of_nat cur).
Proof.
  unfold flash_env_init. rewrite Hred, Hsize. intros H. some_inv; by simplify_eq.
Qed.

Lemma select_dev_01 sch ok0 ok1 f0 f1 d : select_dev sch ok0 ok1 f0 f1 = Some d → d = 0 ∨ d = 1.
Proof.
  unfold select_dev. intros H. destruct ok0, ok1; cbn [andb negb] in H; [|simplify_eq; auto..].
  destruct sch; [done|..]; injection H as <-; repeat case_match; auto.
Qed.

(** Give one block of the heap back. *)
Lemma free_block m l b :
  heap_rep base limit m l → b ∈ l →
  ∃ m' l', free m (adr b) = Some m' ∧ heap_rep base limit m' l' ∧ l ≡ₚ b :: l' ∧ same_payload l m m' ∧ same_outside base limit m m'.
Proof.
  intros Hrep Hb. apply list_elem_of_split in Hb as (x & y & ->).
  destruct (live_split base limit m b) as (_ & _ & _ & Hpos).
  { eexists. split; [exact Hrep|]. apply elem_mid. }
  pose proof (free_spec base limit m _ (adr b) Hrep ltac:(lia) ltac:(lia)) as Hf.
  rewrite (split_at_mid _ _ _ _ (rep_wf _ _ _ _ Hrep)) in Hf. destruct Hf as (m' & H1 & H2 & H3 & H4).
  exists m', (x ++ y). split; [done|]. split; [done|]. split; [by rewrite Permutation_middle|done].
Qed.

(** Serial [b] is newer than serial [a]: larger, but 0 comes after 255. *)
Definition newer (a b : Z) : Prop := (a < b ∧ ¬ (a = 0 ∧ b = 255)) ∨ (a = 255 ∧ b = 0).

(** Which of two copies with checksums [ok0], [ok1] and serials [f0], [f1]
    should be kept: the good one, of two good ones the second if it is newer and
    else the first, and none if both are bad. *)
Inductive kept_copy (ok0 ok1 : bool) (f0 f1 : Z) : option Z → Prop :=
| kept_none : ok0 = false → ok1 = false → kept_copy ok0 ok1 f0 f1 None
| kept_only_first : ok0 = true → ok1 = false → kept_copy ok0 ok1 f0 f1 (Some 0)
| kept_only_second : ok0 = false → ok1 = true → kept_copy ok0 ok1 f0 f1 (Some 1)
| kept_second : ok0 = true → ok1 = true → newer f0 f1 → kept_copy ok0 ok1 f0 f1 (Some 1)
| kept_first : ok0 = true → ok1 = true → ¬ newer f0 f1 → kept_copy ok0 ok1 f0 f1 (Some 0).

Lemma select_dev_kept ok0 ok1 f0 f1 : kept_copy ok0 ok1 f0 f1 (select_dev FLAG_INCREMENTAL ok0 ok1 f0 f1).
Proof.
  unfold select_dev. destruct ok0, ok1; cbn [andb negb]; [|by constructor..].
  destruct (Z.eqb_spec f0 255), (Z.eqb_spec f1 0), (Z.eqb_spec f1 255), (Z.eqb_spec f0 0), (Z.leb_spec f1 f0);
    cbn [andb orb]; first [lia|apply kept_second; [done..|unfold newer; lia]|apply kept_first; [done..|unfold newer; lia]].
Qed.

(** The outcome of opening, the buffers being [b0] and [b1], the copies read
    [img0] and [img1], and [l] the blocks live before. *)
Definition open_outcome (r : option (mem * env_state * Z)) (m0 : mem) (l : list blk)
    (b0 b1 : blk) (img0 img1 : bytes) : Prop :=
  ∃ m' st' l' k, heap_rep base limit m' l' ∧ same_payload l m0 m' ∧ same_outside base limit m0 m' ∧
    kept_copy (copy_ok img0) (copy_ok img1) (copy_flag img0) (copy_flag img1) k ∧
    match k with
    | None => r = Some (m', st', -1) ∧ s_is_env_opened st' = 0 ∧ l' ≡ₚ b0 :: b1 :: l
    | Some d =>
        let b := if d =? 0 then b0 else b1 in
        let img := if d =? 0 then img0 else img1 in
        r = Some (m', st', 0) ∧ s_is_env_opened st' = 1 ∧ l' ≡ₚ b :: l ∧
        e_image (environment st') = adr b ∧ e_data (environment st') = adr b + 5 ∧
        usable_envsize st' = Z.of_nat cur - 5 ∧ load_n cur m' (adr b) = Some img
    end.

(** The second half, from the memory [m1] with the first copy in [b0]. *)
Lemma open_redundant_spec st m0 m1 l l1 l2 k1 k2 s2 img0 img1 :
  l = l1 ++ l2 → same_payload l m0 m1 → same_outside base limit m0 m1 →
  heap_rep base limit m1 (l1 ++ env_blk l1 :: l2) → load_n cur m1 (adr (env_blk l1)) = Some img0 →
  first_gap limit base env_need (l1 ++ env_blk l1 :: l2) = Some (k1, k2) →
  rd32 m1 env_start_sector_2 = Some s2 → spl_flash_read s2 (Z.of_nat cur / 512) = Some img1 → length img1 = cur →
  cur_envsize st = Z.of_nat cur → usable_envsize st = Z.of_nat cur - 5 → s_is_env_opened st = 0 →
  environment st = Environment (adr (env_blk l1)) (adr (env_blk l1)) (adr (env_blk l1) + 4)
                     (adr (env_blk l1) + 5) (e_flag_scheme (environment st)) →
  open_outcome (open_redundant st m1 (adr (env_blk l1)) (copy_ok img0)) m0 l (env_blk l1) (env_blk k1) img0 img1.
Proof.
  intros -> Hsame Hout Hrep Hld0 Hg Hs2 Hread Hlen Hc Hu Hop Henv.
  destruct (copy_fields _ _ _ Hld0) as (_ & _ & _ & _ & Hf0).
  destruct (read_copy m1 _ k1 k2 s2 img1 1 Hrep Hg Hs2 ltac:(auto) Hread Hlen)
    as (m2 & m3 & m4 & Hmal & Hnz & _ & Hms & Hio & Hrep4 & Hld1 & Hs4 & Ho4 & Ek).
  assert (∀ m', same_outside base limit m4 m' → same_outside base limit m0 m') as Hallo
    by (intros m' Hm'; eapply same_outside_trans; [exact Hout|by eapply same_outside_trans]).
  set (b0 := env_blk l1) in *. set (b1 := env_blk k1) in *.
  destruct (copy_fields _ _ _ Hld1) as (c1 & Hcrc1 & Hrd1 & Hok1 & Hf1).
  assert (b0 ∈ k1 ++ b1 :: k2) as Hb0.
  { rewrite elem_of_app, elem_of_cons. assert (b0 ∈ k1 ++ k2) as Hb by (rewrite <- Ek; apply elem_of_app; right; by left).
    rewrite elem_of_app in Hb. tauto. }
  assert (b1 ∈ k1 ++ b1 :: k2) as Hb1 by apply elem_mid.
  assert (k1 ++ b1 :: k2 ≡ₚ b0 :: b1 :: (l1 ++ l2)) as Hperm.
  { rewrite <- Permutation_middle, <- Ek, <- Permutation_middle. apply perm_swap. }
  assert (Z.of_nat cur <= sz b0 ∧ Z.of_nat cur <= sz b1) as [Hz0 Hz1].
  { apply rep_wf in Hrep4. destruct (wfl_mem _ _ _ Hrep4 Hb0) as (_&_&_&_&H0&_).
    destruct (wfl_mem _ _ _ Hrep4 Hb1) as (_&_&_&_&H1&_). simpl in *. lia. }
  assert (load_n cur m4 (adr b0) = Some img0) as Hld04.
  { rewrite <- Hld0. apply load_n_ext. intros x Hx. apply (Hs4 b0); [apply elem_mid|lia]. }
  assert (∀ m', same_payload (k1 ++ b1 :: k2) m4 m' → same_payload (l1 ++ l2) m0 m') as Hall.
  { intros m' H' c Hcin. eapply same_trans; [by apply Hsame|]. eapply same_trans; [apply Hs4|apply H'].
    - by apply elem_insert_mid.
    - rewrite Hperm. do 2 right. done. }
  destruct st as [ce ue dc op env]. generalize dependent (e_flag_scheme (environment (EnvState ce ue dc op env))).
  intros sch Henv. cbn [cur_envsize usable_envsize s_is_env_opened environment] in *. subst ce ue op.
  unfold open_redundant, set_scheme, set_image, set_environment, set_opened, set_dev_current.
  cbn [cur_envsize usable_envsize s_is_env_opened environment]. rewrite Henv.
  cbn [e_image e_crc e_flags e_data e_flag_scheme]. rewrite Hf0. sbind. rewrite Hmal. sbind.
  destruct (Z.eqb_spec (adr b1) 0) as [|_]; [done|]. rewrite Hms. sbind.
  rewrite Hio by reflexivity. sbind. change (negb (0 =? 0)) with false. cbn iota.
  rewrite Hcrc1. sbind. rewrite Hrd1. sbind. rewrite Hf1. sbind. rewrite Hok1. unfold open_outcome.
  pose proof (select_dev_kept (copy_ok img0) (copy_ok img1) (copy_flag img0) (copy_flag img1)) as Hkept.
  destruct (select_dev FLAG_INCREMENTAL (copy_ok img0) (copy_ok img1) (copy_flag img0) (copy_flag img1)) as [d|] eqn:Hsel.
  - destruct (select_dev_01 _ _ _ _ _ _ Hsel) as [->| ->]; cbn [Z.eqb Pos.eqb negb].
    + destruct (free_block m4 _ b1 Hrep4 Hb1) as (m5 & l' & -> & Hrep5 & Hp & Hs5 & Ho5). sbind.
      eexists m5, _, l', _. split; [done|]. split; [auto|]. split; [auto|]. split; [exact Hkept|]. split; [done|]. cbn.
      split_and!; try done.
      * apply (Permutation_cons_inv (a := b1)). rewrite <- Hp, Hperm. apply perm_swap.
      * rewrite <- Hld04. apply load_n_ext. intros x Hx. apply (Hs5 b0 Hb0). lia.
    + destruct (free_block m4 _ b0 Hrep4 Hb0) as (m5 & l' & -> & Hrep5 & Hp & Hs5 & Ho5). sbind.
      eexists m5, _, l', _. split; [done|]. split; [auto|]. split; [auto|]. split; [exact Hkept|]. split; [done|]. cbn.
      split_and!; try done.
      * apply (Permutation_cons_inv (a := b0)). by rewrite <- Hp, Hperm.
      * rewrite <- Hld1. apply load_n_ext. intros x Hx. apply (Hs5 b1 Hb1). lia.
  - eexists m4, _, _, _. split; [exact Hrep4|]. split; [apply Hall; by intros c Hcin x Hx|]. split; [by apply Hallo|]. split; [exact Hkept|]. split; [done|]. done.
Qed.

Lemma env_open_spec g st m m0 st0 l l1 l2 k1 k2 s1 s2 img0 img1 :
  s_is_env_opened st = 0 → flash_env_init g st m = Some (m0, st0, 0) → heap_rep base limit m0 l →
  rd32 m0 env_start_sector = Some s1 → rd32 m0 env_start_sector_2 = Some s2 →
  spl_flash_read s1 (Z.of_nat cur / 512) = Some img0 → length img0 = cur →
  spl_flash_read s2 (Z.of_nat cur / 512) = Some img1 → length img1 = cur →
  first_gap limit base env_need l = Some (l1, l2) →
  first_gap limit base env_need (l1 ++ env_blk l1 :: l2) = Some (k1, k2) →
  open_outcome (fw_env_open g st m) m0 l (env_blk l1) (env_blk k1) img0 img1.
Proof.
  intros Hop Hfi Hrep Hs1 Hs2 Hr0 Hl0 Hr1 Hl1 Hg Hg'. unfold fw_env_open. rewrite Hop, Hfi.
  change (negb (0 =? 0)) with false. cbn iota. sbind. change (negb (0 =? 0)) with false. cbn iota.
  apply flash_env_init_cur in Hfi as ->.
  destruct (read_copy m0 l l1 l2 s1 img0 0 Hrep Hg Hs1 ltac:(auto) Hr0 Hl0)
    as (m1 & m2 & m3 & Hmal & Hnz & _ & Hms & Hio & Hrep3 & Hld & Hs & Ho & El).
  cbn [set_cur_envsize cur_envsize]. rewrite Hmal. sbind. set (b0 := env_blk l1) in *.
  destruct (Z.eqb_spec (adr b0) 0) as [|_]; [done|]. rewrite Hms. sbind. rewrite Hred.
  unfold set_environment, set_usable_envsize, set_dev_current.
  cbn [cur_envsize usable_envsize s_is_env_opened environment e_flag_scheme e_data e_crc].
  rewrite Hio by reflexivity. sbind. change (negb (0 =? 0)) with false. cbn iota.
  pose proof (room_base _ _ (rep_room _ _ _ _ Hrep)) as Hbase. change (2 ^ 32) with 4294967296 in *.
  change (cur_envsize (set_cur_envsize st (Z.of_nat cur))) with (Z.of_nat cur).
  rewrite u32_small by (unfold is_u32; lia). replace (Z.of_nat cur - 4 - 1) with (Z.of_nat cur - 5) by lia.
  destruct (copy_fields _ _ _ Hld) as (c & Hcrc & Hrd & Hok & _).
  rewrite Hcrc. sbind. rewrite Hrd. sbind. rewrite Hok.
  eapply (open_redundant_spec _ m0 m3 l l1 l2 k1 k2 s2); try done.
  rewrite (rd32_outside m0 m3 _ Hv2 Ho). done.
Qed.

End open.

(** ** A concrete environment *)

Definition demo_vars : env_vars := EnvVars 0x120 0x124 0x128 0x12c.
Definition demo_config : env_config := EnvConfig true (Some 512).

(** Two variables, "a=1" and "bc=23". *)
Definition demo_text : list (bytes * bytes) := [([0x61], [0x31]); ([0x62; 0x63], [0x32; 0x33])].
Definition demo_data : bytes := block_text demo_text ++ replicate 496 0.
Definition demo_image (flag : Z) : bytes := le_bytes 4 (default 0 (crc32 0 demo_data 507)) ++ [flag] ++ demo_data.
Definition demo_flash : storage := Storage 0 (λ s _, Some (demo_image (if s =? 5 then 255 else 0))) 2016.

Definition env_mem : mem :=
  mem_of 0x100 (replicate 32 0 ++ le_bytes 4 5 ++ le_bytes 4 6 ++ le_bytes 4 1 ++ le_bytes 4 1 ++
                replicate (Z.to_nat 8528) 0).

Definition demo_st : env_state := EnvState 0 0 0 0 (Environment 0 0 0 0 FLAG_NONE).

Lemma env_rep :
  ∃ m, heap_rep (L := demo_layout None) 0x140 0x2240 m [] ∧
    flash_env_init (V := demo_vars) (O := demo_config) (GptState 0 0) demo_st m =
      Some (m, set_cur_envsize demo_st 512, 0) ∧
    rd32 m 0x120 = Some 5 ∧ rd32 m 0x124 = Some 6.
Proof.
  destruct (malloc_init_spec (L := demo_layout None) 0x140 0x2240 env_mem) as (m & _ & Hrep & Ho).
  - constructor; simpl; try lia. by repeat split.
  - apply mappedb_spec; vm_compute; reflexivity.
  - apply mappedb_spec; vm_compute; reflexivity.
  - apply mappedb_spec; vm_compute; reflexivity.
  - exists m. split; [done|].
    assert (∀ a, 0x120 <= a <= 0x13c → rd32 m a = rd32 env_mem a) as Hv.
    { intros a Ha. apply rd32_ext. intros x Hx. apply Ho; simpl; lia. }
    assert (rd32 m 0x120 = Some 5) as H1 by (rewrite Hv by lia; vm_compute; reflexivity).
    assert (rd32 m 0x124 = Some 6) as H2 by (rewrite Hv by lia; vm_compute; reflexivity).
    assert (rd32 m 0x128 = Some 1) as H3 by (rewrite Hv by lia; vm_compute; reflexivity).
    assert (rd32 m 0x12c = Some 1) as H4 by (rewrite Hv by lia; vm_compute; reflexivity).
    split; [|done]. unfold flash_env_init. cbn [have_redundenv demo_config]. unfold get_part_info_by_name.
    cbn [gpt_data_point Z.eqb]. sbind. cbn [env_start_sector env_start_sector_2 env_sectors env_sectors_2 demo_vars].
    rewrite H1, H2, H3, H4. reflexivity.
Qed.

(** ** Theorems *)

Lemma fw_getenv_run st m key r vs :
  0 < e_data (environment st) → name_ok key → Forall var_ok vs → vs ≠ [] →
  load_n (length (block_text vs)) m (e_data (environment st)) = Some (block_text vs) →
  Z.of_nat (length (block_text vs)) <= usable_envsize st →
  match lookup_var vs key with
  | Some v => ∃ p, fw_getenv st m (key ++ 0 :: r) = Some p ∧ p ≠ 0 ∧ load_n (S (length v)) m p = Some (v ++ [0])
  | None => fw_getenv st m (key ++ 0 :: r) = Some 0
  end.
Proof.
  intros Hpos Hkey Hvs Hne Hld Hsz. apply bytes_at_load in Hld.
  pose proof (value_addr_bytes m _ vs key [] ltac:(by rewrite app_nil_r)) as Hval.
  assert (fw_getenv st m (key ++ 0 :: r) = Some (default 0 (value_addr (e_data (environment st)) vs key))) as Hrun.
  { unfold fw_getenv. set (data := e_data (environment st)) in *.
    assert (∃ c, m !! data = Some c ∧ (c =? 0) = false) as (c & Hd & Hc).
    { destruct Hvs as [|[[|c n] v] vs (Hn & Hn0 & _) _]; [done..|]. destruct Hld as [Hd _]. exists c. split; [done|].
      inversion Hn as [|?? [Hc _] _]. unfold is_char in Hc. by destruct (Z.eqb_spec c 0); [lia|]. }
    cbn [skip_zeros]. rewrite Hd. sbind. rewrite Hc. sbind.
    apply (env_loop_spec _ m key r vs [] data); [lia|done|done|by rewrite app_nil_r|lia|lia]. }
  rewrite Hrun. destruct (lookup_var vs key) as [v|]; [|by rewrite Hval].
  destruct Hval as (p & Ea & Hp). rewrite Ea. exists p. split; [done|]. split; [|done].
  apply value_addr_pos in Ea. lia.
Qed.

(** C34: on a well-formed block of variables [fw_getenv] returns the address of
    the value of the first variable whose name is the argument, where memory
    holds that value and its terminator, and NULL when there is none. *)
Theorem fw_getenv_lookup st m key r vs :
  0 < e_data (environment st) → name_ok key → Forall var_ok vs → vs ≠ [] →
  load_n (length (block_text vs)) m (e_data (environment st)) = Some (block_text vs) →
  Z.of_nat (length (block_text vs)) <= usable_envsize st →
  match lookup_var vs key with
  | Some v => ∃ p, fw_getenv st m (key ++ 0 :: r) = Some p ∧ p ≠ 0 ∧ load_n (S (length v)) m p = Some (v ++ [0])
  | None => fw_getenv st m (key ++ 0 :: r) = Some 0
  end.
Proof. apply fw_getenv_run. Qed.

Lemma fw_getenv_lookup_witness :
  ∃ p, fw_getenv (EnvState 512 507 0 1 (Environment 0x1000 0x1000 0x1004 0x1005 FLAG_INCREMENTAL))
         (mem_of 0x1000 (demo_image 0)) ([0x62; 0x63] ++ [0]) = Some p ∧ p ≠ 0 ∧
       load_n 3 (mem_of 0x1000 (demo_image 0)) p = Some [0x32; 0x33; 0].
Proof.
  apply (fw_getenv_lookup (EnvState 512 507 0 1 (Environment 0x1000 0x1000 0x1004 0x1005 FLAG_INCREMENTAL))
    (mem_of 0x1000 (demo_image 0)) [0x62; 0x63] [] demo_text).
  - simpl. lia.
  - apply (bool_decide_unpack _). vm_compute. exact I.
  - apply (bool_decide_unpack _). vm_compute. exact I.
  - done.
  - vm_compute. reflexivity.
  - vm_compute. discriminate.
Defined.

(** The next serial is always newer. *)
Lemma next_newer f : is_u8 f → newer f (u8 (f + 1)) ∧ ¬ newer (u8 (f + 1)) f.
Proof. unfold is_u8, newer. intros Hf. destruct (decide (f = 255)) as [->|]; [change (u8 (255 + 1)) with 0; lia|]. rewrite u8_small by (unfold is_u8; lia). lia. Qed.

(** C12: with two copies [fw_env_open] reads both into new buffers, keeps the
    valid one, of two valid ones the newer by its serial byte (which wraps
    from 255 to 0), and gives the other buffer back: it then reports success,
    [environment] points at the kept copy and the heap has exactly one more
    block.  When neither copy's CRC is right it returns -1, stays closed, and
    both buffers remain allocated.  No other live block changes, and no memory
    outside the heap. *)
Theorem env_open_newest `{L : heap_layout} `{F : storage} `{V : env_vars} `{O : env_config}
    base limit cur g st m m0 st0 l l1 l2 k1 k2 s1 s2 img0 img1 :
  cache_line = None → have_redundenv = true → env_size = Z.of_nat cur → (512 <= cur)%nat →
  limit + Z.of_nat cur + 1071 < 2 ^ 32 → spl_flash_init = 0 →
  var_outside base limit env_start_sector → var_outside base limit env_start_sector_2 →
  s_is_env_opened st = 0 → flash_env_init g st m = Some (m0, st0, 0) → heap_rep base limit m0 l →
  rd32 m0 env_start_sector = Some s1 → rd32 m0 env_start_sector_2 = Some s2 →
  spl_flash_read s1 (Z.of_nat cur / 512) = Some img0 → length img0 = cur →
  spl_flash_read s2 (Z.of_nat cur / 512) = Some img1 → length img1 = cur →
  first_gap limit base (env_need cur) l = Some (l1, l2) →
  first_gap limit base (env_need cur) (l1 ++ env_blk base cur l1 :: l2) = Some (k1, k2) →
  open_outcome base limit cur (fw_env_open g st m) m0 l (env_blk base cur l1) (env_blk base cur k1) img0 img1 ∧
  (∀ f, is_u8 f → newer f (u8 (f + 1)) ∧ ¬ newer (u8 (f + 1)) f).
Proof. intros. split; [by eapply env_open_spec|exact next_newer]. Qed.

(** The copy at sector 5 has serial 255, the one at sector 6 has serial 0. *)
Lemma env_open_newest_witness :
  ∃ m m' st',
    fw_env_open (L := demo_layout None) (F := demo_flash) (V := demo_vars) (O := demo_config) (GptState 0 0) demo_st m =
      Some (m', st', 0) ∧
    load_n 512 m' (e_image (environment st')) = Some (demo_image 0).
Proof.
  destruct env_rep as (m & Hrep & Hfi & H1 & H2). exists m.
  assert (var_outside (L := demo_layout None) 0x140 0x2240 0x120 ∧ var_outside (L := demo_layout None) 0x140 0x2240 0x124)
    as [Hv1 Hv2] by (unfold var_outside; simpl; lia).
  pose proof (env_open_newest (L := demo_layout None) (F := demo_flash) (V := demo_vars) (O := demo_config)
    0x140 0x2240 512 (GptState 0 0) demo_st m m (set_cur_envsize demo_st 512) [] [] []
    [env_blk (L := demo_layout None) 0x140 512 []] [] 5 6 (demo_image 255) (demo_image 0)
    eq_refl eq_refl eq_refl ltac:(lia) ltac:(lia) eq_refl Hv1 Hv2 eq_refl Hfi Hrep H1 H2
    eq_refl ltac:(vm_compute; reflexivity) eq_refl ltac:(vm_compute; reflexivity) eq_refl eq_refl) as [Ho _].
  destruct Ho as (m' & st' & l' & k & _ & _ & _ & Hk & Ho). exists m', st'.
  assert (copy_ok 512 (demo_image 255) = true) as E0 by (vm_compute; reflexivity).
  assert (copy_ok 512 (demo_image 0) = true) as E1 by (vm_compute; reflexivity).
  destruct Hk as [Hk|? Hk|Hk|_ _ Hk|_ _ Hk]; [congruence..| |].
  - destruct Ho as (Hr & _ & _ & Hi & _ & _ & Hld). split; [exact Hr|]. rewrite Hi. exact Hld.
  - exfalso. apply Hk. right. split; reflexivity.
Defined.
