(* ===== verification/UCrc32.v ===== *)
(** * CRC-32 of U-Boot (u-boot-2018/lib/crc32.c)

    The CRC that the flashing tool and U-Boot's environment use.  It is
    zlib's: the bytes up to a word boundary one at a time, then four at a time
    by folding a whole word into the register, then the rest; and it takes the
    running value as its first argument.  The file proves that it computes
    the same bit-by-bit reference as the boot loader's own routine
    ([Crc32]), for every alignment of the buffer, and that it can be
    continued over pieces, which that one cannot. *)

From S2P Require Import Prelude Crc32.

Local Open Scope Z_scope.

(** ** The code *)

(** The static table. *)
Definition crc_table : list Z :=
  [ 0x00000000; 0x77073096; 0xee0e612c; 0x990951ba; 0x076dc419; 0x706af48f;
    0xe963a535; 0x9e6495a3; 0x0edb8832; 0x79dcb8a4; 0xe0d5e91e; 0x97d2d988;
    0x09b64c2b; 0x7eb17cbd; 0xe7b82d07; 0x90bf1d91; 0x1db71064; 0x6ab020f2;
    0xf3b97148; 0x84be41de; 0x1adad47d; 0x6ddde4eb; 0xf4d4b551; 0x83d385c7;
    0x136c9856; 0x646ba8c0; 0xfd62f97a; 0x8a65c9ec; 0x14015c4f; 0x63066cd9;
    0xfa0f3d63; 0x8d080df5; 0x3b6e20c8; 0x4c69105e; 0xd56041e4; 0xa2677172;
    0x3c03e4d1; 0x4b04d447; 0xd20d85fd; 0xa50ab56b; 0x35b5a8fa; 0x42b2986c;
    0xdbbbc9d6; 0xacbcf940; 0x32d86ce3; 0x45df5c75; 0xdcd60dcf; 0xabd13d59;
    0x26d930ac; 0x51de003a; 0xc8d75180; 0xbfd06116; 0x21b4f4b5; 0x56b3c423;
    0xcfba9599; 0xb8bda50f; 0x2802b89e; 0x5f058808; 0xc60cd9b2; 0xb10be924;
    0x2f6f7c87; 0x58684c11; 0xc1611dab; 0xb6662d3d; 0x76dc4190; 0x01db7106;
    0x98d220bc; 0xefd5102a; 0x71b18589; 0x06b6b51f; 0x9fbfe4a5; 0xe8b8d433;
    0x7807c9a2; 0x0f00f934; 0x9609a88e; 0xe10e9818; 0x7f6a0dbb; 0x086d3d2d;
    0x91646c97; 0xe6635c01; 0x6b6b51f4; 0x1c6c6162; 0x856530d8; 0xf262004e;
    0x6c0695ed; 0x1b01a57b; 0x8208f4c1; 0xf50fc457; 0x65b0d9c6; 0x12b7e950;
    0x8bbeb8ea; 0xfcb9887c; 0x62dd1ddf; 0x15da2d49; 0x8cd37cf3; 0xfbd44c65;
    0x4db26158; 0x3ab551ce; 0xa3bc0074; 0xd4bb30e2; 0x4adfa541; 0x3dd895d7;
    0xa4d1c46d; 0xd3d6f4fb; 0x4369e96a; 0x346ed9fc; 0xad678846; 0xda60b8d0;
    0x44042d73; 0x33031de5; 0xaa0a4c5f; 0xdd0d7cc9; 0x5005713c; 0x270241aa;
    0xbe0b1010; 0xc90c2086; 0x5768b525; 0x206f85b3; 0xb966d409; 0xce61e49f;
    0x5edef90e; 0x29d9c998; 0xb0d09822; 0xc7d7a8b4; 0x59b33d17; 0x2eb40d81;
    0xb7bd5c3b; 0xc0ba6cad; 0xedb88320; 0x9abfb3b6; 0x03b6e20c; 0x74b1d29a;
    0xead54739; 0x9dd277af; 0x04db2615; 0x73dc1683; 0xe3630b12; 0x94643b84;
    0x0d6d6a3e; 0x7a6a5aa8; 0xe40ecf0b; 0x9309ff9d; 0x0a00ae27; 0x7d079eb1;
    0xf00f9344; 0x8708a3d2; 0x1e01f268; 0x6906c2fe; 0xf762575d; 0x806567cb;
    0x196c3671; 0x6e6b06e7; 0xfed41b76; 0x89d32be0; 0x10da7a5a; 0x67dd4acc;
    0xf9b9df6f; 0x8ebeeff9; 0x17b7be43; 0x60b08ed5; 0xd6d6a3e8; 0xa1d1937e;
    0x38d8c2c4; 0x4fdff252; 0xd1bb67f1; 0xa6bc5767; 0x3fb506dd; 0x48b2364b;
    0xd80d2bda; 0xaf0a1b4c; 0x36034af6; 0x41047a60; 0xdf60efc3; 0xa867df55;
    0x316e8eef; 0x4669be79; 0xcb61b38c; 0xbc66831a; 0x256fd2a0; 0x5268e236;
    0xcc0c7795; 0xbb0b4703; 0x220216b9; 0x5505262f; 0xc5ba3bbe; 0xb2bd0b28;
    0x2bb45a92; 0x5cb36a04; 0xc2d7ffa7; 0xb5d0cf31; 0x2cd99e8b; 0x5bdeae1d;
    0x9b64c2b0; 0xec63f226; 0x756aa39c; 0x026d930a; 0x9c0906a9; 0xeb0e363f;
    0x72076785; 0x05005713; 0x95bf4a82; 0xe2b87a14; 0x7bb12bae; 0x0cb61b38;
    0x92d28e9b; 0xe5d5be0d; 0x7cdcefb7; 0x0bdbdf21; 0x86d3d2d4; 0xf1d4e242;
    0x68ddb3f8; 0x1fda836e; 0x81be16cd; 0xf6b9265b; 0x6fb077e1; 0x18b74777;
    0x88085ae6; 0xff0f6a70; 0x66063bca; 0x11010b5c; 0x8f659eff; 0xf862ae69;
    0x616bffd3; 0x166ccf45; 0xa00ae278; 0xd70dd2ee; 0x4e048354; 0x3903b3c2;
    0xa7672661; 0xd06016f7; 0x4969474d; 0x3e6e77db; 0xaed16a4a; 0xd9d65adc;
    0x40df0b66; 0x37d83bf0; 0xa9bcae53; 0xdebb9ec5; 0x47b2cf7f; 0x30b5ffe9;
    0xbdbdf21c; 0xcabac28a; 0x53b39330; 0x24b4a3a6; 0xbad03605; 0xcdd70693;
    0x54de5729; 0x23d967bf; 0xb3667a2e; 0xc4614ab8; 0x5d681b02; 0x2a6f2b94;
    0xb40bbe37; 0xc30c8ea1; 0x5a05df1b; 0x2d02ef8d ].

(** The table computed at run time (CONFIG_DYNAMIC_CRC_TABLE). *)
Definition crc_terms : list Z := [0; 1; 2; 4; 5; 7; 8; 10; 11; 12; 16; 22; 23; 26].

Definition make_poly : Z := fold_left (λ poly p, Z.lor poly (Z.shiftl 1 (31 - p))) crc_terms 0.

Fixpoint make_entry (k : nat) (c : Z) : Z :=
  match k with
  | O => c
  | S k' => make_entry k' (if negb (Z.land c 1 =? 0) then Z.lxor make_poly (Z.shiftr c 1) else Z.shiftr c 1)
  end.

Definition make_crc_table : list Z := (λ n, make_entry 8 (Z.of_nat n)) <$> seq 0 256.

(** The macro [DO_CRC] on a little-endian machine. *)
Definition DO_CRC (crc x : Z) : Z :=
  Z.lxor (nth (Z.to_nat (Z.land (Z.lxor crc x) 255)) crc_table 0) (Z.shiftr crc 8).

(** [do ... while ((--len) && ((long)p) & 3)], entered with [len > 0]. *)
Fixpoint crc_align (len : nat) (p crc : Z) (buf : bytes) : option (Z * bytes * nat) :=
  match len, buf with
  | S len', x :: buf' =>
      let crc := DO_CRC crc x in
      if (Nat.eqb len' 0) || (Z.land (p + 1) 3 =? 0) then Some (crc, buf', len')
      else crc_align len' (p + 1) crc buf'
  | _, _ => None
  end.

(** The word loop. *)
Fixpoint crc_words (len : nat) (crc : Z) (buf : bytes) : option (Z * bytes) :=
  match len with
  | O => Some (crc, buf)
  | S len' =>
      match buf with
      | a :: b :: c :: d :: buf' =>
          let crc := Z.lxor crc (le_val [a; b; c; d]) in
          crc_words len' (DO_CRC (DO_CRC (DO_CRC (DO_CRC crc 0) 0) 0) 0) buf'
      | _ => None
      end
  end.

(** The last bytes. *)
Fixpoint crc_tail (len : nat) (crc : Z) (buf : bytes) : option Z :=
  match len with
  | O => Some crc
  | S len' => match buf with [] => None | x :: buf' => crc_tail len' (DO_CRC crc x) buf' end
  end.

(** [addr] is the address of [buf], of which only the alignment matters. *)
Definition crc32_no_comp (addr crc : Z) (buf : bytes) (len : nat) : option Z :=
  '(crc, buf, len) ←
    (if negb (Z.land addr 3 =? 0) && negb (Nat.eqb len 0) then crc_align len addr crc buf
     else Some (crc, buf, len));
  '(crc, buf) ← crc_words (len / 4) crc buf;
  crc_tail (len mod 4) crc buf.

Definition ucrc32 (addr crc : Z) (p : bytes) (len : nat) : option Z :=
  r ← crc32_no_comp addr (Z.lxor crc 0xffffffff) p len; Some (Z.lxor r 0xffffffff).

(** ** Lemmas *)

Lemma crc_table_same : crc_table = crc32_table.
Proof. reflexivity. Qed.

Lemma DO_CRC_step crc x : word32 crc → is_u8 x → DO_CRC crc x = crc_byte crc x.
Proof.
  intros Hc Hx. rewrite <- crc32_step_spec by done. unfold DO_CRC, crc32_step.
  rewrite crc_table_same, Z.lxor_comm. f_equal. change 0x00FFFFFF with (Z.ones 24). rewrite Z.land_ones by lia.
  rewrite Z.mod_small; [done|]. rewrite Z.shiftr_div_pow2 by lia.
  change (2 ^ 8) with 256. change (2 ^ 24) with 16777216. change (2 ^ 32) with 4294967296 in Hc. zmod.
Qed.

Lemma word_of_bytes l : is_byte_list l → length l = 4%nat → word32 (le_val l).
Proof. intros Hl H4. pose proof (le_val_bound l Hl). rewrite H4 in *. done. Qed.

(** Folding in a whole word is four bytes. *)
Lemma DO_CRC_word crc l :
  word32 crc → is_byte_list l → length l = 4%nat →
  DO_CRC (DO_CRC (DO_CRC (DO_CRC (Z.lxor crc (le_val l)) 0) 0) 0) 0 = crc_state crc l.
Proof.
  intros Hc Hl H4. set (c := Z.lxor crc (le_val l)). assert (H0 : is_u8 0) by (unfold is_u8; lia).
  assert (word32 c) by (apply lxor_bound; [lia|done|by apply word_of_bytes]).
  rewrite (DO_CRC_step c), (DO_CRC_step (crc_byte c 0)), (DO_CRC_step (crc_byte (crc_byte c 0) 0)), DO_CRC_step
    by (done || (repeat apply crc_byte_word; done)).
  rewrite (crc_state_bits crc l Hl), H4. unfold crc_byte. rewrite !Z.lxor_0_r. subst c.
  by rewrite <- !crc_bits_split.
Qed.

Lemma crc_tail_run l r crc :
  word32 crc → is_byte_list l → crc_tail (length l) crc (l ++ r) = Some (crc_state crc l).
Proof.
  intros Hc Hl. revert crc Hc. induction Hl as [|x l Hx Hl IH]; intros crc Hc; simpl; [done|].
  rewrite DO_CRC_step by done. by apply IH, crc_byte_word.
Qed.

Lemma crc_words_run n l r crc :
  word32 crc → is_byte_list l → length l = (4 * n)%nat → crc_words n crc (l ++ r) = Some (crc_state crc l, r).
Proof.
  revert l crc. induction n as [|n IH]; intros l crc Hc Hl Hn; [by destruct l|].
  destruct l as [|a [|b [|c [|d l]]]]; simpl in Hn; try lia.
  assert (is_byte_list ([a; b; c; d] ++ l)) as [Hw Hl']%Forall_app by done.
  cbn [crc_words app]. cbv zeta. rewrite (DO_CRC_word crc [a; b; c; d] Hc Hw eq_refl), IH; [|by apply crc_state_word|done|lia].
  by rewrite <- crc_state_app.
Qed.

Lemma crc_align_run len p l r crc :
  word32 crc → is_byte_list l → length l = len → (0 < len)%nat →
  ∃ l1 l2, l = l1 ++ l2 ∧ crc_align len p crc (l ++ r) = Some (crc_state crc l1, l2 ++ r, length l2).
Proof.
  revert p l crc. induction len as [|len IH]; intros p l crc Hc Hl Hn Hpos; [lia|].
  destruct l as [|x l]; [done|]. apply Forall_cons in Hl as [Hx Hl]. injection Hn as Hn.
  cbn [crc_align app]. rewrite DO_CRC_step by done.
  destruct (Nat.eqb_spec len 0) as [Hz|Hz]; [|destruct (Z.land (p + 1) 3 =? 0)]; cbn [orb].
  - exists [x], l. by rewrite Hn.
  - exists [x], l. by rewrite Hn.
  - destruct (IH (p + 1) l (crc_byte crc x)) as (l1 & l2 & -> & E); [by apply crc_byte_word|done|done|lia|].
    exists (x :: l1), l2. done.
Qed.

Lemma crc32_no_comp_run addr l r crc :
  word32 crc → is_byte_list l → crc32_no_comp addr crc (l ++ r) (length l) = Some (crc_state crc l).
Proof.
  intros Hc Hl. unfold crc32_no_comp.
  assert (∃ l1 l2, l = l1 ++ l2 ∧
    (if negb (Z.land addr 3 =? 0) && negb (Nat.eqb (length l) 0) then crc_align (length l) addr crc (l ++ r)
     else Some (crc, l ++ r, length l)) = Some (crc_state crc l1, l2 ++ r, length l2)) as (l1 & l2 & -> & ->).
  { destruct (Nat.eqb_spec (length l) 0) as [Hz|Hz]; [rewrite andb_false_r; by exists [], l|].
    destruct (Z.land addr 3 =? 0); [by exists [], l|]. apply crc_align_run; [done..|lia]. }
  sbind. apply Forall_app in Hl as [Hl1 Hl2]. rewrite crc_state_app.
  assert (word32 (crc_state crc l1)) as Hc1 by by apply crc_state_word. revert Hc1.
  generalize (crc_state crc l1) as c. clear crc Hc. intros c Hc.
  pose proof (Nat.div_mod_eq (length l2) 4) as Hdm.
  set (w := take (4 * (length l2 / 4)) l2). set (t := drop (4 * (length l2 / 4)) l2).
  assert (Hw : length w = (4 * (length l2 / 4))%nat) by (unfold w; rewrite length_take; lia).
  assert (Ht : length t = (length l2 mod 4)%nat) by (unfold t; rewrite length_drop; lia).
  assert (l2 = w ++ t) as Hwt by (unfold w, t; by rewrite take_drop).
  apply (Forall_take_drop _ (4 * (length l2 / 4))) in Hl2 as [Hlw Hlt]. fold w t in Hlw, Hlt.
  rewrite <- Ht. clearbody w t. rewrite Hwt at 2. rewrite <- app_assoc.
  rewrite (crc_words_run _ w) by done. sbind.
  rewrite Hwt, crc_state_app. by apply crc_tail_run, Hlt; apply crc_state_word.
Qed.

Lemma ucrc32_run addr crc l r :
  word32 crc → is_byte_list l →
  ucrc32 addr crc (l ++ r) (length l) = Some (Z.lxor (crc_state (Z.lxor crc 0xffffffff) l) 0xffffffff).
Proof. intros Hc Hl. unfold ucrc32. rewrite crc32_no_comp_run; [done|apply lxor_bound; lia|done]. Qed.

Lemma ucrc32_ref addr l r : is_byte_list l → ucrc32 addr 0 (l ++ r) (length l) = Some (crc_ref l).
Proof. intros Hl. by rewrite ucrc32_run by (lia || done). Qed.

Lemma ucrc32_take addr l n :
  is_byte_list l → (n <= length l)%nat → ucrc32 addr 0 l n = Some (crc_ref (take n l)).
Proof.
  intros Hl Hn. pose proof (ucrc32_ref addr (take n l) (drop n l)) as H.
  rewrite take_drop, length_take_le in H by done. apply H. by apply Forall_take.
Qed.

(** ** Theorems *)

(** C27: U-Boot's word-at-a-time [crc32] computes the bit-by-bit CRC-32 of the
    buffer, wherever it lies, continued from the running value passed in:
    from 0 it is the reference checksum, equal to the boot loader's own
    routine, and the checksum of two pieces one after the other is that of
    both together. *)
Theorem ucrc32_is_reference addr addr2 crc l l2 r :
  word32 crc → is_byte_list l → is_byte_list l2 →
  ucrc32 addr crc (l ++ r) (length l) = Some (Z.lxor (crc_state (Z.lxor crc 0xffffffff) l) 0xffffffff) ∧
  ucrc32 addr 0 (l ++ r) (length l) = Some (crc_ref l) ∧
  ucrc32 addr 0 (l ++ r) (length l) = crc32 0 (l ++ r) (length l) ∧
  (c ← ucrc32 addr 0 (l ++ r) (length l); ucrc32 addr2 c (l2 ++ r) (length l2)) = Some (crc_ref (l ++ l2)).
Proof.
  intros Hc Hl Hl2. split_and!; [by apply ucrc32_run|by apply ucrc32_ref| |].
  - rewrite ucrc32_ref by done. unfold crc32, crc32_0. rewrite crc32_loop_spec by (lia || done). done.
  - rewrite ucrc32_ref by done. sbind.
    rewrite ucrc32_run; [|apply lxor_bound; [lia|apply crc_state_word; [lia|done]|lia]|done].
    unfold crc_ref. rewrite crc_state_app, Z.lxor_assoc, Z.lxor_nilpotent, Z.lxor_0_r. done.
Qed.

Lemma ucrc32_is_reference_witness :
  let l := [0x31; 0x32; 0x33; 0x34; 0x35; 0x36; 0x37; 0x38; 0x39] in
  ucrc32 0x40000001 0 (l ++ [0]) 9 = Some 0xCBF43926.
Proof.
  assert (crc_ref [0x31; 0x32; 0x33; 0x34; 0x35; 0x36; 0x37; 0x38; 0x39] = 0xCBF43926) as <- by (vm_compute; done).
  apply (ucrc32_is_reference 0x40000001 0 0 [0x31; 0x32; 0x33; 0x34; 0x35; 0x36; 0x37; 0x38; 0x39] [] [0]);
    [lia|apply (bool_decide_unpack _); vm_compute; exact I|constructor].
Defined.

(** The table built at run time is the static one. *)
Theorem make_crc_table_correct : make_crc_table = crc_table.
Proof. vm_compute. reflexivity. Qed.
