(* ===== verification/Flash.v ===== *)
(** * Block devices of the flashing tool

    The flashing tool ([u-boot-2018/sprite]) reads a firmware card and writes
    the target flash through [sunxi_flash_read], [sunxi_sprite_read] and
    [sunxi_sprite_write] (drivers/sunxi_flash/sunxi_flash.c), which pass the
    call on to the configured driver.  The driver is the interface
    [flash_driver]: whether a transfer of so many sectors from a sector on
    succeeds.  A device is a byte map; a successful transfer moves whole
    sectors and returns their number, a failed one returns 0 and moves
    nothing. *)

From S2P Require Import Prelude Mem.

Local Open Scope Z_scope.

Abbreviation disk := (gmap Z Z).

(** A driver: which transfers succeed. *)
Class flash_driver := FlashDriver {
  read_ok : Z → Z → bool;
  write_ok : Z → Z → bool
}.

Section ops.
Context `{D : flash_driver}.

(** [n] sectors from sector [start]: the return value and the bytes. *)
Definition flash_read (d : disk) (start n : Z) : Z * bytes :=
  if read_ok start n then
    match load_n (Z.to_nat (512 * n)) d (512 * start) with
    | Some bs => (n, bs)
    | None => (0, [])
    end
  else (0, []).

(** The first [n] sectors of [buf]; a shorter buffer is read past its end. *)
Definition flash_write (d : disk) (start n : Z) (buf : bytes) : option (disk * Z) :=
  bs ← slice 0 (Z.to_nat (512 * n)) buf;
  Some (if write_ok start n then (write_bytes d (512 * start) bs, n) else (d, 0)).

Lemma flash_write_ok d start n bs r :
  write_ok start n = true → Z.of_nat (length bs) = 512 * n →
  flash_write d start n (bs ++ r) = Some (write_bytes d (512 * start) bs, n).
Proof.
  intros Hok Hlen. unfold flash_write. replace (Z.to_nat (512 * n)) with (length bs) by lia.
  rewrite slice_all. sbind. by rewrite Hok.
Qed.

(** The device holds the bytes [bs] from sector [start] on. *)
Definition holds (d : disk) (start : Z) (bs : bytes) : Prop :=
  load_n (length bs) d (512 * start) = Some bs.

Lemma holds_app d start n b1 b2 :
  holds d start (b1 ++ b2) → Z.of_nat (length b1) = 512 * n → holds d start b1 ∧ holds d (start + n) b2.
Proof.
  unfold holds. rewrite length_app. intros [H1 H2]%load_n_app Hn.
  rewrite take_app_length in H1. rewrite drop_app_length in H2. split; [done|].
  rewrite <- H2. f_equal. lia.
Qed.

Lemma holds_write d start bs : holds (write_bytes d (512 * start) bs) start bs.
Proof. apply load_write_eq. Qed.

Lemma flash_read_length d start n r bs :
  flash_read d start n = (r, bs) → r ≠ 0 → r = n ∧ length bs = Z.to_nat (512 * n).
Proof.
  unfold flash_read. destruct (read_ok start n); [|by intros [= <- _]].
  destruct (load_n _ _ _) as [l|] eqn:E; [|by intros [= <- _]].
  intros [= <- <-] _. split; [done|by eapply load_n_length].
Qed.

Lemma flash_read_holds d start n bs :
  read_ok start n = true → Z.of_nat (length bs) = 512 * n → holds d start bs →
  flash_read d start n = (n, bs).
Proof.
  intros Hok Hn Hh. unfold flash_read. rewrite Hok. replace (Z.to_nat (512 * n)) with (length bs) by lia.
  by rewrite Hh.
Qed.

(** Two devices agree outside the sectors [lo] to [hi]. *)
Definition same_out (lo hi : Z) (d d' : disk) : Prop :=
  ∀ x, x < 512 * lo ∨ 512 * hi <= x → d' !! x = d !! x.

Lemma flash_write_out d start n buf d' r lo hi :
  flash_write d start n buf = Some (d', r) → 0 <= n → lo <= start → start + n <= hi → same_out lo hi d d'.
Proof.
  unfold flash_write. intros H Hn Hlo Hhi x Hx. apply bind_Some_inv in H as (bs & Hs & H).
  apply slice_length in Hs. destruct (write_ok start n); injection H as <- _; [|done].
  apply lookup_write_out. lia.
Qed.

End ops.

#[export] Instance same_out_preorder lo hi : PreOrder (same_out lo hi).
Proof.
  split; [by intros d x|]. intros d1 d2 d3 H12 H23 x Hx. by rewrite H23, H12.
Qed.

(** A driver that never fails. *)
Definition good_driver : flash_driver := FlashDriver (λ _ _, true) (λ _ _, true).

(** ** The build and the board *)

(** What the flashing tool asks its surroundings: whether it is built for a
    SPI NOR flash (CONFIG_SUNXI_SPINOR), the storage the board boots from
    ([get_boot_storage_type]), and whether a [memalign] of so many bytes
    succeeds. *)
Class sprite_env := SpriteEnv {
  CONFIG_SUNXI_SPINOR : bool;
  get_boot_storage_type : Z;
  memalign_ok : Z → bool
}.

Definition STORAGE_NAND : Z := 0.
Definition STORAGE_SD : Z := 1.
Definition STORAGE_EMMC : Z := 2.
Definition STORAGE_NOR : Z := 3.
Definition STORAGE_EMMC3 : Z := 4.
