(* ===== verification/Sparse.v ===== *)
(** * Sparse images (u-boot-2018/sprite/sparse/sparse.c)

    The flashing tool writes Android sparse images to flash while it reads
    them: [unsparse_probe] checks the header, and each call of
    [unsparse_direct_write] gets the next piece of the file.  The pieces end
    anywhere, so the writer is a state machine over the static variables of
    the file ([sparse_state]) that keeps an unfinished part of a piece in the
    bytes just below the buffer for the next call ([last_rest]).

    A buffer pointer is the list of bytes from it to the end of the buffer;
    reading past it is [None].  The callers pass the same buffer every time,
    with 32 KiB of head room, so that the bytes kept below it are found again.
    Lengths are 32 bits wide, [int] where the code says so.  The copy to the
    bytes below the buffer may overlap its source, always with the
    destination below it, which an ascending [memcpy] copies right.  The
    progress display is left out.

    The theorems: however a well-formed image is cut into pieces, the writer
    accepts them all and leaves exactly the decoded image on flash; and the
    inputs on which it goes wrong: chunks of 4 GiB, fill chunks that are no
    multiple of 4 KiB, CRC chunks. *)

From S2P Require Import Prelude Mem Flash.

Local Open Scope Z_scope.
Local Open Scope c_scope.

(** ** Data *)

Definition SPARSE_HEADER_MAGIC : Z := 0xed26ff3a.
Definition SPARSE_HEADER_MAJOR_VER : Z := 1.
Definition CHUNK_TYPE_RAW : Z := 0xCAC1.
Definition CHUNK_TYPE_FILL : Z := 0xCAC2.
Definition CHUNK_TYPE_DONT_CARE : Z := 0xCAC3.

Definition sizeof_sparse_header : nat := 28.
Definition sizeof_chunk_header : nat := 12.

Definition ANDROID_FORMAT_BAD : Z := -1.
Definition ANDROID_FORMAT_DETECT : Z := 1.

Definition SPARSE_FORMAT_TYPE_TOTAL_HEAD : Z := 0xff00.
Definition SPARSE_FORMAT_TYPE_CHUNK_HEAD : Z := 0xff01.
Definition SPARSE_FORMAT_TYPE_CHUNK_DATA : Z := 0xff02.
Definition SPARSE_FORMAT_TYPE_CHUNK_FILL_DATA : Z := 0xff03.

(** The static variables; [last_rest] are the [last_rest_size] bytes kept
    below the buffer. *)
Record sparse_state := SparseState {
  android_format_checksum : Z;
  sparse_format_type : Z;
  chunk_count : Z;
  last_rest : bytes;
  chunk_length : Z;
  flash_start : Z;
  globl_header : bytes;
  total_chunks : Z
}.

Definition set_type (st : sparse_state) (t : Z) : sparse_state :=
  SparseState (android_format_checksum st) t (chunk_count st) (last_rest st) (chunk_length st)
    (flash_start st) (globl_header st) (total_chunks st).
Definition set_count (st : sparse_state) (n : Z) : sparse_state :=
  SparseState (android_format_checksum st) (sparse_format_type st) n (last_rest st) (chunk_length st)
    (flash_start st) (globl_header st) (total_chunks st).
Definition set_rest (st : sparse_state) (r : bytes) : sparse_state :=
  SparseState (android_format_checksum st) (sparse_format_type st) (chunk_count st) r (chunk_length st)
    (flash_start st) (globl_header st) (total_chunks st).
Definition set_length (st : sparse_state) (n : Z) : sparse_state :=
  SparseState (android_format_checksum st) (sparse_format_type st) (chunk_count st) (last_rest st) n
    (flash_start st) (globl_header st) (total_chunks st).
Definition set_start (st : sparse_state) (n : Z) : sparse_state :=
  SparseState (android_format_checksum st) (sparse_format_type st) (chunk_count st) (last_rest st)
    (chunk_length st) n (globl_header st) (total_chunks st).
Definition set_header (st : sparse_state) (h : bytes) : sparse_state :=
  SparseState (android_format_checksum st) (sparse_format_type st) (chunk_count st) (last_rest st)
    (chunk_length st) (flash_start st) h (total_chunks st).
Definition set_checksum (st : sparse_state) (n : Z) : sparse_state :=
  SparseState n (sparse_format_type st) (chunk_count st) (last_rest st) (chunk_length st)
    (flash_start st) (globl_header st) (total_chunks st).

(** ** unsparse_probe *)

Definition unsparse_probe (st : sparse_state) (source : bytes) (android_format_flash_start : Z) :
    option (sparse_state * Z) :=
  magic ← load_le 4 0 source;
  if negb (magic =? SPARSE_HEADER_MAGIC) then Some (st, ANDROID_FORMAT_BAD)
  else
    major ← load_le 2 4 source;
    file_hdr_sz ← load_le 2 8 source;
    chunk_hdr_sz ← load_le 2 10 source;
    if negb (major =? SPARSE_HEADER_MAJOR_VER) || negb (file_hdr_sz =? Z.of_nat sizeof_sparse_header)
       || negb (chunk_hdr_sz =? Z.of_nat sizeof_chunk_header) then Some (st, ANDROID_FORMAT_BAD)
    else
      total ← load_le 4 20 source;
      Some (SparseState 0 SPARSE_FORMAT_TYPE_TOTAL_HEAD 0 [] 0 android_format_flash_start
              (globl_header st) total, ANDROID_FORMAT_DETECT).

(** ** add_sum (sprite_verify.c) *)

Fixpoint sum_words (count : nat) (sum : Z) (buf : bytes) : option (Z * bytes) :=
  match count with
  | O => Some (sum, buf)
  | S count' =>
      match buf with
      | a :: b :: c :: d :: buf' => sum_words count' (sum ⊞ le_val [a; b; c; d]) buf'
      | _ => None
      end
  end.

(** The last one to three bytes are masked out of a whole word. *)
Definition add_sum (buffer : bytes) (length : Z) : option Z :=
  '(sum, buf) ← sum_words (Z.to_nat (Z.shiftr length 2)) 0 buffer;
  let r := Z.land length 3 in
  if r =? 0 then Some sum
  else
    w ← load_le 4 0 buf;
    Some (sum ⊞ Z.land w (if r =? 1 then 0xff else if r =? 2 then 0xffff else 0xffffff)).

(** The sum of the little-endian words of a byte string, the last one padded
    with zeroes. *)
Fixpoint word_sum (bs : bytes) : Z :=
  match bs with
  | a :: b :: c :: d :: bs' => le_val [a; b; c; d] + word_sum bs'
  | _ => le_val bs
  end.

(** The buffer holds the whole last word, whose bytes past the end are
    masked. *)
Definition word_room (l after : bytes) : Prop :=
  4 * ((Z.of_nat (length l) + 3) / 4) <= Z.of_nat (length l) + Z.of_nat (length after).

(** ** unsparse_direct_write *)

Section code.
Context `{D : flash_driver}.

(** One turn of the loop goes on with a state, the flash, [tmp_buf] and
    [this_rest_size], or returns -1. *)
Inductive turn :=
| Go (st : sparse_state) (d : disk) (tmp_buf : bytes) (this_rest_size : Z)
| Stop (st : sparse_state) (d : disk).

(** [memcpy] of what is left to the bytes below the buffer; the loop ends. *)
Definition keep_rest (st : sparse_state) (d : disk) (tmp_buf : bytes) (this_rest_size : Z) : option turn :=
  r ← slice 0 (Z.to_nat this_rest_size) tmp_buf;
  Some (Go (set_rest st r) d tmp_buf 0).

Definition total_head (st : sparse_state) (d : disk) (tmp_buf : bytes) (this_rest_size : Z) : option turn :=
  h ← slice 0 sizeof_sparse_header tmp_buf;
  Some (Go (set_type (set_header st h) SPARSE_FORMAT_TYPE_CHUNK_HEAD) d
           (drop sizeof_sparse_header tmp_buf) (s32 (this_rest_size - Z.of_nat sizeof_sparse_header))).

Definition chunk_head (st : sparse_state) (d : disk) (tmp_buf : bytes) (this_rest_size : Z) : option turn :=
  if this_rest_size <? Z.of_nat sizeof_chunk_header then keep_rest st d tmp_buf this_rest_size
  else
    chunk_type ← load_le 2 0 tmp_buf;
    chunk_sz ← load_le 4 4 tmp_buf;
    total_sz ← load_le 4 8 tmp_buf;
    blk_sz ← load_le 4 12 (globl_header st);
    let tmp_buf := drop sizeof_chunk_header tmp_buf in
    let this_rest_size := this_rest_size - Z.of_nat sizeof_chunk_header in
    let len := chunk_sz ⊠ blk_sz in
    let st := set_length st len in
    if len =? 0 then Some (Go (set_type st SPARSE_FORMAT_TYPE_CHUNK_HEAD) d tmp_buf this_rest_size)
    else
      let st := set_count st (chunk_count st ⊞ 1) in
      if chunk_type =? CHUNK_TYPE_RAW then
        if negb (total_sz =? len ⊞ Z.of_nat sizeof_chunk_header) then Some (Stop st d)
        else Some (Go (set_type st SPARSE_FORMAT_TYPE_CHUNK_DATA) d tmp_buf this_rest_size)
      else if chunk_type =? CHUNK_TYPE_FILL then
        if negb (total_sz =? Z.of_nat sizeof_chunk_header + 4) then Some (Stop st d)
        else Some (Go (set_type st SPARSE_FORMAT_TYPE_CHUNK_FILL_DATA) d tmp_buf this_rest_size)
      else if chunk_type =? CHUNK_TYPE_DONT_CARE then
        if negb (total_sz =? Z.of_nat sizeof_chunk_header) then Some (Stop st d)
        else Some (Go (set_type (set_start st (flash_start st ⊞ Z.shiftr len 9)) SPARSE_FORMAT_TYPE_CHUNK_HEAD)
                      d tmp_buf this_rest_size)
      else Some (Stop st d).

(** The data of a raw chunk: the rest of it, or as much as is worth writing. *)
Definition chunk_data (st : sparse_state) (d : disk) (tmp_buf : bytes) (this_rest_size : Z) : option turn :=
  let len := chunk_length st in
  let unenough_length := if u32 this_rest_size <=? len then s32 (len - this_rest_size) else 0 in
  if unenough_length =? 0 then
    '(d, r) ← flash_write d (flash_start st) (Z.shiftr len 9) tmp_buf;
    if r =? 0 then Some (Stop st d)
    else if negb (Z.land len 511 =? 0) then Some (Stop st d)
    else Some (Go (set_type (set_length (set_start st (flash_start st ⊞ Z.shiftr len 9)) 0)
                     SPARSE_FORMAT_TYPE_CHUNK_HEAD) d
                  (drop (Z.to_nat len) tmp_buf) (s32 (this_rest_size - len)))
  else if this_rest_size <? 8 * 1024 then keep_rest st d tmp_buf this_rest_size
  else
    let tmp_down_size :=
      if unenough_length <? 4 * 1024 then s32 (this_rest_size + unenough_length - 4 * 1024)
      else Z.land this_rest_size (Z.lnot 511) in
    '(d, r) ← flash_write d (flash_start st) (u32 (Z.shiftr tmp_down_size 9)) tmp_buf;
    if r =? 0 then Some (Stop st d)
    else if negb (Z.land tmp_down_size 511 =? 0) then Some (Stop st d)
    else
      let st := set_length (set_start st (flash_start st ⊞ Z.shiftr tmp_down_size 9)) (len ⊟ tmp_down_size) in
      keep_rest (set_type st SPARSE_FORMAT_TYPE_CHUNK_DATA) d
        (drop (Z.to_nat tmp_down_size) tmp_buf) (this_rest_size - tmp_down_size).

(** [k] writes of the 4 KiB fill buffer; [false] when one fails. *)
Fixpoint fill_loop (k : nat) (d : disk) (start : Z) (fillbuf : bytes) : option (disk * Z * bool) :=
  match k with
  | O => Some (d, start, true)
  | S k' =>
      '(d, r) ← flash_write d start 8 fillbuf;
      if r =? 0 then Some (d, start, false) else fill_loop k' d (start ⊞ 8) fillbuf
  end.

Definition fill_data (st : sparse_state) (d : disk) (tmp_buf : bytes) (this_rest_size : Z) : option turn :=
  if 4 <=? this_rest_size then
    file_val ← load_le 4 0 tmp_buf;
    if negb (Z.land (chunk_length st) 511 =? 0) then Some (Stop st d)
    else
      let fillbuf := concat (replicate 1024 (le_bytes 4 file_val)) in
      '(d, start, ok) ← fill_loop (Z.to_nat (Z.shiftr (chunk_length st) 12)) d (flash_start st) fillbuf;
      let st := set_start st start in
      if negb ok then Some (Stop st d)
      else Some (Go (set_type st SPARSE_FORMAT_TYPE_CHUNK_HEAD) d (drop 4 tmp_buf) (this_rest_size - 4))
  else keep_rest (set_type st SPARSE_FORMAT_TYPE_CHUNK_FILL_DATA) d tmp_buf this_rest_size.

Definition unsparse_turn (st : sparse_state) (d : disk) (tmp_buf : bytes) (this_rest_size : Z) : option turn :=
  let t := sparse_format_type st in
  if t =? SPARSE_FORMAT_TYPE_TOTAL_HEAD then total_head st d tmp_buf this_rest_size
  else if t =? SPARSE_FORMAT_TYPE_CHUNK_HEAD then chunk_head st d tmp_buf this_rest_size
  else if t =? SPARSE_FORMAT_TYPE_CHUNK_DATA then chunk_data st d tmp_buf this_rest_size
  else if t =? SPARSE_FORMAT_TYPE_CHUNK_FILL_DATA then fill_data st d tmp_buf this_rest_size
  else Some (Stop st d).

(** [while (this_rest_size > 0)] *)
Fixpoint unsparse_loop (fuel : nat) (st : sparse_state) (d : disk) (tmp_buf : bytes) (this_rest_size : Z) :
    option (sparse_state * disk * Z) :=
  if this_rest_size <=? 0 then Some (st, d, 0)
  else
    match fuel with
    | O => None
    | S f =>
        t ← unsparse_turn st d tmp_buf this_rest_size;
        match t with
        | Go st d tmp_buf this_rest_size => unsparse_loop f st d tmp_buf this_rest_size
        | Stop st d => Some (st, d, -1)
        end
    end.

(** Every turn takes a byte or ends the loop. *)
Definition unsparse_direct_write (st : sparse_state) (d : disk) (pbuf : bytes) (length : Z) :
    option (sparse_state * disk * Z) :=
  sum ← add_sum pbuf length;
  let st := set_checksum st (android_format_checksum st ⊞ sum) in
  let this_rest_size := s32 (u32 (Z.of_nat (List.length (last_rest st)) + length)) in
  let tmp_buf := last_rest st ++ pbuf in
  unsparse_loop (S (List.length tmp_buf)) (set_rest st []) d tmp_buf this_rest_size.

Definition unsparse_checksum (st : sparse_state) : Z := android_format_checksum st.

(** ** Sectors *)

Lemma align_512 x : Z.land x (Z.lnot 511) = 512 * (x / 512).
Proof.
  rewrite <- Z.ldiff_land. change 511 with (Z.ones 9). rewrite Z.ldiff_ones_r by lia.
  rewrite Z.shiftl_mul_pow2, Z.shiftr_div_pow2 by lia. change (2 ^ 9) with 512. lia.
Qed.

Lemma land_511 x : Z.land x 511 = x mod 512.
Proof. change 511 with (Z.ones 9). by rewrite Z.land_ones. Qed.

Lemma shiftr_9 x : Z.shiftr x 9 = x / 512.
Proof. by rewrite Z.shiftr_div_pow2. Qed.

(** ** The format *)

(** A chunk of [n] blocks. *)
Inductive chunk :=
| Raw (n : Z) (data : bytes)
| Fill (n v : Z)
| Skip (n : Z).

Definition chunk_blocks (c : chunk) : Z :=
  match c with Raw n _ => n | Fill n _ => n | Skip n => n end.

(** The chunk header and the file header, as the two structs lay them out. *)
Definition enc_chunk_header (chunk_type n total : Z) : bytes :=
  le_bytes 2 chunk_type ++ le_bytes 2 0 ++ le_bytes 4 n ++ le_bytes 4 total.

Definition enc_chunk (blk : Z) (c : chunk) : bytes :=
  match c with
  | Raw n data => enc_chunk_header CHUNK_TYPE_RAW n (12 + n * blk) ++ data
  | Fill n v => enc_chunk_header CHUNK_TYPE_FILL n 16 ++ le_bytes 4 v
  | Skip n => enc_chunk_header CHUNK_TYPE_DONT_CARE n 12
  end.

Definition enc_header (blk total_blks total_chunks checksum : Z) : bytes :=
  le_bytes 4 SPARSE_HEADER_MAGIC ++ le_bytes 2 1 ++ le_bytes 2 0 ++ le_bytes 2 28 ++ le_bytes 2 12 ++
  le_bytes 4 blk ++ le_bytes 4 total_blks ++ le_bytes 4 total_chunks ++ le_bytes 4 checksum.

Definition enc_chunks (blk : Z) (cs : list chunk) : bytes := concat (enc_chunk blk <$> cs).

(** What the image means: each chunk covers its sectors in order; a fill
    repeats its word, a skipped chunk leaves the flash as it is. *)
Definition place (blk : Z) (d : disk) (start : Z) (c : chunk) : disk :=
  match c with
  | Raw _ data => write_bytes d (512 * start) data
  | Fill n v => write_bytes d (512 * start) (concat (replicate (Z.to_nat (n * blk / 4)) (le_bytes 4 v)))
  | Skip _ => d
  end.

Fixpoint expand (blk : Z) (cs : list chunk) (d : disk) (start : Z) : disk :=
  match cs with
  | [] => d
  | c :: cs' => expand blk cs' (place blk d start c) (start + chunk_blocks c * blk / 512)
  end.

(** Chunks the format allows, of at least one block and whole sectors (whole
    4 KiB pages for a fill), whose size and encoding fit the 32-bit fields;
    a raw chunk is shorter than 2 GiB. *)
Definition wf_chunk (blk : Z) (c : chunk) : Prop :=
  let len := chunk_blocks c * blk in
  0 <= chunk_blocks c < 4294967296 ∧ 0 < len ∧
  match c with
  | Raw _ data => len < 2147483648 ∧ Z.of_nat (length data) = len ∧ len mod 512 = 0
  | Fill _ v => len < 4294967296 ∧ len mod 4096 = 0 ∧ 0 <= v < 4294967296
  | Skip _ => len < 4294967296 ∧ len mod 512 = 0
  end.

(** All of them, placed from [start] on and ending by sector [hi]. *)
Fixpoint wf_chunks (blk hi start : Z) (cs : list chunk) : Prop :=
  match cs with
  | [] => start <= hi
  | c :: cs' => wf_chunk blk c ∧ wf_chunks blk hi (start + chunk_blocks c * blk / 512) cs'
  end.

Lemma split_at_Z k (l : bytes) :
  0 <= k <= Z.of_nat (length l) → ∃ l1 l2, l = l1 ++ l2 ∧ Z.of_nat (length l1) = k.
Proof.
  intros. exists (take (Z.to_nat k) l), (drop (Z.to_nat k) l). rewrite take_drop, length_take. split; [done|lia].
Qed.

(** ** add_sum is the sum of words *)

(** Induction four bytes at a time. *)
Lemma bytes_ind4 (P : bytes → Prop) :
  (∀ t, (length t < 4)%nat → P t) →
  (∀ a b c d t, P t → P (a :: b :: c :: d :: t)) → ∀ l, P l.
Proof.
  intros Hshort Hstep l. remember (length l) as n eqn:Hn. revert l Hn.
  induction n as [n IH] using lt_wf_ind. intros [|a [|b [|c [|d t]]]] ->; try (apply Hshort; simpl; lia).
  apply Hstep. eapply IH; [|done]. simpl. lia.
Qed.

Lemma word_sum_app l1 l2 :
  Z.of_nat (length l1) mod 4 = 0 → word_sum (l1 ++ l2) = word_sum l1 + word_sum l2.
Proof.
  induction l1 as [t Ht|a b c d t IH] using bytes_ind4; intros Hm.
  - destruct t as [|a t]; [simpl; lia|]. simpl in *. zmod.
  - cbn [app word_sum]. rewrite IH; [lia|]. simpl in Hm. zmod.
Qed.

Lemma sum_words_run l n sum r :
  is_u32 sum → length l = (4 * n)%nat → sum_words n sum (l ++ r) = Some (u32 (sum + word_sum l), r).
Proof.
  revert n sum. induction l as [t Ht|a b c d t IH] using bytes_ind4; intros n sum Hs Hl.
  - destruct t; [|simpl in *; lia]. destruct n; [|simpl in Hl; lia].
    simpl. by rewrite Z.add_0_r, u32_small.
  - destruct n as [|n]; [simpl in Hl; lia|]. cbn [app sum_words word_sum].
    rewrite IH by (auto using u32_bound; simpl in *; lia). by rewrite u32_add_l, Z.add_assoc.
Qed.

Lemma tail_word t after r :
  is_byte_list t → (4 <= length t + length after)%nat → Z.of_nat (length t) = r → 1 <= r <= 3 →
  ∃ w, load_le 4 0 (t ++ after) = Some w ∧
       Z.land w (if r =? 1 then 0xff else if r =? 2 then 0xffff else 0xffffff) = le_val t.
Proof.
  intros Ht Ha Hr Hb. unfold load_le, slice. rewrite length_app.
  destruct (decide _); [|lia]. simpl. eexists. split; [done|]. rewrite drop_0, take_app_ge by lia.
  rewrite le_val_app.
  pose proof (le_val_bound t Ht) as Hv. rewrite Hr in *.
  assert (r = 1 ∨ r = 2 ∨ r = 3) as [-> |[-> | ->]] by lia; cbn [Z.eqb Pos.eqb].
  - change 255 with (Z.ones 8). rewrite Z.land_ones by lia. change (2 ^ 8) with 256. change (256 ^ 1) with 256 in *. zmod.
  - change 65535 with (Z.ones 16). rewrite Z.land_ones by lia. change (2 ^ 16) with 65536.
    change (256 ^ 2) with 65536 in *. zmod.
  - change 16777215 with (Z.ones 24). rewrite Z.land_ones by lia. change (2 ^ 24) with 16777216.
    change (256 ^ 3) with 16777216 in *. zmod.
Qed.

Lemma add_sum_words l after :
  is_byte_list l → word_room l after →
  add_sum (l ++ after) (Z.of_nat (length l)) = Some (u32 (word_sum l)).
Proof.
  unfold word_room. intros Hl Ha. unfold add_sum.
  destruct (split_at_Z (4 * (Z.of_nat (length l) / 4)) l) as (h & t & -> & Hh); [zmod|].
  apply Forall_app in Hl as [_ Ht]. rewrite length_app in *.
  rewrite Z.shiftr_div_pow2 by lia. change (2 ^ 2) with 4.
  rewrite <- app_assoc, (sum_words_run h) by (unfold is_u32; zmod). sbind.
  change 3 with (Z.ones 2). rewrite Z.land_ones by lia. change (2 ^ 2) with 4.
  rewrite word_sum_app by zmod.
  destruct (Z.eqb_spec (Z.of_nat (length h + length t) mod 4) 0) as [Hz|Hz].
  - destruct t; [|simpl in *; zmod]. simpl. by rewrite Z.add_0_r.
  - destruct (tail_word t after (Z.of_nat (length h + length t) mod 4)) as (w & E1 & E2); [done|zmod..|].
    rewrite E1. sbind. rewrite E2.
    assert (word_sum t = le_val t) as -> by (destruct t as [|? [|? [|? [|? ?]]]]; [done..|simpl in *; zmod]).
    by rewrite u32_add_l.
Qed.

(** ** A whole image *)

(** A caller passes the pieces one by one and stops at the first error; each
    comes with the bytes that follow it in the buffer. *)
Fixpoint unsparse_feed (st : sparse_state) (d : disk) (ps : list (bytes * bytes)) :
    option (sparse_state * disk * Z) :=
  match ps with
  | [] => Some (st, d, 0)
  | (piece, after) :: ps' =>
      '(st, d, r) ← unsparse_direct_write st d (piece ++ after) (Z.of_nat (length piece));
      if negb (r =? 0) then Some (st, d, r) else unsparse_feed st d ps'
  end.

(** A piece of bytes in a buffer of whole words, as large as leaves room for
    the 8 KiB kept below it. *)
Definition piece_ok (p : bytes * bytes) : Prop :=
  is_byte_list p.1 ∧ word_room p.1 p.2 ∧ Z.of_nat (length (p.1 ++ p.2)) < 2147483648 - 8192.

(** All pieces but the last are whole words, as the callers cut them. *)
Fixpoint whole_words (ps : list (bytes * bytes)) : Prop :=
  match ps with
  | [] | [_] => True
  | p :: ps' => Z.of_nat (length p.1) mod 4 = 0 ∧ whole_words ps'
  end.

(** ** Every turn takes bytes, and little is kept *)

Lemma keep_rest_inv st d b r t :
  keep_rest st d b r = Some t → ∃ l, t = Go (set_rest st l) d b 0 ∧ length l = Z.to_nat r.
Proof. unfold keep_rest. intros H. some_inv. eauto using slice_length. Qed.

Lemma flash_write_inv d start n buf d' r :
  flash_write d start n buf = Some (d', r) → (r = 0 ∨ r = n) ∧ (Z.to_nat (512 * n) <= length buf)%nat.
Proof.
  unfold flash_write, slice. intros H. some_inv; simplify_eq; eauto.
Qed.

(** A turn that goes on has taken bytes from the buffer, or kept the rest
    below it; the kept bytes are fewer than 8 KiB.  The buffer is shorter than
    2 GiB. *)
Definition turn_ok (b : bytes) (r : Z) (st : sparse_state) (t : turn) : Prop :=
  match t with
  | Go st' _ b' r' =>
      r' < r ∧ (length b' <= length b)%nat
      ∧ Z.of_nat (length (last_rest st')) < 8192
  | Stop st' _ => last_rest st' = last_rest st
  end.

Lemma keep_rest_ok st st0 d b b0 r r0 t :
  keep_rest st d b r = Some t → (length b <= length b0)%nat → 0 < r0 → r < 8192 → turn_ok b0 r0 st0 t.
Proof. intros (l & -> & Hl)%keep_rest_inv ???. simpl. rewrite Hl. split_and!; lia. Qed.

Lemma chunk_data_ok st d b r t :
  0 < r < 2147483648 → is_u32 (chunk_length st) → Z.of_nat (length b) < 2147483648 →
  Z.of_nat (length (last_rest st)) < 8192 →
  chunk_data st d b r = Some t → turn_ok b r st t.
Proof.
  unfold is_u32, chunk_data. intros Hr Hlen Hb Hl H. rewrite (u32_small r) in H by (unfold is_u32; lia).
  set (un := if r <=? chunk_length st then _ else _) in H.
  assert (Hun : (un = 0 ∧ chunk_length st <= r) ∨
                (un ≠ 0 ∧ -2147483648 <= un ∧ r < chunk_length st ∧ (un = chunk_length st - r ∨ un = chunk_length st - r - 2^32))).
  { subst un. change (2 ^ 32) with 4294967296. destruct (Z.leb_spec r (chunk_length st)); [|lia].
    unfold s32. zmod. }
  clearbody un. destruct Hun as [[-> Hle]|(Hun & Hlo & Hlt & Hval)].
  - change (0 =? 0) with true in H. cbn iota in H. apply bind_Some_inv in H as ([d' r'] & Hw & H).
    apply flash_write_inv in Hw as [Hw _]. rewrite s32_small in H by lia.
    some_inv; simpl; [done..|]. bool_to_prop. rewrite length_drop.
    destruct Hw as [->| ->]; [done|]. rewrite shiftr_9 in *. split_and!; [zmod|lia..].
  - apply Z.eqb_neq in Hun as E. rewrite E in H. clear E.
    destruct (Z.ltb_spec r (8 * 1024)); [eapply keep_rest_ok; [done|lia..]|].
    apply bind_Some_inv in H as ([d' r'] & Hw & H).
    apply flash_write_inv in Hw as [Hw Hlb].
    destruct (r' =? 0) eqn:E0; [some_inv; done|].
    destruct (negb _) eqn:E1 in H; [some_inv; done|].
    eapply keep_rest_ok; [done|rewrite length_drop; lia|lia|].
    destruct (Z.ltb_spec un (4 * 1024)) as [Hu|Hu].
    + destruct Hval as [-> | ->]; [rewrite s32_small by lia; lia|].
      change (2 ^ 32) with 4294967296 in *. rewrite s32_small in Hlb by lia.
      rewrite shiftr_9 in Hlb. unfold u32 in Hlb. change (2 ^ 32) with 4294967296 in Hlb. zmod.
    + rewrite align_512. zmod.
Qed.

Lemma chunk_head_ok st d b r t :
  0 < r → Z.of_nat (length (last_rest st)) < 8192 → chunk_head st d b r = Some t → turn_ok b r st t.
Proof.
  unfold chunk_head. intros Hr Hl H.
  destruct (Z.ltb_spec r (Z.of_nat sizeof_chunk_header)) as [Hlt|Hge].
  { eapply keep_rest_ok; [done|lia..|unfold sizeof_chunk_header in *; lia]. }
  some_inv; simpl; rewrite ?length_drop; split_and?; try done; unfold sizeof_chunk_header; lia.
Qed.

Lemma unsparse_turn_ok st d b r t :
  0 < r < 2147483648 → is_u32 (chunk_length st) → Z.of_nat (length b) < 2147483648 →
  Z.of_nat (length (last_rest st)) < 8192 →
  unsparse_turn st d b r = Some t → turn_ok b r st t.
Proof.
  unfold unsparse_turn. intros Hr Hlen Hb Hl H.
  destruct (_ =? _). { unfold total_head in H. some_inv. simpl. rewrite length_drop.
    unfold sizeof_sparse_header. rewrite s32_small by lia. split_and!; lia. }
  destruct (_ =? _); [eapply chunk_head_ok; [lia|done..]|].
  destruct (_ =? _); [by apply (chunk_data_ok st d)|].
  destruct (_ =? _); [|some_inv; done]. unfold fill_data in H.
  destruct (Z.leb_spec 4 r); [|eapply keep_rest_ok; [done|lia..]].
  some_inv; simpl; rewrite ?length_drop; split_and?; try done; lia.
Qed.

Lemma unsparse_turn_length st d b r t :
  is_u32 (chunk_length st) → unsparse_turn st d b r = Some t →
  match t with Go st' _ _ _ => is_u32 (chunk_length st') | _ => True end.
Proof.
  unfold unsparse_turn, total_head, chunk_head, chunk_data, fill_data, keep_rest.
  intros Hlen H. some_inv; simpl; first [done|apply u32_bound].
Qed.

(** *** The turns of one call

    A run of the loop as a relation between its variables, without fuel, and
    how a run can end: no bytes left, an error, or an access that faults. *)
Definition variables : Type := sparse_state * disk * bytes * Z.

Definition turn_step (v v' : variables) : Prop :=
  let '(st, d, b, r) := v in
  let '(st', d', b', r') := v' in
  0 < r ∧ unsparse_turn st d b r = Some (Go st' d' b' r').

Inductive ended : variables → option (sparse_state * disk * Z) → Prop :=
| ended_done st d b r : r <= 0 → ended (st, d, b, r) (Some (st, d, 0))
| ended_error st d b r st' d' : 0 < r → unsparse_turn st d b r = Some (Stop st' d') → ended (st, d, b, r) (Some (st', d', -1))
| ended_fault st d b r : 0 < r → unsparse_turn st d b r = None → ended (st, d, b, r) None.

Record turns_fit (st : sparse_state) (b : bytes) (r : Z) : Prop := {
  tf_size : r < 2147483648;
  tf_length : is_u32 (chunk_length st);
  tf_buffer : Z.of_nat (length b) < 2147483648;
  tf_rest : Z.of_nat (length (last_rest st)) < 8192
}.

Lemma turn_step_fit st d b r st' d' b' r' :
  turns_fit st b r → turn_step (st, d, b, r) (st', d', b', r') → turns_fit st' b' r' ∧ r' < r.
Proof.
  intros [Hr Hlen Hb Hl] [H0 Ht]. pose proof (unsparse_turn_length _ _ _ _ _ Hlen Ht).
  apply unsparse_turn_ok in Ht as (? & ? & ?); [|done || lia..]. split; [split|]; done || lia.
Qed.

(** Every turn takes bytes, so no run has more turns than there are bytes. *)
Lemma turns_bounded k st d b r v : turns_fit st b r → nsteps turn_step k (st, d, b, r) v → Z.of_nat k <= Z.max 0 r.
Proof.
  revert st d b r. induction k as [|k IH]; intros st d b r Hf Hn; [lia|].
  inversion Hn as [|? ? [[[st' d'] b'] r'] ? Hs Hn']; subst. destruct (turn_step_fit _ _ _ _ _ _ _ _ Hf Hs) as [Hf' Hlt].
  specialize (IH _ _ _ _ Hf' Hn'). destruct Hs as [H0 _]. lia.
Qed.

(** The run ends, and the loop with enough fuel gives what it ends in. *)
Lemma turns_end fuel st d b r :
  turns_fit st b r → r <= Z.of_nat fuel →
  ∃ k v, nsteps turn_step k (st, d, b, r) v ∧ ended v (unsparse_loop fuel st d b r).
Proof.
  revert st d b r. induction fuel as [|f IH]; intros st d b r Hfit Hr; cbn [unsparse_loop]; destruct (Z.leb_spec r 0);
    [by exists 0%nat, (st, d, b, r); split; [constructor|constructor]|lia|by exists 0%nat, (st, d, b, r); split; [constructor|constructor]|].
  destruct (unsparse_turn st d b r) as [[st' d' b' r'|st' d']|] eqn:E; sbind.
  - assert (turn_step (st, d, b, r) (st', d', b', r')) as Hs by done.
    destruct (turn_step_fit _ _ _ _ _ _ _ _ Hfit Hs) as [Hf' Hlt]. destruct (IH st' d' b' r' Hf' ltac:(lia)) as (k & v & Hk & Hv).
    exists (S k), v. split; [by eapply nsteps_l|done].
  - exists 0%nat, (st, d, b, r). split; [constructor|by eapply ended_error].
  - exists 0%nat, (st, d, b, r). split; [constructor|by eapply ended_fault].
Qed.

Lemma unsparse_loop_kept fuel st d b r st' d' ret :
  r < 2147483648 → is_u32 (chunk_length st) → Z.of_nat (length b) < 2147483648 →
  Z.of_nat (length (last_rest st)) < 8192 →
  unsparse_loop fuel st d b r = Some (st', d', ret) → Z.of_nat (length (last_rest st')) < 8192.
Proof.
  revert st d b r. induction fuel as [|f IH]; intros st d b r Hr Hlen Hb Hl; simpl;
    (destruct (Z.leb_spec r 0); [intros [= <- _ _]; done|]); [done|].
  destruct (unsparse_turn st d b r) as [[st1 d1 b1 r1|st1 d1]|] eqn:E; sbind; [| |done].
  - pose proof (unsparse_turn_length _ _ _ _ _ Hlen E).
    apply unsparse_turn_ok in E as (? & ? & ?); [|done || lia..]. apply IH; done || lia.
  - apply unsparse_turn_ok in E; [|done || lia..]. simpl in E. intros [= <- _ _]. by rewrite E.
Qed.

Lemma unsparse_write_kept st d pbuf n st' d' ret :
  is_u32 (chunk_length st) → Z.of_nat (length pbuf) < 2147483648 - 8192 →
  Z.of_nat (length (last_rest st)) < 8192 →
  unsparse_direct_write st d pbuf n = Some (st', d', ret) → Z.of_nat (length (last_rest st')) < 8192.
Proof.
  unfold unsparse_direct_write. intros Hu Hp Hl H. apply bind_Some_inv in H as (sum & _ & H).
  eapply unsparse_loop_kept; [| | | |exact H].
  - unfold s32. zmod.
  - done.
  - cbn. rewrite length_app. lia.
  - done.
Qed.

(** ** The statics stay in their types *)

(** The state is one of the four of the code, the counters are 32 bits wide,
    and the kept bytes are bytes. *)
Record wf_core (st : sparse_state) : Prop := WfCore {
  wf_type : sparse_format_type st ∈ [SPARSE_FORMAT_TYPE_TOTAL_HEAD; SPARSE_FORMAT_TYPE_CHUNK_HEAD;
                                     SPARSE_FORMAT_TYPE_CHUNK_DATA; SPARSE_FORMAT_TYPE_CHUNK_FILL_DATA];
  wf_sum : is_u32 (android_format_checksum st);
  wf_count : is_u32 (chunk_count st);
  wf_length : is_u32 (chunk_length st);
  wf_start : is_u32 (flash_start st);
  wf_rest : is_byte_list (last_rest st)
}.

Definition wf_sparse (st : sparse_state) : Prop := wf_core st ∧ Z.of_nat (length (last_rest st)) < 8192.

Lemma fill_loop_start k d start w d' start' ok :
  is_u32 start → fill_loop k d start w = Some (d', start', ok) → is_u32 start'.
Proof.
  revert d start. induction k as [|k IH]; intros d start Hs H; cbn [fill_loop] in H; [by injection H as _ <- _|].
  apply bind_Some_inv in H as ([d1 r] & _ & H). destruct (r =? 0); [by injection H as _ <- _|].
  eapply IH; [|exact H]. apply u32_bound.
Qed.

Lemma slice_bytes off n l r : is_byte_list l → slice off n l = Some r → is_byte_list r.
Proof. unfold slice. intros Hl H. some_inv. by apply Forall_take, Forall_drop. Qed.

Lemma unsparse_turn_wf st d b r t :
  wf_core st → is_byte_list b → unsparse_turn st d b r = Some t →
  match t with Go st' _ b' _ => wf_core st' ∧ is_byte_list b' | Stop st' _ => wf_core st' end.
Proof.
  intros [H1 H2 H3 H4 H5 H6] Hb H. unfold unsparse_turn, total_head, chunk_head, chunk_data, fill_data, keep_rest in H.
  some_inv; split_and?; try (constructor; cbn); try (apply u32_bound); try done; try (by apply Forall_drop);
    try (rewrite !elem_of_cons; tauto); try (eapply slice_bytes; [|done]; done || by apply Forall_drop);
    try (by eapply fill_loop_start).
Qed.

Lemma unsparse_loop_wf fuel st d b r st' d' ret :
  wf_core st → is_byte_list b → unsparse_loop fuel st d b r = Some (st', d', ret) → wf_core st'.
Proof.
  revert st d b r. induction fuel as [|f IH]; intros st d b r Hst Hb H; cbn [unsparse_loop] in H;
    (destruct (r <=? 0); [by injection H as <- _ _|]); [done|].
  apply bind_Some_inv in H as (t & Ht & H). apply unsparse_turn_wf in Ht; [|done..].
  destruct t; [by eapply IH; [apply Ht|apply Ht|exact H]|]. by injection H as <- _ _.
Qed.

(** ** The writer reads the format *)

Lemma split_prefix (h s B fut : bytes) :
  h ++ s = B ++ fut → (length h <= length B)%nat → ∃ B', B = h ++ B' ∧ s = B' ++ fut.
Proof.
  intros H Hl. exists (drop (length h) B). apply (f_equal (drop (length h))) in H as H'.
  rewrite drop_app_length, drop_app_le in H' by done. split; [|done].
  apply (f_equal (take (length h))) in H. rewrite take_app_length, take_app_le in H by done.
  rewrite H at 1. by rewrite take_drop.
Qed.

Lemma length_concat_replicate {A} k (l : list A) : length (concat (replicate k l)) = (k * length l)%nat.
Proof. induction k; simpl; rewrite ?length_app; lia. Qed.

Lemma concat_replicate_mul {A} j k (l : list A) :
  concat (replicate k (concat (replicate j l))) = concat (replicate (k * j) l).
Proof. induction k; simpl; [done|]. by rewrite replicate_add, concat_app, IHk. Qed.

(** ** The checksum of the stream *)

Lemma unsparse_turn_checksum st d b r t :
  unsparse_turn st d b r = Some t →
  android_format_checksum (match t with Go st' _ _ _ => st' | Stop st' _ => st' end) = android_format_checksum st.
Proof.
  unfold unsparse_turn, total_head, chunk_head, chunk_data, fill_data, keep_rest.
  intros H. some_inv; done.
Qed.

Lemma unsparse_loop_checksum fuel st d b r st' d' ret :
  unsparse_loop fuel st d b r = Some (st', d', ret) → android_format_checksum st' = android_format_checksum st.
Proof.
  revert st d b r. induction fuel as [|f IH]; intros st d b r; cbn [unsparse_loop];
    (destruct (r <=? 0); [by intros [= <- _ _]|]); [done|].
  intros (t & Ht & H)%bind_Some_inv. apply unsparse_turn_checksum in Ht as <-.
  destruct t; [by eapply IH|]. by injection H as <- _ _.
Qed.

Lemma unsparse_feed_checksum st d ps st' d' :
  Forall piece_ok ps → whole_words ps → is_u32 (android_format_checksum st) →
  unsparse_feed st d ps = Some (st', d', 0) →
  unsparse_checksum st' = android_format_checksum st ⊞ word_sum (concat ps.*1).
Proof.
  intros Hps. revert st d. induction Hps as [|[p a] ps (H1 & H2 & _) Hps IH]; intros st d Hw Hu; cbn [unsparse_feed].
  - intros [= <- _]. simpl. by rewrite Z.add_0_r, u32_small.
  - intros ([[st1 d1] r1] & Hd & H)%bind_Some_inv. simpl in H1, H2.
    unfold unsparse_direct_write in Hd. rewrite add_sum_words in Hd by done. cbn [mbind option_bind] in Hd.
    apply unsparse_loop_checksum in Hd. cbn in Hd.
    destruct (negb (r1 =? 0)) eqn:E; [injection H as -> -> ->; done|].
    apply IH in H; [|by destruct ps; [|destruct Hw]|rewrite Hd; apply u32_bound].
    rewrite H, Hd, u32_add_r. cbn [fmap list_fmap concat fst].
    assert (word_sum (p ++ concat ps.*1) = word_sum p + word_sum (concat ps.*1)) as ->.
    { destruct ps; [by rewrite app_nil_r, Z.add_0_r|]. apply word_sum_app, Hw. }
    autorewrite with word. f_equal. lia.
Qed.

Section image.
Context (blk lo hi : Z) (Hblk : 0 < blk < 4294967296) (Hlo : 0 <= lo) (Hhi : hi < 4294967296).
Context (Hok : ∀ s n, lo <= s → 0 < n → s + n <= hi → write_ok s n = true).

Lemma wf_chunks_end start cs : wf_chunks blk hi start cs → start <= hi.
Proof.
  revert start. induction cs as [|c cs IH]; simpl; [done|]. intros start [(H1 & H2 & _) H%IH].
  assert (0 <= chunk_blocks c * blk / 512) by (apply Z.div_pos; lia). lia.
Qed.

Lemma fill_loop_run k d start w :
  Z.of_nat (length w) = 4096 → lo <= start → start + 8 * Z.of_nat k <= hi →
  fill_loop k d start w = Some (write_bytes d (512 * start) (concat (replicate k w)), start + 8 * Z.of_nat k, true).
Proof.
  intros Hw. revert d start. induction k as [|k IH]; intros d start H1 H2; cbn [fill_loop].
  - simpl. repeat f_equal. lia.
  - rewrite <- (app_nil_r w) at 1. rewrite flash_write_ok; [|apply Hok; lia|lia]. sbind.
    change (8 =? 0) with false. cbn iota. rewrite u32_small by (unfold is_u32; lia). rewrite IH by lia.
    cbn [replicate concat]. rewrite write_bytes_app, Hw.
    replace (512 * (start + 8)) with (512 * start + 4096) by lia.
    by replace (start + 8 + 8 * Z.of_nat k) with (start + 8 * Z.of_nat (S k)) by lia.
Qed.

(** The header has been read. *)
Definition globl_header_blk (st : sparse_state) : Prop := load_le 4 12 (globl_header st) = Some blk.

(** What a state still expects: the rest [s] of the stream turns the flash
    [d] into [F]. *)
Inductive pending (F : disk) (st : sparse_state) (d : disk) : bytes → Prop :=
| pend_head cs :
    sparse_format_type st = SPARSE_FORMAT_TYPE_CHUNK_HEAD →
    lo <= flash_start st → wf_chunks blk hi (flash_start st) cs →
    F = expand blk cs d (flash_start st) →
    pending F st d (enc_chunks blk cs)
| pend_data data cs :
    sparse_format_type st = SPARSE_FORMAT_TYPE_CHUNK_DATA →
    lo <= flash_start st →
    0 < chunk_length st < 2147483648 → chunk_length st mod 512 = 0 →
    Z.of_nat (length data) = chunk_length st →
    wf_chunks blk hi (flash_start st + chunk_length st / 512) cs →
    F = expand blk cs (write_bytes d (512 * flash_start st) data) (flash_start st + chunk_length st / 512) →
    pending F st d (data ++ enc_chunks blk cs)
| pend_fill n v cs :
    sparse_format_type st = SPARSE_FORMAT_TYPE_CHUNK_FILL_DATA →
    lo <= flash_start st →
    chunk_length st = n * blk → wf_chunks blk hi (flash_start st) (Fill n v :: cs) →
    F = expand blk (Fill n v :: cs) d (flash_start st) →
    pending F st d (le_bytes 4 v ++ enc_chunks blk cs).

Lemma pending_rest F st d s l : pending F st d s → pending F (set_rest st l) d s.
Proof. destruct 1; [eapply pend_head|eapply pend_data|eapply pend_fill]; eauto. Qed.

Lemma pending_checksum F st d s n : pending F st d s → pending F (set_checksum st n) d s.
Proof. destruct 1; [eapply pend_head|eapply pend_data|eapply pend_fill]; eauto. Qed.

Lemma length_enc_chunk c : (12 <= length (enc_chunk blk c))%nat.
Proof. destruct c; simpl; lia. Qed.

(** Nothing expected: the flash is done. *)
Lemma pending_nil F st d : pending F st d [] → d = F.
Proof.
  intros H. inversion H as [cs ? ? ? -> Hs|data cs ? ? Hc ? Hl ? ? Hs|n v cs ? ? ? ? ? Hs].
  - destruct cs as [|c cs]; [done|]. apply (f_equal length) in Hs.
    unfold enc_chunks in Hs. simpl in Hs. rewrite length_app in Hs.
    pose proof (length_enc_chunk c). simpl in *. lia.
  - apply app_eq_nil in Hs as [-> _]. simpl in Hl. lia.
Qed.

(** How a turn goes: on with the rest of the buffer, or the rest is kept for
    the piece to come. *)
Definition turn_pending (F : disk) (junk fut : bytes) (t : turn) : Prop :=
  match t with
  | Go st d b r =>
      globl_header_blk st ∧
      ((∃ B, b = B ++ junk ∧ r = Z.of_nat (length B) ∧ last_rest st = [] ∧ pending F st d (B ++ fut))
       ∨ r = 0 ∧ fut ≠ [] ∧ pending F st d (last_rest st ++ fut))
  | Stop _ _ => False
  end.

Lemma keep_pending F st d B junk fut :
  globl_header_blk st → pending F st d (B ++ fut) → fut ≠ [] →
  ∃ t, keep_rest st d (B ++ junk) (Z.of_nat (length B)) = Some t ∧ turn_pending F junk fut t.
Proof.
  intros Hb Hp Hf. unfold keep_rest. rewrite Nat2Z.id, slice_all. sbind. eexists. split; [done|].
  split; [done|]. right. split_and!; [done..|]. by apply pending_rest.
Qed.

Lemma chunk_header_loads t n total l :
  0 <= t < 65536 → 0 <= n < 4294967296 → 0 <= total < 4294967296 →
  load_le 2 0 (enc_chunk_header t n total ++ l) = Some t ∧
  load_le 4 4 (enc_chunk_header t n total ++ l) = Some n ∧
  load_le 4 8 (enc_chunk_header t n total ++ l) = Some total ∧
  drop 12 (enc_chunk_header t n total ++ l) = l.
Proof.
  intros. unfold enc_chunk_header. rewrite <- !app_assoc. split_and!.
  - by apply (load_le_bytes 2 t []).
  - rewrite (app_assoc (le_bytes 2 t)). by apply (load_le_bytes 4 n (le_bytes 2 t ++ le_bytes 2 0)).
  - rewrite (app_assoc (le_bytes 2 t)), (app_assoc _ (le_bytes 4 n)).
    by apply (load_le_bytes 4 total ((le_bytes 2 t ++ le_bytes 2 0) ++ le_bytes 4 n)).
  - done.
Qed.

Definition chunk_type_of (c : chunk) : Z :=
  match c with Raw _ _ => CHUNK_TYPE_RAW | Fill _ _ => CHUNK_TYPE_FILL | Skip _ => CHUNK_TYPE_DONT_CARE end.

Definition chunk_total (c : chunk) : Z :=
  match c with Raw n _ => 12 + n * blk | Fill _ _ => 16 | Skip _ => 12 end.

Definition chunk_payload (c : chunk) : bytes :=
  match c with Raw _ data => data | Fill _ v => le_bytes 4 v | Skip _ => [] end.

Lemma enc_chunk_split c :
  enc_chunk blk c = enc_chunk_header (chunk_type_of c) (chunk_blocks c) (chunk_total c) ++ chunk_payload c.
Proof. by destruct c; rewrite ?app_nil_r. Qed.

Lemma chunk_head_pending F st d B junk fut :
  sparse_format_type st = SPARSE_FORMAT_TYPE_CHUNK_HEAD → globl_header_blk st → last_rest st = [] →
  pending F st d (B ++ fut) → B ≠ [] →
  ∃ t, chunk_head st d (B ++ junk) (Z.of_nat (length B)) = Some t ∧ turn_pending F junk fut t.
Proof.
  intros Ht Hb Hr Hp HB. inversion Hp as [cs _ Hs Hwf HF Hcs|? ? Ht' | ? ? ? Ht']; [|by rewrite Ht in Ht'..].
  unfold chunk_head. destruct (Z.ltb_spec (Z.of_nat (length B)) (Z.of_nat sizeof_chunk_header)) as [Hlt|Hge].
  { apply keep_pending; [done..|]. intros ->. rewrite app_nil_r in Hcs. destruct cs as [|c cs]; [done|].
    apply (f_equal length) in Hcs. unfold enc_chunks in Hcs. simpl in Hcs. rewrite length_app in Hcs.
    pose proof (length_enc_chunk c). unfold sizeof_chunk_header in Hlt. lia. }
  destruct cs as [|c cs]. { apply symmetry, app_eq_nil in Hcs as [-> _]. done. }
  unfold enc_chunks in Hcs. cbn [fmap list_fmap concat] in Hcs. fold (enc_chunks blk cs) in Hcs.
  rewrite enc_chunk_split, <- app_assoc in Hcs.
  apply split_prefix in Hcs as (B' & -> & Hs'); [|simpl; unfold sizeof_chunk_header in Hge; lia].
  destruct Hwf as [(Hn & Hpos & Hc) Hwf].
  destruct (chunk_header_loads (chunk_type_of c) (chunk_blocks c) (chunk_total c) (B' ++ junk)) as (E1 & E2 & E3 & E4);
    [destruct c; done|done|destruct c; simpl in *; lia|].
  rewrite <- app_assoc, E1, E2, E3. unfold globl_header_blk in Hb. rewrite Hb. sbind.
  change sizeof_chunk_header with 12%nat. rewrite E4.
  replace (Z.of_nat (length (enc_chunk_header (chunk_type_of c) (chunk_blocks c) (chunk_total c) ++ B'))
           - Z.of_nat 12) with (Z.of_nat (length B')) by (simpl; lia).
  rewrite (u32_small (chunk_blocks c * blk)) by (unfold is_u32; destruct c; simpl in *; lia).
  destruct (Z.eqb_spec (chunk_blocks c * blk) 0) as [?|_]; [lia|]. cbn [set_length set_count chunk_length chunk_count].
  destruct c as [n data|n v|n]; cbn [chunk_type_of chunk_blocks chunk_total chunk_payload] in *.
  - destruct Hc as (Hc1 & Hc2 & Hc3). rewrite (u32_small (n * blk + _)) by (unfold is_u32; lia).
    cbn [Z.eqb Pos.eqb CHUNK_TYPE_RAW]. rewrite (proj2 (Z.eqb_eq _ _)) by lia. cbn [negb].
    eexists. split; [done|]. split; [done|]. left. exists B'. split_and!; [done..|]. rewrite <- Hs'.
    apply pend_data; simpl; done.
  - eexists. split; [reflexivity|]. split; [done|]. left. exists B'. split_and!; [done..|]. rewrite <- Hs'.
    apply (pend_fill _ _ _ n v cs); simpl; done.
  - destruct Hc as (Hc1 & Hc2). eexists. split; [reflexivity|]. split; [done|]. left. exists B'. split_and!; [done..|]. rewrite <- Hs'.
    apply wf_chunks_end in Hwf as Hend.
    cbn [flash_start set_length set_count]. rewrite shiftr_9, (u32_small (flash_start st + _)) by (unfold is_u32; zmod).
    apply (pend_head _ _ _ cs); simpl; [done|zmod|done|done].
Qed.

Lemma chunk_data_pending F st d B junk fut :
  sparse_format_type st = SPARSE_FORMAT_TYPE_CHUNK_DATA → globl_header_blk st → last_rest st = [] →
  pending F st d (B ++ fut) → 0 < Z.of_nat (length B) < 2147483648 →
  ∃ t, chunk_data st d (B ++ junk) (Z.of_nat (length B)) = Some t ∧ turn_pending F junk fut t.
Proof.
  intros Ht Hb Hr Hp HB.
  inversion Hp as [? Ht'|data cs _ Hs Hc Hm Hl Hwf HF Hcs| ? ? ? Ht']; [by rewrite Ht in Ht'| |by rewrite Ht in Ht'].
  apply wf_chunks_end in Hwf as Hend.
  unfold chunk_data. rewrite (u32_small (Z.of_nat (length B))) by (unfold is_u32; lia).
  destruct (Z.le_gt_cases (Z.of_nat (length B)) (chunk_length st - 1)) as [Hlt|Hge].
  - (* not all of it *)
    rewrite (proj2 (Z.leb_le _ _)), s32_small by lia. rewrite (proj2 (Z.eqb_neq _ 0)) by lia.
    assert (Hf : fut ≠ []). { intros ->. rewrite app_nil_r in Hcs. apply (f_equal length) in Hcs.
      rewrite length_app in Hcs. lia. }
    destruct (Z.ltb_spec (Z.of_nat (length B)) (8 * 1024)) as [|H8]; [by apply keep_pending|].
    set (down := if _ <? 4 * 1024 then _ else _).
    assert (Hdown : down mod 512 = 0 ∧ 4096 <= down <= Z.of_nat (length B)).
    { subst down. destruct (Z.ltb_spec (chunk_length st - Z.of_nat (length B)) (4 * 1024)) as [Hu|Hu].
      - rewrite s32_small by lia. zmod.
      - rewrite align_512. zmod. }
    clearbody down. destruct Hdown as [Hd1 Hd2].
    apply symmetry, split_prefix in Hcs as (D2 & -> & ->); [|lia]. rewrite length_app in Hl.
    destruct (split_at_Z down B) as (P & K & -> & HP); [lia|]. rewrite !length_app in *.
    rewrite shiftr_9, (u32_small (down / 512)) by (unfold is_u32; zmod). rewrite <- app_assoc.
    rewrite flash_write_ok; [|apply Hok; zmod|rewrite HP; zmod]. sbind.
    rewrite (proj2 (Z.eqb_neq _ 0)) by zmod. rewrite land_511, Hd1. cbn [negb Z.eqb].
    replace (Z.to_nat down) with (length P) by lia. rewrite drop_app_length.
    replace (Z.of_nat (length P + length K) - down) with (Z.of_nat (length K)) by lia.
    rewrite !u32_small by (unfold is_u32; zmod).
    apply keep_pending; [done| |done]. rewrite (app_assoc K).
    eapply pend_data; cbn; try done; try zmod; rewrite ?length_app; try lia.
    + by replace (flash_start st + down / 512 + (chunk_length st - down) / 512)
        with (flash_start st + chunk_length st / 512) by zmod.
    + rewrite HF, <- (app_assoc P), write_bytes_app, HP. f_equal; [f_equal; zmod|zmod].
  - (* the chunk is complete *)
    replace (if Z.of_nat (length B) <=? chunk_length st then s32 (chunk_length st - Z.of_nat (length B)) else 0)
      with 0 by (destruct (Z.leb_spec (Z.of_nat (length B)) (chunk_length st)); [rewrite s32_small by lia; lia|done]).
    cbn [Z.eqb]. apply split_prefix in Hcs as (B' & -> & Hs'); [|lia]. rewrite length_app in *.
    rewrite shiftr_9, <- app_assoc.
    rewrite flash_write_ok; [|apply Hok; zmod|rewrite Hl; zmod]. sbind.
    rewrite (proj2 (Z.eqb_neq _ 0)) by zmod. rewrite land_511, Hm. cbn [negb Z.eqb].
    replace (Z.to_nat (chunk_length st)) with (length data) by lia. rewrite drop_app_length.
    rewrite s32_small, u32_small by (unfold is_u32; zmod).
    eexists. split; [done|]. split; [done|]. left. exists B'. split_and!; [done|lia|done|].
    rewrite <- Hs'. apply pend_head; cbn; [done|zmod|done|done].
Qed.

Lemma fill_data_pending F st d B junk fut :
  sparse_format_type st = SPARSE_FORMAT_TYPE_CHUNK_FILL_DATA → globl_header_blk st → last_rest st = [] →
  pending F st d (B ++ fut) →
  ∃ t, fill_data st d (B ++ junk) (Z.of_nat (length B)) = Some t ∧ turn_pending F junk fut t.
Proof.
  intros Ht Hb Hr Hp.
  inversion Hp as [? Ht'|? ? Ht'|n v cs _ Hs Hc Hwf HF Hcs]; [by rewrite Ht in Ht'..|].
  change (le_bytes 4 v ++ enc_chunks blk cs = B ++ fut) in Hcs.
  unfold fill_data. destruct (Z.leb_spec 4 (Z.of_nat (length B))) as [Hge|Hlt].
  - apply split_prefix in Hcs as (B' & -> & Hs'); [|rewrite length_le_bytes; lia].
    destruct Hwf as [(Hn & Hpos & Hlen & Hm & Hv) Hwf]. cbn [chunk_blocks] in *.
    apply wf_chunks_end in Hwf as Hend.
    rewrite <- app_assoc.
    assert (load_le 4 0 (le_bytes 4 v ++ B' ++ junk) = Some v) as -> by by apply (load_le_bytes 4 v []). sbind.
    rewrite Hc, land_511. replace (n * blk mod 512) with 0 by zmod. cbn [negb Z.eqb].
    rewrite Z.shiftr_div_pow2 by lia. change (2 ^ 12) with 4096.
    rewrite fill_loop_run; [|rewrite length_concat_replicate, length_le_bytes; lia|done|zmod]. sbind. cbn [negb].
    eexists. split; [done|]. split; [done|]. left. exists B'.
    split_and!; [done|rewrite length_app, length_le_bytes; lia|done|]. rewrite <- Hs'.
    replace (flash_start st + 8 * Z.of_nat (Z.to_nat (n * blk / 4096))) with (flash_start st + n * blk / 512) by zmod.
    apply pend_head; cbn [sparse_format_type flash_start set_type set_start]; [done|zmod|done|].
    rewrite HF. cbn [expand place chunk_blocks]. rewrite concat_replicate_mul.
    by replace (Z.to_nat (n * blk / 4096) * 1024)%nat with (Z.to_nat (n * blk / 4)) by zmod.
  - assert (fut ≠ []). { intros ->. rewrite app_nil_r in Hcs. apply (f_equal length) in Hcs.
      rewrite length_app, length_le_bytes in Hcs. lia. }
    apply keep_pending; [done| |done]. rewrite <- Hcs. by eapply pend_fill.
Qed.

Lemma unsparse_turn_pending F st d B junk fut :
  globl_header_blk st → last_rest st = [] → pending F st d (B ++ fut) →
  0 < Z.of_nat (length B) < 2147483648 →
  ∃ t, unsparse_turn st d (B ++ junk) (Z.of_nat (length B)) = Some t ∧ turn_pending F junk fut t.
Proof.
  intros Hb Hr Hp HB. unfold unsparse_turn.
  inversion Hp as [? Ht|? ? Ht|? ? ? Ht]; rewrite Ht; cbn [Z.eqb Pos.eqb].
  - apply chunk_head_pending; try done. intros ->. simpl in HB. lia.
  - by apply chunk_data_pending.
  - by apply fill_data_pending.
Qed.

Lemma unsparse_loop_pending fuel F st d B junk fut :
  globl_header_blk st → last_rest st = [] → pending F st d (B ++ fut) → is_u32 (chunk_length st) →
  Z.of_nat (length (B ++ junk)) < 2147483648 → (length B <= fuel)%nat →
  ∃ st' d', unsparse_loop fuel st d (B ++ junk) (Z.of_nat (length B)) = Some (st', d', 0) ∧
    globl_header_blk st' ∧ is_u32 (chunk_length st') ∧
    pending F st' d' (last_rest st' ++ fut) ∧ (fut = [] → last_rest st' = []).
Proof.
  revert st d B. induction fuel as [|f IH]; intros st d B Hb Hr Hp Hu Hj Hf; cbn [unsparse_loop].
  - destruct B; [|simpl in Hf; lia]. exists st, d. rewrite Hr. done.
  - destruct (Z.leb_spec (Z.of_nat (length B)) 0).
    { destruct B; [|simpl in *; lia]. exists st, d. rewrite Hr. done. }
    rewrite length_app in Hj.
    destruct (unsparse_turn_pending F st d B junk fut) as (t & Ht & Hgo); [done..|lia|].
    rewrite Ht. sbind. destruct t as [st1 d1 b1 r1|]; [|done].
    pose proof (unsparse_turn_length _ _ _ _ _ Hu Ht) as Hu1. simpl in Hu1.
    apply unsparse_turn_ok in Ht as (Hlt & Hle & _); [|rewrite ?length_app, ?Hr; simpl; done || lia..].
    destruct Hgo as [Hb1 [(B1 & -> & -> & Hr1 & Hp1)|(-> & Hfut & Hp1)]].
    + rewrite !length_app in Hle. apply IH; try done; rewrite ?length_app; lia.
    + exists st1, d1. destruct f; done.
Qed.

Lemma unsparse_write_pending F st d piece after fut :
  is_byte_list piece → word_room piece after →
  Z.of_nat (length (last_rest st ++ piece ++ after)) < 2147483648 →
  globl_header_blk st → is_u32 (chunk_length st) → pending F st d (last_rest st ++ piece ++ fut) →
  ∃ st' d', unsparse_direct_write st d (piece ++ after) (Z.of_nat (length piece)) = Some (st', d', 0) ∧
    globl_header_blk st' ∧ is_u32 (chunk_length st') ∧
    pending F st' d' (last_rest st' ++ fut) ∧ (fut = [] → last_rest st' = []).
Proof.
  intros Hp Ha Hj Hb Hu Hpend. unfold unsparse_direct_write. rewrite add_sum_words by done. sbind.
  cbn [last_rest set_checksum]. rewrite !length_app in Hj.
  rewrite (u32_small (Z.of_nat (length (last_rest st)) + _)), s32_small by (unfold is_u32; lia).
  rewrite <- Nat2Z.inj_add, <- length_app, app_assoc.
  apply unsparse_loop_pending; cbn; try done.
  - rewrite <- app_assoc. by apply pending_rest, pending_checksum.
  - rewrite !length_app. lia.
  - rewrite !length_app. lia.
Qed.

Lemma unsparse_feed_pending F st d ps :
  Forall piece_ok ps → Z.of_nat (length (last_rest st)) < 8192 → (ps = [] → last_rest st = []) →
  globl_header_blk st → is_u32 (chunk_length st) → pending F st d (last_rest st ++ concat ps.*1) →
  ∃ st', unsparse_feed st d ps = Some (st', F, 0).
Proof.
  revert st d. induction ps as [|[p a] ps IH]; intros st d Hps Hl Hn Hb Hu Hp; cbn [unsparse_feed].
  - rewrite Hn in Hp by done. apply pending_nil in Hp as ->. eauto.
  - apply Forall_cons in Hps as [(H1 & H2 & H3) Hps]. simpl in *.
    destruct (unsparse_write_pending F st d p a (concat ps.*1)) as (st1 & d1 & Hw & Hb1 & Hu1 & Hp1 & Hr1);
      try done; [rewrite !length_app in *; lia|].
    rewrite Hw. sbind. cbn [Z.eqb negb]. apply IH; try done.
    + by eapply (unsparse_write_kept st); [| | |exact Hw].
    + intros ->. by apply Hr1.
Qed.

Lemma header_fields tb tc ck l :
  0 <= tc < 4294967296 →
  load_le 4 0 (enc_header blk tb tc ck ++ l) = Some SPARSE_HEADER_MAGIC ∧
  load_le 2 4 (enc_header blk tb tc ck ++ l) = Some 1 ∧
  load_le 2 8 (enc_header blk tb tc ck ++ l) = Some 28 ∧
  load_le 2 10 (enc_header blk tb tc ck ++ l) = Some 12 ∧
  load_le 4 12 (enc_header blk tb tc ck ++ l) = Some blk ∧
  load_le 4 20 (enc_header blk tb tc ck ++ l) = Some tc.
Proof using Hblk.
  intros Htc. set (h := enc_header blk tb tc ck).
  assert (Hf : ∀ n k x, h = take k h ++ le_bytes n x ++ drop (k + n) h → length (take k h) = k →
                        0 <= x < 256 ^ Z.of_nat n → load_le n k (h ++ l) = Some x).
  { intros n k x Hh Hk Hx. rewrite Hh, <- !app_assoc. rewrite <- Hk at 1. by apply load_le_bytes. }
  split_and!; apply Hf; try reflexivity; unfold SPARSE_HEADER_MAGIC; simpl; lia.
Qed.

Lemma unsparse_write_first st d tb tc ck cs piece after fut :
  is_byte_list piece → word_room piece after → Z.of_nat (length (piece ++ after)) < 2147483648 - 8192 →
  28 <= Z.of_nat (length piece) → 0 <= tc < 4294967296 →
  sparse_format_type st = SPARSE_FORMAT_TYPE_TOTAL_HEAD → last_rest st = [] → is_u32 (chunk_length st) →
  lo <= flash_start st → wf_chunks blk hi (flash_start st) cs →
  piece ++ fut = enc_header blk tb tc ck ++ enc_chunks blk cs →
  ∃ st' d', unsparse_direct_write st d (piece ++ after) (Z.of_nat (length piece)) = Some (st', d', 0) ∧
    globl_header_blk st' ∧ is_u32 (chunk_length st') ∧
    pending (expand blk cs d (flash_start st)) st' d' (last_rest st' ++ fut) ∧ (fut = [] → last_rest st' = []).
Proof.
  intros Hp Ha Hj Hge Htc Ht Hr Hu Hs Hwf Himg.
  apply symmetry, split_prefix in Himg as (B & -> & Hcs); [|simpl; lia].
  unfold unsparse_direct_write. rewrite add_sum_words by done. sbind. cbn [last_rest set_checksum]. rewrite Hr.
  rewrite app_nil_l. rewrite length_app in Hj.
  change (Z.of_nat (List.length [])) with 0. rewrite Z.add_0_l.
  rewrite (u32_small (Z.of_nat _)), s32_small by (unfold is_u32; lia).
  cbn [unsparse_loop]. destruct (Z.leb_spec (Z.of_nat (length (enc_header blk tb tc ck ++ B))) 0); [lia|].
  unfold unsparse_turn. cbn [sparse_format_type set_rest set_checksum]. rewrite Ht. cbn [Z.eqb Pos.eqb].
  unfold total_head. rewrite <- (app_assoc _ B).
  change sizeof_sparse_header with (length (enc_header blk tb tc ck)). rewrite slice_all. sbind.
  rewrite !length_app in *. rewrite drop_app_length, s32_small by lia.
  replace (Z.of_nat (length (enc_header blk tb tc ck) + length B) - Z.of_nat (length (enc_header blk tb tc ck)))
    with (Z.of_nat (length B)) by lia.
  apply unsparse_loop_pending; cbn [last_rest set_type set_header set_rest set_checksum chunk_length]; try done.
  - unfold globl_header_blk. cbn [globl_header set_type set_header].
    rewrite <- (app_nil_r (enc_header _ _ _ _)). by apply header_fields.
  - rewrite <- Hcs. by apply pend_head.
  - rewrite !length_app in *. lia.
  - lia.
Qed.

End image.

End code.

(** ** Theorems *)

(** The run of the writer over all pieces. *)
Lemma unsparse_run `{D : flash_driver} blk tb tc ck cs start hi d st0 p after ps :
  0 < blk < 4294967296 → 0 <= tc < 4294967296 → 0 <= start → hi < 4294967296 →
  (∀ s n, start <= s → 0 < n → s + n <= hi → write_ok s n = true) →
  wf_chunks blk hi start cs → Forall piece_ok ((p, after) :: ps) → 28 <= Z.of_nat (length p) →
  p ++ concat ps.*1 = enc_header blk tb tc ck ++ enc_chunks blk cs →
  ∃ st st', unsparse_probe st0 (p ++ after) start = Some (st, ANDROID_FORMAT_DETECT) ∧
    unsparse_feed st d ((p, after) :: ps) = Some (st', expand blk cs d start, 0) ∧
    (whole_words ((p, after) :: ps) → unsparse_checksum st' = u32 (word_sum (p ++ concat ps.*1))).
Proof.
  intros Hblk Htc Hs Hhi Hok Hwf Hps Hp Himg.
  apply Forall_cons in Hps as Hps'. destruct Hps' as [(Hp1 & Hp2 & Hp3) Hps'].
  apply symmetry in Himg as Hi. apply split_prefix in Hi as (B & HB & _); [|simpl; lia].
  set (st := SparseState 0 SPARSE_FORMAT_TYPE_TOTAL_HEAD 0 [] 0 start (globl_header st0) tc).
  destruct (unsparse_write_first blk start hi Hblk Hs Hhi Hok st d tb tc ck cs p after (concat ps.*1))
    as (st1 & d1 & Hw & Hb1 & Hu1 & Hpend & Hr1); try done.
  destruct (unsparse_feed_pending blk start hi Hs Hhi Hok (expand blk cs d start) st1 d1 ps)
    as [st' Hf]; try done.
  { eapply (unsparse_write_kept st); [| | |exact Hw]; done. }
  { intros ->. by apply Hr1. }
  assert (Hfeed : unsparse_feed st d ((p, after) :: ps) = Some (st', expand blk cs d start, 0)).
  { cbn [unsparse_feed]. rewrite Hw. exact Hf. }
  exists st, st'. split_and!; [|done|].
  - unfold unsparse_probe. rewrite HB, <- app_assoc.
    destruct (header_fields blk Hblk tb tc ck (B ++ after) Htc) as (E1 & E2 & E3 & E4 & _ & E6).
    rewrite E1. sbind. change (negb (_ =? SPARSE_HEADER_MAGIC)) with false. cbn iota.
    rewrite E2, E3, E4. sbind. cbn -[load_le app]. rewrite E6. done.
  - intros Hww. by rewrite (unsparse_feed_checksum st d _ st' _ Hps Hww) by done.
Qed.

(** C3: the writer implements the format, however the file is cut: for every
    well-formed image and every way to cut it into pieces, the first of at
    least the file header, [unsparse_probe] recognises it, every call of
    [unsparse_direct_write] succeeds, and the flash then holds exactly the
    expanded image, raw chunks copied, fill chunks repeated, skipped chunks
    left alone.  When all pieces but the last are whole words the checksum is
    the word sum of the file. *)
Theorem unsparse_writes_image `{D : flash_driver} blk tb tc ck cs start hi d st0 p after ps :
  0 < blk < 4294967296 → 0 <= tc < 4294967296 → 0 <= start → hi < 4294967296 →
  (∀ s n, start <= s → 0 < n → s + n <= hi → write_ok s n = true) →
  wf_chunks blk hi start cs → Forall piece_ok ((p, after) :: ps) → 28 <= Z.of_nat (length p) →
  p ++ concat ps.*1 = enc_header blk tb tc ck ++ enc_chunks blk cs →
  ∃ st st', unsparse_probe st0 (p ++ after) start = Some (st, ANDROID_FORMAT_DETECT) ∧
    unsparse_feed st d ((p, after) :: ps) = Some (st', expand blk cs d start, 0) ∧
    (whole_words ((p, after) :: ps) → unsparse_checksum st' = u32 (word_sum (p ++ concat ps.*1))).
Proof. apply unsparse_run. Qed.

(** A small image: a raw block, a skipped block and a filled page, cut in the
    middle of a chunk header and of the raw data. *)
Definition demo_chunks : list chunk := [Raw 1 (replicate 512 7); Skip 1; Fill 8 0x01020304].
Definition demo_image : bytes := enc_header 512 10 3 0 ++ enc_chunks 512 demo_chunks.
Definition demo_pieces : list (bytes * bytes) :=
  [(take 32 demo_image, [1; 2; 3]); (take 100 (drop 32 demo_image), [4; 5; 6]);
   (drop 132 demo_image, [7; 8; 9; 10])].

Lemma unsparse_writes_image_witness :
  ∃ st st', unsparse_probe (SparseState 0 0 0 [] 0 0 [] 0) (take 32 demo_image ++ [1; 2; 3]) 100
    = Some (st, ANDROID_FORMAT_DETECT) ∧
  unsparse_feed (D := good_driver) st ∅ demo_pieces = Some (st', expand 512 demo_chunks ∅ 100, 0) ∧
  (whole_words demo_pieces → unsparse_checksum st' = u32 (word_sum demo_image)).
Proof.
  apply (unsparse_writes_image 512 10 3 0 demo_chunks 100 200 ∅ _ (take 32 demo_image) [1; 2; 3]
           [(take 100 (drop 32 demo_image), [4; 5; 6]); (drop 132 demo_image, [7; 8; 9; 10])]); try lia.
  - done.
  - cbn. split_and!; try lia; done.
  - repeat apply Forall_cons_2; try apply Forall_nil_2; unfold piece_ok, word_room, is_byte_list; split_and!;
      try (apply (bool_decide_unpack _); vm_compute; exact I); vm_compute; done || lia.
  - vm_compute. done.
  - vm_compute. done.
Defined.

(** C36: the statics of the writer stay well typed: [unsparse_probe] sets them
    up and every call keeps them, whatever the piece holds and whatever it
    returns: the state is one of the four of the code, the counters fit 32
    bits, and fewer than 8 KiB of bytes are kept below the buffer, within the
    32 KiB of head room the callers give it. *)
Theorem unsparse_keeps_wf `{D : flash_driver} st0 source start st1 st d pbuf n st' d' ret :
  is_u32 start → unsparse_probe st0 source start = Some (st1, ANDROID_FORMAT_DETECT) →
  is_byte_list pbuf → Z.of_nat (length pbuf) < 2147483648 - 8192 →
  unsparse_direct_write st d pbuf n = Some (st', d', ret) →
  wf_sparse st1 ∧ (wf_sparse st → wf_sparse st').
Proof.
  intros Hs Hprobe Hp Hl H. split.
  - unfold unsparse_probe in Hprobe. some_inv. split; [|done].
    constructor; cbn; try done; try (unfold is_u32; lia); try constructor.
  - intros [Hwf Hk]. split; [|by eapply unsparse_write_kept; [apply Hwf|..|exact H]].
    unfold unsparse_direct_write in H. apply bind_Some_inv in H as (sum & _ & H).
    eapply unsparse_loop_wf; [| |exact H]; destruct Hwf.
    + constructor; cbn; try done; [apply u32_bound|constructor].
    + cbn. by apply Forall_app.
Qed.

Definition demo_state : sparse_state :=
  SparseState 0 SPARSE_FORMAT_TYPE_CHUNK_HEAD 0 [] 0 100 (enc_header 512 10 3 0) 3.

Lemma unsparse_keeps_wf_witness :
  let buf := take 500 (enc_chunks 512 demo_chunks) ++ [0; 0; 0] in
  ∃ st1 st' d' ret,
    unsparse_probe demo_state (demo_image ++ [0; 0]) 100 = Some (st1, ANDROID_FORMAT_DETECT) ∧
    unsparse_direct_write (D := good_driver) demo_state ∅ buf 500 = Some (st', d', ret) ∧
    wf_sparse st1 ∧ (wf_sparse demo_state → wf_sparse st').
Proof.
  intros buf.
  assert (is_Some (unsparse_direct_write (D := good_driver) demo_state ∅ buf 500)) as [[[st' d'] ret] H]
    by (vm_compute; eauto).
  exists (SparseState 0 SPARSE_FORMAT_TYPE_TOTAL_HEAD 0 [] 0 100 (globl_header demo_state) 3), st', d', ret.
  split; [vm_compute; reflexivity|]. split; [exact H|].
  eapply (unsparse_keeps_wf demo_state (demo_image ++ [0; 0]) 100); [| | | |exact H].
  - unfold is_u32. lia.
  - vm_compute. reflexivity.
  - apply (bool_decide_unpack _). vm_compute. exact I.
  - vm_compute. reflexivity.
Defined.

(** C37: the state machine terminates.  As a relation on the variables of its
    loop, without fuel: no run of one call has more turns than there are bytes
    kept and given, and there is a run to an end (no bytes left, the error
    return, or an access outside the buffer) whose outcome is what the call
    returns. *)
Theorem unsparse_terminates `{D : flash_driver} st d pbuf n sum :
  is_u32 (chunk_length st) → Z.of_nat (length pbuf) < 2147483648 - 8192 →
  0 <= n <= Z.of_nat (length pbuf) → Z.of_nat (length (last_rest st)) < 8192 → add_sum pbuf n = Some sum →
  let start := (set_rest (set_checksum st (android_format_checksum st ⊞ sum)) [], d, last_rest st ++ pbuf,
                Z.of_nat (length (last_rest st)) + n) in
  (∀ k v, nsteps turn_step k start v → Z.of_nat k <= Z.of_nat (length (last_rest st)) + n) ∧
  ∃ k v, nsteps turn_step k start v ∧ ended v (unsparse_direct_write st d pbuf n).
Proof.
  intros Hu Hp Hn Hl Hsum start.
  assert (turns_fit (set_rest (set_checksum st (android_format_checksum st ⊞ sum)) []) (last_rest st ++ pbuf)
    (Z.of_nat (length (last_rest st)) + n)) as Hfit by (split; cbn; rewrite ?length_app; done || lia).
  split; [intros k v Hk; pose proof (turns_bounded _ _ _ _ _ _ Hfit Hk); lia|].
  unfold unsparse_direct_write. rewrite Hsum. sbind.
  cbn [last_rest set_checksum]. rewrite (u32_small (_ + n)), s32_small by (unfold is_u32; lia).
  apply turns_end; [done|]. rewrite length_app. lia.
Qed.

Lemma unsparse_terminates_witness :
  let buf := take 500 (enc_chunks 512 demo_chunks) ++ [0; 0; 0] in
  ∃ k v st' d', nsteps (turn_step (D := good_driver)) k
      (set_rest (set_checksum demo_state (0 ⊞ default 0 (add_sum buf 500))) [], ∅, buf, 500) v ∧
    unsparse_direct_write (D := good_driver) demo_state ∅ buf 500 = Some (st', d', 0) ∧
    ended (D := good_driver) v (Some (st', d', 0)).
Proof.
  intros buf.
  assert (∃ st' d', unsparse_direct_write (D := good_driver) demo_state ∅ buf 500 = Some (st', d', 0)) as (st' & d' & H)
    by (vm_compute; eauto).
  destruct (unsparse_terminates (D := good_driver) demo_state ∅ buf 500 (default 0 (add_sum buf 500))) as (_ & k & v & Hk & Hv);
    [vm_compute; split; congruence|vm_compute; reflexivity|vm_compute; split; congruence|vm_compute; reflexivity|vm_compute; reflexivity|].
  rewrite H in Hv. exists k, v, st', d'. split; [exact Hk|]. split; [exact H|exact Hv].
Defined.

(** A skipped chunk of 4 GiB or more misplaces everything after it: the
    code multiplies its blocks in 32 bits, so the writer goes on at another
    sector than the format says. *)
Theorem skip_4g_misplaced st d n l r blk :
  0 <= n < 4294967296 → load_le 4 12 (globl_header st) = Some blk → 12 <= r < 2147483648 →
  4294967296 <= n * blk → 0 <= flash_start st → flash_start st + n * blk / 512 < 4294967296 →
  ∃ st', chunk_head st d (enc_chunk blk (Skip n) ++ l) r = Some (Go st' d l (r - 12)) ∧
    sparse_format_type st' = SPARSE_FORMAT_TYPE_CHUNK_HEAD ∧
    flash_start st' = flash_start st + (n * blk) mod 4294967296 / 512 ∧
    flash_start st' < flash_start st + n * blk / 512.
Proof.
  intros Hn Hblk Hr Hbig Hs Hend. unfold chunk_head.
  destruct (Z.ltb_spec r (Z.of_nat sizeof_chunk_header)); [unfold sizeof_chunk_header in *; lia|].
  destruct (chunk_header_loads CHUNK_TYPE_DONT_CARE n 12 l) as (E1 & E2 & E3 & E4); [done..|].
  cbn [enc_chunk]. rewrite E1, E2, E3, Hblk. sbind. change sizeof_chunk_header with 12%nat. rewrite E4.
  change (n ⊠ blk) with ((n * blk) mod 4294967296).
  destruct (Z.eqb_spec ((n * blk) mod 4294967296) 0) as [Hz|Hz]; eexists; (split; [reflexivity|]);
    cbn [flash_start set_type set_length set_count set_start].
  - rewrite Hz. change (0 / 512) with 0. split_and!; [done|lia|]. zmod.
  - rewrite shiftr_9, (u32_small (flash_start st + _)) by (unfold is_u32; zmod). split_and!; [done..|]. zmod.
Qed.

Lemma skip_4g_misplaced_witness :
  ∃ st', chunk_head (SparseState 0 SPARSE_FORMAT_TYPE_CHUNK_HEAD 0 [] 0 100 (enc_header 4096 10 3 0) 3) ∅
    (enc_chunk 4096 (Skip 1048576) ++ [1]) 13 = Some (Go st' ∅ [1] (13 - 12)) ∧
    sparse_format_type st' = SPARSE_FORMAT_TYPE_CHUNK_HEAD ∧
    flash_start st' = 100 + (1048576 * 4096) mod 4294967296 / 512 ∧
    flash_start st' < 100 + 1048576 * 4096 / 512.
Proof. apply (skip_4g_misplaced (SparseState _ _ _ _ _ 100 _ _)); done. Defined.

(** A raw chunk with 2 GiB or more still to come makes the writer read
    past its buffer: the missing length turns negative as an [int], so the
    size to write wraps around and no buffer below 2 GiB is long enough. *)
Theorem raw_2g_overreads `{D : flash_driver} st d buf r :
  Z.of_nat (length buf) < 2147483648 → 8192 <= r < 2147483648 → chunk_length st < 4294967296 →
  2147483648 <= chunk_length st - r → chunk_data st d buf r = None.
Proof.
  intros Hb Hr Hlt Hge. unfold chunk_data. rewrite (u32_small r) by (unfold is_u32; lia).
  destruct (Z.leb_spec r (chunk_length st)); [|lia].
  assert (s32 (chunk_length st - r) = chunk_length st - r - 4294967296) as -> by (unfold s32; zmod).
  destruct (Z.eqb_spec (chunk_length st - r - 4294967296) 0); [lia|].
  destruct (Z.ltb_spec r (8 * 1024)); [lia|].
  destruct (Z.ltb_spec (chunk_length st - r - 4294967296) (4 * 1024)); [|lia].
  rewrite s32_small by lia. unfold flash_write, slice. rewrite shiftr_9.
  destruct (decide _) as [Hd|]; [|done]. exfalso. unfold u32 in Hd. change (2 ^ 32) with 4294967296 in Hd. zmod.
Qed.

Lemma raw_2g_overreads_witness :
  chunk_data (D := good_driver)
    (SparseState 0 SPARSE_FORMAT_TYPE_CHUNK_DATA 0 [] 2147495936 100 (enc_header 4096 10 3 0) 3) ∅ [1; 2] 8192 = None.
Proof. by apply raw_2g_overreads. Defined.

(** A fill chunk whose length is no multiple of 4 KiB loses its tail, and
    everything after it is misplaced. *)
Theorem fill_tail_lost `{D : flash_driver} st d v l r hi :
  0 <= v < 4294967296 → 4 <= r < 2147483648 → chunk_length st mod 512 = 0 → chunk_length st mod 4096 ≠ 0 →
  0 < chunk_length st → 0 <= flash_start st → flash_start st + chunk_length st / 512 <= hi → hi < 4294967296 →
  (∀ s n, flash_start st <= s → 0 < n → s + n <= hi → write_ok s n = true) →
  ∃ st' d', fill_data st d (le_bytes 4 v ++ l) r = Some (Go st' d' l (r - 4)) ∧
    sparse_format_type st' = SPARSE_FORMAT_TYPE_CHUNK_HEAD ∧
    flash_start st' < flash_start st + chunk_length st / 512.
Proof.
  intros Hv Hr Hm Hm' Hl Hs Hend Hhi Hok. unfold fill_data. destruct (Z.leb_spec 4 r); [|lia].
  assert (load_le 4 0 (le_bytes 4 v ++ l) = Some v) as -> by by apply (load_le_bytes 4 v []). sbind.
  rewrite land_511, Hm. cbn [negb Z.eqb]. rewrite Z.shiftr_div_pow2 by lia. change (2 ^ 12) with 4096.
  rewrite (fill_loop_run (flash_start st) hi Hs Hhi Hok);
    [|rewrite length_concat_replicate, length_le_bytes; lia|lia|zmod].
  sbind. eexists _, _. split; [reflexivity|]. cbn [flash_start set_type set_start]. split; [done|]. zmod.
Qed.

(** The four bytes of a CRC chunk are read as the next chunk header. *)
Theorem crc_chunk_misread st d crc l r blk :
  load_le 4 12 (globl_header st) = Some blk → 12 <= r →
  ∃ st', chunk_head st d (enc_chunk_header 0xCAC4 0 16 ++ le_bytes 4 crc ++ l) r
           = Some (Go st' d (le_bytes 4 crc ++ l) (r - 12)) ∧
         sparse_format_type st' = SPARSE_FORMAT_TYPE_CHUNK_HEAD ∧ flash_start st' = flash_start st.
Proof.
  intros Hblk Hr. unfold chunk_head.
  destruct (Z.ltb_spec r (Z.of_nat sizeof_chunk_header)); [unfold sizeof_chunk_header in *; lia|].
  destruct (chunk_header_loads 0xCAC4 0 16 (le_bytes 4 crc ++ l)) as (E1 & E2 & E3 & E4); [done..|].
  rewrite E1, E2, E3, Hblk. sbind. change sizeof_chunk_header with 12%nat. rewrite E4.
  eexists. split; [reflexivity|]. done.
Qed.
