(* ===== verification/SpriteVerify.v ===== *)
(** * Verification in the flashing tool (u-boot-2018/sprite/sprite_verify.c)

    After a partition is written the tool checks it against the checksum file
    of the firmware: [sunxi_sprite_part_rawdata_verify] reads the partition
    back in blocks of 8 MiB (2 MiB on SPI NOR) and adds up its words,
    [sunxi_sprite_part_sparsedata_verify] takes the sum the sparse writer
    kept.  The partition table and the download map carry a CRC.  The
    displays of the tables are left out.

    The theorems: reading back in blocks gives the word sum of the partition
    data, the same sum the sparse writer computes; the partition table check
    accepts exactly a GPT header or MBR copies with the right CRC and leaves
    the buffer as it was. *)

From S2P Require Import Prelude Mem Crc32 UCrc32 Checksum Flash Sparse.

Local Open Scope Z_scope.
Local Open Scope c_scope.

(** ** Partition data *)

Section verify.
Context `{E : sprite_env} `{D : flash_driver}.

Definition VERIFY_ONCE_BYTES : Z :=
  if CONFIG_SUNXI_SPINOR then 2 * 1024 * 1024 else 8 * 1024 * 1024.
Definition VERIFY_ONCE_SECTORS : Z := VERIFY_ONCE_BYTES / 512.

(** [while (rest_sectors >= VERIFY_ONCE_SECTORS)]; [Some None] is the jump to
    the error exit. *)
Fixpoint verify_loop (fuel : nat) (d : disk) (crt_start rest_sectors checksum : Z) :
    option (option (Z * Z * Z)) :=
  if rest_sectors <? VERIFY_ONCE_SECTORS then Some (Some (crt_start, rest_sectors, checksum))
  else
    match fuel with
    | O => None
    | S f =>
        let '(r, tmp_buf) := flash_read d crt_start VERIFY_ONCE_SECTORS in
        if negb (r =? VERIFY_ONCE_SECTORS) then Some None
        else
          s ← add_sum tmp_buf VERIFY_ONCE_BYTES;
          verify_loop f d (crt_start ⊞ VERIFY_ONCE_SECTORS) (rest_sectors ⊟ VERIFY_ONCE_SECTORS) (checksum ⊞ s)
    end.

Definition sunxi_sprite_part_rawdata_verify (d : disk) (base_start base_bytes : Z) : option Z :=
  if negb (memalign_ok VERIFY_ONCE_BYTES) then Some 0
  else
    let rest_sectors := u32 (Z.shiftr (base_bytes + 511) 9) in
    let unaligned_bytes := Z.land (u32 base_bytes) 0x1ff in
    res ← verify_loop (Z.to_nat rest_sectors) d base_start rest_sectors 0;
    match res with
    | None => Some 0
    | Some (crt_start, rest_sectors, checksum) =>
        if rest_sectors =? 0 then Some checksum
        else
          let '(r, tmp_buf) := flash_read d crt_start rest_sectors in
          if negb (r =? rest_sectors) then Some 0
          else
            let last_time_bytes :=
              if negb (unaligned_bytes =? 0) then (rest_sectors ⊟ 1) ⊠ 512 ⊞ unaligned_bytes
              else rest_sectors ⊠ 512 in
            s ← add_sum tmp_buf last_time_bytes;
            Some (checksum ⊞ s)
    end.

Definition sunxi_sprite_part_sparsedata_verify (st : sparse_state) : Z := unsparse_checksum st.

(** ** Checksums of boot images *)

Definition sunxi_sprite_generate_checksum (buffer : words) (length src_sum : Z) : option Z :=
  sunxi_generate_checksum buffer length 1 src_sum.

Definition sunxi_sprite_verify_checksum (buffer : words) (length src_sum : Z) : option Z :=
  sunxi_verify_checksum buffer length src_sum.

(** ** Partition tables *)

Definition SUNXI_MBR_SIZE : nat := 16 * 1024.
Definition SUNXI_MBR_COPY_NUM : nat := 4.
Definition GPT_HEAD_OFFSET : nat := 512.
Definition GPT_HEADER_SIGNATURE : Z := 0x5452415020494645.
Definition sizeof_gpt_header : nat := 92.

(** The buffer and the return value. *)
Definition sunxi_sprite_read_mbr (d : disk) (buffer : bytes) : bytes * Z :=
  let sectors := Z.of_nat SUNXI_MBR_SIZE / 512 in
  let '(r, buf) := flash_read d 0 sectors in
  if negb (sectors =? r) then (buffer, -1) else (splice 0 buf buffer, 0).

(** The loop over the MBR copies from [tmp_buf] on. *)
Fixpoint verify_mbr_copies (n : nat) (addr : Z) (tmp_buf : bytes) : option Z :=
  match n with
  | O => Some 0
  | S n' =>
      c ← ucrc32 (addr + 4) 0 (drop 4 tmp_buf) (SUNXI_MBR_SIZE - 4);
      crc32 ← load_le 4 0 tmp_buf;
      if negb (c =? crc32) then Some (-1)
      else verify_mbr_copies n' (addr + Z.of_nat SUNXI_MBR_SIZE) (drop SUNXI_MBR_SIZE tmp_buf)
  end.

(** The buffer after the call and the return value; [addr] is the address of
    the buffer. *)
Definition sunxi_sprite_verify_mbr (addr : Z) (buffer : bytes) : option (bytes * Z) :=
  signature ← load_le 8 GPT_HEAD_OFFSET buffer;
  if signature =? GPT_HEADER_SIGNATURE then
    backup_crc32 ← load_le 4 (GPT_HEAD_OFFSET + 16) buffer;
    let buffer := splice (GPT_HEAD_OFFSET + 16) (le_bytes 4 0) buffer in
    calc_crc32 ← ucrc32 (addr + Z.of_nat GPT_HEAD_OFFSET) 0 (drop GPT_HEAD_OFFSET buffer) sizeof_gpt_header;
    let buffer := splice (GPT_HEAD_OFFSET + 16) (le_bytes 4 backup_crc32) buffer in
    Some (buffer, if negb (calc_crc32 =? backup_crc32) then -1 else 0)
  else
    let mbr_num := if get_boot_storage_type =? STORAGE_NOR then 1%nat else SUNXI_MBR_COPY_NUM in
    r ← verify_mbr_copies mbr_num addr buffer;
    Some (buffer, r).

Definition sunxi_sprite_verify_dlmap (addr : Z) (buffer : bytes) : option Z :=
  c ← ucrc32 (addr + 4) 0 (drop 4 buffer) (SUNXI_MBR_SIZE - 4);
  crc32 ← load_le 4 0 buffer;
  Some (if negb (c =? crc32) then -1 else 0).

(** ** Lemmas *)

Lemma verify_once : 4096 <= VERIFY_ONCE_SECTORS <= 16384 ∧ VERIFY_ONCE_BYTES = 512 * VERIFY_ONCE_SECTORS.
Proof. unfold VERIFY_ONCE_SECTORS, VERIFY_ONCE_BYTES. destruct CONFIG_SUNXI_SPINOR; done. Qed.

Lemma add_sum_all l :
  is_byte_list l → Z.of_nat (length l) mod 4 = 0 → add_sum l (Z.of_nat (length l)) = Some (u32 (word_sum l)).
Proof.
  intros Hl Hm. pose proof (add_sum_words l [] Hl) as H. rewrite app_nil_r in H. apply H.
  unfold word_room. simpl. zmod.
Qed.

Lemma verify_loop_run fuel d start rest checksum bs hi :
  (∀ s n, 0 <= s → 0 < n → s + n <= hi → read_ok s n = true) → hi < 4294967296 →
  0 <= start → 0 <= rest → start + rest <= hi → rest <= Z.of_nat fuel → is_u32 checksum →
  is_byte_list bs → Z.of_nat (length bs) = 512 * rest → holds d start bs →
  ∃ h t rest', bs = h ++ t ∧ Z.of_nat (length h) = 512 * (rest - rest') ∧ rest' = rest mod VERIFY_ONCE_SECTORS ∧
    verify_loop fuel d start rest checksum =
      Some (Some (start + (rest - rest'), rest', u32 (checksum + word_sum h))).
Proof.
  destruct verify_once as [HK HB]. intros Hok Hhi. revert start rest checksum bs.
  induction fuel as [|f IH]; intros start rest checksum bs Hs Hr Hend Hf Hc Hb Hl Hh; cbn [verify_loop];
    (destruct (Z.ltb_spec rest VERIFY_ONCE_SECTORS) as [Hlt|Hge];
      [exists [], bs, rest; simpl; rewrite Z.sub_diag, !Z.add_0_r, (u32_small checksum), Z.mod_small by (done || lia);
       by split_and!; try lia|]);
    [lia|].
  destruct (split_at_Z (512 * VERIFY_ONCE_SECTORS) bs) as (b & bs' & -> & Hbl); [lia|].
  rewrite length_app in Hl. apply Forall_app in Hb as [Hb Hb'].
  destruct (holds_app d start VERIFY_ONCE_SECTORS b bs' Hh Hbl) as [Hh1 Hh2].
  rewrite (flash_read_holds d start VERIFY_ONCE_SECTORS b) by (done || (apply Hok; lia)).
  rewrite Z.eqb_refl. cbn [negb].
  replace VERIFY_ONCE_BYTES with (Z.of_nat (length b)) by lia.
  rewrite add_sum_all by (done || zmod). sbind.
  rewrite (u32_small (start + _)), (u32_small (rest - _)) by (unfold is_u32; lia).
  destruct (IH (start + VERIFY_ONCE_SECTORS) (rest - VERIFY_ONCE_SECTORS) (checksum ⊞ u32 (word_sum b)) bs')
    as (h & t & rest' & -> & Hh' & Hlt & ->); [lia..|apply u32_bound|done|lia|done|].
  exists (b ++ h), t, rest'. split_and!; [by rewrite app_assoc|rewrite length_app; lia| |].
  { rewrite Hlt. rewrite <- (Z_mod_plus_full rest (-1)). f_equal; lia. }
  rewrite word_sum_app by zmod. autorewrite with word.
  replace (start + VERIFY_ONCE_SECTORS + (rest - VERIFY_ONCE_SECTORS - rest')) with (start + (rest - rest')) by lia.
  by rewrite Z.add_assoc.
Qed.

Lemma rawdata_verify_sum d start data pad :
  let sectors := (Z.of_nat (length data) + 511) / 512 in
  (∀ s n, 0 <= s → 0 < n → s + n <= start + sectors → read_ok s n = true) → start + sectors < 4294967296 →
  memalign_ok VERIFY_ONCE_BYTES = true → 0 <= start → is_byte_list (data ++ pad) →
  Z.of_nat (length (data ++ pad)) = 512 * sectors → holds d start (data ++ pad) →
  sunxi_sprite_part_rawdata_verify d start (Z.of_nat (length data)) =
    Some (u32 (word_sum (if sectors mod VERIFY_ONCE_SECTORS =? 0 then data ++ pad else data))).
Proof.
  intros sectors Hok Hend Hmem Hs Hb Hl Hh. destruct verify_once as [HK _].
  unfold sunxi_sprite_part_rawdata_verify. rewrite Hmem. cbn [negb].
  rewrite shiftr_9. fold sectors. rewrite (u32_small sectors) by (unfold is_u32, sectors in *; zmod).
  destruct (verify_loop_run (Z.to_nat sectors) d start sectors 0 (data ++ pad) (start + sectors) Hok)
    as (h & t & rest & Hht & Hlh & Hrest & ->); try done; [unfold sectors; zmod..|unfold is_u32; lia|].
  sbind. rewrite Z.add_0_l. rewrite Hrest in *. clear Hrest.
  pose proof (Z.mod_pos_bound sectors VERIFY_ONCE_SECTORS ltac:(lia)) as Hm.
  set (rest' := sectors mod VERIFY_ONCE_SECTORS) in *. clearbody rest'.
  assert (Hlt : Z.of_nat (length t) = 512 * rest').
  { apply (f_equal length) in Hht. rewrite length_app in Hht at 1. rewrite !length_app in *. lia. }
  destruct (Z.eqb_spec rest' 0) as [->|Hne].
  { destruct t; [|simpl in Hlt; lia]. by rewrite Hht, app_nil_r. }
  assert (Hlen : Z.of_nat (length data) + 511 = 512 * sectors + (Z.of_nat (length data) + 511) mod 512).
  { unfold sectors. zmod. }
  destruct (holds_app d start (sectors - rest') h t) as [_ Hht']; [by rewrite <- Hht|done|].
  rewrite (flash_read_holds d _ rest' t) by (done || (apply Hok; lia)). rewrite Z.eqb_refl. cbn [negb].
  apply symmetry, split_prefix in Hht as (B & -> & ->); [|rewrite !length_app in *; zmod].
  apply Forall_app in Hb as [[Hbh HbB]%Forall_app Hbp]. rewrite !length_app in *.
  rewrite land_511.
  assert (Hu : u32 (Z.of_nat (length h + length B)) mod 512 = Z.of_nat (length h + length B) mod 512).
  { unfold u32. change (2 ^ 32) with 4294967296. zmod. }
  rewrite Hu. clear Hu.
  set (last := if negb _ then _ else _).
  assert (last = Z.of_nat (length B)) as ->.
  { subst last. destruct (Z.eqb_spec (Z.of_nat (length h + length B) mod 512) 0); cbn [negb].
    - rewrite u32_small by (unfold is_u32; zmod). zmod.
    - rewrite (u32_small (rest' - 1)), (u32_small ((rest' - 1) * 512)), u32_small by (unfold is_u32; zmod). zmod. }
  rewrite add_sum_words; [|done|unfold word_room; zmod]. sbind.
  rewrite word_sum_app by zmod. autorewrite with word. done.
Qed.

(** ** What the table checks accept *)

(** An MBR copy or a download map: the CRC of all but its first word is that
    word. *)
Definition crc_sealed (c : bytes) : bool := crc_ref (drop 4 c) =? le_val (take 4 c).

(** A GPT header: its CRC with the CRC field zeroed is that field. *)
Definition gpt_sealed (h : bytes) : bool :=
  crc_ref (take 16 h ++ [0; 0; 0; 0] ++ drop 20 h) =? le_val (take 4 (drop 16 h)).

Fixpoint copies_sealed (n : nat) (buf : bytes) : bool :=
  match n with
  | O => true
  | S n' => crc_sealed (take SUNXI_MBR_SIZE buf) && copies_sealed n' (drop SUNXI_MBR_SIZE buf)
  end.

Definition mbr_num : nat := if get_boot_storage_type =? STORAGE_NOR then 1 else SUNXI_MBR_COPY_NUM.

Definition table_sealed (buf : bytes) : bool :=
  if le_val (take 8 (drop GPT_HEAD_OFFSET buf)) =? GPT_HEADER_SIGNATURE
  then gpt_sealed (take sizeof_gpt_header (drop GPT_HEAD_OFFSET buf))
  else copies_sealed mbr_num buf.

Lemma crc_sealed_run addr buf :
  is_byte_list buf → (SUNXI_MBR_SIZE <= length buf)%nat →
  ucrc32 (addr + 4) 0 (drop 4 buf) (SUNXI_MBR_SIZE - 4) = Some (crc_ref (drop 4 (take SUNXI_MBR_SIZE buf))) ∧
  load_le 4 0 buf = Some (le_val (take 4 (take SUNXI_MBR_SIZE buf))).
Proof.
  intros Hb Hl. assert (4 <= SUNXI_MBR_SIZE)%nat by (unfold SUNXI_MBR_SIZE; lia).
  rewrite ucrc32_take; [|by apply Forall_drop|rewrite length_drop; lia].
  rewrite load_le_take, drop_0, take_take, Nat.min_l by lia. by rewrite skipn_firstn_comm.
Qed.

Lemma verify_mbr_copies_run n addr buf :
  is_byte_list buf → (n * SUNXI_MBR_SIZE <= length buf)%nat →
  verify_mbr_copies n addr buf = Some (if copies_sealed n buf then 0 else -1).
Proof.
  revert addr buf. induction n as [|n IH]; intros addr buf Hb Hl; cbn [verify_mbr_copies copies_sealed]; [done|].
  destruct (crc_sealed_run addr buf) as [-> ->]; [done|lia|]. sbind.
  unfold crc_sealed at 1. destruct (_ =? _); cbn [negb andb]; [|done].
  apply IH; [by apply Forall_drop|rewrite length_drop; lia].
Qed.

Lemma gpt_run addr buf :
  is_byte_list buf → (GPT_HEAD_OFFSET + sizeof_gpt_header <= length buf)%nat →
  ucrc32 (addr + Z.of_nat GPT_HEAD_OFFSET) 0
    (drop GPT_HEAD_OFFSET (splice (GPT_HEAD_OFFSET + 16) (le_bytes 4 0) buf)) sizeof_gpt_header
  = Some (let h := take sizeof_gpt_header (drop GPT_HEAD_OFFSET buf) in crc_ref (take 16 h ++ [0; 0; 0; 0] ++ drop 20 h)).
Proof.
  intros Hb Hl. set (x := drop GPT_HEAD_OFFSET buf).
  assert (Hx : is_byte_list x) by by apply Forall_drop.
  assert (Hxl : (sizeof_gpt_header <= length x)%nat) by (unfold x; rewrite length_drop; lia).
  assert (drop GPT_HEAD_OFFSET (splice (GPT_HEAD_OFFSET + 16) (le_bytes 4 0) buf)
    = take 16 x ++ [0; 0; 0; 0] ++ drop 20 x) as ->.
  { unfold splice, x. rewrite drop_app_le by (rewrite length_take; lia).
    rewrite <- take_drop_commute, drop_drop, length_le_bytes. do 2 f_equal. }
  unfold sizeof_gpt_header in *. clearbody x.
  assert (Ht : length (take 16 x) = 16%nat) by (rewrite length_take; lia).
  rewrite ucrc32_take; [cbv zeta; do 2 f_equal| |].
  - rewrite take_app_ge, Ht by lia. rewrite take_take, skipn_firstn_comm. done.
  - apply Forall_app. split; [by apply Forall_take|]. apply Forall_app. split; [|by apply Forall_drop].
    repeat constructor; lia.
  - rewrite !length_app, Ht, length_drop. simpl. lia.
Qed.

Lemma verify_mbr_run addr buf :
  is_byte_list buf → (mbr_num * SUNXI_MBR_SIZE <= length buf)%nat →
  sunxi_sprite_verify_mbr addr buf = Some (buf, if table_sealed buf then 0 else -1).
Proof.
  intros Hb Hl. unfold sunxi_sprite_verify_mbr, table_sealed.
  assert (GPT_HEAD_OFFSET + sizeof_gpt_header <= length buf)%nat as Hg.
  { unfold mbr_num, SUNXI_MBR_COPY_NUM, GPT_HEAD_OFFSET, sizeof_gpt_header, SUNXI_MBR_SIZE in *.
    destruct (_ =? _); lia. }
  rewrite (load_le_take 8) by (unfold sizeof_gpt_header in Hg; lia). sbind.
  destruct (le_val (take 8 (drop GPT_HEAD_OFFSET buf)) =? GPT_HEADER_SIGNATURE).
  - rewrite load_le_take by (unfold sizeof_gpt_header in Hg; lia). sbind. rewrite gpt_run by done. sbind. cbv zeta.
    set (bk := take 4 (drop (GPT_HEAD_OFFSET + 16) buf)).
    assert (length bk = 4%nat) as H4.
    { unfold bk. rewrite length_take, length_drop. unfold sizeof_gpt_header in Hg. lia. }
    assert (le_bytes 4 (le_val bk) = bk) as ->.
    { rewrite <- H4. apply le_bytes_val. apply Forall_take, Forall_drop. done. }
    pose proof (splice_restore (GPT_HEAD_OFFSET + 16) (le_bytes 4 0) buf) as Hr.
    rewrite length_le_bytes in Hr. fold bk in Hr. rewrite Hr by (unfold sizeof_gpt_header in Hg; lia).
    unfold gpt_sealed.
    assert (take 4 (drop 16 (take sizeof_gpt_header (drop GPT_HEAD_OFFSET buf))) = bk) as ->.
    { by rewrite skipn_firstn_comm, drop_drop, take_take. }
    by destruct (crc_ref _ =? _).
  - fold mbr_num. rewrite verify_mbr_copies_run by done. done.
Qed.

End verify.

(** ** Theorems *)

(** A board that boots from SPI NOR. *)
Definition nor_env : sprite_env := SpriteEnv true STORAGE_NOR (λ _, true).

(** Reading a partition back in blocks gives the word sum of the data
    written to it, the last word padded with zeroes, as long as its sectors
    are no multiple of a block; if they are, the padding of the last sector is
    counted in, so the sum is right only for data of whole sectors. *)
Theorem rawdata_verify_counts `{E : sprite_env} `{D : flash_driver} d start data pad :
  let sectors := (Z.of_nat (length data) + 511) / 512 in
  (∀ s n, 0 <= s → 0 < n → s + n <= start + sectors → read_ok s n = true) → start + sectors < 4294967296 →
  memalign_ok VERIFY_ONCE_BYTES = true → 0 <= start → is_byte_list (data ++ pad) →
  Z.of_nat (length (data ++ pad)) = 512 * sectors → holds d start (data ++ pad) →
  sunxi_sprite_part_rawdata_verify d start (Z.of_nat (length data)) =
    Some (u32 (word_sum (if sectors mod VERIFY_ONCE_SECTORS =? 0 then data ++ pad else data))).
Proof. apply rawdata_verify_sum. Qed.

Lemma rawdata_verify_counts_witness :
  sunxi_sprite_part_rawdata_verify (E := nor_env) (D := good_driver)
    (write_bytes ∅ 512 ([1; 2; 3; 4; 5] ++ replicate 507 9)) 1 5 = Some (u32 (word_sum [1; 2; 3; 4; 5])).
Proof.
  apply (rawdata_verify_counts (E := nor_env) (D := good_driver) _ 1 [1; 2; 3; 4; 5] (replicate 507 9)); try done.
  apply (bool_decide_unpack _). vm_compute. exact I.
Defined.

(** C33: the table check is exact and leaves the buffer alone: it accepts a
    buffer with the GPT signature if and only if the header's CRC, taken with
    the CRC field zeroed, is the stored one, and any other buffer if and only
    if every MBR copy (one on SPI NOR, four elsewhere) carries the CRC of the
    rest of the copy. *)
Theorem verify_mbr_exact `{E : sprite_env} addr buf :
  is_byte_list buf → (mbr_num * SUNXI_MBR_SIZE <= length buf)%nat →
  sunxi_sprite_verify_mbr addr buf = Some (buf, if table_sealed buf then 0 else -1).
Proof. apply verify_mbr_run. Qed.

Definition demo_gpt (crc : Z) : bytes :=
  replicate 512 0 ++ le_bytes 8 GPT_HEADER_SIGNATURE ++ le_bytes 4 0x10000 ++ le_bytes 4 92 ++ le_bytes 4 crc
  ++ replicate (SUNXI_MBR_SIZE - 532) 0.

Lemma verify_mbr_exact_witness :
  let buf := demo_gpt (crc_ref (take 92 (drop 512 (demo_gpt 0)))) in
  sunxi_sprite_verify_mbr (E := nor_env) 0x42000000 buf = Some (buf, 0).
Proof.
  intros buf. rewrite (verify_mbr_exact (E := nor_env) 0x42000000 buf).
  - assert (table_sealed (E := nor_env) buf = true) as -> by (vm_compute; reflexivity). done.
  - apply (bool_decide_unpack _). vm_compute. exact I.
  - apply (bool_decide_unpack _). vm_compute. exact I.
Defined.

(** The download map is accepted exactly when its first word is the CRC of the
    rest. *)
Theorem verify_dlmap_exact addr buf :
  is_byte_list buf → length buf = SUNXI_MBR_SIZE →
  sunxi_sprite_verify_dlmap addr buf = Some (if crc_sealed buf then 0 else -1).
Proof.
  intros Hb Hl. unfold sunxi_sprite_verify_dlmap.
  destruct (crc_sealed_run addr buf) as [-> ->]; [done|lia|]. sbind.
  rewrite firstn_all2 by lia. unfold crc_sealed. by destruct (_ =? _).
Qed.
