(* ===== verification/ImgDecode.v ===== *)
(** * Firmware images (u-boot-2018/sprite/firmware/imgdecode.c)

    The firmware on the card is a head of 1 KiB, a table of 1 KiB items and
    the files.  [Img_Open] reads the head and the table, [Img_OpenItem] finds
    a file by its sub type, and the other functions answer where the file
    lies, how long it is and read it whole.  The structs of imagefile_new.h
    are the byte strings they are read as; an item handle is the index it
    carries, [None] the null pointer.

    The theorems: [Img_OpenItem] returns the first item with the wanted sub
    type; [Img_ReadItem] never writes past the caller's buffer and yields the
    bytes of the file; a firmware image laid out as the format says is opened
    and read back. *)

From S2P Require Import Prelude Mem CString Flash Sparse SpriteVerify.

Local Open Scope Z_scope.
Local Open Scope c_scope.

(** ** Layout *)

(** "IMAGEWTY" *)
Definition IMAGE_MAGIC : bytes := [0x49; 0x4d; 0x41; 0x47; 0x45; 0x57; 0x54; 0x59].
Definition IMAGE_HEAD_SIZE : Z := 1024.
Definition SUBTYPE_LEN : nat := 16.
Definition sizeof_ImageItem : nat := 1024.

(** Offsets in [ImageHead_t] and [ImageItem_t]. *)
Definition off_lenLo : nat := 24.
Definition off_lenHi : nat := 28.
Definition off_itemcount : nat := 60.
Definition off_subType : nat := 16.
Definition off_filelenLo : nat := 300.
Definition off_filelenHi : nat := 304.
Definition off_offsetLo : nat := 308.
Definition off_offsetHi : nat := 312.

(** [IMAGE_HANDLE] and the global [img_file_start]. *)
Record image_handle := ImageHandle {
  ImageHead : bytes;
  ItemTable : bytes;
  img_file_start : Z
}.

(** A signed 64-bit value. *)
Definition s64 (x : Z) : Z := (x + 2 ^ 63) mod 2 ^ 64 - 2 ^ 63.

(** [memcmp] of U-Boot's lib/string.c; the difference is an [int]. *)
Fixpoint umemcmp (cs ct : bytes) (count : nat) {struct count} : option Z :=
  match count with
  | O => Some 0
  | S count' =>
      match cs, ct with
      | x :: cs', y :: ct' => if negb (x - y =? 0) then Some (x - y) else umemcmp cs' ct' count'
      | _, _ => None
      end
  end.

(** A field of item [index]. *)
Definition item_field (img : image_handle) (index : Z) (n off : nat) : option Z :=
  load_le n (Z.to_nat index * sizeof_ImageItem + off) (ItemTable img).

Definition itemcount (img : image_handle) : option Z := load_le 4 off_itemcount (ImageHead img).

(** [x = hi; x <<= 32; x |= lo] on a [long long]. *)
Definition wide (hi lo : Z) : Z := Z.lor (s64 (Z.shiftl hi 32)) lo.

Section code.
Context `{E : sprite_env} `{D : flash_driver}.

(** ** Opening *)

(** [start] is the answer of [sprite_card_firmware_start]; the outer option
    is an access outside a buffer, the inner one the null pointer. *)
Definition Img_Open (card : disk) (start : Z) : option (option image_handle) :=
  let img_file_start := u32 start in
  if img_file_start =? 0 then Some None
  else if negb (memalign_ok 1088) then Some None
  else
    let '(r, head) := flash_read card img_file_start (IMAGE_HEAD_SIZE / 512) in
    if r =? 0 then Some None
    else
      c ← umemcmp head IMAGE_MAGIC 8;
      if negb (c =? 0) then Some None
      else
        count ← load_le 4 off_itemcount head;
        let ItemTableSize := count ⊠ Z.of_nat sizeof_ImageItem in
        if negb (memalign_ok ItemTableSize) then Some None
        else
          let '(r, table) := flash_read card (img_file_start ⊞ IMAGE_HEAD_SIZE / 512) (ItemTableSize / 512) in
          if r =? 0 then Some None
          else Some (Some (ImageHandle head table img_file_start)).

Definition Img_GetSize (hImage : option image_handle) : option Z :=
  match hImage with
  | None => Some 0
  | Some img =>
      hi ← load_le 4 off_lenHi (ImageHead img);
      lo ← load_le 4 off_lenLo (ImageHead img);
      Some (wide hi lo)
  end.

(** The loop over the item table. *)
Fixpoint open_loop (n : nat) (i : Z) (img : image_handle) (subType : bytes) : option (option Z) :=
  match n with
  | O => Some None
  | S n' =>
      let item := drop (Z.to_nat i * sizeof_ImageItem + off_subType) (ItemTable img) in
      img_subtype_len ← strnlen item SUBTYPE_LEN;
      subtype_len ← strnlen subType SUBTYPE_LEN;
      if Nat.eqb img_subtype_len subtype_len then
        c ← umemcmp subType item SUBTYPE_LEN;
        if c =? 0 then Some (Some i) else open_loop n' (i + 1) img subType
      else open_loop n' (i + 1) img subType
  end.

Definition Img_OpenItem (hImage : option image_handle) (subType : bytes) : option (option Z) :=
  match hImage with
  | None => Some None
  | Some img =>
      if negb (memalign_ok 64) then Some None
      else
        count ← itemcount img;
        open_loop (Z.to_nat count) 0 img subType
  end.

(** ** Where and how long *)

Definition Img_GetItemSize (img : image_handle) (hItem : option Z) : option Z :=
  match hItem with
  | None => Some 0
  | Some index =>
      hi ← item_field img index 4 off_filelenHi;
      lo ← item_field img index 4 off_filelenLo;
      Some (wide hi lo)
  end.

Definition item_offset (img : image_handle) (index : Z) : option Z :=
  hi ← item_field img index 4 off_offsetHi;
  lo ← item_field img index 4 off_offsetLo;
  Some (wide hi lo).

Definition Img_GetItemStart (img : image_handle) (hItem : option Z) : option Z :=
  match hItem with
  | None => Some 0
  | Some index =>
      offset ← item_offset img index;
      Some (u32 (Z.quot offset 512) ⊞ img_file_start img)
  end.

Definition Img_GetItemOffset (img : image_handle) (hItem : option Z) : option Z :=
  match hItem with
  | None => Some 0
  | Some index => offset ← item_offset img index; Some (u32 offset)
  end.

(** ** Reading a whole file *)

(** The buffer after the call and the return value. *)
Definition Img_ReadItem (card : disk) (img : image_handle) (hItem : option Z) (buffer : bytes) (buffer_size : Z) :
    option (bytes * Z) :=
  match hItem with
  | None => Some (buffer, 0)
  | Some index =>
      hi ← item_field img index 4 off_filelenHi;
      if negb (hi =? 0) then Some (buffer, 0)
      else
        lo ← item_field img index 4 off_filelenLo;
        let file_size := Z.land (lo ⊞ 1023) (Z.lnot 1023) in
        if buffer_size <? file_size then Some (buffer, 0)
        else
          offset ← item_offset img index;
          let '(r, data) := flash_read card (u32 (Z.quot offset 512) ⊞ img_file_start img) (file_size / 512) in
          if r =? 0 then Some (buffer, 0) else Some (splice 0 data buffer, file_size)
  end.

(** ** Closing *)

(** The handle is freed: the caller's pointer is dead afterwards. *)
Definition Img_CloseItem (hItem : option Z) : Z := match hItem with None => -1 | Some _ => 0 end.

(** ** Lemmas *)

Lemma umemcmp_spec a b n :
  (n <= length a)%nat → (n <= length b)%nat → ∃ r, umemcmp a b n = Some r ∧ (r = 0 ↔ take n a = take n b).
Proof.
  revert a b. induction n as [|n IH]; intros a b Ha Hb; [by exists 0|].
  destruct a as [|x a], b as [|y b]; simpl in Ha, Hb; try lia. cbn [umemcmp take].
  destruct (Z.eqb_spec (x - y) 0) as [Hxy|Hxy]; cbn [negb].
  - destruct (IH a b) as (r & -> & Hr); [lia..|]. exists r. split; [done|]. rewrite Hr.
    assert (x = y) as -> by lia. split; [by intros ->|by intros [= ->]].
  - eexists. split; [done|]. split; [done|]. intros [= -> _]. lia.
Qed.

Lemma strnlen_take a n : (n <= length a)%nat → ∃ k, strnlen a n = Some k ∧ strnlen (take n a) n = Some k.
Proof.
  revert a. induction n as [|n IH]; intros a Ha; [by exists 0%nat|].
  destruct a as [|x a]; simpl in Ha; [lia|]. cbn [strnlen take]. destruct (x =? 0); [by exists 0%nat|].
  destruct (IH a) as (k & -> & ->); [lia|]. by exists (S k).
Qed.

(** The sub type of an item. *)
Definition subtype_at (img : image_handle) (i : Z) : bytes :=
  take SUBTYPE_LEN (drop (Z.to_nat i * sizeof_ImageItem + off_subType) (ItemTable img)).

Lemma open_loop_spec n i img subType :
  (SUBTYPE_LEN <= length subType)%nat → 0 <= i →
  ((Z.to_nat i + n) * sizeof_ImageItem <= length (ItemTable img))%nat →
  ∃ r, open_loop n i img subType = Some r ∧
    match r with
    | Some k => i <= k < i + Z.of_nat n ∧ subtype_at img k = take SUBTYPE_LEN subType ∧
                ∀ j, i <= j < k → subtype_at img j ≠ take SUBTYPE_LEN subType
    | None => ∀ j, i <= j < i + Z.of_nat n → subtype_at img j ≠ take SUBTYPE_LEN subType
    end.
Proof.
  intros Hsub. revert i. induction n as [|n IH]; intros i Hi Hl; cbn [open_loop]; [exists None; split; [done|lia]|].
  set (item := drop _ (ItemTable img)).
  assert (Hit : (SUBTYPE_LEN <= length item)%nat).
  { unfold item. rewrite length_drop. unfold sizeof_ImageItem, off_subType, SUBTYPE_LEN in *. lia. }
  assert (Hat : subtype_at img i = take SUBTYPE_LEN item) by done.
  destruct (strnlen_take item SUBTYPE_LEN Hit) as (k1 & -> & E1).
  destruct (strnlen_take subType SUBTYPE_LEN Hsub) as (k2 & -> & E2). sbind.
  destruct (umemcmp_spec subType item SUBTYPE_LEN Hsub Hit) as (c & Hc & Hc0).
  destruct (IH (i + 1)) as (r & Hr & Hspec);
    [lia|replace (Z.to_nat (i + 1)) with (S (Z.to_nat i)) by lia; rewrite Nat.add_succ_l, <- Nat.add_succ_r; done|].
  assert (Hno : subtype_at img i ≠ take SUBTYPE_LEN subType →
    ∃ r, open_loop n (i + 1) img subType = Some r ∧
    match r with
    | Some k => i <= k < i + Z.of_nat (S n) ∧ subtype_at img k = take SUBTYPE_LEN subType ∧
                ∀ j, i <= j < k → subtype_at img j ≠ take SUBTYPE_LEN subType
    | None => ∀ j, i <= j < i + Z.of_nat (S n) → subtype_at img j ≠ take SUBTYPE_LEN subType
    end).
  { intros Hne. exists r. split; [done|]. destruct r as [k|].
    - destruct Hspec as (H1 & H2 & H3). split_and!; [lia..|done|].
      intros j Hj. destruct (decide (j = i)) as [->|]; [done|apply H3; lia].
    - intros j Hj. destruct (decide (j = i)) as [->|]; [done|apply Hspec; lia]. }
  destruct (Nat.eqb_spec k1 k2) as [->|Hk].
  - rewrite Hc. sbind. destruct (Z.eqb_spec c 0) as [Hz|Hz].
    + exists (Some i). split; [done|]. split_and!; [lia..| |lia]. rewrite Hat. by apply symmetry, Hc0.
    + apply Hno. rewrite Hat. intros Heq. by apply Hz, Hc0.
  - apply Hno. rewrite Hat. intros Heq. rewrite Heq in E1. congruence.
Qed.

Lemma wide_val hi lo : 0 <= hi < 2147483648 → 0 <= lo < 4294967296 → wide hi lo = hi * 4294967296 + lo.
Proof.
  intros Hh Hl. unfold wide, s64. rewrite Z.shiftl_mul_pow2 by lia. change (2 ^ 32) with 4294967296.
  change (2 ^ 63) with 9223372036854775808. change (2 ^ 64) with 18446744073709551616.
  rewrite Z.mod_small by lia. replace (_ - _) with (hi * 4294967296) by lia.
  assert (Z.land (hi * 4294967296) lo = 0) as H0.
  { change 4294967296 with (2 ^ 32). bits_ext n Hn. rewrite Z.land_spec, Z.bits_0.
    destruct (decide (n < 32)).
    - by rewrite Z.mul_pow2_bits_low by lia.
    - rewrite (testbit_above lo 32 n) by lia. apply andb_false_r. }
  rewrite <- Z.lxor_lor, <- Z.add_nocarry_lxor by done. done.
Qed.

(** ** A firmware image *)

(** A file of the firmware: its sub type, its position and length in bytes,
    and the other fields of its item, whatever they hold. *)
Record fw_file := FwFile {
  f_pre : bytes;
  f_sub : bytes;
  f_mid : bytes;
  f_len : Z;
  f_off : Z;
  f_post : bytes
}.

Definition enc_item (f : fw_file) : bytes :=
  f_pre f ++ f_sub f ++ f_mid f ++ le_bytes 4 (f_len f mod 4294967296) ++ le_bytes 4 (f_len f / 4294967296)
  ++ le_bytes 4 (f_off f mod 4294967296) ++ le_bytes 4 (f_off f / 4294967296) ++ f_post f.

Definition wf_file (f : fw_file) : Prop :=
  length (f_pre f) = 16%nat ∧ length (f_sub f) = 16%nat ∧ length (f_mid f) = 268%nat ∧ length (f_post f) = 708%nat ∧
  0 <= f_len f < 9223372036854775808 ∧ 0 <= f_off f < 9223372036854775808.

Record fw_head := FwHead { h_mid : bytes; h_post : bytes }.

Definition enc_head (h : fw_head) (count : Z) : bytes :=
  IMAGE_MAGIC ++ h_mid h ++ le_bytes 4 count ++ h_post h.

Definition wf_head (h : fw_head) : Prop := length (h_mid h) = 52%nat ∧ length (h_post h) = 960%nat.

(** The handle of the image. *)
Definition fw_handle (h : fw_head) (files : list fw_file) (start : Z) : image_handle :=
  ImageHandle (enc_head h (Z.of_nat (length files))) (concat (enc_item <$> files)) start.

Lemma length_enc_item f : wf_file f → length (enc_item f) = sizeof_ImageItem.
Proof.
  intros (H1 & H2 & H3 & H4 & _). unfold enc_item. rewrite !length_app, !length_le_bytes, H1, H2, H3, H4. done.
Qed.

Lemma length_items files :
  Forall wf_file files → length (concat (enc_item <$> files)) = (length files * sizeof_ImageItem)%nat.
Proof.
  induction 1 as [|f files Hf _ IH]; [done|]. cbn [fmap list_fmap concat]. rewrite length_app, IH, length_enc_item by done.
  simpl length. lia.
Qed.

(** Item [i] of the table, followed by the rest of it. *)
Lemma drop_items files i f :
  Forall wf_file files → files !! i = Some f →
  ∃ r, drop (i * sizeof_ImageItem) (concat (enc_item <$> files)) = enc_item f ++ r.
Proof.
  intros Hw. revert i. induction Hw as [|g files Hg _ IH]; intros i Hi; [done|].
  cbn [fmap list_fmap concat]. destruct i as [|i]; [injection Hi as ->; eexists; rewrite drop_0; done|].
  destruct (IH i Hi) as [r Hr]. exists r. rewrite <- Hr. rewrite drop_app_ge by (rewrite length_enc_item by done; lia).
  f_equal. rewrite length_enc_item by done. lia.
Qed.

Lemma load_le_drop n k off l : (k <= length l)%nat → load_le n (k + off) l = load_le n off (drop k l).
Proof.
  intros Hk. unfold load_le, slice. rewrite length_drop, drop_drop.
  destruct (decide (off + n <= length l - k)%nat), (decide (k + off + n <= length l)%nat); try lia; done.
Qed.

Lemma item_fields h files start i f :
  Forall wf_file files → files !! i = Some f →
  let img := fw_handle h files start in
  item_field img (Z.of_nat i) 4 off_filelenLo = Some (f_len f mod 4294967296) ∧
  item_field img (Z.of_nat i) 4 off_filelenHi = Some (f_len f / 4294967296) ∧
  item_field img (Z.of_nat i) 4 off_offsetLo = Some (f_off f mod 4294967296) ∧
  item_field img (Z.of_nat i) 4 off_offsetHi = Some (f_off f / 4294967296).
Proof.
  intros Hw Hi img. unfold item_field. rewrite Nat2Z.id. cbn [ItemTable img fw_handle].
  assert (Hlt : (i < length files)%nat) by by apply lookup_lt_is_Some_1; eauto.
  assert (wf_file f) as (H1 & H2 & H3 & H4 & H5 & H6) by by eapply Forall_lookup_1.
  rewrite !load_le_drop by (rewrite length_items by done; apply Nat.mul_le_mono_r; lia).
  destruct (drop_items files i f Hw Hi) as [r ->].
  assert (Hat : ∀ k x pre post, enc_item f = pre ++ le_bytes 4 x ++ post → length pre = k → 0 <= x < 4294967296 →
                load_le 4 k (enc_item f ++ r) = Some x).
  { intros k x pre post -> <- Hx. rewrite <- !app_assoc. by apply load_le_bytes. }
  assert (Hp : length (f_pre f ++ f_sub f ++ f_mid f) = 300%nat) by (rewrite !length_app; lia).
  set (p := f_pre f ++ f_sub f ++ f_mid f) in *.
  set (a := le_bytes 4 (f_len f mod 4294967296)). set (b := le_bytes 4 (f_len f / 4294967296)).
  set (c := le_bytes 4 (f_off f mod 4294967296)). set (e := le_bytes 4 (f_off f / 4294967296)).
  assert (He : enc_item f = p ++ a ++ b ++ c ++ e ++ f_post f) by (unfold enc_item, p; by rewrite <- !app_assoc).
  split_and!.
  - apply (Hat _ _ p (b ++ c ++ e ++ f_post f)); [done..|zmod].
  - apply (Hat _ _ (p ++ a) (c ++ e ++ f_post f)); [by rewrite <- !app_assoc|rewrite length_app, Hp; done|zmod].
  - apply (Hat _ _ (p ++ a ++ b) (e ++ f_post f)); [by rewrite <- !app_assoc|rewrite length_app, Hp; done|zmod].
  - apply (Hat _ _ (p ++ a ++ b ++ c) (f_post f)); [by rewrite <- !app_assoc|rewrite length_app, Hp; done|zmod].
Qed.

Lemma wide_split x : 0 <= x < 9223372036854775808 → wide (x / 4294967296) (x mod 4294967296) = x.
Proof. intros Hx. rewrite wide_val; zmod. Qed.

Lemma fw_item_size h files start i f :
  Forall wf_file files → files !! i = Some f →
  Img_GetItemSize (fw_handle h files start) (Some (Z.of_nat i)) = Some (f_len f).
Proof.
  intros Hw Hi. destruct (item_fields h files start i f Hw Hi) as (E1 & E2 & _).
  assert (wf_file f) as (_ & _ & _ & _ & H5 & _) by by eapply Forall_lookup_1.
  unfold Img_GetItemSize. rewrite E1, E2. sbind. by rewrite wide_split.
Qed.

Lemma fw_item_offset h files start i f :
  Forall wf_file files → files !! i = Some f →
  item_offset (fw_handle h files start) (Z.of_nat i) = Some (f_off f).
Proof.
  intros Hw Hi. destruct (item_fields h files start i f Hw Hi) as (_ & _ & E3 & E4).
  assert (wf_file f) as (_ & _ & _ & _ & _ & H6) by by eapply Forall_lookup_1.
  unfold item_offset. rewrite E3, E4. sbind. by rewrite wide_split.
Qed.

Lemma fw_item_start h files start i f :
  Forall wf_file files → files !! i = Some f → 0 <= start → f_off f / 512 + start < 4294967296 →
  Img_GetItemStart (fw_handle h files start) (Some (Z.of_nat i)) = Some (f_off f / 512 + start).
Proof.
  intros Hw Hi Hs Hlt. unfold Img_GetItemStart. rewrite (fw_item_offset h files start i f) by done. sbind.
  assert (wf_file f) as (_ & _ & _ & _ & _ & H6) by by eapply Forall_lookup_1.
  cbn [img_file_start fw_handle]. rewrite Z.quot_div_nonneg by lia.
  by rewrite (u32_small (f_off f / 512)), u32_small by (unfold is_u32; zmod).
Qed.

Lemma fw_subtype h files start i f :
  Forall wf_file files → files !! i = Some f → subtype_at (fw_handle h files start) (Z.of_nat i) = f_sub f.
Proof.
  intros Hw Hi. unfold subtype_at. rewrite Nat2Z.id, <- drop_drop. cbn [ItemTable fw_handle].
  destruct (drop_items files i f Hw Hi) as [r ->].
  assert (wf_file f) as (H1 & H2 & _) by by eapply Forall_lookup_1.
  unfold enc_item. rewrite <- !app_assoc. change off_subType with 16%nat. change SUBTYPE_LEN with 16%nat.
  rewrite drop_app_length' by done. by apply take_app_length'.
Qed.

Lemma fw_itemcount h files start :
  wf_head h → Z.of_nat (length files) < 4294967296 →
  itemcount (fw_handle h files start) = Some (Z.of_nat (length files)).
Proof.
  intros [H1 H2] Hc. unfold itemcount. cbn [ImageHead fw_handle]. unfold enc_head. rewrite app_assoc.
  assert (length (IMAGE_MAGIC ++ h_mid h) = off_itemcount) as <- by (rewrite length_app, H1; done).
  apply load_le_bytes. change (256 ^ Z.of_nat 4) with 4294967296. lia.
Qed.

(** The first file of its sub type is found. *)
Lemma fw_open_item h files start i f name :
  memalign_ok 64 = true → wf_head h → Forall wf_file files → Z.of_nat (length files) < 4294967296 →
  files !! i = Some f → (SUBTYPE_LEN <= length name)%nat → take SUBTYPE_LEN name = f_sub f →
  (∀ j g, (j < i)%nat → files !! j = Some g → f_sub g ≠ f_sub f) →
  Img_OpenItem (Some (fw_handle h files start)) name = Some (Some (Z.of_nat i)).
Proof.
  intros Hm Hh Hw Hc Hi Hn Hname Hfirst. unfold Img_OpenItem. rewrite Hm. cbn [negb].
  rewrite fw_itemcount by done. sbind. rewrite Nat2Z.id.
  destruct (open_loop_spec (length files) 0 (fw_handle h files start) name) as (r & -> & Hr);
    [done|lia|cbn [ItemTable fw_handle]; by rewrite length_items|].
  assert (Hlt : (i < length files)%nat) by by apply lookup_lt_is_Some_1; eauto.
  assert (Hfi := fw_subtype h files start i f Hw Hi). rewrite Hname in Hr.
  destruct r as [k|]; [|exfalso; by apply (Hr (Z.of_nat i)); [lia|]].
  destruct Hr as (Hk & Hsub & Hno). do 2 f_equal.
  destruct (Z.lt_trichotomy k (Z.of_nat i)) as [Hlt'|[->|Hgt]]; [|done|].
  - exfalso. destruct (lookup_lt_is_Some_2 files (Z.to_nat k)) as [g Hg]; [lia|].
    apply (Hfirst (Z.to_nat k) g); [lia|done|]. rewrite <- (fw_subtype h files start (Z.to_nat k) g Hw Hg).
    by rewrite Z2Nat.id by lia.
  - exfalso. by apply (Hno (Z.of_nat i)); [lia|].
Qed.

Lemma fw_open card h files start :
  (∀ n, memalign_ok n = true) → (∀ s n, 0 < n → read_ok s n = true) →
  wf_head h → Forall wf_file files → 0 < Z.of_nat (length files) < 4194304 → 0 < start < 4294967294 →
  holds card start (enc_head h (Z.of_nat (length files)) ++ concat (enc_item <$> files)) →
  Img_Open card start = Some (Some (fw_handle h files start)).
Proof.
  intros Hm Hok Hh Hw Hc Hs Hcard. unfold Img_Open. rewrite (u32_small start) by (unfold is_u32; lia).
  rewrite (proj2 (Z.eqb_neq start 0)) by lia. rewrite !Hm. cbn [negb].
  assert (length (enc_head h (Z.of_nat (length files))) = 1024%nat) as Hl.
  { destruct Hh as [H1 H2]. unfold enc_head. rewrite !length_app, length_le_bytes, H1, H2. done. }
  apply (holds_app card start 2) in Hcard as [Hc1 Hc2]; [|rewrite Hl; done].
  change (IMAGE_HEAD_SIZE / 512) with 2. rewrite (flash_read_holds card start 2 _) by (rewrite ?Hl; auto with lia).
  cbn [Z.eqb]. destruct (umemcmp_spec (enc_head h (Z.of_nat (length files))) IMAGE_MAGIC 8) as (c & -> & Hc0);
    [rewrite Hl; lia|simpl; lia|]. sbind. rewrite (proj2 Hc0) by done. cbn [negb Z.eqb].
  pose proof (fw_itemcount h files start Hh) as Hcount. unfold itemcount in Hcount. cbn [ImageHead fw_handle] in Hcount.
  rewrite Hcount by lia. sbind.
  rewrite (u32_small (_ * _)) by (unfold is_u32, sizeof_ImageItem; lia). rewrite Hm. cbn [negb].
  rewrite u32_small by (unfold is_u32; lia).
  rewrite (flash_read_holds card (start + 2) _ (concat (enc_item <$> files)));
    [|apply Hok; unfold sizeof_ImageItem; zmod|rewrite length_items by done; unfold sizeof_ImageItem; zmod|done].
  rewrite (proj2 (Z.eqb_neq _ 0)) by (unfold sizeof_ImageItem; zmod). done.
Qed.

Lemma align_1024 x : Z.land x (Z.lnot 1023) = 1024 * (x / 1024).
Proof.
  rewrite <- Z.ldiff_land. change 1023 with (Z.ones 10). rewrite Z.ldiff_ones_r by lia.
  rewrite Z.shiftl_mul_pow2, Z.shiftr_div_pow2 by lia. change (2 ^ 10) with 1024. lia.
Qed.

(** A file is read with its padding to 1 KiB. *)
Lemma fw_read_item card h files start i f data pad buffer size :
  (∀ s n, 0 < n → read_ok s n = true) → Forall wf_file files → files !! i = Some f →
  0 <= start → f_off f / 512 + start < 4294967296 →
  Z.of_nat (length data) = f_len f → 0 < f_len f < 4294966272 →
  Z.of_nat (length (data ++ pad)) = 1024 * ((f_len f + 1023) / 1024) → Z.of_nat (length (data ++ pad)) <= size →
  holds card (f_off f / 512 + start) (data ++ pad) →
  Img_ReadItem card (fw_handle h files start) (Some (Z.of_nat i)) buffer size =
    Some (splice 0 (data ++ pad) buffer, Z.of_nat (length (data ++ pad))).
Proof.
  intros Hok Hw Hi Hs Hlt Hd Hlen Hp Hsize Hcard. unfold Img_ReadItem.
  destruct (item_fields h files start i f Hw Hi) as (E1 & E2 & _). rewrite E1, E2. sbind.
  replace (f_len f / 4294967296) with 0 by zmod. cbn [negb Z.eqb].
  rewrite (Z.mod_small (f_len f)), (u32_small (f_len f + 1023)) by (unfold is_u32; lia). rewrite align_1024, <- Hp.
  destruct (Z.ltb_spec size (Z.of_nat (length (data ++ pad)))); [lia|].
  rewrite (fw_item_offset h files start i f) by done. sbind. cbn [img_file_start fw_handle].
  assert (wf_file f) as (_ & _ & _ & _ & _ & H6) by by eapply Forall_lookup_1.
  rewrite Z.quot_div_nonneg, (u32_small (f_off f / 512)), (u32_small (f_off f / 512 + _)) by (unfold is_u32; zmod).
  rewrite (flash_read_holds card _ _ (data ++ pad)); [|apply Hok; zmod|zmod|done].
  rewrite (proj2 (Z.eqb_neq _ 0)) by zmod. done.
Qed.

End code.

(** ** Theorems *)

(** C23: a firmware image is read back: when the card holds the head and item
    table of some files, whatever their other fields, [Img_Open] opens it, and
    for every file that is the first of its sub type [Img_OpenItem] finds its
    item, [Img_GetItemSize] and [Img_GetItemStart] return its length and
    sector, and [Img_ReadItem] copies it, padded to 1 KiB, to the start of a
    large enough buffer. *)
Theorem firmware_read_back `{E : sprite_env} `{D : flash_driver} card h files start i f name data pad buffer size :
  (∀ n, memalign_ok n = true) → (∀ s n, 0 < n → read_ok s n = true) →
  wf_head h → Forall wf_file files → Z.of_nat (length files) < 4194304 → 0 < start < 4294967294 →
  holds card start (enc_head h (Z.of_nat (length files)) ++ concat (enc_item <$> files)) →
  files !! i = Some f → (SUBTYPE_LEN <= length name)%nat → take SUBTYPE_LEN name = f_sub f →
  (∀ j g, (j < i)%nat → files !! j = Some g → f_sub g ≠ f_sub f) →
  f_off f / 512 + start < 4294967296 → Z.of_nat (length data) = f_len f → 0 < f_len f < 4294966272 →
  Z.of_nat (length (data ++ pad)) = 1024 * ((f_len f + 1023) / 1024) → Z.of_nat (length (data ++ pad)) <= size →
  holds card (f_off f / 512 + start) (data ++ pad) →
  ∃ img, Img_Open card start = Some (Some img) ∧
    Img_OpenItem (Some img) name = Some (Some (Z.of_nat i)) ∧
    Img_GetItemSize img (Some (Z.of_nat i)) = Some (f_len f) ∧
    Img_GetItemStart img (Some (Z.of_nat i)) = Some (f_off f / 512 + start) ∧
    Img_ReadItem card img (Some (Z.of_nat i)) buffer size =
      Some (splice 0 (data ++ pad) buffer, Z.of_nat (length (data ++ pad))).
Proof.
  intros Hm Hok Hh Hw Hc Hs Hcard Hi Hn Hname Hfirst Hlt Hd Hlen Hp Hsize Hdata.
  assert (i < length files)%nat by by apply lookup_lt_is_Some_1; eauto.
  exists (fw_handle h files start). split_and!.
  - apply fw_open; auto with lia.
  - eapply fw_open_item; eauto with lia.
  - by apply fw_item_size.
  - apply fw_item_start; auto with lia.
  - eapply fw_read_item; eauto with lia.
Qed.

Definition demo_file : fw_file :=
  FwFile (replicate 16 1) (replicate 16 66) (replicate 268 2) 3 2048 (replicate 708 3).
Definition demo_head : fw_head := FwHead (replicate 52 4) (replicate 960 5).
Definition demo_card : disk :=
  write_bytes ∅ 512 ((enc_head demo_head 1 ++ enc_item demo_file ++ [7; 8; 9]) ++ replicate 1021 0).
Definition demo_env : sprite_env := SpriteEnv false STORAGE_EMMC (λ _, true).

Lemma firmware_read_back_witness :
  ∃ img, Img_Open (E := demo_env) (D := good_driver) demo_card 1 = Some (Some img) ∧
    Img_OpenItem (E := demo_env) (Some img) (replicate 17 66) = Some (Some 0) ∧
    Img_GetItemSize img (Some 0) = Some 3 ∧ Img_GetItemStart img (Some 0) = Some 5 ∧
    Img_ReadItem (D := good_driver) demo_card img (Some 0) (replicate 1024 0) 1024 =
      Some (splice 0 ([7; 8; 9] ++ replicate 1021 0) (replicate 1024 0), 1024).
Proof.
  apply (firmware_read_back (E := demo_env) (D := good_driver) demo_card demo_head [demo_file] 1 0 demo_file
    (replicate 17 66) [7; 8; 9] (replicate 1021 0) (replicate 1024 0) 1024); try done.
  - repeat constructor; done.
  - apply (bool_decide_unpack _). vm_compute. exact I.
  - intros j g Hj. lia.
Defined.

(** [Img_ReadItem] never writes past the buffer it is given, whatever the
    card and the item table hold: it returns at most [buffer_size], keeps the
    buffer's length and changes no byte after the returned length. *)
Theorem read_item_in_bounds `{D : flash_driver} card img hItem buffer size buffer' ret :
  0 <= size <= Z.of_nat (length buffer) →
  Img_ReadItem card img hItem buffer size = Some (buffer', ret) →
  0 <= ret <= size ∧ length buffer' = length buffer ∧ drop (Z.to_nat ret) buffer' = drop (Z.to_nat ret) buffer.
Proof.
  intros Hs H. unfold Img_ReadItem in H. destruct hItem as [index|]; [|some_inv; done || (split_and!; done || lia)].
  apply bind_Some_inv in H as (hi & _ & H). destruct (negb (hi =? 0)); [some_inv; split_and!; done || lia|].
  apply bind_Some_inv in H as (lo & _ & H). rewrite align_1024 in H.
  destruct (Z.ltb_spec size (1024 * ((lo ⊞ 1023) / 1024))); [some_inv; split_and!; done || lia|].
  apply bind_Some_inv in H as (offset & _ & H).
  pose proof (u32_bound (lo + 1023)) as Hu. unfold is_u32 in Hu. set (x := lo ⊞ 1023) in *. clearbody x.
  destruct (flash_read card _ _) as [r data] eqn:Er. destruct (Z.eqb_spec r 0); [some_inv; split_and!; done || lia|].
  apply flash_read_length in Er; [|done]. some_inv. unfold splice. rewrite take_0. cbn [app plus].
  rewrite length_app, length_drop. split_and!; [zmod..|].
  rewrite drop_app_ge by zmod. rewrite drop_drop. f_equal. zmod.
Qed.

Lemma read_item_in_bounds_witness :
  ∃ buffer' ret,
    Img_ReadItem (D := good_driver) demo_card (fw_handle demo_head [demo_file] 1) (Some 0) (replicate 1100 0) 1100 =
      Some (buffer', ret) ∧
    0 <= ret <= 1100 ∧ length buffer' = length (replicate 1100 0) ∧
    drop (Z.to_nat ret) buffer' = drop (Z.to_nat ret) (replicate 1100 0).
Proof.
  assert (is_Some (Img_ReadItem (D := good_driver) demo_card (fw_handle demo_head [demo_file] 1) (Some 0)
                     (replicate 1100 0) 1100)) as [[b r] H] by (vm_compute; eauto).
  exists b, r. split; [exact H|].
  refine (read_item_in_bounds (D := good_driver) _ _ _ _ _ _ _ _ H). split; [lia|].
  rewrite length_replicate. lia.
Defined.

(** [Img_OpenItem] returns the first item of the table whose 16-byte sub
    type is the one asked for, and null exactly when there is none; the main
    type is never looked at. *)
Theorem open_item_first `{E : sprite_env} img subType count :
  memalign_ok 64 = true → itemcount img = Some count → 0 <= count →
  (Z.to_nat count * sizeof_ImageItem <= length (ItemTable img))%nat → (SUBTYPE_LEN <= length subType)%nat →
  ∃ r, Img_OpenItem (Some img) subType = Some r ∧
    match r with
    | Some k => 0 <= k < count ∧ subtype_at img k = take SUBTYPE_LEN subType ∧
                ∀ j, 0 <= j < k → subtype_at img j ≠ take SUBTYPE_LEN subType
    | None => ∀ j, 0 <= j < count → subtype_at img j ≠ take SUBTYPE_LEN subType
    end.
Proof.
  intros Hm Hc Hpos Hl Hs. unfold Img_OpenItem. rewrite Hm, Hc. cbn [negb]. sbind.
  destruct (open_loop_spec (Z.to_nat count) 0 img subType) as (r & -> & Hr); [done|lia|done|].
  exists r. split; [done|]. by rewrite Z.add_0_l, Z2Nat.id in Hr by lia.
Qed.

Lemma open_item_first_witness :
  ∃ r, Img_OpenItem (E := demo_env) (Some (fw_handle demo_head [demo_file] 1)) (replicate 16 67) = Some r ∧
    match r with
    | Some k => 0 <= k < 1 ∧ subtype_at (fw_handle demo_head [demo_file] 1) k = take SUBTYPE_LEN (replicate 16 67) ∧
                ∀ j, 0 <= j < k → subtype_at (fw_handle demo_head [demo_file] 1) j ≠ take SUBTYPE_LEN (replicate 16 67)
    | None => ∀ j, 0 <= j < 1 → subtype_at (fw_handle demo_head [demo_file] 1) j ≠ take SUBTYPE_LEN (replicate 16 67)
    end.
Proof.
  apply (open_item_first (E := demo_env) (fw_handle demo_head [demo_file] 1) (replicate 16 67) 1); done.
Defined.
