(* ===== verification/SpriteCard.v ===== *)
(** * Flashing from a card (u-boot-2018/sprite/sprite_card.c)

    The card production mode: for every entry of the download map the tool
    finds the partition's file in the firmware on the card ([ImgDecode]),
    copies it to the target flash in blocks of 16 MiB (2 MiB on SPI NOR),
    through the sparse writer when the file is an Android sparse image
    ([Sparse]), and checks the result against a checksum file
    ([SpriteVerify]).  The card and the target are two devices with a driver
    each.  The download buffer is the list of bytes the last read put into
    it; the 32 KiB below it belong to the sparse writer.

    The theorems: a raw file ends up on the partition's sectors and the
    checksum decides the result; no raw file is written outside its
    partition, whatever the card holds; a sparse file ends up expanded, but
    its expansion is not held to the partition; the boot-area checks of the
    same file accept every checksum. *)

From S2P Require Import Prelude Mem CString Checksum Flash Sparse SpriteVerify ImgDecode.

Local Open Scope Z_scope.
Local Open Scope c_scope.

(** ** Data *)

(** [dl_one_part_info]; a file name is the memory from its first byte on. *)
Record dl_one_part_info := DlPart {
  p_name : bytes;
  p_addrlo : Z;
  p_lenlo : Z;
  p_dl_filename : bytes;
  p_vf_filename : bytes;
  p_verify : Z
}.

(** What the operations change: the target flash, the statics of the sparse
    writer and the global [imgitemhd]. *)
Record card_state := CardState {
  cs_flash : disk;
  cs_sparse : sparse_state;
  imgitemhd : option Z
}.

Section code.
Context `{E : sprite_env} (cardD flashD : flash_driver) 
  (CONFIG_FW_BURN_UDISK_MIN_SIZE sunxi_sprite_size sprite_card_firmware_start : Z).

Definition SPRITE_CARD_HEAD_BUFF : Z := 32 * 1024.
Definition SPRITE_CARD_ONCE_DATA_DEAL : Z :=
  if CONFIG_SUNXI_SPINOR then 2 * 1024 * 1024 else 16 * 1024 * 1024.
Definition SPRITE_CARD_ONCE_SECTOR_DEAL : Z := SPRITE_CARD_ONCE_DATA_DEAL / 512.

(** ** Copying a file *)

(** The rest of a raw file, whole blocks first; [None] is a jump to the error
    exit. *)
Fixpoint raw_loop (fuel : nat) (card flash : disk) (tmp_imgfile_start tmp_partstart rest : Z) :
    option (disk * option (Z * Z * Z)) :=
  if rest <? SPRITE_CARD_ONCE_DATA_DEAL then Some (flash, Some (tmp_imgfile_start, tmp_partstart, rest))
  else
    match fuel with
    | O => None
    | S f =>
        let '(r, down_buffer) := flash_read (D := cardD) card tmp_imgfile_start SPRITE_CARD_ONCE_SECTOR_DEAL in
        if negb (r =? SPRITE_CARD_ONCE_SECTOR_DEAL) then Some (flash, None)
        else
          '(flash, w) ← flash_write (D := flashD) flash tmp_partstart SPRITE_CARD_ONCE_SECTOR_DEAL down_buffer;
          if negb (w =? SPRITE_CARD_ONCE_SECTOR_DEAL) then Some (flash, None)
          else raw_loop f card flash (tmp_imgfile_start ⊞ SPRITE_CARD_ONCE_SECTOR_DEAL)
                 (tmp_partstart ⊞ SPRITE_CARD_ONCE_SECTOR_DEAL) (rest - SPRITE_CARD_ONCE_DATA_DEAL)
    end.

Definition raw_copy (card flash : disk) (tmp_imgfile_start tmp_partstart rest : Z) : option (disk * bool) :=
  '(flash, res) ← raw_loop (Z.to_nat rest) card flash tmp_imgfile_start tmp_partstart rest;
  match res with
  | None => Some (flash, false)
  | Some (tmp_imgfile_start, tmp_partstart, rest) =>
      if 0 <? rest then
        let rest_sectors := u32 (Z.shiftr (rest + 511) 9) in
        let '(r, down_buffer) := flash_read (D := cardD) card tmp_imgfile_start rest_sectors in
        if negb (r =? rest_sectors) then Some (flash, false)
        else
          '(flash, w) ← flash_write (D := flashD) flash tmp_partstart rest_sectors down_buffer;
          Some (flash, w =? rest_sectors)
      else Some (flash, true)
  end.

(** The rest of a sparse file. *)
Fixpoint sparse_loop (fuel : nat) (card flash : disk) (sp : sparse_state) (tmp_imgfile_start rest : Z) :
    option (disk * sparse_state * option (Z * Z)) :=
  if rest <? SPRITE_CARD_ONCE_DATA_DEAL then Some (flash, sp, Some (tmp_imgfile_start, rest))
  else
    match fuel with
    | O => None
    | S f =>
        let '(r, down_buffer) := flash_read (D := cardD) card tmp_imgfile_start SPRITE_CARD_ONCE_SECTOR_DEAL in
        if negb (r =? SPRITE_CARD_ONCE_SECTOR_DEAL) then Some (flash, sp, None)
        else
          '(sp, flash, ret) ← unsparse_direct_write (D := flashD) sp flash down_buffer SPRITE_CARD_ONCE_DATA_DEAL;
          if negb (ret =? 0) then Some (flash, sp, None)
          else sparse_loop f card flash sp (tmp_imgfile_start ⊞ SPRITE_CARD_ONCE_SECTOR_DEAL)
                 (rest - SPRITE_CARD_ONCE_DATA_DEAL)
    end.

Definition sparse_copy (card flash : disk) (sp : sparse_state) (tmp_imgfile_start rest : Z) :
    option (disk * sparse_state * bool) :=
  '(flash, sp, res) ← sparse_loop (Z.to_nat rest) card flash sp tmp_imgfile_start rest;
  match res with
  | None => Some (flash, sp, false)
  | Some (tmp_imgfile_start, rest) =>
      if 0 <? rest then
        let rest_sectors := u32 (Z.shiftr (rest + 511) 9) in
        let '(r, down_buffer) := flash_read (D := cardD) card tmp_imgfile_start rest_sectors in
        if negb (r =? rest_sectors) then Some (flash, sp, false)
        else
          '(sp, flash, ret) ← unsparse_direct_write (D := flashD) sp flash down_buffer (u32 rest);
          Some (flash, sp, ret =? 0)
      else Some (flash, sp, true)
  end.

(** ** One partition *)

(** The error exit of [__download_normal_part] closes an open item. *)
Definition err1 (st : card_state) (ret : Z) : card_state * Z := (CardState (cs_flash st) (cs_sparse st) None, ret).

(** Write the file; the item is open.  [Some partdata_format] when all of it
    is written. *)
Definition write_part (card : disk) (img : image_handle) (st : card_state) (part : dl_one_part_info)
    (partdata_by_byte : Z) : option (card_state * option Z) :=
  let partstart_by_sector := p_addrlo part in
  let '(onetime_read_sectors, first_write_bytes) :=
    if SPRITE_CARD_ONCE_DATA_DEAL <=? partdata_by_byte
    then (SPRITE_CARD_ONCE_SECTOR_DEAL, SPRITE_CARD_ONCE_DATA_DEAL)
    else (u32 (Z.shiftr (partdata_by_byte + 511) 9), u32 partdata_by_byte) in
  imgfile_start ← Img_GetItemStart img (imgitemhd st);
  if imgfile_start =? 0 then Some (st, None)
  else
    let '(r, down_buffer) := flash_read (D := cardD) card imgfile_start onetime_read_sectors in
    if negb (r =? onetime_read_sectors) then Some (st, None)
    else
      let tmp_imgfile_start := imgfile_start ⊞ onetime_read_sectors in
      '(sp, partdata_format) ← unsparse_probe (cs_sparse st) down_buffer partstart_by_sector;
      if negb (partdata_format =? ANDROID_FORMAT_DETECT) then
        '(flash, w) ← flash_write (D := flashD) (cs_flash st) partstart_by_sector onetime_read_sectors down_buffer;
        if negb (w =? onetime_read_sectors) then Some (CardState flash sp (imgitemhd st), None)
        else
          '(flash, ok) ← raw_copy card flash tmp_imgfile_start (partstart_by_sector ⊞ onetime_read_sectors)
                           (partdata_by_byte - first_write_bytes);
          Some (CardState flash sp (imgitemhd st), if (ok : bool) then Some partdata_format else None)
      else
        '(sp, flash, ret) ← unsparse_direct_write (D := flashD) sp (cs_flash st) down_buffer first_write_bytes;
        if negb (ret =? 0) then Some (CardState flash sp (imgitemhd st), None)
        else
          '(flash, sp, ok) ← sparse_copy card flash sp tmp_imgfile_start (partdata_by_byte - first_write_bytes);
          Some (CardState flash sp (imgitemhd st), if (ok : bool) then Some partdata_format else None).

(** Compare with the checksum file; the item of the data file is closed.  The
    buffer for the checksum file is used without a check. *)
Definition verify_part (card : disk) (img : image_handle) (st : card_state) (part : dl_one_part_info)
    (partdata_format partdata_by_byte : Z) : option (card_state * Z) :=
  if p_verify part =? 0 then Some (err1 st 0)
  else if negb (memalign_ok 1024) then None
  else
    c0 ← head (p_vf_filename part);
    if c0 =? 0 then Some (err1 st (-1))
    else
      item ← Img_OpenItem (Some img) (p_vf_filename part);
      let st := CardState (cs_flash st) (cs_sparse st) item in
      match item with
      | None => Some (err1 st (-1))
      | Some _ =>
          '(verify_data, n) ← Img_ReadItem (D := cardD) card img item (replicate 1024 0) 1024;
          if n =? 0 then Some (err1 st (-1))
          else
            active_verify ←
              (if partdata_format =? ANDROID_FORMAT_DETECT
               then Some (sunxi_sprite_part_sparsedata_verify (cs_sparse st))
               else sunxi_sprite_part_rawdata_verify (D := flashD) (cs_flash st) (p_addrlo part) partdata_by_byte);
            origin_verify ← load_le 4 0 verify_data;
            Some (err1 st (if negb (origin_verify =? active_verify) then -1 else 0))
      end.

Definition __download_normal_part (card : disk) (img : image_handle) (st : card_state) (part : dl_one_part_info) :
    option (card_state * Z) :=
  item ← Img_OpenItem (Some img) (p_dl_filename part);
  let st := CardState (cs_flash st) (cs_sparse st) item in
  match item with
  | None => Some (st, -1)
  | Some _ =>
      partdata_by_byte ← Img_GetItemSize img item;
      if partdata_by_byte <=? 0 then Some (err1 st (-1))
      else if Z.shiftl (p_lenlo part) 9 <? partdata_by_byte then Some (err1 st (-1))
      else
        '(st, res) ← write_part card img st part partdata_by_byte;
        match res with
        | None => Some (err1 st (-1))
        | Some partdata_format =>
            verify_part card img (CardState (cs_flash st) (cs_sparse st) None) part partdata_format partdata_by_byte
        end
  end.

(** The whole firmware goes to the [sysrecovery] partition.  Its copying loop
    is that of a raw file. *)
Definition __download_sysrecover_part (card : disk) (hImage : option image_handle) (st : card_state)
    (part : dl_one_part_info) : option (card_state * Z) :=
  partdata_by_byte ← Img_GetSize hImage;
  if partdata_by_byte <=? 0 then Some (err1 st (-1))
  else if Z.shiftl (p_lenlo part) 9 <? partdata_by_byte then Some (err1 st (-1))
  else
    let imgfile_start := u32 sprite_card_firmware_start in
    if imgfile_start =? 0 then Some (err1 st (-1))
    else
      '(flash, ok) ← raw_copy card (cs_flash st) imgfile_start (p_addrlo part) partdata_by_byte;
      Some (err1 (CardState flash (cs_sparse st) (imgitemhd st)) (if (ok : bool) then 0 else -1)).

(** The user disk takes what is left of the flash; 1 means that its file is
    too small to be worth writing.  The handle opened here is a local
    variable. *)
Definition __download_udisk (card : disk) (img : image_handle) (st : card_state) (part : dl_one_part_info) :
    option (card_state * Z) :=
  item ← Img_OpenItem (Some img) (p_dl_filename part);
  match item with
  | None => Some (st, -1)
  | Some _ =>
      packet_len ← Img_GetItemSize img item;
      if packet_len <=? 0 then Some (st, -1)
      else if packet_len <=? CONFIG_FW_BURN_UDISK_MIN_SIZE then Some (st, 1)
      else if sunxi_sprite_size =? 0 then Some (st, -1)
      else
        __download_normal_part card img st
          (DlPart (p_name part) (p_addrlo part) (sunxi_sprite_size ⊟ p_addrlo part) (p_dl_filename part)
             (p_vf_filename part) (p_verify part))
  end.

(** ** The download map *)

(** "UDISK", "sysrecovery", "env" and "private", terminated. *)
Definition str_UDISK : bytes := [85; 68; 73; 83; 75; 0].
Definition str_sysrecovery : bytes := [115; 121; 115; 114; 101; 99; 111; 118; 101; 114; 121; 0].
Definition str_env : bytes := [101; 110; 118; 0].
Definition str_private : bytes := [112; 114; 105; 118; 97; 116; 101; 0].

(** One turn of the loop of [sunxi_sprite_deal_part]; [false] is the jump to
    the error exit.  The branch for [private] does what the last one does. *)
Definition deal_one (card : disk) (img : image_handle) (st : card_state) (part : dl_one_part_info) :
    option (card_state * bool) :=
  c ← strncmp str_UDISK (p_name part) 5;
  if c =? 0 then
    '(st, ret1) ← __download_udisk card img st part; Some (st, negb (ret1 <? 0))
  else
    c ← strncmp str_sysrecovery (p_name part) 11;
    if c =? 0 then
      '(st, ret1) ← __download_sysrecover_part card (Some img) st part; Some (st, ret1 =? 0)
    else
      c ← strncmp str_private (p_name part) 7;
      if c =? 0 then
        '(st, ret1) ← __download_normal_part card img st part; Some (st, ret1 =? 0)
      else
        '(st, ret1) ← __download_normal_part card img st part; Some (st, ret1 =? 0).

Fixpoint deal_loop (deal : card_state → dl_one_part_info → option (card_state * bool)) (st : card_state)
    (parts : list dl_one_part_info) : option (card_state * Z) :=
  match parts with
  | [] => Some (st, 0)
  | part :: parts' =>
      '(st, ok) ← deal st part;
      if negb ok then Some (st, -1) else deal_loop deal st parts'
  end.

Definition sunxi_sprite_deal_part (card : disk) (img : image_handle) (st : card_state)
    (dl_map : list dl_one_part_info) : option (card_state * Z) :=
  match dl_map with
  | [] => Some (st, 0)
  | _ =>
      if negb (memalign_ok (SPRITE_CARD_ONCE_DATA_DEAL + SPRITE_CARD_HEAD_BUFF)) then Some (st, -1)
      else deal_loop (deal_one card img) st dl_map
  end.

(** Recovery rewrites the normal partitions only. *)
Definition deal_one_recovery (card : disk) (img : image_handle) (st : card_state) (part : dl_one_part_info) :
    option (card_state * bool) :=
  c1 ← strcmp str_env (p_name part);
  if c1 =? 0 then Some (st, true)
  else
    c2 ← strcmp str_sysrecovery (p_name part);
    if c2 =? 0 then Some (st, true)
    else
      c3 ← strcmp str_UDISK (p_name part);
      if c3 =? 0 then Some (st, true)
      else
        c4 ← strcmp str_private (p_name part);
        if c4 =? 0 then Some (st, true)
        else '(st, ret1) ← __download_normal_part card img st part; Some (st, ret1 =? 0).

Definition sunxi_sprite_deal_part_from_sysrevoery (card : disk) (img : image_handle) (st : card_state)
    (dl_map : list dl_one_part_info) : option (card_state * Z) :=
  match dl_map with
  | [] => Some (st, 0)
  | _ =>
      if negb (memalign_ok (SPRITE_CARD_ONCE_DATA_DEAL + SPRITE_CARD_HEAD_BUFF)) then Some (st, -1)
      else deal_loop (deal_one_recovery card img) st dl_map
  end.

(** ** The tables of the firmware *)

(** "1234567890DLINFO" and "1234567890___MBR" *)
Definition str_DLINFO : bytes := [49; 50; 51; 52; 53; 54; 55; 56; 57; 48; 68; 76; 73; 78; 70; 79; 0].
Definition str_MBR : bytes := [49; 50; 51; 52; 53; 54; 55; 56; 57; 48; 95; 95; 95; 77; 66; 82; 0].

(** The buffer, [imgitemhd] and the return value; [addr] is the address of
    the buffer.  A failed read leaves the item open. *)
Definition sprite_card_fetch_download_map (card : disk) (img : image_handle) (addr : Z) (dl_map : bytes) :
    option (bytes * option Z * Z) :=
  item ← Img_OpenItem (Some img) str_DLINFO;
  match item with
  | None => Some (dl_map, None, -1)
  | Some _ =>
      '(dl_map, n) ← Img_ReadItem (D := cardD) card img item dl_map (Z.of_nat SUNXI_MBR_SIZE);
      if n =? 0 then Some (dl_map, item, -1)
      else r ← sunxi_sprite_verify_dlmap addr dl_map; Some (dl_map, None, r)
  end.

Definition sprite_card_fetch_mbr (card : disk) (img : image_handle) (addr : Z) (img_mbr : bytes) :
    option (bytes * option Z * Z) :=
  let mbr_num := if get_boot_storage_type =? STORAGE_NOR then 1%nat else SUNXI_MBR_COPY_NUM in
  item ← Img_OpenItem (Some img) str_MBR;
  match item with
  | None => Some (img_mbr, None, -1)
  | Some _ =>
      '(img_mbr, n) ← Img_ReadItem (D := cardD) card img item img_mbr (Z.of_nat (SUNXI_MBR_SIZE * mbr_num));
      if n =? 0 then Some (img_mbr, item, -1)
      else '(img_mbr, r) ← sunxi_sprite_verify_mbr addr img_mbr; Some (img_mbr, None, r)
  end.

(** ** Raw files *)

Lemma once_deal :
  4096 <= SPRITE_CARD_ONCE_SECTOR_DEAL <= 32768 ∧
  SPRITE_CARD_ONCE_DATA_DEAL = 512 * SPRITE_CARD_ONCE_SECTOR_DEAL.
Proof. unfold SPRITE_CARD_ONCE_SECTOR_DEAL, SPRITE_CARD_ONCE_DATA_DEAL. destruct CONFIG_SUNXI_SPINOR; done. Qed.

Lemma raw_copy_0 card flash src dst : raw_copy card flash src dst 0 = Some (flash, true).
Proof.
  unfold raw_copy. change (Z.to_nat 0) with 0%nat. cbn [raw_loop]. destruct once_deal as [HK HD].
  by destruct (Z.ltb_spec 0 SPRITE_CARD_ONCE_DATA_DEAL); [|lia].
Qed.

Lemma sparse_copy_0 card flash sp src : sparse_copy card flash sp src 0 = Some (flash, sp, true).
Proof.
  unfold sparse_copy. change (Z.to_nat 0) with 0%nat. cbn [sparse_loop]. destruct once_deal as [HK HD].
  by destruct (Z.ltb_spec 0 SPRITE_CARD_ONCE_DATA_DEAL); [|lia].
Qed.

Section drivers.
Context (lo hi chi : Z) (Hlo : 0 <= lo) (Hhi : hi < 4294967296) (Hchi : chi < 4294967296).
Context (Hrd : ∀ s n, 0 < n → s + n <= chi → read_ok (flash_driver := cardD) s n = true).
Context (Hwr : ∀ s n, lo <= s → 0 < n → s + n <= hi → write_ok (flash_driver := flashD) s n = true).

Lemma read_card card src n bs :
  0 < n → src + n <= chi → Z.of_nat (length bs) = 512 * n → holds card src bs →
  flash_read (D := cardD) card src n = (n, bs).
Proof using Hrd. intros. apply flash_read_holds; auto. Qed.

Lemma write_flash flash dst n bs :
  lo <= dst → 0 < n → dst + n <= hi → Z.of_nat (length bs) = 512 * n →
  flash_write (D := flashD) flash dst n bs = Some (write_bytes flash (512 * dst) bs, n).
Proof using Hwr. intros. rewrite <- (app_nil_r bs) at 1. apply flash_write_ok; auto. Qed.

Lemma raw_loop_run fuel card flash src dst data pad :
  let n := (Z.of_nat (length data) + 511) / 512 in
  Z.of_nat (length data) <= Z.of_nat fuel → Z.of_nat (length (data ++ pad)) = 512 * n →
  holds card src (data ++ pad) → 0 <= src → src + n <= chi → lo <= dst → dst + n <= hi →
  ∃ h t, data = h ++ t ∧ Z.of_nat (length h) mod 512 = 0 ∧ Z.of_nat (length t) < SPRITE_CARD_ONCE_DATA_DEAL ∧
    holds card (src + Z.of_nat (length h) / 512) (t ++ pad) ∧
    raw_loop fuel card flash src dst (Z.of_nat (length data)) =
      Some (write_bytes flash (512 * dst) h,
            Some (src + Z.of_nat (length h) / 512, dst + Z.of_nat (length h) / 512, Z.of_nat (length t))).
Proof using Hlo Hhi Hchi Hrd Hwr.
  destruct once_deal as [HK HD]. revert flash src dst data.
  induction fuel as [|f IH]; intros flash src dst data n Hf Hl Hh Hs Hse Hd Hde;
    assert (Hn0 : n = (Z.of_nat (length data) + 511) / 512) by done; clearbody n; cbn [raw_loop];
    (destruct (Z.ltb_spec (Z.of_nat (length data)) SPRITE_CARD_ONCE_DATA_DEAL) as [Hlt|Hge];
      [exists [], data; simpl; rewrite Z.div_0_l, !Z.add_0_r by lia; by split_and!|]); [lia|].
  destruct (split_at_Z SPRITE_CARD_ONCE_DATA_DEAL data) as (b & data' & -> & Hb); [lia|].
  set (K := SPRITE_CARD_ONCE_SECTOR_DEAL) in *. rewrite HD in *. clear HD.
  rewrite <- app_assoc in Hh. rewrite !length_app in *.
  assert (Hn : n = K + (Z.of_nat (length data') + 511) / 512) by zmod.
  destruct (holds_app card src K b (data' ++ pad) Hh Hb) as [Hh1 Hh2].
  rewrite (read_card card src K b) by (done || zmod). rewrite Z.eqb_refl. cbn [negb].
  rewrite (write_flash flash dst K b) by (done || zmod). sbind. rewrite Z.eqb_refl. cbn [negb].
  rewrite (u32_small (src + K)), (u32_small (dst + K)) by (unfold is_u32; zmod).
  replace (Z.of_nat (length b + length data') - 512 * K) with (Z.of_nat (length data')) by lia.
  destruct (IH (write_bytes flash (512 * dst) b) (src + K) (dst + K) data')
    as (h & t & -> & Hh' & Ht & Hhd & ->); try done; try (rewrite ?length_app; zmod).
  assert (Hk : Z.of_nat (length (b ++ h)) / 512 = K + Z.of_nat (length h) / 512) by (rewrite length_app; zmod).
  exists (b ++ h), t. rewrite Hk. split_and!; [by rewrite app_assoc|rewrite length_app; zmod|done|by rewrite Z.add_assoc|].
  rewrite write_bytes_app, Hb, !Z.add_assoc. by replace (512 * (dst + K)) with (512 * dst + 512 * K) by lia.
Qed.

Lemma raw_copy_run card flash src dst data pad :
  let n := (Z.of_nat (length data) + 511) / 512 in
  Z.of_nat (length (data ++ pad)) = 512 * n →
  holds card src (data ++ pad) → 0 <= src → src + n <= chi → lo <= dst → dst + n <= hi →
  raw_copy card flash src dst (Z.of_nat (length data)) = Some (write_bytes flash (512 * dst) (data ++ pad), true).
Proof using Hlo Hhi Hchi Hrd Hwr.
  intros n Hl Hh Hs Hse Hd Hde. assert (Hn0 : n = (Z.of_nat (length data) + 511) / 512) by done.
  unfold raw_copy. destruct once_deal as [HK HD].
  destruct (raw_loop_run (Z.to_nat (Z.of_nat (length data))) card flash src dst data pad)
    as (h & t & -> & Hm & Ht & Hhd & ->); try done; [lia|]. clearbody n. sbind. rewrite <- app_assoc, write_bytes_app.
  rewrite !length_app in *.
  replace (512 * dst + Z.of_nat (length h)) with (512 * (dst + Z.of_nat (length h) / 512)) by zmod.
  destruct (Z.ltb_spec 0 (Z.of_nat (length t))) as [Hpos|Hz].
  - rewrite shiftr_9, (u32_small ((Z.of_nat (length t) + 511) / 512)) by (unfold is_u32; zmod).
    rewrite (read_card card _ _ (t ++ pad)); [|zmod..|rewrite length_app; zmod|done].
    rewrite Z.eqb_refl. cbn [negb]. rewrite (write_flash _ _ _ (t ++ pad)); [|zmod..|rewrite length_app; zmod].
    sbind. by rewrite Z.eqb_refl.
  - destruct t; [|simpl in Hz; lia]. simpl in *. assert (pad = []) as ->; [|done].
    apply length_zero_iff_nil. zmod.
Qed.

Lemma write_part_raw card img st part src data pad :
  let n := (Z.of_nat (length data) + 511) / 512 in
  Img_GetItemStart img (imgitemhd st) = Some src → 0 < src → 0 < Z.of_nat (length data) →
  Z.of_nat (length (data ++ pad)) = 512 * n → holds card src (data ++ pad) →
  le_val (take 4 (data ++ pad)) ≠ SPARSE_HEADER_MAGIC →
  src + n <= chi → lo <= p_addrlo part → p_addrlo part + n <= hi →
  write_part card img st part (Z.of_nat (length data)) =
    Some (CardState (write_bytes (cs_flash st) (512 * p_addrlo part) (data ++ pad)) (cs_sparse st) (imgitemhd st),
          Some ANDROID_FORMAT_BAD).
Proof using Hlo Hhi Hchi Hrd Hwr.
  intros n Hsrc Hs Hpos Hl Hh Hmagic Hse Hd Hde. assert (Hn : n = (Z.of_nat (length data) + 511) / 512) by done.
  clearbody n. destruct once_deal as [HK HD]. unfold write_part.
  assert (Hprobe : ∀ b r, data ++ pad = b ++ r → (4 <= length b)%nat →
            unsparse_probe (cs_sparse st) b (p_addrlo part) = Some (cs_sparse st, ANDROID_FORMAT_BAD)).
  { intros b r Hb Hb4. unfold unsparse_probe. rewrite (load_le_take 4 0), drop_0 by done. sbind.
    rewrite Hb, take_app_le in Hmagic by done. by destruct (Z.eqb_spec (le_val (take 4 b)) SPARSE_HEADER_MAGIC). }
  destruct (Z.leb_spec SPRITE_CARD_ONCE_DATA_DEAL (Z.of_nat (length data))) as [Hbig|Hsmall].
  - destruct (split_at_Z SPRITE_CARD_ONCE_DATA_DEAL data) as (b & data' & -> & Hb); [lia|].
    set (K := SPRITE_CARD_ONCE_SECTOR_DEAL) in *. rewrite HD in *. clear HD.
    rewrite <- app_assoc in *. rewrite !length_app in *.
    destruct (holds_app card src K b (data' ++ pad) Hh Hb) as [Hh1 Hh2].
    rewrite Hsrc. sbind. rewrite (proj2 (Z.eqb_neq src 0)) by lia.
    rewrite (read_card card src K b) by (done || zmod). rewrite Z.eqb_refl. cbn [negb].
    rewrite (Hprobe b (data' ++ pad)) by (done || zmod). sbind. cbn [negb Z.eqb ANDROID_FORMAT_BAD ANDROID_FORMAT_DETECT].
    rewrite (write_flash _ _ K b) by (done || zmod). sbind. rewrite Z.eqb_refl. cbn [negb].
    rewrite (u32_small (src + K)), (u32_small (p_addrlo part + K)) by (unfold is_u32; zmod).
    replace (Z.of_nat (length b + length data') - 512 * K) with (Z.of_nat (length data')) by lia.
    rewrite (raw_copy_run card _ (src + K) (p_addrlo part + K) data' pad) by (done || (rewrite ?length_app; zmod)).
    sbind. rewrite (write_bytes_app _ _ b), Hb.
    by replace (512 * (p_addrlo part + K)) with (512 * p_addrlo part + 512 * K) by lia.
  - rewrite shiftr_9, <- Hn. rewrite (u32_small n) by (unfold is_u32; zmod).
    rewrite Hsrc. sbind. rewrite (proj2 (Z.eqb_neq src 0)) by lia.
    rewrite (read_card card src n (data ++ pad)) by (done || zmod). rewrite Z.eqb_refl. cbn [negb].
    rewrite (Hprobe (data ++ pad) []) by (rewrite ?app_nil_r; done || zmod). sbind.
    cbn [negb Z.eqb ANDROID_FORMAT_BAD ANDROID_FORMAT_DETECT].
    rewrite (write_flash _ _ n (data ++ pad)) by (done || zmod). sbind. rewrite Z.eqb_refl. cbn [negb].
    rewrite (u32_small (Z.of_nat (length data))) by (unfold is_u32; zmod). rewrite Z.sub_diag.
    by rewrite raw_copy_0.
Qed.

(** ** Sparse files *)

Lemma feed_app st d ps qs st' d' :
  unsparse_feed (D := flashD) st d (ps ++ qs) = Some (st', d', 0) →
  ∃ st1 d1, unsparse_feed (D := flashD) st d ps = Some (st1, d1, 0) ∧
            unsparse_feed (D := flashD) st1 d1 qs = Some (st', d', 0).
Proof.
  revert st d. induction ps as [|[p a] ps IH]; intros st d H; [by exists st, d|].
  cbn [unsparse_feed app] in *. apply bind_Some_inv in H as ([[st2 d2] r] & Hw & H). rewrite Hw. sbind.
  destruct (Z.eqb_spec r 0); cbn [negb] in *; [auto|]. injection H as <- <- ->. done.
Qed.

Lemma whole_piece b :
  is_byte_list b → Z.of_nat (length b) mod 4 = 0 → Z.of_nat (length b) <= 16777216 → piece_ok (b, []).
Proof. intros Hb Hm Hl. unfold piece_ok, word_room. cbn [fst snd]. rewrite app_nil_r. simpl length. split_and!; [done|zmod|lia]. Qed.

Lemma sparse_loop_feed fuel card src data pad :
  let n := (Z.of_nat (length data) + 511) / 512 in
  Z.of_nat (length data) <= Z.of_nat fuel → is_byte_list data → Z.of_nat (length (data ++ pad)) = 512 * n →
  holds card src (data ++ pad) → 0 <= src → src + n <= chi →
  ∃ ps t, data = concat ps.*1 ++ t ∧ Forall piece_ok ps ∧ Forall (λ p, Z.of_nat (length p.1) mod 4 = 0) ps ∧
    Z.of_nat (length (concat ps.*1)) mod 512 = 0 ∧ Z.of_nat (length t) < SPRITE_CARD_ONCE_DATA_DEAL ∧
    holds card (src + Z.of_nat (length (concat ps.*1)) / 512) (t ++ pad) ∧
    ∀ sp flash sp' flash', unsparse_feed (D := flashD) sp flash ps = Some (sp', flash', 0) →
      sparse_loop fuel card flash sp src (Z.of_nat (length data)) =
        Some (flash', sp', Some (src + Z.of_nat (length (concat ps.*1)) / 512, Z.of_nat (length t))).
Proof using Hchi Hrd.
  destruct once_deal as [HK HD]. revert src data.
  induction fuel as [|f IH]; intros src data n Hf Hbytes Hl Hh Hs Hse;
    assert (Hn0 : n = (Z.of_nat (length data) + 511) / 512) by done; clearbody n; cbn [sparse_loop];
    (destruct (Z.ltb_spec (Z.of_nat (length data)) SPRITE_CARD_ONCE_DATA_DEAL) as [Hlt|Hge];
      [exists [], data; simpl; rewrite Z.div_0_l, !Z.add_0_r by lia; split_and!; [done..|by intros ???? [= -> ->]]|]);
    [lia|].
  destruct (split_at_Z SPRITE_CARD_ONCE_DATA_DEAL data) as (b & data' & -> & Hb); [lia|].
  set (K := SPRITE_CARD_ONCE_SECTOR_DEAL) in *. rewrite HD in *.
  rewrite <- app_assoc in Hh. rewrite !length_app in *. apply Forall_app in Hbytes as [Hb1 Hb2].
  assert (Hn : n = K + (Z.of_nat (length data') + 511) / 512) by zmod.
  destruct (holds_app card src K b (data' ++ pad) Hh Hb) as [Hh1 Hh2].
  rewrite (read_card card src K b) by (done || zmod). rewrite Z.eqb_refl. cbn [negb].
  rewrite (u32_small (src + K)) by (unfold is_u32; zmod).
  replace (Z.of_nat (length b + length data') - 512 * K) with (Z.of_nat (length data')) by lia.
  destruct (IH (src + K) data') as (ps & t & -> & Hps & Hw & Hm & Ht & Hhd & Hrun); try done;
    try (rewrite ?length_app; zmod).
  exists ((b, []) :: ps), t. cbn [fmap list_fmap concat fst]. rewrite length_app.
  assert (Hk : Z.of_nat (length b + length (concat ps.*1)) / 512 = K + Z.of_nat (length (concat ps.*1)) / 512) by zmod.
  rewrite Hk. split_and!; [by rewrite app_assoc| | |zmod|done|by rewrite Z.add_assoc|].
  - constructor; [apply whole_piece; [done|zmod|lia]|done].
  - constructor; [simpl; zmod|done].
  - intros sp flash sp' flash' Hfeed. cbn [unsparse_feed] in Hfeed. rewrite app_nil_r, Hb in Hfeed.
    apply bind_Some_inv in Hfeed as ([[sp1 d1] r] & -> & Hfeed). sbind.
    destruct (Z.eqb_spec r 0); cbn [negb] in *; [|by injection Hfeed as _ _ ?].
    rewrite (Hrun sp1 d1 sp' flash') by done. by rewrite Z.add_assoc.
Qed.

Lemma whole_words_snoc ps q :
  Forall (λ p : bytes * bytes, Z.of_nat (length p.1) mod 4 = 0) ps → (length q <= 1)%nat → whole_words (ps ++ q).
Proof.
  intros Hps Hq. induction Hps as [|p ps Hp Hps IH]; [by destruct q as [|? [|? ?]]; simpl in *; try lia|].
  cbn [app whole_words]. destruct (ps ++ q); [done|]. by split.
Qed.

(** A word-aligned piece may precede others. *)
Lemma whole_words_cons p ps : Z.of_nat (length p.1) mod 4 = 0 → whole_words ps → whole_words (p :: ps).
Proof. intros Hp Hps. destruct ps; [done|]. by split. Qed.

Lemma sparse_copy_feed card src data pad :
  let n := (Z.of_nat (length data) + 511) / 512 in
  is_byte_list data → Z.of_nat (length (data ++ pad)) = 512 * n →
  holds card src (data ++ pad) → 0 <= src → src + n <= chi →
  ∃ ps, data = concat ps.*1 ∧ Forall piece_ok ps ∧ whole_words ps ∧
    ∀ sp flash sp' flash', unsparse_feed (D := flashD) sp flash ps = Some (sp', flash', 0) →
      sparse_copy card flash sp src (Z.of_nat (length data)) = Some (flash', sp', true).
Proof using Hchi Hrd.
  intros n Hbytes Hl Hh Hs Hse. destruct once_deal as [HK HD].
  assert (Hn : n = (Z.of_nat (length data) + 511) / 512) by done.
  destruct (sparse_loop_feed (Z.to_nat (Z.of_nat (length data))) card src data pad)
    as (ps & t & -> & Hps & Hw & Hm & Ht & Hhd & Hrun); try done; [lia|]. clearbody n.
  unfold sparse_copy. apply Forall_app in Hbytes as [_ Hbt]. rewrite !length_app in *.
  destruct (Z.eq_dec (Z.of_nat (length t)) 0) as [Hz|Hz].
  - exists ps. destruct t; [|simpl in Hz; lia]. rewrite app_nil_r in *. split_and!; [done..| |].
    + rewrite <- (app_nil_r ps). apply whole_words_snoc; [done|simpl; lia].
    + intros sp flash sp' flash' Hfeed. rewrite (Hrun sp flash sp' flash' Hfeed). sbind. done.
  - exists (ps ++ [(t, pad)]). rewrite fmap_app, concat_app. cbn [fmap list_fmap concat fst]. rewrite app_nil_r.
    assert (piece_ok (t, pad)).
    { unfold piece_ok, word_room. cbn [fst snd]. rewrite length_app. split_and!; [done|zmod|zmod]. }
    split_and!; [done|by apply Forall_app; split; [|constructor]| |].
    + apply whole_words_snoc; [done|simpl; lia].
    + intros sp flash sp' flash' (sp1 & d1 & Hf1 & Hf2)%feed_app. rewrite (Hrun sp flash sp1 d1 Hf1). sbind.
      destruct (Z.ltb_spec 0 (Z.of_nat (length t))); [|lia].
      rewrite shiftr_9, (u32_small ((Z.of_nat (length t) + 511) / 512)) by (unfold is_u32; zmod).
      rewrite (read_card card _ _ (t ++ pad)); [|zmod..|rewrite length_app; zmod|done].
      rewrite Z.eqb_refl, (u32_small (Z.of_nat (length t))) by (unfold is_u32; zmod). cbn [negb].
      cbn [unsparse_feed] in Hf2. apply bind_Some_inv in Hf2 as ([[sp2 d2] r] & -> & Hf2). sbind.
      destruct (Z.eqb_spec r 0) as [Hr|Hr]; cbn [negb] in *; [by injection Hf2 as <- <-|by injection Hf2 as _ _ ?].
Qed.

Lemma write_part_sparse card img st part src data pad blk tb tc ck cs :
  let n := (Z.of_nat (length data) + 511) / 512 in
  Img_GetItemStart img (imgitemhd st) = Some src → 0 < src → is_byte_list data →
  Z.of_nat (length (data ++ pad)) = 512 * n → holds card src (data ++ pad) → src + n <= chi →
  0 < blk < 4294967296 → 0 <= tc < 4294967296 → lo <= p_addrlo part →
  data = enc_header blk tb tc ck ++ enc_chunks blk cs → wf_chunks blk hi (p_addrlo part) cs →
  ∃ sp, write_part card img st part (Z.of_nat (length data)) =
    Some (CardState (expand blk cs (cs_flash st) (p_addrlo part)) sp (imgitemhd st), Some ANDROID_FORMAT_DETECT) ∧
    unsparse_checksum sp = u32 (word_sum data).
Proof using Hlo Hhi Hchi Hrd Hwr.
  intros n Hsrc Hs Hbytes Hl Hh Hse Hblk Htc Hd Himg Hwf.
  assert (Hn : n = (Z.of_nat (length data) + 511) / 512) by done. clearbody n.
  destruct once_deal as [HK HD]. unfold write_part.
  assert (Hwr' : ∀ s n, p_addrlo part <= s → 0 < n → s + n <= hi → write_ok (flash_driver := flashD) s n = true).
  { intros. apply Hwr; lia. }
  assert (H28 : 28 <= Z.of_nat (length data)) by (rewrite Himg, length_app; simpl; lia).
  destruct (Z.leb_spec SPRITE_CARD_ONCE_DATA_DEAL (Z.of_nat (length data))) as [Hbig|Hsmall].
  - destruct (split_at_Z SPRITE_CARD_ONCE_DATA_DEAL data) as (b & data' & Hdd & Hb); [lia|]. rewrite Hdd in *.
    set (K := SPRITE_CARD_ONCE_SECTOR_DEAL) in *. rewrite HD in *.
    rewrite <- app_assoc in *. rewrite !length_app in *. apply Forall_app in Hbytes as [Hb1 Hb2].
    destruct (holds_app card src K b (data' ++ pad) Hh Hb) as [Hh1 Hh2].
    destruct (sparse_copy_feed card (src + K) data' pad) as (ps & -> & Hps & Hw & Hrun); try done;
      try (rewrite ?length_app; zmod).
    assert (Hpb : piece_ok (b, [])) by (apply whole_piece; [done|zmod|lia]).
    destruct (unsparse_run (D := flashD) blk tb tc ck cs (p_addrlo part) hi (cs_flash st) (cs_sparse st) b [] ps)
      as (sp1 & sp2 & Hprobe & Hfeed & Hsum); try done; try lia; try by constructor.
    rewrite Hsrc. sbind. rewrite (proj2 (Z.eqb_neq src 0)) by lia.
    rewrite (read_card card src K b) by (done || zmod). rewrite Z.eqb_refl. cbn [negb].
    rewrite app_nil_r in Hprobe. rewrite Hprobe. sbind. cbn [negb Z.eqb Pos.eqb ANDROID_FORMAT_DETECT].
    cbn [unsparse_feed] in Hfeed. rewrite app_nil_r, Hb in Hfeed.
    apply bind_Some_inv in Hfeed as ([[sp3 d3] r] & -> & Hfeed). sbind.
    destruct (Z.eqb_spec r 0) as [Hr|Hr]; cbn [negb] in *; [|by injection Hfeed as _ _ ?].
    rewrite (u32_small (src + K)) by (unfold is_u32; zmod).
    replace (Z.of_nat (length b + length (concat ps.*1)) - 512 * K) with (Z.of_nat (length (concat ps.*1))) by lia.
    rewrite (Hrun _ _ _ _ Hfeed). sbind. exists sp2. split; [done|]. apply Hsum.
    apply whole_words_cons; [simpl; zmod|done].
  - assert (Hp : piece_ok (data, pad)).
    { unfold piece_ok, word_room. cbn [fst snd]. rewrite !length_app in *. split_and!; [done|zmod|zmod]. }
    destruct (unsparse_run (D := flashD) blk tb tc ck cs (p_addrlo part) hi (cs_flash st) (cs_sparse st) data pad [])
      as (sp1 & sp2 & Hprobe & Hfeed & Hsum); try done; try lia; [by constructor|simpl; by rewrite app_nil_r|].
    rewrite shiftr_9, <- Hn. rewrite (u32_small n) by (unfold is_u32; zmod).
    rewrite Hsrc. sbind. rewrite (proj2 (Z.eqb_neq src 0)) by lia.
    rewrite (read_card card src n (data ++ pad)) by (done || zmod). rewrite Z.eqb_refl. cbn [negb].
    rewrite Hprobe. sbind. cbn [negb Z.eqb Pos.eqb ANDROID_FORMAT_DETECT].
    rewrite (u32_small (Z.of_nat (length data))) by (unfold is_u32; zmod).
    cbn [unsparse_feed] in Hfeed. apply bind_Some_inv in Hfeed as ([[sp3 d3] r] & -> & Hfeed). sbind.
    destruct (Z.eqb_spec r 0) as [Hr|Hr]; cbn [negb] in *; [|by injection Hfeed as _ _ ?].
    injection Hfeed as -> ->. rewrite Z.sub_diag, sparse_copy_0. sbind. exists sp2. split; [done|].
    simpl in Hsum. rewrite app_nil_r in Hsum. by apply Hsum.
Qed.

End drivers.

(** ** What a raw file can touch *)

Lemma raw_loop_out fuel card flash src dst rest flash' res hi :
  raw_loop fuel card flash src dst rest = Some (flash', res) →
  0 <= rest → 0 <= dst → dst + (rest + 511) / 512 <= hi → hi < 4294967296 →
  same_out dst hi flash flash' ∧
  match res with
  | Some (_, dst', rest') => dst <= dst' ∧ 0 <= rest' ∧ dst' + (rest' + 511) / 512 <= hi
  | None => True
  end.
Proof.
  destruct once_deal as [HK HD]. revert flash src dst rest.
  induction fuel as [|f IH]; intros flash src dst rest H Hr Hd Hde Hhi; cbn [raw_loop] in H;
    (destruct (Z.ltb_spec rest SPRITE_CARD_ONCE_DATA_DEAL) as [Hlt|Hge];
      [injection H as <- <-; split; [reflexivity|lia]|]); [done|].
  set (K := SPRITE_CARD_ONCE_SECTOR_DEAL) in *. rewrite HD in *.
  destruct (flash_read card src K) as [r buf]. destruct (negb (r =? K)); [injection H as <- <-; done|].
  apply bind_Some_inv in H as ([flash1 w] & Hw & H).
  assert (Ho : same_out dst hi flash flash1) by (eapply flash_write_out; [exact Hw|lia|lia|zmod]).
  destruct (negb (w =? K)); [injection H as <- <-; done|].
  rewrite (u32_small (dst + K)) in H by (unfold is_u32; zmod).
  apply IH in H as [Ho' Hres]; [|zmod..]. split.
  - etrans; [exact Ho|]. intros x Hx. apply Ho'. lia.
  - destruct res as [[[src' dst'] rest']|]; [|done]. destruct Hres as (H1 & H2 & H3). split_and!; lia.
Qed.

Lemma raw_copy_out card flash src dst rest flash' ok hi :
  raw_copy card flash src dst rest = Some (flash', ok) →
  0 <= rest → 0 <= dst → dst + (rest + 511) / 512 <= hi → hi < 4294967296 → same_out dst hi flash flash'.
Proof.
  unfold raw_copy. intros H Hr Hd Hde Hhi. apply bind_Some_inv in H as ([flash1 res] & Hl & H).
  apply (raw_loop_out _ _ _ _ _ _ _ _ hi) in Hl as [Ho Hres]; [|done..].
  destruct res as [[[src' dst'] rest']|]; [|injection H as <- <-; done].
  destruct Hres as (H1 & H2 & H3).
  destruct (Z.ltb_spec 0 rest') as [Hpos|]; [|injection H as <- <-; done].
  rewrite shiftr_9, (u32_small ((rest' + 511) / 512)) in H by (unfold is_u32; zmod).
  destruct (flash_read card src' _) as [r buf]. destruct (negb (r =? _)); [injection H as <- <-; done|].
  apply bind_Some_inv in H as ([flash2 w] & Hw & H). injection H as <- _.
  etrans; [exact Ho|]. eapply flash_write_out; [exact Hw|zmod|lia|lia].
Qed.

Lemma write_part_out card img st part src size st' res hi :
  write_part card img st part size = Some (st', res) →
  Img_GetItemStart img (imgitemhd st) = Some src →
  (∀ bs, load_n 4 card (512 * src) = Some bs → le_val bs ≠ SPARSE_HEADER_MAGIC) →
  0 < size → 0 <= p_addrlo part → p_addrlo part + (size + 511) / 512 <= hi → hi < 4294967296 →
  same_out (p_addrlo part) hi (cs_flash st) (cs_flash st').
Proof.
  unfold write_part. intros H Hsrc Hraw Hsize Hd Hde Hhi. destruct once_deal as [HK HD].
  set (pr := if SPRITE_CARD_ONCE_DATA_DEAL <=? size then _ else _) in H.
  assert (Hof : 0 < pr.1 ∧ pr.1 <= (size + 511) / 512 ∧ 0 <= size - pr.2
                ∧ pr.1 + (size - pr.2 + 511) / 512 <= (size + 511) / 512).
  { subst pr. destruct (Z.leb_spec SPRITE_CARD_ONCE_DATA_DEAL size); cbn [fst snd]; [zmod|].
    rewrite shiftr_9, !u32_small by (unfold is_u32; zmod). zmod. }
  destruct pr as [n fb]. cbn [fst snd] in Hof. destruct Hof as (Hn & Hn' & Hrest & Hsum). rewrite Hsrc in H.
  cbn [mbind option_bind] in H.
  destruct (src =? 0); [injection H as <- _; done|].
  destruct (flash_read card src n) as [r buf] eqn:Er.
  destruct (Z.eqb_spec r n) as [->|]; cbn [negb] in H; [|injection H as <- _; done].
  assert (Hprobe : unsparse_probe (cs_sparse st) buf (p_addrlo part) = Some (cs_sparse st, ANDROID_FORMAT_BAD)).
  { unfold flash_read in Er. destruct (read_ok src n); [|injection Er as <- _; lia].
    destruct (load_n _ card _) as [l|] eqn:El; [|injection Er as <- _; lia]. injection Er as <-.
    assert (Hll := load_n_length _ _ _ _ El).
    replace (Z.to_nat (512 * n)) with (4 + (Z.to_nat (512 * n) - 4))%nat in El by lia.
    apply load_n_app in El as [El _]. apply Hraw in El.
    unfold unsparse_probe. rewrite (load_le_take 4 0), drop_0 by lia. sbind.
    by destruct (Z.eqb_spec (le_val (take 4 l)) SPARSE_HEADER_MAGIC). }
  rewrite Hprobe in H. cbn [mbind option_bind] in H.
  cbn [negb Z.eqb ANDROID_FORMAT_BAD ANDROID_FORMAT_DETECT] in H.
  apply bind_Some_inv in H as ([flash1 w] & Hw & H).
  assert (Ho : same_out (p_addrlo part) hi (cs_flash st) flash1)
    by (eapply flash_write_out; [exact Hw|lia|lia|lia]).
  destruct (negb (w =? n)); [injection H as <- _; done|].
  rewrite (u32_small (p_addrlo part + n)) in H by (unfold is_u32; zmod).
  apply bind_Some_inv in H as ([flash2 ok] & Hc & H). injection H as <- _. cbn [cs_flash].
  apply (raw_copy_out _ _ _ _ _ _ _ hi) in Hc; [|lia..]. etrans; [exact Ho|]. intros x Hx. apply Hc. lia.
Qed.

Lemma verify_part_flash card img st part fmt size st' ret :
  verify_part card img st part fmt size = Some (st', ret) → cs_flash st' = cs_flash st.
Proof.
  unfold verify_part. intros H.
  destruct (p_verify part =? 0); [by injection H as <- _|]. destruct (negb _); [done|].
  some_inv; try done; cbn in *; by injection H as <- _.
Qed.

(** ** The checksum file *)

(** The firmware has the partition's checksum file, if it asks for one, and
    its first word is [origin]. *)
Definition vf_file (card : disk) (img : image_handle) (part : dl_one_part_info) (origin : Z) : Prop :=
  p_verify part ≠ 0 →
  memalign_ok 1024 = true ∧
  ∃ c0 name j vd n, p_vf_filename part = c0 :: name ∧ c0 ≠ 0 ∧
    Img_OpenItem (Some img) (p_vf_filename part) = Some (Some j) ∧
    Img_ReadItem (D := cardD) card img (Some j) (replicate 1024 0) 1024 = Some (vd, n) ∧ n ≠ 0 ∧
    load_le 4 0 vd = Some origin.

(** The result the checksum decides. *)
Definition verdict (part : dl_one_part_info) (origin active : Z) : Z :=
  if p_verify part =? 0 then 0 else if origin =? active then 0 else -1.

Lemma verify_part_run card img st part fmt size origin active :
  vf_file card img part origin →
  (p_verify part ≠ 0 →
   (if fmt =? ANDROID_FORMAT_DETECT then Some (sunxi_sprite_part_sparsedata_verify (cs_sparse st))
    else sunxi_sprite_part_rawdata_verify (D := flashD) (cs_flash st) (p_addrlo part) size) = Some active) →
  verify_part card img st part fmt size =
    Some (CardState (cs_flash st) (cs_sparse st) None, verdict part origin active).
Proof.
  intros Hvf Hact. unfold verify_part, verdict. destruct (Z.eqb_spec (p_verify part) 0) as [Hz|Hz]; [done|].
  destruct (Hvf Hz) as (Hm & c0 & name & j & vd & n & Hname & Hc0 & Hopen & Hread & Hn & Hld).
  rewrite Hm, Hopen, Hname. cbn [negb head mbind option_bind].
  rewrite (proj2 (Z.eqb_neq c0 0)) by done. rewrite Hread. sbind.
  rewrite (proj2 (Z.eqb_neq n 0)) by done. cbn [cs_sparse cs_flash]. rewrite (Hact Hz). sbind. rewrite Hld. sbind.
  unfold err1. cbn [cs_flash cs_sparse]. by destruct (origin =? active).
Qed.

(** ** The map as a whole *)

Lemma deal_loop_app deal st ps qs :
  deal_loop deal st (ps ++ qs) =
    ('(st', r) ← deal_loop deal st ps; if r =? 0 then deal_loop deal st' qs else Some (st', r)).
Proof.
  revert st. induction ps as [|p ps IH]; intros st; [done|]. cbn [app deal_loop].
  destruct (deal st p) as [[st' ok]|]; sbind; [|done]. destruct ok; cbn [negb]; [apply IH|done].
Qed.

End code.

(** ** Theorems *)

Section theorems.
Context `{E : sprite_env} (cardD flashD : flash_driver).

(** C11: a raw file is flashed right: when the firmware has the partition's
    file, it fits the partition and both devices work, the call succeeds and
    the partition holds the file with the padding of its last sector, nothing
    else of the flash changed; a checksum file decides the result: it is 0
    exactly when its first word is the word sum of the data read back. *)
Theorem download_raw card img st part i src data pad origin chi :
  let n := (Z.of_nat (length data) + 511) / 512 in
  Img_OpenItem (Some img) (p_dl_filename part) = Some (Some i) →
  Img_GetItemSize img (Some i) = Some (Z.of_nat (length data)) → Img_GetItemStart img (Some i) = Some src →
  0 < src → src + n <= chi → chi < 4294967296 → 0 < Z.of_nat (length data) <= 512 * p_lenlo part →
  0 <= p_addrlo part → p_addrlo part + p_lenlo part < 4294967296 →
  is_byte_list (data ++ pad) → Z.of_nat (length (data ++ pad)) = 512 * n → holds card src (data ++ pad) →
  le_val (take 4 (data ++ pad)) ≠ SPARSE_HEADER_MAGIC → memalign_ok VERIFY_ONCE_BYTES = true →
  (∀ s k, 0 < k → s + k <= chi → read_ok (flash_driver := cardD) s k = true) →
  (∀ s k, 0 < k → s + k <= p_addrlo part + p_lenlo part →
     write_ok (flash_driver := flashD) s k = true ∧ read_ok (flash_driver := flashD) s k = true) →
  vf_file cardD card img part origin →
  __download_normal_part cardD flashD card img st part =
    Some (CardState (write_bytes (cs_flash st) (512 * p_addrlo part) (data ++ pad)) (cs_sparse st) None,
          verdict part origin
            (u32 (word_sum (if n mod VERIFY_ONCE_SECTORS =? 0 then data ++ pad else data)))).
Proof.
  intros n Hopen Hsize Hsrc Hs Hse Hchi Hlen Ha Hae Hb Hl Hh Hmagic Hmem Hrd Hwr Hvf.
  assert (Hn : n = (Z.of_nat (length data) + 511) / 512) by done.
  assert (Hfit : n <= p_lenlo part) by zmod.
  unfold __download_normal_part. rewrite Hopen. sbind. rewrite Hsize. sbind.
  destruct (Z.leb_spec (Z.of_nat (length data)) 0); [lia|].
  destruct (Z.ltb_spec (Z.shiftl (p_lenlo part) 9) (Z.of_nat (length data))) as [Hlt|_].
  { rewrite Z.shiftl_mul_pow2 in Hlt by lia. change (2 ^ 9) with 512 in Hlt. lia. }
  rewrite (write_part_raw cardD flashD (p_addrlo part) (p_addrlo part + p_lenlo part) chi Ha Hae Hchi Hrd)
    with (src := src) (data := data) (pad := pad); try done; cbn [imgitemhd]; try lia.
  - sbind. cbn [cs_flash cs_sparse].
    erewrite verify_part_run; [cbn [cs_flash cs_sparse]; reflexivity|done|]. intros _.
    cbn [Z.eqb ANDROID_FORMAT_BAD ANDROID_FORMAT_DETECT cs_flash].
    apply rawdata_verify_sum; try done.
    + intros s k ? ? ?. apply Hwr; lia.
    + fold n. lia.
    + apply holds_write.
  - intros s k ? ? ?. by apply Hwr.
Qed.

(** C29: a sparse file is flashed right: when the partition's file is a
    well-formed sparse image whose expansion ends by sector [hi] and both
    devices work, the flash holds exactly the expanded image and a checksum
    file is compared with the word sum of the file. *)
Theorem download_sparse card img st part i src data pad origin chi hi blk tb tc ck cs :
  let n := (Z.of_nat (length data) + 511) / 512 in
  Img_OpenItem (Some img) (p_dl_filename part) = Some (Some i) →
  Img_GetItemSize img (Some i) = Some (Z.of_nat (length data)) → Img_GetItemStart img (Some i) = Some src →
  0 < src → src + n <= chi → chi < 4294967296 → Z.of_nat (length data) <= 512 * p_lenlo part →
  0 <= p_lenlo part → 0 <= p_addrlo part → hi < 4294967296 →
  is_byte_list data → Z.of_nat (length (data ++ pad)) = 512 * n → holds card src (data ++ pad) →
  0 < blk < 4294967296 → 0 <= tc < 4294967296 →
  data = enc_header blk tb tc ck ++ enc_chunks blk cs → wf_chunks blk hi (p_addrlo part) cs →
  (∀ s k, 0 < k → s + k <= chi → read_ok (flash_driver := cardD) s k = true) →
  (∀ s k, 0 < k → s + k <= hi → write_ok (flash_driver := flashD) s k = true) →
  vf_file cardD card img part origin →
  ∃ sp, __download_normal_part cardD flashD card img st part =
    Some (CardState (expand blk cs (cs_flash st) (p_addrlo part)) sp None,
          verdict part origin (u32 (word_sum data))).
Proof.
  intros n Hopen Hsize Hsrc Hs Hse Hchi Hlen Hln Ha Hhi Hb Hl Hh Hblk Htc Himg Hwf Hrd Hwr Hvf.
  assert (H28 : 28 <= Z.of_nat (length data)) by (rewrite Himg, length_app; simpl; lia).
  unfold __download_normal_part. rewrite Hopen. sbind. rewrite Hsize. sbind.
  destruct (Z.leb_spec (Z.of_nat (length data)) 0); [lia|].
  destruct (Z.ltb_spec (Z.shiftl (p_lenlo part) 9) (Z.of_nat (length data))) as [Hlt|_].
  { rewrite Z.shiftl_mul_pow2 in Hlt by lia. change (2 ^ 9) with 512 in Hlt. lia. }
  destruct (λ Hwr', write_part_sparse cardD flashD (p_addrlo part) hi chi Ha Hhi Hchi Hrd Hwr' card img
    (CardState (cs_flash st) (cs_sparse st) (Some i)) part src data pad blk tb tc ck cs)
    as (sp & Hw & Hsum); try done.
  { intros s k ? ? ?. by apply Hwr. }
  rewrite Hw. sbind. cbn [cs_flash cs_sparse]. exists sp.
  erewrite verify_part_run; [cbn [cs_flash cs_sparse]; reflexivity|done|]. intros _.
  cbn [Z.eqb Pos.eqb ANDROID_FORMAT_DETECT cs_sparse]. by rewrite <- Hsum.
Qed.

(** C25: flashing a file that is no sparse image changes the partition's
    sectors only, whatever the card holds, however the drivers fail and
    whatever is returned. *)
Theorem raw_download_contained card img st part st' ret :
  0 <= p_addrlo part → 0 <= p_lenlo part → p_addrlo part + p_lenlo part < 4294967296 →
  (∀ i src bs, Img_OpenItem (Some img) (p_dl_filename part) = Some (Some i) →
     Img_GetItemStart img (Some i) = Some src → load_n 4 card (512 * src) = Some bs →
     le_val bs ≠ SPARSE_HEADER_MAGIC) →
  __download_normal_part cardD flashD card img st part = Some (st', ret) →
  same_out (p_addrlo part) (p_addrlo part + p_lenlo part) (cs_flash st) (cs_flash st').
Proof.
  intros Ha Hl Hae Hraw H. unfold __download_normal_part in H.
  apply bind_Some_inv in H as (item & Hopen & H). destruct item as [i|]; [|injection H as <- _; done].
  apply bind_Some_inv in H as (size & _ & H).
  destruct (Z.leb_spec size 0) as [|Hpos]; [injection H as <- _; done|].
  destruct (Z.ltb_spec (Z.shiftl (p_lenlo part) 9) size) as [|Hfit]; [injection H as <- _; done|].
  rewrite Z.shiftl_mul_pow2 in Hfit by lia. change (2 ^ 9) with 512 in Hfit.
  apply bind_Some_inv in H as ([st1 res] & Hw & H).
  assert (∃ src, Img_GetItemStart img (Some i) = Some src) as [src Hsrc].
  { unfold write_part in Hw. destruct (if _ <=? size then _ else _) as [n fb].
    apply bind_Some_inv in Hw as (src & Hsrc & _). cbn [imgitemhd] in Hsrc. eauto. }
  assert (Ho : same_out (p_addrlo part) (p_addrlo part + p_lenlo part) (cs_flash st) (cs_flash st1)).
  { eapply (write_part_out cardD flashD card img (CardState (cs_flash st) (cs_sparse st) (Some i)) part src size);
      [exact Hw|done|by intros bs; apply (Hraw i src bs)|done|done|zmod|done]. }
  destruct res as [fmt|]; [|injection H as <- _; done].
  apply verify_part_flash in H. by rewrite H.
Qed.

(** The entries of a map dealt with one after the other, all of them with
    success. *)
Inductive deal_steps (deal : card_state → dl_one_part_info → option (card_state * bool)) :
    card_state → list dl_one_part_info → card_state → Prop :=
| steps_nil st : deal_steps deal st [] st
| steps_cons st part st1 parts st2 :
    deal st part = Some (st1, true) → deal_steps deal st1 parts st2 → deal_steps deal st (part :: parts) st2.

Lemma deal_loop_steps deal st parts st' ret :
  deal_loop deal st parts = Some (st', ret) ↔
  (ret = 0 ∧ deal_steps deal st parts st') ∨
  (ret = -1 ∧ ∃ ps part qs st1, parts = ps ++ part :: qs ∧ deal_steps deal st ps st1 ∧ deal st1 part = Some (st', false)).
Proof.
  split.
  - revert st. induction parts as [|p parts IH]; intros st H; cbn [deal_loop] in H.
    { injection H as <- <-. left. split; [done|constructor]. }
    apply bind_Some_inv in H as ([st1 ok] & Hd & H). destruct ok; cbn [negb] in H.
    + apply IH in H as [[-> H]|(-> & ps & part & qs & st2 & -> & Hs & Hf)].
      * left. split; [done|]. by econstructor.
      * right. split; [done|]. exists (p :: ps), part, qs, st2. split_and!; [done|by econstructor|done].
    + injection H as <- <-. right. split; [done|]. exists [], p, parts, st. split_and!; [done|constructor|done].
  - intros [[-> Hs]|(-> & ps & part & qs & st1 & -> & Hs & Hf)].
    + induction Hs as [|st part st1 parts st2 Hd _ IH]; cbn [deal_loop]; [done|]. by rewrite Hd.
    + induction Hs as [|st p st1 ps st2 Hd _ IH]; cbn [deal_loop app].
      * by rewrite Hf.
      * rewrite Hd. by apply IH.
Qed.

(** The download map is an ordered transaction log: the call returns 0
    exactly when every entry, in order, was flashed with success, each from
    the state the one before left, and -1 exactly when some entry failed after
    all entries before it had succeeded, in which case no later entry is
    touched. *)
Theorem deal_part_in_order card img st part parts st' ret MIN size start :
  memalign_ok (SPRITE_CARD_ONCE_DATA_DEAL + SPRITE_CARD_HEAD_BUFF) = true →
  let deal := deal_one cardD flashD MIN size start card img in
  sunxi_sprite_deal_part cardD flashD MIN size start card img st (part :: parts) = Some (st', ret) ↔
  (ret = 0 ∧ deal_steps deal st (part :: parts) st') ∨
  (ret = -1 ∧ ∃ ps p qs st1, part :: parts = ps ++ p :: qs ∧ deal_steps deal st ps st1 ∧ deal st1 p = Some (st', false)).
Proof.
  intros Hm deal. unfold sunxi_sprite_deal_part. rewrite Hm. cbn [negb]. apply deal_loop_steps.
Qed.

End theorems.

(** ** Examples *)

Definition demo_img : image_handle := fw_handle demo_head [demo_file] 1.
Definition demo_sparse_state : sparse_state := SparseState 0 0 0 [] 0 0 [] 0.
Definition demo_st : card_state := CardState ∅ demo_sparse_state None.

(** The file of [demo_card], checked against itself. *)
Definition demo_part : dl_one_part_info := DlPart [65; 0] 100 8 (replicate 16 66) (replicate 16 66) 1.

Lemma demo_open : Img_OpenItem (E := demo_env) (Some demo_img) (replicate 16 66) = Some (Some 0).
Proof. vm_compute. reflexivity. Qed.

Lemma download_raw_witness :
  __download_normal_part (E := demo_env) good_driver good_driver demo_card demo_img demo_st demo_part =
    Some (CardState (write_bytes ∅ (512 * 100) ([7; 8; 9] ++ replicate 509 0)) demo_sparse_state None, 0).
Proof.
  etrans; [apply (download_raw (E := demo_env) good_driver good_driver demo_card demo_img demo_st demo_part 0 5
           [7; 8; 9] (replicate 509 0) (le_val [7; 8; 9; 0]) 1000)|vm_compute; reflexivity].
  1: exact demo_open.
  1-2: vm_compute; reflexivity.
  1-6: first [done|split; done].
  1: apply (bool_decide_unpack _); vm_compute; exact I.
  1-4: vm_compute; done.
  1-2: done.
  intros _. split; [done|]. exists 66, (replicate 15 66), 0.
  assert (is_Some (Img_ReadItem (D := good_driver) demo_card demo_img (Some 0) (replicate 1024 0) 1024)) as [[vd n] Hr]
    by (vm_compute; eauto).
  exists vd, n. split_and!; [done|done|exact demo_open|exact Hr| |].
  - vm_compute in Hr. by injection Hr as _ <-.
  - vm_compute in Hr. by injection Hr as <- _.
Defined.

Lemma raw_download_contained_witness :
  same_out 100 108 ∅ (write_bytes ∅ (512 * 100) ([7; 8; 9] ++ replicate 509 0)).
Proof.
  assert (__download_normal_part (E := demo_env) good_driver good_driver demo_card demo_img demo_st
            (DlPart [65; 0] 100 8 (replicate 16 66) [] 0) =
    Some (CardState (write_bytes ∅ (512 * 100) ([7; 8; 9] ++ replicate 509 0)) demo_sparse_state None, 0)) as H
    by (vm_compute; reflexivity).
  refine (raw_download_contained (E := demo_env) good_driver good_driver demo_card demo_img demo_st
            (DlPart [65; 0] 100 8 (replicate 16 66) [] 0) _ 0 _ _ _ _ H); [done..|].
  intros i src bs Hi Hsrc Hbs. change (p_dl_filename _) with (replicate 16 66) in Hi. rewrite demo_open in Hi.
  injection Hi as <-. vm_compute in Hsrc. injection Hsrc as <-. vm_compute in Hbs. by injection Hbs as <-.
Defined.

(** A sparse file: one skipped and one raw block of a sector. *)
Definition small_chunks (skip : Z) : list chunk := [Skip skip; Raw 1 (replicate 512 7)].
Definition small_image (skip : Z) : bytes := enc_header 512 (skip + 1) 2 0 ++ enc_chunks 512 (small_chunks skip).
Definition small_file : fw_file :=
  FwFile (replicate 16 1) (replicate 16 66) (replicate 268 2) 564 2048 (replicate 708 3).
Definition small_card (skip : Z) : disk :=
  write_bytes ∅ 512 (enc_head demo_head 1 ++ enc_item small_file ++ small_image skip ++ replicate 460 0).
Definition small_img : image_handle := fw_handle demo_head [small_file] 1.
Definition small_part : dl_one_part_info := DlPart [65; 0] 100 2 (replicate 16 66) [] 0.

Lemma download_sparse_witness :
  ∃ sp, __download_normal_part (E := demo_env) good_driver good_driver (small_card 1) small_img demo_st small_part =
    Some (CardState (expand 512 (small_chunks 1) ∅ 100) sp None, 0).
Proof.
  apply (download_sparse (E := demo_env) good_driver good_driver (small_card 1) small_img demo_st small_part 0 5
           (small_image 1) (replicate 460 0) 0 1000 200 512 2 2 0 (small_chunks 1)).
  1-3: vm_compute; reflexivity.
  1-7: done.
  1: apply (bool_decide_unpack _); vm_compute; exact I.
  1-2: vm_compute; reflexivity.
  1-3: done.
  1: cbn; split_and!; try lia; done.
  1-3: done.
Defined.

(** A sparse file can be written past the end of its partition: the tool
    only compares the size of the file with the partition.  Here a file of
    two sectors for a partition of two sectors, with a skipped chunk of ten
    sectors, is written to the eleventh sector, and the call succeeds. *)
Theorem sparse_escapes_partition :
  match __download_normal_part (E := demo_env) good_driver good_driver (small_card 10) small_img demo_st small_part with
  | Some (st', ret) => ret = 0 ∧ cs_flash st' !! (512 * 110) = Some 7 ∧
                       ¬ same_out (p_addrlo small_part) (p_addrlo small_part + p_lenlo small_part) ∅ (cs_flash st')
  | None => False
  end.
Proof.
  assert (match __download_normal_part (E := demo_env) good_driver good_driver (small_card 10) small_img demo_st small_part
          with Some (st', ret) => Some (ret, cs_flash st' !! (512 * 110)) | None => None end = Some (0, Some 7)) as H
    by (vm_compute; reflexivity).
  destruct (__download_normal_part _ _ _ _ _ _) as [[st' ret]|]; [|done]. injection H as -> Hx. split_and!; [done..|].
  intros Hs. rewrite (Hs (512 * 110)) in Hx by (simpl; lia). done.
Qed.

Lemma deal_part_in_order_witness :
  let deal := deal_one (E := demo_env) good_driver good_driver 0 100000 1 demo_card demo_img in
  let bad := DlPart [65; 0] 100 0 (replicate 16 66) [] 0 in
  sunxi_sprite_deal_part (E := demo_env) good_driver good_driver 0 100000 1 demo_card demo_img demo_st [bad; demo_part]
    = Some (demo_st, -1) ↔
  (-1 = 0 ∧ deal_steps deal demo_st [bad; demo_part] demo_st) ∨
  (-1 = -1 ∧ ∃ ps p qs st1, [bad; demo_part] = ps ++ p :: qs ∧ deal_steps deal demo_st ps st1 ∧
     deal st1 p = Some (demo_st, false)).
Proof. by apply (deal_part_in_order (E := demo_env)). Defined.
