(* ===== verification/CardBoot.v ===== *)
(** * Boot areas of a card (u-boot-2018/sprite/sprite_card.c)

    Writing and checking the boot loader images in the reserved sectors of an
    SD card or eMMC: [card_download_uboot] writes the package, reads it back
    with [card_verify_uboot] and writes the backup; [card_verify_boot0] checks
    the first stage; [card_erase_boot0] writes it for one controller and wipes
    it for the other; [sunxi_card_fill_boot0_magic] revives an erased one.
    The sectors come from the build configuration and the flash map and are
    arguments here.

    The theorems: the primary copy is written before the backup, and the
    backup only after a check; but the check cannot fail on a wrong checksum,
    and the revival runs exactly when the card cannot be read. *)

From S2P Require Import Prelude Mem CString Checksum Flash Sparse SpriteVerify.

Local Open Scope Z_scope.
Local Open Scope c_scope.

(** ** Data *)

Definition SUNXI_BOOT_FILE_NORMAL : Z := 0.
Definition SUNXI_BOOT_FILE_TOC : Z := 1.
Definition SUNXI_BOOT_FILE_PKG : Z := 4.

(** "uboot", "eGON.BT0" and "TOC0.GLH", terminated. *)
Definition UBOOT_MAGIC : bytes := [117; 98; 111; 111; 116; 0].
Definition BOOT0_MAGIC : bytes := [101; 71; 79; 78; 46; 66; 84; 48; 0].
Definition TOC0_MAGIC : bytes := [84; 79; 67; 48; 46; 71; 76; 72; 0].
Definition MAGIC_SIZE : nat := 8.
Definition TOC_MAIN_INFO_MAGIC : Z := 0x89119800.

(** The 32-bit words of a buffer. *)
Fixpoint words_of (l : bytes) : words :=
  match l with
  | a :: b :: c :: d :: l' => le_val [a; b; c; d] :: words_of l'
  | _ => []
  end.

Definition STORAGE_EMMC0 : Z := 7.
Definition STORAGE_UFS : Z := 8.

Section code.
Context `{E : sprite_env} `{D : flash_driver} (bootfile_mode : Z).

(** ** Checking *)

(** The buffer of [length] bytes rounded up to a cache line, after
    [sunxi_flash_phyread]; [None] when nothing was read. *)
Definition read_back (d : disk) (start_block length : Z) : option (Z * bytes) :=
  let '(ret, data) := flash_read d start_block (length / 512) in
  if ret =? 0 then None else Some (ret, splice 0 data (replicate (Z.to_nat (64 * ((length + 63) / 64))) 0)).

(** [if (!ret) return -1; else return 0;] *)
Definition card_exit (ret : Z) : Z := if ret =? 0 then -1 else 0.

Definition card_verify_uboot (d : disk) (start_block length : Z) : option Z :=
  if negb (memalign_ok length) then Some (-1)
  else
    match read_back d start_block length with
    | None => Some (card_exit 0)
    | Some (ret, buffer) =>
        if bootfile_mode =? SUNXI_BOOT_FILE_NORMAL then
          c ← strncmp (drop 4 buffer) UBOOT_MAGIC MAGIC_SIZE;
          if negb (c =? 0) then Some (-1)
          else
            len ← load_le 4 20 buffer;
            check_sum ← load_le 4 12 buffer;
            v ← sunxi_sprite_verify_checksum (words_of buffer) len check_sum;
            Some (if negb (v =? 0) then card_exit ret else card_exit 1)
        else
          magic ← load_le 4 16 buffer;
          if negb (magic =? TOC_MAIN_INFO_MAGIC) then Some (-1)
          else
            valid_len ← load_le 4 36 buffer;
            sum ← load_le 4 20 buffer;
            v ← sunxi_sprite_verify_checksum (words_of buffer) valid_len sum;
            Some (if negb (v =? 0) then card_exit ret else card_exit 1)
    end.

Definition card_verify_boot0 (d : disk) (start_block length : Z) : option Z :=
  if negb (memalign_ok length) then Some (-1)
  else
    match read_back d start_block length with
    | None => Some (card_exit 0)
    | Some (ret, buffer) =>
        if (bootfile_mode =? SUNXI_BOOT_FILE_NORMAL) || (bootfile_mode =? SUNXI_BOOT_FILE_PKG) then
          c ← strncmp (drop 4 buffer) BOOT0_MAGIC MAGIC_SIZE;
          if negb (c =? 0) then Some (card_exit ret)
          else
            len ← load_le 4 16 buffer;
            check_sum ← load_le 4 12 buffer;
            v ← sunxi_sprite_verify_checksum (words_of buffer) len check_sum;
            Some (if negb (v =? 0) then card_exit ret else card_exit 1)
        else
          c ← strncmp buffer TOC0_MAGIC MAGIC_SIZE;
          if negb (c =? 0) then Some (card_exit ret)
          else
            len ← load_le 4 28 buffer;
            check_sum ← load_le 4 12 buffer;
            v ← sunxi_sprite_verify_checksum (words_of buffer) len check_sum;
            Some (if negb (v =? 0) then card_exit ret else card_exit 1)
    end.

(** ** Writing *)

Definition card_download_uboot (TOC1 TOC1_BAK : Z) (d : disk) (length : Z) (buffer : bytes) : option (disk * Z) :=
  '(d, ret) ← flash_write d TOC1 (length / 512) buffer;
  if ret =? 0 then Some (d, -1)
  else
    ret ← card_verify_uboot d TOC1 length;
    if ret <? 0 then Some (d, -1)
    else
      '(d, ret) ← flash_write d TOC1_BAK (length / 512) buffer;
      Some (d, if ret =? 0 then -1 else 0).

(** A sequence of [sunxi_sprite_phywrite] calls that stops at the first
    failure; the last return value is [ret]. *)
Fixpoint phywrites (d : disk) (length : Z) (ret : Z) (ws : list (Z * bytes)) : option (disk * Z) :=
  match ws with
  | [] => Some (d, ret)
  | (start, buf) :: ws' =>
      '(d, ret) ← flash_write d start (length / 512) buf;
      if ret =? 0 then Some (d, ret) else phywrites d length ret ws'
  end.

(** The sectors of the copies: on SD cards, eMMC 3 (if the platform has it)
    and UFS. *)
Record boot0_map := Boot0Map {
  BOOT0_SDMMC : Z; BOOT0_SDMMC_BACKUP : Z;
  BOOT0_EMMC3 : Z; BOOT0_EMMC3_BACKUP : Z;
  BOOT0_UFS : Z; BOOT0_UFS_BACKUP : Z;
  PLATFORM_SUPPORT_EMMC3 : bool
}.

Definition card_erase_boot0 (M : boot0_map) (d : disk) (length : Z) (buffer : bytes) (storage_type : Z) :
    option (disk * Z) :=
  if negb (memalign_ok length) then Some (d, -1)
  else
    let erase_buffer := replicate (Z.to_nat length) 0 in
    '(d, ret) ← phywrites d length 0
      (if (storage_type =? STORAGE_EMMC) || (storage_type =? STORAGE_EMMC0) then
         [(BOOT0_SDMMC_BACKUP M, buffer); (BOOT0_SDMMC M, buffer)] ++
         (if PLATFORM_SUPPORT_EMMC3 M
          then [(BOOT0_EMMC3 M, erase_buffer); (BOOT0_EMMC3_BACKUP M, erase_buffer)] else [])
       else if storage_type =? STORAGE_UFS then [(BOOT0_UFS_BACKUP M, buffer); (BOOT0_UFS M, buffer)]
       else if PLATFORM_SUPPORT_EMMC3 M then
         [(BOOT0_EMMC3_BACKUP M, buffer); (BOOT0_EMMC3 M, buffer);
          (BOOT0_SDMMC M, erase_buffer); (BOOT0_SDMMC_BACKUP M, erase_buffer)]
       else []);
    Some (d, card_exit ret).

(** ** Reviving an erased boot0 *)

Definition BOOT0_MAX_SIZE : nat := 32 * 1024.

(** The buffer with the magic filled in and the checksum as it came. *)
Definition fill_magic (buffer : bytes) : bytes := splice 4 (take 8 BOOT0_MAGIC) buffer.

(** [if (sunxi_sprite_read(...))] takes a successful read for the error. *)
Definition sunxi_card_fill_boot0_magic (d : disk) : option (disk * Z) :=
  let '(r, _) := flash_read d 16 (Z.of_nat BOOT0_MAX_SIZE / 512) in
  if negb (r =? 0) then Some (d, -1)
  else
    let buffer := fill_magic (replicate BOOT0_MAX_SIZE 0) in
    src_sum ← load_le 4 12 buffer;
    let buffer := splice 12 (le_bytes 4 STAMP_VALUE) buffer in
    len ← load_le 4 16 buffer;
    cal_sum ← add_sum buffer len;
    if negb (src_sum =? cal_sum) then Some (d, -1)
    else
      let buffer := splice 12 (le_bytes 4 src_sum) buffer in
      '(d, w) ← flash_write d 16 (Z.of_nat BOOT0_MAX_SIZE / 512) buffer;
      Some (d, if w =? Z.of_nat BOOT0_MAX_SIZE / 512 then 0 else -1).

(** ** Lemmas *)

Lemma card_exit_nonzero r : r ≠ 0 → card_exit r = 0.
Proof. intros H. unfold card_exit. by destruct (Z.eqb_spec r 0). Qed.

Lemma read_back_nonzero d start n ret buf : read_back d start n = Some (ret, buf) → ret ≠ 0.
Proof.
  unfold read_back. destruct (flash_read d start (n / 512)) as [r data].
  destruct (Z.eqb_spec r 0); [done|]. intros [= <- _]. done.
Qed.

End code.

Lemma splice_mid p x y r : length x = length y → splice (length p) x (p ++ y ++ r) = p ++ x ++ r.
Proof.
  intros H. unfold splice. rewrite take_app_length, drop_app_add, H, drop_app_length. done.
Qed.

(** The revived image: four zero bytes, the magic, zeroes. *)
Lemma fill_magic_zeros :
  ∃ p r, length p = 12%nat ∧ length r = (BOOT0_MAX_SIZE - 20)%nat ∧
    fill_magic (replicate BOOT0_MAX_SIZE 0) = p ++ le_bytes 4 0 ++ le_bytes 4 0 ++ r.
Proof.
  exists ([0; 0; 0; 0] ++ take 8 BOOT0_MAGIC), (replicate (BOOT0_MAX_SIZE - 20) 0).
  split_and!; [done|by rewrite length_replicate|]. unfold fill_magic.
  replace BOOT0_MAX_SIZE with (4 + (8 + (4 + (4 + (BOOT0_MAX_SIZE - 20)))))%nat at 1 by (unfold BOOT0_MAX_SIZE; lia).
  rewrite !replicate_add. apply (splice_mid (replicate 4 0)). done.
Qed.

(** ** Theorems *)

(** The magic [card_verify_uboot] asks for. *)
Definition uboot_magic_ok (bootfile_mode : Z) (buffer : bytes) : Prop :=
  if bootfile_mode =? SUNXI_BOOT_FILE_NORMAL then strncmp (drop 4 buffer) UBOOT_MAGIC MAGIC_SIZE = Some 0
  else load_le 4 16 buffer = Some TOC_MAIN_INFO_MAGIC.

(** The read-back checks of the boot area cannot report a bad checksum:
    once the sectors were read, [card_verify_boot0] returns success whatever
    they hold, a wrong magic included, and [card_verify_uboot] returns success
    whenever the magic is right; the error exit returns the number of sectors
    read, which is not zero. *)
Theorem boot_checks_accept_all `{E : sprite_env} `{D : flash_driver} mode d start length ret buffer :
  memalign_ok length = true → read_back d start length = Some (ret, buffer) →
  (∀ v, card_verify_boot0 mode d start length = Some v → v = 0) ∧
  (uboot_magic_ok mode buffer → ∀ v, card_verify_uboot mode d start length = Some v → v = 0).
Proof.
  intros Hm Hr. pose proof (card_exit_nonzero ret (read_back_nonzero _ _ _ _ _ Hr)) as Hret. split.
  - intros v H. unfold card_verify_boot0 in H. rewrite Hm, Hr in H. cbn [negb] in H.
    some_inv; simplify_eq; try done; by case_match.
  - intros Hmagic v H. unfold card_verify_uboot in H. rewrite Hm, Hr in H. cbn [negb] in H.
    unfold uboot_magic_ok in Hmagic. destruct (mode =? SUNXI_BOOT_FILE_NORMAL); rewrite Hmagic in H;
      cbn [mbind option_bind negb Z.eqb] in H; rewrite ?Z.eqb_refl in H; cbn [negb] in H;
      some_inv; simplify_eq; by case_match.
Qed.

(** A boot0 of one sector with the right magic and a wrong checksum. *)
Definition bad_boot0 : bytes :=
  [0; 0; 0; 0] ++ take 8 BOOT0_MAGIC ++ le_bytes 4 0x12345678 ++ le_bytes 4 512 ++ replicate 492 1.

Lemma boot_checks_accept_all_witness :
  sunxi_sprite_verify_checksum (words_of bad_boot0) 512 0x12345678 = Some (-1) ∧
  card_verify_boot0 (E := nor_env) (D := good_driver) 0 (write_bytes ∅ 512 bad_boot0) 1 512 = Some 0.
Proof.
  split; [vm_compute; reflexivity|].
  assert (is_Some (card_verify_boot0 (E := nor_env) (D := good_driver) 0 (write_bytes ∅ 512 bad_boot0) 1 512)) as [v Hv]
    by (vm_compute; eauto).
  rewrite Hv. f_equal.
  assert (is_Some (read_back (D := good_driver) (write_bytes ∅ 512 bad_boot0) 1 512)) as [[ret buf] Hr]
    by (vm_compute; eauto).
  by eapply (proj1 (boot_checks_accept_all (E := nor_env) (D := good_driver) 0 _ 1 512 ret buf eq_refl Hr)).
Defined.

(** The repair of an erased boot0 is upside down: on a card that can be
    read it changes nothing and fails; on one that cannot, it overwrites the
    boot sectors with an empty image that carries the magic, and succeeds. *)
Theorem fill_boot0_inverted `{D : flash_driver} d :
  (∀ bs, flash_read d 16 64 = (64, bs) → sunxi_card_fill_boot0_magic d = Some (d, -1)) ∧
  (read_ok 16 64 = false → write_ok 16 64 = true →
   sunxi_card_fill_boot0_magic d =
     Some (write_bytes d (512 * 16) (fill_magic (replicate BOOT0_MAX_SIZE 0)), 0)).
Proof.
  unfold sunxi_card_fill_boot0_magic. change (Z.of_nat BOOT0_MAX_SIZE / 512) with 64. split.
  - intros bs ->. done.
  - intros Hr Hw. unfold flash_read. rewrite Hr. cbn [negb Z.eqb].
    destruct fill_magic_zeros as (p & r & Hp & Hrl & ->).
    assert (load_le 4 12 (p ++ le_bytes 4 0 ++ le_bytes 4 0 ++ r) = Some 0) as ->
      by (rewrite <- Hp; by apply load_le_bytes). sbind.
    assert (Hsp : ∀ x y, length x = length y → splice 12 x (p ++ y ++ le_bytes 4 0 ++ r) = p ++ x ++ le_bytes 4 0 ++ r)
      by (intros; rewrite <- Hp; by apply splice_mid).
    rewrite !Hsp by done.
    assert (load_le 4 16 (p ++ le_bytes 4 STAMP_VALUE ++ le_bytes 4 0 ++ r) = Some 0) as ->.
    { rewrite app_assoc. assert (length (p ++ le_bytes 4 STAMP_VALUE) = 16%nat) as <- by (rewrite length_app, Hp; done).
      by apply load_le_bytes. }
    sbind. unfold add_sum. cbn [Z.shiftr Z.shiftl Z.to_nat sum_words Z.land Z.eqb mbind option_bind negb].
    set (buf := p ++ le_bytes 4 0 ++ le_bytes 4 0 ++ r).
    pose proof (flash_write_ok d 16 64 buf [] Hw) as Hfw. rewrite app_nil_r in Hfw.
    rewrite Hfw; [done|]. unfold buf. rewrite !length_app, !length_le_bytes, Hp, Hrl. unfold BOOT0_MAX_SIZE. lia.
Qed.

Lemma fill_boot0_inverted_witness :
  sunxi_card_fill_boot0_magic (D := FlashDriver (λ _ _, false) (λ _ _, true)) ∅ =
    Some (write_bytes ∅ (512 * 16) (fill_magic (replicate BOOT0_MAX_SIZE 0)), 0).
Proof. by apply (fill_boot0_inverted (D := FlashDriver (λ _ _, false) (λ _ _, true)) ∅). Defined.

(** The package is written in order: the backup is only written after the
    primary copy was written and checked, and success means that both hold
    the package. *)
Theorem download_uboot_order `{E : sprite_env} `{D : flash_driver} mode TOC1 TOC1_BAK d n buffer d' :
  0 < n → Z.of_nat (length buffer) = 512 * n →
  card_download_uboot mode TOC1 TOC1_BAK d (512 * n) buffer = Some (d', 0) →
  d' = write_bytes (write_bytes d (512 * TOC1) buffer) (512 * TOC1_BAK) buffer ∧
  card_verify_uboot mode (write_bytes d (512 * TOC1) buffer) TOC1 (512 * n) = Some 0.
Proof.
  intros Hn Hl H. unfold card_download_uboot in H. replace (512 * n / 512) with n in H by zmod.
  assert (Hsl : slice 0 (Z.to_nat (512 * n)) buffer = Some buffer).
  { pose proof (slice_all buffer []) as Hs. rewrite app_nil_r in Hs.
    by replace (Z.to_nat (512 * n)) with (length buffer) by lia. }
  unfold flash_write in H. rewrite Hsl in H. cbn [mbind option_bind] in H. destruct (write_ok TOC1 n); [|by injection H].
  rewrite (proj2 (Z.eqb_neq n 0)) in H by lia. apply bind_Some_inv in H as (v & Hv & H).
  destruct (Z.ltb_spec v 0) as [|Hpos]; [by injection H|].
  destruct (write_ok TOC1_BAK n); [|by injection H].
  rewrite (proj2 (Z.eqb_neq n 0)) in H by lia. injection H as <-. split; [done|]. rewrite Hv. f_equal.
  unfold card_verify_uboot in Hv. some_inv; simplify_eq; unfold card_exit in *; repeat case_match; lia.
Qed.
