(* ===== verification/BootImage.v ===== *)
(** * Boot images in memory and on the boot medium

    What the loaders of the boot stage share: the fields of a TOC1 package
    header (spl/include/private_toc.h), the checksum routines of [Checksum]
    applied to byte memory, the boot media flash map
    (spl/drivers/sunxi_flashmap/sunxi_flashmap.c) and the read interface of a
    boot medium.  A medium transfers the bytes of whole sectors; a transfer
    that fails may have stored a part of them. *)

From S2P Require Import Prelude Mem Checksum Heap.

Local Open Scope Z_scope.

(** ** Words of a byte string *)

(** The little-endian words of an image; a tail of fewer than four bytes is
    not a word. *)
Fixpoint words_of (bs : bytes) : words :=
  match bs with
  | a :: b :: c :: d :: r => le_val [a; b; c; d] :: words_of r
  | _ => []
  end.

(** Bytes that [verify_addsum] may touch: the words of the image and the
    checksum field of the header. *)
Definition addsum_span (size : Z) : nat := (4 * (6 `max` Z.to_nat (size / 4)))%nat.

(** [verify_addsum(a, size)] on memory: it stamps the checksum field, sums,
    and writes the field back. *)
Definition verify_addsum_at (m : mem) (a size : Z) : option (mem * Z) :=
  bs ← load_n (addsum_span size) m a;
  '(ws, r) ← verify_addsum (words_of bs) size;
  src_sum ← ws !! add_sum_idx;
  m ← wr32 m (a + 4 * Z.of_nat add_sum_idx) src_sum;
  Some (m, r).

(** [sunxi_verify_checksum(a, length, src_sum)] on memory. *)
Definition sunxi_verify_checksum_at (m : mem) (a size src_sum : Z) : option Z :=
  bs ← load_n (Z.to_nat (4 * (size / 4))) m a;
  sunxi_verify_checksum (words_of bs) size src_sum.

(** ** The TOC1 header *)

Definition TOC_MAIN_INFO_MAGIC : Z := 0x89119800.

(** Offsets of the fields of [sbrom_toc1_head_info] in use. *)
Definition off_magic : Z := 16.
Definition off_items_nr : Z := 32.
Definition off_valid_len : Z := 36.
Definition sizeof_toc1_head : Z := 64.

(** ** The flash map *)

Inductive flash_type := FLASHMAP_SPI_NOR | FLASHMAP_SDMMC | FLASHMAP_UFS | FLASHMAP_TYPE_COUNT.

(** [flash_map_config] in the head of boot0 or sboot. *)
Record flash_map_config := FlashMap {
  boot_param : Z;
  uboot_start_sector : Z;
  uboot_bak_start_sector : Z
}.

(** The build's own positions, where it defines them. *)
Class flashmap_build := FlashmapBuild {
  SUNXI_SDMMC_PARAMETER_REGION_LBA_START : option Z;
  UBOOT_START_SECTOR_IN_SDMMC : option Z;
  UBOOT_START_SECTOR_IN_UFS : option Z;
  UBOOT_BACKUP_START_SECTOR_IN_SDMMC : option Z;
  UBOOT_BACKUP_START_SECTOR_IN_UFS : option Z;
  CFG_SPINOR_UBOOT_OFFSET : option Z;
  CFG_SPINOR_UBOOT_PARAMS_OFFSET : option Z
}.

Section flashmap.
Context `{B : flashmap_build}.

Definition DEFAULT_SUNXI_SDMMC_PARAMETER_REGION_LBA_START : Z :=
  default 24504 SUNXI_SDMMC_PARAMETER_REGION_LBA_START.
Definition DEFAULT_UBOOT_START_SECTOR_IN_SDMMC : Z := default 32800 UBOOT_START_SECTOR_IN_SDMMC.
Definition DEFAULT_UBOOT_START_SECTOR_IN_UFS : Z := default 32800 UBOOT_START_SECTOR_IN_UFS.
Definition DEFAULT_UBOOT_BACKUP_START_SECTOR_IN_SDMMC : Z := default 24576 UBOOT_BACKUP_START_SECTOR_IN_SDMMC.
Definition DEFAULT_UBOOT_BACKUP_START_SECTOR_IN_UFS : Z := default 24576 UBOOT_BACKUP_START_SECTOR_IN_UFS.
Definition DEFAULT_CFG_SPINOR_UBOOT_OFFSET : Z := default 128 CFG_SPINOR_UBOOT_OFFSET.
Definition DEFAULT_BOOT_PARAM_START : Z :=
  default (DEFAULT_CFG_SPINOR_UBOOT_OFFSET - 8) CFG_SPINOR_UBOOT_PARAMS_OFFSET.

(** The fields are [u32], the results [int]. *)
Definition sunxi_flashmap_bootparam_start (head : flash_map_config) (flash_name : flash_type) : Z :=
  if 0 <? boot_param head then s32 (boot_param head)
  else match flash_name with
       | FLASHMAP_SPI_NOR => DEFAULT_BOOT_PARAM_START
       | FLASHMAP_SDMMC => DEFAULT_SUNXI_SDMMC_PARAMETER_REGION_LBA_START
       | _ => 0
       end.

Definition sunxi_flashmap_toc1_start (head : flash_map_config) (flash_name : flash_type) : Z :=
  if 0 <? uboot_start_sector head then s32 (uboot_start_sector head)
  else match flash_name with
       | FLASHMAP_SPI_NOR => DEFAULT_CFG_SPINOR_UBOOT_OFFSET
       | FLASHMAP_SDMMC => DEFAULT_UBOOT_START_SECTOR_IN_SDMMC
       | FLASHMAP_UFS => DEFAULT_UBOOT_START_SECTOR_IN_UFS
       | FLASHMAP_TYPE_COUNT => 0
       end.

Definition sunxi_flashmap_toc1_bak_start (head : flash_map_config) (flash_name : flash_type) : Z :=
  if 0 <? uboot_start_sector head then s32 (uboot_bak_start_sector head)
  else match flash_name with
       | FLASHMAP_SPI_NOR => 0
       | FLASHMAP_SDMMC => DEFAULT_UBOOT_BACKUP_START_SECTOR_IN_SDMMC
       | FLASHMAP_UFS => DEFAULT_UBOOT_BACKUP_START_SECTOR_IN_UFS
       | FLASHMAP_TYPE_COUNT => 0
       end.

End flashmap.

(** ** Boot media *)

(** A transfer of [n] sectors from sector [start]: the bytes stored and
    whether it succeeded. *)
Class boot_medium := BootMedium { medium_read : Z → Z → bytes * bool }.

(** What a medium promises: a transfer that succeeds delivers whole sectors. *)
Class WholeSectors `{M : boot_medium} : Prop := {
  whole_sectors s n bs : medium_read s n = (bs, true) → 0 <= n →
    Z.of_nat (length bs) = 512 * n ∧ is_byte_list bs
}.

(** A read into a buffer. *)
Definition read_into `{M : boot_medium} (m : mem) (start n dst : Z) : option (mem * bool) :=
  let '(bs, ok) := medium_read start n in m ← store_n m dst bs; Some (m, ok).

(** ** Words and checksums *)

Lemma words_of_cons4 a b c d r : words_of (a :: b :: c :: d :: r) = le_val [a; b; c; d] :: words_of r.
Proof. done. Qed.

(** Induction in steps of four bytes. *)
Lemma words_take k bs : words_of (take (4 * k) bs) = take k (words_of bs).
Proof.
  revert bs. induction k as [|k IH]; intros bs; [by rewrite !take_0|].
  replace (4 * S k)%nat with (S (S (S (S (4 * k))))) by lia.
  destruct bs as [|a [|b [|c [|d r]]]]; try done. simpl. do 1 f_equal. apply (IH r).
Qed.

Lemma words_lookup i bs :
  (4 * i + 4 <= length bs)%nat → words_of bs !! i = Some (le_val (take 4 (drop (4 * i) bs))).
Proof.
  revert bs. induction i as [|i IH]; intros bs H; destruct bs as [|a [|b [|c [|d r]]]]; simpl in H; try lia.
  - done.
  - rewrite words_of_cons4. cbn [lookup list_lookup]. change (words_of r !! i = Some (le_val (take 4 (drop (4 * S i) (a :: b :: c :: d :: r))))).
    replace (4 * S i)%nat with (S (S (S (S (4 * i))))) by lia. cbn [drop]. apply IH. lia.
Qed.

Lemma length_words k bs : (4 * k <= length bs)%nat → (k <= length (words_of bs))%nat.
Proof.
  destruct k as [|k]; [lia|]. intros H. pose proof (words_lookup k bs) as Hl.
  assert (k < length (words_of bs))%nat; [|lia]. apply lookup_lt_is_Some. rewrite Hl; [eauto|lia].
Qed.

(** The checksum test of an image given by its words. *)
Definition sum_ok (ws : words) (size : Z) : bool :=
  match ws !! add_sum_idx with
  | Some y => wsum (image_words ws size) =? y
  | None => false
  end.

Lemma wr32_same m a bs :
  load_n 4 m a = Some bs → is_byte_list bs → wr32 m a (le_val bs) = Some m.
Proof.
  intros H Hb. pose proof (load_n_length _ _ _ _ H) as Hl. unfold wr32.
  rewrite <- Hl at 1. rewrite le_bytes_val by done. apply store_same. by rewrite Hl.
Qed.

(** The sum depends on the words of the image and the header only. *)
Lemma sum_ok_take ws size k :
  (6 <= k)%nat → (Z.to_nat (size / 4) <= k)%nat → sum_ok (take k ws) size = sum_ok ws size.
Proof.
  intros H6 Hk. unfold sum_ok, image_words. rewrite lookup_take_lt by (unfold add_sum_idx; lia).
  rewrite <- take_insert_lt by (unfold add_sum_idx; lia). rewrite take_take, Nat.min_l by done. done.
Qed.

Section addsum.
Context (m : mem) (a size : Z) (img : bytes).
Context (Hl : load_n (length img) m a = Some img) (Hb : is_byte_list img)
        (Hspan : (addsum_span size <= length img)%nat) (Hsz : 0 <= size < 2 ^ 32).

Lemma addsum_load : load_n (addsum_span size) m a = Some (take (addsum_span size) img).
Proof.
  pose proof (load_n_sub _ m a img 0 (addsum_span size) Hl ltac:(lia)) as H.
  by rewrite Z.add_0_r, drop_0 in H.
Qed.

Lemma addsum_at_spec :
  16 <= size → verify_addsum_at m a size = Some (m, if sum_ok (words_of img) size then 0 else -1).
Proof.
  intros H16. unfold verify_addsum_at. rewrite addsum_load. sbind. unfold addsum_span in *.
  set (k := (6 `max` Z.to_nat (size / 4))%nat) in *. rewrite words_take.
  assert (Hw : (k <= length (words_of img))%nat) by (apply length_words; lia).
  assert (words_of img !! add_sum_idx = Some (le_val (take 4 (drop 20 img)))) as Hx by (apply words_lookup; unfold add_sum_idx; lia).
  assert (take k (words_of img) !! add_sum_idx = Some (le_val (take 4 (drop 20 img)))) as Ht
    by (rewrite lookup_take_lt by (unfold add_sum_idx; lia); done).
  rewrite (verify_addsum_spec _ _ _ Ht) by (try rewrite length_take; lia). sbind. rewrite Ht. sbind.
  rewrite (wr32_same m (a + 4 * Z.of_nat add_sum_idx) (take 4 (drop 20 img))).
  - sbind. do 2 f_equal. rewrite <- (sum_ok_take (words_of img) size k) by lia. unfold sum_ok. by rewrite Ht.
  - apply (load_n_sub _ m a img 20 4 Hl). lia.
  - by apply Forall_take, Forall_drop.
Qed.

Lemma addsum_at_short : size < 16 → verify_addsum_at m a size = None.
Proof.
  intros H16. unfold verify_addsum_at. rewrite addsum_load. sbind.
  assert (addsum_span size = 24%nat) as ->.
  { unfold addsum_span. assert (0 <= size / 4 < 4) by zmod. lia. }
  replace 24%nat with (4 * 6)%nat by lia. rewrite words_take. unfold verify_addsum.
  destruct (_ !! add_sum_idx); [|done]. sbind. unfold sum_scalar. rewrite shiftr2, sum4_loop_short; [done|zmod|].
  rewrite length_insert, length_take. lia.
Qed.

(** An accepted image is sealed and memory is as before. *)
Lemma addsum_at_inv m' r :
  verify_addsum_at m a size = Some (m', r) →
  m' = m ∧ 16 <= size ∧ r = if sum_ok (words_of img) size then 0 else -1.
Proof.
  destruct (decide (size < 16)); [by rewrite addsum_at_short|].
  rewrite addsum_at_spec by lia. intros [= <- <-]. auto with lia.
Qed.

End addsum.

(** The package header at an address: the magic, and the length [len]. *)
Definition header_says (m : mem) (a len : Z) : Prop :=
  rd32 m (a + off_magic) = Some TOC_MAIN_INFO_MAGIC ∧ rd32 m (a + off_valid_len) = Some len.

(** A package whose checksum is right lies at an address: [len] bytes, summed
    as whole words, where [len] is what the header says, as long as that many
    bytes fit into the address space. *)
Definition package_sealed (m : mem) (a : Z) : Prop :=
  ∃ img len, 16 <= len <= Z.of_nat (length img) + 3 ∧ load_n (length img) m a = Some img ∧ sum_ok (words_of img) len = true ∧
    (a + len <= 2 ^ 32 → header_says m a len).

(** An accepted checksum on memory of bytes: a sealed image lies there. *)
Lemma addsum_at_sealed m a size m' :
  byte_mem m → is_u32 size → (a + size <= 2 ^ 32 → 16 <= size → header_says m a size) → verify_addsum_at m a size = Some (m', 0) →
  m' = m ∧ package_sealed m' a.
Proof.
  intros Hb Hu Hh Hv. pose proof Hv as Hv0. unfold verify_addsum_at in Hv. apply bind_Some_inv in Hv as (img & Hl & _).
  pose proof (load_n_length _ _ _ _ Hl) as Hlen. pose proof (byte_mem_load _ _ _ _ Hb Hl) as Hbi. rewrite <- Hlen in Hl.
  destruct (addsum_at_inv m a size img Hl Hbi ltac:(lia) Hu _ _ Hv0) as (-> & H16 & Hok).
  split; [done|]. exists img, size. split; [|split; [done|split; [by destruct (sum_ok _ _)|by intros; apply Hh]]]. rewrite Hlen.
  unfold addsum_span. pose proof (Z.div_mod size 4 ltac:(lia)). pose proof (Z.mod_pos_bound size 4 ltac:(lia)). lia.
Qed.
