(* ===== verification/SdMmc.v ===== *)
(** * The boot card (spl/nboot/load_image_mmc/load_image_sdmmc.c)

    Which card controller boot0 uses, its one-time initialisation and its
    reads.  The controller driver (drivers/mmc) is the class [mmc_host]:
    [sunxi_mmc_init] returns a code, a transfer delivers bytes and says
    whether it succeeded.  [mmc_bread] returns the number of blocks, 0 for a
    failure or for an empty request. *)

From S2P Require Import Prelude Mem Checksum Heap BootImage.

Local Open Scope Z_scope.

Definition E_SDMMC_OK : Z := 0.
Definition E_SDMMC_NUM_ERR : Z := 1.
Definition E_SDMMC_INIT_ERR : Z := 2.
Definition E_SDMMC_READ_ERR : Z := 3.
Definition E_SDMMC_FIND_BOOT1_ERR : Z := 4.

Definition MMC_NOT_INIT : Z := 0.
Definition MMC_EARLY_INIT : Z := 1.

Class mmc_host := MmcHost {
  sunxi_mmc_init : Z → Z → Z;
  mmc_xfer : Z → Z → Z → bytes * bool
}.

(** The static flag of [sunxi_mmc_init_ext], the four [line_sel] words of the
    storage data, and whether the controller is up. *)
Record mmc_state := MmcState {
  early_init_flag : Z;
  line_sel : list Z;
  mmc_on : bool
}.

(** The head of boot0: the boot medium code and the flash map. *)
Record boot0_head := Boot0Head {
  platform0 : Z;
  flash_map : flash_map_config
}.

(** The sectors of one card as a boot medium. *)
Definition card_medium `{H : mmc_host} (card : Z) : boot_medium := BootMedium (mmc_xfer card).

Section code.
Context `{H : mmc_host}.

Definition get_card_num (h : boot0_head) : Z :=
  let card_num := Z.land (platform0 h) 0xf in
  if card_num =? 1 then 3 else card_num.

Definition mmc_bread (m : mem) (card start blkcnt dst : Z) : option (mem * Z) :=
  if blkcnt =? 0 then Some (m, 0)
  else
    '(m, ok) ← read_into (M := card_medium card) m start blkcnt dst;
    Some (m, if (ok : bool) then blkcnt else 0).

(** [!mmc_bread(...)] as an [int]. *)
Definition mmc_bread_ext (h : boot0_head) (m : mem) (start blkcnt dst : Z) : option (mem * Z) :=
  '(m, r) ← mmc_bread m (get_card_num h) start blkcnt dst;
  Some (m, if r =? 0 then 1 else 0).

Definition sunxi_mmc_cpu_read (h : boot0_head) (m : mem) (start blkcnt dst : Z) : option (mem * Z) :=
  if negb (blkcnt =? 1) then Some (m, -1)
  else
    '(m, r) ← mmc_bread m (get_card_num h) start 1 dst;
    Some (m, if r =? 0 then 1 else 0).

(** [spl_flash_read]: the outcome of the read is not looked at. *)
Definition mmc_spl_flash_read (h : boot0_head) (logic_offset : option Z) (m : mem) (start sector_cnt buffer : Z) :
    option (mem * Z) :=
  '(m, _) ← mmc_bread m (get_card_num h) (u32 (start + default 0 logic_offset)) sector_cnt buffer;
  Some (m, 0).

(** [line_sel] has four elements; a larger card number is outside the array. *)
Definition sunxi_mmc_init_ext (h : boot0_head) (st : mmc_state) : option (mmc_state * Z) :=
  if early_init_flag st =? MMC_EARLY_INIT then Some (st, 0)
  else
    let card_no := get_card_num h in
    if card_no <? 0 then Some (st, E_SDMMC_NUM_ERR)
    else
      sel ← line_sel st !! Z.to_nat card_no;
      let lines := if sel =? 0 then <[Z.to_nat card_no := 4]> (line_sel st) else line_sel st in
      width ← lines !! Z.to_nat card_no;
      if sunxi_mmc_init card_no width =? -1
      then Some (MmcState (early_init_flag st) lines (mmc_on st), E_SDMMC_INIT_ERR)
      else Some (MmcState MMC_EARLY_INIT lines true, 0).

(** The controller is shut down; the static flag stays. *)
Definition sunxi_mmc_exit (st : mmc_state) : mmc_state :=
  MmcState (early_init_flag st) (line_sel st) false.

Definition sdmmc_flash_init (h : boot0_head) (st : mmc_state) : option (mmc_state * Z) :=
  '(st, error_num) ← sunxi_mmc_init_ext h st;
  if negb (error_num =? E_SDMMC_OK) then Some (sunxi_mmc_exit st, -1) else Some (st, 0).

End code.

(** ** Lemmas *)

Section laws.
Context `{H : mmc_host} (h : boot0_head).

(** A failed initialisation leaves the flag as it was. *)
Lemma init_ext_fail st st' e :
  sunxi_mmc_init_ext h st = Some (st', e) → e ≠ E_SDMMC_OK →
  early_init_flag st' = early_init_flag st ∧ early_init_flag st ≠ MMC_EARLY_INIT.
Proof.
  unfold sunxi_mmc_init_ext, E_SDMMC_OK. intros Hi He. some_inv; simplify_eq; bool_to_prop; done.
Qed.

(** Once initialised, the flag answers every later call. *)
Lemma init_ext_once st : early_init_flag st = MMC_EARLY_INIT → sunxi_mmc_init_ext h st = Some (st, 0).
Proof. intros Hf. unfold sunxi_mmc_init_ext. by rewrite Hf. Qed.

Lemma init_ext_ok st st' :
  sunxi_mmc_init_ext h st = Some (st', 0) → early_init_flag st' = MMC_EARLY_INIT.
Proof.
  unfold sunxi_mmc_init_ext. intros Hi. some_inv; simplify_eq; bool_to_prop; done.
Qed.

(** A read that reports success has stored what the card delivered. *)
Lemma mmc_bread_inv card m start n dst m' r :
  mmc_bread m card start n dst = Some (m', r) → r ≠ 0 →
  ∃ bs, mmc_xfer card start n = (bs, true) ∧ m' = write_bytes m dst bs ∧ r = n.
Proof.
  unfold mmc_bread, read_into, medium_read, card_medium. case_match; [by intros [= <- <-]|].
  destruct (mmc_xfer card start n) as [bs ok]. intros Hb Hne.
  apply bind_Some_inv in Hb as ([m1 ok1] & Hs & Hb). apply bind_Some_inv in Hs as (m2 & Hs & [= -> ->]).
  destruct ok1; [|by injection Hb as _ <-]. injection Hb as -> <-.
  exists bs. by apply store_n_inv in Hs.
Qed.

(** A read into mapped memory that the card serves. *)
Lemma mmc_bread_run card m start n dst bs :
  0 < n → mmc_xfer card start n = (bs, true) → mapped m dst (Z.of_nat (length bs)) →
  mmc_bread m card start n dst = Some (write_bytes m dst bs, n).
Proof.
  intros Hn Hx Hm. unfold mmc_bread, read_into, medium_read, card_medium.
  destruct (Z.eqb_spec n 0); [lia|]. rewrite Hx. cbn -[store_n]. by rewrite store_n_spec.
Qed.

End laws.
