(* ===== verification/BootPkg.v ===== *)
(** * Loading the boot package (spl/nboot/load_image_mmc, load_image_spinor)

    boot0 fetches the TOC1 package that holds U-Boot and its companions into
    DRAM at [CONFIG_BOOTPKG_BASE].  From a card it tries the copies of the
    flash map and checks magic and checksum; the OTA build takes the copy from
    a partition named by the environment; [load_uboot_partition] fetches a
    bare U-Boot and its device tree; from SPI NOR the package is read without
    a checksum.  Locals whose address the code passes on are words in memory
    ([pkg_locals]). *)

From S2P Require Import Prelude Mem CString Checksum Heap Gpt Env BootImage SdMmc.

Local Open Scope Z_scope.
Local Open Scope c_scope.

(** ** Data *)

(** Where the package goes; whether the build keeps the card on after
    loading ([CFG_BOOT0_LOAD_KERNEL] or [CFG_DEFAULT_BOOT_RTOS]); and the first
    sector of the SPI NOR partition table. *)
Class pkg_build := PkgBuild {
  CONFIG_BOOTPKG_BASE : Z;
  keep_card_on : bool;
  CFG_SPINOR_GPT_ARD : Z
}.

(** Addresses of locals: [start_sector]/[start_sectors[0]], [start_sectors[1]]
    and [sector_num]. *)
Class pkg_locals := PkgLocals { start_sector_p : Z; start_sector_2_p : Z; sector_num_p : Z }.

(** The SPI NOR chip: the result of [spinor_init] and its transfers. *)
Class spinor_chip := SpinorChip { spinor_init : Z; spinor_xfer : Z → Z → bytes * bool }.

(** How the body of the copy loop ends: [break], [continue], or a jump to the
    error exit. *)
Inductive copy_result := COPY_OK | COPY_BAD | COPY_ERROR (error_num : Z).

(** An [int] sum; overflow is undefined. *)
Definition int_add (x y : Z) : option Z :=
  if (-2147483648 <=? x + y) && (x + y <? 2147483648) then Some (x + y) else None.

(** The C string at an address, with its terminator. *)
Fixpoint cstr_at (fuel : nat) (m : mem) (a : Z) : option bytes :=
  match fuel with
  | O => None
  | S f => c ← m !! a; if c =? 0 then Some [0] else s ← cstr_at f m (a + 1); Some (c :: s)
  end.

(** Names in the code. *)
Definition str_boot_partation : bytes := [98; 111; 111; 116; 95; 112; 97; 114; 116; 97; 116; 105; 111; 110; 0].
Definition str_uboot : bytes := [117; 98; 111; 111; 116; 0].
Definition str_uboot_bak : bytes := [117; 98; 111; 111; 116; 45; 98; 97; 107; 0].
Definition str_uboot_dtb : bytes := [117; 98; 111; 111; 116; 45; 100; 116; 98; 0].
Definition str_bootA : bytes := [98; 111; 111; 116; 65; 0].
Definition str_NULL : bytes := [78; 85; 76; 76; 0].

(** ** A card *)

Section card.
Context `{H : mmc_host} `{P : pkg_build}.

(** The body of the copy loop: 64 sectors, the magic, the rest of the package
    from sector [next] on, the checksum. *)
Definition sdmmc_copy (m : mem) (card first : Z) (next : option Z) : option (mem * copy_result) :=
  '(m, ret) ← mmc_bread m card first 64 CONFIG_BOOTPKG_BASE;
  if ret =? 0 then Some (m, COPY_ERROR E_SDMMC_READ_ERR)
  else
    magic ← rd32 m (CONFIG_BOOTPKG_BASE + off_magic);
    if negb (magic =? TOC_MAIN_INFO_MAGIC) then Some (m, COPY_BAD)
    else
      total_size ← rd32 m (CONFIG_BOOTPKG_BASE + off_valid_len);
      '(m, ret) ← (if 64 * 512 <? total_size then
                     next ← next;
                     mmc_bread m card next ((total_size ⊟ 64 * 512 ⊞ 511) / 512) (CONFIG_BOOTPKG_BASE + 64 * 512)
                   else Some (m, 1));
      if ret =? 0 then Some (m, COPY_ERROR E_SDMMC_READ_ERR)
      else
        '(m, r) ← verify_addsum_at m CONFIG_BOOTPKG_BASE total_size;
        Some (m, if negb (r =? 0) then COPY_BAD else COPY_OK).

(** The loop over the start sectors; [None] is no error, also when every copy
    was bad. *)
Fixpoint sdmmc_copies (m : mem) (card : Z) (next : Z → option Z) (start_sectors : list Z) : option (mem * option Z) :=
  match start_sectors with
  | [] => Some (m, None)
  | start_sector :: rest =>
      if start_sector =? 0 then Some (m, Some E_SDMMC_FIND_BOOT1_ERR)
      else
        '(m, r) ← sdmmc_copy m card (u32 start_sector) (next start_sector);
        match r with
        | COPY_OK => Some (m, None)
        | COPY_BAD => sdmmc_copies m card next rest
        | COPY_ERROR e => Some (m, Some e)
        end
  end.

(** Both exits: the controller is shut down, except after a success in a build
    that goes on reading. *)
Definition sdmmc_leave (st : mmc_state) (error : option Z) : mmc_state * Z :=
  match error with
  | Some _ => (sunxi_mmc_exit st, -1)
  | None => (if keep_card_on then st else sunxi_mmc_exit st, 0)
  end.

(** The loop of the OTA build: four attempts at one start sector, which is
    unsigned. *)
Definition ota_copies (m : mem) (card start_sector : Z) : option (mem * option Z) :=
  sdmmc_copies m card (λ s, Some (s ⊞ 64)) (replicate 4 start_sector).

Definition load_toc1_from_sdmmc `{B : flashmap_build} (h : boot0_head) (st : mmc_state) (m : mem) :
    option (mem * mmc_state * Z) :=
  let card_no := get_card_num h in
  '(st, error_num) ← sunxi_mmc_init_ext h st;
  if negb (error_num =? E_SDMMC_OK) then Some (m, sunxi_mmc_exit st, -1)
  else
    let start_sectors := [sunxi_flashmap_toc1_start (flash_map h) FLASHMAP_SDMMC;
                          sunxi_flashmap_toc1_bak_start (flash_map h) FLASHMAP_SDMMC; 0; 0] in
    '(m, error) ← sdmmc_copies m card_no (λ s, u32 <$> int_add s 64) start_sectors;
    Some (m, (sdmmc_leave st error).1, (sdmmc_leave st error).2).

End card.

(** ** A card, through partitions *)

Section partitions.
Context `{H : mmc_host} `{P : pkg_build} `{V : pkg_locals}.
Context `{L : heap_layout} `{F : storage} `{EV : env_vars} `{EC : env_config}.

(** The start sector of the package comes from the partition that the
    environment names.  The name is used after [fw_env_close] has freed the
    environment's buffer; the sector counter is unsigned here. *)
Definition load_toc1_ota_from_sdmmc (h : boot0_head) (st : mmc_state) (g : gpt_state) (e : env_state) (m : mem) :
    option (mem * mmc_state * gpt_state * env_state * Z) :=
  let card_no := get_card_num h in
  m ← wr32 m start_sector_p 0;
  m ← wr32 m sector_num_p 0;
  '(st, error_num) ← sunxi_mmc_init_ext h st;
  if negb (error_num =? E_SDMMC_OK) then Some (m, sunxi_mmc_exit st, g, e, -1)
  else
    '(m, g, _) ← init_gpt g m;
    '(m, e, r) ← fw_env_open g e m;
    if r =? -1 then Some (m, st, g, e, -1)
    else
      boot_partation ← fw_getenv e m str_boot_partation;
      '(m, e, _) ← fw_env_close e m;
      name ← cstr_at (S (size m)) m boot_partation;
      '(m, _) ← get_part_info_by_name g m name start_sector_p sector_num_p;
      start_sector ← rd32 m start_sector_p;
      '(m, error) ← ota_copies m card_no start_sector;
      match error with
      | Some _ => Some (m, sunxi_mmc_exit st, g, e, -1)
      | None =>
          '(m, g, _) ← deinit_gpt g m;
          Some (m, (sdmmc_leave st None).1, g, e, 0)
      end.

(** [struct spare_boot_ctrl_head] in the first sector of a U-Boot partition. *)
Definition off_uboot_check_sum : Z := 12.
Definition off_uboot_length : Z := 20.
Definition off_uboot_reserved : Z := 44.

(** The result of the loop over the two U-Boot partitions: left with the run
    address and the last start sector, or a jump to the error exit. *)
Fixpoint uboot_copies (m : mem) (card i : Z) (run start : Z) (start_sectors : list Z) : option (mem * option (Z * Z)) :=
  match start_sectors with
  | [] => Some (m, Some (run, start))
  | start_sector :: rest =>
      if start_sector =? 0 then Some (m, None)
      else
        '(m, ret) ← mmc_bread m card start_sector 64 CONFIG_BOOTPKG_BASE;
        if ret =? 0 then Some (m, None)
        else
          total_size ← rd32 m (CONFIG_BOOTPKG_BASE + off_uboot_length);
          uboot_run_addr ← rd32 m (CONFIG_BOOTPKG_BASE + off_uboot_reserved);
          if total_size =? 0 then uboot_copies m card (i + 1) uboot_run_addr start_sector rest
          else
            '(m, ret) ← mmc_bread m card start_sector (total_size / 512) uboot_run_addr;
            if ret =? 0 then Some (m, None)
            else
              check_sum ← rd32 m (CONFIG_BOOTPKG_BASE + off_uboot_check_sum);
              v ← sunxi_verify_checksum_at m uboot_run_addr total_size check_sum;
              if v <? 0 then
                if i =? 1 then Some (m, None) else uboot_copies m card (i + 1) uboot_run_addr start_sector rest
              else Some (m, Some (uboot_run_addr, start_sector))
  end.

(** The device tree next to it; [fdt_check_header] is libfdt's.  The guard
    [start_sector == 0] looks at the sector of U-Boot, not of the tree.  The
    result also has [working_fdt] and [*uboot_base]. *)
Definition load_uboot_partition (fdt_check_header : mem → Z → Z) (h : boot0_head) (st : mmc_state) (g : gpt_state)
    (working_fdt uboot_base : Z) (m : mem) : option (mem * mmc_state * gpt_state * Z * Z * Z) :=
  let card_no := get_card_num h in
  m ← wr32 m start_sector_p 0;
  m ← wr32 m start_sector_2_p 0;
  '(st, error_num) ← sunxi_mmc_init_ext h st;
  let fail m g wf := Some (m, sunxi_mmc_exit st, g, wf, uboot_base, -1) in
  if negb (error_num =? E_SDMMC_OK) then fail m g working_fdt
  else
    '(m, g, r) ← init_gpt g m;
    if negb (r =? 0) then fail m g working_fdt
    else
      '(m, _) ← get_part_info_by_name g m str_uboot start_sector_p sector_num_p;
      '(m, _) ← get_part_info_by_name g m str_uboot_bak start_sector_2_p sector_num_p;
      s0 ← rd32 m start_sector_p;
      s1 ← rd32 m start_sector_2_p;
      '(m, out) ← uboot_copies m card_no 0 0 0 [s0; s1];
      match out with
      | None => fail m g working_fdt
      | Some (uboot_run_addr, start_sector) =>
          let uboot_dtb_addr := uboot_run_addr ⊞ 2 * 1024 * 1024 in
          '(m, _) ← get_part_info_by_name g m str_uboot_dtb start_sector_p sector_num_p;
          if start_sector =? 0 then fail m g uboot_dtb_addr
          else
            start_sector ← rd32 m start_sector_p;
            sector_num ← rd32 m sector_num_p;
            '(m, ret) ← mmc_bread m card_no start_sector sector_num uboot_dtb_addr;
            if ret =? 0 then fail m g uboot_dtb_addr
            else if negb (fdt_check_header m uboot_dtb_addr =? 0) then fail m g uboot_dtb_addr
            else Some (m, st, g, uboot_dtb_addr, uboot_run_addr, 0)
      end.

End partitions.

(** ** SPI NOR *)

Section spinor.
Context `{N : spinor_chip} `{P : pkg_build}.

Definition nor_medium : boot_medium := BootMedium spinor_xfer.

(** [spinor_read]: 0 or an error code; an empty request succeeds. *)
Definition spinor_read (m : mem) (start sector_cnt dst : Z) : option (mem * Z) :=
  if sector_cnt =? 0 then Some (m, 0)
  else '(m, ok) ← read_into (M := nor_medium) m start sector_cnt dst; Some (m, if (ok : bool) then 0 else -1).

Definition spinor_flash_init (flash_inited : Z) : Z * Z :=
  if (flash_inited =? 0) && negb (spinor_init =? 0) then (flash_inited, -1) else (1, 0).

(** Head, magic, package: the part both builds share. *)
Definition spinor_package (m : mem) (start_sector : Z) : option (mem * Z) :=
  '(m, r) ← spinor_read m start_sector 1 CONFIG_BOOTPKG_BASE;
  if negb (r =? 0) then Some (m, -1)
  else
    magic ← rd32 m (CONFIG_BOOTPKG_BASE + off_magic);
    if negb (magic =? TOC_MAIN_INFO_MAGIC) then Some (m, -1)
    else
      total_size ← rd32 m (CONFIG_BOOTPKG_BASE + off_valid_len);
      '(m, r) ← spinor_read m start_sector (total_size / 512) CONFIG_BOOTPKG_BASE;
      if negb (r =? 0) then Some (m, -1) else Some (m, 0).

Definition load_toc1_from_spinor `{B : flashmap_build} (h : boot0_head) (flash_inited : Z) (m : mem) :
    option (mem * Z * Z) :=
  let start_sector := sunxi_flashmap_toc1_start (flash_map h) FLASHMAP_SPI_NOR in
  let '(flash_inited, r) := spinor_flash_init flash_inited in
  if negb (r =? 0) then Some (m, flash_inited, -1)
  else '(m, ret) ← spinor_package m (u32 start_sector); Some (m, flash_inited, ret).

End spinor.

Section spinor_ota.
Context `{N : spinor_chip} `{P : pkg_build} `{V : pkg_locals}.
Context `{L : heap_layout} `{F : storage} `{EV : env_vars} `{EC : env_config}.

Definition load_toc1_ota_from_spinor (flash_inited : Z) (g : gpt_state) (e : env_state) (m : mem) :
    option (mem * Z * gpt_state * env_state * Z) :=
  m ← wr32 m start_sector_p 0;
  m ← wr32 m sector_num_p 0;
  let '(flash_inited, r) := spinor_flash_init flash_inited in
  if negb (r =? 0) then Some (m, flash_inited, g, e, -1)
  else
    '(m, g, r) ← init_gpt g m;
    if negb (r =? 0) then Some (m, flash_inited, g, e, -1)
    else
      '(m, e, r) ← fw_env_open g e m;
      '(m, e, start_sector) ←
        (if negb (r =? 0) then
           '(m, _) ← get_part_info_by_name g m str_bootA start_sector_p sector_num_p;
           s ← rd32 m start_sector_p;
           Some (m, e, s ⊞ CFG_SPINOR_GPT_ARD)
         else
           boot_partation ← fw_getenv e m str_boot_partation;
           name ← cstr_at (S (size m)) m boot_partation;
           c ← strncmp name str_NULL 4;
           '(m, s) ← (if negb (c =? 0) then
                        '(m, _) ← get_part_info_by_name g m name start_sector_p sector_num_p;
                        s ← rd32 m start_sector_p;
                        Some (m, s ⊞ CFG_SPINOR_GPT_ARD)
                      else Some (m, 96));
           '(m, e, _) ← fw_env_close e m;
           Some (m, e, s));
      '(m, ret) ← spinor_package m start_sector;
      '(m, g, _) ← deinit_gpt g m;
      Some (m, flash_inited, g, e, ret).

End spinor_ota.

(** ** What the card holds *)

Section spec.
Context `{H : mmc_host} `{P : pkg_build}.

Definition has_magic (img : bytes) : bool :=
  match load_le 4 16 img with Some v => v =? TOC_MAIN_INFO_MAGIC | None => false end.

Definition valid_len (img : bytes) : Z := default 0 (load_le 4 36 img).

(** The package that the card delivers from a sector on: its first 64 sectors,
    and the rest when the header asks for more. *)
Definition copy_image (card first next : Z) : option bytes :=
  let '(head, ok) := mmc_xfer card first 64 in
  if negb ok then None
  else if has_magic head && (64 * 512 <? valid_len head) then
    let '(tail, ok) := mmc_xfer card next ((valid_len head - 64 * 512 + 511) / 512) in
    if (ok : bool) then Some (head ++ tail) else None
  else Some head.

(** A package that may be booted: magic, a length of at least 16 bytes, and
    the checksum of its words. *)
Definition good_image (img : bytes) : bool :=
  has_magic img && (16 <=? valid_len img) && sum_ok (words_of img) (valid_len img).

Context (card : Z) `{HW : !WholeSectors (M := card_medium card)}.

Lemma xfer_whole s n bs : mmc_xfer card s n = (bs, true) → 0 <= n → Z.of_nat (length bs) = 512 * n ∧ is_byte_list bs.
Proof. intros Hx. exact (whole_sectors (M := card_medium card) s n bs Hx). Qed.

(** The header fields of an image in memory. *)
Lemma head_word m img off r :
  is_byte_list img → (off + 4 <= length img)%nat → load_n (length img) m CONFIG_BOOTPKG_BASE = Some img →
  load_le 4 off img = r → rd32 m (CONFIG_BOOTPKG_BASE + Z.of_nat off) = r.
Proof.
  intros Hb Hl Hm <-. unfold rd32, load_le, slice. case_decide; [|lia].
  by rewrite (load_n_sub _ m _ img off 4 Hm).
Qed.

Lemma valid_len_u32 img : is_byte_list img → (40 <= length img)%nat → is_u32 (valid_len img).
Proof.
  intros Hb Hl. unfold valid_len, load_le, slice. case_decide; [|lia]. simpl.
  pose proof (le_val_bound (take 4 (drop 36 img))) as Hv. rewrite length_take, length_drop in Hv.
  replace (4 `min` (length img - 36))%nat with 4%nat in Hv by lia. apply Hv. by apply Forall_take, Forall_drop.
Qed.

Lemma has_magic_app l1 l2 : (40 <= length l1)%nat → has_magic (l1 ++ l2) = has_magic l1.
Proof. intros Hl. unfold has_magic. by rewrite load_le_app by lia. Qed.

Lemma valid_len_app l1 l2 : (40 <= length l1)%nat → valid_len (l1 ++ l2) = valid_len l1.
Proof. intros Hl. unfold valid_len. by rewrite load_le_app by lia. Qed.

(** The image covers what the checksum reads. *)
Lemma span_fits img :
  Z.of_nat (length img) = 64 * 512 + (if 64 * 512 <? valid_len img then 512 * ((valid_len img - 64 * 512 + 511) / 512) else 0) →
  0 <= valid_len img → (addsum_span (valid_len img) <= length img)%nat.
Proof. unfold addsum_span. intros Hl H0. destruct (Z.ltb_spec (64 * 512) (valid_len img)); zmod. Qed.

Lemma copy_image_shape first next img :
  copy_image card first next = Some img → has_magic img = true →
  is_byte_list img ∧ (40 <= length img)%nat ∧ (addsum_span (valid_len img) <= length img)%nat.
Proof.
  unfold copy_image. destruct (mmc_xfer card first 64) as [head ok] eqn:Hx. destruct ok; [|done]. cbn [negb].
  destruct (xfer_whole _ _ _ Hx) as [Hl Hb]; [lia|]. pose proof (valid_len_u32 head Hb) as Hv.
  unfold is_u32 in Hv. specialize (Hv ltac:(lia)).
  destruct (has_magic head) eqn:Hm; cbn [andb].
  - destruct (Z.ltb_spec (64 * 512) (valid_len head)).
    + destruct (mmc_xfer card next _) as [tail ok] eqn:Hx2. destruct ok; [|done]. intros [= <-] _.
      destruct (xfer_whole _ _ _ Hx2) as [Hl2 Hb2]; [zmod|]. split; [by apply Forall_app|]. rewrite length_app.
      split; [lia|]. rewrite <- length_app. apply span_fits; rewrite (valid_len_app head tail) by lia; [|lia].
      rewrite length_app. destruct (Z.ltb_spec (64 * 512) (valid_len head)); lia.
    + intros [= <-] _. split; [done|]. split; [lia|]. apply span_fits; [|lia].
      destruct (Z.ltb_spec (64 * 512) (valid_len head)); lia.
  - intros [= <-] ?. congruence.
Qed.

(** The two header fields after the first read. *)
Lemma head_fields m head :
  is_byte_list head → (40 <= length head)%nat → load_n (length head) m CONFIG_BOOTPKG_BASE = Some head →
  ∃ magic, rd32 m (CONFIG_BOOTPKG_BASE + off_magic) = Some magic ∧ (magic =? TOC_MAIN_INFO_MAGIC) = has_magic head ∧
    rd32 m (CONFIG_BOOTPKG_BASE + off_valid_len) = Some (valid_len head).
Proof.
  intros Hb Hl Hm. exists (le_val (take 4 (drop 16 head))). unfold has_magic, valid_len.
  change off_magic with (Z.of_nat 16). change off_valid_len with (Z.of_nat 36).
  rewrite (head_word m head 16 (load_le 4 16 head)), (head_word m head 36 (load_le 4 36 head)) by (done || lia).
  unfold load_le, slice. repeat (case_decide; [|lia]). done.
Qed.

Lemma tail_sectors x : 64 * 512 < x → is_u32 x → (x ⊟ 64 * 512 ⊞ 511) / 512 = (x - 64 * 512 + 511) / 512.
Proof.
  intros Hx Hu. unfold is_u32 in Hu. rewrite (u32_small (x - _)) by (unfold is_u32; lia).
  by rewrite u32_small by (unfold is_u32; lia).
Qed.

(** The body of the loop accepts only what the card delivered, complete and
    with a right checksum. *)
Lemma sdmmc_copy_inv m first next m' :
  sdmmc_copy m card first next = Some (m', COPY_OK) →
  ∃ nx img, (64 * 512 < valid_len img → next = Some nx) ∧ copy_image card first nx = Some img ∧
    good_image img = true ∧ load_n (length img) m' CONFIG_BOOTPKG_BASE = Some img.
Proof.
  unfold sdmmc_copy. intros Hc. apply bind_Some_inv in Hc as ([m1 ret] & Hr & Hc).
  destruct (Z.eqb_spec ret 0); [done|]. destruct (mmc_bread_inv _ _ _ _ _ _ _ Hr) as (head & Hx & -> & _); [done|].
  destruct (xfer_whole _ _ _ Hx) as [Hl Hb]; [lia|].
  destruct (head_fields (write_bytes m CONFIG_BOOTPKG_BASE head) head) as (magic & Hm & Hmb & Hv); [done|lia|apply load_write_eq|].
  rewrite Hm in Hc. cbn [mbind option_bind] in Hc. rewrite Hmb in Hc. destruct (has_magic head) eqn:Hmag; [|done]. cbn [negb] in Hc.
  rewrite Hv in Hc. cbn [mbind option_bind] in Hc. pose proof (valid_len_u32 head Hb ltac:(lia)) as Hu.
  apply bind_Some_inv in Hc as ([m2 ret2] & Hr2 & Hc). destruct (Z.eqb_spec ret2 0); [done|].
  apply bind_Some_inv in Hc as ([m3 r] & Hs & Hc). destruct (Z.eqb_spec r 0) as [->|]; [|done]. injection Hc as <-.
  assert (∃ nx img, (64 * 512 < valid_len img → next = Some nx) ∧ copy_image card first nx = Some img ∧
     valid_len img = valid_len head ∧ has_magic img = true ∧ m2 = write_bytes m CONFIG_BOOTPKG_BASE img) as (nx & img & Hnx & Hci & Hvl & Hmi & ->).
  { unfold copy_image. rewrite Hx, Hmag. cbn [negb andb]. destruct (Z.ltb_spec (64 * 512) (valid_len head)) as [Hlt|Hge].
    - apply bind_Some_inv in Hr2 as (nx & -> & Hr2). destruct (mmc_bread_inv _ _ _ _ _ _ _ Hr2) as (tail & Hx2 & -> & _); [done|].
      rewrite tail_sectors in Hx2 by done. exists nx, (head ++ tail). rewrite Hx2.
      rewrite has_magic_app, valid_len_app by lia. repeat split; try done.
      rewrite write_bytes_app. do 2 f_equal; lia.
    - injection Hr2 as <- <-. exists 0, head. repeat split; done || lia. }
  exists nx, img. destruct (copy_image_shape _ _ _ Hci Hmi) as (Hbi & _ & Hsp). rewrite <- Hvl in Hs.
  destruct (addsum_at_inv _ _ _ img (load_write_eq m CONFIG_BOOTPKG_BASE img) Hbi Hsp ltac:(rewrite Hvl; exact Hu) _ _ Hs) as (-> & H16 & Hok).
  repeat split; [done..| |apply load_write_eq]. unfold good_image. rewrite Hmi.
  destruct (sum_ok _ _); [|done]. rewrite andb_true_r. cbn [andb]. by apply Z.leb_le.
Qed.

(** On a readable copy the body stores it and says whether it is good. *)
Lemma sdmmc_copy_run m first nx img :
  copy_image card first nx = Some img → mapped m CONFIG_BOOTPKG_BASE (Z.of_nat (length img)) →
  (has_magic img = true → 16 <= valid_len img) →
  sdmmc_copy m card first (Some nx) =
    Some (write_bytes m CONFIG_BOOTPKG_BASE img, if good_image img then COPY_OK else COPY_BAD).
Proof.
  intros Hci Hmap H16. pose proof (copy_image_shape _ _ _ Hci) as Hsh. unfold copy_image in Hci.
  destruct (mmc_xfer card first 64) as [head ok] eqn:Hx. destruct ok; [|done]. cbn [negb] in Hci.
  destruct (xfer_whole _ _ _ Hx) as [Hl Hb]; [lia|]. pose proof (valid_len_u32 head Hb ltac:(lia)) as Hu.
  assert (∃ tl, img = head ++ tl) as [tl Ht].
  { some_inv; simplify_eq; eexists; [done|symmetry; apply app_nil_r]. }
  unfold sdmmc_copy. rewrite (mmc_bread_run card m first 64 CONFIG_BOOTPKG_BASE head);
    [|lia|done|rewrite Ht, length_app in Hmap; eapply mapped_sub; [done|lia..]].
  sbind. change (64 =? 0) with false. cbv iota.
  destruct (head_fields (write_bytes m CONFIG_BOOTPKG_BASE head) head) as (magic & Hm & Hmb & Hv); [done|lia|apply load_write_eq|].
  rewrite Hm. sbind. rewrite Hmb. unfold good_image.
  assert (has_magic img = has_magic head ∧ valid_len img = valid_len head) as [-> ->]
    by (rewrite Ht, has_magic_app, valid_len_app by lia; done).
  destruct (has_magic head) eqn:Hmag; cbn [negb andb] in Hci |- *; [|by injection Hci as <-].
  rewrite Hv. sbind. rewrite Ht, has_magic_app in Hsh by lia. rewrite Ht, has_magic_app, valid_len_app in H16 by lia.
  destruct (Hsh Hmag) as (Hbi & _ & Hsp). rewrite valid_len_app in Hsp by lia. specialize (H16 Hmag).
  assert (∀ m', load_n (length img) m' CONFIG_BOOTPKG_BASE = Some img →
    verify_addsum_at m' CONFIG_BOOTPKG_BASE (valid_len head) = Some (m', if sum_ok (words_of img) (valid_len head) then 0 else -1)) as Hsum.
  { intros m' Hm'. apply addsum_at_spec; rewrite ?Ht; try done. by rewrite <- Ht. }
  assert ((16 <=? valid_len head) = true) as -> by (by apply Z.leb_le). cbn [andb].
  destruct (Z.ltb_spec (64 * 512) (valid_len head)) as [Hlt|Hge]; sbind.
  - rewrite tail_sectors by done. destruct (mmc_xfer card nx _) as [tail ok] eqn:Hx2. destruct ok; [|done].
    injection Hci as Hi. destruct (xfer_whole _ _ _ Hx2) as [Hl2 _]; [zmod|].
    rewrite (mmc_bread_run card _ nx _ _ tail);
      [|zmod|done|apply mapped_write; rewrite <- Hi, length_app in Hmap; eapply mapped_sub; [done|lia..]].
    sbind. destruct (Z.eqb_spec ((valid_len head - 64 * 512 + 511) / 512) 0) as [He|]; [zmod|].
    replace (write_bytes (write_bytes m CONFIG_BOOTPKG_BASE head) (CONFIG_BOOTPKG_BASE + 64 * 512) tail)
      with (write_bytes m CONFIG_BOOTPKG_BASE img) by (rewrite <- Hi, write_bytes_app, Hl; done).
    rewrite Hsum by apply load_write_eq. sbind. by destruct (sum_ok _ _).
  - injection Hci as <-. sbind. change (1 =? 0) with false. cbv iota. rewrite Hsum by apply load_write_eq.
    sbind. by destruct (sum_ok _ _).
Qed.

(** The second sector matters for long packages only. *)
Lemma copy_image_next first nx nx' img :
  copy_image card first nx = Some img → (64 * 512 < valid_len img → nx = nx') → copy_image card first nx' = Some img.
Proof.
  unfold copy_image. destruct (mmc_xfer card first 64) as [head ok] eqn:Hx. destruct ok; [|done]. cbn [negb].
  destruct (xfer_whole _ _ _ Hx) as [Hl _]; [lia|].
  destruct (has_magic head && (64 * 512 <? valid_len head)) eqn:Hc; [|done].
  apply andb_true_iff in Hc as [_ Hc]. apply Z.ltb_lt in Hc.
  destruct (mmc_xfer card nx _) as [tail ok] eqn:Hx2. destruct ok; [|done]. intros [= <-] Hn.
  rewrite valid_len_app in Hn by lia. rewrite <- Hn, Hx2 by done. done.
Qed.

Lemma sdmmc_copies_inv next sectors m m' :
  sdmmc_copies m card next sectors = Some (m', None) → 0 ∈ sectors →
  ∃ s nx img, s ∈ sectors ∧ s ≠ 0 ∧ (64 * 512 < valid_len img → next s = Some nx) ∧
    copy_image card (u32 s) nx = Some img ∧ good_image img = true ∧
    load_n (length img) m' CONFIG_BOOTPKG_BASE = Some img.
Proof.
  revert m. induction sectors as [|s l IH]; intros m Hc Hin; [by apply elem_of_nil in Hin|]. cbn [sdmmc_copies] in Hc.
  destruct (Z.eqb_spec s 0) as [|Hs]; [done|]. apply bind_Some_inv in Hc as ([m1 r] & Hr & Hc). destruct r as [| |e]; [| |done].
  - injection Hc as <-. destruct (sdmmc_copy_inv _ _ _ _ Hr) as (nx & img & ? & ? & ? & ?).
    exists s, nx, img. repeat split; try done. by left.
  - apply elem_of_cons in Hin as [?|Hin]; [done|]. destruct (IH _ Hc Hin) as (s' & nx & img & ? & ?).
    exists s', nx, img. split; [by right|done].
Qed.

End spec.

(** ** Theorems: the card *)

Section card_theorems.
Context `{H : mmc_host} `{P : pkg_build} `{B : flashmap_build} (h : boot0_head).
Context `{HW : !WholeSectors (M := card_medium (get_card_num h))}.
Let card := get_card_num h.
Let first := sunxi_flashmap_toc1_start (flash_map h) FLASHMAP_SDMMC.
Let backup := sunxi_flashmap_toc1_bak_start (flash_map h) FLASHMAP_SDMMC.

Lemma int_add_inv x y z : int_add x y = Some z → z = x + y.
Proof. unfold int_add. case_match; [by intros [= <-]|done]. Qed.

Lemma int_add_small x y : -2147483648 <= x + y < 2147483648 → int_add x y = Some (x + y).
Proof. intros Hb. unfold int_add. destruct (_ && _) eqn:Hc; [done|]. apply andb_false_iff in Hc as [Hc|Hc]; bool_to_prop; lia. Qed.

Lemma sdmmc_verified st m m' st' :
  load_toc1_from_sdmmc h st m = Some (m', st', 0) →
  ∃ s img, s ∈ [first; backup] ∧ s ≠ 0 ∧ copy_image card (u32 s) (u32 (s + 64)) = Some img ∧
    good_image img = true ∧ load_n (length img) m' CONFIG_BOOTPKG_BASE = Some img.
Proof.
  unfold load_toc1_from_sdmmc. intros Hl. apply bind_Some_inv in Hl as ([st1 e] & Hi & Hl).
  destruct (negb (e =? E_SDMMC_OK)); [done|]. apply bind_Some_inv in Hl as ([m1 er] & Hc & Hl).
  destruct er as [e'|]; [done|]. injection Hl as <- _.
  destruct (sdmmc_copies_inv _ _ _ _ _ Hc) as (s & nx & img & Hin & Hs & Hn & Hci & Hg & Hld).
  { rewrite !elem_of_cons. auto. }
  exists s, img. repeat split; try done.
  - clear -Hin Hs. fold first backup in Hin. clearbody first backup.
    rewrite !elem_of_cons, elem_of_nil in Hin. rewrite !elem_of_cons. tauto.
  - apply (copy_image_next _ _ _ _ _ Hci). intros Hbig. specialize (Hn Hbig).
    destruct (int_add s 64) as [z|] eqn:Hz; [|done]. apply int_add_inv in Hz as ->. by injection Hn.
Qed.

(** Sectors that are neither 0 nor out of the range of an [int]. *)
Definition sector_ok (s : Z) : Prop := 0 < s ∧ s + 64 < 2147483648.

Lemma sdmmc_copies_step m s l img :
  sector_ok s → copy_image card s (s + 64) = Some img →
  mapped m CONFIG_BOOTPKG_BASE (Z.of_nat (length img)) → (has_magic img = true → 16 <= valid_len img) →
  sdmmc_copies m card (λ s, u32 <$> int_add s 64) (s :: l) =
    if good_image img then Some (write_bytes m CONFIG_BOOTPKG_BASE img, None)
    else sdmmc_copies (write_bytes m CONFIG_BOOTPKG_BASE img) card (λ s, u32 <$> int_add s 64) l.
Proof.
  intros [H0 H1] Hci Hm H16. cbn [sdmmc_copies]. destruct (Z.eqb_spec s 0); [lia|].
  rewrite int_add_small by lia. cbn [fmap option_fmap option_map]. rewrite !u32_small by (unfold is_u32; lia).
  rewrite (sdmmc_copy_run card m s (s + 64) img) by done. sbind. by destruct (good_image img).
Qed.

Lemma sdmmc_load_run st st1 m img1 img2 :
  sunxi_mmc_init_ext h st = Some (st1, 0) →
  sector_ok first → sector_ok backup →
  copy_image card first (first + 64) = Some img1 → copy_image card backup (backup + 64) = Some img2 →
  (has_magic img1 = true → 16 <= valid_len img1) → (has_magic img2 = true → 16 <= valid_len img2) →
  mapped m CONFIG_BOOTPKG_BASE (Z.of_nat (length img1)) → mapped m CONFIG_BOOTPKG_BASE (Z.of_nat (length img2)) →
  let m1 := write_bytes m CONFIG_BOOTPKG_BASE img1 in
  load_toc1_from_sdmmc h st m = Some
    (if good_image img1 then (m1, (sdmmc_leave st1 None).1, 0)
     else if good_image img2 then (write_bytes m1 CONFIG_BOOTPKG_BASE img2, (sdmmc_leave st1 None).1, 0)
     else (write_bytes m1 CONFIG_BOOTPKG_BASE img2, sunxi_mmc_exit st1, -1)).
Proof.
  intros Hi Hs1 Hs2 H1 H2 Hl1 Hl2 Hm1 Hm2 m1. unfold load_toc1_from_sdmmc. rewrite Hi. sbind.
  change (0 =? E_SDMMC_OK) with true. cbn [negb]. fold first backup card.
  rewrite (sdmmc_copies_step m first _ img1) by done. destruct (good_image img1); [done|].
  rewrite (sdmmc_copies_step _ backup _ img2) by (done || by apply mapped_write). by destruct (good_image img2).
Qed.

(** C2: booting from a card never accepts an unverified package: whatever the
    card delivers and however often it fails, a success means that one of the
    two copies of the flash map was read completely, has the magic, a length of
    at least 16 bytes and the checksum of its words, and lies unchanged at the
    package address. *)
Theorem sdmmc_only_verified st m m' st' :
  load_toc1_from_sdmmc h st m = Some (m', st', 0) →
  ∃ s img, s ∈ [first; backup] ∧ s ≠ 0 ∧ copy_image card (u32 s) (u32 (s + 64)) = Some img ∧
    good_image img = true ∧ load_n (length img) m' CONFIG_BOOTPKG_BASE = Some img.
Proof. apply sdmmc_verified. Qed.

(** C7: a card that is up and can be read gets booted as soon as one copy is
    good: the first good copy in the order of the flash map ends up at the
    package address and the load succeeds; if neither is good, it fails and the
    controller is shut down. *)
Theorem sdmmc_first_good st st1 m img1 img2 :
  sunxi_mmc_init_ext h st = Some (st1, 0) →
  sector_ok first → sector_ok backup →
  copy_image card first (first + 64) = Some img1 → copy_image card backup (backup + 64) = Some img2 →
  (has_magic img1 = true → 16 <= valid_len img1) → (has_magic img2 = true → 16 <= valid_len img2) →
  mapped m CONFIG_BOOTPKG_BASE (Z.of_nat (length img1)) → mapped m CONFIG_BOOTPKG_BASE (Z.of_nat (length img2)) →
  let m1 := write_bytes m CONFIG_BOOTPKG_BASE img1 in
  load_toc1_from_sdmmc h st m = Some
    (if good_image img1 then (m1, (sdmmc_leave st1 None).1, 0)
     else if good_image img2 then (write_bytes m1 CONFIG_BOOTPKG_BASE img2, (sdmmc_leave st1 None).1, 0)
     else (write_bytes m1 CONFIG_BOOTPKG_BASE img2, sunxi_mmc_exit st1, -1)).
Proof. apply sdmmc_load_run. Qed.

End card_theorems.

(** *** A card with a broken first copy and a good backup *)

Lemma good_image_app hd r :
  (addsum_span (valid_len hd) <= length hd)%nat → (40 <= length hd)%nat → good_image (hd ++ r) = good_image hd.
Proof.
  intros Hs Hl. unfold good_image. rewrite has_magic_app, valid_len_app by done. f_equal.
  unfold addsum_span in Hs. set (k := (6 `max` Z.to_nat (valid_len hd / 4))%nat) in *.
  rewrite <- (sum_ok_take (words_of (hd ++ r)) _ k), <- (sum_ok_take (words_of hd) _ k), <- !words_take by lia.
  by rewrite take_app_le by lia.
Qed.

Definition demo_head (sum : Z) : bytes :=
  replicate 16 0 ++ le_bytes 4 TOC_MAIN_INFO_MAGIC ++ le_bytes 4 sum ++ replicate 12 0 ++ le_bytes 4 64 ++ replicate 24 7.
Definition demo_pkg (sum : Z) : bytes := demo_head sum ++ replicate (Z.to_nat 32704) 0.
Definition demo_host : mmc_host :=
  MmcHost (λ _ _, 0) (λ _ s n, if n =? 64 then
    (if s =? 32800 then (demo_pkg 0, true) else if s =? 24576 then (demo_pkg 306589347, true) else ([], false))
    else ([], false)).
Definition demo_build : pkg_build := PkgBuild 0x42e00000 false 0.
Definition demo_map : flashmap_build := FlashmapBuild None None None None None None None.
Definition demo_boot0 : boot0_head := Boot0Head 0 (FlashMap 0 0 0).
Definition demo_card : mmc_state := MmcState 0 [0; 0; 0; 0] false.
Definition demo_dram : mem := mem_of 0x42e00000 (replicate (Z.to_nat 32768) 0).

Lemma demo_pkg_shape sum : Z.of_nat (length (demo_pkg sum)) = 32768 ∧ is_byte_list (demo_pkg sum).
Proof.
  unfold demo_pkg. rewrite length_app, length_replicate. split; [simpl; lia|].
  apply Forall_app. split; [|apply Forall_replicate; unfold is_u8; lia].
  unfold demo_head. repeat (apply Forall_app; split); try apply le_bytes_byte; apply Forall_replicate; unfold is_u8; lia.
Qed.

Lemma demo_head_fields sum r : has_magic (demo_head sum ++ r) = true ∧ valid_len (demo_head sum ++ r) = 64.
Proof. rewrite has_magic_app, valid_len_app by (simpl; lia). done. Qed.

#[local] Instance demo_sectors : WholeSectors (M := card_medium (H := demo_host) 0).
Proof.
  split. intros s n bs Hx _. cbn -[demo_pkg] in Hx. destruct (Z.eqb_spec n 64) as [->|]; [|done].
  repeat case_match; simplify_eq; apply demo_pkg_shape.
Qed.

Lemma demo_copy s sum :
  mmc_xfer (mmc_host := demo_host) 0 s 64 = (demo_pkg sum, true) → copy_image (H := demo_host) 0 s (s + 64) = Some (demo_pkg sum).
Proof.
  intros Hx. unfold copy_image. rewrite Hx. cbn [negb]. unfold demo_pkg.
  destruct (demo_head_fields sum (replicate (Z.to_nat 32704) 0)) as [-> ->]. done.
Qed.

Lemma demo_mapped sum : mapped demo_dram 0x42e00000 (Z.of_nat (length (demo_pkg sum))).
Proof.
  rewrite (proj1 (demo_pkg_shape sum)). unfold demo_dram.
  pose proof (mapped_mem_of 0x42e00000 (replicate (Z.to_nat 32768) 0)) as Hm. by rewrite length_replicate in Hm.
Qed.

Lemma demo_len sum : has_magic (demo_pkg sum) = true → 16 <= valid_len (demo_pkg sum).
Proof. intros _. unfold demo_pkg. rewrite (proj2 (demo_head_fields sum _)). lia. Qed.

Lemma demo_good sum : good_image (demo_pkg sum) = good_image (demo_head sum).
Proof.
  unfold demo_pkg. apply good_image_app; [|simpl; lia].
  pose proof (demo_head_fields sum []) as [_ Hv]. rewrite app_nil_r in Hv. rewrite Hv. vm_compute. lia.
Qed.

(** The backup of the demo card is loaded. *)
Lemma sdmmc_first_good_witness :
  load_toc1_from_sdmmc (H := demo_host) (P := demo_build) (B := demo_map) demo_boot0 demo_card demo_dram =
  Some (write_bytes (write_bytes demo_dram 0x42e00000 (demo_pkg 0)) 0x42e00000 (demo_pkg 306589347),
        MmcState 1 [4; 0; 0; 0] false, 0).
Proof.
  rewrite (sdmmc_first_good (H := demo_host) (P := demo_build) (B := demo_map) demo_boot0 demo_card
    (MmcState 1 [4; 0; 0; 0] true) demo_dram (demo_pkg 0) (demo_pkg 306589347)
    eq_refl ltac:(split; vm_compute; done) ltac:(split; vm_compute; done)
    (demo_copy 32800 0 eq_refl) (demo_copy 24576 306589347 eq_refl) (demo_len 0) (demo_len 306589347)
    (demo_mapped 0) (demo_mapped 306589347)), !demo_good. reflexivity.
Defined.

Lemma demo_load :
  load_toc1_from_sdmmc (H := demo_host) (P := demo_build) (B := demo_map) demo_boot0 demo_card demo_dram =
  Some (write_bytes (write_bytes demo_dram 0x42e00000 (demo_pkg 0)) 0x42e00000 (demo_pkg 306589347),
        MmcState 1 [4; 0; 0; 0] false, 0).
Proof.
  rewrite (sdmmc_load_run (H := demo_host) (P := demo_build) (B := demo_map) demo_boot0 demo_card
    (MmcState 1 [4; 0; 0; 0] true) demo_dram (demo_pkg 0) (demo_pkg 306589347)
    eq_refl ltac:(split; vm_compute; done) ltac:(split; vm_compute; done)
    (demo_copy 32800 0 eq_refl) (demo_copy 24576 306589347 eq_refl) (demo_len 0) (demo_len 306589347)
    (demo_mapped 0) (demo_mapped 306589347)), !demo_good. reflexivity.
Qed.

Lemma sdmmc_only_verified_witness :
  ∃ s img, s ∈ [32800; 24576] ∧ s ≠ 0 ∧ copy_image (H := demo_host) 0 (u32 s) (u32 (s + 64)) = Some img ∧
    good_image img = true ∧
    load_n (length img) (write_bytes (write_bytes demo_dram 0x42e00000 (demo_pkg 0)) 0x42e00000 (demo_pkg 306589347)) 0x42e00000 = Some img.
Proof. exact (sdmmc_only_verified (H := demo_host) (P := demo_build) (B := demo_map) demo_boot0 demo_card _ _ _ demo_load). Defined.

(** ** Theorems: the OTA build *)

Section ota.
Context `{H : mmc_host} `{P : pkg_build} (card : Z) `{HW : !WholeSectors (M := card_medium card)}.

Lemma ota_run n m s img :
  0 < s → s + 64 < 2 ^ 32 → copy_image card s (s + 64) = Some img →
  mapped m CONFIG_BOOTPKG_BASE (Z.of_nat (length img)) → (has_magic img = true → 16 <= valid_len img) →
  sdmmc_copies m card (λ s, Some (s ⊞ 64)) (replicate (S n) s) = Some (write_bytes m CONFIG_BOOTPKG_BASE img, None).
Proof.
  intros H0 H1 Hci. revert m. induction n as [|n IH]; intros m Hm H16.
  all: rewrite replicate_S; cbn [sdmmc_copies];
    destruct (Z.eqb_spec s 0); try lia; rewrite !u32_small by (unfold is_u32; lia);
    rewrite (sdmmc_copy_run card m s (s + 64) img) by done; sbind; destruct (good_image img); try done.
  rewrite IH by (done || by apply mapped_write). by rewrite write_bytes_over.
Qed.

(** The OTA loop checks magic and checksum but does not act on them: for
    every readable package, good or bad, it ends without an error, and the
    caller reports success; the two-copy loop in its place would have failed on
    a bad one. *)
Theorem ota_accepts_bad st m s img :
  0 < s → s + 64 < 2 ^ 32 → copy_image card s (s + 64) = Some img → good_image img = false →
  mapped m CONFIG_BOOTPKG_BASE (Z.of_nat (length img)) → (has_magic img = true → 16 <= valid_len img) →
  ∃ m', ota_copies m card s = Some (m', None) ∧ (sdmmc_leave st None).2 = 0 ∧
    load_n (length img) m' CONFIG_BOOTPKG_BASE = Some img.
Proof.
  intros H0 H1 Hci _ Hm H16. exists (write_bytes m CONFIG_BOOTPKG_BASE img).
  split; [by apply (ota_run 3)|]. split; [done|]. apply load_write_eq.
Qed.

End ota.

Lemma ota_accepts_bad_witness :
  ∃ m', ota_copies (H := demo_host) (P := demo_build) demo_dram 0 32800 = Some (m', None) ∧
    (sdmmc_leave (P := demo_build) demo_card None).2 = 0 ∧ load_n (length (demo_pkg 0)) m' 0x42e00000 = Some (demo_pkg 0).
Proof.
  apply (ota_accepts_bad (H := demo_host) (P := demo_build) 0 demo_card demo_dram 32800 (demo_pkg 0)); try lia.
  - apply demo_copy. reflexivity.
  - rewrite demo_good. reflexivity.
  - apply demo_mapped.
  - apply demo_len.
Defined.

(** ** Theorems: SPI NOR *)

Section nor.
Context `{N : spinor_chip} `{P : pkg_build} `{B : flashmap_build} (h : boot0_head).
Context `{HW : !WholeSectors (M := nor_medium)}.
Let start := u32 (sunxi_flashmap_toc1_start (flash_map h) FLASHMAP_SPI_NOR).

Lemma spinor_read_run m s n dst bs :
  0 < n → spinor_xfer s n = (bs, true) → mapped m dst (Z.of_nat (length bs)) →
  spinor_read m s n dst = Some (write_bytes m dst bs, 0).
Proof.
  intros Hn Hx Hm. unfold spinor_read, read_into, medium_read, nor_medium.
  destruct (Z.eqb_spec n 0); [lia|]. rewrite Hx. cbn -[store_n]. by rewrite store_n_spec.
Qed.

(** The package from SPI NOR is taken on the magic of its first sector alone:
    whatever the other bytes are, the load succeeds.  Only whole sectors of the
    package are read, so the last [valid_len mod 512] bytes keep whatever
    memory held. *)
Theorem spinor_unverified flash_inited m head body :
  spinor_init = 0 → spinor_xfer start 1 = (head, true) → has_magic head = true → 512 <= valid_len head →
  spinor_xfer start (valid_len head / 512) = (body, true) →
  mapped m CONFIG_BOOTPKG_BASE (Z.of_nat (length body)) → mapped m CONFIG_BOOTPKG_BASE (Z.of_nat (length head)) →
  ∃ m', load_toc1_from_spinor h flash_inited m = Some (m', 1, 0) ∧
    load_n (length body) m' CONFIG_BOOTPKG_BASE = Some body ∧
    (∀ x, CONFIG_BOOTPKG_BASE + 512 * (valid_len head / 512) <= x → m' !! x = m !! x).
Proof.
  intros Hi Hx Hmag Hv Hb Hm1 Hm2. destruct (whole_sectors (M := nor_medium) _ _ _ Hx) as [Hl Hbl]; [lia|].
  assert (0 < valid_len head / 512) as Hpos by zmod.
  destruct (whole_sectors (M := nor_medium) _ _ _ Hb) as [Hl2 _]; [lia|].
  exists (write_bytes (write_bytes m CONFIG_BOOTPKG_BASE head) CONFIG_BOOTPKG_BASE body).
  split; [|split; [apply load_write_eq|]].
  - unfold load_toc1_from_spinor, spinor_flash_init. rewrite Hi. cbn [negb]. rewrite andb_false_r. fold start.
    unfold spinor_package. rewrite (spinor_read_run m start 1 CONFIG_BOOTPKG_BASE head) by (done || lia). sbind.
    destruct (head_fields (write_bytes m CONFIG_BOOTPKG_BASE head) head) as (magic & Hm & Hmb & Hvl); [done|lia|apply load_write_eq|].
    change (0 =? 0) with true. cbn [negb]. rewrite Hm. sbind. rewrite Hmb, Hmag. cbn [negb]. rewrite Hvl. sbind.
    rewrite (spinor_read_run _ start _ CONFIG_BOOTPKG_BASE body) by (done || lia || by apply mapped_write). done.
  - intros x Hx'. rewrite !lookup_write_out by lia. done.
Qed.

End nor.

(** A package of 700 bytes with a wrong checksum. *)
Definition nor_head : bytes :=
  replicate 16 0 ++ le_bytes 4 TOC_MAIN_INFO_MAGIC ++ le_bytes 4 1 ++ replicate 12 0 ++ le_bytes 4 700 ++ replicate 472 7.
Definition demo_nor_chip : spinor_chip := SpinorChip 0 (λ s n, if n =? 1 then (nor_head, true) else ([], false)).
#[local] Instance nor_sectors : WholeSectors (M := nor_medium (N := demo_nor_chip)).
Proof.
  split. intros s n bs Hx _. cbn -[nor_head] in Hx. destruct (Z.eqb_spec n 1) as [->|]; [|done].
  injection Hx as <-. split; [done|]. unfold nor_head.
  repeat (apply Forall_app; split); try apply le_bytes_byte; apply Forall_replicate; unfold is_u8; lia.
Qed.

Lemma spinor_unverified_witness :
  good_image nor_head = false ∧
  ∃ m', load_toc1_from_spinor (N := demo_nor_chip) (P := demo_build) (B := demo_map) demo_boot0 0 (mem_of 0x42e00000 (replicate 700 1)) = Some (m', 1, 0) ∧
    load_n 512 m' 0x42e00000 = Some nor_head ∧
    (∀ x, 0x42e00000 + 512 * (700 / 512) <= x → m' !! x = mem_of 0x42e00000 (replicate 700 1) !! x).
Proof.
  split; [reflexivity|].
  apply (spinor_unverified (N := demo_nor_chip) (P := demo_build) (B := demo_map) demo_boot0 0 (mem_of 0x42e00000 (replicate 700 1)) nor_head nor_head); try reflexivity.
  - vm_compute. discriminate.
  - apply mappedb_spec. vm_compute. reflexivity.
  - apply mappedb_spec. vm_compute. reflexivity.
Defined.

(** ** Theorems: the U-Boot partitions *)

Section uboot.
Context `{H : mmc_host} `{P : pkg_build} (card : Z) `{HW : !WholeSectors (M := card_medium card)}.

Lemma uboot_unsized_step m i run start s hd r l :
  0 < s → mmc_xfer card s 64 = (hd, true) → load_le 4 20 hd = Some 0 → load_le 4 44 hd = Some r →
  mapped m CONFIG_BOOTPKG_BASE (Z.of_nat (length hd)) →
  uboot_copies m card i run start (s :: l) = uboot_copies (write_bytes m CONFIG_BOOTPKG_BASE hd) card (i + 1) r s l.
Proof.
  intros Hs Hx H20 H44 Hm. destruct (xfer_whole card _ _ _ Hx) as [Hl Hb]; [lia|].
  cbn [uboot_copies]. destruct (Z.eqb_spec s 0); [lia|].
  rewrite (mmc_bread_run card m s 64 CONFIG_BOOTPKG_BASE hd) by (done || lia). sbind.
  change (64 =? 0) with false. cbv iota. change off_uboot_length with (Z.of_nat 20). change off_uboot_reserved with (Z.of_nat 44).
  rewrite (head_word _ hd 20 (Some 0)) by (done || lia || apply load_write_eq). sbind.
  rewrite (head_word _ hd 44 (Some r)) by (done || lia || apply load_write_eq). done.
Qed.

(** Two U-Boot partitions whose headers give the length 0 do not make
    [load_uboot_partition] fail: the loop ends with the run address of the
    second header, nothing of U-Boot was loaded and no checksum was looked
    at. *)
Theorem uboot_unsized_accepted m s0 s1 h0 h1 r0 r1 :
  0 < s0 → 0 < s1 → mmc_xfer card s0 64 = (h0, true) → mmc_xfer card s1 64 = (h1, true) →
  load_le 4 20 h0 = Some 0 → load_le 4 20 h1 = Some 0 → load_le 4 44 h0 = Some r0 → load_le 4 44 h1 = Some r1 →
  mapped m CONFIG_BOOTPKG_BASE (Z.of_nat (length h0)) → mapped m CONFIG_BOOTPKG_BASE (Z.of_nat (length h1)) →
  uboot_copies m card 0 0 0 [s0; s1] =
    Some (write_bytes (write_bytes m CONFIG_BOOTPKG_BASE h0) CONFIG_BOOTPKG_BASE h1, Some (r1, s1)).
Proof.
  intros. rewrite (uboot_unsized_step m 0 0 0 s0 h0 r0) by done.
  by rewrite (uboot_unsized_step _ _ _ _ s1 h1 r1) by (done || by apply mapped_write).
Qed.

End uboot.

Lemma uboot_unsized_accepted_witness :
  uboot_copies (H := demo_host) (P := demo_build) demo_dram 0 0 0 0 [32800; 32800] =
    Some (write_bytes (write_bytes demo_dram 0x42e00000 (demo_pkg 0)) 0x42e00000 (demo_pkg 0), Some (0x07070707, 32800)).
Proof.
  rewrite (uboot_unsized_accepted (H := demo_host) (P := demo_build) 0 demo_dram 32800 32800 (demo_pkg 0) (demo_pkg 0) 0x07070707 0x07070707);
    try reflexivity; try apply demo_mapped; unfold demo_pkg; by rewrite load_le_app by (simpl; lia).
Defined.
