(* ===== verification/Spinand.v ===== *)
(** * The boot package on SPI NAND (spl/drivers/nand/general/spinand, spl/nboot/load_image_nand)

    Reads that skip bad blocks: page reads, the bad-block test, the loader
    [Spinand_Load_Boot1_Copy] that gathers a package from the good blocks, the
    kernel reader, and [load_toc1_from_spinand] that looks for a good copy of
    the package.  The chip is the class [nand_chip]: a page read delivers
    bytes and says whether it succeeded, a spare read delivers the first
    spare byte.  The geometry that [SpiNand_PhyInit] finds is the class
    [nand_geometry]. *)

From S2P Require Import Prelude Mem Checksum Heap BootImage BootPkg.

Local Open Scope Z_scope.
Local Open Scope c_scope.

Definition NAND_OP_TRUE : Z := 0.
Definition NAND_OP_FALSE : Z := -1.
Definition SPINAND_BAD_BLOCK : Z := 1.
Definition SPINAND_GOOD_BLOCK : Z := 0.
Definition ALIGN_SIZE : Z := 4 * 1024.
Definition UBOOTA : Z := 0.
Definition UBOOTB : Z := 1.

Class nand_geometry := NandGeometry {
  SPN_BLOCK_SIZE : Z;
  SPN_PAGE_SIZE : Z;
  UBOOT_START_BLK_NUM : Z;
  UBOOT_LAST_BLK_NUM : Z
}.

(** Page address and byte count to bytes; page address to the first spare
    byte. *)
Class nand_chip := NandChip {
  SpiNand_PhyInit : Z;
  page_xfer : Z → Z → bytes * bool;
  page_oob : Z → option Z
}.

Section code.
Context `{G : nand_geometry} `{C : nand_chip}.

Definition page_addr (block page : Z) : Z := u32 (u32 (block * SPN_BLOCK_SIZE) / SPN_PAGE_SIZE + page).

Definition read_single_page (block page data_size : Z) : bytes * bool := page_xfer (page_addr block page) data_size.

(** A spare area that cannot be read is not a bad block. *)
Definition SpiNand_Check_BadBlock (block_num : Z) : Z :=
  match page_oob (page_addr block_num 0) with
  | None => NAND_OP_FALSE
  | Some x => if negb (x =? 0xFF) then SPINAND_BAD_BLOCK else SPINAND_GOOD_BLOCK
  end.

(** [k] pages from page [start_page + i] on. *)
Fixpoint spinand_pages (k : nat) (m : mem) (block start_page buffer N page_nr i : Z) (not_full_page_flag : bool) :
    option (mem * Z) :=
  match k with
  | O => Some (m, NAND_OP_TRUE)
  | S k' =>
      let data_size := if (i =? page_nr - 1) && not_full_page_flag then u32 (Z.shiftl N 9) - SPN_PAGE_SIZE * i
                       else SPN_PAGE_SIZE in
      let '(bs, ok) := read_single_page block (start_page + i) data_size in
      m ← store_n m (buffer + SPN_PAGE_SIZE * i) bs;
      if negb ok then Some (m, NAND_OP_FALSE)
      else spinand_pages k' m block start_page buffer N page_nr (i + 1) not_full_page_flag
  end.

Definition SpiNand_Read (m : mem) (sector_num buffer N : Z) : option (mem * Z) :=
  let scts_per_page := Z.shiftr SPN_PAGE_SIZE 9 in
  let scts_per_block := Z.shiftr SPN_BLOCK_SIZE 9 in
  let blk_num := sector_num / scts_per_block in
  let start_page := (sector_num mod scts_per_block) / scts_per_page in
  let not_full_page_flag := negb (N mod scts_per_page =? 0) in
  let page_nr := N / scts_per_page + (if not_full_page_flag then 1 else 0) in
  spinand_pages (Z.to_nat page_nr) m blk_num start_page buffer N page_nr 0 not_full_page_flag.

(** The loop over the blocks; nothing bounds the block number. *)
Fixpoint boot1_blocks (fuel : nat) (m : mem) (blk_num buf_base buf_off size blk_size : Z) : option (mem * Z * Z * Z) :=
  match fuel with
  | O => None
  | S f =>
      if buf_off <? size then
        if SpiNand_Check_BadBlock blk_num =? SPINAND_BAD_BLOCK
        then boot1_blocks f m (blk_num ⊞ 1) buf_base buf_off size blk_size
        else
          let cur_blk_base := u32 (blk_num * blk_size) in
          let rest_size := size - buf_off in
          let size_loaded := if rest_size <? blk_size then rest_size else blk_size in
          '(m, r) ← SpiNand_Read m (Z.shiftr cur_blk_base 9) buf_base (Z.shiftr size_loaded 9);
          if negb (r =? NAND_OP_TRUE) then Some (m, blk_num, buf_off, NAND_OP_FALSE)
          else boot1_blocks f m (blk_num ⊞ 1) (buf_base ⊞ size_loaded) (buf_off + size_loaded) size blk_size
      else Some (m, blk_num, buf_off, NAND_OP_TRUE)
  end.

(** Memory, [*blks] (only written when the loop ended) and the result. *)
Definition Spinand_Load_Boot1_Copy (fuel : nat) (m : mem) (start_blk buf size blk_size : Z) : option (mem * option Z * Z) :=
  '(m, blk_num, buf_off, r) ← boot1_blocks fuel m start_blk buf 0 size blk_size;
  if negb (r =? NAND_OP_TRUE) then Some (m, None, NAND_OP_FALSE)
  else if buf_off =? size then Some (m, Some (blk_num ⊟ start_blk), NAND_OP_TRUE)
  else Some (m, Some (blk_num ⊟ start_blk), NAND_OP_FALSE).

(** [spinand_read_kernel_skip_bad_block]: 1 for a block marked bad. *)
Definition spinand_read_kernel_skip_bad_block (block : Z) : Z :=
  match page_oob (page_addr block 0) with
  | Some x => if negb (x =? 0xff) then 1 else 0
  | None => 0
  end.

(** [check: ... goto check]. *)
Fixpoint skip_bad (fuel : nat) (blk_num : Z) : option Z :=
  match fuel with
  | O => None
  | S f => if negb (spinand_read_kernel_skip_bad_block blk_num =? 0) then skip_bad f (blk_num ⊞ 1) else Some blk_num
  end.

(** [check2: ... goto check2]: the first page of a further block, with that
    block's number and the shifted start page. *)
Fixpoint skip_middle (fuel : nat) (blk_num start_page i : Z) : option (Z * Z) :=
  match fuel with
  | O => None
  | S f =>
      let pages_per_block := SPN_BLOCK_SIZE / SPN_PAGE_SIZE in
      if negb (i =? 0) && ((start_page + i) mod pages_per_block =? 0) then
        let blk_num := blk_num ⊞ 1 in
        if negb (spinand_read_kernel_skip_bad_block blk_num =? 0) then skip_middle f blk_num (start_page + pages_per_block) i
        else Some (blk_num, start_page)
      else Some (blk_num, start_page)
  end.

Fixpoint kernel_pages (k fuel : nat) (m : mem) (block blk_num start_page buffer N page_nr i : Z) (not_full_page_flag : bool) :
    option (mem * Z) :=
  match k with
  | O => Some (m, NAND_OP_TRUE)
  | S k' =>
      '(blk_num, start_page) ← skip_middle fuel blk_num start_page i;
      let data_size := if (i =? page_nr - 1) && not_full_page_flag then u32 (Z.shiftl N 9) - SPN_PAGE_SIZE * i
                       else SPN_PAGE_SIZE in
      let '(bs, ok) := read_single_page block (start_page + i) data_size in
      m ← store_n m (buffer + SPN_PAGE_SIZE * i) bs;
      if negb ok then Some (m, NAND_OP_FALSE)
      else kernel_pages k' fuel m block blk_num start_page buffer N page_nr (i + 1) not_full_page_flag
  end.

Definition spinand_read_kernel (fuel : nat) (m : mem) (sector_num N buffer : Z) : option (mem * Z) :=
  let scts_per_page := Z.shiftr SPN_PAGE_SIZE 9 in
  let scts_per_block := Z.shiftr SPN_BLOCK_SIZE 9 in
  blk_num ← skip_bad fuel (sector_num / scts_per_block);
  let start_page := (sector_num mod scts_per_block) / scts_per_page in
  let not_full_page_flag := negb (N mod scts_per_page =? 0) in
  let page_nr := N / scts_per_page + (if not_full_page_flag then 1 else 0) in
  kernel_pages (Z.to_nat page_nr) fuel m blk_num blk_num start_page buffer N page_nr 0 not_full_page_flag.

(** ** load_toc1_from_spinand *)

Context `{P : pkg_build}.

(** One block of the search: [None] inside is [continue], otherwise a good
    copy is in memory. *)
Definition spinand_copy (fuel : nat) (m : mem) (i : Z) : option (mem * bool) :=
  if SpiNand_Check_BadBlock i =? SPINAND_BAD_BLOCK then Some (m, false)
  else
    '(m, r) ← SpiNand_Read m (u32 (i * Z.shiftr SPN_BLOCK_SIZE 9)) CONFIG_BOOTPKG_BASE 1;
    if r =? NAND_OP_FALSE then Some (m, false)
    else
      magic ← rd32 m (CONFIG_BOOTPKG_BASE + off_magic);
      if negb (magic =? TOC_MAIN_INFO_MAGIC) then Some (m, false)
      else
        length ← rd32 m (CONFIG_BOOTPKG_BASE + off_valid_len);
        if negb (Z.land length (ALIGN_SIZE - 1) =? 0) then Some (m, false)
        else
          '(m, _, status) ← Spinand_Load_Boot1_Copy fuel m i CONFIG_BOOTPKG_BASE length SPN_BLOCK_SIZE;
          if status =? NAND_OP_FALSE then Some (m, false)
          else '(m, r) ← verify_addsum_at m CONFIG_BOOTPKG_BASE length; Some (m, r =? 0).

Fixpoint spinand_search (k fuel : nat) (m : mem) (i : Z) : option (mem * option Z) :=
  match k with
  | O => Some (m, None)
  | S k' =>
      if i <=? UBOOT_LAST_BLK_NUM then
        '(m, good) ← spinand_copy fuel m i;
        if (good : bool) then Some (m, Some i) else spinand_search k' fuel m (i + 1)
      else Some (m, None)
  end.

(** Memory, [uboot_backup] and the result. *)
Definition load_toc1_from_spinand (fuel : nat) (m : mem) (uboot_backup : Z) : option (mem * Z * Z) :=
  if negb (SpiNand_PhyInit =? 0) then Some (m, uboot_backup, -1)
  else
    '(m, found) ← spinand_search (Z.to_nat (UBOOT_LAST_BLK_NUM - UBOOT_START_BLK_NUM + 2)) fuel m UBOOT_START_BLK_NUM;
    match found with
    | Some i => Some (m, if i =? UBOOT_START_BLK_NUM then UBOOTA else UBOOTB, 0)
    | None => Some (m, uboot_backup, -1)
    end.

End code.

(** ** Gathering the good blocks *)

Section gather.
Context `{G : nand_geometry} `{C : nand_chip}.
Context (scts ppb : Z) (Hscts : 0 < scts) (Hppb : 0 < ppb).
Context (Hpage : SPN_PAGE_SIZE = 512 * scts) (Hblock : SPN_BLOCK_SIZE = 512 * scts * ppb).

(** The contents of a block, and what it takes to read it. *)
Context (block_data : Z → bytes).
Definition block_reads (b : Z) : Prop :=
  0 <= b ∧ (b + 1) * SPN_BLOCK_SIZE < 2 ^ 32 ∧ Z.of_nat (length (block_data b)) = SPN_BLOCK_SIZE ∧
  ∀ p n, 0 <= p < ppb → 0 <= n <= SPN_PAGE_SIZE →
    page_xfer (b * ppb + p) n = (take (Z.to_nat n) (drop (Z.to_nat (SPN_PAGE_SIZE * p)) (block_data b)), true).

Lemma page_addr_lin b p : 0 <= b → (b + 1) * SPN_BLOCK_SIZE < 2 ^ 32 → 0 <= p < ppb → page_addr b p = b * ppb + p.
Proof.
  change (2 ^ 32) with 4294967296. intros Hb Hr Hp. unfold page_addr. rewrite Hblock in Hr |- *. rewrite Hpage.
  assert (b * (512 * scts * ppb) / (512 * scts) = b * ppb) as Hd.
  { replace (b * (512 * scts * ppb)) with (b * ppb * (512 * scts)) by ring. apply Z.div_mul. nia. }
  rewrite (u32_small (b * _)) by (unfold is_u32; nia). rewrite Hd. apply u32_small. unfold is_u32. nia.
Qed.

Lemma shiftr9 x : Z.shiftr x 9 = x / 512.
Proof. apply (Z.shiftr_div_pow2 x 9). lia. Qed.

Lemma shiftl9 x : Z.shiftl x 9 = x * 512.
Proof. apply (Z.shiftl_mul_pow2 x 9). lia. Qed.

Lemma take_more {A} (a b : nat) (l : list A) : take a l ++ take b (drop a l) = take (a + b) l.
Proof. apply take_take_drop. Qed.

Lemma write_take m buf bd a n :
  (a <= length bd)%nat →
  write_bytes (write_bytes m buf (take a bd)) (buf + Z.of_nat a) (take n (drop a bd)) = write_bytes m buf (take (a + n) bd).
Proof.
  intros Ha. rewrite <- take_more, write_bytes_app. by rewrite length_take_le.
Qed.

(** The page loop over one block. *)
Lemma spinand_pages_run b m buf N (nfp : bool) page_nr k i :
  block_reads b → 0 < N → N * 512 <= SPN_BLOCK_SIZE → nfp = negb (N mod scts =? 0) →
  page_nr = N / scts + (if nfp then 1 else 0) → Z.of_nat k = page_nr - i → 0 <= i →
  mapped m buf (N * 512) →
  spinand_pages k (write_bytes m buf (take (Z.to_nat (Z.min (SPN_PAGE_SIZE * i) (N * 512))) (block_data b)))
    b 0 buf N page_nr i nfp =
  Some (write_bytes m buf (take (Z.to_nat (N * 512)) (block_data b)), NAND_OP_TRUE).
Proof.
  intros (Hb0 & Hb1 & Hbl & Hrd) HN HNb Hnfp Hnr Hk Hi Hmap. revert i Hk Hi.
  assert (SPN_PAGE_SIZE * page_nr >= N * 512 ∧ SPN_PAGE_SIZE * (page_nr - 1) < N * 512 ∧ page_nr <= ppb ∧
          (nfp = false → SPN_PAGE_SIZE * page_nr = N * 512)) as (Hge & Hlt & Hpp & Hex).
  { rewrite Hpage, Hblock in *. subst nfp. pose proof (Z.div_mod N scts ltac:(lia)). pose proof (Z.mod_pos_bound N scts Hscts).
    destruct (Z.eqb_spec (N mod scts) 0); cbn [negb] in Hnr; subst page_nr; repeat split; try done; nia. }
  induction k as [|k IH]; intros i Hk Hi; cbn [spinand_pages].
  - rewrite Z.min_r by nia. done.
  - assert (i < page_nr) by lia. assert (SPN_PAGE_SIZE * i < N * 512) by nia.
    rewrite Z.min_l by lia. set (ds := if _ && nfp then _ else _).
    assert (ds = Z.min (SPN_PAGE_SIZE * (i + 1)) (N * 512) - SPN_PAGE_SIZE * i) as Hds.
    { unfold ds. rewrite shiftl9, u32_small by (unfold is_u32; change (2 ^ 32) with 4294967296 in Hb1; nia).
      destruct (Z.eqb_spec i (page_nr - 1)) as [->|]; cbn [andb].
      - destruct nfp; [rewrite Z.min_r; lia|]. rewrite <- Hex by done. rewrite Z.min_l; lia.
      - rewrite Z.min_l by nia. lia. }
    assert (0 <= ds <= SPN_PAGE_SIZE) by (rewrite Hpage in *; nia). clearbody ds.
    unfold read_single_page. rewrite Z.add_0_l, page_addr_lin by lia. rewrite Hrd by lia.
    assert (Hnn : 0 <= SPN_PAGE_SIZE * i) by (rewrite Hpage; nia).
    rewrite store_n_spec.
    2:{ apply mapped_write. eapply mapped_sub; [exact Hmap|lia|]. rewrite length_take, length_drop. lia. }
    sbind. cbn [negb]. rewrite <- (Z2Nat.id (SPN_PAGE_SIZE * i)) at 2 by done. rewrite write_take by lia.
    replace (Z.to_nat (SPN_PAGE_SIZE * i) + Z.to_nat ds)%nat with (Z.to_nat (Z.min (SPN_PAGE_SIZE * (i + 1)) (N * 512))) by lia.
    apply IH; lia.
Qed.

(** A read of the first [N] sectors of a block. *)
Lemma SpiNand_Read_run b m buf N :
  block_reads b → 0 < N → N * 512 <= SPN_BLOCK_SIZE → mapped m buf (N * 512) →
  SpiNand_Read m (b * (scts * ppb)) buf N =
    Some (write_bytes m buf (take (Z.to_nat (N * 512)) (block_data b)), NAND_OP_TRUE).
Proof.
  intros Hb HN HNb Hmap. unfold SpiNand_Read. rewrite !shiftr9, Hpage, Hblock.
  replace (512 * scts * ppb / 512) with (scts * ppb) by (rewrite <- Z.mul_assoc, (Z.mul_comm 512 (scts * ppb)), Z.div_mul; lia).
  replace (512 * scts / 512) with scts by (rewrite (Z.mul_comm 512 scts), Z.div_mul; lia).
  rewrite Z.div_mul, Z.mod_mul by nia. change (0 / scts) with 0.
  pose proof (spinand_pages_run b m buf N (negb (N mod scts =? 0)) _ (Z.to_nat (N / scts + (if negb (N mod scts =? 0) then 1 else 0))) 0
    Hb HN HNb eq_refl eq_refl) as Hrun.
  rewrite Z.mul_0_r, Z.min_l, take_0 in Hrun by lia. apply Hrun; [|lia|done].
  rewrite Z2Nat.id; [lia|]. pose proof (Z.div_pos N scts). destruct (negb _); lia.
Qed.

(** A block that is skipped or can be read, and the bytes of the good ones
    among [n] blocks. *)
Definition bad (b : Z) : bool := SpiNand_Check_BadBlock b =? SPINAND_BAD_BLOCK.

Fixpoint good_bytes (n : nat) (b : Z) : bytes :=
  match n with
  | O => []
  | S n' => (if bad b then [] else block_data b) ++ good_bytes n' (b + 1)
  end.

Definition blocks_ok (n : nat) (b : Z) : Prop := ∀ x, b <= x < b + Z.of_nat n → bad x = false → block_reads x.

(** The fewest blocks from [b] on whose good bytes are [need]. *)
Definition fewest (j : nat) (b need : Z) : Prop :=
  need <= Z.of_nat (length (good_bytes j b)) ∧ ∀ k, (k < j)%nat → Z.of_nat (length (good_bytes k b)) < need.

Lemma fewest_0 b need : need <= 0 → fewest 0 b need.
Proof. intros Hn. split; [done|]. intros k Hk. lia. Qed.

(** One block more in front, that gives [got] bytes of those that are needed. *)
Lemma fewest_S j b need got :
  0 < need → got <= need → (if bad b then got = 0 else got = Z.min need (Z.of_nat (length (block_data b)))) →
  fewest j (b + 1) (need - got) → fewest (S j) b need.
Proof.
  intros Hn Hg Hb [Hj Hk]. split.
  - cbn [good_bytes]. rewrite length_app. destruct (bad b); cbn [length]; lia.
  - intros [|k] Hlt; [done|]. specialize (Hk k ltac:(lia)). cbn [good_bytes]. rewrite length_app.
    destruct (bad b); cbn [length]; [lia|]. lia.
Qed.

Lemma boot1_blocks_run n fuel m b buf size bs :
  (n < fuel)%nat → blocks_ok n b → 0 <= b → b + Z.of_nat n < 2 ^ 32 →
  size mod 512 = 0 → Z.of_nat (length bs) mod 512 = 0 → 0 <= buf → buf + size < 2 ^ 32 → mapped m buf size →
  Z.of_nat (length bs) <= size <= Z.of_nat (length bs) + Z.of_nat (length (good_bytes n b)) →
  ∃ j, (j <= n)%nat ∧ fewest j b (size - Z.of_nat (length bs)) ∧
    boot1_blocks fuel (write_bytes m buf bs) b (buf + Z.of_nat (length bs)) (Z.of_nat (length bs)) size SPN_BLOCK_SIZE =
    Some (write_bytes m buf (bs ++ take (Z.to_nat (size - Z.of_nat (length bs))) (good_bytes n b)), b + Z.of_nat j, size, NAND_OP_TRUE).
Proof.
  change (2 ^ 32) with 4294967296. revert fuel b bs. induction n as [|n IH]; intros fuel b bs Hf Hok Hb0 Hb1 Hs Hd Hbuf0 Hbuf Hmap Hle;
    (destruct fuel as [|fuel]; [lia|]); cbn [boot1_blocks].
  { cbn [good_bytes length] in *. assert (Z.of_nat (length bs) = size) as <- by lia. exists 0%nat. split; [lia|].
    rewrite Z.ltb_irrefl, Z.sub_diag, take_0, app_nil_r, Z.add_0_r. split; [by apply fewest_0|done]. }
  destruct (Z.ltb_spec (Z.of_nat (length bs)) size) as [Hlt|Hge].
  2:{ exists 0%nat. split; [lia|]. assert (Z.of_nat (length bs) = size) as <- by lia. rewrite Z.sub_diag, take_0, app_nil_r, Z.add_0_r.
      split; [by apply fewest_0|done]. }
  assert (blocks_ok n (b + 1)) as Hok' by (intros x Hx; apply Hok; lia).
  cbn [good_bytes] in *. fold (bad b). rewrite (u32_small (b + 1)) by (unfold is_u32; lia).
  destruct (bad b) eqn:Hbad; cbn [app] in *.
  { destruct (IH fuel (b + 1) bs) as (j & Hj & Hw & Hrun); [lia|done|lia|lia|done|done|lia|lia|done|lia|]. exists (S j). split; [lia|].
    split; [apply (fewest_S j b _ 0); rewrite ?Hbad, ?Z.sub_0_r; done || lia|]. by replace (b + Z.of_nat (S j)) with (b + 1 + Z.of_nat j) by lia. }
  pose proof (Hok b ltac:(lia) Hbad) as Hrd. pose proof Hrd as (_ & Hbk & Hbl & _). rewrite length_app in Hle.
  set (sl := if _ <? SPN_BLOCK_SIZE then _ else _).
  assert (sl = Z.min (size - Z.of_nat (length bs)) SPN_BLOCK_SIZE) as Hsl by (unfold sl; case_match; bool_to_prop; lia).
  assert (SPN_BLOCK_SIZE mod 512 = 0) as Hbm by (rewrite Hblock, <- Z.mul_assoc, Z.mul_comm; apply Z.mod_mul; lia).
  assert (sl mod 512 = 0 ∧ 0 < sl) as [Hsm Hs0] by (assert (0 < SPN_BLOCK_SIZE) by (rewrite Hblock; nia); clear -Hs Hd Hbm Hsl Hlt H; zmod).
  clearbody sl. rewrite !shiftr9.
  assert (sl / 512 * 512 = sl) as Hsd by (clear -Hsm; zmod).
  change (2 ^ 32) with 4294967296 in Hbk. rewrite (u32_small (b * _)) by (unfold is_u32; rewrite Hblock in *; nia).
  replace (b * SPN_BLOCK_SIZE / 512) with (b * (scts * ppb))
    by (rewrite Hblock; replace (b * (512 * scts * ppb)) with (b * (scts * ppb) * 512) by ring; by rewrite Z.div_mul).
  rewrite (SpiNand_Read_run b (write_bytes m buf bs) (buf + Z.of_nat (length bs)) (sl / 512));
    [|done|clear -Hsm Hs0; zmod|lia|rewrite Hsd; apply mapped_write; eapply mapped_sub; [done|lia..]].
  sbind. change (NAND_OP_TRUE =? NAND_OP_TRUE) with true. cbn [negb]. rewrite Hsd, <- write_bytes_app.
  set (bs' := bs ++ take (Z.to_nat sl) (block_data b)).
  assert (Z.of_nat (length bs') = Z.of_nat (length bs) + sl) as Hl' by (unfold bs'; rewrite length_app, length_take; lia).
  rewrite (u32_small (buf + _ + sl)) by (unfold is_u32; lia).
  destruct (IH fuel (b + 1) bs') as (j & Hj & Hw & Hrun); [lia|done|lia|lia|done|rewrite Hl'; clear -Hd Hsm; zmod|lia|lia|done|lia|].
  rewrite Hl', Z.add_assoc in Hrun. rewrite Hrun. exists (S j). split; [lia|].
  split; [apply (fewest_S j b _ sl); rewrite ?Hbad; [lia..|]; by replace (size - Z.of_nat (length bs) - sl) with (size - Z.of_nat (length bs')) by lia|].
  replace (b + Z.of_nat (S j)) with (b + 1 + Z.of_nat j) by lia. do 4 f_equal. unfold bs'. rewrite <- app_assoc. f_equal.
  destruct (decide (size - Z.of_nat (length bs) <= SPN_BLOCK_SIZE)) as [Hc|Hc].
  - replace (size - (Z.of_nat (length bs) + sl)) with 0 by lia. rewrite take_0, app_nil_r, take_app_le by lia. by replace sl with (size - Z.of_nat (length bs)) by lia.
  - rewrite take_ge by lia. rewrite take_app_ge by lia.
    by replace (Z.to_nat (size - (Z.of_nat (length bs) + sl)))
      with (Z.to_nat (size - Z.of_nat (length bs)) - length (block_data b))%nat by lia.
Qed.

(** C13: [Spinand_Load_Boot1_Copy] gathers the package from the good blocks:
    when the blocks from the start on are marked bad or can be read and hold
    enough bytes, it stores exactly the first [size] bytes of the good blocks,
    in order and without the bad ones, and reports the fewest blocks, good and
    bad, that hold so many good bytes. *)
Theorem boot1_copy_gathers n fuel m start buf size :
  (n < fuel)%nat → blocks_ok n start → 0 <= start → start + Z.of_nat n < 2 ^ 32 →
  size mod 512 = 0 → 0 <= buf → buf + size < 2 ^ 32 → mapped m buf size →
  0 <= size <= Z.of_nat (length (good_bytes n start)) →
  ∃ blks, (blks <= n)%nat ∧ fewest blks start size ∧
    Spinand_Load_Boot1_Copy fuel m start buf size SPN_BLOCK_SIZE =
    Some (write_bytes m buf (take (Z.to_nat size) (good_bytes n start)), Some (Z.of_nat blks), NAND_OP_TRUE).
Proof.
  intros Hf Hok Hs0 Hs1 Hm Hb0 Hb1 Hmap Hle.
  destruct (boot1_blocks_run n fuel m start buf size []) as (j & Hj & Hw & Hrun); [done..|cbn [length]; lia|].
  cbn [length write_bytes app] in Hrun, Hw. rewrite Z.add_0_r, Z.sub_0_r in Hrun. rewrite Z.sub_0_r in Hw. exists j. split; [done|]. split; [done|].
  unfold Spinand_Load_Boot1_Copy. change 0 with (Z.of_nat 0) at 1. rewrite Hrun. sbind. rewrite Z.eqb_refl. cbn [negb].
  rewrite Z.eqb_refl. replace (start + Z.of_nat j - start) with (Z.of_nat j) by lia. rewrite u32_small; [done|].
  unfold is_u32. change (2 ^ 32) with 4294967296 in *. lia.
Qed.

(** ** Finding a package *)

Context `{P : pkg_build} (n : nat).

(** The header and the package that starts at a block, and whether it is
    good. *)
Definition head_at (b : Z) : bytes := take 512 (block_data b).
Definition package_at (b : Z) : bytes := take (Z.to_nat (valid_len (head_at b))) (good_bytes n b).
Definition aligned (b : Z) : bool := Z.land (valid_len (head_at b)) (ALIGN_SIZE - 1) =? 0.
Definition good_at (b : Z) : bool :=
  negb (bad b) && has_magic (head_at b) && aligned b && sum_ok (words_of (package_at b)) (valid_len (head_at b)).

(** A header that claims a package must give a length that the blocks and the
    memory behind the package address can hold. *)
Definition sane_at (m : mem) (b : Z) : Prop :=
  blocks_ok n b ∧ 0 <= b ∧ b + Z.of_nat n < 2 ^ 32 ∧ mapped m CONFIG_BOOTPKG_BASE 512 ∧
  (has_magic (head_at b) = true → aligned b = true →
     4096 <= valid_len (head_at b) <= Z.of_nat (length (good_bytes n b)) ∧
     CONFIG_BOOTPKG_BASE + valid_len (head_at b) < 2 ^ 32 ∧ mapped m CONFIG_BOOTPKG_BASE (valid_len (head_at b))).

Lemma sane_write m b bs a : sane_at m b → sane_at (write_bytes m a bs) b.
Proof.
  intros (?&?&?&?&Hs). split; [done|]. split; [done|]. split; [done|]. split; [by apply mapped_write|].
  intros Hg Ha. destruct (Hs Hg Ha) as (?&?&?). split; [done|]. split; [done|by apply mapped_write].
Qed.

Lemma good_bytes_byte k b : (∀ x, is_byte_list (block_data x)) → is_byte_list (good_bytes k b).
Proof.
  intros Hb. revert b. induction k as [|k IH]; intros b; cbn [good_bytes]; [by apply Forall_nil|].
  apply Forall_app. split; [destruct (bad b); [by apply Forall_nil|apply Hb]|apply IH].
Qed.

(** One block of the search stores some bytes at the package address; for a
    good package they are that package. *)
Lemma spinand_copy_run fuel m b :
  (n < fuel)%nat → (0 < n)%nat → (∀ x, is_byte_list (block_data x)) → 0 <= CONFIG_BOOTPKG_BASE → sane_at m b →
  ∃ bs, spinand_copy fuel m b = Some (write_bytes m CONFIG_BOOTPKG_BASE bs, good_at b) ∧ (good_at b = true → bs = package_at b).
Proof.
  intros Hf Hn Hby HB (Hok & Hb0 & Hb1 & Hm & Hs). change (2 ^ 32) with 4294967296 in *. unfold spinand_copy, good_at.
  change (SpiNand_Check_BadBlock b =? SPINAND_BAD_BLOCK) with (bad b). destruct (bad b) eqn:Hbad; cbn [negb andb].
  { exists []. done. }
  pose proof (Hok b ltac:(lia) Hbad) as Hrd. pose proof Hrd as (_ & Hbk & Hbl & _). change (2 ^ 32) with 4294967296 in Hbk.
  assert (512 <= SPN_BLOCK_SIZE) by (rewrite Hblock; nia).
  rewrite shiftr9. replace (SPN_BLOCK_SIZE / 512) with (scts * ppb)
    by (rewrite Hblock, <- Z.mul_assoc, (Z.mul_comm 512 (scts * ppb)), Z.div_mul; lia).
  rewrite u32_small by (unfold is_u32; rewrite Hblock in Hbk; nia).
  rewrite (SpiNand_Read_run b m CONFIG_BOOTPKG_BASE 1) by (done || lia). sbind.
  change (NAND_OP_TRUE =? NAND_OP_FALSE) with false. cbv iota. change (Z.to_nat (1 * 512)) with 512%nat. fold (head_at b).
  assert (length (head_at b) = 512%nat) as Hhl by (unfold head_at; rewrite length_take; lia).
  assert (is_byte_list (head_at b)) as Hhb by apply Forall_take, Hby.
  destruct (head_fields (write_bytes m CONFIG_BOOTPKG_BASE (head_at b)) (head_at b)) as (magic & Hmg & Hmb & Hv); [done|lia|apply load_write_eq|].
  rewrite Hmg. sbind. rewrite Hmb. destruct (has_magic (head_at b)) eqn:Hmag; cbn [negb andb]; [|exists (head_at b); split; [|discriminate]; reflexivity].
  rewrite Hv. sbind. fold (aligned b). destruct (aligned b) eqn:Hal; cbn [negb andb]; [|by exists (head_at b)].
  destruct (Hs eq_refl eq_refl) as (Hlen & Hend & Hmap). set (len := valid_len (head_at b)) in *.
  assert (len mod 4096 = 0) as Hmod.
  { unfold aligned in Hal. apply Z.eqb_eq in Hal. fold len in Hal. rewrite <- Hal. symmetry. apply (Z.land_ones len 12). lia. }
  destruct (boot1_blocks_run n fuel (write_bytes m CONFIG_BOOTPKG_BASE (head_at b)) b CONFIG_BOOTPKG_BASE len [])
    as (j & _ & _ & Hrun); [done..|clear -Hmod; zmod|done|done|done|by apply mapped_write|cbn [length]; lia|].
  cbn [length write_bytes app] in Hrun. rewrite Z.add_0_r, Z.sub_0_r in Hrun.
  unfold Spinand_Load_Boot1_Copy. change (Z.of_nat 0) with 0 in Hrun. rewrite Hrun. sbind. rewrite Z.eqb_refl. cbn [negb].
  rewrite Z.eqb_refl. sbind. change (NAND_OP_TRUE =? NAND_OP_FALSE) with false. cbv iota. fold len. fold (package_at b).
  assert (Z.of_nat (length (package_at b)) = len) as Hpl by (unfold package_at; fold len; rewrite length_take; lia).
  change (take (Z.to_nat len) (good_bytes n b)) with (package_at b).
  rewrite (addsum_at_spec _ _ _ (package_at b)); [sbind|apply load_write_eq| |clear -Hmod Hpl Hlen; unfold addsum_span; zmod|lia|lia].
  2:{ by apply Forall_take, good_bytes_byte. }
  exists (package_at b). split; [|done]. rewrite write_bytes_over by lia. by destruct (sum_ok _ _).
Qed.

(** The first block of the search range with a good package. *)
Fixpoint first_good (k : nat) (b : Z) : option Z :=
  match k with
  | O => None
  | S k' => if b <=? UBOOT_LAST_BLK_NUM then if good_at b then Some b else first_good k' (b + 1) else None
  end.

Lemma spinand_search_run k fuel m b :
  (n < fuel)%nat → (0 < n)%nat → (∀ x, is_byte_list (block_data x)) → 0 <= CONFIG_BOOTPKG_BASE →
  (∀ x, b <= x <= UBOOT_LAST_BLK_NUM → sane_at m x) →
  ∃ m', spinand_search k fuel m b = Some (m', first_good k b) ∧
    ∀ i, first_good k b = Some i → load_n (length (package_at i)) m' CONFIG_BOOTPKG_BASE = Some (package_at i).
Proof.
  intros Hf Hn Hby HB. revert m b. induction k as [|k IH]; intros m b Hs; cbn [spinand_search first_good]; [by exists m|].
  destruct (Z.leb_spec b UBOOT_LAST_BLK_NUM); [|by exists m].
  destruct (spinand_copy_run fuel m b Hf Hn Hby HB) as (bs & -> & Hg); [apply Hs; lia|]. sbind.
  destruct (good_at b) eqn:Hgood.
  - exists (write_bytes m CONFIG_BOOTPKG_BASE bs). split; [done|]. intros i [= <-]. rewrite Hg by done. apply load_write_eq.
  - apply IH. intros x Hx. apply sane_write, Hs. lia.
Qed.

(** C16: on a chip whose blocks are marked bad or can be read, the SPI NAND
    loader takes the first good copy of the search range: a block that is not
    bad, whose header has the magic and an aligned length, and whose package,
    gathered over bad blocks, has the right checksum.  That package is then at
    the package address, [uboot_backup] says whether it was the first block's,
    and without any good copy the load fails. *)
Theorem spinand_first_good fuel m uboot_backup :
  SpiNand_PhyInit = 0 → (n < fuel)%nat → (0 < n)%nat → (∀ x, is_byte_list (block_data x)) → 0 <= CONFIG_BOOTPKG_BASE →
  (∀ x, UBOOT_START_BLK_NUM <= x <= UBOOT_LAST_BLK_NUM → sane_at m x) →
  let found := first_good (Z.to_nat (UBOOT_LAST_BLK_NUM - UBOOT_START_BLK_NUM + 2)) UBOOT_START_BLK_NUM in
  ∃ m', load_toc1_from_spinand fuel m uboot_backup =
      Some (m', match found with
                | Some i => if i =? UBOOT_START_BLK_NUM then UBOOTA else UBOOTB
                | None => uboot_backup
                end, match found with Some _ => 0 | None => -1 end) ∧
    ∀ i, found = Some i → load_n (length (package_at i)) m' CONFIG_BOOTPKG_BASE = Some (package_at i).
Proof.
  intros Hi Hf Hn Hby HB Hs found. unfold load_toc1_from_spinand. rewrite Hi. change (0 =? 0) with true. cbn [negb].
  destruct (spinand_search_run (Z.to_nat (UBOOT_LAST_BLK_NUM - UBOOT_START_BLK_NUM + 2)) fuel m UBOOT_START_BLK_NUM Hf Hn Hby HB Hs)
    as (m' & -> & Hl). sbind. exists m'. fold found in Hl |- *. split; [by destruct found|done].
Qed.

(** The search for more blocks has no end: when every block from the start on
    is marked bad, no number of steps lets [Spinand_Load_Boot1_Copy] return,
    although its comment promises an error for a lack of blocks. *)
Theorem boot1_copy_runs_on fuel m start buf size :
  (∀ b, bad b = true) → 0 < size → Spinand_Load_Boot1_Copy fuel m start buf size SPN_BLOCK_SIZE = None.
Proof.
  intros Hbad Hs. unfold Spinand_Load_Boot1_Copy.
  assert (∀ b, boot1_blocks fuel m b buf 0 size SPN_BLOCK_SIZE = None) as ->; [|done].
  induction fuel as [|f IH]; intros b; cbn [boot1_blocks]; [done|].
  destruct (Z.ltb_spec 0 size); [|lia]. fold (bad b). by rewrite Hbad.
Qed.

End gather.

(** *** A chip with a bad block in the middle of the package *)

(** ** Any chip

    Nothing is assumed of the chip but that its pages hold bytes: reads may
    fail, and blocks may be marked in any way. *)

Section any_chip.
Context `{G : nand_geometry} `{C : nand_chip} `{P : pkg_build}.
Context (Hpages : ∀ a n, is_byte_list (page_xfer a n).1).

Lemma pages_bytes k m b sp buf N pn i nf m' r :
  byte_mem m → spinand_pages k m b sp buf N pn i nf = Some (m', r) → byte_mem m'.
Proof.
  revert m i. induction k as [|k IH]; intros m i Hm Hp; cbn [spinand_pages] in Hp; [by injection Hp as <- _|].
  unfold read_single_page in Hp. set (ds := if _ && nf then _ else _) in Hp. pose proof (Hpages (page_addr b (sp + i)) ds) as Hb.
  destruct (page_xfer _ ds) as [bs ok]. apply bind_Some_inv in Hp as (m1 & Hs & Hp).
  pose proof (byte_mem_store _ _ _ _ Hm Hb Hs). destruct (negb ok); [by injection Hp as <- _|by eapply IH].
Qed.

Lemma boot1_blocks_bytes fuel m b buf off size bsz m' b' o' r :
  byte_mem m → boot1_blocks fuel m b buf off size bsz = Some (m', b', o', r) → byte_mem m'.
Proof.
  revert m b buf off. induction fuel as [|fuel IH]; intros m b buf off Hm Hp; cbn [boot1_blocks] in Hp; [done|].
  destruct (off <? size); [|by injection Hp as <- _ _ _]. destruct (_ =? SPINAND_BAD_BLOCK); [by eapply IH|].
  apply bind_Some_inv in Hp as ([m1 r1] & Hr & Hp). apply pages_bytes in Hr; [|done].
  destruct (negb _); [by injection Hp as <- _ _ _|by eapply IH].
Qed.

(** Two reads of a page agree, and pages and blocks are of whole sectors. *)
Context (Hsame : ∀ a k n, 0 <= k <= n → (page_xfer a k).1 = take (Z.to_nat k) (page_xfer a n).1).
Context (scts ppb : Z) (Hscts : 0 < scts) (Hppb : 0 < ppb).
Context (Hpage : SPN_PAGE_SIZE = 512 * scts) (Hblock : SPN_BLOCK_SIZE = 512 * scts * ppb).
Context (Hstart : 0 <= UBOOT_START_BLK_NUM) (Hlast : UBOOT_LAST_BLK_NUM * SPN_BLOCK_SIZE < 2 ^ 32).

(** Pages from number [i] on are stored behind the ones before. *)
Lemma pages_above k m b sp buf N pn i nf m' r :
  spinand_pages k m b sp buf N pn i nf = Some (m', r) → ∀ x, x < buf + SPN_PAGE_SIZE * i → m' !! x = m !! x.
Proof.
  revert m i. induction k as [|k IH]; intros m i Hp x Hx; cbn [spinand_pages] in Hp; [by injection Hp as <- _|].
  unfold read_single_page in Hp. destruct (page_xfer _ _) as [bs ok]. apply bind_Some_inv in Hp as (m1 & Hs & Hp).
  apply store_n_inv in Hs as ->. assert (write_bytes m (buf + SPN_PAGE_SIZE * i) bs !! x = m !! x) as Hw by (apply lookup_write_out; lia).
  destruct (negb ok); [by injection Hp as <- _|]. rewrite <- Hw. eapply IH; [exact Hp|]. nia.
Qed.

(** The first sector that a read leaves in memory: from the first page. *)
Lemma read_first b m buf N m' r :
  0 < N → N * 512 < 2 ^ 32 → SpiNand_Read m (b * (scts * ppb)) buf N = Some (m', r) →
  ∃ n, 512 <= n ∧ ∀ x, x < buf + 512 → m' !! x = write_bytes m buf (page_xfer (page_addr b 0) n).1 !! x.
Proof.
  intros HN Hu Hr. unfold SpiNand_Read in Hr. rewrite !shiftr9, Hpage, Hblock in Hr.
  replace (512 * scts * ppb / 512) with (scts * ppb) in Hr by (rewrite <- Z.mul_assoc, (Z.mul_comm 512 (scts * ppb)), Z.div_mul; lia).
  replace (512 * scts / 512) with scts in Hr by (rewrite (Z.mul_comm 512 scts), Z.div_mul; lia).
  rewrite Z.div_mul, Z.mod_mul in Hr by nia. change (0 / scts) with 0 in Hr.
  pose proof (Z.div_mod N scts ltac:(lia)). pose proof (Z.mod_pos_bound N scts Hscts).
  set (nf := negb (N mod scts =? 0)) in Hr. set (pn := N / scts + (if nf then 1 else 0)) in Hr.
  assert (0 < pn) as Hpn by (unfold pn, nf; destruct (Z.eqb_spec (N mod scts) 0); cbn [negb]; [nia|pose proof (Z.div_pos N scts); lia]).
  destruct (Z.to_nat pn) as [|k] eqn:Hk; [lia|]. cbn [spinand_pages] in Hr. unfold read_single_page in Hr.
  rewrite !Z.mul_0_r, !Z.add_0_r, !Z.sub_0_r in Hr. set (ds := if _ && nf then _ else _) in Hr.
  assert (512 <= ds) as Hds.
  { unfold ds. destruct ((0 =? pn - 1) && nf); [|rewrite Hpage; lia]. rewrite shiftl9. change (2 ^ 32) with 4294967296 in Hu.
    rewrite u32_small by (unfold is_u32; lia). lia. }
  exists ds. split; [done|]. intros x Hx. destruct (page_xfer (page_addr b 0) ds) as [bs ok]. cbn [fst].
  apply bind_Some_inv in Hr as (m1 & Hs & Hr). apply store_n_inv in Hs as ->.
  destruct (negb ok); [by injection Hr as <- _|]. eapply pages_above; [exact Hr|]. rewrite Hpage. nia.
Qed.

Lemma lookup_write m a bs x : a <= x → write_bytes m a bs !! x = match bs !! Z.to_nat (x - a) with Some v => Some v | None => m !! x end.
Proof.
  intros Hx. destruct (bs !! Z.to_nat (x - a)) as [v|] eqn:Hv.
  - pose proof (load_n_lookup _ _ _ _ (Z.to_nat (x - a)) (load_write_eq m a bs) (lookup_lt_Some _ _ _ Hv)) as Hl.
    replace (a + Z.of_nat (Z.to_nat (x - a))) with x in Hl by lia. by rewrite Hl.
  - apply lookup_ge_None in Hv. apply lookup_write_out. lia.
Qed.

(** Writing the start of the same page again changes nothing there. *)
Lemma same_page m buf a k n x :
  512 <= k → 512 <= n → buf <= x < buf + 512 →
  write_bytes (write_bytes m buf (page_xfer a k).1) buf (page_xfer a n).1 !! x = write_bytes m buf (page_xfer a k).1 !! x.
Proof.
  intros Hk Hn Hx. assert (take 512 (page_xfer a k).1 = take 512 (page_xfer a n).1) as He.
  { change 512%nat with (Z.to_nat 512). by rewrite <- !Hsame by lia. }
  apply (f_equal (lookup (Z.to_nat (x - buf)))) in He. rewrite !lookup_take_lt in He by lia.
  rewrite (lookup_write _ buf (page_xfer a n).1), !(lookup_write m buf) by lia. rewrite He.
  by destruct ((page_xfer a n).1 !! _).
Qed.

(** Later blocks are stored behind the first. *)
Lemma blocks_above fuel m b base off size m' b' o' r :
  0 <= base → base + size <= 2 ^ 32 → 0 <= off →
  boot1_blocks fuel m b (base + off) off size SPN_BLOCK_SIZE = Some (m', b', o', r) → ∀ x, x < base + off → m' !! x = m !! x.
Proof.
  change (2 ^ 32) with 4294967296. intros H0 Hs. revert m b off. induction fuel as [|fuel IH]; intros m b off Ho Hp x Hx; cbn [boot1_blocks] in Hp; [done|].
  destruct (Z.ltb_spec off size); [|by injection Hp as <- _ _ _]. destruct (_ =? SPINAND_BAD_BLOCK); [by eapply IH|].
  apply bind_Some_inv in Hp as ([m1 r1] & Hr & Hp). unfold SpiNand_Read in Hr.
  assert (m1 !! x = m !! x) as Hm1 by (eapply pages_above; [exact Hr|lia]). clear Hr.
  destruct (negb _); [by injection Hp as <- _ _ _|]. rewrite <- Hm1.
  set (n := if size - off <? SPN_BLOCK_SIZE then size - off else SPN_BLOCK_SIZE) in *.
  assert (0 < n <= size - off) as Hn by (unfold n; rewrite Hblock; destruct (Z.ltb_spec (size - off) (512 * scts * ppb)); nia).
  destruct (Z.eq_dec (off + n) size) as [Hend|Hmore].
  - destruct fuel as [|fuel]; [done|]. cbn [boot1_blocks] in Hp. destruct (Z.ltb_spec (off + n) size); [lia|]. by injection Hp as <- _ _ _.
  - rewrite (u32_small (base + off + n)) in Hp by (unfold is_u32; lia). rewrite <- Z.add_assoc in Hp. eapply IH; [|exact Hp|]; lia.
Qed.

(** The header that was looked at is the one that is loaded. *)
Lemma header_reread fuel m i m1 r m2 blks r2 len :
  UBOOT_START_BLK_NUM <= i <= UBOOT_LAST_BLK_NUM → SpiNand_Check_BadBlock i ≠ SPINAND_BAD_BLOCK → 0 <= CONFIG_BOOTPKG_BASE →
  SpiNand_Read m (u32 (i * Z.shiftr SPN_BLOCK_SIZE 9)) CONFIG_BOOTPKG_BASE 1 = Some (m1, r) →
  Spinand_Load_Boot1_Copy fuel m1 i CONFIG_BOOTPKG_BASE len SPN_BLOCK_SIZE = Some (m2, blks, r2) →
  512 <= len < 2 ^ 32 → CONFIG_BOOTPKG_BASE + len <= 2 ^ 32 →
  ∀ x, CONFIG_BOOTPKG_BASE <= x < CONFIG_BOOTPKG_BASE + 512 → m2 !! x = m1 !! x.
Proof.
  change (2 ^ 32) with 4294967296 in *. intros Hi Hbad H0 H1 H2 Hlen Htop x Hx.
  assert (SPN_BLOCK_SIZE / 512 = scts * ppb) as Hs by (rewrite Hblock, <- Z.mul_assoc, (Z.mul_comm 512 (scts * ppb)), Z.div_mul; lia).
  assert (512 <= SPN_BLOCK_SIZE) as Hbs by (rewrite Hblock; nia).
  assert (0 <= i * SPN_BLOCK_SIZE < 4294967296) as Hu by nia.
  rewrite shiftr9, Hs, u32_small in H1 by (unfold is_u32; rewrite Hblock in Hu; nia).
  apply read_first in H1 as (k & Hk & H1); [|lia..].
  unfold Spinand_Load_Boot1_Copy in H2. apply bind_Some_inv in H2 as ([[[m3 b3] o3] r3] & Hb & H2).
  assert (m3 = m2) as -> by (repeat case_match; by simplify_eq). clear H2.
  destruct fuel as [|fuel]; [done|]. cbn [boot1_blocks] in Hb. destruct (Z.ltb_spec 0 len); [|lia].
  destruct (Z.eqb_spec (SpiNand_Check_BadBlock i) SPINAND_BAD_BLOCK) as [|_]; [done|].
  apply bind_Some_inv in Hb as ([m4 r4] & Hr & Hb). rewrite Z.sub_0_r, Z.add_0_l in Hb. rewrite Z.sub_0_r in Hr.
  set (n := if len <? SPN_BLOCK_SIZE then len else SPN_BLOCK_SIZE) in *.
  assert (512 <= n <= len) as Hn by (unfold n; destruct (Z.ltb_spec len SPN_BLOCK_SIZE); lia).
  rewrite !shiftr9, u32_small in Hr by (unfold is_u32; lia).
  replace (i * SPN_BLOCK_SIZE / 512) with (i * (scts * ppb)) in Hr
    by (rewrite Hblock; replace (i * (512 * scts * ppb)) with (i * (scts * ppb) * 512) by ring; by rewrite Z.div_mul).
  apply read_first in Hr as (k' & Hk' & Hr); [|zmod..].
  assert (m2 !! x = m4 !! x) as ->.
  { destruct (negb _); [by injection Hb as <- _ _ _|]. destruct (Z.eq_dec n len) as [->|Hmore].
    - destruct fuel as [|fuel]; [done|]. cbn [boot1_blocks] in Hb. rewrite Z.ltb_irrefl in Hb. by injection Hb as <- _ _ _.
    - rewrite (u32_small (CONFIG_BOOTPKG_BASE + n)) in Hb by (unfold is_u32; lia). eapply blocks_above; [| | |exact Hb|]; lia. }
  rewrite Hr, (H1 x) by lia. rewrite lookup_write by lia. pose proof (same_page m CONFIG_BOOTPKG_BASE (page_addr i 0) k k' x Hk Hk' Hx) as Hsm.
  rewrite lookup_write in Hsm by lia. rewrite <- Hsm. destruct ((page_xfer (page_addr i 0) k').1 !! _); [done|]. by apply H1; lia.
Qed.

Lemma spinand_copy_sealed fuel m i m' good :
  byte_mem m → 0 <= CONFIG_BOOTPKG_BASE → UBOOT_START_BLK_NUM <= i <= UBOOT_LAST_BLK_NUM → spinand_copy fuel m i = Some (m', good) →
  if good then package_sealed m' CONFIG_BOOTPKG_BASE else byte_mem m'.
Proof.
  intros Hm H0 Hi Hc. unfold spinand_copy in Hc. destruct (Z.eqb_spec (SpiNand_Check_BadBlock i) SPINAND_BAD_BLOCK) as [|Hbad]; [by injection Hc as <- <-|].
  apply bind_Some_inv in Hc as ([m1 r] & Hr & Hc). pose proof (pages_bytes _ _ _ _ _ _ _ _ _ _ _ Hm Hr) as Hm1.
  destruct (r =? NAND_OP_FALSE); [by injection Hc as <- <-|]. apply bind_Some_inv in Hc as (magic & Hmg & Hc).
  destruct (Z.eqb_spec magic TOC_MAIN_INFO_MAGIC) as [->|]; cbn [negb] in Hc; [|by injection Hc as <- <-]. apply bind_Some_inv in Hc as (len & Hlen & Hc).
  destruct (Z.eqb_spec (Z.land len (ALIGN_SIZE - 1)) 0) as [Hal|]; cbn [negb] in Hc; [|by injection Hc as <- <-].
  apply bind_Some_inv in Hc as ([[m2 blks] status] & H2 & Hc).
  assert (byte_mem m2) as Hm2.
  { pose proof H2 as H2'. unfold Spinand_Load_Boot1_Copy in H2'. apply bind_Some_inv in H2' as ([[[m3 ?] ?] ?] & H3 & H2').
    apply boot1_blocks_bytes in H3; [|done]. some_inv; by simplify_eq. }
  destruct (status =? NAND_OP_FALSE); [by injection Hc as <- <-|]. apply bind_Some_inv in Hc as ([m3 r3] & H3 & Hc). injection Hc as <- <-.
  assert (is_u32 len) as Hu.
  { unfold rd32 in Hlen. destruct (load_n 4 m1 _) as [bs|] eqn:Hl; [|done]. injection Hlen as <-.
    pose proof (le_val_bound bs (byte_mem_load _ _ _ _ Hm1 Hl)) as Hb. rewrite (load_n_length _ _ _ _ Hl) in Hb. exact Hb. }
  destruct (Z.eqb_spec r3 0) as [->|Hne].
  - apply addsum_at_sealed in H3 as [_ ?]; [done..|]. intros Htop H16. change (ALIGN_SIZE - 1) with (Z.ones 12) in Hal.
    rewrite Z.land_ones in Hal by lia. change (2 ^ 12) with 4096 in Hal.
    assert (∀ a, CONFIG_BOOTPKG_BASE <= a → a + 4 <= CONFIG_BOOTPKG_BASE + 512 → rd32 m2 a = rd32 m1 a) as Hsm.
    { intros a Ha1 Ha2. apply rd32_ext. intros x Hx. eapply (header_reread fuel m i); try done; [|lia]. unfold is_u32 in Hu. zmod. }
    unfold header_says, off_magic, off_valid_len in *. by rewrite !Hsm by lia.
  - pose proof H3 as H3'. unfold verify_addsum_at in H3'. apply bind_Some_inv in H3' as (img & Hl & _).
    pose proof (load_n_length _ _ _ _ Hl) as Hil. pose proof (byte_mem_load _ _ _ _ Hm2 Hl) as Hbi. rewrite <- Hil in Hl.
    by destruct (addsum_at_inv m2 _ len img Hl Hbi ltac:(lia) Hu _ _ H3) as (-> & _ & _).
Qed.

(** A success of the search leaves a package with a right checksum. *)
Lemma spinand_sealed fuel m backup m' backup' :
  byte_mem m → 0 <= CONFIG_BOOTPKG_BASE → load_toc1_from_spinand fuel m backup = Some (m', backup', 0) → package_sealed m' CONFIG_BOOTPKG_BASE.
Proof.
  unfold load_toc1_from_spinand. intros Hm H0 Hl. destruct (negb _); [done|]. apply bind_Some_inv in Hl as ([m1 found] & Hs & Hl).
  destruct found as [i|]; [|done]. injection Hl as <- _. revert m Hm Hs. generalize (Z.to_nat (UBOOT_LAST_BLK_NUM - UBOOT_START_BLK_NUM + 2)) as k.
  assert (UBOOT_START_BLK_NUM <= UBOOT_START_BLK_NUM) as Hb by done. revert Hb. generalize UBOOT_START_BLK_NUM at 2 3 as b.
  intros b Hb k. revert b Hb. induction k as [|k IH]; intros b Hb m Hm Hs; cbn [spinand_search] in Hs; [done|].
  destruct (Z.leb_spec b UBOOT_LAST_BLK_NUM); [|done]. apply bind_Some_inv in Hs as ([m2 good] & Hc & Hs).
  apply spinand_copy_sealed in Hc; [|done..]. destruct good; [by injection Hs as <- _|]. eapply (IH (b + 1)); [lia|done|done].
Qed.

End any_chip.

(** Pages of 512 bytes, blocks of two pages; block 1 is bad. *)
Definition demo_geo : nand_geometry := NandGeometry 1024 512 0 1.
Definition demo_chip : nand_chip :=
  NandChip 0 (λ a n, (replicate (Z.to_nat n) (a mod 256), true)) (λ a, Some (if a =? 2 then 0 else 0xff)).
Definition demo_block (b : Z) : bytes := replicate 512 ((2 * b) mod 256) ++ replicate 512 ((2 * b + 1) mod 256).

Lemma demo_block_reads b : 0 <= b < 100 → block_reads (G := demo_geo) (C := demo_chip) 2 demo_block b.
Proof.
  intros Hb. split; [lia|]. split; [unfold SPN_BLOCK_SIZE, demo_geo; lia|]. split; [done|].
  unfold SPN_PAGE_SIZE, page_xfer, demo_geo, demo_chip, demo_block. intros p n Hp Hn.
  destruct (decide (p = 0)) as [->|].
  - rewrite Z.mul_0_r, drop_0, take_app_le by (rewrite length_replicate; lia). rewrite take_replicate.
    by replace (Z.to_nat n `min` 512)%nat with (Z.to_nat n) by lia; rewrite Z.add_0_r, Z.mul_comm.
  - assert (p = 1) as -> by lia. rewrite drop_app_ge by (rewrite length_replicate; lia). rewrite length_replicate.
    change (Z.to_nat (512 * 1) - 512)%nat with 0%nat. rewrite drop_0, take_replicate.
    by replace (Z.to_nat n `min` 512)%nat with (Z.to_nat n) by lia; rewrite Z.mul_comm.
Qed.

Lemma boot1_copy_gathers_witness :
  Spinand_Load_Boot1_Copy (G := demo_geo) (C := demo_chip) 4 (mem_of 0x100 (replicate (Z.to_nat 1536) 9)) 0 0x100 1536 1024 =
  Some (write_bytes (mem_of 0x100 (replicate (Z.to_nat 1536) 9)) 0x100
          (replicate 512 0 ++ replicate 512 1 ++ replicate 512 4), Some 3, 0).
Proof.
  destruct (boot1_copy_gathers (G := demo_geo) (C := demo_chip) 1 2 ltac:(lia) ltac:(lia) eq_refl eq_refl demo_block
    3 4 (mem_of 0x100 (replicate (Z.to_nat 1536) 9)) 0 0x100 1536) as (blks & Hle & [Hn Hf] & Hrun);
    [lia|intros x Hx _; apply demo_block_reads; lia|lia|lia|reflexivity|lia|lia|apply mappedb_spec; vm_compute; reflexivity|split; vm_compute; discriminate|].
  - assert (blks = 3%nat) as ->; [|exact Hrun].
    destruct blks as [|[|[|[|blks]]]]; [exfalso; apply Hn; vm_compute; reflexivity..|reflexivity|clear - Hle; lia].
Defined.

(** *** A chip whose third block holds the only good copy *)

Definition pkg_block (sum : Z) : bytes :=
  replicate 16 0 ++ le_bytes 4 TOC_MAIN_INFO_MAGIC ++ le_bytes 4 sum ++ replicate 12 0 ++ le_bytes 4 4096 ++ replicate (Z.to_nat 4056) 0.
Definition pkg_sum : Z := wsum (image_words (words_of (pkg_block 0)) 4096).
Definition chip_block (b : Z) : bytes := if b =? 2 then pkg_block pkg_sum else if b =? 0 then pkg_block 5 else replicate (Z.to_nat 4096) 0.
Definition pkg_geo : nand_geometry := NandGeometry 4096 512 0 2.
Definition pkg_chip : nand_chip :=
  NandChip 0 (λ a n, (take (Z.to_nat n) (drop (Z.to_nat (512 * (a mod 8))) (chip_block (a / 8))), true))
    (λ a, Some (if a =? 8 then 0 else 0xff)).
Definition pkg_dram : mem := mem_of 0x42e00000 (replicate (Z.to_nat 4096) 0).

Lemma chip_block_shape b : length (chip_block b) = Z.to_nat 4096 ∧ is_byte_list (chip_block b).
Proof.
  assert (∀ sum, length (pkg_block sum) = Z.to_nat 4096 ∧ is_byte_list (pkg_block sum)) as Hp.
  { intros sum. unfold pkg_block. split; [rewrite !length_app, !length_replicate, !length_le_bytes; lia|].
    repeat (apply Forall_app; split); try apply le_bytes_byte; apply Forall_replicate; unfold is_u8; lia. }
  unfold chip_block. repeat case_match; [apply Hp..|]. rewrite length_replicate. split; [done|].
  apply Forall_replicate. unfold is_u8. lia.
Qed.

Lemma chip_reads b : 0 <= b < 100 → block_reads (G := pkg_geo) (C := pkg_chip) 8 chip_block b.
Proof.
  intros Hb. split; [lia|]. split; [unfold SPN_BLOCK_SIZE, pkg_geo; lia|].
  split; [rewrite (proj1 (chip_block_shape b)); done|].
  intros p n Hp Hn. unfold page_xfer, pkg_chip, SPN_PAGE_SIZE, pkg_geo.
  replace ((b * 8 + p) / 8) with b by zmod. replace ((b * 8 + p) mod 8) with p by zmod. done.
Qed.

Lemma spinand_first_good_witness :
  ∃ m', load_toc1_from_spinand (G := pkg_geo) (C := pkg_chip) (P := demo_build) 2 pkg_dram 7 = Some (m', UBOOTB, 0) ∧
    load_n (Z.to_nat 4096) m' 0x42e00000 = Some (pkg_block pkg_sum).
Proof.
  destruct (spinand_first_good (G := pkg_geo) (C := pkg_chip) 1 8 ltac:(lia) ltac:(lia) eq_refl eq_refl chip_block
    (P := demo_build) 1 2 pkg_dram 7) as (m' & Hrun & Hl); [done|lia|lia|apply chip_block_shape|done| |].
  - intros x Hx. split; [intros y Hy _; apply chip_reads; unfold UBOOT_START_BLK_NUM, UBOOT_LAST_BLK_NUM, pkg_geo in *; lia|].
    unfold UBOOT_START_BLK_NUM, UBOOT_LAST_BLK_NUM, pkg_geo in Hx. split; [lia|]. split; [lia|].
    assert (mapped pkg_dram 0x42e00000 4096) as Hm.
    { unfold pkg_dram. pose proof (mapped_mem_of 0x42e00000 (replicate (Z.to_nat 4096) 0)) as Hm. by rewrite length_replicate in Hm. }
    split; [eapply mapped_sub; [exact Hm|vm_compute; discriminate..]|]. intros Hmag Hal.
    assert (x = 0 ∨ x = 1 ∨ x = 2) as [->|[->| ->]] by lia; [|vm_compute in Hmag; discriminate|];
      (split; [vm_compute; split; discriminate|]; split; [vm_compute; done|exact Hm]).
  - exists m'. split; [rewrite Hrun; vm_compute; reflexivity|]. apply (Hl 2). vm_compute. reflexivity.
Defined.

Lemma boot1_copy_runs_on_witness :
  Spinand_Load_Boot1_Copy (G := pkg_geo) (C := NandChip 0 (λ _ _, ([], true)) (λ _, Some 0)) 50 ∅ 0 0 4096 4096 = None.
Proof. apply (boot1_copy_runs_on (G := pkg_geo) (C := NandChip 0 (λ _ _, ([], true)) (λ _, Some 0)) 50 ∅ 0 0 4096); [done|lia]. Defined.
