(* ===== verification/BootParam.v ===== *)
(** * Boot parameters (spl/common/boot_param.c)

    The 2 KiB region that carries DRAM and media parameters from one boot to
    the next: loading it from the medium with the checks of magic, boot0
    version and checksum, falling back to the parameters in boot0's own head,
    and handing it on, sealed, to U-Boot.  The region is the static
    [sunxi_boot_param] in memory; [memset], [memcpy] and the checksum are
    those of [Mem] and [Checksum].

    The theorems: loading never fails and always leaves a region with the
    right magic and version; what one boot hands on is accepted unchanged by
    the next. *)

From S2P Require Import Prelude Mem CString Checksum Heap BootImage SdMmc.

Local Open Scope Z_scope.
Local Open Scope c_scope.

(** ** Data *)

Definition BOOT_PARAM_MAGIC : bytes := [98; 111; 111; 116; 112; 97; 114; 97; 0].
Definition BOOTPARAM_DOWNLOAD_MASK : Z := 1.
Definition BOOT_PARAM_SIZE : Z := 2048.

(** Offsets in [typedef_sunxi_boot_param]. *)
Definition off_check_sum : Z := 12.
Definition off_boot0_checksum : Z := 20.
Definition off_transfer_flag : Z := 24.
Definition off_ddr_info : Z := 1024.

(** Addresses of the static region and of the DRAM parameters in the head of
    boot0 (32 words), and the checksum of boot0. *)
Class bp_env := BpEnv {
  sunxi_boot_param : Z;
  head_dram_para : Z;
  boot0_check_sum : Z
}.

(** The medium: a card, SPI NAND with its [BOOT_PARAM_OFFSET], or one that is
    not supported. *)
Inductive bp_media := BP_MMC | BP_SPINAND (BOOT_PARAM_OFFSET : Z) | BP_NONE.

(** ** The code *)

Section code.
Context `{H : mmc_host} `{B : flashmap_build} `{M : boot_medium} `{V : bp_env}.

(** The result of the driver's initialisation is not looked at by the
    caller. *)
Definition sunxi_flash_init_early (media : bp_media) (h : boot0_head) (st : mmc_state) : option (mmc_state * Z) :=
  match media with
  | BP_MMC => sunxi_mmc_init_ext h st
  | _ => Some (st, 0)
  end.

(** Sector by sector; a failed read is passed over. *)
Fixpoint cpu_read_loop (k : nat) (h : boot0_head) (m : mem) (start_sector i buf : Z) : option mem :=
  match k with
  | O => Some m
  | S k' =>
      '(m, _) ← sunxi_mmc_cpu_read h m (start_sector ⊞ i) 1 (buf + 512 * i);
      cpu_read_loop k' h m start_sector (i + 1) buf
  end.

Definition MMC_BOOT_PARAM_COMMON_OFFSET : Z := 8.

(** [M] is the SPI NAND chip here. *)
Definition sunxi_bootparam_cpu_read (media : bp_media) (h : boot0_head) (m : mem) (size_sector buf : Z) : option (mem * Z) :=
  match media with
  | BP_MMC =>
      let start_sector := u32 (sunxi_flashmap_bootparam_start (flash_map h) FLASHMAP_SDMMC - MMC_BOOT_PARAM_COMMON_OFFSET) in
      m ← cpu_read_loop (Z.to_nat size_sector) h m start_sector 0 buf;
      Some (m, 0)
  | BP_SPINAND offset =>
      '(m, _) ← read_into m (Z.shiftr offset 9) (Z.shiftr BOOT_PARAM_SIZE 9) buf;
      Some (m, 0)
  | BP_NONE => Some (m, 0)
  end.

Definition sunxi_bootparam_check_boot0_version (m : mem) : option Z :=
  v ← rd32 m (sunxi_boot_param + off_boot0_checksum);
  Some (if v =? boot0_check_sum then 0 else -1).

Definition sunxi_bootparam_record_boot0_version (m : mem) : option mem :=
  wr32 m (sunxi_boot_param + off_boot0_checksum) boot0_check_sum.

Definition sunxi_bootparam_check_legality (m : mem) : option Z :=
  region ← load_n (Z.to_nat BOOT_PARAM_SIZE) m sunxi_boot_param;
  c ← strncmp region BOOT_PARAM_MAGIC 8;
  if negb (c =? 0) then Some (-1)
  else
    v ← sunxi_bootparam_check_boot0_version m;
    if v <? 0 then Some (-1)
    else
      check_sum ← rd32 m (sunxi_boot_param + off_check_sum);
      r ← sunxi_verify_checksum_at m sunxi_boot_param BOOT_PARAM_SIZE check_sum;
      if r <? 0 then Some (-1) else Some 0.

(** [strcpy] of the magic stores its terminator too, in [version]. *)
Definition bootparam_defaults (m : mem) : option mem :=
  m ← memset m sunxi_boot_param 0 BOOT_PARAM_SIZE;
  m ← memcpy m (sunxi_boot_param + off_ddr_info) head_dram_para 128;
  f ← rd32 m (sunxi_boot_param + off_transfer_flag);
  m ← wr32 m (sunxi_boot_param + off_transfer_flag) (Z.lor f BOOTPARAM_DOWNLOAD_MASK);
  m ← store_n m sunxi_boot_param BOOT_PARAM_MAGIC;
  sunxi_bootparam_record_boot0_version m.

(** Memory, the card's state, [flash_disable_dma] at the end, the result. *)
Definition sunxi_bootparam_load (media : bp_media) (h : boot0_head) (st : mmc_state) (m : mem) :
    option (mem * mmc_state * Z * Z) :=
  '(st, _) ← sunxi_flash_init_early media h st;
  let size_sector := BOOT_PARAM_SIZE / 512 in
  '(m, _) ← sunxi_bootparam_cpu_read media h m size_sector sunxi_boot_param;
  legal ← sunxi_bootparam_check_legality m;
  m ← (if legal <? 0 then bootparam_defaults m else Some m);
  Some (m, st, 0, 0).

Definition sunxi_bootparam_format_and_transfer (m : mem) (dest : Z) : option (mem * Z) :=
  check_sum ← rd32 m (sunxi_boot_param + off_check_sum);
  region ← load_n (Z.to_nat BOOT_PARAM_SIZE) m sunxi_boot_param;
  sum ← sunxi_generate_checksum (words_of region) BOOT_PARAM_SIZE 1 check_sum;
  m ← wr32 m (sunxi_boot_param + off_check_sum) sum;
  m ← memcpy m dest sunxi_boot_param BOOT_PARAM_SIZE;
  Some (m, 0).

End code.

(** The fes build takes the parameters of its own head unconditionally. *)
Definition sunxi_bootparam_load_fes `{V : bp_env} (m : mem) : option (mem * Z) :=
  f ← rd32 m (sunxi_boot_param + off_transfer_flag);
  m ← wr32 m (sunxi_boot_param + off_transfer_flag) (Z.lor f BOOTPARAM_DOWNLOAD_MASK);
  m ← memcpy m (sunxi_boot_param + off_ddr_info) head_dram_para 128;
  m ← store_n m sunxi_boot_param BOOT_PARAM_MAGIC;
  Some (m, 0).

(** ** The region as bytes *)

Lemma strncmp_prefix a cs :
  is_cstr a → is_byte_list cs → (length a <= length cs)%nat →
  ∃ r, strncmp cs (a ++ [0]) (length a) = Some r ∧ (r =? 0) = bool_decide (take (length a) cs = a).
Proof.
  unfold strncmp. assert (∀ z, z = 0 → is_cstr a → is_byte_list cs → (length a <= length cs)%nat →
    ∃ r, strncmp_loop z cs (a ++ [0]) (length a) = Some r ∧ (r =? 0) = bool_decide (take (length a) cs = a)) as Hg; [|by apply Hg].
  revert cs. induction a as [|c a IH]; intros cs z -> Ha Hc Hl.
  - exists 0. split; [done|]. symmetry. by apply bool_decide_eq_true.
  - destruct cs as [|d cs]; [cbn [length] in Hl; lia|]. apply Forall_cons in Ha as [Hca Ha]. apply Forall_cons in Hc as [Hcd Hc].
    cbn [app length strncmp_loop take]. pose proof (s8_sub_eqb d c Hcd (char_u8 c Hca)) as He.
    destruct (Z.eqb_spec d c) as [->|Hne].
    + rewrite He, (char_nonzero c Hca). cbn [negb orb]. apply Z.eqb_eq in He. rewrite He.
      destruct (IH cs 0 eq_refl Ha Hc) as (r & Hr & Hb); [cbn [length] in Hl; lia|]. exists r. split; [done|]. rewrite Hb.
      apply bool_decide_ext. split; [by intros ->|by intros [=]].
    + rewrite He. cbn [negb orb]. eexists. split; [done|]. rewrite He. symmetry. apply bool_decide_eq_false. by intros [=].
Qed.

Section region.
Context `{V : bp_env}.

Definition field (off : nat) (p : bytes) : Z := le_val (take 4 (drop off p)).

(** The region in memory. *)
Definition region_is (m : mem) (p : bytes) : Prop :=
  load_n 2048 m sunxi_boot_param = Some p ∧ is_byte_list p.

Definition sum_of (p : bytes) : Z := u32 (wsum (words_of p) - field 12 p + STAMP_VALUE).

Definition legal (p : bytes) : bool :=
  bool_decide (take 8 p = take 8 BOOT_PARAM_MAGIC) && (field 20 p =? boot0_check_sum) && (sum_of p =? field 12 p).

Lemma region_field m p off :
  region_is m p → (off + 4 <= 2048)%nat → rd32 m (sunxi_boot_param + Z.of_nat off) = Some (field off p).
Proof. intros [Hl _] Ho. unfold rd32. by rewrite (load_n_sub _ m _ p off 4 Hl). Qed.

Lemma field_u32 p off : is_byte_list p → (off + 4 <= length p)%nat → is_u32 (field off p).
Proof.
  intros Hb Hl. pose proof (le_val_bound (take 4 (drop off p))) as Hv. rewrite length_take, length_drop in Hv.
  replace (4 `min` (length p - off))%nat with 4%nat in Hv by lia. apply Hv. by apply Forall_take, Forall_drop.
Qed.

Lemma words_2048 p : length p = 2048%nat → length (words_of p) = 512%nat.
Proof.
  intros Hl. pose proof (length_words 512 p ltac:(lia)) as H1.
  assert (words_of p = take 512 (words_of p)) as ->; [|rewrite length_take; lia].
  rewrite <- words_take. by rewrite take_ge by lia.
Qed.

Lemma region_sum p :
  length p = 2048%nat → is_byte_list p → 
  sunxi_generate_checksum (words_of p) 2048 1 (field 12 p) = Some (sum_of p) ∧
  sunxi_verify_checksum (words_of p) 2048 (field 12 p) = Some (if sum_of p =? field 12 p then 0 else -1).
Proof.
  intros Hl Hb. pose proof (generate_verify_checksum (words_of p) [] (field 12 p)) as Hg.
  rewrite app_nil_r, (words_2048 p Hl) in Hg. apply Hg; [lia|lia|]. apply field_u32; [done|lia].
Qed.

Lemma check_legality_run m p :
  region_is m p → sunxi_bootparam_check_legality m = Some (if legal p then 0 else -1).
Proof.
  intros Hr. pose proof Hr as [Hl Hb]. pose proof (load_n_length _ _ _ _ Hl) as Hlen.
  unfold sunxi_bootparam_check_legality, legal. change (Z.to_nat BOOT_PARAM_SIZE) with 2048%nat. rewrite Hl. sbind.
  destruct (strncmp_prefix (take 8 BOOT_PARAM_MAGIC) p) as (r & Hs & He); [by repeat constructor|done|cbn; lia|].
  change (take 8 BOOT_PARAM_MAGIC ++ [0]) with BOOT_PARAM_MAGIC in Hs. change (length (take 8 BOOT_PARAM_MAGIC)) with 8%nat in *.
  rewrite Hs. sbind. rewrite He. destruct (bool_decide _); cbn [negb andb]; [|done].
  unfold sunxi_bootparam_check_boot0_version. change off_boot0_checksum with (Z.of_nat 20).
  rewrite (region_field m p 20) by (done || lia). sbind. destruct (field 20 p =? boot0_check_sum); cbn [andb]; [|done].
  change (0 <? 0) with false. cbv iota. change off_check_sum with (Z.of_nat 12).
  rewrite (region_field m p 12) by (done || lia). sbind. unfold sunxi_verify_checksum_at.
  change (Z.to_nat (4 * (BOOT_PARAM_SIZE / 4))) with 2048%nat. rewrite Hl. sbind.
  change BOOT_PARAM_SIZE with 2048. rewrite (proj2 (region_sum p Hlen Hb)). sbind. by destruct (sum_of p =? field 12 p).
Qed.

Lemma words_splice i v p :
  (4 * i + 4 <= length p)%nat → is_u32 v → words_of (splice (4 * i) (le_bytes 4 v) p) = <[i := v]> (words_of p).
Proof.
  revert p. induction i as [|i IH]; intros p Hl Hv; destruct p as [|a [|b [|c [|d r]]]]; cbn [length] in Hl; try lia.
  - unfold splice. rewrite take_0, length_le_bytes. cbn [Nat.mul Nat.add drop app].
    pose proof (length_le_bytes 4 v) as Hb. pose proof (le_val_bytes 4 v Hv) as He.
    destruct (le_bytes 4 v) as [|b0 [|b1 [|b2 [|b3 [|]]]]]; try done. cbn [app]. by rewrite words_of_cons4, He.
  - unfold splice. rewrite length_le_bytes. replace (4 * S i)%nat with (S (S (S (S (4 * i))))) by lia.
    cbn [take drop app Nat.add]. rewrite !words_of_cons4. cbn [insert list_insert]. f_equal.
    rewrite <- IH by (done || lia). unfold splice. by rewrite length_le_bytes.
Qed.

(** The sealed region: only the checksum field changes. *)
Definition sealed (p : bytes) : bytes := splice 12 (le_bytes 4 (sum_of p)) p.

Lemma splice_field off v p o :
  (off + 4 <= length p)%nat → (o + 4 <= off ∨ off + 4 <= o)%nat → field o (splice off (le_bytes 4 v) p) = field o p.
Proof. intros Hl Ho. unfold field. by rewrite splice_ne by (by rewrite length_le_bytes). Qed.

Lemma splice_field_eq off v p : (off + 4 <= length p)%nat → is_u32 v → field off (splice off (le_bytes 4 v) p) = v.
Proof.
  intros Hl Hv. unfold field. pose proof (splice_eq off (le_bytes 4 v) p) as Hs. rewrite length_le_bytes in Hs.
  rewrite Hs by done. by apply le_val_bytes.
Qed.

Lemma sealed_sum p : length p = 2048%nat → is_byte_list p → sum_of (sealed p) = field 12 (sealed p) ∧ field 12 (sealed p) = sum_of p.
Proof.
  intros Hl Hb. assert (is_u32 (sum_of p)) as Hu by apply u32_bound.
  unfold sealed. rewrite (splice_field_eq 12) by (done || lia). split; [|done].
  unfold sum_of at 1. rewrite (splice_field_eq 12) by (done || lia). rewrite (words_splice 3) by (done || lia).
  rewrite (wsum_insert _ 3 _ (field 12 p)) by (apply words_lookup; lia). unfold sum_of, u32. zmod.
Qed.

Lemma sealed_legal p :
  length p = 2048%nat → is_byte_list p → take 8 p = take 8 BOOT_PARAM_MAGIC → field 20 p = boot0_check_sum → legal (sealed p) = true.
Proof.
  intros Hl Hb Hm Hv. destruct (sealed_sum p Hl Hb) as [Hs1 Hs2]. unfold legal. rewrite Hs1, Z.eqb_refl.
  unfold sealed. rewrite splice_field by lia. rewrite Hv, Z.eqb_refl, !andb_true_r. apply bool_decide_eq_true.
  pose proof (splice_ne 12 (le_bytes 4 (sum_of p)) p 0 8) as Hn. rewrite length_le_bytes, !drop_0 in Hn. by rewrite Hn by lia.
Qed.

Lemma sealed_shape p : length p = 2048%nat → is_byte_list p → length (sealed p) = 2048%nat ∧ is_byte_list (sealed p).
Proof.
  intros Hl Hb. unfold sealed. split; [rewrite length_splice; [done|rewrite length_le_bytes; lia]|].
  apply splice_byte; [apply le_bytes_byte|done].
Qed.

(** Two memory ranges that do not meet. *)
Definition apart (a n b k : Z) : Prop := a + n <= b ∨ b + k <= a.

Lemma region_write m p a bs :
  region_is m p → apart sunxi_boot_param 2048 a (Z.of_nat (length bs)) → region_is (write_bytes m a bs) p.
Proof.
  intros [Hl Hb] Ha. split; [|done]. rewrite <- Hl. apply load_n_ext. intros x Hx. apply lookup_write_out. unfold apart in Ha. lia.
Qed.

Lemma region_splice m p off bs :
  region_is m p → is_byte_list bs → (off + length bs <= 2048)%nat →
  region_is (write_bytes m (sunxi_boot_param + Z.of_nat off) bs) (splice off bs p).
Proof.
  intros [Hl Hb] Hbs Ho. split; [by apply load_write_inside|by apply splice_byte].
Qed.

Lemma region_mapped m p : region_is m p → mapped m sunxi_boot_param 2048.
Proof.
  intros [Hl _] x Hx. pose proof (load_n_lookup _ _ _ _ (Z.to_nat (x - sunxi_boot_param)) Hl ltac:(lia)) as Hk.
  replace (sunxi_boot_param + Z.of_nat (Z.to_nat (x - sunxi_boot_param))) with x in Hk by lia. rewrite Hk.
  apply lookup_lt_is_Some. rewrite (load_n_length _ _ _ _ Hl). lia.
Qed.

(** What is handed to U-Boot. *)
Lemma format_run m p dest :
  region_is m p → mapped m dest 2048 → apart sunxi_boot_param 2048 dest 2048 →
  sunxi_bootparam_format_and_transfer m dest =
    Some (write_bytes (w32 m (sunxi_boot_param + 12) (sum_of p)) dest (sealed p), 0).
Proof.
  intros Hr Hd Ha. pose proof Hr as [Hl Hb]. pose proof (load_n_length _ _ _ _ Hl) as Hlen.
  unfold sunxi_bootparam_format_and_transfer. change off_check_sum with (Z.of_nat 12).
  rewrite (region_field m p 12) by (done || lia). sbind. change (Z.to_nat BOOT_PARAM_SIZE) with 2048%nat. rewrite Hl. sbind.
  change BOOT_PARAM_SIZE with 2048. rewrite (proj1 (region_sum p Hlen Hb)). sbind.
  pose proof (region_mapped m p Hr) as Hmp. rewrite wr32_mapped by (eapply mapped_sub; [exact Hmp|lia..]). sbind.
  destruct (sealed_shape p Hlen Hb) as [Hsl _].
  assert (load_n (length (sealed p)) (w32 m (sunxi_boot_param + Z.of_nat 12) (sum_of p)) sunxi_boot_param = Some (sealed p)) as Hs.
  { rewrite Hsl. apply (region_splice m p 12 _ Hr); [apply le_bytes_byte|rewrite length_le_bytes; lia]. }
  replace 2048 with (Z.of_nat (length (sealed p))) by lia.
  rewrite (memcpy_forward _ dest sunxi_boot_param (sealed p)); [done|done|rewrite Hsl; by apply mapped_w32|].
  rewrite Hsl. unfold apart in Ha. lia.
Qed.

(** The fallback region. *)
Record default_region (dp p : bytes) : Prop := {
  dr_magic : take 8 p = take 8 BOOT_PARAM_MAGIC;
  dr_version : field 20 p = boot0_check_sum;
  dr_flag : field 24 p = BOOTPARAM_DOWNLOAD_MASK;
  dr_unsealed : field 12 p = 0;
  dr_dram : take 128 (drop 1024 p) = dp
}.

Lemma field_zeros o n : field o (replicate n 0) = 0.
Proof.
  unfold field. rewrite drop_replicate, take_replicate. generalize (4 `min` (n - o))%nat.
  induction n0 as [|k IH]; [done|]. cbn [replicate le_val]. by rewrite IH.
Qed.

(** The fallback region as the code builds it. *)
Definition default_image (dp : bytes) : bytes :=
  splice 20 (le_bytes 4 boot0_check_sum) (splice 0 BOOT_PARAM_MAGIC (splice 24 (le_bytes 4 1) (splice 1024 dp (replicate 2048 0)))).

Lemma default_image_fields dp :
  length dp = 128%nat → is_u32 boot0_check_sum → default_region dp (default_image dp).
Proof.
  intros Hdl Hcs. unfold default_image. set (z := replicate 2048 0). assert (length z = 2048%nat) as Hz by apply length_replicate.
  set (p2 := splice 1024 dp z). assert (length p2 = 2048%nat) as Hl2 by (unfold p2; rewrite length_splice; lia).
  set (p3 := splice 24 _ p2). assert (length p3 = 2048%nat) as Hl3 by (unfold p3; rewrite length_splice; rewrite ?length_le_bytes; lia).
  set (p4 := splice 0 _ p3).
  assert (length p4 = 2048%nat) as Hl4 by (unfold p4; rewrite length_splice; [lia|cbn [length BOOT_PARAM_MAGIC]; lia]).
  assert (∀ o k, (9 <= o)%nat → take k (drop o p4) = take k (drop o p3)) as H43
    by (intros; unfold p4; apply splice_ne; cbn [length BOOT_PARAM_MAGIC]; lia).
  split.
  - pose proof (splice_ne 20 (le_bytes 4 boot0_check_sum) p4 0 8) as Hn. rewrite length_le_bytes, !drop_0 in Hn. rewrite Hn by lia.
    pose proof (splice_eq 0 BOOT_PARAM_MAGIC p3 ltac:(cbn [length BOOT_PARAM_MAGIC]; lia)) as He. fold p4 in He. rewrite drop_0 in He.
    change 8%nat with (8 `min` length BOOT_PARAM_MAGIC)%nat at 1. rewrite <- take_take, He. done.
  - apply splice_field_eq; [lia|done].
  - rewrite splice_field by lia. unfold field. rewrite H43 by lia.
    apply splice_field_eq; [lia|unfold is_u32, BOOTPARAM_DOWNLOAD_MASK; lia].
  - rewrite splice_field by lia. unfold field. rewrite H43 by lia. fold (field 12 p3). unfold p3. rewrite splice_field by lia.
    unfold field, p2. rewrite splice_ne by lia. apply field_zeros.
  - rewrite splice_ne by (rewrite length_le_bytes; lia). rewrite H43 by lia. unfold p3. rewrite splice_ne by (rewrite length_le_bytes; lia).
    unfold p2. rewrite <- Hdl. apply splice_eq. lia.
Qed.

(** One word store of the code inside the region. *)
Lemma region_wr32 m p off v :
  region_is m p → (off + 4 <= 2048)%nat →
  ∃ m', wr32 m (sunxi_boot_param + Z.of_nat off) v = Some m' ∧ region_is m' (splice off (le_bytes 4 v) p).
Proof.
  intros Hr Ho. exists (w32 m (sunxi_boot_param + Z.of_nat off) v). split.
  - apply wr32_mapped. eapply mapped_sub; [by eapply region_mapped|lia..].
  - apply region_splice; [done|apply le_bytes_byte|by rewrite length_le_bytes].
Qed.

Lemma defaults_run m p dp :
  region_is m p → load_n 128 m head_dram_para = Some dp → is_byte_list dp →
  apart sunxi_boot_param 2048 head_dram_para 128 →
  ∃ m', bootparam_defaults m = Some m' ∧ region_is m' (default_image dp).
Proof.
  intros Hr Hdp Hdb Ha. pose proof (region_mapped m p Hr) as Hmap. pose proof (load_n_length _ _ _ _ Hdp) as Hdl.
  unfold bootparam_defaults, default_image. change BOOT_PARAM_SIZE with (Z.of_nat 2048). rewrite (memset_spec m sunxi_boot_param 0 2048 Hmap). sbind.
  change (u8 0) with 0. set (z := replicate 2048 0). assert (length z = 2048%nat) as Hzl by apply length_replicate.
  set (m1 := write_bytes m sunxi_boot_param z).
  assert (region_is m1 z) as Hr1.
  { split; [rewrite <- Hzl; apply load_write_eq|]. apply Forall_replicate. unfold is_u8. lia. }
  replace 128 with (Z.of_nat (length dp)) by lia. change off_ddr_info with (Z.of_nat 1024).
  rewrite (memcpy_forward m1 _ head_dram_para dp).
  2:{ rewrite Hdl, <- Hdp. apply load_n_ext. intros x Hx. apply lookup_write_out. rewrite Hzl. unfold apart in Ha. lia. }
  2:{ rewrite Hdl. eapply mapped_sub; [by eapply region_mapped|lia..]. }
  2:{ unfold apart in Ha. lia. }
  sbind. pose proof (region_splice m1 z 1024 dp Hr1 Hdb ltac:(lia)) as Hr2. set (m2 := write_bytes m1 _ dp) in *.
  change off_transfer_flag with (Z.of_nat 24). rewrite (region_field m2 _ 24 Hr2) by lia. sbind.
  assert (field 24 (splice 1024 dp z) = 0) as -> by (unfold field; rewrite splice_ne by lia; apply field_zeros).
  change (Z.lor 0 BOOTPARAM_DOWNLOAD_MASK) with 1.
  destruct (region_wr32 m2 _ 24 1 Hr2) as (m3 & -> & Hr3); [lia|]. sbind.
  rewrite store_n_spec by (eapply mapped_sub; [by eapply region_mapped|cbn [length BOOT_PARAM_MAGIC]; lia..]). sbind.
  pose proof (region_splice m3 _ 0 BOOT_PARAM_MAGIC Hr3 ltac:(repeat constructor; done) ltac:(cbn; lia)) as Hr4.
  rewrite Z.add_0_r in Hr4. unfold sunxi_bootparam_record_boot0_version. change off_boot0_checksum with (Z.of_nat 20).
  destruct (region_wr32 _ _ 20 boot0_check_sum Hr4) as (m5 & -> & Hr5); [lia|]. by exists m5.
Qed.

End region.

(** ** Loading *)

Section load.
Context `{H : mmc_host} `{B : flashmap_build} `{M : boot_medium} `{V : bp_env}.
Context (media : bp_media) (h : boot0_head).
Let card := get_card_num h.
Let first := u32 (sunxi_flashmap_bootparam_start (flash_map h) FLASHMAP_SDMMC - MMC_BOOT_PARAM_COMMON_OFFSET).

(** A transfer, failed or not, stores bytes and no more than was asked for. *)
Definition fits (n : Z) (r : bytes * bool) : Prop := is_byte_list r.1 ∧ Z.of_nat (length r.1) <= 512 * n.

Definition medium_ok : Prop :=
  match media with
  | BP_MMC => ∀ s, fits 1 (mmc_xfer card s 1)
  | BP_SPINAND offset => fits 4 (medium_read (Z.shiftr offset 9) 4)
  | BP_NONE => True
  end.

(** The medium holds the region [d]. *)
Definition delivers (d : bytes) : Prop :=
  match media with
  | BP_MMC => ∀ i : nat, (i < 4)%nat → mmc_xfer card (first ⊞ Z.of_nat i) 1 = (take 512 (drop (512 * i) d), true)
  | BP_SPINAND offset => medium_read (Z.shiftr offset 9) 4 = (d, true)
  | BP_NONE => False
  end.

Definition same_outside (m m1 : mem) : Prop :=
  ∀ x, x < sunxi_boot_param ∨ sunxi_boot_param + 2048 <= x → m1 !! x = m !! x.

Lemma region_store m p off bs :
  region_is m p → is_byte_list bs → (off + length bs <= 2048)%nat →
  ∃ m1, store_n m (sunxi_boot_param + Z.of_nat off) bs = Some m1 ∧ region_is m1 (splice off bs p) ∧ same_outside m m1.
Proof.
  intros Hr Hb Ho. exists (write_bytes m (sunxi_boot_param + Z.of_nat off) bs). split; [|split].
  - apply store_n_spec. eapply mapped_sub; [by eapply region_mapped|lia..].
  - by apply region_splice.
  - intros x Hx. apply lookup_write_out. lia.
Qed.

Lemma cpu_read_step m p i :
  region_is m p → (i < 4)%nat → fits 1 (mmc_xfer card (first ⊞ Z.of_nat i) 1) →
  ∃ m1 r, sunxi_mmc_cpu_read h m (first ⊞ Z.of_nat i) 1 (sunxi_boot_param + 512 * Z.of_nat i) = Some (m1, r) ∧
    region_is m1 (splice (512 * i) (mmc_xfer card (first ⊞ Z.of_nat i) 1).1 p) ∧ same_outside m m1.
Proof.
  intros Hr Hi [Hb Hl]. unfold sunxi_mmc_cpu_read, mmc_bread, read_into, medium_read, card_medium. fold card.
  cbn [negb Z.eqb Pos.eqb]. destruct (mmc_xfer card _ 1) as [bs ok]. cbn [fst] in *.
  destruct (region_store m p (512 * i) bs Hr Hb) as (m1 & Hs & Hr1 & Ho); [lia|].
  replace (sunxi_boot_param + 512 * Z.of_nat i) with (sunxi_boot_param + Z.of_nat (512 * i)) by lia.
  rewrite Hs. sbind. by eexists _, _.
Qed.

Lemma cpu_read_loop_keeps k m p i :
  region_is m p → (i + k <= 4)%nat → (∀ s, fits 1 (mmc_xfer card s 1)) →
  ∃ m1 p1, cpu_read_loop k h m first (Z.of_nat i) sunxi_boot_param = Some m1 ∧ region_is m1 p1 ∧ same_outside m m1.
Proof.
  revert m p i. induction k as [|k IH]; intros m p i Hr Hi Hf; cbn [cpu_read_loop]; [by exists m, p|].
  destruct (cpu_read_step m p i Hr ltac:(lia) (Hf _)) as (m1 & r & -> & Hr1 & Ho1). sbind.
  destruct (IH m1 _ (S i) Hr1 ltac:(lia) Hf) as (m2 & p2 & Hrun & Hr2 & Ho2).
  replace (Z.of_nat i + 1) with (Z.of_nat (S i)) by lia. exists m2, p2. split; [done|]. split; [done|].
  intros x Hx. by rewrite Ho2, Ho1.
Qed.

Lemma cpu_read_loop_delivers d k m i p :
  (i + k = 4)%nat → length d = 2048%nat → is_byte_list d → length p = 2048%nat →
  (∀ i : nat, (i < 4)%nat → mmc_xfer card (first ⊞ Z.of_nat i) 1 = (take 512 (drop (512 * i) d), true)) →
  region_is m (take (512 * i) d ++ drop (512 * i) p) →
  ∃ m1, cpu_read_loop k h m first (Z.of_nat i) sunxi_boot_param = Some m1 ∧ region_is m1 d ∧ same_outside m m1.
Proof.
  intros Hk Hd Hdb Hp Hx. revert m i Hk. induction k as [|k IH]; intros m i Hk Hr; cbn [cpu_read_loop].
  - exists m. split; [done|]. rewrite take_ge, drop_ge, app_nil_r in Hr by lia. done.
  - destruct (cpu_read_step m _ i Hr ltac:(lia)) as (m1 & r & -> & Hr1 & Ho1).
    { rewrite Hx by lia. split; cbn [fst]; [by apply Forall_take, Forall_drop|rewrite length_take; lia]. }
    sbind. rewrite Hx in Hr1 by lia. cbn [fst] in Hr1.
    destruct (IH m1 (S i) ltac:(lia)) as (m2 & Hrun & Hr2 & Ho2).
    { assert (splice (512 * i) (take 512 (drop (512 * i) d)) (take (512 * i) d ++ drop (512 * i) p)
         = take (512 * S i) d ++ drop (512 * S i) p) as <-; [|done].
      assert (length (take (512 * i) d) = 512 * i)%nat as Hl1 by (rewrite length_take; lia).
      assert (length (take 512 (drop (512 * i) d)) = 512)%nat as Hl2 by (rewrite length_take, length_drop; lia).
      unfold splice. rewrite Hl2, take_app_le, take_ge by lia. rewrite drop_app_ge by lia. rewrite Hl1, drop_drop, app_assoc.
      rewrite take_take_drop. f_equal; f_equal; lia. }
    replace (Z.of_nat i + 1) with (Z.of_nat (S i)) by lia. exists m2. split; [done|]. split; [done|].
    intros x Hx'. by rewrite Ho2, Ho1.
Qed.

Lemma cpu_read_run m p :
  medium_ok → region_is m p →
  ∃ m1 p1, sunxi_bootparam_cpu_read media h m 4 sunxi_boot_param = Some (m1, 0) ∧ region_is m1 p1 ∧ same_outside m m1 ∧
    (∀ d, length d = 2048%nat → is_byte_list d → delivers d → p1 = d).
Proof.
  intros Hok Hr. pose proof (load_n_length _ _ _ _ (proj1 Hr)) as Hp.
  unfold medium_ok, delivers, sunxi_bootparam_cpu_read in *. destruct media as [|offset|].
  - destruct (cpu_read_loop_keeps 4 m p 0 Hr ltac:(lia) Hok) as (m1 & p1 & Hrun & Hr1 & Ho). exists m1, p1.
    fold first. change (Z.to_nat 4) with 4%nat. change (Z.of_nat 0) with 0 in Hrun. rewrite Hrun. sbind. do 3 (split; [done|]).
    intros d Hd Hdb Hx. destruct (cpu_read_loop_delivers d 4 m 0 p) as (m2 & Hrun2 & [Hr2 _] & _); [done..|].
    change (Z.of_nat 0) with 0 in Hrun2. destruct Hr1 as [Hr1 _]. congruence.
  - destruct Hok as [Hb Hl]. unfold read_into. change (Z.shiftr BOOT_PARAM_SIZE 9) with 4.
    destruct (medium_read _ 4) as [bs ok]. cbn [fst] in *. destruct (region_store m p 0 bs Hr Hb) as (m1 & Hs & Hr1 & Ho); [lia|].
    rewrite Z.add_0_r in Hs. rewrite Hs. sbind. exists m1, (splice 0 bs p). do 3 (split; [done|]).
    intros d Hd _ [= -> _]. unfold splice. rewrite take_0. cbn [app Nat.add]. rewrite drop_ge, app_nil_r by lia. done.
  - exists m, p. do 3 (split; [done|]). by intros.
Qed.

Context (dp : bytes) (Hdb : is_byte_list dp) (Hcs : is_u32 boot0_check_sum) (Hapart : apart sunxi_boot_param 2048 head_dram_para 128).

Lemma load_run st st1 e m p :
  medium_ok → region_is m p → load_n 128 m head_dram_para = Some dp → sunxi_flash_init_early media h st = Some (st1, e) →
  ∃ m' p1, sunxi_bootparam_load media h st m = Some (m', st1, 0, 0) ∧
    region_is m' (if legal p1 then p1 else default_image dp) ∧
    (∀ d, length d = 2048%nat → is_byte_list d → delivers d → p1 = d).
Proof.
  intros Hok Hr Hdp Hi. destruct (cpu_read_run m p Hok Hr) as (m1 & p1 & Hrd & Hr1 & Ho & Hd).
  unfold sunxi_bootparam_load. rewrite Hi. sbind. change (BOOT_PARAM_SIZE / 512) with 4. rewrite Hrd. sbind.
  rewrite (check_legality_run m1 p1 Hr1). sbind. destruct (legal p1) eqn:Hlg.
  - exists m1, p1. rewrite Hlg. done.
  - assert (load_n 128 m1 head_dram_para = Some dp) as Hdp1.
    { rewrite <- Hdp. apply load_n_ext. intros x Hx. apply Ho. unfold apart in Hapart. lia. }
    destruct (defaults_run m1 p1 dp Hr1 Hdp1 Hdb Hapart) as (m2 & Hm2 & Hr2). change (-1 <? 0) with true. cbv iota.
    rewrite Hm2. sbind. exists m2, p1. rewrite Hlg. done.
Qed.

(** ** Theorems *)

(** C28: loading the boot parameters never fails.  Whatever the medium delivers
    and however it fails, the region ends up with the magic and the version of
    this boot0, and is either sealed by a right checksum or the fallback made
    of the DRAM parameters in boot0's head with the download flag set. *)
Theorem bootparam_load_usable st st1 e m p :
  medium_ok → region_is m p → load_n 128 m head_dram_para = Some dp → sunxi_flash_init_early media h st = Some (st1, e) →
  ∃ m' p', sunxi_bootparam_load media h st m = Some (m', st1, 0, 0) ∧ region_is m' p' ∧
    take 8 p' = take 8 BOOT_PARAM_MAGIC ∧ field 20 p' = boot0_check_sum ∧
    (sum_of p' = field 12 p' ∨ default_region dp p').
Proof.
  intros Hok Hr Hdp Hi. pose proof (load_n_length _ _ _ _ Hdp) as Hl.
  destruct (load_run st st1 e m p Hok Hr Hdp Hi) as (m' & p1 & Hrun & Hr' & _).
  exists m', (if legal p1 then p1 else default_image dp). split; [done|]. split; [done|].
  destruct (legal p1) eqn:Hlg.
  - unfold legal in Hlg. apply andb_true_iff in Hlg as [Hlg Hs]. apply andb_true_iff in Hlg as [Hm Hv].
    apply bool_decide_eq_true in Hm. apply Z.eqb_eq in Hv, Hs. auto.
  - destruct (default_image_fields dp Hl Hcs) as [H1 H2 H3 H4 H5]. split; [done|]. split; [done|]. right. by split.
Qed.

(** C21: what one boot hands on is what the next boot gets: sealing the region
    for U-Boot keeps every byte but the checksum, and when the medium delivers
    the sealed region at the next boot of the same boot0, loading accepts it
    unchanged. *)
Theorem boot_param_roundtrip mA p dest :
  region_is mA p → take 8 p = take 8 BOOT_PARAM_MAGIC → field 20 p = boot0_check_sum →
  mapped mA dest 2048 → apart sunxi_boot_param 2048 dest 2048 →
  ∃ mA' out, sunxi_bootparam_format_and_transfer mA dest = Some (mA', 0) ∧
    load_n 2048 mA' dest = Some out ∧ region_is mA' out ∧
    take 12 out = take 12 p ∧ drop 16 out = drop 16 p ∧
    ∀ st st1 e m q, delivers out → medium_ok → region_is m q → load_n 128 m head_dram_para = Some dp →
      sunxi_flash_init_early media h st = Some (st1, e) →
      ∃ m', sunxi_bootparam_load media h st m = Some (m', st1, 0, 0) ∧ region_is m' out.
Proof.
  intros Hr Hm Hv Hd Ha. pose proof Hr as [Hl Hb]. pose proof (load_n_length _ _ _ _ Hl) as Hlen.
  destruct (sealed_shape p Hlen Hb) as [Hsl Hsb].
  eexists _, (sealed p). split; [by apply format_run|]. split; [|split; [|split; [|split]]].
  - rewrite <- Hsl. apply load_write_eq.
  - apply region_write; [|by rewrite Hsl]. apply (region_splice mA p 12 _ Hr); [apply le_bytes_byte|rewrite length_le_bytes; lia].
  - unfold sealed, splice. rewrite take_app_le by (rewrite length_take; lia). by rewrite take_take.
  - unfold sealed, splice. rewrite app_assoc, drop_app_ge by (rewrite length_app, length_take, length_le_bytes; lia).
    rewrite length_app, length_take, length_le_bytes. replace (16 - (12 `min` length p + 4))%nat with 0%nat by lia. done.
  - intros st st1 e m q Hdl Hok Hrm Hdp Hi. destruct (load_run st st1 e m q Hok Hrm Hdp Hi) as (m' & p1 & Hrun & Hr' & Hdel).
    exists m'. split; [done|]. rewrite (Hdel _ Hsl Hsb Hdl), (sealed_legal p Hlen Hb Hm Hv) in Hr'. done.
Qed.

End load.

(** *** A boot from SPI NAND *)

Definition bp_demo : bp_env := BpEnv 0x1000 0x2000 0x12345678.
Definition bp_demo_mem : mem := mem_of 0x1000 (replicate (Z.to_nat 10240) 3).
Definition bp_demo_head : boot0_head := Boot0Head 4 (FlashMap 0 0 0).
Definition bp_demo_card : mmc_state := MmcState 0 [0; 0; 0; 0] false.
Definition bp_demo_host : mmc_host := MmcHost (λ _ _, 0) (λ _ _ _, ([], false)).
Definition bp_demo_map : flashmap_build := FlashmapBuild None None None None None None None.

Lemma bp_demo_region : region_is (V := bp_demo) bp_demo_mem (replicate 2048 3).
Proof. split; [vm_compute; reflexivity|]. apply Forall_replicate. unfold is_u8. lia. Qed.

(** The medium fails: the fallback is used. *)
Lemma bootparam_load_usable_witness :
  ∃ m' p', sunxi_bootparam_load (H := bp_demo_host) (B := bp_demo_map) (M := BootMedium (λ _ _, ([], false))) (V := bp_demo)
      (BP_SPINAND 0) bp_demo_head bp_demo_card bp_demo_mem = Some (m', bp_demo_card, 0, 0) ∧
    region_is (V := bp_demo) m' p' ∧ take 8 p' = take 8 BOOT_PARAM_MAGIC ∧ field 20 p' = 0x12345678 ∧
    (sum_of p' = field 12 p' ∨ default_region (V := bp_demo) (replicate 128 3) p').
Proof.
  apply (bootparam_load_usable (H := bp_demo_host) (B := bp_demo_map) (M := BootMedium (λ _ _, ([], false))) (V := bp_demo)
    (BP_SPINAND 0) bp_demo_head (replicate 128 3)) with (st := bp_demo_card) (e := 0) (p := replicate 2048 3).
  - apply Forall_replicate. unfold is_u8. lia.
  - unfold is_u32. cbn. lia.
  - left. cbn. lia.
  - split; cbn; [by apply Forall_nil|lia].
  - apply bp_demo_region.
  - vm_compute. reflexivity.
  - reflexivity.
Defined.

(** The fallback of one boot, sealed, comes back at the next. *)
Definition bp_demo_out : bytes := sealed (default_image (V := bp_demo) (replicate 128 3)).

Definition bp_demo_memA : mem := write_bytes bp_demo_mem 0x1000 (default_image (V := bp_demo) (replicate 128 3)).

Lemma bp_demo_regionA : region_is (V := bp_demo) bp_demo_memA (default_image (V := bp_demo) (replicate 128 3)).
Proof. split; [vm_compute; reflexivity|]. apply (bool_decide_eq_true_1 _). vm_compute. reflexivity. Qed.

Lemma bp_demo_destA : mapped bp_demo_memA 0x3000 2048.
Proof. apply mapped_write, mappedb_spec. vm_compute. reflexivity. Qed.

Lemma bp_demo_out_len : length bp_demo_out = 2048%nat.
Proof. vm_compute. reflexivity. Qed.

Lemma bp_demo_transfer :
  ∃ mA', sunxi_bootparam_format_and_transfer (V := bp_demo) bp_demo_memA 0x3000 = Some (mA', 0) ∧
    load_n 2048 mA' 0x3000 = Some bp_demo_out.
Proof.
  eexists. split; [apply (format_run (V := bp_demo) _ _ _ bp_demo_regionA bp_demo_destA); left; cbn; lia|].
  rewrite <- bp_demo_out_len. apply load_write_eq.
Qed.

Lemma boot_param_roundtrip_witness :
  let M := BootMedium (λ _ _, (bp_demo_out, true)) in
  ∃ m', sunxi_bootparam_load (H := bp_demo_host) (B := bp_demo_map) (M := M) (V := bp_demo)
    (BP_SPINAND 0) bp_demo_head bp_demo_card bp_demo_mem = Some (m', bp_demo_card, 0, 0) ∧ region_is (V := bp_demo) m' bp_demo_out.
Proof.
  intros M. destruct (boot_param_roundtrip (H := bp_demo_host) (B := bp_demo_map) (M := M) (V := bp_demo)
    (BP_SPINAND 0) bp_demo_head (replicate 128 3)) with
    (mA := bp_demo_memA) (p := default_image (V := bp_demo) (replicate 128 3)) (dest := 0x3000) as (mA' & out & Hf & Hl & _ & _ & _ & Hnext).
  - apply Forall_replicate. unfold is_u8. lia.
  - left. cbn. lia.
  - apply bp_demo_regionA.
  - vm_compute. reflexivity.
  - vm_compute. reflexivity.
  - apply bp_demo_destA.
  - left. cbn. lia.
  - destruct bp_demo_transfer as (mB & HB & HlB). rewrite HB in Hf. injection Hf as ->.
    rewrite HlB in Hl. injection Hl as <-.
    assert (fits 4 (bp_demo_out, true)) as Hfit.
    { split; cbn [fst]; [apply (bool_decide_eq_true_1 _); vm_compute; reflexivity|vm_compute; discriminate]. }
    apply (Hnext bp_demo_card bp_demo_card 0 bp_demo_mem (replicate 2048 3) eq_refl Hfit bp_demo_region); [|reflexivity].
    vm_compute. reflexivity.
Defined.
