(* ===== verification/LoadImage.v ===== *)
(** * Unpacking the boot package (spl/nboot/main/load_image.c, load_comp_image.c)

    [load_image] walks the items of the TOC1 package that [BootPkg] or
    [Spinand] put at [CONFIG_BOOTPKG_BASE], recognises each by name and copies
    or decompresses it to where it runs; the bases found are the result.  The
    decompressors (zlib, LZ4, LZMA) are the class [decompressors].  Modelled is
    the build without [SCP_SRAM_BASE], as the configuration of this chip has
    it; the other options are the class [image_build]. *)

From S2P Require Import Prelude Mem CString Checksum Heap BootImage BootPkg BootParam.

Local Open Scope Z_scope.
Local Open Scope c_scope.

(** ** Data *)

(** [char] arrays of the code, with their terminators. *)
Definition cstr (s : string) : bytes :=
  ((λ a, Z.of_nat (Ascii.nat_of_ascii a)) <$> String.list_ascii_of_string s) ++ [0].

Definition TOC1_HEAD_NAME : bytes := cstr "sunxi-secure".
Definition ITEM_OPTEE_NAME : bytes := cstr "optee".
Definition ITEM_SCP_NAME : bytes := cstr "scp".
Definition ITEM_MONITOR_NAME : bytes := cstr "monitor".
Definition ITEM_UBOOT_NAME : bytes := cstr "u-boot".
Definition ITEM_UBOOT_GZ_NAME : bytes := cstr "u-boot-gz".
Definition ITEM_UBOOT_LZ4_NAME : bytes := cstr "u-boot-lz4".
Definition ITEM_UBOOT_LZMA_NAME : bytes := cstr "u-boot-lzma".
Definition ITEM_RTOS_NAME : bytes := cstr "rtos".
Definition ITEM_RTOS_GZ_NAME : bytes := cstr "rtos-gz".
Definition ITEM_RTOS_LZ4_NAME : bytes := cstr "rtos-lz4".
Definition ITEM_RTOS_LZMA_NAME : bytes := cstr "rtos-lzma".
Definition ITEM_MELIS_NAME : bytes := cstr "melis".
Definition ITEM_MELIS_GZ_NAME : bytes := cstr "melis-gz".
Definition ITEM_MELIS_LZ4_NAME : bytes := cstr "melis-lz4".
Definition ITEM_MELIS_LZMA_NAME : bytes := cstr "melis-lzma".
Definition ITEM_MELIS_ELF_NAME : bytes := cstr "melis-elf".
Definition ITEM_MELIS_CONFIG_NAME : bytes := cstr "melis-config".
Definition ITEM_ISP_PARA : bytes := cstr "isp-parameter".
Definition ITEM_OPENSBI_NAME : bytes := cstr "opensbi".
Definition ITEM_OPENSBI_GZ_NAME : bytes := cstr "opensbi-gz".
Definition ITEM_OPENSBI_LZ4_NAME : bytes := cstr "opensbi-lz4".
Definition ITEM_OPENSBI_LZMA_NAME : bytes := cstr "opensbi-lzma".
Definition ITEM_LOGO_NAME : bytes := cstr "logo".
Definition ITEM_DTB_NAME : bytes := cstr "dtb".
Definition ITEM_DTB_GZ_NAME : bytes := cstr "dtb-gz".
Definition ITEM_DTB_LZ4_NAME : bytes := cstr "dtb-lz4".
Definition ITEM_DTB_LZMA_NAME : bytes := cstr "dtb-lzma".
Definition ITEM_DTBO_NAME : bytes := cstr "dtbo".
Definition ITEM_VIDEO_DATA_NAME : bytes := cstr "video".

Definition NOUSE_CARDMODE : Z := 0xFFFFFFFF.
Definition WORK_MODE_CARD_PRODUCT : Z := 0x11.
Definition UBOOT_FUNC_MASK_BIT_BOOTLOGO : Z := 1.

(** [struct sbrom_toc1_item_info]. *)
Definition off_data_offset : Z := 64.
Definition off_data_len : Z := 68.
Definition off_type : Z := 76.
Definition sizeof_toc1_item : Z := 368.

(** [run_addr] of [sunxi_image_head]; [struct private_atf_head];
    [struct spare_optee_head]. *)
Definition off_run_addr : Z := 44.
Definition off_atf_magic : Z := 4.
Definition off_atf_platform : Z := 36.
Definition off_atf_dram_para : Z := 48.
Definition off_atf_dtb_base : Z := 176.
Definition off_tee_dram_para : Z := 44.
Definition off_tee_chipinfo : Z := 236.

(** What the caller gets through pointers, and the statics. *)
Record image_state := ImageState {
  uboot_base : Z;
  optee_base : Z;
  monitor_base : Z;
  rtos_base : Z;
  opensbi_base : Z;
  cpus_rtos_base : Z;
  dtb_base : Z;
  working_fdt : Z;
  card_work_mode : Z;
  uboot_func_mask : Z
}.

Definition set_uboot_base (s : image_state) (v : Z) : image_state :=
  ImageState v (optee_base s) (monitor_base s) (rtos_base s) (opensbi_base s) (cpus_rtos_base s) (dtb_base s) (working_fdt s) (card_work_mode s) (uboot_func_mask s).
Definition set_optee_base (s : image_state) (v : Z) : image_state :=
  ImageState (uboot_base s) v (monitor_base s) (rtos_base s) (opensbi_base s) (cpus_rtos_base s) (dtb_base s) (working_fdt s) (card_work_mode s) (uboot_func_mask s).
Definition set_monitor_base (s : image_state) (v : Z) : image_state :=
  ImageState (uboot_base s) (optee_base s) v (rtos_base s) (opensbi_base s) (cpus_rtos_base s) (dtb_base s) (working_fdt s) (card_work_mode s) (uboot_func_mask s).
Definition set_rtos_base (s : image_state) (v : Z) : image_state :=
  ImageState (uboot_base s) (optee_base s) (monitor_base s) v (opensbi_base s) (cpus_rtos_base s) (dtb_base s) (working_fdt s) (card_work_mode s) (uboot_func_mask s).
Definition set_opensbi_base (s : image_state) (v : Z) : image_state :=
  ImageState (uboot_base s) (optee_base s) (monitor_base s) (rtos_base s) v (cpus_rtos_base s) (dtb_base s) (working_fdt s) (card_work_mode s) (uboot_func_mask s).
Definition set_cpus_rtos_base (s : image_state) (v : Z) : image_state :=
  ImageState (uboot_base s) (optee_base s) (monitor_base s) (rtos_base s) (opensbi_base s) v (dtb_base s) (working_fdt s) (card_work_mode s) (uboot_func_mask s).
Definition set_dtb (s : image_state) (v : Z) : image_state :=
  ImageState (uboot_base s) (optee_base s) (monitor_base s) (rtos_base s) (opensbi_base s) (cpus_rtos_base s) v v (card_work_mode s) (uboot_func_mask s).
Definition set_card_work_mode (s : image_state) (v : Z) : image_state :=
  ImageState (uboot_base s) (optee_base s) (monitor_base s) (rtos_base s) (opensbi_base s) (cpus_rtos_base s) (dtb_base s) (working_fdt s) v (uboot_func_mask s).
Definition set_func_mask (s : image_state) (v : Z) : image_state :=
  ImageState (uboot_base s) (optee_base s) (monitor_base s) (rtos_base s) (opensbi_base s) (cpus_rtos_base s) (dtb_base s) (working_fdt s) (card_work_mode s) v.

(** Build options; an address is [None] where the build does not define it. *)
Class image_build := ImageBuild {
  CFG_SUNXI_GUNZIP : bool;
  CFG_SUNXI_LZ4 : bool;
  CFG_SUNXI_LZMA : bool;
  CONFIG_DECOMPRESS_BUF_SIZE : option Z;
  CFG_LOAD_DTB_FROM_KERNEL : bool;
  CFG_SUNXI_FDT_ADDR : option Z;
  CFG_RESERVE_FDT_SIZE : option Z;
  CFG_BOOT0_LOGO_TO_KERNEL : bool;
  CFG_BOOTLOGO_LOAD_ADDR : option Z;
  CFG_RISCV : bool;
  CFG_MELISELF_LOAD_ADDR : option Z;
  CFG_VIDEO_BIN : bool;
  CFG_VIDEO_DATA_LOAD_ADDR : option Z;
  CFG_ISPPARAM_LOAD_ADDR : option Z
}.

(** Addresses: the chip information in boot0's head ([jtag_gpio[4]]) and the
    caller's variable [opensbi_base]. *)
Class image_addrs := ImageAddrs { chipinfo_p : Z; opensbi_base_p : Z }.

(** The decompressors, on memory: destination, its size, source, its size to
    the memory, the size of the output and the return code. *)
Class decompressors := Decompressors {
  gunzip : mem → Z → Z → Z → Z → option (mem * Z * Z);
  ulz4fn : mem → Z → Z → Z → Z → option (mem * Z * Z);
  lzmaBuffToBuffDecompress : mem → Z → Z → Z → Z → option (mem * Z * Z)
}.

(** ** load_comp_image.c *)

Inductive codec := GZ | LZ4 | LZMA.

(** [strncmp(name, item, n) == 0]. *)
Definition name_is (name item : bytes) (n : nat) : option bool :=
  r ← strncmp name item n; Some (r =? 0).

(** The four ways the code compares: to the length of the item's own name,
    with the terminator of the constant, over the whole name field, and to the
    length of the constant. *)
Definition is_own (name item : bytes) : option bool := n ← strlen name; name_is name item n.
Definition is_sizeof (name item : bytes) : option bool := name_is name item (length item).
Definition is_field (name item : bytes) : option bool := name_is name item 64.
Definition is_strlen (name item : bytes) : option bool := name_is name item (length item - 1).

(** A branch that the build may leave out; [a || b]. *)
Definition when (c : bool) (t : option bool) : option bool := if c then t else Some false.
Definition or_else (a b : option bool) : option bool := x ← a; if (x : bool) then Some true else b.

Section code.
Context `{L : heap_layout} `{P : pkg_build} `{I : image_build} `{A : image_addrs} `{D : decompressors} `{V : bp_env}.

Definition update_opensbi_param (m : mem) (image_base : Z) : option mem :=
  magic ← load_n 8 m (image_base + off_atf_magic);
  b ← name_is magic (cstr "opensbi") 7;
  if (b : bool) then memcpy m (image_base + off_atf_platform) chipinfo_p 8 else Some m.

Definition decomp_malloc_temp_buf (m : mem) : option (mem * Z) :=
  match CONFIG_DECOMPRESS_BUF_SIZE with
  | Some n => malloc m n
  | None => Some (m, 0x40000000)
  end.

Definition decomp_free_temp_buf (m : mem) (addr : Z) : option mem :=
  match CONFIG_DECOMPRESS_BUF_SIZE with
  | Some _ => free m addr
  | None => Some m
  end.

(** An item of the package in memory: its name field, offset and length. *)
Record toc1_item := TocItem { item_name : bytes; data_offset : Z; data_len : Z }.

Definition item_src (it : toc1_item) : Z := CONFIG_BOOTPKG_BASE ⊞ data_offset it.

(** The size of the destination that each decompressor is given; the size of a
    gzip output is in the last word of the data, as an [int]. *)
Definition dst_size (c : codec) (m : mem) (it : toc1_item) : option Z :=
  match c with
  | GZ => v ← rd32 m (item_src it ⊞ data_len it ⊟ 4); Some (s32 v)
  | LZ4 => Some 0x800000
  | LZMA => Some 0xFFFFFFFF
  end.

(** The decompressor's call: memory, the output size that the code goes on
    with, and the return code. *)
Definition decode (c : codec) (m : mem) (dst dstlen src srclen : Z) : option (mem * Z * Z) :=
  match c with
  | GZ => '(m, _, r) ← gunzip m dst dstlen src srclen; Some (m, dstlen, r)
  | LZ4 => ulz4fn m dst dstlen src srclen
  | LZMA => lzmaBuffToBuffDecompress m dst dstlen src srclen
  end.

(** From the buffer to the run address, through [image_base + dstlen] when the
    buffer is close. *)
Definition place_image (m : mem) (image_base dst dstlen : Z) : option mem :=
  let l := image_base ⊟ dstlen in
  let h := image_base ⊞ dstlen in
  if (l <? dst) && (dst <? h) then
    m ← memcpy m h dst (u32 dstlen);
    memcpy m image_base h (u32 dstlen)
  else memcpy m image_base dst (u32 dstlen).

(** U-Boot and OpenSBI: decompress to a buffer, place, free; the image base or
    a failure.  For OpenSBI the parameters are patched, at the address of the
    caller's variable. *)
Definition comp_to_run (c : codec) (patch : bool) (m : mem) (it : toc1_item) : option (mem * option Z) :=
  '(m, dst) ← decomp_malloc_temp_buf m;
  dstlen ← dst_size c m it;
  if dst =? 0 then Some (m, None)
  else
    '(m, dstlen, ret) ← decode c m dst dstlen (item_src it) (data_len it);
    if negb (ret =? 0) then m ← decomp_free_temp_buf m dst; Some (m, None)
    else
      image_base ← rd32 m (dst + off_run_addr);
      m ← place_image m image_base dst dstlen;
      m ← (if patch then update_opensbi_param m opensbi_base_p else Some m);
      m ← decomp_free_temp_buf m dst;
      Some (m, Some image_base).

Definition comp_uboot (c : codec) (s : image_state) (m : mem) (it : toc1_item) : option (mem * image_state * Z) :=
  '(m, r) ← comp_to_run c false m it;
  Some (match r with Some b => (m, set_uboot_base s b, 0) | None => (m, s, -1) end).

Definition comp_opensbi (c : codec) (s : image_state) (m : mem) (it : toc1_item) : option (mem * image_state * Z) :=
  '(m, r) ← comp_to_run c true m it;
  Some (match r with Some b => (m, set_opensbi_base s b, 0) | None => (m, s, -1) end).

(** The device tree goes behind U-Boot; only the LZMA branch tells the
    monitor, none sets [*dtb_base]. *)
Definition comp_dtb (c : codec) (s : image_state) (m : mem) (it : toc1_item) : option (mem * image_state * Z) :=
  let image_base := uboot_base s ⊞ 2 * 1024 * 1024 in
  dstlen ← dst_size c m it;
  m ← (match c with LZMA => wr32 m (monitor_base s + off_atf_dtb_base) image_base | _ => Some m end);
  '(m, _, ret) ← decode c m image_base dstlen (item_src it) (data_len it);
  Some (m, s, if negb (ret =? 0) then -1 else 0).

(** An RTOS goes to a fixed address; the LZMA branch passes no source size. *)
Definition comp_rtos (c : codec) (s : image_state) (m : mem) (it : toc1_item) : option (mem * image_state * Z) :=
  let image_base := 0x40000000 in
  let s := set_rtos_base s image_base in
  dstlen ← dst_size c m it;
  '(m, _, ret) ← decode c m image_base dstlen (item_src it) (match c with LZMA => 0xFFFFFFFF | _ => data_len it end);
  if negb (ret =? 0) then Some (m, s, -1)
  else m ← update_opensbi_param m image_base; Some (m, s, 0).

Definition load_comp_image (s : image_state) (m : mem) (it : toc1_item) : option (mem * image_state * Z) :=
  let name := item_name it in
  b ← when CFG_SUNXI_GUNZIP (is_own name ITEM_UBOOT_GZ_NAME);
  if (b : bool) then comp_uboot GZ s m it else
  b ← when CFG_SUNXI_LZ4 (is_own name ITEM_UBOOT_LZ4_NAME);
  if (b : bool) then comp_uboot LZ4 s m it else
  b ← when CFG_SUNXI_LZMA (is_own name ITEM_UBOOT_LZMA_NAME);
  if (b : bool) then comp_uboot LZMA s m it else
  b ← when CFG_SUNXI_LZMA (is_strlen name ITEM_DTB_LZMA_NAME);
  if (b : bool) then comp_dtb LZMA s m it else
  b ← when CFG_SUNXI_LZ4 (is_strlen name ITEM_DTB_LZ4_NAME);
  if (b : bool) then comp_dtb LZ4 s m it else
  b ← when CFG_SUNXI_GUNZIP (is_strlen name ITEM_DTB_GZ_NAME);
  if (b : bool) then comp_dtb GZ s m it else
  b ← when CFG_SUNXI_GUNZIP (is_field name ITEM_OPENSBI_GZ_NAME);
  if (b : bool) then comp_opensbi GZ s m it else
  b ← when CFG_SUNXI_LZ4 (is_field name ITEM_OPENSBI_LZ4_NAME);
  if (b : bool) then comp_opensbi LZ4 s m it else
  b ← when CFG_SUNXI_LZMA (is_field name ITEM_OPENSBI_LZMA_NAME);
  if (b : bool) then comp_opensbi LZMA s m it else
  b ← when CFG_SUNXI_GUNZIP (or_else (is_sizeof name ITEM_MELIS_GZ_NAME) (is_sizeof name ITEM_RTOS_GZ_NAME));
  if (b : bool) then comp_rtos GZ s m it else
  b ← when CFG_SUNXI_LZ4 (or_else (is_sizeof name ITEM_MELIS_LZ4_NAME) (is_sizeof name ITEM_RTOS_LZ4_NAME));
  if (b : bool) then comp_rtos LZ4 s m it else
  b ← when CFG_SUNXI_LZMA (or_else (is_sizeof name ITEM_MELIS_LZMA_NAME) (is_sizeof name ITEM_RTOS_LZMA_NAME));
  if (b : bool) then comp_rtos LZMA s m it else
  Some (m, s, -1).

(** ** load_image.c *)

(** [memcpy] of whole sectors of the package. *)
Definition toc1_flash_read (m : mem) (start_sector blkcnt buff : Z) : option mem :=
  memcpy m buff (CONFIG_BOOTPKG_BASE ⊞ 512 * start_sector) (u32 (512 * blkcnt)).

Definition toc1_get_image_addr (m : mem) (start_sector : Z) : option Z :=
  rd32 m ((CONFIG_BOOTPKG_BASE ⊞ 512 * start_sector) + off_run_addr).

(** The data of an item, in whole sectors, to [buff]. *)
Definition read_item (m : mem) (it : toc1_item) (buff : Z) : option mem :=
  toc1_flash_read m (data_offset it / 512) ((data_len it ⊞ 511) / 512) buff.

(** Which branch of the chain an item takes. *)
Inductive item_kind :=
  | K_UBOOT | K_COMP | K_OPTEE | K_MONITOR | K_SCP | K_DTB | K_DTBO | K_LOGO | K_OPENSBI
  | K_RTOS | K_MELIS_CONFIG | K_MELIS_ELF | K_VIDEO | K_ISP | K_NONE.

Definition classify (name : bytes) : option item_kind :=
  b ← is_own name ITEM_UBOOT_NAME; if (b : bool) then Some K_UBOOT else
  b ← is_own name ITEM_UBOOT_GZ_NAME; if (b : bool) then Some K_COMP else
  b ← is_own name ITEM_UBOOT_LZ4_NAME; if (b : bool) then Some K_COMP else
  b ← is_own name ITEM_UBOOT_LZMA_NAME; if (b : bool) then Some K_COMP else
  b ← is_sizeof name ITEM_OPTEE_NAME; if (b : bool) then Some K_OPTEE else
  b ← is_sizeof name ITEM_MONITOR_NAME; if (b : bool) then Some K_MONITOR else
  b ← is_sizeof name ITEM_SCP_NAME; if (b : bool) then Some K_SCP else
  b ← is_field name ITEM_DTB_NAME; if (b : bool) then Some K_DTB else
  b ← is_strlen name ITEM_DTB_LZMA_NAME; if (b : bool) then Some K_COMP else
  b ← is_strlen name ITEM_DTB_LZ4_NAME; if (b : bool) then Some K_COMP else
  b ← is_strlen name ITEM_DTB_GZ_NAME; if (b : bool) then Some K_COMP else
  b ← is_sizeof name ITEM_DTBO_NAME; if (b : bool) then Some K_DTBO else
  b ← is_sizeof name ITEM_LOGO_NAME; if (b : bool) then Some K_LOGO else
  b ← is_field name ITEM_OPENSBI_NAME; if (b : bool) then Some K_OPENSBI else
  b ← is_field name ITEM_OPENSBI_GZ_NAME; if (b : bool) then Some K_COMP else
  b ← is_field name ITEM_OPENSBI_LZ4_NAME; if (b : bool) then Some K_COMP else
  b ← is_field name ITEM_OPENSBI_LZMA_NAME; if (b : bool) then Some K_COMP else
  b ← or_else (is_sizeof name ITEM_RTOS_NAME) (is_sizeof name ITEM_MELIS_NAME); if (b : bool) then Some K_RTOS else
  b ← is_sizeof name ITEM_MELIS_CONFIG_NAME; if (b : bool) then Some K_MELIS_CONFIG else
  b ← when CFG_RISCV (is_sizeof name ITEM_MELIS_ELF_NAME); if (b : bool) then Some K_MELIS_ELF else
  b ← when CFG_VIDEO_BIN (is_sizeof name ITEM_VIDEO_DATA_NAME); if (b : bool) then Some K_VIDEO else
  b ← when (bool_decide (is_Some CFG_ISPPARAM_LOAD_ADDR)) (is_sizeof name ITEM_ISP_PARA); if (b : bool) then Some K_ISP else
  b ← or_else (is_sizeof name ITEM_MELIS_GZ_NAME) (is_sizeof name ITEM_RTOS_GZ_NAME); if (b : bool) then Some K_COMP else
  b ← or_else (is_sizeof name ITEM_MELIS_LZ4_NAME) (is_sizeof name ITEM_RTOS_LZ4_NAME); if (b : bool) then Some K_COMP else
  b ← or_else (is_sizeof name ITEM_MELIS_LZMA_NAME) (is_sizeof name ITEM_RTOS_LZMA_NAME); if (b : bool) then Some K_COMP else
  Some K_NONE.

(** The big-endian [totalsize] of a device tree, at offset 4. *)
Definition be32 (bs : bytes) : Z := le_val (rev bs).

Definition reserve_fdt (m : mem) (fdt : Z) : option mem :=
  match CFG_SUNXI_FDT_ADDR, CFG_RESERVE_FDT_SIZE with
  | Some _, Some size =>
      let fdt_ext_size := Z.land (size ⊞ 31) (Z.lnot 31) in
      bs ← load_n 4 m (fdt + 4);
      if fdt_ext_size <? be32 bs then Some m else store_n m (fdt + 4) (rev (le_bytes 4 fdt_ext_size))
  | _, _ => Some m
  end.

(** The body of a branch; [image_base] is the run address in the item. *)
Definition load_item (k : item_kind) (s : image_state) (m : mem) (it : toc1_item) (image_base : Z) :
    option (mem * image_state) :=
  match k with
  | K_UBOOT => m ← read_item m it image_base; Some (m, set_uboot_base s image_base)
  | K_COMP => '(m, s, _) ← load_comp_image s m it; Some (m, s)
  | K_OPTEE =>
      m ← read_item m it image_base;
      m ← memcpy m (image_base + off_tee_dram_para) (sunxi_boot_param + off_ddr_info) 128;
      m ← memcpy m (image_base + off_tee_chipinfo) chipinfo_p 8;
      Some (m, set_optee_base s image_base)
  | K_MONITOR =>
      m ← read_item m it image_base;
      m ← memcpy m (image_base + off_atf_dram_para) (sunxi_boot_param + off_ddr_info) 128;
      m ← memcpy m (image_base + off_atf_platform) chipinfo_p 8;
      m ← (if CFG_LOAD_DTB_FROM_KERNEL then wr32 m (image_base + off_atf_dtb_base) (default 0 CFG_SUNXI_FDT_ADDR) else Some m);
      Some (m, set_monitor_base s image_base)
  | K_SCP | K_NONE => Some (m, s)
  | K_DTB =>
      if CFG_LOAD_DTB_FROM_KERNEL then Some (m, s)
      else
        let image_base := default (uboot_base s ⊞ 2 * 1024 * 1024) CFG_SUNXI_FDT_ADDR in
        m ← wr32 m (monitor_base s + off_atf_dtb_base) image_base;
        m ← read_item m it image_base;
        m ← reserve_fdt m image_base;
        Some (m, set_dtb s image_base)
  | K_DTBO => m ← read_item m it (uboot_base s ⊞ 1 * 1024 * 1024); Some (m, s)
  | K_LOGO =>
      if CFG_BOOT0_LOGO_TO_KERNEL then
        let image_base := match CFG_SUNXI_FDT_ADDR, CFG_BOOTLOGO_LOAD_ADDR with
                          | Some _, Some a => a
                          | _, _ => uboot_base s ⊞ 3 * 1024 * 1024
                          end in
        m ← wr32 m image_base (data_len it);
        m ← read_item m it image_base;
        Some (m, s)
      else
        let image_base := uboot_base s ⊞ 3 * 1024 * 1024 in
        m ← wr32 m image_base (data_len it);
        m ← read_item m it (image_base ⊞ 16);
        Some (m, set_func_mask s (set_uboot_func_mask (uboot_func_mask s) UBOOT_FUNC_MASK_BIT_BOOTLOGO))
  | K_OPENSBI =>
      m ← read_item m it image_base;
      m ← update_opensbi_param m image_base;
      Some (m, set_opensbi_base s image_base)
  | K_RTOS => m ← read_item m it image_base; Some (m, set_rtos_base s image_base)
  | K_MELIS_CONFIG =>
      m ← wr32 m 0x43000000 (data_len it);
      m ← read_item m it (0x43000000 + 512);
      Some (m, s)
  | K_MELIS_ELF =>
      let image_base := default (uboot_base s ⊞ 4 * 1024 * 1024) CFG_MELISELF_LOAD_ADDR in
      m ← read_item m it image_base;
      Some (m, set_cpus_rtos_base s image_base)
  | K_VIDEO =>
      match CFG_VIDEO_DATA_LOAD_ADDR with
      | Some a => m ← read_item m it a; Some (m, s)
      | None => Some (m, s)
      end
  | K_ISP => m ← read_item m it (default 0 CFG_ISPPARAM_LOAD_ADDR); Some (m, s)
  end.

Definition get_item (m : mem) (p : Z) : option toc1_item :=
  name ← load_n 64 m p;
  off ← rd32 m (p + off_data_offset);
  len ← rd32 m (p + off_data_len);
  Some (TocItem name off len).

(** The items from number [i] on, while [i < toc1_head->items_nr]; only items
    of type 3 are taken. *)
Fixpoint load_items (fuel : nat) (s : image_state) (m : mem) (i : Z) : option (mem * image_state) :=
  match fuel with
  | O => None
  | S f =>
      items_nr ← rd32 m (CONFIG_BOOTPKG_BASE + off_items_nr);
      if i <? items_nr then
        let p := CONFIG_BOOTPKG_BASE + sizeof_toc1_head + sizeof_toc1_item * i in
        it ← get_item m p;
        ty ← rd32 m (p + off_type);
        if negb (ty =? 3) then load_items f s m (i + 1)
        else
          image_base ← toc1_get_image_addr m (data_offset it / 512);
          kind ← classify (item_name it);
          '(m, s) ← load_item kind s m it image_base;
          load_items f s m (i + 1)
      else Some (m, s)
  end.

Definition load_image (fuel : nat) (s : image_state) (m : mem) : option (mem * image_state * Z) :=
  let s := set_card_work_mode s NOUSE_CARDMODE in
  name ← load_n 16 m CONFIG_BOOTPKG_BASE;
  secure ← name_is name TOC1_HEAD_NAME 12;
  let s := if (secure : bool) then set_card_work_mode s WORK_MODE_CARD_PRODUCT else s in
  '(m, s) ← load_items fuel s m 0;
  Some (m, s, 0).

End code.

(** ** Names *)

(** The characters of a constant, without its terminator. *)
Definition chars (item : bytes) : bytes := take (length item - 1) item.

Lemma name_is_spec a b r n :
  is_cstr a → is_cstr b → name_is (a ++ 0 :: r) (b ++ [0]) n = Some (bool_decide (take n a = take n b)).
Proof.
  intros Ha Hb. unfold name_is. destruct (strncmp_spec a b r [] n Ha Hb) as (res & -> & Hr). sbind. f_equal.
  destruct (Z.eqb_spec res 0) as [->|Hne]; symmetry.
  - apply bool_decide_eq_true. by apply Hr.
  - apply bool_decide_eq_false. intros He. by apply Hne, Hr.
Qed.

Section names.
Context (a b r : bytes) (Ha : is_cstr a) (Hb : is_cstr b).

Lemma is_own_spec : is_own (a ++ 0 :: r) (b ++ [0]) = Some (bool_decide (a `prefix_of` b)).
Proof.
  unfold is_own. rewrite (strlen_spec a r Ha). sbind. rewrite name_is_spec by done. f_equal. apply bool_decide_ext.
  rewrite (take_ge a) by lia. rewrite prefix_take_iff. split; by intros.
Qed.

Lemma is_sizeof_spec : is_sizeof (a ++ 0 :: r) (b ++ [0]) = Some (bool_decide (a = b)).
Proof.
  unfold is_sizeof. rewrite name_is_spec by done. f_equal. apply bool_decide_ext. rewrite length_app. cbn [length].
  rewrite (take_ge b) by lia. split; [|intros ->; by rewrite take_ge by lia].
  intros He. pose proof (f_equal length He) as Hl. rewrite length_take in Hl. rewrite take_ge in He by lia. done.
Qed.

Lemma is_field_spec : (length a < 64)%nat → (length b < 64)%nat → is_field (a ++ 0 :: r) (b ++ [0]) = Some (bool_decide (a = b)).
Proof. intros Hla Hlb. unfold is_field. rewrite name_is_spec by done. by rewrite !take_ge by lia. Qed.

Lemma is_strlen_spec : is_strlen (a ++ 0 :: r) (b ++ [0]) = Some (bool_decide (b `prefix_of` a)).
Proof.
  unfold is_strlen. rewrite name_is_spec by done. f_equal. apply bool_decide_ext.
  rewrite length_app. cbn [length]. by rewrite Nat.add_sub, prefix_take_iff, (take_ge b) by lia.
Qed.

End names.

(** The constants as characters and terminator. *)
Lemma chars_cstr s : (forallb (λ a, negb (Ascii.eqb a Ascii.zero)) (String.list_ascii_of_string s)) = true →
  cstr s = chars (cstr s) ++ [0] ∧ is_cstr (chars (cstr s)).
Proof.
  intros Hs. unfold chars, cstr. rewrite length_app. cbn [length]. rewrite Nat.add_sub, take_app_length.
  split; [done|]. apply Forall_fmap. rewrite forallb_forall in Hs. apply Forall_forall. intros x Hx.
  apply list_elem_of_In in Hx. specialize (Hs x Hx). unfold compose, is_char. pose proof (Ascii.nat_ascii_bounded x).
  assert (Ascii.nat_of_ascii x ≠ 0%nat); [|lia]. intros He.
  assert (x = Ascii.zero) as -> by (rewrite <- (Ascii.ascii_nat_embedding x), He; done). done.
Qed.

Section items.
Context (a r : bytes) (Ha : is_cstr a) (s : string).
Context (Hs : forallb (λ c, negb (Ascii.eqb c Ascii.zero)) (String.list_ascii_of_string s) = true).

Lemma own_item : is_own (a ++ 0 :: r) (cstr s) = Some (bool_decide (a `prefix_of` chars (cstr s))).
Proof. destruct (chars_cstr s Hs) as [He Hc]. rewrite He at 1. by apply is_own_spec. Qed.

Lemma sizeof_item : is_sizeof (a ++ 0 :: r) (cstr s) = Some (bool_decide (a = chars (cstr s))).
Proof. destruct (chars_cstr s Hs) as [He Hc]. rewrite He at 1. by apply is_sizeof_spec. Qed.

Lemma field_item : (length a < 64)%nat → (length (chars (cstr s)) < 64)%nat →
  is_field (a ++ 0 :: r) (cstr s) = Some (bool_decide (a = chars (cstr s))).
Proof. intros. destruct (chars_cstr s Hs) as [He Hc]. rewrite He at 1. by apply is_field_spec. Qed.

Lemma strlen_item : is_strlen (a ++ 0 :: r) (cstr s) = Some (bool_decide (chars (cstr s) `prefix_of` a)).
Proof. destruct (chars_cstr s Hs) as [He Hc]. rewrite He at 1. by apply is_strlen_spec. Qed.

End items.

Section kinds.
Context `{I : image_build}.

(** What the chain of comparisons decides about a name. *)
Definition starts (a item : bytes) : bool := bool_decide (chars item `prefix_of` a).
Definition within (a item : bytes) : bool := bool_decide (a `prefix_of` chars item).
Definition same (a item : bytes) : bool := bool_decide (a = chars item).

Definition kind_of (a : bytes) : item_kind :=
  if within a ITEM_UBOOT_NAME then K_UBOOT
  else if within a ITEM_UBOOT_GZ_NAME || within a ITEM_UBOOT_LZ4_NAME || within a ITEM_UBOOT_LZMA_NAME then K_COMP
  else if same a ITEM_OPTEE_NAME then K_OPTEE
  else if same a ITEM_MONITOR_NAME then K_MONITOR
  else if same a ITEM_SCP_NAME then K_SCP
  else if same a ITEM_DTB_NAME then K_DTB
  else if starts a ITEM_DTB_LZMA_NAME || starts a ITEM_DTB_LZ4_NAME || starts a ITEM_DTB_GZ_NAME then K_COMP
  else if same a ITEM_DTBO_NAME then K_DTBO
  else if same a ITEM_LOGO_NAME then K_LOGO
  else if same a ITEM_OPENSBI_NAME then K_OPENSBI
  else if same a ITEM_OPENSBI_GZ_NAME || same a ITEM_OPENSBI_LZ4_NAME || same a ITEM_OPENSBI_LZMA_NAME then K_COMP
  else if same a ITEM_RTOS_NAME || same a ITEM_MELIS_NAME then K_RTOS
  else if same a ITEM_MELIS_CONFIG_NAME then K_MELIS_CONFIG
  else if CFG_RISCV && same a ITEM_MELIS_ELF_NAME then K_MELIS_ELF
  else if CFG_VIDEO_BIN && same a ITEM_VIDEO_DATA_NAME then K_VIDEO
  else if bool_decide (is_Some CFG_ISPPARAM_LOAD_ADDR) && same a ITEM_ISP_PARA then K_ISP
  else if same a ITEM_MELIS_GZ_NAME || same a ITEM_RTOS_GZ_NAME || same a ITEM_MELIS_LZ4_NAME || same a ITEM_RTOS_LZ4_NAME
          || same a ITEM_MELIS_LZMA_NAME || same a ITEM_RTOS_LZMA_NAME then K_COMP
  else K_NONE.

Lemma or_else_spec x y : or_else (Some x) (Some y) = Some (x || y).
Proof. by destruct x. Qed.

Lemma when_spec c x : when c (Some x) = Some (c && x).
Proof. by destruct c. Qed.

Ltac unfold_items :=
  unfold ITEM_OPTEE_NAME, ITEM_SCP_NAME, ITEM_MONITOR_NAME, ITEM_UBOOT_NAME, ITEM_UBOOT_GZ_NAME, ITEM_UBOOT_LZ4_NAME, ITEM_UBOOT_LZMA_NAME, ITEM_RTOS_NAME, ITEM_RTOS_GZ_NAME, ITEM_RTOS_LZ4_NAME, ITEM_RTOS_LZMA_NAME, ITEM_MELIS_NAME, ITEM_MELIS_GZ_NAME, ITEM_MELIS_LZ4_NAME, ITEM_MELIS_LZMA_NAME, ITEM_MELIS_ELF_NAME, ITEM_MELIS_CONFIG_NAME, ITEM_ISP_PARA, ITEM_OPENSBI_NAME, ITEM_OPENSBI_GZ_NAME, ITEM_OPENSBI_LZ4_NAME, ITEM_OPENSBI_LZMA_NAME, ITEM_LOGO_NAME, ITEM_DTB_NAME, ITEM_DTB_GZ_NAME, ITEM_DTB_LZ4_NAME, ITEM_DTB_LZMA_NAME, ITEM_DTBO_NAME, ITEM_VIDEO_DATA_NAME.

(** One comparison of the chain; both sides test the same condition next. *)
Ltac name_step :=
  rewrite ?own_item, ?sizeof_item, ?field_item, ?strlen_item, ?or_else_spec, ?when_spec by (done || cbn; lia); sbind;
  match goal with |- (if ?b then _ else _) = _ => destruct b end; cbn [orb]; try done.

Lemma classify_run a r : is_cstr a → (length a < 64)%nat → classify (a ++ 0 :: r) = Some (kind_of a).
Proof.
  intros Ha Hl. unfold classify, kind_of, starts, within, same. unfold_items.
  repeat name_step.
Qed.

(** The comparison chain decides on every terminated name as [kind_of]
    says: most names must match exactly, a compressed device tree by its
    beginning, and U-Boot by any beginning of its name, so that an item with an
    empty name is taken for U-Boot. *)
Theorem classify_exact a r :
  is_cstr a → (length a < 64)%nat →
  classify (a ++ 0 :: r) = Some (kind_of a) ∧
  (classify (a ++ 0 :: r) = Some K_UBOOT ↔ a `prefix_of` chars ITEM_UBOOT_NAME) ∧
  classify (0 :: r) = Some K_UBOOT.
Proof.
  intros Ha Hl. pose proof (classify_run [] r) as H0. cbn [app] in H0.
  rewrite (classify_run a r Ha Hl), H0 by (by apply Forall_nil || cbn; lia).
  split; [done|]. split; [|done]. unfold kind_of, within at 1.
  case_bool_decide as Hp; [by split|]. split; [|done]. intros Hk. exfalso.
  repeat match goal with H : Some (if ?b then _ else _) = Some _ |- _ => destruct b end; done.
Qed.

End kinds.

Definition demo_image_build : image_build :=
  ImageBuild true false false None false None None false None true None false None None.

Lemma classify_exact_witness :
  classify (I := demo_image_build) (chars ITEM_OPENSBI_NAME ++ 0 :: replicate 56 0) = Some K_OPENSBI.
Proof.
  rewrite (proj1 (classify_exact (I := demo_image_build) (chars ITEM_OPENSBI_NAME) (replicate 56 0) ltac:(repeat constructor; done) ltac:(cbn; lia))).
  reflexivity.
Defined.

(** ** Placing an image *)

(** Memory that keeps what is mapped. *)
Definition grows (m m' : mem) : Prop := ∀ x, is_Some (m !! x) → is_Some (m' !! x).

Lemma grows_write m a bs : grows m (write_bytes m a bs).
Proof.
  intros x Hx. destruct (mapped_write m x 1 a bs) with (x := x) as [y Hy]; [|lia|by exists y].
  intros y Hy. by replace y with x by lia.
Qed.

Lemma grows_trans m1 m2 m3 : grows m1 m2 → grows m2 m3 → grows m1 m3.
Proof. intros H1 H2 x Hx. by apply H2, H1. Qed.

Lemma grows_mapped m m' a n : grows m m' → mapped m a n → mapped m' a n.
Proof. intros Hg Hm x Hx. by apply Hg, Hm. Qed.

(** Both ways to the run address. *)
Lemma place_image_run m image_base dst img :
  let n := Z.of_nat (length img) in
  n <= image_base → image_base + 2 * n < 2 ^ 32 → 0 <= dst →
  load_n (length img) m dst = Some img → mapped m image_base (2 * n) →
  dst <= image_base ∨ image_base + n <= dst →
  ∃ m', place_image m image_base dst n = Some m' ∧ load_n (length img) m' image_base = Some img ∧
    (∀ x, x < image_base ∨ image_base + 2 * n <= x → m' !! x = m !! x) ∧ grows m m'.
Proof.
  change (2 ^ 32) with 4294967296. intros n Hlo Hhi Hd Hl Hm Hsep. unfold place_image. subst n.
  rewrite (u32_small (image_base - Z.of_nat (length img))), (u32_small (image_base + Z.of_nat (length img))), (u32_small (Z.of_nat (length img))) by (unfold is_u32; lia).
  destruct ((image_base - Z.of_nat (length img) <? dst) && (dst <? image_base + Z.of_nat (length img))) eqn:Hc.
  - apply andb_true_iff in Hc as [Hc1 Hc2]. bool_to_prop.
    rewrite (memcpy_forward m (image_base + Z.of_nat (length img)) dst img Hl); [sbind|eapply mapped_sub; [exact Hm|lia..]|lia].
    rewrite (memcpy_forward _ image_base (image_base + Z.of_nat (length img)) img);
      [|apply load_write_eq|apply mapped_write; eapply mapped_sub; [exact Hm|lia..]|lia].
    eexists. split; [done|]. split; [apply load_write_eq|].
    split; [intros x Hx; by rewrite !lookup_write_out by lia|]. eapply grows_trans; apply grows_write.
  - assert (image_base <= dst ∨ dst + Z.of_nat (length img) <= image_base) by (apply andb_false_iff in Hc as [Hc|Hc]; bool_to_prop; lia).
    rewrite (memcpy_forward m image_base dst img Hl); [|eapply mapped_sub; [exact Hm|lia..]|lia].
    eexists. split; [done|]. split; [apply load_write_eq|].
    split; [intros x Hx; by rewrite lookup_write_out by lia|apply grows_write].
Qed.

(** A decompressed image is moved to its run address unharmed when the
    buffer does not begin inside the image's final place: below or at the run
    address, or above the image's end; the image then lies at the run address
    as it lay in the buffer. *)
Theorem place_image_places m image_base dst img :
  let n := Z.of_nat (length img) in
  n <= image_base → image_base + 2 * n < 2 ^ 32 → 0 <= dst →
  load_n (length img) m dst = Some img → mapped m image_base (2 * n) →
  dst <= image_base ∨ image_base + n <= dst →
  ∃ m', place_image m image_base dst n = Some m' ∧ load_n (length img) m' image_base = Some img ∧
    ∀ x, x < image_base ∨ image_base + 2 * n <= x → m' !! x = m !! x.
Proof.
  intros n H1 H2 H3 H4 H5 H6. destruct (place_image_run m image_base dst img H1 H2 H3 H4 H5 H6) as (m' & Hp & Hl & Ho & _). by exists m'.
Qed.

Lemma place_image_places_witness :
  ∃ m', place_image (mem_of 0x1000 (Z.of_nat <$> seq 0 96)) 0x1020 0x1010 32 = Some m' ∧
    load_n 32 m' 0x1020 = Some (Z.of_nat <$> seq 16 32) ∧
    ∀ x, x < 0x1020 ∨ 0x1020 + 2 * 32 <= x → m' !! x = mem_of 0x1000 (Z.of_nat <$> seq 0 96) !! x.
Proof.
  pose proof (place_image_places (mem_of 0x1000 (Z.of_nat <$> seq 0 96)) 0x1020 0x1010 (Z.of_nat <$> seq 16 32)) as Hw.
  cbv zeta in Hw. change (length (Z.of_nat <$> seq 16 32)) with 32%nat in Hw. change (Z.of_nat 32) with 32 in Hw.
  apply Hw; [lia|lia|lia|vm_compute; reflexivity|apply mappedb_spec; vm_compute; reflexivity|lia].
Defined.

(** When the buffer begins inside the image's final place, the detour through
    [image_base + dstlen] overwrites the rest of the buffer while copying
    forward: the image at the run address is not the one decompressed.  A plain
    forward copy would have been right. *)
Theorem place_image_overlap :
  let m := mem_of 0x1000 (Z.of_nat <$> seq 0 128) in
  let img := Z.of_nat <$> seq 16 32 in
  load_n 32 m 0x1010 = Some img ∧
  (place_image m 0x1000 0x1010 32 ≫= λ m', load_n 32 m' 0x1000) =
    Some ((Z.of_nat <$> seq 16 16) ++ (Z.of_nat <$> seq 16 16)) ∧
  (memcpy m 0x1000 0x1010 32 ≫= λ m', load_n 32 m' 0x1000) = Some img.
Proof. vm_compute. auto. Qed.

(** ** Compressed and plain images *)

Section images.
Context `{L : heap_layout} `{P : pkg_build} `{I : image_build} `{A : image_addrs} `{D : decompressors} `{V : bp_env}.

Definition run_addr (img : bytes) : Z := le_val (take 4 (drop 44 img)).

(** The decompressor was given the fixed buffer and left [img] in it. *)
Record decoded (c : codec) (m : mem) (it : toc1_item) (m1 : mem) (img : bytes) : Prop := {
  dc_buffer : CONFIG_DECOMPRESS_BUF_SIZE = None;
  dc_size : ∃ size, dst_size c m it = Some size ∧
    decode c m 0x40000000 size (item_src it) (data_len it) = Some (m1, Z.of_nat (length img), 0);
  dc_out : load_n (length img) m1 0x40000000 = Some img;
  dc_head : (48 <= length img)%nat
}.

(** The final place of the image: addressable, mapped, and not around the
    buffer's beginning. *)
Record placeable (m : mem) (img : bytes) : Prop := {
  pl_low : Z.of_nat (length img) <= run_addr img;
  pl_high : run_addr img + 2 * Z.of_nat (length img) < 2 ^ 32;
  pl_mapped : mapped m (run_addr img) (2 * Z.of_nat (length img));
  pl_apart : 0x40000000 <= run_addr img ∨ run_addr img + Z.of_nat (length img) <= 0x40000000
}.

(** What [update_opensbi_param] sees at the address of the caller's variable:
    not the magic, and outside the image. *)
Definition no_magic_at (m : mem) (p : Z) (img : bytes) : Prop :=
  (∃ stk, load_n 8 m (p + off_atf_magic) = Some stk ∧ name_is stk (cstr "opensbi") 7 = Some false) ∧
  (p + 12 <= run_addr img ∨ run_addr img + 2 * Z.of_nat (length img) <= p + 4).

Lemma comp_to_run_run c patch m it m1 img :
  decoded c m it m1 img → placeable m1 img → (patch = true → no_magic_at m1 opensbi_base_p img) →
  ∃ m', comp_to_run c patch m it = Some (m', Some (run_addr img)) ∧ load_n (length img) m' (run_addr img) = Some img ∧
    (∀ x, x < run_addr img ∨ run_addr img + 2 * Z.of_nat (length img) <= x → m' !! x = m1 !! x) ∧ grows m1 m'.
Proof.
  intros [Hbuf (size & Hsz & Hdec) Hout Hhd] [Hlo Hhi Hmap Hap] Hpt.
  unfold comp_to_run, decomp_malloc_temp_buf, decomp_free_temp_buf. rewrite Hbuf. sbind. rewrite Hsz. sbind.
  change (0x40000000 =? 0) with false. cbv iota. rewrite Hdec. sbind. change (0 =? 0) with true. cbn [negb].
  assert (rd32 m1 (0x40000000 + off_run_addr) = Some (run_addr img)) as ->.
  { unfold rd32, off_run_addr. change 44 with (Z.of_nat 44). by rewrite (load_n_sub _ _ _ _ 44 4 Hout). }
  sbind. destruct (place_image_run m1 (run_addr img) 0x40000000 img) as (m2 & Hp & Hl & Ho & Hgr); [done|done|lia|done|done|lia|].
  rewrite Hp. sbind. destruct patch; sbind; [|by exists m2].
  destruct (Hpt eq_refl) as [(stk & Hs & Hn) Hsep]. unfold update_opensbi_param.
  rewrite (load_n_ext 8 m2 m1), Hs by (unfold off_atf_magic; intros x Hx; apply Ho; lia).
  sbind. rewrite Hn. sbind. by exists m2.
Qed.

(** A compressed OpenSBI is not given the chip information that a plain one
    gets: [update_opensbi_param] is called with the address of the caller's
    variable instead of the image, so the image at the run address keeps its
    [platform] field. *)
Theorem comp_opensbi_unpatched c s m it m1 img :
  decoded c m it m1 img → placeable m1 img → no_magic_at m1 opensbi_base_p img →
  ∃ m', comp_opensbi c s m it = Some (m', set_opensbi_base s (run_addr img), 0) ∧
    load_n (length img) m' (run_addr img) = Some img.
Proof.
  intros Hd Hp Hn. destruct (comp_to_run_run c true m it m1 img Hd Hp) as (m' & Hr & Hl & _); [done|].
  exists m'. unfold comp_opensbi. by rewrite Hr.
Qed.

Lemma comp_keeps_dtb c s m it m' s' r :
  (comp_uboot c s m it = Some (m', s', r) ∨ comp_opensbi c s m it = Some (m', s', r) ∨
   comp_dtb c s m it = Some (m', s', r) ∨ comp_rtos c s m it = Some (m', s', r)) →
  dtb_base s' = dtb_base s ∧ working_fdt s' = working_fdt s.
Proof.
  intros [Hc|[Hc|[Hc|Hc]]]; unfold comp_uboot, comp_opensbi, comp_dtb, comp_rtos in Hc; some_inv; by simplify_eq.
Qed.

(** A compressed device tree is never announced: no compressed item sets
    [*dtb_base] or [working_fdt], whatever its name and outcome, while the plain
    tree sets both; the next stage is then started without a device tree. *)
Theorem comp_dtb_unannounced s m it m' s' ret :
  load_comp_image s m it = Some (m', s', ret) → dtb_base s' = dtb_base s ∧ working_fdt s' = working_fdt s.
Proof.
  unfold load_comp_image. intros Hc.
  repeat (apply bind_Some_inv in Hc as ([|] & _ & Hc); [eapply comp_keeps_dtb; eauto; fail|]). by injection Hc as <- <-.
Qed.

End images.

(** *** A package with a stored (uncompressed) codec *)

Definition demo_pkg_build : pkg_build := PkgBuild 0x41000000 false 0.
Definition demo_addrs : image_addrs := ImageAddrs 0x41001000 0x41001100.
(** The data, then its length in four bytes. *)
Definition stored (m : mem) (dst dstlen src srclen : Z) : option (mem * Z * Z) :=
  bs ← load_n (Z.to_nat (srclen - 4)) m src; m ← store_n m dst bs; Some (m, srclen - 4, 0).
Definition demo_codec : decompressors := Decompressors stored stored stored.
Definition demo_bp : bp_env := BpEnv 0x41002000 0x41003000 0.
Definition demo_img : bytes := replicate 44 5 ++ le_bytes 4 0x42000000.
Definition demo_it : toc1_item := TocItem (cstr "u-boot-gz") 0 52.
Definition demo_free : mem := write_bytes (mem_of 0x40000000 (replicate 48 0)) 0x42000000 (replicate 512 0).
Definition demo_m : mem := write_bytes (write_bytes demo_free 0x41000000 (demo_img ++ le_bytes 4 48)) 0x41001100 (replicate 16 0).
Definition demo_m1 : mem := write_bytes demo_m 0x40000000 demo_img.
Definition demo_state : image_state := ImageState 0 0 0 0 0 0 0 0 0 0.

Lemma demo_decoded : decoded (P := demo_pkg_build) (I := demo_image_build) (D := demo_codec) GZ demo_m demo_it demo_m1 demo_img.
Proof.
  split; [reflexivity| |vm_compute; reflexivity|cbn; lia].
  exists 48. split; [vm_compute; reflexivity|]. unfold decode, gunzip, demo_codec, stored.
  assert (load_n (Z.to_nat (data_len demo_it - 4)) demo_m (item_src (P := demo_pkg_build) demo_it) = Some demo_img) as -> by (vm_compute; reflexivity).
  sbind. rewrite store_n_spec by (apply mappedb_spec; vm_compute; reflexivity). reflexivity.
Qed.

Lemma demo_placeable : placeable demo_m1 demo_img.
Proof. split; [vm_compute; discriminate|vm_compute; reflexivity|apply mappedb_spec; vm_compute; reflexivity|left; vm_compute; discriminate]. Qed.

Lemma comp_opensbi_unpatched_witness :
  let L := HeapLayout 0 0 None in
  ∃ m', comp_opensbi (L := L) (P := demo_pkg_build) (I := demo_image_build) (A := demo_addrs) (D := demo_codec) GZ demo_state demo_m demo_it =
      Some (m', set_opensbi_base demo_state 0x42000000, 0) ∧ load_n 48 m' 0x42000000 = Some demo_img.
Proof.
  intros L. refine (comp_opensbi_unpatched (L := L) (P := demo_pkg_build) (I := demo_image_build) (A := demo_addrs) (D := demo_codec)
    GZ demo_state demo_m demo_it demo_m1 demo_img demo_decoded demo_placeable _).
  split; [exists (replicate 8 0); split; vm_compute; reflexivity|left; vm_compute; discriminate].
Defined.

Lemma comp_dtb_unannounced_witness :
  let L := HeapLayout 0 0 None in
  dtb_base (set_uboot_base demo_state 0x42000000) = dtb_base demo_state ∧
  working_fdt (set_uboot_base demo_state 0x42000000) = working_fdt demo_state.
Proof.
  intros L. destruct (comp_to_run_run (L := L) (P := demo_pkg_build) (I := demo_image_build) (A := demo_addrs) (D := demo_codec)
    GZ false demo_m demo_it demo_m1 demo_img demo_decoded demo_placeable) as (m' & Hr & _); [done|].
  apply (comp_dtb_unannounced (L := L) (P := demo_pkg_build) (I := demo_image_build) (A := demo_addrs) (D := demo_codec)
    demo_state demo_m demo_it m' _ 0).
  unfold load_comp_image. change (when CFG_SUNXI_GUNZIP (is_own (item_name demo_it) ITEM_UBOOT_GZ_NAME)) with (Some true). sbind.
  unfold comp_uboot. by rewrite Hr.
Defined.
