(* ===== verification/Package.v ===== *)
(** * A whole boot package unpacked (spl/nboot/main/load_image.c)

    What [load_image] makes of a package that is laid out as the tools write
    it: a header, a table of items, and the data.  The items covered are U-Boot,
    plain or compressed, the RTOS, and those that the code passes over; the
    decompressors are given by what they promise ([Codecs]). *)

From S2P Require Import Prelude Mem CString Checksum Heap BootImage BootPkg BootParam LoadImage.

Local Open Scope Z_scope.
Local Open Scope c_scope.

(** ** The layout *)

(** An entry of the item table; [pi_pad] fills the name field. *)
Record pkg_item := PkgItem {
  pi_name : bytes;
  pi_pad : bytes;
  pi_offset : Z;
  pi_len : Z;
  pi_encrypt : Z;
  pi_type : Z;
  pi_rest : bytes
}.

Definition enc_item (it : pkg_item) : bytes :=
  (pi_name it ++ 0 :: pi_pad it) ++ le_bytes 4 (pi_offset it) ++ le_bytes 4 (pi_len it) ++ le_bytes 4 (pi_encrypt it) ++
  le_bytes 4 (pi_type it) ++ pi_rest it.

Record wf_item (it : pkg_item) : Prop := {
  wi_name : is_cstr (pi_name it);
  wi_field : length (pi_name it ++ 0 :: pi_pad it) = 64%nat;
  wi_offset : is_u32 (pi_offset it);
  wi_len : is_u32 (pi_len it);
  wi_type : is_u32 (pi_type it);
  wi_rest : length (pi_rest it) = Z.to_nat 288
}.

(** The package: name field, magic to status, number of items, length and the
    rest of the header, items, data. *)
Record package := Package {
  pk_name : bytes;
  pk_pad : bytes;
  pk_fields : bytes;
  pk_tail : bytes;
  pk_items : list pkg_item;
  pk_data : bytes
}.

Definition enc_package (p : package) : bytes :=
  ((pk_name p ++ 0 :: pk_pad p) ++ pk_fields p ++ le_bytes 4 (Z.of_nat (length (pk_items p))) ++ pk_tail p) ++
  concat (enc_item <$> pk_items p) ++ pk_data p.

Record wf_package (p : package) : Prop := {
  wp_name : is_cstr (pk_name p);
  wp_name_field : length (pk_name p ++ 0 :: pk_pad p) = 16%nat;
  wp_fields : length (pk_fields p) = 16%nat;
  wp_tail : length (pk_tail p) = 28%nat;
  wp_items : Forall wf_item (pk_items p);
  wp_count : is_u32 (Z.of_nat (length (pk_items p)))
}.

(** ** What the decompressors promise *)

(** [packs c zs img]: codec [c] decodes [zs] to [img].  Each of them, given
    the data and a destination that is large enough and apart, writes the image
    there and nothing else; LZ4 and LZMA also return its size.  A gzip stream
    ends in the size of what it holds. *)
Class Codecs `{D : decompressors} (packs : codec → bytes → bytes → Prop) : Prop := {
  ungz_decodes m dst n src zs img :
    packs GZ zs img → load_n (length zs) m src = Some zs → Z.of_nat (length img) <= n →
    mapped m dst (Z.of_nat (length img)) → apart dst (Z.of_nat (length img)) src (Z.of_nat (length zs)) →
    ∃ k, gunzip m dst n src (Z.of_nat (length zs)) = Some (write_bytes m dst img, k, 0);
  gzip_size zs img : packs GZ zs img → ∃ body, zs = body ++ le_bytes 4 (Z.of_nat (length img));
  unlz4_decodes m dst n src zs img :
    packs LZ4 zs img → load_n (length zs) m src = Some zs → Z.of_nat (length img) <= n →
    mapped m dst (Z.of_nat (length img)) → apart dst (Z.of_nat (length img)) src (Z.of_nat (length zs)) →
    ulz4fn m dst n src (Z.of_nat (length zs)) = Some (write_bytes m dst img, Z.of_nat (length img), 0);
  unlzma_decodes m dst n src zs img :
    packs LZMA zs img → load_n (length zs) m src = Some zs → Z.of_nat (length img) <= n →
    mapped m dst (Z.of_nat (length img)) → apart dst (Z.of_nat (length img)) src (Z.of_nat (length zs)) →
    lzmaBuffToBuffDecompress m dst n src (Z.of_nat (length zs)) = Some (write_bytes m dst img, Z.of_nat (length img), 0)
}.

(** The names of a compressed U-Boot, whether the build has the codec, and the
    largest image it is given room for. *)
Definition packed_name (c : codec) : bytes :=
  chars match c with GZ => ITEM_UBOOT_GZ_NAME | LZ4 => ITEM_UBOOT_LZ4_NAME | LZMA => ITEM_UBOOT_LZMA_NAME end.
Definition codec_on `{I : image_build} (c : codec) : bool :=
  match c with GZ => CFG_SUNXI_GUNZIP | LZ4 => CFG_SUNXI_LZ4 | LZMA => CFG_SUNXI_LZMA end.
Definition codec_room (c : codec) : Z := match c with GZ => 2 ^ 31 - 1 | LZ4 => 0x800000 | LZMA => 2 ^ 32 - 1 end.

Lemma codec_decodes `{D : decompressors} `{K : !Codecs packs} c m dst size src zs img :
  packs c zs img → load_n (length zs) m src = Some zs → size = Z.of_nat (length img) ∨ (c ≠ GZ ∧ Z.of_nat (length img) <= size) →
  mapped m dst (Z.of_nat (length img)) → apart dst (Z.of_nat (length img)) src (Z.of_nat (length zs)) →
  decode c m dst size src (Z.of_nat (length zs)) = Some (write_bytes m dst img, Z.of_nat (length img), 0).
Proof.
  intros Hp Hl Hs Hm Ha. destruct c; cbn [decode].
  - assert (size = Z.of_nat (length img)) as -> by tauto. destruct (ungz_decodes m dst (Z.of_nat (length img)) src zs img) as [k ->]; try done; lia.
  - apply unlz4_decodes; try done. lia.
  - apply unlzma_decodes; try done. lia.
Qed.

(** ** Reading the table *)

Lemma load_n_mid m a x y z : load_n (length (x ++ y ++ z)) m a = Some (x ++ y ++ z) → load_n (length y) m (a + Z.of_nat (length x)) = Some y.
Proof.
  intros Hl. rewrite (load_n_sub _ _ _ _ (length x) (length y) Hl) by (rewrite !length_app; lia).
  by rewrite drop_app_length, take_app_length.
Qed.

Lemma length_pkg_item it : wf_item it → length (enc_item it) = Z.to_nat 368.
Proof. intros [? Hf ? ? ? Hr]. unfold enc_item. rewrite !length_app, !length_le_bytes, Hr. rewrite length_app in Hf. lia. Qed.

Lemma length_pkg_items l : Forall wf_item l → length (concat (enc_item <$> l)) = (Z.to_nat 368 * length l)%nat.
Proof.
  induction 1 as [|it l Hi Hl IH]; [cbn; lia|]. cbn [fmap list_fmap concat]. rewrite length_app, IH, length_pkg_item by done. cbn [length]. lia.
Qed.

Section table.
Context `{P : pkg_build} (p : package) (Hp : wf_package p).
Context (m : mem) (Hm : load_n (length (enc_package p)) m CONFIG_BOOTPKG_BASE = Some (enc_package p)).

Lemma header_length_64 :
  length ((pk_name p ++ 0 :: pk_pad p) ++ pk_fields p ++ le_bytes 4 (Z.of_nat (length (pk_items p))) ++ pk_tail p) = 64%nat.
Proof. destruct Hp as [? Hn Hf Ht ? ?]. rewrite !(length_app (pk_name p ++ _)), Hn, !length_app, Hf, Ht, length_le_bytes. lia. Qed.

Lemma read_count : rd32 m (CONFIG_BOOTPKG_BASE + off_items_nr) = Some (Z.of_nat (length (pk_items p))).
Proof.
  pose proof Hm as Hl. unfold enc_package in Hl.
  set (rest := concat (enc_item <$> pk_items p) ++ pk_data p) in Hl.
  replace (((pk_name p ++ 0 :: pk_pad p) ++ pk_fields p ++ le_bytes 4 (Z.of_nat (length (pk_items p))) ++ pk_tail p) ++ rest)
    with (((pk_name p ++ 0 :: pk_pad p) ++ pk_fields p) ++ le_bytes 4 (Z.of_nat (length (pk_items p))) ++ (pk_tail p ++ rest)) in Hl
    by (by rewrite <- !app_assoc).
  apply load_n_mid in Hl. rewrite length_le_bytes, length_app, (wp_name_field p Hp), (wp_fields p Hp) in Hl.
  unfold rd32, off_items_nr. change (Z.of_nat (16 + 16)) with 32 in Hl. rewrite Hl. cbn [fmap option_fmap option_map].
  rewrite le_val_bytes; [done|]. pose proof (wp_count p Hp) as Hc. unfold is_u32 in Hc. change (2 ^ 32) with 4294967296 in Hc.
  change (256 ^ Z.of_nat 4) with 4294967296. lia.
Qed.

Lemma read_name : load_n 16 m CONFIG_BOOTPKG_BASE = Some (pk_name p ++ 0 :: pk_pad p).
Proof.
  pose proof Hm as Hl. unfold enc_package in Hl. rewrite <- !(app_assoc (pk_name p ++ _)) in Hl.
  apply (load_n_mid m _ []) in Hl. cbn [length] in Hl. change (Z.of_nat 0) with 0 in Hl. by rewrite Z.add_0_r, (wp_name_field p Hp) in Hl.
Qed.

Lemma read_entry l1 it l2 :
  pk_items p = l1 ++ it :: l2 →
  let a := CONFIG_BOOTPKG_BASE + sizeof_toc1_head + sizeof_toc1_item * Z.of_nat (length l1) in
  get_item m a = Some (TocItem (pi_name it ++ 0 :: pi_pad it) (pi_offset it) (pi_len it)) ∧
  rd32 m (a + off_type) = Some (pi_type it).
Proof.
  intros E a. pose proof (wp_items p Hp) as Hwf. rewrite E in Hwf. apply Forall_app in Hwf as [Hwf1 [Hwf _]%Forall_cons].
  pose proof Hm as Hl. unfold enc_package in Hl. pose proof header_length_64 as H64.
  set (hd := (pk_name p ++ 0 :: pk_pad p) ++ pk_fields p ++ le_bytes 4 (Z.of_nat (length (pk_items p))) ++ pk_tail p) in *. clearbody hd.
  rewrite E, fmap_app, concat_app in Hl. cbn [fmap list_fmap concat] in Hl. rewrite <- !app_assoc, (app_assoc hd) in Hl.
  apply load_n_mid in Hl. rewrite length_app, H64, length_pkg_items in Hl by done.
  replace (CONFIG_BOOTPKG_BASE + Z.of_nat (64 + Z.to_nat 368 * length l1)) with a in Hl by (unfold a, sizeof_toc1_head, sizeof_toc1_item; lia).
  unfold enc_item in Hl. destruct Hwf as [_ Hf Ho Hn Ht Hr]. unfold is_u32 in *. change (2 ^ 32) with 4294967296 in *.
  assert (∀ n v, 0 <= v < 4294967296 → n = 4%nat → le_val (le_bytes n v) = v) as Hval
    by (intros n v Hv ->; apply le_val_bytes; change (256 ^ Z.of_nat 4) with 4294967296; lia).
  set (nm := pi_name it ++ 0 :: pi_pad it) in *. clearbody nm.
  pose proof (load_n_mid m a [] nm _ Hl) as L0. cbn [length] in L0. change (Z.of_nat 0) with 0 in L0. rewrite Z.add_0_r, Hf in L0.
  pose proof (load_n_mid m a nm (le_bytes 4 (pi_offset it)) _ Hl) as L1. rewrite Hf, length_le_bytes in L1.
  rewrite (app_assoc nm) in Hl. pose proof (load_n_mid m a _ (le_bytes 4 (pi_len it)) _ Hl) as L2. rewrite length_app, Hf, !length_le_bytes in L2.
  rewrite (app_assoc (nm ++ _)) in Hl. rewrite (app_assoc ((nm ++ _) ++ _)) in Hl.
  pose proof (load_n_mid m a _ (le_bytes 4 (pi_type it)) _ Hl) as L3. rewrite !length_app, Hf, !length_le_bytes in L3.
  unfold get_item, rd32, off_data_offset, off_data_len, off_type. split.
  - rewrite L0. sbind. change (Z.of_nat 64) with 64 in L1. rewrite L1. cbn [fmap option_fmap option_map]. sbind.
    change (Z.of_nat (64 + 4)) with 68 in L2. rewrite L2. cbn [fmap option_fmap option_map]. sbind. by rewrite !Hval.
  - change (Z.of_nat (64 + 4 + 4 + 4)) with 76 in L3. rewrite L3. cbn [fmap option_fmap option_map]. by rewrite Hval.
Qed.

(** Data of the package, at an offset from its start. *)
Lemma read_data o k : (o + k <= length (enc_package p))%nat →
  load_n k m (CONFIG_BOOTPKG_BASE + Z.of_nat o) = Some (take k (drop o (enc_package p))).
Proof. intros Ho. by apply (load_n_sub _ _ _ _ o k Hm). Qed.

End table.

(** ** Tasks *)

Section tasks.
Context `{L : heap_layout} `{P : pkg_build} `{I : image_build} `{A : image_addrs} `{D : decompressors} `{V : bp_env} `{K : !Codecs packs}.
Context (p : package).

Let pkg : bytes := enc_package p.

Definition in_package (m : mem) : Prop := load_n (length pkg) m CONFIG_BOOTPKG_BASE = Some pkg.

(** The head of an item's data, where the run address is looked for, lies in
    the package; the bytes at an offset of the package. *)
Definition head_inside (it : pkg_item) : Prop := 512 * (pi_offset it / 512) + 48 <= Z.of_nat (length pkg).
Definition holds (it : pkg_item) (bs : bytes) : Prop :=
  pi_offset it + Z.of_nat (length bs) <= Z.of_nat (length pkg) ∧ take (length bs) (drop (Z.to_nat (pi_offset it)) pkg) = bs.

(** An image stored plainly: at a sector, and padded to whole sectors. *)
Definition stored_plain (it : pkg_item) (img pad : bytes) : Prop :=
  pi_offset it mod 512 = 0 ∧ pi_len it = Z.of_nat (length img) ∧ (48 <= length img)%nat ∧ Z.of_nat (length img) + 511 < 2 ^ 32 ∧
  Z.of_nat (length (img ++ pad)) = 512 * ((pi_len it + 511) / 512) ∧ holds it (img ++ pad).

(** Place behind [a]: the detour of [place_image] needs it free, and the buffer
    at 0x40000000 must not begin inside the image's place. *)
Definition placeable_at (a n : Z) : Prop :=
  n <= a ∧ a + 2 * n < 2 ^ 32 ∧ (0x40000000 <= a ∨ a + n <= 0x40000000).

(** What an item asks for: how the result of [load_image] changes, the image
    that is put at its run address, and the regions that are written. *)
Inductive duty (it : pkg_item) : (image_state → image_state) → bytes → list (Z * Z) → Prop :=
| duty_skipped : pi_type it ≠ 3 → duty it id [] []
| duty_ignored :
    pi_type it = 3 → kind_of (pi_name it) = K_SCP ∨ kind_of (pi_name it) = K_NONE → head_inside it → duty it id [] []
| duty_uboot img pad :
    pi_type it = 3 → pi_name it = chars ITEM_UBOOT_NAME → stored_plain it img pad →
    duty it (λ s, set_uboot_base s (run_addr img)) img [(run_addr img, Z.of_nat (length (img ++ pad)))]
| duty_rtos img pad :
    pi_type it = 3 → pi_name it = chars ITEM_RTOS_NAME ∨ pi_name it = chars ITEM_MELIS_NAME → stored_plain it img pad →
    duty it (λ s, set_rtos_base s (run_addr img)) img [(run_addr img, Z.of_nat (length (img ++ pad)))]
| duty_packed c zs img :
    pi_type it = 3 → codec_on c = true → pi_name it = packed_name c → CONFIG_DECOMPRESS_BUF_SIZE = None →
    packs c zs img → pi_len it = Z.of_nat (length zs) → holds it zs → head_inside it →
    (48 <= length img)%nat → Z.of_nat (length img) <= codec_room c → placeable_at (run_addr img) (Z.of_nat (length img)) →
    duty it (λ s, set_uboot_base s (run_addr img)) img
      [(0x40000000, Z.of_nat (length img)); (run_addr img, 2 * Z.of_nat (length img))].

Record task := Task { tk_item : pkg_item; tk_set : image_state → image_state; tk_img : bytes; tk_regs : list (Z * Z) }.

Definition does (t : task) : Prop := duty (tk_item t) (tk_set t) (tk_img t) (tk_regs t).

(** The regions are mapped and apart from the package. *)
Definition regs_ok (m : mem) (regs : list (Z * Z)) : Prop :=
  ∀ a n, (a, n) ∈ regs → mapped m a n ∧ apart a n CONFIG_BOOTPKG_BASE (Z.of_nat (length pkg)).

Definition outside (regs : list (Z * Z)) (x : Z) : Prop := ∀ a n, (a, n) ∈ regs → x < a ∨ a + n <= x.

(** What a step leaves. *)
Record done_by (m m' : mem) (regs : list (Z * Z)) : Prop := {
  db_outside x : outside regs x → m' !! x = m !! x;
  db_grows : grows m m'
}.

Lemma done_by_refl m : done_by m m [].
Proof. split; [done|by intros x]. Qed.

Lemma done_by_load m m' regs n a :
  done_by m m' regs → (∀ b k, (b, k) ∈ regs → apart b k a (Z.of_nat n)) → load_n n m' a = load_n n m a.
Proof.
  intros [Ho _] Ha. apply load_n_ext. intros x Hx. apply Ho. intros b k Hb. specialize (Ha b k Hb). unfold apart in Ha. lia.
Qed.

Lemma done_by_package m m' regs : done_by m m' regs → regs_ok m regs → in_package m → in_package m'.
Proof. intros Hd Hr Hm. unfold in_package. rewrite (done_by_load m m' regs); [done|done|]. intros b k Hb. by apply (Hr b k). Qed.

Lemma regs_ok_done m m' regs regs' : done_by m m' regs → regs_ok m regs' → regs_ok m' regs'.
Proof. intros [_ Hg] Hr a n Ha. destruct (Hr a n Ha) as [Hm Hs]. split; [by eapply grows_mapped|done]. Qed.

Context (Hbase : 0 <= CONFIG_BOOTPKG_BASE) (Htop : CONFIG_BOOTPKG_BASE + Z.of_nat (length pkg) < 2 ^ 32).

Section step.
Context (Hp : wf_package p) (m : mem) (Hm : in_package m) (it : pkg_item) (Hit : wf_item it).

Lemma item_offset : 0 <= pi_offset it.
Proof. apply (wi_offset it Hit). Qed.

Lemma holds_load bs : holds it bs → load_n (length bs) m (CONFIG_BOOTPKG_BASE + pi_offset it) = Some bs.
Proof.
  intros [Hle He]. pose proof item_offset. rewrite <- (Z2Nat.id (pi_offset it)) by done.
  rewrite (read_data p m Hm) by (fold pkg; lia). fold pkg. by rewrite He.
Qed.

Lemma run_addr_read : head_inside it → ∃ v, toc1_get_image_addr m (pi_offset it / 512) = Some v.
Proof.
  unfold head_inside. intros Hh. pose proof item_offset. unfold toc1_get_image_addr. change (2 ^ 32) with 4294967296 in Htop.
  assert (0 <= pi_offset it / 512) by (apply Z.div_pos; lia).
  rewrite u32_small by (unfold is_u32; lia). unfold rd32.
  replace (CONFIG_BOOTPKG_BASE + 512 * (pi_offset it / 512) + off_run_addr)
    with (CONFIG_BOOTPKG_BASE + Z.of_nat (Z.to_nat (512 * (pi_offset it / 512) + 44))) by (unfold off_run_addr; lia).
  rewrite (read_data p m Hm) by (fold pkg; lia). by eexists.
Qed.

Lemma run_addr_plain img pad : stored_plain it img pad → toc1_get_image_addr m (pi_offset it / 512) = Some (run_addr img).
Proof.
  intros (Hs & Hl & Hn & _ & Hsz & Hh). pose proof (holds_load _ Hh) as Hd. destruct Hh as [Hle _]. pose proof item_offset.
  unfold toc1_get_image_addr. assert (512 * (pi_offset it / 512) = pi_offset it) as -> by zmod.
  change (2 ^ 32) with 4294967296 in Htop. rewrite u32_small by (unfold is_u32; lia). unfold rd32, off_run_addr. change 44 with (Z.of_nat 44).
  rewrite (load_n_sub _ _ _ _ 44 4 Hd) by (rewrite length_app; lia). cbn [fmap option_fmap option_map]. unfold run_addr.
  rewrite drop_app_le by lia. rewrite take_app_le by (rewrite length_drop; lia). done.
Qed.

Lemma plain_step img pad : stored_plain it img pad → regs_ok m [(run_addr img, Z.of_nat (length (img ++ pad)))] →
  read_item m (TocItem (pi_name it ++ 0 :: pi_pad it) (pi_offset it) (pi_len it)) (run_addr img) =
    Some (write_bytes m (run_addr img) (img ++ pad)) ∧
  done_by m (write_bytes m (run_addr img) (img ++ pad)) [(run_addr img, Z.of_nat (length (img ++ pad)))] ∧
  load_n (length img) (write_bytes m (run_addr img) (img ++ pad)) (run_addr img) = Some img.
Proof.
  intros (Hs & Hl & Hn & Hsmall & Hsz & Hh) Hr. pose proof (holds_load _ Hh) as Hd. destruct Hh as [Hle _]. pose proof item_offset.
  destruct (Hr _ _ (proj2 (list_elem_of_singleton _ _) eq_refl)) as [Hmap Hap]. change (2 ^ 32) with 4294967296 in *.
  split; [|split].
  - unfold read_item, toc1_flash_read. cbn [data_offset data_len]. rewrite (u32_small (pi_len it + 511)) by (unfold is_u32; lia).
    assert (512 * (pi_offset it / 512) = pi_offset it) as -> by zmod. rewrite u32_small by (unfold is_u32; lia). rewrite <- Hsz.
    rewrite u32_small by (unfold is_u32; lia). apply memcpy_forward; [done|done|]. unfold apart in Hap. lia.
  - split; [|apply grows_write]. intros x Hx. apply lookup_write_out. apply (Hx _ _ (proj2 (list_elem_of_singleton _ _) eq_refl)).
  - pose proof (load_write_eq m (run_addr img) (img ++ pad)) as Hw. rewrite length_app in Hw.
    apply load_n_app in Hw as [Hw _]. by rewrite take_app_length in Hw.
Qed.

Lemma packed_decoded c zs img :
  CONFIG_DECOMPRESS_BUF_SIZE = None → packs c zs img → pi_len it = Z.of_nat (length zs) → holds it zs →
  (48 <= length img)%nat → Z.of_nat (length img) <= codec_room c →
  mapped m 0x40000000 (Z.of_nat (length img)) → apart 0x40000000 (Z.of_nat (length img)) CONFIG_BOOTPKG_BASE (Z.of_nat (length pkg)) →
  decoded c m (TocItem (pi_name it ++ 0 :: pi_pad it) (pi_offset it) (pi_len it)) (write_bytes m 0x40000000 img) img.
Proof.
  intros Hbuf Hpk Hlen Hh H48 Hroom Hmap Hap. pose proof (holds_load _ Hh) as Hd. destruct Hh as [Hle _]. pose proof item_offset.
  change (2 ^ 32) with 4294967296 in *. split; [done| |apply load_write_eq|done].
  unfold item_src. cbn [data_offset data_len]. rewrite (u32_small (CONFIG_BOOTPKG_BASE + _)) by (unfold is_u32; lia). rewrite Hlen.
  assert (apart 0x40000000 (Z.of_nat (length img)) (CONFIG_BOOTPKG_BASE + pi_offset it) (Z.of_nat (length zs))) as Hap'
    by (unfold apart in *; lia).
  destruct c; cbn [dst_size codec_room] in *; (eexists; split; [|apply codec_decodes; [done|done| |done|done]]);
    try done; [|by left|by right|by right; split; [|lia]].
  unfold item_src. cbn [data_offset data_len]. rewrite (u32_small (CONFIG_BOOTPKG_BASE + _)) by (unfold is_u32; lia).
  destruct (gzip_size zs img Hpk) as [body ->]. rewrite length_app, length_le_bytes in *.
  rewrite (u32_small (CONFIG_BOOTPKG_BASE + _ + _)) by (unfold is_u32; lia). rewrite u32_small by (unfold is_u32; lia).
  apply load_n_app in Hd as [_ Hd]. rewrite drop_app_length in Hd. unfold rd32.
  replace (CONFIG_BOOTPKG_BASE + pi_offset it + Z.of_nat (length body + 4) - 4)
    with (CONFIG_BOOTPKG_BASE + pi_offset it + Z.of_nat (length body)) by lia.
  rewrite Hd. cbn [fmap option_fmap option_map]. sbind. change (2 ^ 31) with 2147483648 in Hroom.
  rewrite le_val_bytes by (change (256 ^ Z.of_nat 4) with 4294967296; lia). by rewrite s32_small by lia.
Qed.

(** A packed U-Boot is recognised by both chains of comparisons. *)
Lemma packed_kind c : kind_of (packed_name c) = K_COMP ∧ is_cstr (packed_name c) ∧ (length (packed_name c) < 64)%nat.
Proof. destruct c; (split; [done|split; [apply (bool_decide_unpack _); vm_compute; exact Logic.I|cbn; lia]]). Qed.

Lemma packed_dispatch c s o n :
  codec_on c = true → pi_name it = packed_name c →
  load_comp_image s m (TocItem (pi_name it ++ 0 :: pi_pad it) o n) = comp_uboot c s m (TocItem (pi_name it ++ 0 :: pi_pad it) o n).
Proof.
  intros Hon ->. unfold load_comp_image. cbn [item_name]. destruct (packed_kind c) as (_ & Hc & _).
  assert (∀ s, forallb (λ a, negb (Ascii.eqb a Ascii.zero)) (String.list_ascii_of_string s) = true →
    is_own (packed_name c ++ 0 :: pi_pad it) (cstr s) = Some (bool_decide (packed_name c `prefix_of` chars (cstr s)))) as Hown
    by (intros x Hx; by apply own_item).
  unfold ITEM_UBOOT_GZ_NAME, ITEM_UBOOT_LZ4_NAME, ITEM_UBOOT_LZMA_NAME. rewrite !Hown by done. rewrite !when_spec.
  destruct c; cbn [codec_on] in Hon; rewrite Hon;
    repeat match goal with |- context [bool_decide (packed_name ?c `prefix_of` ?x)] =>
      let b := eval vm_compute in (bool_decide (packed_name c `prefix_of` x)) in
      change (bool_decide (packed_name c `prefix_of` x)) with b end;
    rewrite ?andb_false_r; done.
Qed.

Lemma packed_step c zs img s :
  codec_on c = true → pi_name it = packed_name c → CONFIG_DECOMPRESS_BUF_SIZE = None →
  packs c zs img → pi_len it = Z.of_nat (length zs) → holds it zs →
  (48 <= length img)%nat → Z.of_nat (length img) <= codec_room c → placeable_at (run_addr img) (Z.of_nat (length img)) →
  regs_ok m [(0x40000000, Z.of_nat (length img)); (run_addr img, 2 * Z.of_nat (length img))] →
  ∃ m', load_comp_image s m (TocItem (pi_name it ++ 0 :: pi_pad it) (pi_offset it) (pi_len it)) = Some (m', set_uboot_base s (run_addr img), 0) ∧
    done_by m m' [(0x40000000, Z.of_nat (length img)); (run_addr img, 2 * Z.of_nat (length img))] ∧
    load_n (length img) m' (run_addr img) = Some img.
Proof.
  intros Hon Hname Hbuf Hpk Hlen Hh H48 Hroom (Hlo & Hhi & Hap) Hr. rewrite (packed_dispatch c) by done.
  destruct (Hr 0x40000000 (Z.of_nat (length img))) as [Hm1 Ha1]; [by left|].
  destruct (Hr (run_addr img) (2 * Z.of_nat (length img))) as [Hm2 Ha2]; [by right; left|].
  pose proof (packed_decoded c zs img Hbuf Hpk Hlen Hh H48 Hroom Hm1 Ha1) as Hd.
  destruct (comp_to_run_run c false m _ _ img Hd) as (m' & Hrun & Hl & Ho & Hg); [split; [done|done|by apply mapped_write|done]|done|].
  exists m'. unfold comp_uboot. rewrite Hrun. sbind. split; [done|]. split; [|done]. split.
  - intros x Hx. rewrite Ho by (apply (Hx (run_addr img)); by right; left). apply lookup_write_out. apply (Hx 0x40000000). by left.
  - eapply grows_trans; [apply grows_write|exact Hg].
Qed.

End step.

(** One turn of the loop. *)
Lemma task_turn fuel t s m l1 l2 :
  wf_package p → in_package m → pk_items p = l1 ++ tk_item t :: l2 → does t → regs_ok m (tk_regs t) →
  ∃ m', load_items (S fuel) s m (Z.of_nat (length l1)) = load_items fuel (tk_set t s) m' (Z.of_nat (length l1) + 1) ∧
    done_by m m' (tk_regs t) ∧ load_n (length (tk_img t)) m' (run_addr (tk_img t)) = Some (tk_img t).
Proof.
  intros Hp Hm E Hd Hr. destruct t as [it f img regs]. unfold does in Hd. cbn [tk_item tk_set tk_img tk_regs] in *.
  assert (wf_item it) as Hit. { pose proof (wp_items p Hp) as Hw. rewrite E in Hw. by apply Forall_app in Hw as [_ [Hw _]%Forall_cons]. }
  cbn [load_items]. rewrite (read_count p Hp m Hm). sbind. rewrite E, length_app. cbn [length].
  destruct (Z.ltb_spec (Z.of_nat (length l1)) (Z.of_nat (length l1 + S (length l2)))); [|lia].
  destruct (read_entry p Hp m Hm l1 it l2 E) as [-> ->]. sbind. cbn [item_name data_offset].
  pose proof (wi_field it Hit) as Hf. rewrite length_app in Hf. cbn [length] in Hf.
  assert (∀ k, kind_of (pi_name it) = k → classify (pi_name it ++ 0 :: pi_pad it) = Some k) as Hcl
    by (intros k <-; apply classify_run; [apply Hit|lia]).
  destruct Hd as [Hty|Hty Hk Hh|img pad Hty Hn Hpl|img pad Hty Hn Hpl|c zs img Hty Hon Hn Hbuf Hpk Hlen Hh Hhd H48 Hroom Hat].
  - destruct (Z.eqb_spec (pi_type it) 3); [done|]. exists m. split; [done|]. split; [apply done_by_refl|done].
  - rewrite Hty. destruct (run_addr_read m Hm it Hit Hh) as [v ->]. sbind. exists m.
    split; [|split; [apply done_by_refl|done]]. destruct Hk as [Hk|Hk]; by rewrite (Hcl _ Hk).
  - rewrite Hty, (run_addr_plain m Hm it Hit img pad Hpl). sbind. rewrite (Hcl K_UBOOT) by (rewrite Hn; done). sbind.
    destruct (plain_step m Hm it Hit img pad Hpl Hr) as (Hrd & Hdb & Hl). cbn [load_item]. rewrite Hrd. sbind. by eexists.
  - rewrite Hty, (run_addr_plain m Hm it Hit img pad Hpl). sbind. rewrite (Hcl K_RTOS) by (destruct Hn as [->| ->]; done). sbind.
    destruct (plain_step m Hm it Hit img pad Hpl Hr) as (Hrd & Hdb & Hl). cbn [load_item]. rewrite Hrd. sbind. by eexists.
  - rewrite Hty. destruct (run_addr_read m Hm it Hit Hhd) as [v ->]. sbind.
    rewrite (Hcl K_COMP) by (rewrite Hn; apply packed_kind). sbind. cbn [load_item].
    destruct (packed_step m Hm it Hit c zs img s) as (m' & -> & Hdb & Hl); try done. sbind. by exists m'.
Qed.

(** No later task writes over the image of an earlier one. *)
Fixpoint images_kept (ts : list task) : Prop :=
  match ts with
  | [] => True
  | t :: ts' =>
      (∀ u a n, u ∈ ts' → (a, n) ∈ tk_regs u → apart a n (run_addr (tk_img t)) (Z.of_nat (length (tk_img t)))) ∧ images_kept ts'
  end.

Lemma tasks_run fuel ts s m l1 :
  wf_package p → in_package m → pk_items p = l1 ++ (tk_item <$> ts) → Forall does ts →
  Forall (λ t, regs_ok m (tk_regs t)) ts → images_kept ts → (length ts < fuel)%nat →
  ∃ m', load_items fuel s m (Z.of_nat (length l1)) = Some (m', foldl (λ s t, tk_set t s) s ts) ∧
    done_by m m' (concat (tk_regs <$> ts)) ∧
    (∀ t, t ∈ ts → load_n (length (tk_img t)) m' (run_addr (tk_img t)) = Some (tk_img t)).
Proof.
  intros Hp. revert fuel s m l1. induction ts as [|t ts IH]; intros fuel s m l1 Hm E Hd Hr Hk Hf; (destruct fuel as [|fuel]; [cbn in Hf; lia|]).
  - cbn [load_items]. rewrite (read_count p Hp m Hm). sbind. rewrite E, length_app. cbn [fmap list_fmap length].
    destruct (Z.ltb_spec (Z.of_nat (length l1)) (Z.of_nat (length l1 + 0))); [lia|]. exists m. split; [done|].
    split; [apply done_by_refl|]. by intros t []%elem_of_nil.
  - apply Forall_cons in Hd as [Hd Hds]. apply Forall_cons in Hr as [Hr Hrs]. destruct Hk as [Hk Hks]. cbn [fmap list_fmap] in E.
    destruct (task_turn fuel t s m l1 (tk_item <$> ts) Hp Hm E Hd Hr) as (m1 & -> & Hdb & Hl).
    destruct (IH fuel (tk_set t s) m1 (l1 ++ [tk_item t])) as (m' & Hrun & Hdb' & Hl').
    { by eapply done_by_package. }
    { by rewrite <- app_assoc. }
    { done. }
    { eapply Forall_impl; [exact Hrs|]. intros u Hu. by eapply regs_ok_done. }
    { done. }
    { cbn in Hf. lia. }
    rewrite length_app in Hrun. cbn [length] in Hrun. replace (Z.of_nat (length l1) + 1) with (Z.of_nat (length l1 + 1)) by lia.
    exists m'. split; [done|]. cbn [fmap list_fmap concat]. split.
    + destruct Hdb as [Ho1 Hg1], Hdb' as [Ho2 Hg2]. split; [|by eapply grows_trans]. intros x Hx.
      rewrite Ho2 by (intros a n Ha; apply Hx, elem_of_app; by right). apply Ho1. intros a n Ha. apply Hx, elem_of_app. by left.
    + intros u [->|Hu]%elem_of_cons; [|by apply Hl']. rewrite <- Hl. eapply done_by_load; [exact Hdb'|].
      intros a n Ha. apply list_elem_of_In, in_concat in Ha as (rs & Hrs'%list_elem_of_In & Ha%list_elem_of_In). apply list_elem_of_fmap in Hrs' as (u & -> & Hu). by eapply Hk.
Qed.

Lemma set_card_work_mode_twice s v w : set_card_work_mode (set_card_work_mode s v) w = set_card_work_mode s w.
Proof. done. Qed.


End tasks.

(** ** A package with two items *)

Definition stored_as (c : codec) (zs img : bytes) : Prop := zs = img ++ le_bytes 4 (Z.of_nat (length img)).

Lemma stored_decodes m dst n src zs img c :
  stored_as c zs img → load_n (length zs) m src = Some zs → mapped m dst (Z.of_nat (length img)) →
  stored m dst n src (Z.of_nat (length zs)) = Some (write_bytes m dst img, Z.of_nat (length img), 0).
Proof.
  intros -> Hl Hm. unfold stored. rewrite length_app, length_le_bytes in *. apply load_n_app in Hl as [Hl _]. rewrite take_app_length in Hl.
  replace (Z.to_nat (Z.of_nat (length img + 4) - 4)) with (length img) by lia. rewrite Hl. sbind.
  rewrite store_n_spec by done. sbind. by replace (Z.of_nat (length img + 4) - 4) with (Z.of_nat (length img)) by lia.
Qed.

#[global] Instance stored_codecs : Codecs (D := demo_codec) stored_as.
Proof.
  split.
  - intros m dst n src zs img Hp Hl _ Hm _. exists (Z.of_nat (length img)). by eapply stored_decodes.
  - intros zs img ->. by exists img.
  - intros m dst n src zs img Hp Hl _ Hm _. by eapply stored_decodes.
  - intros m dst n src zs img Hp Hl _ Hm _. by eapply stored_decodes.
Qed.

Definition demo_entry (name : string) (o n t : Z) : pkg_item :=
  PkgItem (chars (cstr name)) (replicate (63 - length (chars (cstr name))) 0) o n 0 t (replicate (Z.to_nat 288) 0).
Definition demo_uboot : pkg_item := demo_entry "u-boot-gz" 1024 52 3.
Definition demo_cert : pkg_item := demo_entry "cert" 0 10 1.
Definition demo_package : package :=
  Package (chars (cstr "sunxi-package")) (replicate 2 0) (replicate 16 0) (replicate 28 0) [demo_cert; demo_uboot]
    (replicate (Z.to_nat 224) 9 ++ demo_img ++ le_bytes 4 48).
Definition demo_tasks : list task :=
  [Task demo_cert id [] [];
   Task demo_uboot (λ s, set_uboot_base s 0x42000000) demo_img [(0x40000000, 48); (0x42000000, 96)]].
Definition demo_mem : mem := write_bytes demo_free 0x41000000 (enc_package demo_package).

Lemma demo_entry_wf name o n t :
  is_cstr (chars (cstr name)) → (length (chars (cstr name)) <= 63)%nat → is_u32 o → is_u32 n → is_u32 t → wf_item (demo_entry name o n t).
Proof. intros. split; try done. cbn [demo_entry pi_name pi_pad]. rewrite length_app. cbn [length]. rewrite length_replicate. lia. Qed.

