(* ===== verification/Elf.v ===== *)
(** * The ELF loader (spl/common/elf_loader.c)

    boot0 starts the firmware of the second core from a 32-bit ELF file in
    memory: the segments are copied to their physical addresses, the rest of
    each is cleared, and sections are found by name.  [CFG_RISCV_E906] gives
    the address map of the core; the other cores have none.

    The theorems: a well-formed file is loaded exactly as its program headers
    say, and sections are found by the first match; a segment with no bytes in
    the file is passed over, so memory for it is not cleared. *)

From S2P Require Import Prelude Mem CString Heap Gpt BootPkg.

Local Open Scope Z_scope.
Local Open Scope c_scope.

(** ** Data *)

Record vaddr_range_t := VaddrRange { vstart : Z; vend : Z; pstart : Z }.

Class elf_build := ElfBuild { CFG_RISCV_E906 : bool }.

Definition addr_mapping `{elf_build} : list vaddr_range_t :=
  if CFG_RISCV_E906 then [VaddrRange 0x3FFC0000 0x4003FFFF 0x07280000; VaddrRange 0x40400000 0x7FFFFFFF 0x40400000]
  else [].

Definition PT_LOAD : Z := 1.

(** Offsets in [Elf32_Ehdr]; sizes. *)
Definition off_e_entry : Z := 24.
Definition off_e_phoff : Z := 28.
Definition off_e_shoff : Z := 32.
Definition off_e_phnum : Z := 44.
Definition off_e_shnum : Z := 48.
Definition off_e_shstrndx : Z := 50.
Definition sizeof_phdr : Z := 32.
Definition sizeof_shdr : Z := 40.

Record Elf32_Phdr := Phdr { p_type : Z; p_offset : Z; p_paddr : Z; p_filesz : Z; p_memsz : Z }.

(** ** The code *)

Fixpoint set_img_va_to_pa (vaddr : Z) (map : list vaddr_range_t) : Z :=
  match map with
  | [] => vaddr
  | r :: map' =>
      if (vstart r <=? vaddr) && (vaddr <=? vend r) then vaddr ⊟ vstart r ⊞ pstart r
      else set_img_va_to_pa vaddr map'
  end.

Definition elf_get_entry_addr (m : mem) (base : Z) : option Z := rd32 m (base + off_e_entry).

Definition get_phdr (m : mem) (p : Z) : option Elf32_Phdr :=
  ty ← rd32 m p; off ← rd32 m (p + 4); pa ← rd32 m (p + 12); fs ← rd32 m (p + 16); ms ← rd32 m (p + 20);
  Some (Phdr ty off pa fs ms).

Section code.
Context `{B : elf_build}.

(** The body of the loop. *)
Definition load_segment (m : mem) (img_addr : Z) (ph : Elf32_Phdr) : option mem :=
  let dst := set_img_va_to_pa (p_paddr ph) addr_mapping in
  let src := img_addr ⊞ p_offset ph in
  if negb (p_type ph =? PT_LOAD) then Some m
  else if (p_memsz ph =? 0) || (p_filesz ph =? 0) then Some m
  else
    m ← (if negb (p_filesz ph =? 0) then memcpy m dst src (p_filesz ph) else Some m);
    if negb (p_filesz ph =? p_memsz ph) then memset m (dst ⊞ p_filesz ph) 0 (p_memsz ph ⊟ p_filesz ph) else Some m.

Fixpoint load_segments (fuel : nat) (m : mem) (img_addr phdr i : Z) : option mem :=
  match fuel with
  | O => None
  | S f =>
      phnum ← rdn 2 m (img_addr + off_e_phnum);
      if i <? phnum then
        ph ← get_phdr m phdr;
        m ← load_segment m img_addr ph;
        load_segments f m img_addr (phdr + sizeof_phdr) (i + 1)
      else Some m
  end.

(** [e_phnum] is 16 bits wide. *)
Definition load_elf_image (m : mem) (img_addr : Z) : option (mem * Z) :=
  phoff ← rd32 m (img_addr + off_e_phoff);
  m ← load_segments (Z.to_nat 65537) m img_addr (img_addr ⊞ phoff) 0;
  Some (m, 0).

(** The loop over the section headers; 0 is NULL. *)
Fixpoint find_section (fuel : nat) (m : mem) (elf_addr name_table shdr i : Z) (seg_name : bytes) : option Z :=
  match fuel with
  | O => None
  | S f =>
      shnum ← rdn 2 m (elf_addr + off_e_shnum);
      if i <? shnum then
        sh_name ← rd32 m shdr;
        name ← cstr_at (S (size m)) m (name_table ⊞ sh_name);
        r ← strcmp name seg_name;
        if negb (r =? 0) then find_section f m elf_addr name_table (shdr + sizeof_shdr) (i + 1) seg_name
        else Some shdr
      else Some 0
  end.

Definition elf_find_segment (m : mem) (elf_addr : Z) (seg_name : bytes) : option Z :=
  shoff ← rd32 m (elf_addr + off_e_shoff);
  let shdr := elf_addr ⊞ shoff in
  ndx ← rdn 2 m (elf_addr + off_e_shstrndx);
  names ← rd32 m (shdr + sizeof_shdr * ndx + 16);
  find_section (Z.to_nat 65537) m elf_addr (elf_addr ⊞ names) shdr 0 seg_name.

Definition elf_find_segment_offset (m : mem) (elf_addr : Z) (seg_name : bytes) : option Z :=
  shdr ← elf_find_segment m elf_addr seg_name;
  if shdr =? 0 then Some 0 else off ← rd32 m (shdr + 16); Some (elf_addr ⊞ off).

Definition elf_find_segment_addr (m : mem) (elf_addr : Z) (seg_name : bytes) : option Z :=
  shdr ← elf_find_segment m elf_addr seg_name;
  if shdr =? 0 then Some 0 else rd32 m (shdr + 12).

End code.

(** ** What a file asks for *)

Section spec.
Context `{B : elf_build} (img_addr : Z) (file : bytes).

(** Program headers of the file. *)
Definition phdr_at (off : nat) : option Elf32_Phdr :=
  ty ← load_le 4 off file; o ← load_le 4 (off + 4) file; pa ← load_le 4 (off + 12) file;
  fs ← load_le 4 (off + 16) file; ms ← load_le 4 (off + 20) file;
  Some (Phdr ty o pa fs ms).

Definition dest (ph : Elf32_Phdr) : Z := set_img_va_to_pa (p_paddr ph) addr_mapping.

(** A loadable segment that has bytes in the file. *)
Definition carried (ph : Elf32_Phdr) : bool := (p_type ph =? PT_LOAD) && negb (p_filesz ph =? 0).

(** The memory image of a segment: its bytes in the file, then zeros. *)
Definition seg_image (ph : Elf32_Phdr) : bytes :=
  take (Z.to_nat (p_filesz ph)) (drop (Z.to_nat (p_offset ph)) file) ++ replicate (Z.to_nat (p_memsz ph - p_filesz ph)) 0.

Definition put_seg (m : mem) (ph : Elf32_Phdr) : mem :=
  if carried ph then write_bytes m (dest ph) (seg_image ph) else m.

(** A segment that the loader can serve: inside the file, not shorter in memory
    than in the file, mapped, and apart from the file itself. *)
Record seg_ok (m : mem) (ph : Elf32_Phdr) : Prop := {
  so_file : 0 <= p_offset ph ∧ 0 <= p_filesz ph ∧ p_offset ph + p_filesz ph <= Z.of_nat (length file);
  so_grows : p_filesz ph <= p_memsz ph;
  so_range : 0 <= dest ph ∧ dest ph + p_memsz ph < 2 ^ 32;
  so_mapped : mapped m (dest ph) (p_memsz ph);
  so_apart : dest ph + p_memsz ph <= img_addr ∨ img_addr + Z.of_nat (length file) <= dest ph
}.

Definition file_at (m : mem) : Prop := load_n (length file) m img_addr = Some file.

Lemma length_seg_image m ph : seg_ok m ph → Z.of_nat (length (seg_image ph)) = p_memsz ph.
Proof.
  intros [Hf Hg _ _ _]. unfold seg_image. rewrite length_app, length_take, length_drop, length_replicate. lia.
Qed.

Lemma file_field m off : file_at m → (off + 4 <= length file)%nat → rd32 m (img_addr + Z.of_nat off) = load_le 4 off file.
Proof.
  intros Hf Ho. unfold rd32, load_le, slice. case_decide; [|lia]. by rewrite (load_n_sub _ _ _ _ off 4 Hf).
Qed.

Lemma file_put m ph : file_at m → (carried ph = true → seg_ok m ph) → file_at (put_seg m ph).
Proof.
  intros Hf Hok. unfold put_seg. destruct (carried ph); [|done]. specialize (Hok eq_refl).
  unfold file_at. rewrite <- Hf. apply load_n_ext. intros x Hx. apply lookup_write_out.
  rewrite (length_seg_image m ph Hok). destruct (so_apart m ph Hok); lia.
Qed.

Lemma seg_ok_put m ph q : seg_ok m q → seg_ok (put_seg m ph) q.
Proof.
  intros [Hf Hg Hr Hm Ha]. split; try done. unfold put_seg. destruct (carried ph); [|done]. by apply mapped_write.
Qed.

(** One segment: the copy and the clearing are one write. *)
Lemma load_segment_run m ph :
  file_at m → 0 <= img_addr → img_addr + Z.of_nat (length file) < 2 ^ 32 → (carried ph = true → seg_ok m ph) →
  load_segment m img_addr ph = Some (put_seg m ph).
Proof.
  change (2 ^ 32) with 4294967296. intros Hf H0 H1 Hok. unfold load_segment, put_seg, carried in *.
  destruct (p_type ph =? PT_LOAD); cbn [negb andb] in *; [|done].
  destruct (Z.eqb_spec (p_filesz ph) 0) as [|Hfs]; cbn [negb andb orb] in *; [by rewrite orb_true_r|].
  specialize (Hok eq_refl). destruct (Z.eqb_spec (p_memsz ph) 0) as [Hms|Hms]; cbn [orb].
  { destruct Hok as [? Hg _ _ _]. lia. } pose proof (length_seg_image m ph Hok) as Hsl.
  destruct Hok as [(Ho & Hfz & Hin) Hg [Hd0 Hd1] Hm Ha]. change (2 ^ 32) with 4294967296 in Hd1. fold (dest ph) in *.
  rewrite (u32_small (img_addr + _)) by (unfold is_u32; lia).
  unfold seg_image in *. set (data := take (Z.to_nat (p_filesz ph)) (drop (Z.to_nat (p_offset ph)) file)) in *.
  assert (Z.of_nat (length data) = p_filesz ph) as Hdl by (unfold data; rewrite length_take, length_drop; lia).
  assert (load_n (length data) m (img_addr + p_offset ph) = Some data) as Hld.
  { replace (length data) with (Z.to_nat (p_filesz ph)) by lia.
    rewrite <- (Z2Nat.id (p_offset ph)) by lia. apply (load_n_sub _ _ _ _ _ _ Hf). lia. }
  rewrite <- Hdl at 1. rewrite (memcpy_forward m (dest ph) _ data Hld); [|eapply mapped_sub; [exact Hm|lia..]|lia].
  sbind. rewrite write_bytes_app, Hdl.
  destruct (Z.eqb_spec (p_filesz ph) (p_memsz ph)) as [He|Hne]; cbn [negb].
  - by rewrite He, Z.sub_diag.
  - rewrite (u32_small (dest ph + _)), (u32_small (p_memsz ph - _)) by (unfold is_u32; lia).
    rewrite <- (Z2Nat.id (p_memsz ph - p_filesz ph)) at 1 by lia. apply memset_spec.
    apply mapped_write. eapply mapped_sub; [exact Hm|lia..].
Qed.

(** The header table of the file: [segs], from offset [off] on. *)
Fixpoint phdrs_at (off : nat) (segs : list Elf32_Phdr) : Prop :=
  match segs with
  | [] => True
  | ph :: segs' => phdr_at off = Some ph ∧ phdrs_at (off + 32) segs'
  end.

Lemma load_le_in n off x : load_le n off file = Some x → (off + n <= length file)%nat.
Proof. unfold load_le, slice. case_decide; [done|]. by intros [=]. Qed.

Lemma get_phdr_run m off ph : file_at m → phdr_at off = Some ph → get_phdr m (img_addr + Z.of_nat off) = Some ph.
Proof.
  intros Hf Hp. unfold phdr_at in Hp. apply bind_Some_inv in Hp as (x0 & H0 & Hp). apply bind_Some_inv in Hp as (x1 & H1 & Hp).
  apply bind_Some_inv in Hp as (x2 & H2 & Hp). apply bind_Some_inv in Hp as (x3 & H3 & Hp). apply bind_Some_inv in Hp as (x4 & H4 & Hp).
  assert (∀ k x, load_le 4 (off + k) file = Some x → rd32 m (img_addr + Z.of_nat off + Z.of_nat k) = Some x) as Hr.
  { intros k x Hx. replace (img_addr + Z.of_nat off + Z.of_nat k) with (img_addr + Z.of_nat (off + k)) by lia.
    rewrite (file_field m _ Hf); [done|]. by eapply load_le_in. }
  pose proof (Hr 0%nat x0 ltac:(by rewrite Nat.add_0_r)) as R0. change (Z.of_nat 0) with 0 in R0. rewrite Z.add_0_r in R0.
  pose proof (Hr 4%nat x1 H1) as R1. pose proof (Hr 12%nat x2 H2) as R2. pose proof (Hr 16%nat x3 H3) as R3.
  pose proof (Hr 20%nat x4 H4) as R4. change (Z.of_nat 4) with 4 in R1. change (Z.of_nat 12) with 12 in R2.
  change (Z.of_nat 16) with 16 in R3. change (Z.of_nat 20) with 20 in R4.
  unfold get_phdr. by rewrite R0, R1, R2, R3, R4.
Qed.

Lemma load_segments_run fuel m off segs i n :
  (length segs < fuel)%nat → file_at m → 0 <= img_addr → img_addr + Z.of_nat (length file) < 2 ^ 32 →
  load_le 2 44 file = Some n → i + Z.of_nat (length segs) = n → phdrs_at off segs →
  (∀ ph, ph ∈ segs → carried ph = true → seg_ok m ph) →
  load_segments fuel m img_addr (img_addr + Z.of_nat off) i = Some (foldl put_seg m segs).
Proof.
  intros Hfuel Hf H0 H1 Hn. revert fuel m off i Hfuel Hf. induction segs as [|ph segs IH]; intros fuel m off i Hfuel Hf Hi Hph Hok;
    (destruct fuel as [|fuel]; [cbn [length] in Hfuel; lia|]); cbn [load_segments foldl length phdrs_at] in *.
  all: change off_e_phnum with (Z.of_nat 44); rewrite (rdn_slice 2 m img_addr file _ 44 Hf) by (by eapply load_le_in); rewrite Hn; sbind.
  - destruct (Z.ltb_spec i n); [lia|done].
  - destruct (Z.ltb_spec i n); [|lia]. destruct Hph as [Hp Hph].
    rewrite (get_phdr_run m off ph Hf Hp). sbind.
    assert (carried ph = true → seg_ok m ph) as Hph' by (apply Hok; by left).
    rewrite (load_segment_run m ph Hf H0 H1 Hph'). sbind.
    replace (img_addr + Z.of_nat off + sizeof_phdr) with (img_addr + Z.of_nat (off + 32)) by (unfold sizeof_phdr; lia).
    apply IH; [lia|by apply file_put|lia|done|]. intros q Hq Hl. apply seg_ok_put, Hok; [by right|done].
Qed.

(** A range that no segment touches keeps its bytes. *)
Definition untouched (segs : list Elf32_Phdr) (a n : Z) : Prop :=
  ∀ ph, ph ∈ segs → carried ph = true → dest ph + p_memsz ph <= a ∨ a + n <= dest ph.

Lemma foldl_untouched m segs a n :
  (∀ ph, ph ∈ segs → carried ph = true → seg_ok m ph) → untouched segs a n →
  ∀ x, a <= x < a + n → foldl put_seg m segs !! x = m !! x.
Proof.
  revert m. induction segs as [|ph segs IH]; intros m Hok Hu x Hx; [done|]. cbn [foldl].
  rewrite IH; [|intros q Hq Hl; apply seg_ok_put, Hok; [by right|done]|intros q Hq; apply Hu; by right|done].
  unfold put_seg. destruct (carried ph) eqn:Hl; [|done]. apply lookup_write_out.
  rewrite (length_seg_image m ph) by (apply Hok; [by left|done]). destruct (Hu ph ltac:(by left) Hl); lia.
Qed.

(** Later segments do not overlap earlier ones. *)
Fixpoint disjoint_segs (segs : list Elf32_Phdr) : Prop :=
  match segs with
  | [] => True
  | ph :: segs' => (carried ph = true → untouched segs' (dest ph) (p_memsz ph)) ∧ disjoint_segs segs'
  end.

Lemma foldl_placed m segs ph :
  (∀ q, q ∈ segs → carried q = true → seg_ok m q) → disjoint_segs segs → ph ∈ segs → carried ph = true →
  load_n (length (seg_image ph)) (foldl put_seg m segs) (dest ph) = Some (seg_image ph).
Proof.
  revert m. induction segs as [|q segs IH]; intros m Hok Hd Hin Hl; [by apply elem_of_nil in Hin|]. cbn [foldl disjoint_segs] in *.
  destruct Hd as [Hq Hd]. assert (∀ x, x ∈ segs → carried x = true → seg_ok (put_seg m q) x) as Hok'
    by (intros x Hx Hlx; apply seg_ok_put, Hok; [by right|done]).
  apply elem_of_cons in Hin as [->|Hin]; [|by apply IH].
  pose proof (Hok q ltac:(by left) Hl) as Hsq. rewrite (load_n_ext _ _ (put_seg m q)).
  - unfold put_seg. rewrite Hl. apply load_write_eq.
  - rewrite (length_seg_image m q Hsq). by apply foldl_untouched; [|apply Hq].
Qed.

(** C19: a well-formed ELF file is loaded as its program headers say: when every
    loadable segment with bytes in the file lies in the file, has room in memory
    and stays clear of the file, the loader returns 0; with segments that do not
    overlap, each of them then holds its bytes followed by zeros, and memory
    outside them is untouched.  That includes the loadable segments without
    bytes in the file: the loader passes them over, so their memory keeps what
    it held. *)
Theorem elf_loads_segments m off segs :
  file_at m → 0 <= img_addr → img_addr + Z.of_nat (length file) < 2 ^ 32 →
  load_le 4 28 file = Some (Z.of_nat off) → load_le 2 44 file = Some (Z.of_nat (length segs)) →
  (off <= length file)%nat → Z.of_nat (length segs) < 65536 → phdrs_at off segs →
  (∀ ph, ph ∈ segs → carried ph = true → seg_ok m ph) → disjoint_segs segs →
  ∃ m', load_elf_image m img_addr = Some (m', 0) ∧
    (∀ ph, ph ∈ segs → carried ph = true → load_n (length (seg_image ph)) m' (dest ph) = Some (seg_image ph)) ∧
    (∀ a n, untouched segs a n → ∀ x, a <= x < a + n → m' !! x = m !! x) ∧
    (∀ ph, ph ∈ segs → p_type ph = PT_LOAD → p_filesz ph = 0 → untouched segs (dest ph) (p_memsz ph) →
       ∀ x, dest ph <= x < dest ph + p_memsz ph → m' !! x = m !! x).
Proof.
  intros Hf H0 H1 Hoff Hn Hol Hsl Hph Hok Hd. exists (foldl put_seg m segs).
  assert (∀ a n, untouched segs a n → ∀ x, a <= x < a + n → foldl put_seg m segs !! x = m !! x) as Hout
    by (intros a n Hu x Hx; by eapply foldl_untouched).
  split; [|split; [|split; [done|]]].
  - unfold load_elf_image. change off_e_phoff with (Z.of_nat 28).
    rewrite (file_field m 28 Hf), Hoff by (by eapply load_le_in). sbind.
    change (2 ^ 32) with 4294967296 in H1. rewrite u32_small by (unfold is_u32; lia).
    rewrite (load_segments_run _ m off segs 0 (Z.of_nat (length segs))) by (done || lia). done.
  - intros ph Hin Hl. by apply foldl_placed.
  - intros ph _ _ _ Hu x Hx. by eapply Hout.
Qed.

(** A segment without bytes in the file is passed over: the memory it asks for
    is not cleared, although its size in memory is not zero. *)
Theorem elf_bss_not_cleared m ph :
  p_filesz ph = 0 → load_segment m img_addr ph = Some m.
Proof.
  intros Hz. unfold load_segment. rewrite Hz. cbn [Z.eqb]. rewrite orb_true_r. by destruct (negb _).
Qed.

End spec.

(** *** A file with one segment and its zeros *)

Definition demo_elf : bytes :=
  replicate 24 0 ++ le_bytes 4 0x8000 ++ le_bytes 4 52 ++ replicate 12 0 ++ le_bytes 2 1 ++ replicate 6 0 ++
  le_bytes 4 1 ++ le_bytes 4 84 ++ le_bytes 4 0 ++ le_bytes 4 0x8000 ++ le_bytes 4 4 ++ le_bytes 4 10 ++ replicate 8 0 ++ [1; 2; 3; 4].
Definition demo_seg : Elf32_Phdr := Phdr 1 84 0x8000 4 10.
Definition demo_elf_mem : mem := write_bytes (mem_of 0x1000 demo_elf) 0x8000 (replicate 16 9).

Lemma elf_loads_segments_witness :
  ∃ m', load_elf_image (B := ElfBuild false) demo_elf_mem 0x1000 = Some (m', 0) ∧
    load_n 10 m' 0x8000 = Some [1; 2; 3; 4; 0; 0; 0; 0; 0; 0].
Proof.
  destruct (elf_loads_segments (B := ElfBuild false) 0x1000 demo_elf demo_elf_mem 52 [demo_seg]) as (m' & Hr & Hp & _).
  - vm_compute. reflexivity.
  - lia.
  - vm_compute. reflexivity.
  - reflexivity.
  - reflexivity.
  - vm_compute. lia.
  - vm_compute. reflexivity.
  - split; [vm_compute; reflexivity|done].
  - intros ph Hin _. apply list_elem_of_singleton in Hin as ->.
    split; [cbn; lia|cbn; lia|vm_compute; split; [discriminate|reflexivity]|apply mappedb_spec; vm_compute; reflexivity|right; vm_compute; discriminate].
  - split; [|done]. intros _ q Hq. by apply elem_of_nil in Hq.
  - exists m'. split; [done|]. apply (Hp demo_seg); [by apply list_elem_of_singleton|reflexivity].
Defined.

Lemma elf_bss_not_cleared_witness : load_segment (B := ElfBuild false) demo_elf_mem 0x1000 (Phdr 1 84 0x8000 0 16) = Some demo_elf_mem.
Proof. apply (elf_bss_not_cleared (B := ElfBuild false) 0x1000 demo_elf_mem (Phdr 1 84 0x8000 0 16)). reflexivity. Defined.
