(* ===== verification/Boot0.v ===== *)
(** * The boot stage itself (spl/nboot/main/boot0_main.c)

    [main] brings the board up, loads the boot package through the storage that
    the build has, unpacks it, tells U-Boot what it needs to know and jumps; on
    every error it returns to the FEL code of the boot ROM.  The storage is the
    class [boot_storage]; card, SPI NOR and SPI NAND are its instances, with
    [load_package], [flash_init] and [update_flash_para] of their loaders.  The
    board's hardware is the class [board].  Left out are the build options
    that only record times or touch the RTC's general registers.

    The theorems: nothing but FEL is started unless the board came up and the
    storage delivered a package whose checksum is right, for every storage that
    checks its packages, as card and SPI NAND do; U-Boot's header ends up with
    the values that the boot found and is otherwise unchanged. *)

From S2P Require Import Prelude Mem CString Printf Checksum Heap Gpt Env BootImage SdMmc BootPkg Spinand BootParam LoadImage.

Local Open Scope Z_scope.
Local Open Scope c_scope.

(** ** Data *)

Definition STORAGE_NAND : Z := 0.
Definition STORAGE_SD : Z := 1.
Definition STORAGE_EMMC : Z := 2.
Definition STORAGE_NOR : Z := 3.
Definition STORAGE_EMMC3 : Z := 4.
Definition STORAGE_SPI_NAND : Z := 5.
Definition SUNXI_DTB_OFFSET : Z := Z.shiftl 2 20.
Definition SUNXI_BOOTPARAM_OFFSET : Z := SUNXI_DTB_OFFSET - 4096.
Definition UBOOT_FUNC_MASK_ALL : Z := 0xFF.
Definition SDMMC_PARAMETER_MAGIC : Z := 0x6D6D6361.

(** Offsets in [uboot_head_t]: [boot_data] begins at 48. *)
Definition off_dram_para : nat := 48.
Definition off_uart_port : nat := 184.
Definition off_uart_gpio : nat := 188.
Definition off_work_mode : nat := 224.
Definition off_storage_type : nat := 228.
Definition off_sdcard_spare_data : nat := 1000.
Definition off_secureos_exist : nat := 1256.
Definition off_monitor_exist : nat := 1257.
Definition off_func_mask : nat := 1258.
Definition off_uboot_backup : nat := 1259.
Definition off_boot_package_size : nat := 1268.
Definition off_dram_scan_size : nat := 1272.
Definition off_pmu_type : nat := 1280.
Definition off_uart_input : nat := 1282.
Definition off_key_input : nat := 1284.
Definition off_debug_mode : nat := 1287.
Definition sizeof_boot_data_end : nat := 1296.

(** [struct spare_optee_head], [struct spare_monitor_head], and the region
    header and [boot_sdmmc_private_info_t] of the card driver. *)
Definition off_tee_dram_size : Z := 12.
Definition off_tee_drm_size : Z := 16.
Definition off_tee_uart_port : Z := 268.
Definition off_nboot_base : Z := 16.
Definition off_secureos_base : Z := 24.
Definition off_region_magic : Z := 20.
Definition off_region_info : Z := 48.
Definition sizeof_private_info : Z := 76.

(** Build options. *)
Class boot0_build := Boot0Build {
  CONFIG_HEAP_BASE : Z;
  CONFIG_HEAP_SIZE : Z;
  CFG_SUNXI_SIMPLEBOOT : bool;
  CFG_SUNXI_BOOT_PARAM : bool;
  CFG_ARCH_RISCV : bool;
  CONFIG_RISCV : bool
}.

(** Fields of [BT0_head] in use, and where [prvt_head.uart_ctrl] lies. *)
Class boot0_fields := Boot0Fields {
  head_debug_mode : Z;
  head_uart_port : Z;
  head_dram_size : Z;
  head_secure_dram_mbytes : Z;
  head_uart_ctrl : Z
}.

(** The board: status of its initialisation, the update key where the build
    has one (with the key's code), the character typed before and after DRAM
    is up, DRAM training (it may change the parameters in memory), the late
    initialisation and the start of the second core. *)
Class board := Board {
  sunxi_board_init : Z;
  check_update_key : option (Z * Z);
  uart_early : Z;
  uart_late : Z;
  init_DRAM : mem → Z → option (mem * Z);
  sunxi_board_late_init : Z;
  load_and_run_fastboot : image_state → mem → option (mem * Z)
}.

(** A storage: its state, the parameter region, [flash_init],
    [load_package(&uboot_base)], [update_flash_para] and [uboot_backup]. *)
Class boot_storage (S : Type) := BootStorage {
  storage_bootparam : S → mem → option (mem * S);
  flash_init : S → option (S * Z);
  load_package : S → image_state → mem → option (mem * S * image_state * Z);
  update_flash_para : S → mem → Z → option mem;
  uboot_backup : S → Z
}.

Record boot_state (S : Type) := BootState {
  bs_mem : mem;
  bs_fel_flag : bool;
  bs_printf : printf_state;
  bs_image : image_state;
  bs_store : S
}.
Arguments BootState {S}.
Arguments bs_mem {S}.
Arguments bs_fel_flag {S}.
Arguments bs_printf {S}.
Arguments bs_image {S}.
Arguments bs_store {S}.

(** Where boot0 ends: [boot0_jmp_opensbi_v1x(0, dtb, opensbi, uboot)],
    [boot0_jmp_monitor], [boot0_jmp_optee], [boot0_jmp], or [boot0_jmp] to
    [FEL_BASE] after [boot0_clear_env]. *)
Inductive target :=
  JumpOpensbi (dtb opensbi uboot : Z) | JumpMonitor (monitor : Z) | JumpOptee (optee uboot : Z) | JumpTo (addr : Z) | JumpFel.

#[global] Instance target_eq_dec : EqDecision target.
Proof. solve_decision. Defined.

(** ** Writing fields *)

Definition wrn (n : nat) (m : mem) (a v : Z) : option mem := store_n m a (le_bytes n v).

(** ** The storages *)

Section storages.
Context `{H : mmc_host} `{P : pkg_build} `{B : flashmap_build} `{M : boot_medium} `{V : bp_env}.

(** The address of [mmc_arg_addr], the card's parameter region. *)
Context (mmc_arg_addr : Z).

Definition set_mmc_para (m : mem) (uboot : Z) : option mem :=
  magic ← rd32 m (mmc_arg_addr + off_region_magic);
  if negb (magic =? SDMMC_PARAMETER_MAGIC) then Some m
  else memcpy m (uboot + Z.of_nat off_sdcard_spare_data) (mmc_arg_addr + off_region_info) sizeof_private_info.

(** Other chips than sun50iw11. *)
Definition sdmmc_update_flash_para (h : boot0_head) (m : mem) (uboot : Z) : option mem :=
  let card_num := get_card_num h in
  m ← set_mmc_para m uboot;
  if card_num =? 0 then wrn 4 m (uboot + Z.of_nat off_storage_type) STORAGE_SD
  else if card_num =? 2 then wrn 4 m (uboot + Z.of_nat off_storage_type) STORAGE_EMMC
  else if card_num =? 3 then wrn 4 m (uboot + Z.of_nat off_storage_type) STORAGE_EMMC3
  else Some m.

(** The build without OTA and without separate U-Boot partitions. *)
Definition sdmmc_load_package (h : boot0_head) (st : mmc_state) (s : image_state) (m : mem) :
    option (mem * mmc_state * image_state * Z) :=
  '(m, st, r) ← load_toc1_from_sdmmc h st m; Some (m, st, s, r).

Definition sdmmc_storage (h : boot0_head) : boot_storage mmc_state := {|
  storage_bootparam := λ st m, '(m, st, _, _) ← sunxi_bootparam_load BP_MMC h st m; Some (m, st);
  flash_init := sdmmc_flash_init h;
  load_package := sdmmc_load_package h;
  update_flash_para := λ _, sdmmc_update_flash_para h;
  uboot_backup := λ _, 0
|}.

Context `{N : spinor_chip}.

Definition spinor_update_flash_para (m : mem) (uboot : Z) : option mem :=
  wrn 4 m (uboot + Z.of_nat off_storage_type) STORAGE_NOR.

Definition spinor_load_package (h : boot0_head) (flash_inited : Z) (s : image_state) (m : mem) :
    option (mem * Z * image_state * Z) :=
  '(m, flash_inited, r) ← load_toc1_from_spinor h flash_inited m; Some (m, flash_inited, s, r).

(** The state is [flash_inited]. *)
Definition spinor_storage (h : boot0_head) : boot_storage Z := {|
  storage_bootparam := λ st m, '(m, _, _, _) ← sunxi_bootparam_load BP_NONE h (MmcState 0 [] false) m; Some (m, st);
  flash_init := λ st, Some (spinor_flash_init st);
  load_package := spinor_load_package h;
  update_flash_para := λ _, spinor_update_flash_para;
  uboot_backup := λ _, 0
|}.

Context `{G : nand_geometry} `{C : nand_chip} (fuel : nat).

Definition nand_update_flash_para (h : boot0_head) (m : mem) (uboot : Z) : option mem :=
  wrn 4 m (uboot + Z.of_nat off_storage_type)
    (if Z.land (platform0 h) 0xf =? 4 then STORAGE_SPI_NAND else STORAGE_NAND).

Definition nand_load_package (h : boot0_head) (backup : Z) (s : image_state) (m : mem) :
    option (mem * Z * image_state * Z) :=
  if Z.land (platform0 h) 0xf =? 4 then
    '(m, backup, r) ← load_toc1_from_spinand fuel m backup; Some (m, backup, s, r)
  else Some (m, backup, s, -1).

Definition nand_flash_init (h : boot0_head) (backup : Z) : option (Z * Z) :=
  if (Z.land (platform0 h) 0xf =? 4) && negb (SpiNand_PhyInit =? 0) then Some (backup, -1) else Some (backup, 0).

(** The state is [uboot_backup]. *)
Definition nand_storage (offset : Z) (h : boot0_head) : boot_storage Z := {|
  storage_bootparam := λ st m, '(m, _, _, _) ← sunxi_bootparam_load (BP_SPINAND offset) h (MmcState 0 [] false) m; Some (m, st);
  flash_init := nand_flash_init h;
  load_package := nand_load_package h;
  update_flash_para := λ _, nand_update_flash_para h;
  uboot_backup := λ st, st
|}.

(** Which parameters the NAND driver takes: those of the head as long as the
    region is not sealed. *)
Definition BOOT_NandGetPara (boot_param : bool) (h : boot0_head) (storage_data : Z) (m : mem) (param size : Z) : option (mem * Z) :=
  m ← (if boot_param then
         check_sum ← rd32 m (sunxi_boot_param + off_check_sum);
         if check_sum =? 0 then memcpy m param storage_data size
         else if Z.land (platform0 h) 0xf =? 4 then memcpy m param (sunxi_boot_param + 512) size
         else memcpy m param (sunxi_boot_param + 256) size
       else memcpy m param storage_data size);
  Some (m, 0).

End storages.

(** ** update_uboot_info and main *)

Section code.
Context `{L : heap_layout} `{P : pkg_build} `{I : image_build} `{A : image_addrs} `{D : decompressors} `{V : bp_env}.
Context `{BB : boot0_build} `{HF : boot0_fields} `{BD : board} {S : Type} `{ST : boot_storage S}.

(** [sunxi_bootparam_get_dram_buf]. *)
Definition dram_buf : Z := if CFG_SUNXI_BOOT_PARAM then sunxi_boot_param + off_ddr_info else head_dram_para.

Definition update_uboot_info (pf : printf_state) (store : S) (s : image_state)
    (dram_size pmu_type uart_input key_input : Z) (m : mem) : option mem :=
  if negb (rtos_base s =? 0) then Some m
  else if uboot_base s =? 0 then Some m
  else
    let hd off := uboot_base s + Z.of_nat off in
    m ← (if CFG_SUNXI_BOOT_PARAM then
           '(m, _) ← sunxi_bootparam_format_and_transfer m (uboot_base s ⊞ SUNXI_BOOTPARAM_OFFSET); Some m
         else Some m);
    valid_len ← rd32 m (CONFIG_BOOTPKG_BASE + off_valid_len);
    m ← wrn 4 m (hd off_boot_package_size) valid_len;
    m ← wrn 4 m (hd off_dram_scan_size) dram_size;
    m ← memcpy m (hd off_dram_para) dram_buf 128;
    m ← (if negb (monitor_base s =? 0) then wrn 1 m (hd off_monitor_exist) 1 else Some m);
    m ← (if negb (optee_base s =? 0) then
           m ← wrn 1 m (hd off_secureos_exist) 1;
           m ← wrn 4 m (optee_base s + off_tee_dram_size) dram_size;
           m ← wrn 4 m (optee_base s + off_tee_drm_size) head_secure_dram_mbytes;
           wrn 1 m (optee_base s + off_tee_uart_port) head_uart_port
         else Some m);
    m ← (if CONFIG_RISCV then Some m
         else
           func_mask ← rdn 1 m (hd off_func_mask);
           wrn 1 m (hd off_func_mask) (Z.lor func_mask (get_uboot_func_mask (uboot_func_mask s) UBOOT_FUNC_MASK_ALL)));
    m ← update_flash_para store m (uboot_base s);
    m ← wrn 4 m (hd off_uart_port) head_uart_port;
    m ← memcpy m (hd off_uart_gpio) head_uart_ctrl 16;
    m ← wrn 2 m (hd off_pmu_type) pmu_type;
    m ← wrn 2 m (hd off_uart_input) uart_input;
    m ← wrn 2 m (hd off_key_input) key_input;
    m ← wrn 1 m (hd off_debug_mode) (sunxi_get_debug_mode_for_uboot pf);
    m ← (if negb (card_work_mode s =? NOUSE_CARDMODE) then wrn 4 m (hd off_work_mode) (card_work_mode s) else Some m);
    wrn 1 m (hd off_uboot_backup) (uboot_backup store).

(** The stages of [main]; [None] inside is [goto _BOOT_ERROR].  The first one
    gives the key's code. *)
Definition stage_board (b : boot_state S) : boot_state S * option Z :=
  let pf := (sunxi_set_printf_debug_mode (bs_printf b) head_debug_mode 0).1 in
  let b := BootState (bs_mem b) (bs_fel_flag b) pf (bs_image b) (bs_store b) in
  if negb (sunxi_board_init =? 0) then (b, None)
  else if bs_fel_flag b then (BootState (bs_mem b) false pf (bs_image b) (bs_store b), None)
  else
    match check_update_key with
    | Some (r, key_input) => if negb (r =? 0) then (b, None) else if uart_early =? 50 then (b, None) else (b, Some key_input)
    | None => if uart_early =? 50 then (b, None) else (b, Some 0)
    end.

(** The boot parameters and DRAM; gives the size. *)
Definition stage_dram (b : boot_state S) : option (boot_state S * option Z) :=
  '(m, store) ← (if CFG_SUNXI_BOOT_PARAM then storage_bootparam (bs_store b) (bs_mem b) else Some (bs_mem b, bs_store b));
  let mk m := BootState m (bs_fel_flag b) (bs_printf b) (bs_image b) store in
  if CFG_SUNXI_SIMPLEBOOT then Some (mk m, Some head_dram_size)
  else
    '(m, dram_size) ← init_DRAM m dram_buf;
    if dram_size =? 0 then Some (mk m, None)
    else Some (mk m, Some (if 0 <? head_dram_size then head_dram_size else dram_size)).

(** The character typed: '2' enters FEL, 'd' and 'q' set the debug level that
    U-Boot takes over. *)
Definition stage_input (b : boot_state S) : boot_state S * bool :=
  let set lvl to := BootState (bs_mem b) (bs_fel_flag b) (sunxi_set_printf_debug_mode (bs_printf b) lvl to).1 (bs_image b) (bs_store b) in
  if uart_late =? 50 then (set 3 0, false)
  else if uart_late =? 100 then (set 8 1, true)
  else if uart_late =? 113 then (set 0 1, true)
  else (b, true).

(** Heap, flash, board, package, images. *)
Definition stage_load (fuel : nat) (b : boot_state S) : option (boot_state S * bool) :=
  m ← malloc_init (bs_mem b) CONFIG_HEAP_BASE CONFIG_HEAP_SIZE;
  '(store, r) ← flash_init (bs_store b);
  let mk m s store := BootState m (bs_fel_flag b) (bs_printf b) s store in
  if negb (r =? 0) then Some (mk m (bs_image b) store, false)
  else if negb (sunxi_board_late_init =? 0) then Some (mk m (bs_image b) store, false)
  else
    '(m, store, s, status) ← load_package store (bs_image b) m;
    if negb (status =? 0) then Some (mk m s store, false)
    else '(m, s, _) ← load_image fuel s m; Some (mk m s store, true).

Definition jump (m : mem) (s : image_state) : option (mem * target) :=
  if CFG_ARCH_RISCV && negb (opensbi_base s =? 0) then Some (m, JumpOpensbi (dtb_base s) (opensbi_base s) (uboot_base s))
  else if negb (monitor_base s =? 0) then
    m ← wrn 4 m (monitor_base s + off_secureos_base) (optee_base s);
    m ← wrn 4 m (monitor_base s + off_nboot_base) (uboot_base s);
    Some (m, JumpMonitor (monitor_base s))
  else if negb (optee_base s =? 0) then Some (m, JumpOptee (optee_base s) (uboot_base s))
  else if negb (rtos_base s =? 0) then Some (m, JumpTo (rtos_base s))
  else Some (m, JumpTo (uboot_base s)).

(** The bases start at 0; [pmu_type] is always 0. *)
Definition main (fuel : nat) (b : boot_state S) : option (boot_state S * target) :=
  let '(b, key) := stage_board b in
  match key with
  | None => Some (b, JumpFel)
  | Some key_input =>
      '(b, size) ← stage_dram b;
      match size with
      | None => Some (b, JumpFel)
      | Some dram_size =>
          let '(b, ok) := stage_input b in
          if negb ok then Some (b, JumpFel)
          else
            '(b, ok) ← stage_load fuel b;
            if negb (ok : bool) then Some (b, JumpFel)
            else
              m ← update_uboot_info (bs_printf b) (bs_store b) (bs_image b) dram_size 0 uart_late key_input (bs_mem b);
              '(m, r) ← load_and_run_fastboot (bs_image b) m;
              let b := BootState m (bs_fel_flag b) (bs_printf b) (bs_image b) (bs_store b) in
              if negb (r =? 0) then Some (b, JumpFel)
              else
                '(m, t) ← jump m (bs_image b);
                Some (BootState m (bs_fel_flag b) (bs_printf b) (bs_image b) (bs_store b), t)
      end
  end.

End code.

(** ** What a storage promises *)

(** A storage that checks its packages: a success leaves a package with its
    magic, its length and a right checksum at the package address, on memory of
    bytes, and nothing is announced yet. *)
Class CheckedStorage `{P : pkg_build} (S : Type) `{ST : boot_storage S} : Prop := {
  bootparam_bytes st m m' st' : byte_mem m → storage_bootparam st m = Some (m', st') → byte_mem m';
  package_checked st s m m' st' s' :
    byte_mem m → load_package st s m = Some (m', st', s', 0) → s' = s ∧ package_sealed m' CONFIG_BOOTPKG_BASE
}.

Section media.
Context `{H : mmc_host} `{P : pkg_build} `{B : flashmap_build} `{M : boot_medium} `{V : bp_env}.
Context (Hcard : ∀ c s n, is_byte_list (mmc_xfer c s n).1) (Hmedium : ∀ s n, is_byte_list (medium_read s n).1).

Lemma byte_mem_wr32 m a v m' : byte_mem m → wr32 m a v = Some m' → byte_mem m'.
Proof. unfold wr32. intros Hm Hs. eauto with byte_mem. Qed.

Lemma byte_mem_read_into (X : boot_medium) m s n d m' ok :
  (∀ s n, is_byte_list (medium_read (boot_medium := X) s n).1) → byte_mem m → read_into (M := X) m s n d = Some (m', ok) → byte_mem m'.
Proof.
  intros Hb Hm Hr. unfold read_into in Hr. specialize (Hb s n). destruct (medium_read s n) as [bs k]. some_inv. simplify_eq.
  by eapply byte_mem_store.
Qed.

Lemma byte_mem_cpu_loop k h m s i buf m' : byte_mem m → cpu_read_loop k h m s i buf = Some m' → byte_mem m'.
Proof.
  revert m i. induction k as [|k IH]; intros m i Hm Hl; cbn [cpu_read_loop] in Hl; [by injection Hl as <-|].
  apply bind_Some_inv in Hl as ([m1 r] & Hr & Hl). eapply IH; [|exact Hl].
  unfold sunxi_mmc_cpu_read, mmc_bread in Hr. change (negb (1 =? 1)) with false in Hr. change (1 =? 0) with false in Hr. cbv iota in Hr.
  apply bind_Some_inv in Hr as ([m2 r2] & Hr & [= <- _]). apply bind_Some_inv in Hr as ([m3 ok] & Hr & [= <- _]).
  eapply (byte_mem_read_into (card_medium _)); [|exact Hm|exact Hr]. intros; apply Hcard.
Qed.

Lemma bootparam_load_bytes media h st m m' st' f r :
  byte_mem m → sunxi_bootparam_load media h st m = Some (m', st', f, r) → byte_mem m'.
Proof.
  unfold sunxi_bootparam_load. intros Hm Hl. apply bind_Some_inv in Hl as ([st1 e] & _ & Hl).
  apply bind_Some_inv in Hl as ([m1 e1] & Hr & Hl). apply bind_Some_inv in Hl as (lg & _ & Hl).
  apply bind_Some_inv in Hl as (m2 & Hd & Hl). injection Hl as <- _ _ _.
  assert (byte_mem m1) as Hm1.
  { unfold sunxi_bootparam_cpu_read in Hr. destruct media as [|offset|]; [| |by injection Hr as <- _].
    - apply bind_Some_inv in Hr as (m3 & Hr & [= <- _]). eapply byte_mem_cpu_loop; [|exact Hr]. done.
    - apply bind_Some_inv in Hr as ([m3 ok] & Hr & [= <- _]). eapply byte_mem_read_into; [| |exact Hr]; done. }
  destruct (lg <? 0); [|by injection Hd as <-].
  unfold bootparam_defaults, sunxi_bootparam_record_boot0_version in Hd.
  apply bind_Some_inv in Hd as (m3 & H3 & Hd). apply byte_mem_memset in H3; [|done].
  apply bind_Some_inv in Hd as (m4 & H4 & Hd). apply byte_mem_memcpy in H4; [|done].
  apply bind_Some_inv in Hd as (fl & _ & Hd). apply bind_Some_inv in Hd as (m5 & H5 & Hd). apply byte_mem_wr32 in H5; [|done].
  apply bind_Some_inv in Hd as (m6 & H6 & Hd). apply byte_mem_wr32 in Hd; [done|]. eapply byte_mem_store; [exact H5| |exact H6].
  repeat (apply Forall_cons; split; [done|]). by apply Forall_nil.
Qed.

(** *** Card and SPI NAND check, and SPI NOR does not *)

Lemma good_image_sealed m img (Hb : is_byte_list img) (H40 : (40 <= length img)%nat) (Hsp : (addsum_span (valid_len img) <= length img)%nat) :
  good_image img = true → load_n (length img) m CONFIG_BOOTPKG_BASE = Some img → package_sealed m CONFIG_BOOTPKG_BASE.
Proof.
  unfold good_image. intros Hg Hl. apply andb_true_iff in Hg as [Hg Hs]. apply andb_true_iff in Hg as [Hm H16]. apply Z.leb_le in H16.
  exists img, (valid_len img). unfold addsum_span in Hsp. split; [|split; [done|split; [done|intros _]]].
  - pose proof (Z.div_mod (valid_len img) 4 ltac:(lia)). pose proof (Z.mod_pos_bound (valid_len img) 4 ltac:(lia)). lia.
  - destruct (head_fields m img Hb H40 Hl) as (magic & Hr & He & Hv). rewrite Hm in He. apply Z.eqb_eq in He as ->. by split.
Qed.

#[export] Instance sdmmc_checked mmc_arg_addr h `{HW : !WholeSectors (M := card_medium (get_card_num h))} :
  CheckedStorage mmc_state (ST := sdmmc_storage mmc_arg_addr h).
Proof.
  split; cbn [storage_bootparam load_package sdmmc_storage].
  - intros st m m' st' Hm Hl. apply bind_Some_inv in Hl as ([[[m1 st1] f] r] & Hl & [= <- <-]). by eapply bootparam_load_bytes.
  - unfold sdmmc_load_package. intros st s m m' st' s' _ Hl. apply bind_Some_inv in Hl as ([[m1 st1] r] & Hl & [= <- <- <- ->]).
    split; [done|]. destruct (sdmmc_verified h _ _ _ _ Hl) as (sec & img & _ & _ & Hci & Hg & Hld).
    assert (has_magic img = true) as Hmg by (unfold good_image in Hg; destruct (has_magic img); done).
    destruct (copy_image_shape _ _ _ _ Hci Hmg) as (? & ? & ?). by apply (good_image_sealed _ img).
Qed.

(** SPI NAND: the header is read before the package is, so two reads of a
    page must agree. *)
#[export] Instance nand_checked `{G : nand_geometry} `{C : nand_chip} fuel offset h scts ppb
    (Hpages : ∀ a n, is_byte_list (page_xfer a n).1)
    (Hsame : ∀ a k n, 0 <= k <= n → (page_xfer a k).1 = take (Z.to_nat k) (page_xfer a n).1)
    (Hgeo : 0 < scts ∧ 0 < ppb ∧ SPN_PAGE_SIZE = 512 * scts ∧ SPN_BLOCK_SIZE = 512 * scts * ppb)
    (Hrange : 0 <= UBOOT_START_BLK_NUM ∧ UBOOT_LAST_BLK_NUM * SPN_BLOCK_SIZE < 2 ^ 32) (Hbase : 0 <= CONFIG_BOOTPKG_BASE) :
  CheckedStorage Z (ST := nand_storage fuel offset h).
Proof.
  split; cbn [storage_bootparam load_package nand_storage].
  - intros st m m' st' Hm Hl. apply bind_Some_inv in Hl as ([[[m1 st1] f] r] & Hl & [= <- <-]). by eapply bootparam_load_bytes.
  - unfold nand_load_package. intros st s m m' st' s' Hm Hl. destruct (_ =? 4); [|done].
    apply bind_Some_inv in Hl as ([[m1 b1] r] & Hl & [= <- <- <- ->]). split; [done|].
    destruct Hgeo as (? & ? & ? & ?), Hrange. by eapply (spinand_sealed Hpages Hsame scts ppb).
Qed.

End media.

(** ** What boot0 starts *)

Section safety.
Context `{L : heap_layout} `{P : pkg_build} `{I : image_build} `{A : image_addrs} `{D : decompressors} `{V : bp_env}.
Context `{BB : boot0_build} `{HF : boot0_fields} `{BD : board} {S : Type} `{ST : boot_storage S}.

(** The board let the boot go on: it came up, asked neither by flag, key nor
    console for FEL, and has memory. *)
Record board_up (b : boot_state S) : Prop := {
  up_init : sunxi_board_init = 0;
  up_flag : bs_fel_flag b = false;
  up_key : ∀ r key, check_update_key = Some (r, key) → r = 0;
  up_early : uart_early ≠ 50;
  up_late : uart_late ≠ 50;
  up_board : sunxi_board_late_init = 0
}.

Lemma stage_board_inv (b b1 : boot_state S) key :
  stage_board b = (b1, Some key) →
  sunxi_board_init = 0 ∧ bs_fel_flag b = false ∧ (∀ r k, check_update_key = Some (r, k) → r = 0) ∧ uart_early ≠ 50 ∧
  bs_mem b1 = bs_mem b ∧ bs_store b1 = bs_store b ∧ bs_image b1 = bs_image b.
Proof.
  unfold stage_board. destruct (Z.eqb_spec sunxi_board_init 0) as [H0|]; cbn [negb]; [|done].
  cbn [bs_fel_flag]. destruct (bs_fel_flag b); [done|]. destruct check_update_key as [[r k]|].
  - destruct (Z.eqb_spec r 0) as [->|]; cbn [negb]; [|done]. destruct (Z.eqb_spec uart_early 50); [done|].
    intros [= <- <-]. repeat split; try done. by intros r' k' [= <- _].
  - destruct (Z.eqb_spec uart_early 50); [done|]. intros [= <- <-]. by repeat split.
Qed.

Lemma stage_input_inv (b b1 : boot_state S) :
  stage_input b = (b1, true) → uart_late ≠ 50 ∧ bs_mem b1 = bs_mem b ∧ bs_store b1 = bs_store b ∧ bs_image b1 = bs_image b.
Proof.
  unfold stage_input. destruct (Z.eqb_spec uart_late 50); [done|]. repeat case_match; by intros [= <-].
Qed.

(** Which of the announced images is entered, and what it finds: OpenSBI where
    the build is for RISC-V, with the device tree and U-Boot; else the monitor,
    whose head holds the bases of OP-TEE and U-Boot; else OP-TEE, that goes on
    to U-Boot; else the RTOS; else U-Boot. *)
Inductive starts (s : image_state) (m : mem) : target → Prop :=
| starts_opensbi :
    CFG_ARCH_RISCV = true → opensbi_base s ≠ 0 → starts s m (JumpOpensbi (dtb_base s) (opensbi_base s) (uboot_base s))
| starts_monitor :
    CFG_ARCH_RISCV = false ∨ opensbi_base s = 0 → monitor_base s ≠ 0 →
    load_n 4 m (monitor_base s + 16) = Some (le_bytes 4 (uboot_base s)) →
    load_n 4 m (monitor_base s + 24) = Some (le_bytes 4 (optee_base s)) → starts s m (JumpMonitor (monitor_base s))
| starts_optee :
    CFG_ARCH_RISCV = false ∨ opensbi_base s = 0 → monitor_base s = 0 → optee_base s ≠ 0 →
    starts s m (JumpOptee (optee_base s) (uboot_base s))
| starts_rtos :
    CFG_ARCH_RISCV = false ∨ opensbi_base s = 0 → monitor_base s = 0 → optee_base s = 0 → rtos_base s ≠ 0 →
    starts s m (JumpTo (rtos_base s))
| starts_uboot :
    CFG_ARCH_RISCV = false ∨ opensbi_base s = 0 → monitor_base s = 0 → optee_base s = 0 → rtos_base s = 0 →
    starts s m (JumpTo (uboot_base s)).

Lemma load_le_written m a v w :
  let m' := write_bytes (write_bytes m (a + 24) (le_bytes 4 w)) (a + 16) (le_bytes 4 v) in
  load_n 4 m' (a + 16) = Some (le_bytes 4 v) ∧ load_n 4 m' (a + 24) = Some (le_bytes 4 w).
Proof.
  pose proof (length_le_bytes 4 v) as Hv. pose proof (length_le_bytes 4 w) as Hw.
  revert Hv Hw. generalize (le_bytes 4 v) (le_bytes 4 w). intros bv bw Hv Hw m'. split.
  - rewrite <- Hv at 1. apply load_write_eq.
  - rewrite <- (load_write_eq m (a + 24) bw). rewrite Hw. apply load_n_ext. intros x Hx. apply lookup_write_out. lia.
Qed.

Lemma jump_starts m s m' t : jump m s = Some (m', t) → starts s m' t.
Proof.
  unfold jump. intros Hj. destruct (CFG_ARCH_RISCV && negb (opensbi_base s =? 0)) eqn:Hsbi.
  { injection Hj as <- <-. apply andb_true_iff in Hsbi as [? Ho]. bool_to_prop. by apply starts_opensbi. }
  assert (CFG_ARCH_RISCV = false ∨ opensbi_base s = 0) as Hno by (apply andb_false_iff in Hsbi as [?|Ho]; [by left|right; bool_to_prop; lia]).
  destruct (Z.eqb_spec (monitor_base s) 0); cbn [negb] in Hj.
  - destruct (Z.eqb_spec (optee_base s) 0); cbn [negb] in Hj; [|injection Hj as <- <-; by apply starts_optee].
    destruct (Z.eqb_spec (rtos_base s) 0); injection Hj as <- <-; [by apply starts_uboot|by apply starts_rtos].
  - unfold wrn in Hj. apply bind_Some_inv in Hj as (m1 & H1%store_n_inv & Hj). apply bind_Some_inv in Hj as (m2 & H2%store_n_inv & Hj). subst.
    unfold off_nboot_base, off_secureos_base in Hj. destruct (load_le_written m (monitor_base s) (uboot_base s) (optee_base s)) as [Hu Ho].
    revert Hj Hu Ho. generalize (write_bytes (write_bytes m (monitor_base s + 24) (le_bytes 4 (optee_base s))) (monitor_base s + 16) (le_bytes 4 (uboot_base s))).
    intros m0 [= <- <-] Hu Ho. by apply starts_monitor.
Qed.

Context `{CS : !CheckedStorage S}.
Context (Hdram : ∀ m a m' r, byte_mem m → init_DRAM m a = Some (m', r) → byte_mem m').

Lemma stage_dram_bytes b b1 size : byte_mem (bs_mem b) → stage_dram b = Some (b1, size) → byte_mem (bs_mem b1).
Proof.
  unfold stage_dram. intros Hm Hs. apply bind_Some_inv in Hs as ([m st] & Hb & Hs).
  assert (byte_mem m) as Hm1 by (destruct CFG_SUNXI_BOOT_PARAM; [by eapply bootparam_bytes|by injection Hb as <- _]).
  destruct CFG_SUNXI_SIMPLEBOOT; [by injection Hs as <- _|]. apply bind_Some_inv in Hs as ([m2 r] & Hd & Hs).
  apply Hdram in Hd; [|done]. destruct (r =? 0); by injection Hs as <- _.
Qed.

Lemma malloc_init_bytes m a n m' : byte_mem m → malloc_init m a n = Some m' → byte_mem m'.
Proof.
  unfold malloc_init. intros Hm Hi. repeat (apply bind_Some_inv in Hi as (? & Hw & Hi); apply byte_mem_wr32 in Hw; [|done]; clear Hm; rename Hw into Hm).
  by eapply byte_mem_wr32.
Qed.

Lemma stage_load_inv fuel b b1 :
  byte_mem (bs_mem b) → stage_load fuel b = Some (b1, true) →
  sunxi_board_late_init = 0 ∧
  ∃ m r, package_sealed m CONFIG_BOOTPKG_BASE ∧ load_image fuel (bs_image b) m = Some (bs_mem b1, bs_image b1, r).
Proof.
  unfold stage_load. intros Hm Hl. apply bind_Some_inv in Hl as (m1 & Hi & Hl). apply malloc_init_bytes in Hi; [|done].
  apply bind_Some_inv in Hl as ([st r] & _ & Hl). destruct (negb (r =? 0)); [done|].
  destruct (Z.eqb_spec sunxi_board_late_init 0) as [H0|]; cbn [negb] in Hl; [|done].
  apply bind_Some_inv in Hl as ([[[m2 st2] s2] status] & Hp & Hl). destruct (Z.eqb_spec status 0) as [->|]; cbn [negb] in Hl; [|done].
  apply bind_Some_inv in Hl as ([[m3 s3] r3] & Hld & Hl). injection Hl as <-.
  destruct (package_checked _ _ _ _ _ _ Hi Hp) as [-> Hs]. split; [done|]. by exists m2, r3.
Qed.

Lemma stage_dram_image b b1 size : stage_dram b = Some (b1, size) → bs_image b1 = bs_image b.
Proof. unfold stage_dram. intros Hs. some_inv; by simplify_eq. Qed.

(** C1: boot0 starts nothing unchecked: whatever the board, the storage and the
    decompressors do, if boot0 ends anywhere but in FEL then the board came up
    and did not ask for FEL, the storage had put a package at the package
    address that has the magic and whose checksum over the length in its header
    is right, the images were unpacked from that very package, and what is
    entered is, of the images that this unpacking announced, the one that goes
    first, with the bases of the ones that it is to go on with. *)
Theorem boot0_starts_checked fuel b b' t :
  byte_mem (bs_mem b) → main fuel b = Some (b', t) → t ≠ JumpFel →
  board_up b ∧
  ∃ m m1 r, package_sealed m CONFIG_BOOTPKG_BASE ∧ load_image fuel (bs_image b) m = Some (m1, bs_image b', r) ∧
    starts (bs_image b') (bs_mem b') t.
Proof.
  intros Hm Hmain Ht. unfold main in Hmain. destruct (stage_board b) as [b1 key] eqn:H1. destruct key as [key|]; [|by injection Hmain as _ <-].
  destruct (stage_board_inv _ _ _ H1) as (Hu1 & Hu2 & Hu3 & Hu4 & Hm1 & _ & Hi1).
  apply bind_Some_inv in Hmain as ([b2 size] & H2 & Hmain). pose proof (stage_dram_image _ _ _ H2) as Hi2.
  apply stage_dram_bytes in H2; [|by rewrite Hm1].
  destruct size as [size|]; [|by injection Hmain as _ <-]. destruct (stage_input b2) as [b3 ok] eqn:H3. destruct ok; [|by injection Hmain as _ <-].
  destruct (stage_input_inv _ _ H3) as (Hu5 & Hm3 & _ & Hi3). cbn [negb] in Hmain.
  apply bind_Some_inv in Hmain as ([b4 ok] & H4 & Hmain). destruct ok; [|by injection Hmain as _ <-]. cbn [negb] in Hmain.
  apply stage_load_inv in H4 as (Hu6 & m & r & Hseal & Hld); [|by rewrite Hm3]. rewrite Hi3, Hi2, Hi1 in Hld.
  apply bind_Some_inv in Hmain as (m5 & _ & Hmain). apply bind_Some_inv in Hmain as ([m6 r6] & _ & Hmain).
  destruct (negb (r6 =? 0)); [by injection Hmain as _ <-|]. apply bind_Some_inv in Hmain as ([m7 t7] & Hj%jump_starts & Hmain).
  injection Hmain as <- <-. split; [by split|]. cbn [bs_image bs_mem] in *. by exists m, (bs_mem b4), r.
Qed.

End safety.

(** ** What U-Boot is told *)

(** One field of [n] bytes written into a header, or not: it holds the value or
    is unchanged, and so is everything else. *)
Definition put_of (c : bool) (off n : nat) (v p p' : bytes) : Prop :=
  take n (drop off p') = (if c then v else take n (drop off p)) ∧
  ∀ o k, (o + k <= off ∨ off + n <= o)%nat → take k (drop o p') = take k (drop o p).

(** What a storage promises about [update_flash_para]: its code as the storage
    type, the card data where it has some, and nothing else. *)
Class TellsStorage {S : Type} (ST : boot_storage S) := {
  storage_code : S → option Z;
  card_info : S → mem → option bytes;
  reads_card : S → Z → Prop;
  card_info_ext st m m' : (∀ x, reads_card st x → m' !! x = m !! x) → card_info st m' = card_info st m;
  para_ready : S → mem → Z → Prop;
  para_ready_mono st m m' ub : (∀ x, is_Some (m !! x) → is_Some (m' !! x)) → para_ready st m ub → para_ready st m' ub;
  flash_para_told st m ub p :
    para_ready st m ub → load_n sizeof_boot_data_end m ub = Some p →
    ∃ m' p', update_flash_para st m ub = Some m' ∧ load_n sizeof_boot_data_end m' ub = Some p' ∧
      (∀ x, x < ub ∨ ub + 1296 <= x → m' !! x = m !! x) ∧
      take 4 (drop off_storage_type p') = match storage_code st with Some c => le_bytes 4 c | None => take 4 (drop off_storage_type p) end ∧
      take 76 (drop off_sdcard_spare_data p') = match card_info st m with Some bs => bs | None => take 76 (drop off_sdcard_spare_data p) end ∧
      ∀ o k, (o + k <= off_storage_type ∨ off_storage_type + 4 <= o)%nat →
        (o + k <= off_sdcard_spare_data ∨ off_sdcard_spare_data + 76 <= o)%nat → take k (drop o p') = take k (drop o p)
}.

Section header.
Context (ub : Z).

Definition header_is (m : mem) (p : bytes) : Prop := load_n sizeof_boot_data_end m ub = Some p.

Lemma header_length m p : header_is m p → length p = 1296%nat.
Proof. apply load_n_length. Qed.

Lemma header_mapped m p : header_is m p → mapped m ub 1296.
Proof.
  intros Hl x Hx. pose proof (load_n_lookup _ _ _ _ (Z.to_nat (x - ub)) Hl ltac:(unfold sizeof_boot_data_end; lia)) as Hk.
  replace (ub + Z.of_nat (Z.to_nat (x - ub))) with x in Hk by lia. rewrite Hk.
  apply lookup_lt_is_Some. rewrite (header_length m p Hl). lia.
Qed.

Lemma header_splice m p off bs :
  header_is m p → (off + length bs <= 1296)%nat → header_is (write_bytes m (ub + Z.of_nat off) bs) (splice off bs p).
Proof. intros Hl Ho. by apply load_write_inside. Qed.

End header.

(** *** The storages *)

Lemma tell_type ub m p c :
  header_is ub m p →
  ∃ m' p', wrn 4 m (ub + Z.of_nat off_storage_type) c = Some m' ∧ header_is ub m' p' ∧
    (∀ x, x < ub ∨ ub + 1296 <= x → m' !! x = m !! x) ∧ take 4 (drop off_storage_type p') = le_bytes 4 c ∧
    ∀ o k, (o + k <= off_storage_type ∨ off_storage_type + 4 <= o)%nat → take k (drop o p') = take k (drop o p).
Proof.
  intros Hh. pose proof (header_length ub m p Hh) as Hl. pose proof (header_mapped ub m p Hh) as Hm.
  pose proof (length_le_bytes 4 c) as Hc. unfold off_storage_type in *.
  exists (write_bytes m (ub + Z.of_nat 228) (le_bytes 4 c)), (splice 228 (le_bytes 4 c) p). split; [|split; [|split; [|split]]].
  - unfold wrn. apply store_n_spec. eapply mapped_sub; [exact Hm|lia..].
  - apply header_splice; [done|lia].
  - intros x Hx. apply lookup_write_out. lia.
  - pose proof (splice_eq 228 (le_bytes 4 c) p) as He. rewrite Hc in He. apply He. lia.
  - intros o k Ho. apply splice_ne; lia.
Qed.

Section tells.
Context `{H : mmc_host} `{P : pkg_build} `{B : flashmap_build} `{M : boot_medium} `{V : bp_env}.

(** The card's parameter region is mapped and apart from the header. *)
Definition card_para_ready (arg : Z) (m : mem) (ub : Z) : Prop :=
  mapped m arg 124 ∧ (ub + 1296 <= arg ∨ arg + 124 <= ub).

Lemma boot_mapped_load m a n : mapped m a (Z.of_nat n) → ∃ bs, load_n n m a = Some bs.
Proof.
  revert a. induction n as [|n IH]; intros a Hm; [by exists []|]. cbn [load_n].
  destruct (Hm a ltac:(lia)) as [x ->]. destruct (IH (a + 1)) as [bs ->]; [intros y Hy; apply Hm; lia|]. by eexists.
Qed.

Lemma mapped_mono m m' a n : (∀ x, is_Some (m !! x) → is_Some (m' !! x)) → mapped m a n → mapped m' a n.
Proof. intros Hd Hm x Hx. by apply Hd, Hm. Qed.

(** The card driver's data: 76 bytes behind a region header that has its magic. *)
Definition card_data (arg : Z) (m : mem) : option bytes :=
  if decide (rd32 m (arg + 20) = Some 0x6D6D6361) then load_n 76 m (arg + 48) else None.

Lemma set_mmc_para_told arg m ub p :
  card_para_ready arg m ub → header_is ub m p →
  ∃ m' p', set_mmc_para arg m ub = Some m' ∧ header_is ub m' p' ∧ (∀ x, x < ub ∨ ub + 1296 <= x → m' !! x = m !! x) ∧
    take 76 (drop off_sdcard_spare_data p') = match card_data arg m with Some bs => bs | None => take 76 (drop off_sdcard_spare_data p) end ∧
    ∀ o k, (o + k <= off_sdcard_spare_data ∨ off_sdcard_spare_data + 76 <= o)%nat → take k (drop o p') = take k (drop o p).
Proof.
  intros [Hm Ha] Hh. pose proof (header_length ub m p Hh) as Hl. unfold set_mmc_para, card_data, off_region_magic, SDMMC_PARAMETER_MAGIC.
  destruct (boot_mapped_load m (arg + 20) 4) as [mg Hmg]; [eapply mapped_sub; [exact Hm|lia..]|].
  assert (rd32 m (arg + 20) = Some (le_val mg)) as -> by (unfold rd32; by rewrite Hmg). sbind.
  destruct (Z.eqb_spec (le_val mg) 0x6D6D6361) as [->|Hne]; cbn [negb]; [rewrite decide_True by done|rewrite decide_False by congruence; by exists m, p].
  destruct (boot_mapped_load m (arg + 48) 76) as [bs Hbs]; [eapply mapped_sub; [exact Hm|lia..]|].
  pose proof (load_n_length _ _ _ _ Hbs) as Hbl. rewrite Hbs. unfold off_region_info, sizeof_private_info, off_sdcard_spare_data.
  change 76 with (Z.of_nat 76). replace (Z.of_nat 76) with (Z.of_nat (length bs)) by lia.
  replace 76%nat with (length bs) in Hbs by lia.
  rewrite (memcpy_forward m (ub + Z.of_nat 1000) (arg + 48) bs Hbs);
    [|eapply mapped_sub; [exact (header_mapped ub m p Hh)|lia..]|lia].
  eexists _, (splice 1000 bs p). split; [done|]. split; [by apply header_splice; [|lia]|].
  split; [intros x Hx; apply lookup_write_out; lia|]. split; [rewrite <- Hbl; apply splice_eq; lia|]. intros o k Ho. apply splice_ne; lia.
Qed.

Lemma sdmmc_para_told arg h m ub p :
  card_para_ready arg m ub → header_is ub m p →
  ∃ m' p', sdmmc_update_flash_para arg h m ub = Some m' ∧ header_is ub m' p' ∧
    (∀ x, x < ub ∨ ub + 1296 <= x → m' !! x = m !! x) ∧
    take 4 (drop off_storage_type p') =
      (if get_card_num h =? 0 then le_bytes 4 STORAGE_SD else if get_card_num h =? 2 then le_bytes 4 STORAGE_EMMC
       else if get_card_num h =? 3 then le_bytes 4 STORAGE_EMMC3 else take 4 (drop off_storage_type p)) ∧
    take 76 (drop off_sdcard_spare_data p') = match card_data arg m with Some bs => bs | None => take 76 (drop off_sdcard_spare_data p) end ∧
    ∀ o k, (o + k <= off_storage_type ∨ off_storage_type + 4 <= o)%nat →
      (o + k <= off_sdcard_spare_data ∨ off_sdcard_spare_data + 76 <= o)%nat → take k (drop o p') = take k (drop o p).
Proof.
  intros Hr Hh. destruct (set_mmc_para_told arg m ub p Hr Hh) as (m1 & p1 & Hs & Hh1 & Ho1 & Hc1 & Hp1).
  unfold sdmmc_update_flash_para. rewrite Hs. sbind. rewrite <- Hc1.
  assert (∀ c, ∃ m' p', wrn 4 m1 (ub + Z.of_nat off_storage_type) c = Some m' ∧ header_is ub m' p' ∧
    (∀ x, x < ub ∨ ub + 1296 <= x → m' !! x = m !! x) ∧ take 4 (drop off_storage_type p') = le_bytes 4 c ∧
    take 76 (drop off_sdcard_spare_data p') = take 76 (drop off_sdcard_spare_data p1) ∧
    ∀ o k, (o + k <= off_storage_type ∨ off_storage_type + 4 <= o)%nat →
      (o + k <= off_sdcard_spare_data ∨ off_sdcard_spare_data + 76 <= o)%nat → take k (drop o p') = take k (drop o p)) as Ht.
  { intros c. destruct (tell_type ub m1 p1 c Hh1) as (m2 & p2 & Hw & Hh2 & Ho2 & Ht2 & Hp2). exists m2, p2.
    split; [done|]. split; [done|]. split; [intros x Hx; by rewrite Ho2, Ho1|]. split; [done|].
    split; [apply Hp2; right; unfold off_storage_type, off_sdcard_spare_data; lia|]. intros o k H1 H2. by rewrite Hp2, Hp1. }
  destruct (get_card_num h =? 0); [apply Ht|]. destruct (get_card_num h =? 2); [apply Ht|].
  destruct (get_card_num h =? 3); [apply Ht|]. exists m1, p1. split; [done|]. split; [done|]. split; [done|].
  split; [apply Hp1; left; unfold off_storage_type, off_sdcard_spare_data; lia|]. split; [done|]. intros o k _. apply Hp1.
Qed.

#[export] Program Instance sdmmc_tells arg h : TellsStorage (sdmmc_storage arg h) := {|
  storage_code _ := let c := get_card_num h in
    if c =? 0 then Some STORAGE_SD else if c =? 2 then Some STORAGE_EMMC else if c =? 3 then Some STORAGE_EMMC3 else None;
  card_info _ := card_data arg;
  reads_card _ x := arg + 20 <= x < arg + 124;
  para_ready _ := card_para_ready arg
|}.
Next Obligation.
  intros arg h st m m' Hx. unfold card_data. assert (load_n 76 m' (arg + 48) = load_n 76 m (arg + 48)) as -> by (apply load_n_ext; intros; apply Hx; lia).
  assert (rd32 m' (arg + 20) = rd32 m (arg + 20)) as -> by (apply rd32_ext; intros; apply Hx; lia). done.
Qed.
Next Obligation. intros arg h st m m' ub Hd [Hm Ha]. split; [by eapply mapped_mono|done]. Qed.
Next Obligation.
  intros arg h st m ub p Hr Hh. destruct (sdmmc_para_told arg h m ub p Hr Hh) as (m' & p' & Hs & Hh' & Ho & Ht & Hc & Hp).
  exists m', p'. split; [done|]. split; [done|]. split; [done|]. split; [|by split]. rewrite Ht. cbv zeta. by repeat case_match.
Qed.

Context `{N : spinor_chip} `{G : nand_geometry} `{C : nand_chip} (fuel : nat).

#[export] Program Instance spinor_tells h : TellsStorage (spinor_storage h) := {|
  storage_code _ := Some STORAGE_NOR;
  card_info _ _ := None;
  reads_card _ _ := False;
  para_ready _ _ _ := True
|}.
Next Obligation. done. Qed.
Next Obligation. done. Qed.
Next Obligation.
  intros h st m ub p _ Hh. destruct (tell_type ub m p STORAGE_NOR Hh) as (m' & p' & Hs & Hh' & Ho & Ht & Hp).
  exists m', p'. do 4 (split; [done|]). split; [apply Hp; right; unfold off_storage_type, off_sdcard_spare_data; lia|]. intros o k H1 _. by apply Hp.
Qed.

#[export] Program Instance nand_tells offset h : TellsStorage (nand_storage fuel offset h) := {|
  storage_code _ := Some (if Z.land (platform0 h) 0xf =? 4 then STORAGE_SPI_NAND else STORAGE_NAND);
  card_info _ _ := None;
  reads_card _ _ := False;
  para_ready _ _ _ := True
|}.
Next Obligation. done. Qed.
Next Obligation. done. Qed.
Next Obligation.
  intros offset h st m ub p _ Hh. destruct (tell_type ub m p (if Z.land (platform0 h) 0xf =? 4 then STORAGE_SPI_NAND else STORAGE_NAND) Hh)
    as (m' & p' & Hs & Hh' & Ho & Ht & Hp).
  exists m', p'. do 4 (split; [done|]). split; [apply Hp; right; unfold off_storage_type, off_sdcard_spare_data; lia|]. intros o k H1 _. by apply Hp.
Qed.

End tells.

(** *** The whole of [update_uboot_info] *)

Section told.
Context `{L : heap_layout} `{P : pkg_build} `{V : bp_env} `{BB : boot0_build} `{HF : boot0_fields}.
Context {S : Type} {ST : boot_storage S} `{TS : !TellsStorage ST}.
Context (s : image_state).
Let ub := uboot_base s.
Let ob := optee_base s.

(** Ranges that the stage does not write: neither U-Boot's header nor the head
    of OP-TEE, where there is one. *)
Definition clear_of (a n : Z) : Prop := (a + n <= ub ∨ ub + 1296 <= a) ∧ (ob = 0 ∨ a + n <= ob ∨ ob + 272 <= a).

Record told (m0 m : mem) (p : bytes) : Prop := {
  told_header : header_is ub m p;
  told_frame : ∀ x, clear_of x 1 → m !! x = m0 !! x;
  told_dom : ∀ x, is_Some (m0 !! x) → is_Some (m !! x)
}.

Lemma dom_write (m0 m : mem) a bs : (∀ x, is_Some (m0 !! x) → is_Some (m !! x)) → ∀ x, is_Some (m0 !! x) → is_Some (write_bytes m a bs !! x).
Proof. intros Hd x Hx. apply (mapped_write m x 1 a bs); [|lia]. intros y Hy. replace y with x by lia. by apply Hd. Qed.

Lemma told_load m0 m p a n bs : told m0 m p → clear_of a (Z.of_nat n) → load_n n m0 a = Some bs → load_n n m a = Some bs.
Proof.
  intros Ht [H1 H2] Hl. rewrite <- Hl. apply load_n_ext. intros x Hx. apply (told_frame _ _ _ Ht). split; lia.
Qed.

Lemma told_splice m0 m p off bs n :
  told m0 m p → length bs = n → (off + n <= 1296)%nat →
  told m0 (write_bytes m (ub + Z.of_nat off) bs) (splice off bs p) ∧ put_of true off n bs p (splice off bs p).
Proof.
  intros [Hh Hf Hd] <- Ho. pose proof (header_length ub m p Hh) as Hl. split; [split|split].
  - by apply header_splice.
  - intros x Hx. rewrite <- Hf by done. apply lookup_write_out. unfold clear_of in Hx. lia.
  - by apply dom_write.
  - apply splice_eq. lia.
  - intros o k Hk. apply splice_ne; lia.
Qed.

Lemma told_wr m0 m p off n v :
  told m0 m p → (off + n <= 1296)%nat →
  ∃ m' p', wrn n m (ub + Z.of_nat off) v = Some m' ∧ told m0 m' p' ∧ put_of true off n (le_bytes n v) p p'.
Proof.
  intros Ht Ho. eexists _, _. split; [|by apply told_splice; [|apply length_le_bytes|]].
  unfold wrn. apply store_n_spec. rewrite length_le_bytes. eapply mapped_sub; [exact (header_mapped ub m p (told_header _ _ _ Ht))|lia..].
Qed.

Lemma told_wr_if (c : bool) m0 m p off n v :
  told m0 m p → (off + n <= 1296)%nat →
  ∃ m' p', (if c then wrn n m (ub + Z.of_nat off) v else Some m) = Some m' ∧ told m0 m' p' ∧ put_of c off n (le_bytes n v) p p'.
Proof. intros Ht Ho. destruct c; [by apply told_wr|]. exists m, p. by split. Qed.

Lemma told_copy m0 m p off src bs n :
  told m0 m p → load_n n m0 src = Some bs → clear_of src (Z.of_nat n) → (off + n <= 1296)%nat →
  ∃ m' p', memcpy m (ub + Z.of_nat off) src (Z.of_nat n) = Some m' ∧ told m0 m' p' ∧ put_of true off n bs p p'.
Proof.
  intros Ht Hl Hc Ho. pose proof (load_n_length _ _ _ _ Hl) as Hn. eexists _, _. split; [|by apply told_splice].
  pose proof (told_load _ _ _ _ _ _ Ht Hc Hl) as Hl'. subst n.
  apply memcpy_forward; [done| |destruct Hc as [Hc _]; lia].
  eapply mapped_sub; [exact (header_mapped ub m p (told_header _ _ _ Ht))|lia..].
Qed.

(** Writes to the head of OP-TEE. *)
Lemma told_tee m0 m p off n v :
  told m0 m p → ob ≠ 0 → mapped m0 ob 272 → (ob + 272 <= ub ∨ ub + 1296 <= ob) → 0 <= off → off + Z.of_nat n <= 272 →
  ∃ m', wrn n m (ob + off) v = Some m' ∧ told m0 m' p.
Proof.
  intros [Hh Hf Hd] H0 Hm Ha Ho Hn. pose proof (length_le_bytes n v) as Hl.
  exists (write_bytes m (ob + off) (le_bytes n v)). split; [|split].
  - unfold wrn. apply store_n_spec. eapply mapped_mono; [exact Hd|]. eapply mapped_sub; [exact Hm|lia..].
  - unfold header_is. rewrite <- Hh. apply load_n_ext. intros x Hx. apply lookup_write_out. unfold sizeof_boot_data_end in Hx. lia.
  - intros x Hx. rewrite <- Hf by done. apply lookup_write_out. unfold clear_of in Hx. lia.
  - by apply dom_write.
Qed.

(** What the stage starts from: a header [p], the DRAM parameters [dp], the
    UART pins [uc], the length [vl] of the package and the card data, each clear
    of what is written, and room for OP-TEE's head where there is one. *)
Record ready (store : S) (m : mem) (p dp uc : bytes) (vl : Z) : Prop := {
  rd_uboot : ub ≠ 0;
  rd_rtos : rtos_base s = 0;
  rd_header : header_is ub m p;
  rd_dram : load_n 128 m dram_buf = Some dp;
  rd_dram_clear : clear_of dram_buf 128;
  rd_uart : load_n 16 m head_uart_ctrl = Some uc;
  rd_uart_clear : clear_of head_uart_ctrl 16;
  rd_len : rd32 m (CONFIG_BOOTPKG_BASE + off_valid_len) = Some vl;
  rd_tee : ob ≠ 0 → mapped m ob 272 ∧ (ob + 272 <= ub ∨ ub + 1296 <= ob);
  rd_para : para_ready store m ub;
  rd_card : ∀ x, reads_card store x → clear_of x 1
}.

(** The header afterwards. *)
Record knows (pf : printf_state) (store : S) (dram_size pmu_type uart_input key_input : Z) (p dp uc : bytes) (vl : Z) (card : option bytes) (p' : bytes) : Prop := {
  kn_package : take 4 (drop off_boot_package_size p') = le_bytes 4 vl;
  kn_dram_size : take 4 (drop off_dram_scan_size p') = le_bytes 4 dram_size;
  kn_dram_para : take 128 (drop off_dram_para p') = dp;
  kn_monitor : take 1 (drop off_monitor_exist p') = if negb (monitor_base s =? 0) then [1] else take 1 (drop off_monitor_exist p);
  kn_secureos : take 1 (drop off_secureos_exist p') = if negb (ob =? 0) then [1] else take 1 (drop off_secureos_exist p);
  kn_func : take 1 (drop off_func_mask p') =
    if negb CONFIG_RISCV then le_bytes 1 (Z.lor (le_val (take 1 (drop off_func_mask p))) (Z.land (uboot_func_mask s) 0xFF))
    else take 1 (drop off_func_mask p);
  kn_storage : take 4 (drop off_storage_type p') = match storage_code store with Some c => le_bytes 4 c | None => take 4 (drop off_storage_type p) end;
  kn_card : take 76 (drop off_sdcard_spare_data p') = match card with Some bs => bs | None => take 76 (drop off_sdcard_spare_data p) end;
  kn_uart_port : take 4 (drop off_uart_port p') = le_bytes 4 head_uart_port;
  kn_uart_gpio : take 16 (drop off_uart_gpio p') = uc;
  kn_pmu : take 2 (drop off_pmu_type p') = le_bytes 2 pmu_type;
  kn_uart_input : take 2 (drop off_uart_input p') = le_bytes 2 uart_input;
  kn_key : take 2 (drop off_key_input p') = le_bytes 2 key_input;
  kn_debug : take 1 (drop off_debug_mode p') = le_bytes 1 (sunxi_get_debug_mode_for_uboot pf);
  kn_work : take 4 (drop off_work_mode p') =
    if negb (card_work_mode s =? NOUSE_CARDMODE) then le_bytes 4 (card_work_mode s) else take 4 (drop off_work_mode p);
  kn_backup : take 1 (drop off_uboot_backup p') = le_bytes 1 (uboot_backup store);
  kn_rest : ∀ o k, Forall (λ '(a, n), (o + k <= a ∨ a + n <= o)%nat)
      [(48, 128); (184, 4); (188, 16); (224, 4); (228, 4); (1000, 76); (1256, 4); (1268, 8); (1280, 6); (1287, 1)]%nat →
    take k (drop o p') = take k (drop o p)
}.

(** The fields written for OP-TEE. *)
Lemma told_optee m0 m p dram_size :
  told m0 m p → (ob ≠ 0 → mapped m0 ob 272 ∧ (ob + 272 <= ub ∨ ub + 1296 <= ob)) →
  ∃ m' p', (if negb (ob =? 0) then
       m ← wrn 1 m (ub + Z.of_nat off_secureos_exist) 1;
       m ← wrn 4 m (ob + off_tee_dram_size) dram_size;
       m ← wrn 4 m (ob + off_tee_drm_size) head_secure_dram_mbytes;
       wrn 1 m (ob + off_tee_uart_port) head_uart_port
     else Some m) = Some m' ∧ told m0 m' p' ∧ put_of (negb (ob =? 0)) off_secureos_exist 1 [1] p p'.
Proof.
  intros Ht Hob. destruct (Z.eqb_spec ob 0) as [|H0]; cbn [negb]; [by exists m, p|]. destruct (Hob H0) as [Hm Ha].
  destruct (told_wr m0 m p off_secureos_exist 1 1 Ht) as (m1 & p1 & -> & Ht1 & Hp1); [unfold off_secureos_exist; lia|]. sbind.
  destruct (told_tee m0 m1 p1 off_tee_dram_size 4 dram_size Ht1 H0 Hm Ha) as (m2 & -> & Ht2); [done..|]. sbind.
  destruct (told_tee m0 m2 p1 off_tee_drm_size 4 head_secure_dram_mbytes Ht2 H0 Hm Ha) as (m3 & -> & Ht3); [done..|]. sbind.
  destruct (told_tee m0 m3 p1 off_tee_uart_port 1 head_uart_port Ht3 H0 Hm Ha) as (m4 & -> & Ht4); [done..|]. by exists m4, p1.
Qed.

Lemma told_func m0 m p :
  told m0 m p →
  ∃ m' p', (if CONFIG_RISCV then Some m
     else func_mask ← rdn 1 m (ub + Z.of_nat off_func_mask);
          wrn 1 m (ub + Z.of_nat off_func_mask) (Z.lor func_mask (get_uboot_func_mask (uboot_func_mask s) UBOOT_FUNC_MASK_ALL))) = Some m' ∧
    told m0 m' p' ∧
    put_of (negb CONFIG_RISCV) off_func_mask 1
      (le_bytes 1 (Z.lor (le_val (take 1 (drop off_func_mask p))) (Z.land (uboot_func_mask s) 0xFF))) p p'.
Proof.
  intros Ht. destruct CONFIG_RISCV; cbn [negb]; [by exists m, p|]. pose proof (told_header _ _ _ Ht) as Hh.
  assert (rdn 1 m (ub + Z.of_nat off_func_mask) = Some (le_val (take 1 (drop off_func_mask p)))) as ->.
  { unfold rdn. rewrite (load_n_sub _ _ _ _ off_func_mask 1 Hh) by (unfold off_func_mask, sizeof_boot_data_end; lia). done. }
  sbind. apply told_wr; [done|unfold off_func_mask; lia].
Qed.

Lemma told_flash store m0 m p :
  told m0 m p → para_ready store m0 ub → (∀ x, reads_card store x → clear_of x 1) →
  ∃ m' p', update_flash_para store m ub = Some m' ∧ told m0 m' p' ∧
    take 4 (drop off_storage_type p') = match storage_code store with Some c => le_bytes 4 c | None => take 4 (drop off_storage_type p) end ∧
    take 76 (drop off_sdcard_spare_data p') =
      match card_info store m0 with Some bs => bs | None => take 76 (drop off_sdcard_spare_data p) end ∧
    ∀ o k, (o + k <= off_storage_type ∨ off_storage_type + 4 <= o)%nat →
      (o + k <= off_sdcard_spare_data ∨ off_sdcard_spare_data + 76 <= o)%nat → take k (drop o p') = take k (drop o p).
Proof.
  intros [Hh Hf Hd] Hr Hc. destruct (flash_para_told store m ub p) as (m' & p' & Hu & Hh' & Ho & Ht & Hci & Hp); [by eapply para_ready_mono|done|].
  rewrite (card_info_ext store m0 m) in Hci by (intros x Hx; by apply Hf, Hc).
  exists m', p'. split; [done|]. split; [split|done]; [done| |].
  - intros x Hx. rewrite <- Hf by done. apply Ho. unfold clear_of in Hx. lia.
  - intros x Hx. destruct (decide (ub <= x < ub + 1296)) as [Hin|Hout]; [by apply (header_mapped ub m' p')|].
    rewrite Ho by lia. by apply Hd.
Qed.

(** The parameter region handed over, where the build has one. *)
Definition pass_bootparam (m : mem) : option mem :=
  if CFG_SUNXI_BOOT_PARAM then '(m, _) ← sunxi_bootparam_format_and_transfer m (ub ⊞ SUNXI_BOOTPARAM_OFFSET); Some m else Some m.

Ltac off_fits := apply Nat.leb_le; reflexivity.

Create HintDb header_offs.
#[local] Hint Unfold off_boot_package_size off_dram_scan_size off_dram_para off_monitor_exist off_secureos_exist off_func_mask
  off_storage_type off_sdcard_spare_data off_uart_port off_uart_gpio off_pmu_type off_uart_input off_key_input off_debug_mode
  off_work_mode off_uboot_backup : header_offs.

(** Follow a field back through the headers, to the one that wrote it. *)
Ltac header_back :=
  repeat match goal with
  | E : ∀ o k, _ → take k (drop o ?q) = _ |- context [take _ (drop _ ?q)] => rewrite E by lia
  | E : ∀ o k, _ → _ → take k (drop o ?q) = _ |- context [take _ (drop _ ?q)] => rewrite E by lia
  | W : take ?n (drop ?o ?q) = _ |- context [take ?n (drop ?o ?q)] => rewrite W
  end.

(** From the hand-over of the region on. *)
Lemma told_run pf store dram_size pmu_type uart_input key_input m m1 p dp uc vl :
  pass_bootparam m = Some m1 → ready store m1 p dp uc vl →
  ∃ m' p', update_uboot_info pf store s dram_size pmu_type uart_input key_input m = Some m' ∧
    told m1 m' p' ∧ knows pf store dram_size pmu_type uart_input key_input p dp uc vl (card_info store m1) p'.
Proof.
  intros Hpass [Hu Hr Hh Hd Hdc Hua Huc Hl Ht Hp Hca]. unfold update_uboot_info. fold ub ob. rewrite Hr, Z.eqb_refl. cbn [negb].
  destruct (Z.eqb_spec ub 0); [done|]. unfold pass_bootparam in Hpass. rewrite Hpass. sbind. rewrite Hl. sbind.
  assert (told m1 m1 p) as T0 by (by split).
  destruct (told_wr _ _ _ off_boot_package_size 4 vl T0) as (n1 & p1 & -> & T1 & V1 & E1); [off_fits|]. sbind.
  destruct (told_wr _ _ _ off_dram_scan_size 4 dram_size T1) as (n2 & p2 & -> & T2 & V2 & E2); [off_fits|]. sbind.
  destruct (told_copy _ _ _ off_dram_para dram_buf dp 128 T2) as (n3 & p3 & Hc3 & T3 & V3 & E3); [done|done|off_fits|].
  change (Z.of_nat 128) with 128 in Hc3. rewrite Hc3. sbind.
  destruct (told_wr_if (negb (monitor_base s =? 0)) _ _ _ off_monitor_exist 1 1 T3) as (n4 & p4 & -> & T4 & V4 & E4); [off_fits|]. sbind.
  destruct (told_optee _ _ _ dram_size T4 Ht) as (n5 & p5 & -> & T5 & V5 & E5). sbind.
  destruct (told_func _ _ _ T5) as (n6 & p6 & -> & T6 & V6 & E6). sbind.
  destruct (told_flash store _ _ _ T6 Hp Hca) as (n7 & p7 & -> & T7 & V7 & C7 & E7). sbind.
  destruct (told_wr _ _ _ off_uart_port 4 head_uart_port T7) as (n8 & p8 & -> & T8 & V8 & E8); [off_fits|]. sbind.
  destruct (told_copy _ _ _ off_uart_gpio head_uart_ctrl uc 16 T8) as (n9 & p9 & Hc9 & T9 & V9 & E9); [done|done|off_fits|].
  change (Z.of_nat 16) with 16 in Hc9. rewrite Hc9. sbind.
  destruct (told_wr _ _ _ off_pmu_type 2 pmu_type T9) as (n10 & p10 & -> & T10 & V10 & E10); [off_fits|]. sbind.
  destruct (told_wr _ _ _ off_uart_input 2 uart_input T10) as (n11 & p11 & -> & T11 & V11 & E11); [off_fits|]. sbind.
  destruct (told_wr _ _ _ off_key_input 2 key_input T11) as (n12 & p12 & -> & T12 & V12 & E12); [off_fits|]. sbind.
  destruct (told_wr _ _ _ off_debug_mode 1 (sunxi_get_debug_mode_for_uboot pf) T12) as (n13 & p13 & -> & T13 & V13 & E13); [off_fits|]. sbind.
  destruct (told_wr_if (negb (card_work_mode s =? NOUSE_CARDMODE)) _ _ _ off_work_mode 4 (card_work_mode s) T13)
    as (n14 & p14 & -> & T14 & V14 & E14); [off_fits|]. sbind.
  destruct (told_wr _ _ _ off_uboot_backup 1 (uboot_backup store) T14) as (n15 & p15 & -> & T15 & V15 & E15); [off_fits|].
  exists n15, p15. split; [done|]. split; [done|].
  clear - C7 V1 V2 V3 V4 V5 V6 V7 V8 V9 V10 V11 V12 V13 V14 V15 E1 E2 E3 E4 E5 E6 E7 E8 E9 E10 E11 E12 E13 E14 E15.
  autounfold with header_offs in *. split; autounfold with header_offs; try (by header_back).
  intros o k Hk. repeat (apply Forall_cons in Hk as [? Hk]). by header_back.
Qed.

(** The region [bp] and the place behind U-Boot where it goes. *)
Let dest := ub ⊞ SUNXI_BOOTPARAM_OFFSET.
Record param_ready (store : S) (m : mem) (bp : bytes) : Prop := {
  pr_region : region_is m bp;
  pr_mapped : mapped m dest 2048;
  pr_apart : apart sunxi_boot_param 2048 dest 2048;
  pr_region_clear : clear_of sunxi_boot_param 2048;
  pr_dest_clear : clear_of dest 2048;
  pr_uart : apart sunxi_boot_param 2048 head_uart_ctrl 16 ∧ apart dest 2048 head_uart_ctrl 16;
  pr_package : apart sunxi_boot_param 2048 (CONFIG_BOOTPKG_BASE + 36) 4 ∧ apart dest 2048 (CONFIG_BOOTPKG_BASE + 36) 4;
  pr_card : ∀ x, reads_card store x → apart sunxi_boot_param 2048 x 1 ∧ apart dest 2048 x 1
}.

Lemma ready_passed store m bp p dp uc vl :
  ready store m p dp uc vl → (CFG_SUNXI_BOOT_PARAM = true → param_ready store m bp) →
  ∃ m1, pass_bootparam m = Some m1 ∧ ready store m1 p dp uc vl ∧ card_info store m1 = card_info store m ∧
    (CFG_SUNXI_BOOT_PARAM = true → load_n 2048 m1 dest = Some (sealed bp)).
Proof.
  intros Hr Hp. unfold pass_bootparam. pose proof (rd_dram _ _ _ _ _ _ Hr) as Hdp. unfold dram_buf in Hdp.
  pose proof (rd_dram_clear _ _ _ _ _ _ Hr) as Hdc. unfold dram_buf in Hdc.
  destruct CFG_SUNXI_BOOT_PARAM eqn:Hcfg; [|by exists m]. destruct (Hp eq_refl) as [Hreg Hmap Hap Hrc Hdst [Hu1 Hu2] [Hk1 Hk2] Hcard].
  destruct Hr as [Hu Hrt Hh _ _ Hua Huc Hl Ht Hpara Hca]. fold dest.
  destruct (sealed_shape bp (load_n_length _ _ _ _ (proj1 Hreg)) (proj2 Hreg)) as [Hsl _].
  rewrite (format_run m bp dest) by done. sbind. eexists. split; [done|].
  set (m1 := write_bytes _ dest (sealed bp)).
  assert (∀ a n, apart (sunxi_boot_param + 12) 4 a n → apart dest 2048 a n → ∀ x, a <= x < a + n → m1 !! x = m !! x) as Hsame.
  { intros a n H1 H2 x Hx. unfold m1, apart in *. rewrite lookup_write_out by lia. unfold w32. apply lookup_write_out. rewrite length_le_bytes. lia. }
  assert (∀ x, is_Some (m !! x) → is_Some (m1 !! x)) as Hdom.
  { intros x Hx. unfold m1, w32. apply (dom_write m); [|done]. by apply dom_write. }
  unfold clear_of, apart in *. split; [split|]; try done.
  - unfold header_is. rewrite <- Hh. apply load_n_ext. apply Hsame; unfold sizeof_boot_data_end; lia.
  - unfold dram_buf. rewrite Hcfg, <- Hdp. apply load_n_ext. apply Hsame; unfold off_ddr_info; lia.
  - unfold clear_of, dram_buf. by rewrite Hcfg.
  - rewrite <- Hua. apply load_n_ext. apply Hsame; lia.
  - rewrite <- Hl. apply rd32_ext. apply Hsame; unfold off_valid_len; lia.
  - intros H0. destruct (Ht H0) as [Hm Ha]. split; [by eapply mapped_mono|done].
  - by eapply para_ready_mono.
  - split; [|intros _; unfold m1; rewrite <- Hsl; apply load_write_eq]. apply card_info_ext. intros x Hx.
    destruct (Hcard x Hx). apply (Hsame x 1); lia.
Qed.

(** C18: U-Boot is told what the boot found: with room for what is written, the
    stage succeeds; U-Boot's header then holds the size of the package and of
    DRAM, the DRAM parameters, what was loaded besides it, the storage it came
    from, the card driver's data where there is some, the console and the keys,
    and every other of its bytes is unchanged; the sealed boot parameters lie
    behind it where the build has them. *)
Theorem uboot_told pf store dram_size pmu_type uart_input key_input m bp p dp uc vl :
  ready store m p dp uc vl → (CFG_SUNXI_BOOT_PARAM = true → param_ready store m bp) →
  ∃ m' p', update_uboot_info pf store s dram_size pmu_type uart_input key_input m = Some m' ∧
    header_is ub m' p' ∧ knows pf store dram_size pmu_type uart_input key_input p dp uc vl (card_info store m) p' ∧
    (CFG_SUNXI_BOOT_PARAM = true → load_n 2048 m' dest = Some (sealed bp)).
Proof.
  intros Hr Hp. destruct (ready_passed store m bp p dp uc vl Hr Hp) as (m1 & Hm1 & Hr1 & <- & Hs).
  destruct (told_run pf store dram_size pmu_type uart_input key_input m m1 p dp uc vl Hm1 Hr1) as (m' & p' & Hu & Ht & Hk).
  exists m', p'. split; [done|]. split; [apply Ht|]. split; [done|]. intros Hc. eapply told_load; [done| |by apply Hs].
  by destruct (Hp Hc).
Qed.

End told.

(** *** A boot from SPI NAND

    One good block with a package of 4 KiB that holds U-Boot alone. *)

Module demo.

Definition item_name_field : bytes := chars ITEM_UBOOT_NAME ++ replicate 58 0.
Definition item : bytes := item_name_field ++ le_bytes 4 512 ++ le_bytes 4 1536 ++ le_bytes 4 0 ++ le_bytes 4 3 ++ replicate (Z.to_nat 288) 0.
Definition uboot : bytes := replicate 44 7 ++ le_bytes 4 0x43000000 ++ replicate (Z.to_nat 1488) 7.
Definition block (sum : Z) : bytes :=
  replicate 16 0 ++ le_bytes 4 TOC_MAIN_INFO_MAGIC ++ le_bytes 4 sum ++ replicate 8 0 ++ le_bytes 4 1 ++ le_bytes 4 4096 ++ replicate 24 0 ++
  item ++ replicate 80 0 ++ uboot ++ replicate (Z.to_nat 2048) 0.
Definition sum : Z := Eval vm_compute in wsum (image_words (words_of (block 0)) 4096).
Definition geo : nand_geometry := NandGeometry 4096 512 0 0.
Definition chip : nand_chip :=
  NandChip 0 (λ a n, (take (Z.to_nat n) (drop (Z.to_nat (512 * (a mod 8))) (block sum)), true)) (λ _, Some 0xff).
Definition pkg : pkg_build := PkgBuild 0x42e00000 false 0.
Definition layout : heap_layout := HeapLayout 0x1000 0x1010 None.
Definition addrs : image_addrs := ImageAddrs 0x1020 0x1028.
Definition env : bp_env := BpEnv 0x2000 0x1030 0.
Definition codecs : decompressors := Decompressors (λ _ _ _ _ _, None) (λ _ _ _ _ _, None) (λ _ _ _ _ _, None).
Definition build : boot0_build := Boot0Build 0x50000000 0x100000 false false false false.
Definition fields : boot0_fields := Boot0Fields 3 0 0 0 0x10b0.
Definition hw : board := Board 0 None 0 100 (λ m _, Some (m, 64)) 0 (λ _ m, Some (m, 0)).
Definition head : boot0_head := Boot0Head 4 (FlashMap 0 0 0).
Definition fmap_build : flashmap_build := FlashmapBuild None None None None None None None.
Definition card : mmc_host := MmcHost (λ _ _, 0) (λ _ _ _, ([], false)).
Definition medium : boot_medium := BootMedium (λ _ _, ([], false)).
Definition storage : boot_storage Z :=
  nand_storage (H := card) (P := pkg) (B := fmap_build) (M := medium) (V := env) (G := geo) (C := chip) 2 0 head.
Definition ram : mem :=
  write_bytes (write_bytes (mem_of 0x1000 (replicate 192 0)) 0x42e00000 (replicate (Z.to_nat 4096) 0)) 0x43000000 (replicate (Z.to_nat 1536) 0).
Definition start : boot_state Z := BootState ram false {| debug_mode := 3; debug_mode_to_uboot := 0 |} (ImageState 0 0 0 0 0 0 0 0 0 0) 0.
Abbreviation run :=
  (main (L := layout) (P := pkg) (I := demo_image_build) (A := addrs) (D := codecs) (V := env) (BB := build) (HF := fields) (BD := hw)
    (ST := storage) 3 start).

Lemma run_target : (match run with Some (_, t) => bool_decide (t = JumpTo 0x43000000) | None => false end) = true.
Proof. vm_compute. reflexivity. Qed.

Lemma run_ends : ∃ b', run = Some (b', JumpTo 0x43000000).
Proof.
  pose proof run_target as Ht. destruct run as [[b' t]|]; [|done]. apply bool_decide_eq_true in Ht as ->. by exists b'.
Qed.

Lemma ram_bytes : byte_mem ram.
Proof.
  repeat apply byte_mem_write; try (apply Forall_replicate; unfold is_u8; lia). apply map_Forall_empty.
Qed.

Lemma block_bytes s : is_byte_list (block s).
Proof.
  unfold block, item, uboot, item_name_field. repeat (apply Forall_app; split); try apply le_bytes_byte;
    try (apply Forall_replicate; unfold is_u8; lia).
  vm_compute. repeat (apply Forall_cons; split; [split; [discriminate|reflexivity]|]). by apply Forall_nil.
Qed.

Lemma checked : CheckedStorage (P := pkg) Z (ST := storage).
Proof.
  apply nand_checked with (scts := 1) (ppb := 8).
  - intros c s n. apply Forall_nil. done.
  - intros s n. apply Forall_nil. done.
  - intros a n. apply Forall_take, Forall_drop, block_bytes.
  - intros a k n Hk. cbn [page_xfer chip fst]. rewrite take_take. f_equal. lia.
  - repeat split.
  - repeat split; discriminate.
  - discriminate.
Qed.

End demo.

Lemma boot0_starts_checked_witness :
  ∃ b', demo.run = Some (b', JumpTo 0x43000000) ∧ board_up (BD := demo.hw) demo.start ∧
    ∃ m, package_sealed m 0x42e00000.
Proof.
  destruct demo.run_ends as [b' Hr]. exists b'. split; [exact Hr|].
  destruct (boot0_starts_checked (L := demo.layout) (P := demo.pkg) (I := demo_image_build) (A := demo.addrs) (D := demo.codecs) (V := demo.env)
    (BB := demo.build) (HF := demo.fields) (BD := demo.hw) (ST := demo.storage) (CS := demo.checked) (λ m a m' r Hm He, ltac:(by injection He as <- _))
    3 demo.start b' (JumpTo 0x43000000) demo.ram_bytes Hr ltac:(discriminate)) as (Hup & m & m1 & r & Hs & _).
  split; [exact Hup|]. exists m. exact Hs.
Defined.

Definition demo_loaded : image_state := ImageState 0x43000000 0 0 0 0 0 0 0 NOUSE_CARDMODE 1.

(** A boot from eMMC, with the card driver's data in memory. *)
Definition demo_emmc : boot_storage mmc_state :=
  sdmmc_storage (H := demo.card) (P := demo.pkg) (B := demo.fmap_build) (M := demo.medium) (V := demo.env) 0x3000 (Boot0Head 2 (FlashMap 0 0 0)).
Definition demo_card_ram : mem :=
  write_bytes demo.ram 0x3000 (replicate 20 0 ++ le_bytes 4 SDMMC_PARAMETER_MAGIC ++ replicate 24 0 ++ replicate 76 9).

Lemma uboot_told_witness :
  ∃ m' p', update_uboot_info (P := demo.pkg) (V := demo.env) (BB := demo.build) (HF := demo.fields) (ST := demo_emmc)
      {| debug_mode := 8; debug_mode_to_uboot := 1 |} (MmcState 0 [] false) demo_loaded 64 0 100 0 demo_card_ram = Some m' ∧
    header_is 0x43000000 m' p' ∧ take 4 (drop off_storage_type p') = [2; 0; 0; 0] ∧ take 4 (drop off_dram_scan_size p') = [64; 0; 0; 0] ∧
    take 1 (drop off_debug_mode p') = [0x88] ∧ take 76 (drop off_sdcard_spare_data p') = replicate 76 9.
Proof.
  destruct (uboot_told (P := demo.pkg) (V := demo.env) (BB := demo.build) (HF := demo.fields) (ST := demo_emmc)
    (TS := sdmmc_tells (H := demo.card) (P := demo.pkg) (B := demo.fmap_build) (M := demo.medium) (V := demo.env) 0x3000 (Boot0Head 2 (FlashMap 0 0 0)))
    demo_loaded {| debug_mode := 8; debug_mode_to_uboot := 1 |} (MmcState 0 [] false) 64 0 100 0 demo_card_ram []
    (replicate 1296 0) (replicate 128 0) (replicate 16 0) 0) as (m' & p' & Hu & Hh & Hk & _).
  - split.
    + vm_compute. discriminate.
    + reflexivity.
    + vm_compute. reflexivity.
    + vm_compute. reflexivity.
    + vm_compute. split; [left; discriminate|left; reflexivity].
    + vm_compute. reflexivity.
    + vm_compute. split; [left; discriminate|left; reflexivity].
    + vm_compute. reflexivity.
    + intros []. reflexivity.
    + split; [apply mappedb_spec; vm_compute; reflexivity|vm_compute; right; discriminate].
    + intros x Hx. cbn in Hx. unfold clear_of. cbn. split; [left; lia|left; reflexivity].
  - discriminate.
  - exists m', p'. split; [exact Hu|]. split; [exact Hh|]. split; [exact (kn_storage _ _ _ _ _ _ _ _ _ _ _ _ _ Hk)|].
    split; [exact (kn_dram_size _ _ _ _ _ _ _ _ _ _ _ _ _ Hk)|]. split; [exact (kn_debug _ _ _ _ _ _ _ _ _ _ _ _ _ Hk)|].
    rewrite (kn_card _ _ _ _ _ _ _ _ _ _ _ _ _ Hk). vm_compute. reflexivity.
Defined.
