(* ===== verification/SecMap.v ===== *)
(** * Secure storage (u-boot-2018/sprite/sprite_secstorage.c)

    Keys are kept in numbered blocks of 4 KiB; block 0 is the map, a sequence of
    strings ["name:length"] whose i-th entry names block i.  A deleted key
    leaves an entry ["reserved_after_delete:0"], so that the other keys keep
    their blocks.  The map is changed in memory and written back, with magic and
    CRC, when the storage is closed.

    The map is modelled as the 4096 bytes it is; the block device is the class
    [sec_device].  U-Boot's [strlen], [strcmp] and [simple_strtoul]
    (lib/string.c, lib/strto.c) are the code that [CString] models for spl.

    The theorems: on a map that encodes a list of entries, lookup, insertion and
    deletion are those of the list, and every operation keeps the map such an
    encoding; a key that was written is read back and no other key changes,
    also after the storage was closed and opened again; what long names, a real
    key with the reserved name and failing writes do to the map. *)

From S2P Require Import Prelude Crc32 Mem CString Printf UCrc32 ImgDecode.

Local Open Scope Z_scope.

(** ** Data *)

Definition STORE_OBJECT_MAGIC : Z := 0x17253948.
Definition SEC_BLK_SIZE : Z := 4096.
Definition MAP_KEY_NAME_SIZE : nat := 64.
Definition MAP_KEY_DATA_SIZE : nat := 32.

(** Offsets of [magic] and [crc] in [struct map_info]. *)
Definition off_map_magic : nat := Z.to_nat 4088.
Definition off_map_crc : nat := Z.to_nat 4092.

(** ["reserved_after_delete"], with its terminator. *)
Definition SECURE_STORAGE_DUMMY_KEY_NAME : bytes :=
  [114; 101; 115; 101; 114; 118; 101; 100; 95; 97; 102; 116; 101; 114; 95; 100; 101; 108; 101; 116; 101; 0].
Definition dummy_len : nat := 21.

(** The block device: reading gives the 4096 bytes left in the buffer and the
    return value; [None] stands for a device that is not there. *)
Class sec_device (D : Type) := SecDevice {
  secstorage_read : D → Z → option (bytes * Z);
  secstorage_write : D → Z → bytes → option (D * Z);
  secstorage_flush : D → option (D * Z)
}.

(** The static variables. *)
Record sec_state := SecState { secure_storage_map : bytes; secure_storage_inited : bool; map_dirty : bool }.

(** ** The map *)

(** How many characters before one that stops, for a copy into [k] bytes, from
    position [pos] of the map; the character is read before the bounds are
    looked at. *)
Fixpoint scan (stop : Z → bool) (k : nat) (s : bytes) (pos : Z) {struct s} : option nat :=
  match s with
  | [] => None
  | c :: s' =>
      if stop c || negb (pos <? SEC_BLK_SIZE) then Some 0%nat
      else match k with
           | O => Some 0%nat
           | S k' => n ← scan stop k' s' (pos + 1); Some (S n)
           end
  end.

Definition is_colon (c : Z) : bool := c =? 58.
Definition stops_name (c : Z) : bool := (c =? 58) || (c =? 0).
Definition stops_len (c : Z) : bool := (c =? 32) || (c =? 0).

(** A copy into a cleared buffer of [k] bytes. *)
Definition into_buf (k : nat) (s : bytes) : bytes := s ++ replicate (k - length s) 0.

(** Is a string, known to be of length [n], the reserved name? *)
Definition is_dummy (s : bytes) (n : nat) : option bool :=
  if Nat.eqb n dummy_len then r ← umemcmp s SECURE_STORAGE_DUMMY_KEY_NAME dummy_len; Some (r =? 0) else Some false.

(** The result and the last value stored in [*len]. *)
Fixpoint probe_loop (fuel : nat) (map : bytes) (off : nat) (index : Z) (item_name : bytes) (len : option Z) :
    option (Z * option Z) :=
  match fuel with
  | O => None
  | S f =>
      c ← map !! off;
      if (c =? 0) || negb (Z.of_nat off <? SEC_BLK_SIZE) then Some (-1, len)
      else
        j ← scan stops_name MAP_KEY_NAME_SIZE (drop off map) (Z.of_nat off);
        if (MAP_KEY_NAME_SIZE <=? j)%nat then Some (-1, len)
        else
          let name := into_buf MAP_KEY_NAME_SIZE (take j (drop off map)) in
          let i := (off + j + 1)%nat in
          l ← scan stops_len MAP_KEY_DATA_SIZE (drop i map) (Z.of_nat i);
          if (SEC_BLK_SIZE <=? Z.of_nat (i + l)) || (MAP_KEY_DATA_SIZE <=? l)%nat then Some (-1, len)
          else
            let length := into_buf MAP_KEY_DATA_SIZE (take l (drop i map)) in
            r ← strcmp item_name name;
            if r =? 0 then
              n ← strlen item_name;
              '(v, _) ← simple_strtoul length 10;
              dummy ← is_dummy item_name n;
              if (dummy : bool) && (s32 v =? 0) then
                let off := (off + (n + 1))%nat in
                e ← strlen (drop off map);
                probe_loop f map (off + e + 1) (index + 1) item_name (Some (s32 v))
              else Some (index, Some (s32 v))
            else
              e ← strlen (drop off map);
              probe_loop f map (off + e + 1) (index + 1) item_name len
  end.

(** Every turn moves on by at least one byte. *)
Definition map_fuel : nat := Z.to_nat 4097.

Definition __probe_name_in_map (map item_name : bytes) : option (Z * option Z) := probe_loop map_fuel map 0 1 item_name None.

(** [sprintf(dst, "%s:%d", name, length)]: the characters and the terminator. *)
Definition dec (n : Z) : bytes :=
  if n <? 0 then 45 :: (dchar <$> num_digits 10 9 (- n)) else dchar <$> num_digits 10 9 n.
Definition entry (name : bytes) (length : Z) : bytes := name ++ 58 :: dec length ++ [0].

Definition print_entry (map : bytes) (off : nat) (item_name : bytes) (length : Z) : option bytes :=
  name ← cstring item_name;
  let e := entry name length in
  if Z.of_nat (off + List.length e) <=? SEC_BLK_SIZE then Some (splice off e map) else None.

(** A remembered reserved entry: its index, its place and the copy of all that
    follows it. *)
Record dummy_slot := DummySlot { dummy_key_index : Z; dummy_key_start : nat; write_back_buf : bytes }.

Definition save_tail (map : bytes) (from : nat) : bytes := into_buf (Z.to_nat 4096) (drop from map).
(** [memcpy(buffer + from, write_back_buf, 4096 - from)]. *)
Definition restore_tail (map : bytes) (from : nat) (saved : bytes) : bytes :=
  take from map ++ take (Z.to_nat (4096 - Z.of_nat from)) saved.

(** The walk of [__fill_name_in_map]: an index found, or the map (cleared when
    it is dirty), the place and the index behind the last entry, and the first
    reserved entry. *)
Fixpoint fill_loop (fuel : nat) (map : bytes) (off : nat) (index : Z) (item_name : bytes) (dummy : option dummy_slot) :
    option (Z + bytes * nat * Z * option dummy_slot) :=
  match fuel with
  | O => None
  | S f =>
      c ← map !! off;
      if (c =? 0) || negb (Z.of_nat off <? SEC_BLK_SIZE) then Some (inr (map, off, index, dummy))
      else
        name_len ← scan is_colon MAP_KEY_NAME_SIZE (drop off map) (Z.of_nat off);
        if (SEC_BLK_SIZE <=? Z.of_nat (off + name_len)) || (MAP_KEY_NAME_SIZE <=? name_len)%nat
        then Some (inr (replicate (Z.to_nat SEC_BLK_SIZE) 0, 0%nat, 1, dummy))
        else
          r ← umemcmp (drop off map) item_name name_len;
          n ← strlen item_name;
          if (r =? 0) && Nat.eqb n name_len then Some (inl index)
          else
            d ← is_dummy (drop off map) name_len;
            e ← strlen (drop off map);
            let next := (off + e + 1)%nat in
            let dummy := match dummy with
                         | Some _ => dummy
                         | None => if (d : bool) then Some (DummySlot index off (save_tail map next)) else None
                         end in
            fill_loop f map next (index + 1) item_name dummy
  end.

Definition __fill_name_in_map (map item_name : bytes) (length : Z) : option (bytes * Z) :=
  r ← fill_loop map_fuel map 0 1 item_name None;
  match r with
  | inl index => Some (map, index)
  | inr (map, off, index, None) =>
      if 32 <=? index then Some (map, -1)
      else map ← print_entry map off item_name length; Some (map, index)
  | inr (map, off, index, Some d) =>
      map ← print_entry map (dummy_key_start d) item_name length;
      e ← strlen (drop (dummy_key_start d) map);
      Some (restore_tail map (dummy_key_start d + e + 1) (write_back_buf d), dummy_key_index d)
  end.

Fixpoint discard_loop (fuel : nat) (map : bytes) (off : nat) (index : Z) (item_name : bytes) : option (bytes * Z) :=
  match fuel with
  | O => None
  | S f =>
      c ← map !! off;
      if (c =? 0) || negb (Z.of_nat off <? SEC_BLK_SIZE) then Some (map, -1)
      else
        name_len ← scan is_colon MAP_KEY_NAME_SIZE (drop off map) (Z.of_nat off);
        if (SEC_BLK_SIZE <=? Z.of_nat (off + name_len)) || (MAP_KEY_NAME_SIZE <=? name_len)%nat then Some (map, -1)
        else
          r ← umemcmp (drop off map) item_name name_len;
          n ← strlen item_name;
          e ← strlen (drop off map);
          let next := (off + e + 1)%nat in
          if (r =? 0) && Nat.eqb n name_len then
            let saved := save_tail map next in
            map ← print_entry map off SECURE_STORAGE_DUMMY_KEY_NAME 0;
            e ← strlen (drop off map);
            Some (restore_tail map (off + e + 1) saved, index)
          else discard_loop f map next (index + 1) item_name
  end.

Definition __discard_name_in_map (map item_name : bytes) : option (bytes * Z) := discard_loop map_fuel map 0 1 item_name.

(** ** The storage *)

Definition check_secure_storage_map (buf : bytes) : option Z :=
  magic ← load_le 4 off_map_magic buf;
  if negb (magic =? STORE_OBJECT_MAGIC) then Some 2
  else
    crc ← load_le 4 off_map_crc buf;
    c ← ucrc32 0 0 buf off_map_crc;
    if negb (crc =? c) then Some (-1) else Some 0.

Definition empty_map : bytes := replicate (Z.to_nat 4096) 0.

(** What [sunxi_secure_storage_init] makes of the map it read: one that fails
    the check is cleared when it looks empty, and kept otherwise. *)
Definition usable_map (map : bytes) : option bytes :=
  ret ← check_secure_storage_map map;
  first ← map !! 0%nat;
  Some (if ((ret =? -1) || (ret =? 2)) && ((first =? 0xff) || (first =? 0)) then empty_map else map).

Section storage.
Context {D : Type} `{SD : sec_device D}.

Definition sunxi_secure_storage_init (st : sec_state) (d : D) : option (sec_state * D * Z) :=
  if secure_storage_inited st then Some (st, d, 0)
  else
    '(map, ret) ← secstorage_read d 0;
    if ret <? 0 then Some (SecState map false (map_dirty st), d, -1)
    else map ← usable_map map; Some (SecState map true (map_dirty st), d, 0).

Definition seal_map (map : bytes) : option bytes :=
  let map := splice off_map_magic (le_bytes 4 STORE_OBJECT_MAGIC) map in
  c ← ucrc32 0 0 map off_map_crc;
  Some (splice off_map_crc (le_bytes 4 c) map).

Definition sunxi_secure_storage_exit (st : sec_state) (d : D) : option (sec_state * D * Z) :=
  if negb (secure_storage_inited st) then Some (st, d, -1)
  else if map_dirty st then
    map ← seal_map (secure_storage_map st);
    '(d, ret) ← secstorage_write d 0 map;
    if ret <? 0 then Some (SecState map true true, d, -1)
    else '(d, ret) ← secstorage_flush d; Some (SecState map false false, d, ret)
  else '(d, ret) ← secstorage_flush d; Some (SecState (secure_storage_map st) false false, d, ret).

Definition sunxi_secure_storage_probe (st : sec_state) (item_name : bytes) : option Z :=
  if negb (secure_storage_inited st) then Some (-1)
  else
    '(ret, _) ← __probe_name_in_map (secure_storage_map st) item_name;
    if ret <? 0 then Some (-1) else Some 0.

(** The bytes copied to the caller's buffer, [*data_len], the result; [None] in
    the first two is nothing stored. *)
Definition sunxi_secure_storage_read (st : sec_state) (d : D) (item_name : bytes) (buffer_len : Z) :
    option (option bytes * option Z * Z) :=
  if negb (secure_storage_inited st) then Some (None, None, -1)
  else
    '(index, len) ← __probe_name_in_map (secure_storage_map st) item_name;
    if index <? 0 then Some (None, None, -2)
    else
      '(buf, ret) ← secstorage_read d index;
      if ret <? 0 then Some (None, None, -3)
      else
        len_in_store ← len;
        let n := if buffer_len <? len_in_store then buffer_len else len_in_store in
        if (n <? 0) || (4096 <? n) then None
        else Some (Some (take (Z.to_nat n) buf), Some len_in_store, 0).

Definition sunxi_secure_storage_erase_data_only (st : sec_state) (d : D) (item_name : bytes) : option (sec_state * D * Z) :=
  if negb (secure_storage_inited st) then Some (st, d, -1)
  else
    '(index, _) ← __probe_name_in_map (secure_storage_map st) item_name;
    if index <? 0 then Some (st, d, -2)
    else
      '(d, ret) ← secstorage_write d index (replicate (Z.to_nat 4096) 0xff);
      if ret <? 0 then Some (st, d, -1) else Some (SecState (secure_storage_map st) true true, d, 0).

(** [buffer] is the caller's object. *)
Definition sunxi_secure_storage_write (st : sec_state) (d : D) (item_name buffer : bytes) (length : Z) :
    option (sec_state * D * Z) :=
  if negb (secure_storage_inited st) then Some (st, d, -1)
  else
    '(index, len) ← __probe_name_in_map (secure_storage_map st) item_name;
    '(st, d, index) ←
      (if index <? 0 then
         '(map, index) ← __fill_name_in_map (secure_storage_map st) item_name length;
         Some (SecState map true (map_dirty st), d, index)
       else
         len ← len;
         if negb (len =? length) then Some (st, d, -1)
         else
           '(st, d, r) ← sunxi_secure_storage_erase_data_only st d item_name;
           Some (st, d, if r <? 0 then -1 else index));
    if index <? 0 then Some (st, d, -1)
    else if 4096 <? length then Some (st, d, -1)
    else
      data ← slice 0 (Z.to_nat length) buffer;
      if length <? 0 then None
      else
        '(d, ret) ← secstorage_write d index (into_buf (Z.to_nat 4096) data);
        if ret <? 0 then Some (st, d, -1) else Some (SecState (secure_storage_map st) true true, d, 0).

Definition sunxi_secure_storage_erase (st : sec_state) (d : D) (item_name : bytes) : option (sec_state * D * Z) :=
  if negb (secure_storage_inited st) then Some (st, d, -1)
  else
    '(map, index) ← __discard_name_in_map (secure_storage_map st) item_name;
    let st := SecState map true (map_dirty st) in
    if index <? 0 then Some (st, d, -2)
    else
      '(d, ret) ← secstorage_write d index (replicate (Z.to_nat 4096) 0xff);
      if ret <? 0 then Some (st, d, -1) else Some (SecState map true true, d, 0).

(** Block 0 is overwritten with an empty map that has neither magic nor CRC. *)
Definition sunxi_secure_storage_erase_all (st : sec_state) (d : D) : option (sec_state * D * Z) :=
  '(st, d, _) ← sunxi_secure_storage_init st d;
  let st := SecState empty_map (secure_storage_inited st) (map_dirty st) in
  '(d, ret) ← secstorage_write d 0 empty_map;
  Some (st, d, if ret <? 0 then -1 else 0).

End storage.

(** ** Encoded maps *)

(** The characters of the reserved name. *)
Definition dummy_name : bytes := take dummy_len SECURE_STORAGE_DUMMY_KEY_NAME.

(** What an entry stands for: a key with its name and length, or a free block. *)
Abbreviation slot := (option (bytes * Z)).

Definition slot_name (s : slot) : bytes := match s with Some (name, _) => name | None => dummy_name end.
Definition slot_len (s : slot) : Z := match s with Some (_, len) => len | None => 0 end.
Definition slot_text (s : slot) : bytes := slot_name s ++ 58 :: dec (slot_len s).
Definition has_name (name : bytes) (s : slot) : Prop := fst <$> s = Some name.
Definition is_free (s : slot) : Prop := s = None.

Definition map_name (name : bytes) : Prop :=
  is_cstr name ∧ Forall (λ c, c ≠ 58) name ∧ (length name <= 63)%nat.
Definition key_name (name : bytes) : Prop := map_name name ∧ name ≠ dummy_name.
(** Enough to be told from the other names and from a free block. *)
Definition plain_name (name : bytes) : Prop := is_cstr name ∧ name ≠ dummy_name.
Definition key_len (len : Z) : Prop := 0 <= len < 2147483648.
Definition slot_ok (s : slot) : Prop := match s with Some (name, len) => key_name name ∧ key_len len | None => True end.

#[global] Instance has_name_dec name s : Decision (has_name name s).
Proof. unfold has_name. apply _. Defined.
#[global] Instance is_free_dec s : Decision (is_free s).
Proof. unfold is_free. apply _. Defined.
#[global] Instance key_name_dec name : Decision (key_name name).
Proof. unfold key_name, map_name. apply _. Defined.

Definition encs (slots : list slot) : bytes := concat ((λ s, slot_text s ++ [0]) <$> slots).

(** Behind the entries there is room for as many entries of the longest form
    (75 bytes) as can still come, and the zero that ends the map. *)
Definition room (slots : list slot) : nat := 75 * (31 - length slots) + 1.

Definition map_rep (map : bytes) (slots : list slot) : Prop :=
  length map = Z.to_nat 4096 ∧ is_byte_list map ∧ (length slots <= 31)%nat ∧ Forall slot_ok slots ∧
  ∃ rest, map = encs slots ++ replicate (room slots) 0 ++ rest.

(** ** Lemmas: texts *)

Lemma encs_app l1 l2 : encs (l1 ++ l2) = encs l1 ++ encs l2.
Proof. unfold encs. by rewrite fmap_app, concat_app. Qed.

Lemma encs_cons s l : encs (s :: l) = slot_text s ++ 0 :: encs l.
Proof. unfold encs. cbn. by rewrite <- app_assoc. Qed.

Lemma dec_spec n r :
  key_len n → is_cstr (dec n) ∧ Forall (λ c, c ≠ 32) (dec n) ∧ (length (dec n) <= 10)%nat ∧
  simple_strtoul (dec n ++ 0 :: r) 10 = Some (n, 0 :: r).
Proof.
  intros Hn. unfold key_len in Hn. unfold dec. destruct (Z.ltb_spec n 0); [lia|].
  destruct (num_digits_spec 10 9 n) as (Hd & Hh & Hl & _); [lia..|].
  split; [by eapply digits_cstr, Hd; lia|]. split; [|split].
  - apply Forall_fmap. eapply Forall_impl; [exact Hd|]. intros d Hdd. unfold is_digit in Hdd.
    unfold compose, dchar. case_match; lia.
  - by rewrite length_fmap.
  - unfold simple_strtoul, _parse_integer_fixup_radix. cbn [Z.eqb Pos.eqb mbind option_bind].
    rewrite strtoul_digits; [by rewrite Hh|lia|done|done|lia|rewrite Hh; lia].
Qed.

Lemma slot_name_ok s : slot_ok s → map_name (slot_name s).
Proof. destruct s as [[name len]|]; intros H; [apply H|by apply (bool_decide_unpack _); vm_compute]. Qed.

Lemma slot_len_ok s : slot_ok s → key_len (slot_len s).
Proof. destruct s as [[name len]|]; intros H; [apply H|]. cbn. unfold key_len. lia. Qed.

Lemma text_ok s : slot_ok s → is_cstr (slot_text s) ∧ (1 <= length (slot_text s) <= 74)%nat.
Proof.
  intros Hs. destruct (slot_name_ok s Hs) as (Hc & _ & Hl). destruct (dec_spec (slot_len s) [] (slot_len_ok s Hs)) as (Hd & _ & Hdl & _).
  unfold slot_text. rewrite length_app. cbn [length]. split; [|lia].
  apply Forall_app. split; [done|]. constructor; [unfold is_char; lia|done].
Qed.

Lemma encs_bound l : Forall slot_ok l → (length (encs l) <= 75 * length l)%nat.
Proof.
  induction 1 as [|s l Hs Hl IH]; [done|]. rewrite encs_cons, length_app. destruct (text_ok s Hs) as [_ ?].
  cbn [length]. lia.
Qed.

Lemma encs_byte l : Forall slot_ok l → is_byte_list (encs l).
Proof.
  induction 1 as [|s l Hs Hl IH]; [by constructor|]. rewrite encs_cons. destruct (text_ok s Hs) as [Hc _].
  apply Forall_app. split; [by apply cstr_bytes|]. by constructor; [unfold is_u8; lia|].
Qed.

Lemma scan_stop stop k a c r pos :
  Forall (λ x, stop x = false) a → stop c = true → (length a <= k)%nat → pos + Z.of_nat (length a) <= SEC_BLK_SIZE →
  scan stop k (a ++ c :: r) pos = Some (length a).
Proof.
  intros Ha Hc. revert k pos. induction Ha as [|x a Hx Ha IH]; intros k pos Hk Hp; cbn [scan app].
  { by rewrite Hc. }
  cbn [length] in *. rewrite Hx. destruct (Z.ltb_spec pos SEC_BLK_SIZE); [|lia]. cbn [orb negb].
  destruct k; [lia|]. rewrite IH; [done|lia..].
Qed.

Lemma umemcmp_cstr a b r1 r2 :
  is_cstr a → is_cstr b → ∃ r, umemcmp (a ++ r1) (b ++ 0 :: r2) (length a) = Some r ∧ (r = 0 ↔ a `prefix_of` b).
Proof.
  intros Ha. revert b. induction Ha as [|x a Hx Ha IH]; intros b Hb.
  { exists 0. split; [done|]. split; [intros _; apply prefix_nil|done]. }
  unfold is_char in Hx. cbn [length umemcmp app]. destruct Hb as [|y b Hy Hb].
  - cbn [app]. destruct (Z.eqb_spec (x - 0) 0); [lia|]. eexists. split; [done|].
    split; [lia|]. by intros ?%prefix_nil_inv.
  - cbn [app]. destruct (Z.eqb_spec (x - y) 0) as [Hxy|Hxy]; cbn [negb].
    + destruct (IH b Hb) as (r & -> & Hr). exists r. split; [done|]. rewrite Hr. assert (x = y) as -> by lia.
      split; [apply prefix_cons|apply prefix_cons_inv_2].
    + eexists. split; [done|]. split; [done|]. intros ->%prefix_cons_inv_1. lia.
Qed.

(** The comparison of [__fill_name_in_map] and [__discard_name_in_map]. *)
Lemma same_name a b r1 r2 :
  is_cstr a → is_cstr b →
  ∃ r, umemcmp (a ++ r1) (b ++ 0 :: r2) (length a) = Some r ∧ (r =? 0) && Nat.eqb (length b) (length a) = bool_decide (a = b).
Proof.
  intros Ha Hb. destruct (umemcmp_cstr a b r1 r2 Ha Hb) as (r & Hr & Hr0). exists r. split; [done|].
  apply eq_bool_prop_intro. rewrite andb_True, bool_decide_spec, !Is_true_true, Z.eqb_eq, Nat.eqb_eq, Hr0. split.
  - intros [Hp Hl]. by apply prefix_length_eq; [|lia].
  - by intros ->.
Qed.

Lemma is_dummy_cstr a r :
  is_cstr a → is_dummy (a ++ r) (length a) = Some (bool_decide (a = dummy_name)).
Proof.
  intros Ha. unfold is_dummy. destruct (Nat.eqb_spec (length a) dummy_len) as [Hl|Hl].
  - destruct (umemcmp_spec (a ++ r) SECURE_STORAGE_DUMMY_KEY_NAME dummy_len) as (x & -> & Hx); [rewrite length_app; lia|vm_compute; lia|].
    sbind. f_equal. apply eq_bool_prop_intro. rewrite Is_true_true, bool_decide_spec, Z.eqb_eq, Hx.
    unfold dummy_name. rewrite <- Hl, take_app_length. done.
  - f_equal. symmetry. apply bool_decide_eq_false. intros ->. by apply Hl.
Qed.

Lemma key_plain name : key_name name → plain_name name.
Proof. intros [[Hc _] Hd]. by split. Qed.

Lemma has_name_slot name s : plain_name name → slot_ok s → slot_name s = name ↔ has_name name s.
Proof.
  intros [_ Hne] Hs. unfold has_name. destruct s as [[n l]|]; cbn; [by split; [intros ->|intros [= ->]]|].
  split; [|done]. intros <-. done.
Qed.

(** ** Lemmas: one turn of each walk *)

Section turn.
Context (map pre r : bytes) (s : slot).
Hypothesis Hmap : map = pre ++ slot_text s ++ 0 :: r.
Hypothesis Hs : slot_ok s.
Hypothesis Hpre : (length pre <= 2325)%nat.

Abbreviation next := (length (pre ++ slot_text s ++ [0])).

Lemma at_slot : drop (length pre) map = slot_text s ++ 0 :: r.
Proof. by rewrite Hmap, drop_app_length. Qed.

Lemma slot_first : ∃ c, map !! length pre = Some c ∧ (c =? 0) = false.
Proof.
  destruct (text_ok s Hs) as [Hc Hl]. destruct (slot_text s) as [|c t] eqn:Ht; [simpl in Hl; lia|].
  exists c. split; [rewrite Hmap; cbn [app]; by apply list_lookup_middle|]. apply Forall_cons in Hc as [Hc _]. by apply char_nonzero.
Qed.

Lemma slot_end : strlen (drop (length pre) map) = Some (length (slot_text s)).
Proof. rewrite at_slot. by apply strlen_spec, text_ok. Qed.

Lemma slot_next : (length pre + length (slot_text s) + 1)%nat = next.
Proof. clear. rewrite !length_app. simpl. lia. Qed.

Lemma scan_name stop :
  stop 58 = true → (∀ c, is_char c → c ≠ 58 → stop c = false) →
  scan stop MAP_KEY_NAME_SIZE (drop (length pre) map) (Z.of_nat (length pre)) = Some (length (slot_name s)).
Proof.
  intros H1 H2. destruct (slot_name_ok s Hs) as (Hc & H58 & Hl).
  rewrite at_slot. unfold slot_text. rewrite <- app_assoc. cbn [app]. apply scan_stop; [|done|unfold MAP_KEY_NAME_SIZE; lia|unfold SEC_BLK_SIZE; lia].
  unfold is_cstr in *. rewrite Forall_forall in *. intros c Hin. apply H2; [by apply Hc|by apply H58].
Qed.

Lemma scan_len :
  let i := (length pre + length (slot_name s) + 1)%nat in
  drop i map = dec (slot_len s) ++ 0 :: r ∧
  scan stops_len MAP_KEY_DATA_SIZE (drop i map) (Z.of_nat i) = Some (length (dec (slot_len s))).
Proof.
  intros i. destruct (slot_name_ok s Hs) as (_ & _ & Hl).
  destruct (dec_spec (slot_len s) [] (slot_len_ok s Hs)) as (Hd & H32 & Hdl & _).
  assert (drop i map = dec (slot_len s) ++ 0 :: r) as Hdrop.
  { replace map with ((pre ++ slot_name s ++ [58]) ++ dec (slot_len s) ++ 0 :: r)
      by (rewrite Hmap; unfold slot_text; rewrite <- !app_assoc; cbn [app]; done).
    subst i. replace (length pre + length (slot_name s) + 1)%nat with (length (pre ++ slot_name s ++ [58]))
      by (rewrite !length_app; simpl; lia). apply drop_app_length. }
  split; [done|]. rewrite Hdrop. apply scan_stop; [|done|unfold MAP_KEY_DATA_SIZE; lia|unfold SEC_BLK_SIZE; lia].
  unfold is_cstr in *. rewrite Forall_forall in *. intros c Hin. specialize (Hd c Hin). specialize (H32 c Hin). unfold is_char in Hd.
  unfold stops_len. apply orb_false_iff. rewrite !Z.eqb_neq. simpl in H32. lia.
Qed.

Lemma take_name : take (length (slot_name s)) (drop (length pre) map) = slot_name s.
Proof. rewrite at_slot. unfold slot_text. rewrite <- app_assoc. apply take_app_length. Qed.

Lemma into_buf_cstr k a : (length a < k)%nat → into_buf k a = a ++ 0 :: replicate (k - length a - 1) 0.
Proof. clear. intros Hk. unfold into_buf. replace (k - length a)%nat with (S (k - length a - 1)) at 1 by lia. done. Qed.

Lemma probe_turn f index name j len :
  plain_name name →
  probe_loop (S f) map (length pre) index (name ++ 0 :: j) len =
    if decide (has_name name s) then Some (index, Some (slot_len s))
    else probe_loop f map next (index + 1) (name ++ 0 :: j) len.
Proof.
  intros Hn. destruct (slot_name_ok s Hs) as (Hc & _ & Hl). pose proof (slot_len_ok s Hs) as Hlen.
  destruct slot_first as (c & Hc0 & Hcz). destruct scan_len as [Hdrop Hscan].
  destruct (dec_spec (slot_len s) (replicate (32 - length (dec (slot_len s)) - 1) 0) Hlen) as (_ & _ & Hdl & Hv).
  cbn [probe_loop]. rewrite Hc0. sbind. rewrite Hcz. destruct (Z.ltb_spec (Z.of_nat (length pre)) SEC_BLK_SIZE); [|unfold SEC_BLK_SIZE in *; lia].
  cbn [orb negb]. rewrite (scan_name stops_name) by (done || (intros x Hx Hx58; unfold stops_name; unfold is_char in Hx; apply orb_false_iff; rewrite !Z.eqb_neq; lia)).
  sbind. destruct (Nat.leb_spec MAP_KEY_NAME_SIZE (length (slot_name s))); [unfold MAP_KEY_NAME_SIZE in *; lia|].
  rewrite Hscan. sbind.
  destruct (Z.leb_spec SEC_BLK_SIZE (Z.of_nat (length pre + length (slot_name s) + 1 + length (dec (slot_len s))))); [unfold SEC_BLK_SIZE in *; lia|].
  destruct (Nat.leb_spec MAP_KEY_DATA_SIZE (length (dec (slot_len s)))); [unfold MAP_KEY_DATA_SIZE in *; lia|].
  cbn [orb]. rewrite take_name, (into_buf_cstr MAP_KEY_NAME_SIZE) by done. pose proof Hn as [Hnc Hnd].
  edestruct (strcmp_spec name (slot_name s)) as (x & -> & Hx); [done..|]. sbind.
  rewrite slot_end. sbind. rewrite slot_next.
  destruct (decide (has_name name s)) as [He|He]; rewrite <- has_name_slot in He by done.
  - destruct (Z.eqb_spec x 0) as [_|Hne]; [|by destruct Hne; apply Hx].
    rewrite strlen_spec by done. sbind. rewrite Hdrop, take_app_length, into_buf_cstr by done.
    unfold MAP_KEY_DATA_SIZE. rewrite Hv. sbind. rewrite is_dummy_cstr by done. sbind.
    rewrite bool_decide_eq_false_2 by done. cbn [andb]. unfold key_len in Hlen. by rewrite s32_small by lia.
  - destruct (Z.eqb_spec x 0) as [Hx0|_]; [|done]. destruct He. symmetry. by apply Hx.
Qed.

(** What [__fill_name_in_map] and [__discard_name_in_map] read of the entry. *)
Lemma colon_turn name j :
  is_cstr name →
  ∃ c x, map !! length pre = Some c ∧ (c =? 0) || negb (Z.of_nat (length pre) <? SEC_BLK_SIZE) = false ∧
    scan is_colon MAP_KEY_NAME_SIZE (drop (length pre) map) (Z.of_nat (length pre)) = Some (length (slot_name s)) ∧
    (SEC_BLK_SIZE <=? Z.of_nat (length pre + length (slot_name s))) || (MAP_KEY_NAME_SIZE <=? length (slot_name s))%nat = false ∧
    umemcmp (drop (length pre) map) (name ++ 0 :: j) (length (slot_name s)) = Some x ∧
    (x =? 0) && Nat.eqb (length name) (length (slot_name s)) = bool_decide (slot_name s = name).
Proof.
  intros Hn. destruct (slot_name_ok s Hs) as (Hc & _ & Hl). destruct slot_first as (c & Hc0 & Hcz).
  destruct (same_name (slot_name s) name (58 :: dec (slot_len s) ++ 0 :: r) j Hc Hn) as (x & Hx & Hxn).
  exists c, x. split; [done|]. split; [rewrite Hcz; destruct (Z.ltb_spec (Z.of_nat (length pre)) SEC_BLK_SIZE); unfold SEC_BLK_SIZE in *; [done|lia]|].
  split; [apply scan_name; [done|]; intros y _ Hy; by apply Z.eqb_neq|].
  split; [apply orb_false_iff; split; [apply Z.leb_gt; unfold SEC_BLK_SIZE; lia|apply Nat.leb_gt; unfold MAP_KEY_NAME_SIZE; lia]|].
  split; [|done]. rewrite at_slot. unfold slot_text. rewrite <- app_assoc. exact Hx.
Qed.

Lemma dummy_turn : is_dummy (drop (length pre) map) (length (slot_name s)) = Some (bool_decide (is_free s)).
Proof.
  rewrite at_slot. unfold slot_text. rewrite <- app_assoc, is_dummy_cstr by (by apply slot_name_ok). f_equal.
  apply bool_decide_ext. unfold is_free. destruct s as [[n l]|]; [|done]. split; [|done].
  cbn. intros ->. by destruct Hs as [[_ ?] _].
Qed.

Lemma fill_turn f index name j d :
  plain_name name →
  fill_loop (S f) map (length pre) index (name ++ 0 :: j) d =
    if decide (has_name name s) then Some (inl index)
    else fill_loop f map next (index + 1) (name ++ 0 :: j)
           (match d with
            | Some _ => d
            | None => if decide (is_free s) then Some (DummySlot index (length pre) (save_tail map next)) else None
            end).
Proof.
  intros Hn. destruct (colon_turn name j) as (c & x & Hc & H0 & Hscan & Hb & Hx & Hxn); [apply Hn|].
  cbn [fill_loop]. rewrite Hc. sbind. rewrite H0, Hscan. sbind. rewrite Hb, Hx. sbind.
  rewrite strlen_spec by apply Hn. sbind. rewrite Hxn. rewrite dummy_turn. sbind. rewrite slot_end. sbind. rewrite slot_next.
  rewrite (bool_decide_ext _ _ (has_name_slot name s Hn Hs)). by rewrite !decide_bool_decide.
Qed.

Lemma discard_turn f index name j :
  plain_name name →
  discard_loop (S f) map (length pre) index (name ++ 0 :: j) =
    if decide (has_name name s) then
      map' ← print_entry map (length pre) SECURE_STORAGE_DUMMY_KEY_NAME 0;
      e ← strlen (drop (length pre) map');
      Some (restore_tail map' (length pre + e + 1) (save_tail map next), index)
    else discard_loop f map next (index + 1) (name ++ 0 :: j).
Proof.
  intros Hn. destruct (colon_turn name j) as (c & x & Hc & H0 & Hscan & Hb & Hx & Hxn); [apply Hn|].
  cbn [discard_loop]. rewrite Hc. sbind. rewrite H0, Hscan. sbind. rewrite Hb, Hx. sbind.
  rewrite strlen_spec by apply Hn. sbind. rewrite slot_end. sbind. rewrite slot_next, Hxn.
  rewrite (bool_decide_ext _ _ (has_name_slot name s Hn Hs)). by rewrite !decide_bool_decide.
Qed.

End turn.

(** ** Lemmas: the walks over an encoded map *)

Lemma encs_snoc l s : length (encs (l ++ [s])) = (length (encs l) + length (slot_text s) + 1)%nat.
Proof. rewrite encs_app, encs_cons, !length_app. cbn. lia. Qed.

Section walk.
Context (name j : bytes).
Hypothesis Hn : plain_name name.

Lemma probe_slots slots map pre r f index len :
  map = pre ++ encs slots ++ 0 :: r → Forall slot_ok slots →
  (length pre + 75 * length slots <= 2325)%nat → (length slots < f)%nat →
  probe_loop f map (length pre) index (name ++ 0 :: j) len =
    Some (match list_find (has_name name) slots with
          | Some (i, s) => (index + Z.of_nat i, Some (slot_len s))
          | None => (-1, len)
          end).
Proof.
  intros Hm Hok. revert pre f index Hm. induction Hok as [|s slots Hs Hok IH]; intros pre f index Hm Hp Hf;
    (destruct f as [|f]; [lia|]); cbn [length] in *.
  { cbn [probe_loop encs concat fmap list_fmap app] in *. rewrite Hm, list_lookup_middle by done. done. }
  rewrite encs_cons, <- app_assoc in Hm. cbn [app] in Hm.
  rewrite (probe_turn _ _ _ _ Hm Hs) by (done || lia). cbn [list_find]. destruct (decide (has_name name s)) as [He|He].
  { do 2 f_equal. lia. }
  rewrite IH; [|by rewrite Hm, <- !app_assoc|rewrite !length_app; destruct (text_ok s Hs); cbn [length]; lia|lia].
  destruct (list_find (has_name name) slots) as [[i t]|]; cbn; [|done]. do 2 f_equal. lia.
Qed.

Lemma discard_slots slots map pre r f index :
  map = pre ++ encs slots ++ 0 :: r → Forall slot_ok slots →
  (length pre + 75 * length slots <= 2325)%nat → (length slots < f)%nat →
  discard_loop f map (length pre) index (name ++ 0 :: j) =
    match list_find (has_name name) slots with
    | Some (i, s) =>
        let p := (length pre + length (encs (take i slots)))%nat in
        map' ← print_entry map p SECURE_STORAGE_DUMMY_KEY_NAME 0;
        e ← strlen (drop p map');
        Some (restore_tail map' (p + e + 1) (save_tail map (p + length (slot_text s) + 1)), index + Z.of_nat i)
    | None => Some (map, -1)
    end.
Proof.
  intros Hm Hok. revert pre f index Hm. induction Hok as [|s slots Hs Hok IH]; intros pre f index Hm Hp Hf;
    (destruct f as [|f]; [lia|]); cbn [length] in *.
  { cbn [discard_loop encs concat fmap list_fmap app] in *. assert (map !! length pre = Some 0) as -> by (by rewrite Hm, list_lookup_middle). done. }
  rewrite encs_cons, <- app_assoc in Hm. cbn [app] in Hm.
  rewrite (discard_turn _ _ _ _ Hm Hs) by (done || lia). cbn [list_find]. destruct (decide (has_name name s)) as [He|He].
  { cbn [take encs concat fmap list_fmap length]. rewrite <- slot_next, Nat.add_0_r, Z.add_0_r. done. }
  rewrite IH; [|by rewrite Hm, <- !app_assoc|rewrite !length_app; destruct (text_ok s Hs); cbn [length]; lia|lia].
  destruct (list_find (has_name name) slots) as [[i t]|]; cbn [fmap option_fmap option_map prod_map id fst snd]; [|done].
  cbn zeta. cbn [take]. rewrite encs_cons.
  replace (length pre + length (slot_text s ++ 0%Z :: encs (take i slots)))%nat
    with (length (pre ++ slot_text s ++ [0%Z]) + length (encs (take i slots)))%nat by (rewrite !length_app; cbn [length]; lia).
  replace (index + Z.of_nat (S i)) with (index + 1 + Z.of_nat i) by lia. done.
Qed.

(** The first reserved entry, with the place of what follows it. *)
Definition free_slot (map : bytes) (p : nat) (index : Z) (slots : list slot) : option dummy_slot :=
  '(i, _) ← list_find is_free slots;
  Some (DummySlot (index + Z.of_nat i) (p + length (encs (take i slots))) (save_tail map (p + length (encs (take (S i) slots))))).

Lemma free_slot_cons map p index s slots :
  free_slot map p index (s :: slots) =
    if decide (is_free s) then Some (DummySlot index p (save_tail map (p + length (slot_text s) + 1)))
    else free_slot map (p + length (slot_text s) + 1) (index + 1) slots.
Proof.
  unfold free_slot. cbn [list_find]. destruct (decide (is_free s)).
  { cbn [mbind option_bind take]. rewrite encs_cons, length_app. cbn [length].
    change (encs (take 0 slots)) with (@nil Z). change (encs []) with (@nil Z). cbn [length]. do 2 f_equal; [lia..|]. f_equal. lia. }
  destruct (list_find is_free slots) as [[i t]|] eqn:Hf; [|done].
  cbn [fmap option_fmap option_map prod_map mbind option_bind id fst snd]. rewrite !firstn_cons, !encs_cons, !length_app. cbn [length].
  do 2 f_equal; [lia..|]. f_equal. lia.
Qed.

Lemma fill_walk slots map pre r f index d :
  map = pre ++ encs slots ++ r → Forall slot_ok slots → (length pre + 75 * length slots <= 2325)%nat →
  fill_loop (length slots + f) map (length pre) index (name ++ 0 :: j) d =
    match list_find (has_name name) slots with
    | Some (i, _) => Some (inl (index + Z.of_nat i))
    | None => fill_loop f map (length pre + length (encs slots)) (index + Z.of_nat (length slots)) (name ++ 0 :: j)
                (match d with Some _ => d | None => free_slot map (length pre) index slots end)
    end.
Proof.
  intros Hm Hok. revert pre f index d Hm. induction Hok as [|s slots Hs Hok IH]; intros pre f index d Hm Hp; cbn [length] in *.
  { cbn [encs concat fmap list_fmap list_find length]. rewrite Nat.add_0_r, Z.add_0_r. by destruct d. }
  rewrite encs_cons, <- app_assoc in Hm. cbn [app] in Hm.
  cbn [Nat.add]. rewrite (fill_turn _ _ _ _ Hm Hs) by (done || lia). cbn [list_find]. destruct (decide (has_name name s)) as [He|He].
  { by rewrite Z.add_0_r. }
  rewrite IH; [|by rewrite Hm, <- !app_assoc|rewrite !length_app; destruct (text_ok s Hs); cbn [length]; lia].
  destruct (list_find (has_name name) slots) as [[i t]|]; cbn [fmap option_fmap option_map prod_map id fst snd].
  { do 2 f_equal. lia. }
  rewrite free_slot_cons, <- slot_next, encs_cons, length_app. cbn [length].
  replace (length pre + (length (slot_text s) + S (length (encs slots))))%nat
    with (length pre + length (slot_text s) + 1 + length (encs slots))%nat by lia.
  replace (index + Z.of_nat (S (length slots))) with (index + 1 + Z.of_nat (length slots)) by lia.
  destruct d; [done|]. by destruct (decide (is_free s)).
Qed.

Lemma fill_end f map off index d :
  map !! off = Some 0 → fill_loop (S f) map off index (name ++ 0 :: j) d = Some (inr (map, off, index, d)).
Proof. intros Hm. cbn [fill_loop]. by rewrite Hm. Qed.

End walk.

(** ** Lemmas: changing an encoded map *)

Lemma cstring_spec a r : is_cstr a → cstring (a ++ 0 :: r) = Some a.
Proof. induction 1 as [|c l Hc Hl IH]; [done|]. cbn [cstring app]. rewrite char_nonzero by done. by rewrite IH. Qed.

Lemma entry_text s : entry (slot_name s) (slot_len s) = slot_text s ++ [0].
Proof. unfold entry, slot_text. by rewrite <- app_assoc. Qed.

(** Printing the entry of [s] where there is room for it. *)
Lemma print_slot pre q item s :
  slot_ok s → cstring item = Some (slot_name s) → (length pre <= 2325)%nat → (75 <= length q)%nat →
  print_entry (pre ++ q) (length pre) item (slot_len s) = Some (pre ++ slot_text s ++ 0 :: drop (length (slot_text s) + 1) q).
Proof.
  intros Hs Hc Hp Hq. unfold print_entry. rewrite Hc. sbind. rewrite entry_text. destruct (text_ok s Hs) as [_ Hl].
  rewrite length_app. cbn [length]. destruct (Z.leb_spec (Z.of_nat (length pre + (length (slot_text s) + 1))) SEC_BLK_SIZE);
    [|unfold SEC_BLK_SIZE in *; lia]. f_equal.
  unfold splice. rewrite take_app_length, drop_app_ge, length_app by (rewrite length_app; lia). cbn [length].
  rewrite <- app_assoc. cbn [app]. do 4 f_equal. lia.
Qed.

Lemma take_into_buf k n a b :
  (length a <= n)%nat → take n (into_buf k (a ++ b)) = a ++ take (n - length a) (into_buf (k - length a) b).
Proof.
  intros Hn. unfold into_buf. rewrite <- app_assoc, take_app_ge by done. do 3 f_equal. rewrite length_app. f_equal. lia.
Qed.

Lemma into_buf_byte k a : is_byte_list a → is_byte_list (into_buf k a).
Proof. intros Ha. apply Forall_app. split; [done|]. apply Forall_replicate. unfold is_u8. lia. Qed.

Lemma length_into_buf k a : (length a <= k)%nat → length (into_buf k a) = k.
Proof. intros. unfold into_buf. rewrite length_app, length_replicate. lia. Qed.

Lemma map_rep_split map slots i s :
  map_rep map slots → slots !! i = Some s →
  ∃ q, map = encs (take i slots) ++ slot_text s ++ 0 :: encs (drop (S i) slots) ++ replicate (room slots) 0 ++ q.
Proof.
  intros (_ & _ & _ & _ & q & Hm) Hi. exists q. rewrite Hm.
  rewrite <- (take_drop_middle slots i s Hi) at 1. rewrite encs_app, encs_cons, <- !app_assoc. done.
Qed.

Lemma cut_after (a b q : bytes) n :
  n = (length a + length b + 1)%nat → take n (a ++ b ++ 0 :: q) = a ++ b ++ [0] ∧ drop n (a ++ b ++ 0 :: q) = q.
Proof.
  intros ->. replace (a ++ b ++ 0 :: q) with ((a ++ b ++ [0]) ++ q) by (rewrite <- !app_assoc; done).
  split; [apply take_app_length'|apply drop_app_length']; rewrite !length_app; cbn [length]; lia.
Qed.

(** Overwriting entry [i] and moving what follows it. *)
Lemma rep_replace map slots i s s' item :
  map_rep map slots → slots !! i = Some s → slot_ok s' → cstring item = Some (slot_name s') →
  let p := length (encs (take i slots)) in
  ∃ map1, print_entry map p item (slot_len s') = Some map1 ∧ strlen (drop p map1) = Some (length (slot_text s')) ∧
    map_rep (restore_tail map1 (p + length (slot_text s') + 1) (save_tail map (p + length (slot_text s) + 1)))
            (<[i:=s']> slots).
Proof.
  intros Hrep Hi Hs' Hc p. destruct (map_rep_split _ _ _ _ Hrep Hi) as [q Hm].
  destruct Hrep as (Hlen & Hb & H31 & Hok & _). pose proof (lookup_lt_Some _ _ _ Hi) as Hil.
  pose proof (Forall_lookup_1 _ _ _ _ Hok Hi) as Hs.
  destruct (Forall_take_drop slot_ok i slots Hok) as [Ht _]. destruct (Forall_take_drop slot_ok (S i) slots Hok) as [_ Hd].
  pose proof (encs_bound _ Ht) as Hpb. pose proof (encs_bound _ Hd) as Hdb. rewrite length_take in Hpb. rewrite length_drop in Hdb.
  destruct (text_ok s Hs) as [Htc Htl]. destruct (text_ok s' Hs') as [Htc' Htl'].
  set (tail := encs (drop (S i) slots)) in *. set (q2 := replicate (room slots) 0 ++ q) in *.
  assert (is_byte_list q2) as Hq2 by (rewrite Hm in Hb; apply Forall_app in Hb as [_ [_ [_ [_ Hb]%Forall_app]%Forall_cons]%Forall_app]; done).
  assert (save_tail map (p + length (slot_text s) + 1) = into_buf (Z.to_nat 4096) (tail ++ q2)) as Hsave.
  { unfold save_tail. f_equal. rewrite Hm. by apply cut_after. }
  eexists. split.
  { rewrite Hm. apply print_slot; [done..|subst p; lia|]. rewrite Hm, length_app in Hlen. fold p in Hlen. lia. }
  split; [unfold p; rewrite drop_app_length; by apply strlen_spec|].
  rewrite Hsave. unfold restore_tail. set (from := (p + length (slot_text s') + 1)%nat).
  rewrite (proj1 (cut_after (encs (take i slots)) (slot_text s') _ from eq_refl)).
  assert (length tail + room slots <= Z.to_nat (4096 - Z.of_nat from))%nat as Hroom
    by (unfold room, from; lia).
  assert (length (tail ++ q2) <= Z.to_nat 4096)%nat as Hfit
    by (rewrite <- Hlen, Hm, !length_app; cbn [length]; rewrite length_app; lia).
  split; [|split; [|split; [|split]]].
  - rewrite !length_app, length_take, length_into_buf by done. cbn [length]. subst from p. lia.
  - apply Forall_app. split; [apply Forall_app; split; [by apply encs_byte|apply Forall_app; split; [by apply cstr_bytes|by repeat constructor]]|].
    apply Forall_take, into_buf_byte, Forall_app. split; [by apply encs_byte|done].
  - by rewrite length_insert.
  - by apply Forall_insert.
  - rewrite take_into_buf by lia. unfold q2. rewrite take_into_buf by (rewrite length_replicate; lia). eexists.
    rewrite insert_take_drop by done. rewrite encs_app, encs_cons. unfold room. rewrite length_app. cbn [length].
    rewrite length_take, length_drop.
    replace (31 - (i `min` length slots + S (length slots - S i)))%nat with (31 - length slots)%nat by lia.
    rewrite <- !app_assoc. cbn [app]. reflexivity.
Qed.

(** Appending an entry. *)
Lemma rep_append map slots s item :
  map_rep map slots → (length slots < 31)%nat → slot_ok s → cstring item = Some (slot_name s) →
  ∃ map', print_entry map (length (encs slots)) item (slot_len s) = Some map' ∧ map_rep map' (slots ++ [s]).
Proof.
  intros (Hlen & Hb & _ & Hok & q & Hm) H31 Hs Hc. pose proof (encs_bound _ Hok) as Hbd. destruct (text_ok s Hs) as [Htc Htl].
  assert (75 <= room slots)%nat as Hroom by (unfold room; lia).
  eexists. split; [rewrite Hm; apply print_slot; [done..|lia|rewrite length_app, length_replicate; lia]|].
  assert (drop (length (slot_text s) + 1) (replicate (room slots) 0 ++ q) =
    replicate (room (slots ++ [s])) 0 ++ replicate (74 - length (slot_text s)) 0 ++ q) as ->.
  { rewrite drop_app_le by (rewrite length_replicate; lia). rewrite drop_replicate, app_assoc, <- replicate_add.
    do 2 f_equal. unfold room. rewrite length_app. cbn [length]. lia. }
  split; [|split; [|split; [|split]]].
  - rewrite Hm, !length_app, !length_replicate in Hlen. rewrite !length_app. cbn [length]. rewrite !length_app, !length_replicate.
    unfold room in *. rewrite length_app. cbn [length]. lia.
  - rewrite Hm in Hb. apply Forall_app in Hb as [_ [_ Hq]%Forall_app].
    apply Forall_app; split; [by apply encs_byte|]. apply Forall_app; split; [by apply cstr_bytes|].
    constructor; [unfold is_u8; lia|]. repeat (apply Forall_app; split); try done; apply Forall_replicate; unfold is_u8; lia.
  - rewrite length_app. cbn [length]. lia.
  - apply Forall_app. split; [done|]. by repeat constructor.
  - exists (replicate (74 - length (slot_text s)) 0 ++ q). rewrite encs_app, encs_cons, <- !app_assoc. cbn [app]. done.
Qed.

(** ** The map as a list of entries *)

(** A new key takes the first free block, or a new one as long as there are
    fewer than 31. *)
Definition put (key : slot) (slots : list slot) : list slot * Z :=
  match list_find is_free slots with
  | Some (i, _) => (<[i:=key]> slots, Z.of_nat i + 1)
  | None => if (31 <=? length slots)%nat then (slots, -1) else (slots ++ [key], Z.of_nat (length slots) + 1)
  end.

Lemma rep_end map slots : map_rep map slots → map !! length (encs slots) = Some 0 ∧ ∃ r, map = encs slots ++ 0 :: r.
Proof.
  intros (_ & _ & _ & _ & q & ->). unfold room. rewrite Nat.add_1_r. cbn [replicate app].
  split; [by apply list_lookup_middle|by eexists].
Qed.

Section rep.
Context (map : bytes) (slots : list slot) (name j : bytes).
Hypothesis Hrep : map_rep map slots.
Hypothesis Hn : key_name name.

Lemma probe_rep :
  __probe_name_in_map map (name ++ 0 :: j) =
    Some (match list_find (has_name name) slots with
          | Some (i, s) => (Z.of_nat i + 1, Some (slot_len s))
          | None => (-1, None)
          end).
Proof.
  destruct (rep_end _ _ Hrep) as (_ & r & Hm). destruct Hrep as (_ & _ & H31 & Hok & _).
  unfold __probe_name_in_map.
  etrans; [apply (probe_slots name j (key_plain _ Hn) slots map [] r map_fuel 1 None Hm Hok); [cbn [length]|unfold map_fuel]; lia|].
  destruct (list_find _ slots) as [[i s]|]; [|done]. do 2 f_equal. lia.
Qed.

Lemma fill_rep len :
  key_len len →
  ∃ map', __fill_name_in_map map (name ++ 0 :: j) len =
    Some (map', match list_find (has_name name) slots with
                | Some (i, _) => Z.of_nat i + 1
                | None => snd (put (Some (name, len)) slots)
                end) ∧
    map_rep map' (match list_find (has_name name) slots with
                  | Some _ => slots
                  | None => fst (put (Some (name, len)) slots)
                  end) ∧
    (match list_find (has_name name) slots with Some _ => -1 | None => snd (put (Some (name, len)) slots) end = -1 → map' = map).
Proof.
  intros Hlen. destruct (rep_end _ _ Hrep) as (Hend & r & Hm). pose proof Hrep as (_ & _ & H31 & Hok & _).
  assert (slot_ok (Some (name, len))) as Hs by done.
  assert (cstring (name ++ 0 :: j) = Some (slot_name (Some (name, len)))) as Hc by apply cstring_spec, Hn.
  unfold __fill_name_in_map. replace map_fuel with (length slots + S (map_fuel - S (length slots)))%nat by (unfold map_fuel; lia).
  pose proof (fill_walk name j (key_plain _ Hn) slots map [] (0 :: r) (S (map_fuel - S (length slots))) 1 None Hm Hok) as Hw.
  cbn [length] in Hw. rewrite Hw by lia. clear Hw.
  destruct (list_find (has_name name) slots) as [[i s]|]; [sbind; eexists; split; [do 2 f_equal; lia|done]|].
  cbn [length]. rewrite fill_end by done. sbind. unfold put, free_slot.
  destruct (list_find is_free slots) as [[i s]|] eqn:Hf.
  - sbind. apply list_find_Some in Hf as (Hi & Hfree & _).
    destruct (rep_replace _ _ _ _ _ _ Hrep Hi Hs Hc) as (map1 & Hp & He & Hr). rewrite (take_S_r _ _ _ Hi), encs_snoc.
    cbn [dummy_key_start dummy_key_index write_back_buf]. rewrite !Nat.add_0_l. cbn [slot_len] in Hp. rewrite Hp. sbind. rewrite He. sbind.
    eexists. split; [|split; [exact Hr|cbn [snd]; lia]]. replace (1 + Z.of_nat i) with (Z.of_nat i + 1) by lia. done.
  - sbind. destruct (Z.leb_spec 32 (1 + Z.of_nat (length slots))), (Nat.leb_spec 31 (length slots)); try lia; [by eexists|].
    destruct (rep_append _ _ _ _ Hrep ltac:(lia) Hs Hc) as (map' & Hp & Hr). cbn [slot_len] in Hp. rewrite Nat.add_0_l, Hp. sbind.
    eexists. split; [|split; [done|cbn [snd]; lia]]. replace (1 + Z.of_nat (length slots)) with (Z.of_nat (length slots) + 1) by lia. done.
Qed.

Lemma discard_rep :
  ∃ map', __discard_name_in_map map (name ++ 0 :: j) =
    Some (map', match list_find (has_name name) slots with Some (i, _) => Z.of_nat i + 1 | None => -1 end) ∧
    map_rep map' (match list_find (has_name name) slots with Some (i, _) => <[i:=None]> slots | None => slots end) ∧
    (list_find (has_name name) slots = None → map' = map).
Proof.
  destruct (rep_end _ _ Hrep) as (Hend & r & Hm). pose proof Hrep as (_ & _ & H31 & Hok & _).
  unfold __discard_name_in_map.
  pose proof (discard_slots name j (key_plain _ Hn) slots map [] r map_fuel 1 Hm Hok) as Hw.
  cbn [length] in Hw. rewrite Hw by (unfold map_fuel; lia). clear Hw.
  destruct (list_find _ slots) as [[i s]|] eqn:Hf; [|by eexists].
  apply list_find_Some in Hf as (Hi & _).
  destruct (rep_replace _ _ _ _ None SECURE_STORAGE_DUMMY_KEY_NAME Hrep Hi I eq_refl) as (map1 & Hp & He & Hr).
  cbn zeta. cbn [length slot_len] in *. rewrite !Nat.add_0_l, Hp. sbind. rewrite He. sbind.
  eexists. split; [|split; [exact Hr|done]]. replace (1 + Z.of_nat i) with (Z.of_nat i + 1) by lia. done.
Qed.

End rep.

(** ** What the storage needs of the block device *)

(** A device of 32 blocks that neither fails nor forgets.  It may refuse to read
    blocks other than 0 that are not [key_readable], and answer for a block 0
    without magic and CRC what it likes, as long as it is always the same. *)
Class LawfulSec (D : Type) {SD : sec_device D} := {
  sec_wf : D → Prop;
  blk : D → Z → bytes;
  key_readable : bytes → Prop;
  blk_ok d i : sec_wf d → 0 <= i < 32 → length (blk d i) = Z.to_nat 4096 ∧ is_byte_list (blk d i);
  read_key d i : sec_wf d → 1 <= i < 32 → key_readable (blk d i) → secstorage_read d i = Some (blk d i, 0);
  read_map d : sec_wf d → check_secure_storage_map (blk d 0) = Some 0 → secstorage_read d 0 = Some (blk d 0, 0);
  read_map_same d d' : sec_wf d → sec_wf d' → blk d' 0 = blk d 0 → secstorage_read d' 0 = secstorage_read d 0;
  write_blk d i b :
    sec_wf d → 0 <= i < 32 → length b = Z.to_nat 4096 → is_byte_list b →
    ∃ d', secstorage_write d i b = Some (d', 0) ∧ sec_wf d' ∧ blk d' i = b ∧
      ∀ k, 0 <= k < 32 → k ≠ i → blk d' k = blk d k;
  flush_blk d : sec_wf d → ∃ d', secstorage_flush d = Some (d', 0) ∧ sec_wf d' ∧ ∀ k, 0 <= k < 32 → blk d' k = blk d k
}.

(** ** Lemmas: keys and blocks *)

Definition unique (slots : list slot) : Prop :=
  ∀ i k name l l', slots !! i = Some (Some (name, l)) → slots !! k = Some (Some (name, l')) → i = k.

Lemma find_name name slots :
  match list_find (has_name name) slots with
  | Some (i, s) => ∃ len, s = Some (name, len) ∧ slots !! i = Some (Some (name, len))
  | None => ∀ i len, slots !! i ≠ Some (Some (name, len))
  end.
Proof.
  destruct (list_find (has_name name) slots) as [[i s]|] eqn:Hf.
  - apply list_find_Some in Hf as (Hi & Hs & _). destruct s as [[n len]|]; [|done].
    unfold has_name in Hs. cbn in Hs. injection Hs as ->. eauto.
  - apply list_find_None in Hf. intros i len Hi. by apply (Forall_lookup_1 _ _ _ _ Hf Hi).
Qed.

(** Where [put] puts. *)
Lemma put_spec key slots :
  let '(slots', index) := put key slots in
  (slots' = slots ∧ index = -1 ∧ (31 <= length slots)%nat ∧ Forall (λ s, is_Some s) slots) ∨
  (∃ i, index = Z.of_nat i + 1 ∧ (slots !! i = Some None ∨ (i = length slots ∧ (i < 31)%nat)) ∧
     slots' !! i = Some key ∧ (∀ k, k ≠ i → slots' !! k = slots !! k)).
Proof.
  unfold put. destruct (list_find is_free slots) as [[i s]|] eqn:Hf.
  - apply list_find_Some in Hf as (Hi & Hs & _). right. exists i. split; [done|]. rewrite Hs in Hi.
    split; [by left|]. split; [apply list_lookup_insert_eq, (lookup_lt_Some _ _ _ Hi)|].
    intros k Hk. by apply list_lookup_insert_ne.
  - apply list_find_None in Hf. destruct (Nat.leb_spec 31 (length slots)); [left|right].
    + split; [done|]. split; [done|]. split; [done|]. eapply Forall_impl; [exact Hf|]. intros [x|] Hx; [done|by destruct Hx].
    + exists (length slots). split; [done|]. split; [by right|]. split; [by apply list_lookup_middle|].
      intros k Hk. destruct (decide (k < length slots)%nat); [by apply lookup_app_l|].
      rewrite !lookup_ge_None_2; [done|lia|rewrite length_app; cbn; lia].
Qed.

Definition keys (slots : list slot) : list bytes := omap (fmap fst) slots.

Lemma keys_elem name slots : name ∈ keys slots ↔ ∃ i len, slots !! i = Some (Some (name, len)).
Proof.
  unfold keys. rewrite list_elem_of_omap. split.
  - intros ([[n l]|] & Hin & Hs); [|done]. injection Hs as <-. apply list_elem_of_lookup in Hin as [i Hi]. eauto.
  - intros (i & len & Hi). exists (Some (name, len)). split; [by apply list_elem_of_lookup_2 in Hi|done].
Qed.

Lemma keys_nodup slots : unique slots → NoDup (keys slots).
Proof.
  induction slots as [|s slots IH]; intros Hu; [constructor|].
  assert (unique slots) as Hu' by (intros i k name l l' Hi Hk; apply Nat.succ_inj; by eapply Hu).
  destruct s as [[name len]|]; [|by apply IH]. change (keys (Some (name, len) :: slots)) with (name :: keys slots).
  constructor; [|by apply IH]. rewrite keys_elem. intros (i & l & Hi). by specialize (Hu 0%nat (S i) name len l eq_refl Hi).
Qed.

Lemma keys_all slots : Forall (λ s, is_Some s) slots → length (keys slots) = length slots.
Proof. induction 1 as [|s slots [[n l] ->] _ IH]; [done|]. unfold keys in *. cbn. by rewrite IH. Qed.

Lemma keys_le slots : (length (keys slots) <= length slots)%nat.
Proof. induction slots as [|[[n l]|] t IH]; unfold keys in *; cbn; lia. Qed.

Lemma keys_less slots i : slots !! i = Some None → (length (keys slots) < length slots)%nat.
Proof.
  revert i. induction slots as [|s slots IH]; intros [|i] Hi; [done..| |].
  - injection Hi as ->. pose proof (keys_le slots). unfold keys in *. cbn. lia.
  - specialize (IH i Hi). destruct s as [[n l]|]; unfold keys in *; cbn; lia.
Qed.

Section refine.
Context {D : Type} `{LS : LawfulSec D}.

(** The keys of the entries, with the data in their blocks, are those of [M]. *)
Definition sec_holds (slots : list slot) (d : D) (M : gmap bytes bytes) : Prop :=
  unique slots ∧ (∀ i name len, slots !! i = Some (Some (name, len)) → len <= 4096 ∧ key_readable (blk d (Z.of_nat i + 1))) ∧
  ∀ name data, M !! name = Some data ↔
    ∃ i len, slots !! i = Some (Some (name, len)) ∧ data = take (Z.to_nat len) (blk d (Z.of_nat i + 1)).

(** An open storage that holds the keys [M]; as long as nothing was changed,
    opening it again gives the same map. *)
Definition sec_rep (st : sec_state) (d : D) (M : gmap bytes bytes) : Prop :=
  secure_storage_inited st = true ∧ sec_wf d ∧
  (map_dirty st = false → ∃ m, secstorage_read d 0 = Some (m, 0) ∧ usable_map m = Some (secure_storage_map st)) ∧
  ∃ slots, map_rep (secure_storage_map st) slots ∧ sec_holds slots d M.

Section update.
Context (slots slots' : list slot) (d d' : D) (M : gmap bytes bytes) (i : nat).
Hypothesis Hh : sec_holds slots d M.
Hypothesis H31 : (length slots <= 31)%nat.
Hypothesis Hother : ∀ k, k ≠ i → slots' !! k = slots !! k.
Hypothesis Hblk : ∀ k, 0 <= k < 32 → k ≠ Z.of_nat i + 1 → blk d' k = blk d k.

Lemma blk_other k s : k ≠ i → slots !! k = Some s → blk d' (Z.of_nat k + 1) = blk d (Z.of_nat k + 1).
Proof. intros Hk Hs%lookup_lt_Some. apply Hblk; lia. Qed.

Lemma sec_holds_insert name data :
  (∀ k l, slots !! k = Some (Some (name, l)) → k = i) →
  (∀ n l, slots !! i = Some (Some (n, l)) → n = name) →
  slots' !! i = Some (Some (name, Z.of_nat (length data))) → Z.of_nat (length data) <= 4096 → key_readable (blk d' (Z.of_nat i + 1)) →
  take (length data) (blk d' (Z.of_nat i + 1)) = data →
  sec_holds slots' d' (<[name:=data]> M).
Proof.
  intros Hname Hi Hi' Hlen Hrd Hb. destruct Hh as (Hu & Hl & HM).
  assert (∀ k n l, slots' !! k = Some (Some (n, l)) → (k = i ∧ n = name ∧ l = Z.of_nat (length data)) ∨ (k ≠ i ∧ n ≠ name ∧ slots !! k = Some (Some (n, l)))) as Hcase.
  { intros k n l Hk. destruct (decide (k = i)) as [->|Hki]; [left; by simplify_eq|right]. rewrite Hother in Hk by done.
    split; [done|]. split; [intros ->; by eapply Hki, Hname|done]. }
  split; [|split].
  - intros k1 k2 n l l' [(-> & -> & _)|(_ & Hn1 & H1)]%Hcase [(-> & ? & _)|(_ & Hn2 & H2)]%Hcase; [done..|by eapply Hu].
  - intros k n l [(-> & -> & ->)|(Hki & _ & Hk)]%Hcase; [done|]. rewrite (blk_other k _ Hki Hk). by eapply Hl.
  - intros n x. destruct (decide (n = name)) as [->|Hne].
    + rewrite lookup_insert_eq. split.
      * intros [= <-]. exists i, (Z.of_nat (length data)). split; [done|]. by rewrite Nat2Z.id, Hb.
      * intros (k & l & [(-> & _ & ->)|(_ & Hn & _)]%Hcase & ->); [|done]. by rewrite Nat2Z.id, Hb.
    + rewrite lookup_insert_ne, HM by done. split.
      * intros (k & l & Hk & ->). assert (k ≠ i) as Hki by (intros ->; by apply Hne, (Hi _ _ Hk)).
        exists k, l. by rewrite Hother, (blk_other k _ Hki Hk).
      * intros (k & l & [(_ & -> & _)|(Hki & _ & Hk)]%Hcase & ->); [done|]. exists k, l. by rewrite (blk_other k _ Hki Hk).
Qed.

Lemma sec_holds_delete name len :
  slots !! i = Some (Some (name, len)) → slots' !! i = Some None → sec_holds slots' d' (delete name M).
Proof.
  intros Hi Hi'. destruct Hh as (Hu & Hl & HM).
  assert (∀ k n l, slots' !! k = Some (Some (n, l)) → k ≠ i ∧ n ≠ name ∧ slots !! k = Some (Some (n, l))) as Hcase.
  { intros k n l Hk. destruct (decide (k = i)) as [->|Hki]; [by simplify_eq|]. rewrite Hother in Hk by done.
    split; [done|]. split; [intros ->; by eapply Hki, Hu|done]. }
  split; [|split].
  - intros k1 k2 n l l' (_ & _ & H1)%Hcase (_ & _ & H2)%Hcase. by eapply Hu.
  - intros k n l (Hki & _ & Hk)%Hcase. rewrite (blk_other k _ Hki Hk). by eapply Hl.
  - intros n x. destruct (decide (n = name)) as [->|Hne].
    + rewrite lookup_delete_eq. split; [done|]. by intros (k & l & (_ & ? & _)%Hcase & _).
    + rewrite lookup_delete_ne, HM by done. split.
      * intros (k & l & Hk & ->). assert (k ≠ i) as Hki by (intros ->; by simplify_eq).
        exists k, l. by rewrite Hother, (blk_other k _ Hki Hk).
      * intros (k & l & (Hki & _ & Hk)%Hcase & ->). exists k, l. by rewrite (blk_other k _ Hki Hk).
Qed.

End update.

(** The storage is full exactly when it sec_holds 31 keys. *)
Lemma sec_holds_size slots d M : sec_holds slots d M → size M = length (keys slots).
Proof.
  intros (Hu & _ & HM). rewrite <- (size_dom (D := gset bytes)).
  assert (dom M = (list_to_set (keys slots) : gset bytes)) as ->.
  { apply set_eq. intros name. rewrite elem_of_dom, elem_of_list_to_set, keys_elem. split.
    - intros [x (i & len & Hi & _)%HM]. eauto.
    - intros (i & len & Hi). eexists. apply HM. eauto. }
  by rewrite size_list_to_set by (by apply keys_nodup).
Qed.

(** What the walk for a name finds, in terms of [M]. *)
Lemma sec_holds_find slots d M name :
  sec_holds slots d M → sec_wf d → (length slots <= 31)%nat → Forall slot_ok slots →
  match list_find (has_name name) slots with
  | Some (i, s) => ∃ data, slots !! i = Some (Some (name, Z.of_nat (length data))) ∧ (i < 31)%nat ∧
                     s = Some (name, Z.of_nat (length data)) ∧ Z.of_nat (length data) <= 4096 ∧ key_readable (blk d (Z.of_nat i + 1)) ∧
                     take (length data) (blk d (Z.of_nat i + 1)) = data ∧ M !! name = Some data
  | None => M !! name = None ∧ ∀ i len, slots !! i ≠ Some (Some (name, len))
  end.
Proof.
  intros (Hu & Hl & HM) Hwf H31 Hok. pose proof (find_name name slots) as Hf.
  destruct (list_find (has_name name) slots) as [[i s]|].
  - destruct Hf as (len & -> & Hi). pose proof (lookup_lt_Some _ _ _ Hi) as Hlt. destruct (blk_ok d (Z.of_nat i + 1)) as [Hbl _]; [done|lia|].
    pose proof (Hl _ _ _ Hi) as [? ?]. pose proof (Forall_lookup_1 _ _ _ _ Hok Hi) as [_ Hkl]. unfold key_len in Hkl.
    exists (take (Z.to_nat len) (blk d (Z.of_nat i + 1))). rewrite length_take, Hbl.
    replace (Z.of_nat (Z.to_nat len `min` Z.to_nat 4096)) with len by lia.
    split; [done|]. split; [lia|]. split; [done|]. split; [done|]. split; [done|].
    split; [f_equal; lia|]. apply HM. eauto.
  - split; [|done]. destruct (M !! name) as [x|] eqn:Hx; [|done]. apply HM in Hx as (i & len & Hi & _). by destruct (Hf i len).
Qed.

(** ** The operations of the storage *)

Section ops.
Context (st : sec_state) (d : D) (M : gmap bytes bytes) (name j : bytes).
Hypothesis Hrep : sec_rep st d M.
Hypothesis Hn : key_name name.

Lemma sec_probe : sunxi_secure_storage_probe st (name ++ 0 :: j) = Some (match M !! name with Some _ => 0 | None => -1 end).
Proof.
  destruct Hrep as (Hin & Hwf & _ & slots & Hmap & Hh). pose proof Hmap as (_ & _ & H31 & Hok & _).
  unfold sunxi_secure_storage_probe. rewrite Hin. cbn [negb]. rewrite (probe_rep _ _ _ _ Hmap Hn). sbind.
  pose proof (sec_holds_find _ _ _ name Hh Hwf H31 Hok) as Hf. destruct (list_find _ slots) as [[i s]|].
  - destruct Hf as (data & _ & _ & _ & _ & _ & _ & ->). destruct (Z.ltb_spec (Z.of_nat i + 1) 0); [lia|done].
  - by destruct Hf as [-> _].
Qed.

Lemma sec_read n :
  0 <= n →
  sunxi_secure_storage_read st d (name ++ 0 :: j) n =
    Some (match M !! name with
          | Some data => (Some (take (Z.to_nat n) data), Some (Z.of_nat (length data)), 0)
          | None => (None, None, -2)
          end).
Proof.
  intros Hpos. destruct Hrep as (Hin & Hwf & _ & slots & Hmap & Hh). pose proof Hmap as (_ & _ & H31 & Hok & _).
  unfold sunxi_secure_storage_read. rewrite Hin. cbn [negb]. rewrite (probe_rep _ _ _ _ Hmap Hn). sbind.
  pose proof (sec_holds_find _ _ _ name Hh Hwf H31 Hok) as Hf. destruct (list_find _ slots) as [[i s]|]; [|by destruct Hf as [-> _]].
  destruct Hf as (data & _ & Hlt & -> & Hlen & Hrd & Hdata & ->). destruct (Z.ltb_spec (Z.of_nat i + 1) 0); [lia|].
  rewrite read_key by (done || lia). sbind. cbn [Z.ltb Z.compare slot_len]. sbind.
  set (m := if n <? Z.of_nat (length data) then n else Z.of_nat (length data)).
  assert (m = Z.min n (Z.of_nat (length data))) as Hm by (unfold m; destruct (Z.ltb_spec n (Z.of_nat (length data))); lia).
  destruct (Z.ltb_spec m 0), (Z.ltb_spec 4096 m); [lia..|]. cbn [orb]. do 4 f_equal.
  transitivity (take (Z.to_nat n) (take (length data) (blk d (Z.of_nat i + 1)))); [rewrite take_take; f_equal; lia|by rewrite Hdata].
Qed.

(** Writing block [i + 1] for the entry of a key. *)
Lemma write_key map slots i data :
  map_rep map slots → (i < 31)%nat → is_byte_list data → Z.of_nat (length data) <= 4096 →
  (∀ d' : D, sec_wf d' → blk d' (Z.of_nat i + 1) = into_buf (Z.to_nat 4096) data →
     (∀ k, 0 <= k < 32 → k ≠ Z.of_nat i + 1 → blk d' k = blk d k) → sec_holds slots d' (<[name:=data]> M)) →
  ∃ d', secstorage_write d (Z.of_nat i + 1) (into_buf (Z.to_nat 4096) data) = Some (d', 0) ∧
    sec_rep (SecState map true true) d' (<[name:=data]> M).
Proof.
  intros Hmap Hi Hb Hlen Hh. destruct Hrep as (_ & Hwf & _).
  destruct (write_blk d (Z.of_nat i + 1) (into_buf (Z.to_nat 4096) data)) as (d' & Hw & Hwf' & Hbi & Hbo);
    [done|lia|rewrite length_into_buf; lia|by apply into_buf_byte|].
  exists d'. split; [done|]. split; [done|]. split; [done|]. split; [done|]. exists slots. auto.
Qed.

Lemma take_into k data : take (length data) (into_buf k data) = data.
Proof. unfold into_buf. apply take_app_length. Qed.

Lemma sec_write_new data buf :
  M !! name = None → is_byte_list data → Z.of_nat (length data) <= 4096 → key_readable (into_buf (Z.to_nat 4096) data) → slice 0 (length data) buf = Some data →
  ∃ st' d', sunxi_secure_storage_write st d (name ++ 0 :: j) buf (Z.of_nat (length data)) =
      Some (st', d', if (size M <? 31)%nat then 0 else -1) ∧
    sec_rep st' d' (if (size M <? 31)%nat then <[name:=data]> M else M).
Proof.
  intros HM Hb Hlen Hrd Hs. pose proof Hrep as (Hin & Hwf & Hcl & slots & Hmap & Hh). pose proof Hmap as (_ & _ & H31 & Hok & _).
  unfold sunxi_secure_storage_write. rewrite Hin. cbn [negb]. rewrite (probe_rep _ _ _ _ Hmap Hn). sbind.
  pose proof (sec_holds_find _ _ _ name Hh Hwf H31 Hok) as Hf. destruct (list_find _ slots) as [[i s]|] eqn:Hfind.
  { destruct Hf as (x & _ & _ & _ & _ & _ & _ & Hx). by rewrite HM in Hx. }
  destruct Hf as [_ Hno]. cbn [Z.ltb Z.compare].
  destruct (fill_rep _ _ _ j Hmap Hn (Z.of_nat (length data))) as (map' & Hfill & Hmap' & Hsame); [unfold key_len; lia|].
  rewrite Hfind in Hfill, Hmap', Hsame. rewrite Hfill. sbind.
  pose proof (put_spec (Some (name, Z.of_nat (length data))) slots) as Hput.
  destruct (put (Some (name, Z.of_nat (length data))) slots) as [slots' index]. cbn [fst snd] in *.
  rewrite (sec_holds_size _ _ _ Hh). destruct Hput as [(-> & -> & Hfull & Hall)|(i & -> & Hwas & Hi' & Ho)].
  - rewrite keys_all by done. destruct (Nat.ltb_spec (length slots) 31); [lia|]. cbn [Z.ltb Z.compare].
    rewrite Hsame in * by done. eexists _, _. split; [done|]. split; [done|]. split; [done|]. split; [done|]. by exists slots.
  - destruct (Nat.ltb_spec (length (keys slots)) 31) as [_|Hge].
    2: { exfalso. pose proof (keys_le slots). destruct Hwas as [Hf|[-> Hf]]; [apply keys_less in Hf|]; lia. }
    assert (i < 31)%nat as Hi31 by (destruct Hwas as [Hf%lookup_lt_Some|[_ Hf]]; lia).
    destruct (Z.ltb_spec (Z.of_nat i + 1) 0); [lia|]. destruct (Z.ltb_spec 4096 (Z.of_nat (length data))); [lia|].
    rewrite Nat2Z.id, Hs. sbind. destruct (Z.ltb_spec (Z.of_nat (length data)) 0); [lia|].
    destruct (write_key map' slots' i data) as (d' & Hwk & Hr); [done..| |rewrite Hwk; by eexists _, _].
    intros d' Hwf' Hbi Hbo. eapply (sec_holds_insert slots slots' d d' M i); try done.
    + intros k l Hk. by destruct (Hno k l).
    + intros n l Hk. destruct Hwas as [Hw|[-> _]]; [by simplify_eq|]. apply lookup_lt_Some in Hk. lia.
    + by rewrite Hbi.
    + by rewrite Hbi, take_into.
Qed.
(** Writing a key again: only with the same length. *)
Lemma sec_write_again old data buf :
  M !! name = Some old → is_byte_list data → Z.of_nat (length data) <= 4096 → key_readable (into_buf (Z.to_nat 4096) data) → slice 0 (length data) buf = Some data →
  ∃ st' d', sunxi_secure_storage_write st d (name ++ 0 :: j) buf (Z.of_nat (length data)) =
      Some (st', d', if (length old =? length data)%nat then 0 else -1) ∧
    sec_rep st' d' (if (length old =? length data)%nat then <[name:=data]> M else M).
Proof.
  intros HM Hb Hlen Hrd Hs. pose proof Hrep as (Hin & Hwf & Hcl & slots & Hmap & Hh). pose proof Hmap as (_ & _ & H31 & Hok & _).
  unfold sunxi_secure_storage_write. rewrite Hin. cbn [negb]. rewrite (probe_rep _ _ _ _ Hmap Hn). sbind.
  pose proof (sec_holds_find _ _ _ name Hh Hwf H31 Hok) as Hf. destruct (list_find _ slots) as [[i s]|] eqn:Hfind;
    [|destruct Hf as [Hno _]; by rewrite HM in Hno].
  destruct Hf as (x & Hi & Hlt & -> & Hxl & _ & Hx & HMx). rewrite HM in HMx. injection HMx as <-.
  destruct (Z.ltb_spec (Z.of_nat i + 1) 0); [lia|]. cbn [slot_len]. sbind.
  destruct (Nat.eqb_spec (length old) (length data)) as [Heq|Hne].
  2: { destruct (Z.eqb_spec (Z.of_nat (length old)) (Z.of_nat (length data))); [lia|]. cbn [negb Z.ltb Z.compare]. sbind.
       by eexists _, _. }
  rewrite Heq, Z.eqb_refl. cbn [negb]. unfold sunxi_secure_storage_erase_data_only. rewrite Hin. cbn [negb].
  rewrite (probe_rep _ _ _ _ Hmap Hn), Hfind. sbind. destruct (Z.ltb_spec (Z.of_nat i + 1) 0); [lia|].
  destruct (write_blk d (Z.of_nat i + 1) (replicate (Z.to_nat 4096) 0xff)) as (d1 & Hw & Hwf1 & Hb1 & Ho1);
    [done|lia|by rewrite length_replicate|apply Forall_replicate; unfold is_u8; lia|].
  rewrite Hw. sbind. cbn [Z.ltb Z.compare]. sbind. cbn [Z.ltb Z.compare]. destruct (Z.ltb_spec (Z.of_nat i + 1) 0); [lia|].
  destruct (Z.ltb_spec 4096 (Z.of_nat (length data))); [lia|].
  rewrite Nat2Z.id, Hs. sbind. destruct (Z.ltb_spec (Z.of_nat (length data)) 0); [lia|].
  destruct (write_blk d1 (Z.of_nat i + 1) (into_buf (Z.to_nat 4096) data)) as (d2 & Hw2 & Hwf2 & Hb2 & Ho2);
    [done|lia|rewrite length_into_buf; lia|by apply into_buf_byte|].
  rewrite Hw2. sbind. cbn [Z.ltb Z.compare secure_storage_map]. eexists _, _. split; [done|]. do 3 (split; [done|]).
  exists slots. split; [done|]. eapply (sec_holds_insert slots slots d d2 M i); try done.
  - intros k Hk Hki. by rewrite Ho2, Ho1.
  - intros k l Hk. by eapply (proj1 Hh).
  - intros n l Hk. by simplify_eq.
  - by rewrite <- Heq.
  - by rewrite Hb2.
  - by rewrite Hb2, take_into.
Qed.

Lemma sec_erase :
  ∃ st' d', sunxi_secure_storage_erase st d (name ++ 0 :: j) =
      Some (st', d', match M !! name with Some _ => 0 | None => -2 end) ∧
    sec_rep st' d' (delete name M).
Proof.
  pose proof Hrep as (Hin & Hwf & Hcl & slots & Hmap & Hh). pose proof Hmap as (_ & _ & H31 & Hok & _).
  unfold sunxi_secure_storage_erase. rewrite Hin. cbn [negb].
  destruct (discard_rep _ _ _ j Hmap Hn) as (map' & Hd & Hmap' & Hsame). rewrite Hd. sbind.
  pose proof (sec_holds_find _ _ _ name Hh Hwf H31 Hok) as Hf. destruct (list_find _ slots) as [[i s]|].
  - destruct Hf as (x & Hi & Hlt & -> & _ & _ & _ & ->). destruct (Z.ltb_spec (Z.of_nat i + 1) 0); [lia|].
    destruct (write_blk d (Z.of_nat i + 1) (replicate (Z.to_nat 4096) 0xff)) as (d1 & Hw & Hwf1 & Hb1 & Ho1);
      [done|lia|by rewrite length_replicate|apply Forall_replicate; unfold is_u8; lia|].
    rewrite Hw. sbind. cbn [Z.ltb Z.compare]. eexists _, _. split; [done|]. do 3 (split; [done|]). eexists. split; [exact Hmap'|].
    eapply (sec_holds_delete slots _ d d1 M i Hh H31); [|done|exact Hi|apply list_lookup_insert_eq; by eapply lookup_lt_Some].
    intros k Hk. by apply list_lookup_insert_ne.
  - destruct Hf as [HM _]. rewrite HM. cbn [Z.ltb Z.compare]. rewrite Hsame by done. eexists _, _. split; [done|].
    rewrite delete_id by done. do 3 (split; [done|]). by exists slots.
Qed.

End ops.

(** ** Closing and opening *)

Lemma splice_behind off bs (a r : bytes) :
  (length a <= off)%nat → splice off bs (a ++ r) = a ++ splice (off - length a) bs r.
Proof.
  intros Ho. unfold splice. rewrite take_app_ge, drop_app_ge by lia. rewrite <- app_assoc. do 3 f_equal. f_equal. lia.
Qed.

(** Magic and CRC lie behind all entries. *)
Lemma rep_splice map slots off bs :
  map_rep map slots → is_byte_list bs → (2326 <= off)%nat → (off + length bs <= Z.to_nat 4096)%nat → map_rep (splice off bs map) slots.
Proof.
  intros (Hlen & Hb & H31 & Hok & q & Hm) Hbs Ho Hl. split; [rewrite length_splice; lia|]. split; [by apply splice_byte|].
  split; [done|]. split; [done|]. pose proof (encs_bound _ Hok).
  exists (splice (off - length (encs slots ++ replicate (room slots) 0)) bs q).
  rewrite Hm, app_assoc, splice_behind, <- app_assoc; [done|]. rewrite length_app, length_replicate. unfold room. lia.
Qed.

Lemma rep_first map slots : map_rep map slots → ∃ c, map !! 0%nat = Some c.
Proof. intros (Hlen & _). apply lookup_lt_is_Some_2. lia. Qed.

(** A map that was sealed encodes the same entries and passes the check. *)
Lemma seal_rep map slots :
  map_rep map slots → ∃ map', seal_map map = Some map' ∧ map_rep map' slots ∧
    check_secure_storage_map map' = Some 0 ∧ usable_map map' = Some map'.
Proof.
  intros Hrep. unfold seal_map. set (magic := le_bytes 4 STORE_OBJECT_MAGIC).
  set (map1 := splice off_map_magic magic map).
  assert (map_rep map1 slots) as Hrep1
    by (apply rep_splice; [done|apply le_bytes_byte|unfold off_map_magic; lia|unfold magic; rewrite length_le_bytes; unfold off_map_magic; lia]).
  pose proof Hrep1 as (Hl1 & Hb1 & _). rewrite ucrc32_take by (done || unfold off_map_crc; lia). sbind.
  set (crc := crc_ref (take off_map_crc map1)).
  assert (word32 crc) as Hw by (apply lxor_bound; [lia|apply crc_state_word; [lia|by apply Forall_take]|lia]).
  set (map2 := splice off_map_crc (le_bytes 4 crc) map1). exists map2. split; [done|].
  assert (map_rep map2 slots) as Hrep2
    by (apply rep_splice; [done|apply le_bytes_byte|unfold off_map_crc; lia|rewrite length_le_bytes; unfold off_map_crc; lia]).
  split; [done|]. pose proof Hrep2 as (Hl2 & Hb2 & _). destruct (rep_first _ _ Hrep2) as [c Hc].
  assert (check_secure_storage_map map2 = Some 0) as Hck; [|split; [done|]; unfold usable_map; by rewrite Hck, Hc].
  unfold check_secure_storage_map. rewrite !load_le_take by (unfold off_map_magic, off_map_crc; lia). sbind.
  assert (take 4 (drop off_map_magic map2) = magic) as ->.
  { unfold map2. rewrite splice_ne by (rewrite length_le_bytes; unfold off_map_magic, off_map_crc; lia).
    pose proof (splice_eq off_map_magic magic map) as He. unfold magic in He at 1 2. rewrite length_le_bytes in He. apply He.
    destruct Hrep as (-> & _). unfold off_map_magic. lia. }
  assert (take 4 (drop off_map_crc map2) = le_bytes 4 crc) as ->.
  { pose proof (splice_eq off_map_crc (le_bytes 4 crc) map1) as He. rewrite length_le_bytes in He. apply He.
    unfold off_map_crc. lia. }
  unfold magic. rewrite le_val_bytes by (unfold STORE_OBJECT_MAGIC; simpl; lia). rewrite Z.eqb_refl. cbn [negb].
  rewrite le_val_bytes by (simpl; lia). rewrite ucrc32_take by (done || unfold off_map_crc; lia). sbind.
  assert (take off_map_crc map2 = take off_map_crc map1) as ->.
  { pose proof (splice_ne off_map_crc (le_bytes 4 crc) map1 0 off_map_crc) as He. rewrite !drop_0, length_le_bytes in He.
    apply He; unfold off_map_crc; lia. }
  fold crc. by rewrite Z.eqb_refl.
Qed.

Lemma sec_holds_ext slots (d d' : D) M :
  (length slots <= 31)%nat → (∀ k, 1 <= k < 32 → blk d' k = blk d k) → sec_holds slots d M → sec_holds slots d' M.
Proof.
  intros H31 Hb (Hu & Hl & HM). split; [done|].
  split; [intros i name len Hi; rewrite Hb; [by eapply Hl|apply lookup_lt_Some in Hi; lia]|]. intros name x. rewrite HM.
  split; intros (i & len & Hi & ->); exists i, len; split; try done; rewrite Hb; try done; apply lookup_lt_Some in Hi; lia.
Qed.

Lemma sec_reopen st d M :
  sec_rep st d M →
  ∃ st1 d1 st2, sunxi_secure_storage_exit st d = Some (st1, d1, 0) ∧ secure_storage_inited st1 = false ∧
    sunxi_secure_storage_init st1 d1 = Some (st2, d1, 0) ∧ sec_rep st2 d1 M.
Proof.
  intros (Hin & Hwf & Hcl & slots & Hmap & Hh). unfold sunxi_secure_storage_exit. rewrite Hin. cbn [negb].
  pose proof Hmap as (_ & _ & H31 & _).
  assert (∃ d0 m map', sec_wf d0 ∧ secstorage_read d0 0 = Some (m, 0) ∧ usable_map m = Some map' ∧ map_rep map' slots ∧ sec_holds slots d0 M ∧
    ∃ map'' d1, sec_wf d1 ∧ (∀ k, 0 <= k < 32 → blk d1 k = blk d0 k) ∧
      (if map_dirty st then
        map ← seal_map (secure_storage_map st);
        '(d, ret) ← secstorage_write d 0 map;
        if ret <? 0 then Some (SecState map true true, d, -1)
        else '(d, ret) ← secstorage_flush d; Some (SecState map false false, d, ret)
       else '(d, ret) ← secstorage_flush d; Some (SecState (secure_storage_map st) false false, d, ret)) =
      Some (SecState map'' false false, d1, 0)) as (d0 & m & map' & Hwf0 & Hr & Hu & Hmap' & Hh0 & map'' & d1 & Hwf1 & Hb1 & Hex).
  { destruct (map_dirty st).
    - destruct (seal_rep _ _ Hmap) as (map' & Hs & Hmap' & Hck & Hu). rewrite Hs. sbind. pose proof Hmap' as (Hl' & Hb' & _).
      destruct (write_blk d 0 map' Hwf ltac:(lia) Hl' Hb') as (d0 & Hw & Hwf0 & Hb0 & Ho). rewrite Hw. sbind. cbn [Z.ltb Z.compare].
      destruct (flush_blk d0 Hwf0) as (d1 & Hf & Hwf1 & Hk). rewrite Hf. sbind. exists d0, map', map'.
      split; [done|]. split; [rewrite read_map, Hb0; [done|done|by rewrite Hb0]|]. do 2 (split; [done|]).
      split; [apply (sec_holds_ext slots d d0); [done| |done]; intros k Hk'; apply Ho; lia|]. eauto 6.
    - destruct (flush_blk d Hwf) as (d1 & Hf & Hwf1 & Hk). rewrite Hf. sbind. destruct Hcl as (m & Hr & Hu); [done|].
      exists d, m, (secure_storage_map st). do 5 (split; [by auto|]). eauto 6. }
  rewrite Hex. eexists _, d1, _. do 2 (split; [done|]). unfold sunxi_secure_storage_init. cbn [secure_storage_inited map_dirty].
  rewrite (read_map_same d0 d1), Hr by (done || apply Hb1; lia). sbind. cbn [Z.ltb Z.compare]. rewrite Hu. sbind. split; [done|].
  split; [done|]. split; [done|]. cbn. split; [intros _; exists m; by rewrite (read_map_same d0 d1) by (done || apply Hb1; lia)|].
  exists slots. split; [done|]. apply (sec_holds_ext slots d0 d1); [done| |done]. intros k Hk. apply Hb1. lia.
Qed.

End refine.

(** ** Names and lengths the callers must not use *)

Lemma scan_full stop k a c r pos :
  Forall (λ x, stop x = false) a → (k <= length a)%nat → pos + Z.of_nat k <= SEC_BLK_SIZE →
  scan stop k (a ++ c :: r) pos = Some k.
Proof.
  intros Ha. revert k pos. induction Ha as [|x a Hx Ha IH]; intros k pos Hk Hp.
  { cbn [length] in Hk. replace k with 0%nat by lia. cbn [scan app]. by case_match. }
  cbn [scan app length] in *. destruct k as [|k]; [by case_match|]. rewrite Hx.
  destruct (Z.ltb_spec pos SEC_BLK_SIZE); [|lia]. cbn [orb negb]. rewrite IH; [done|lia..].
Qed.

Lemma empty_rep : map_rep empty_map [].
Proof.
  split; [apply length_replicate|]. split; [apply Forall_replicate; unfold is_u8; lia|]. split; [cbn; lia|]. split; [done|].
  exists (replicate (Z.to_nat 4096 - room []) 0). cbn [encs concat fmap list_fmap app]. rewrite <- replicate_add. done.
Qed.

(** An entry with a name that is too long is written all the same. *)
Lemma fill_long map slots long j len :
  map_rep map slots → Forall (λ s, is_Some s) slots → (length slots < 31)%nat →
  is_cstr long → (64 <= length long <= 1000)%nat → key_len len →
  ∃ r, __fill_name_in_map map (long ++ 0 :: j) len =
    Some (encs slots ++ long ++ 58 :: r, Z.of_nat (length slots) + 1) ∧ length (encs slots ++ long ++ 58 :: r) = Z.to_nat 4096.
Proof.
  intros Hrep Hall H31 Hc Hl Hlen. destruct (rep_end _ _ Hrep) as (Hend & r & Hm). pose proof Hrep as (Hlm & _ & _ & Hok & _).
  assert (plain_name long) as Hn. { split; [done|]. intros ->. change (length dummy_name) with 21%nat in Hl. lia. }
  assert (list_find (has_name long) slots = None) as Hnf.
  { apply list_find_None. eapply Forall_impl; [exact Hok|]. intros [[n l]|] Hs; [|done]. intros [= ->]. destruct Hs as [[(_ & _ & ?) _] _]. lia. }
  assert (list_find is_free slots = None) as Hff.
  { apply list_find_None. eapply Forall_impl; [exact Hall|]. by intros s [x ->]. }
  unfold __fill_name_in_map. replace map_fuel with (length slots + S (map_fuel - S (length slots)))%nat by (unfold map_fuel; lia).
  pose proof (fill_walk long j Hn slots map [] (0 :: r) (S (map_fuel - S (length slots))) 1 None Hm Hok) as Hw.
  cbn [length] in Hw. rewrite Hw, Hnf, fill_end by (done || lia). unfold free_slot. rewrite Hff. sbind.
  destruct (Z.leb_spec 32 (1 + Z.of_nat (length slots))); [lia|]. unfold print_entry. rewrite cstring_spec by done. sbind.
  pose proof (encs_bound _ Hok). destruct (dec_spec len [] Hlen) as (_ & _ & Hdl & _).
  assert (length (entry long len) = length long + length (dec len) + 2)%nat as Hel
    by (unfold entry; rewrite length_app; cbn [length]; rewrite length_app; cbn [length]; lia).
  rewrite Nat.add_0_l, Hel.
  destruct (Z.leb_spec (Z.of_nat (length (encs slots) + (length long + length (dec len) + 2))) SEC_BLK_SIZE);
    [|unfold SEC_BLK_SIZE in *; lia]. sbind.
  rewrite Hm, splice_behind, Nat.sub_diag by lia. unfold splice. rewrite take_0, app_nil_l. unfold entry at 1. rewrite <- !app_assoc. cbn [app].
  eexists. split; [do 2 f_equal; lia|]. pose proof (f_equal length Hm) as Hlm'. rewrite length_app in Hlm'. cbn [length] in Hlm'.
  rewrite !length_app. cbn [length]. rewrite <- app_assoc, !length_app, length_drop, Hel. cbn [length]. lia.
Qed.

(** The next new key then finds the map dirty. *)
Lemma fill_after_long slots long r name j len :
  Forall slot_ok slots → (length slots < 31)%nat → is_cstr long → Forall (λ c, c ≠ 58) long → (64 <= length long <= 1000)%nat →
  Forall (λ s, is_Some s) slots → length (encs slots ++ long ++ 58 :: r) = Z.to_nat 4096 →
  key_name name → key_len len → list_find (has_name name) slots = None →
  ∃ map', __fill_name_in_map (encs slots ++ long ++ 58 :: r) (name ++ 0 :: j) len = Some (map', 1) ∧ map_rep map' [Some (name, len)].
Proof.
  intros Hok H31 Hc H58 Hl Hall Hlm Hn Hlen Hnf. set (map := encs slots ++ long ++ 58 :: r) in *.
  assert (list_find is_free slots = None) as Hff.
  { apply list_find_None. eapply Forall_impl; [exact Hall|]. by intros s [x ->]. }
  pose proof (encs_bound _ Hok) as Hbd.
  unfold __fill_name_in_map. replace map_fuel with (length slots + S (map_fuel - S (length slots)))%nat by (unfold map_fuel; lia).
  pose proof (fill_walk name j (key_plain _ Hn) slots map [] (long ++ 58 :: r) (S (map_fuel - S (length slots))) 1 None eq_refl Hok) as Hw.
  cbn [length] in Hw. rewrite Hw, Hnf by lia. clear Hw. unfold free_slot. rewrite Hff. sbind. cbn [Nat.add fill_loop].
  assert (∃ c, map !! length (encs slots) = Some c ∧ (c =? 0) = false) as (c & Hc0 & Hcz).
  { unfold map. destruct long as [|c long]; [simpl in Hl; lia|]. cbn [app]. exists c.
    split; [by apply list_lookup_middle|]. by apply Forall_cons in Hc as [?%char_nonzero _]. }
  rewrite Hc0. sbind. rewrite Hcz. destruct (Z.ltb_spec (Z.of_nat (length (encs slots))) SEC_BLK_SIZE); [|unfold SEC_BLK_SIZE in *; lia].
  cbn [orb negb]. assert (drop (length (encs slots)) map = long ++ 58 :: r) as -> by apply drop_app_length. rewrite scan_full;
    [|eapply Forall_impl; [exact H58|]; intros x Hx; by apply Z.eqb_neq|unfold MAP_KEY_NAME_SIZE; lia|unfold SEC_BLK_SIZE, MAP_KEY_NAME_SIZE; lia].
  sbind. rewrite Nat.leb_refl, orb_true_r. sbind. destruct (Z.leb_spec 32 1); [lia|].
  destruct (rep_append empty_map [] (Some (name, len)) (name ++ 0 :: j) empty_rep) as (map' & Hp & Hr);
    [cbn; lia|done|apply cstring_spec, Hn|].
  change (replicate (Z.to_nat SEC_BLK_SIZE) 0) with empty_map. cbn [encs concat fmap list_fmap length slot_len] in Hp.
  rewrite Hp. sbind. by exists map'.
Qed.

(** An open storage with an empty map. *)
Lemma empty_open {D} `{LawfulSec D} (d : D) dirty :
  sec_wf d → (dirty = false → ∃ m, secstorage_read d 0 = Some (m, 0) ∧ usable_map m = Some empty_map) →
  sec_rep (SecState empty_map true dirty) d ∅.
Proof.
  intros Hwf Hcl. split; [done|]. split; [done|]. split; [exact Hcl|]. exists []. split; [exact empty_rep|].
  split; [by intros i k name l l'|]. split; [by intros i name len|]. intros name data. rewrite lookup_empty.
  split; [done|]. by intros (i & len & ? & _).
Qed.

(** ** A device in memory *)

Abbreviation ram_blocks := (list bytes).

#[global] Instance ram_device : sec_device ram_blocks := {
  secstorage_read d i := Some (default [] (d !! Z.to_nat i), 0);
  secstorage_write d i b := Some (<[Z.to_nat i:=b]> d, 0);
  secstorage_flush d := Some (d, 0)
}.

#[global] Program Instance ram_lawful : LawfulSec ram_blocks := {
  sec_wf d := length d = 32%nat ∧ Forall (λ b, length b = Z.to_nat 4096 ∧ is_byte_list b) d;
  blk d i := default [] (d !! Z.to_nat i);
  key_readable b := True
}.
Next Obligation.
  intros d i [Hl Hd] Hi. destruct (lookup_lt_is_Some_2 d (Z.to_nat i)) as [b Hb]; [lia|].
  cbn in *. rewrite Hb. by apply (Forall_lookup_1 _ _ _ _ Hd Hb).
Qed.
Next Obligation. done. Qed.
Next Obligation. done. Qed.
Next Obligation. intros d d' _ _ Hb. cbn in *. by rewrite Hb. Qed.
Next Obligation.
  intros d i b [Hl Hd] Hi Hlb Hbb. cbn in *. eexists. split; [done|]. split; [split; [by rewrite length_insert|by apply Forall_insert]|].
  split; [by rewrite list_lookup_insert_eq by lia|]. intros k Hk Hne. by rewrite list_lookup_insert_ne by lia.
Qed.
Next Obligation. intros d Hd. cbn. eauto. Qed.

Definition blank_device : ram_blocks := replicate 32 empty_map.

Lemma blank_opens st :
  secure_storage_inited st = false →
  ∃ st', sunxi_secure_storage_init st blank_device = Some (st', blank_device, 0) ∧ sec_rep st' blank_device ∅.
Proof.
  intros Hst. unfold sunxi_secure_storage_init. rewrite Hst. cbn [secstorage_read ram_device].
  assert (usable_map empty_map = Some empty_map) as Hu by (vm_compute; done).
  assert (default [] (blank_device !! Z.to_nat 0) = empty_map) as Hb by done. rewrite Hb. sbind. cbn [Z.ltb Z.compare]. rewrite Hu. sbind.
  eexists. split; [done|]. apply empty_open.
  - split; [done|]. apply Forall_replicate, (conj (proj1 empty_rep) (proj1 (proj2 empty_rep))).
  - intros _. exists empty_map. split; [exact (f_equal (λ b, Some (b, 0)) Hb)|exact Hu].
Qed.

(** ** Theorems *)

(** C5: an open secure storage is a finite map from names to contents of at
    most 31 keys.  For any name of at most 63 characters without a colon, other
    than the reserved one: probing tells whether the name is in the map,
    reading copies as much of its content as the caller's buffer sec_holds and
    returns the full length, erasing removes it, and writing up to 4096 bytes
    adds it (failing without a change when there are 31 keys) or replaces a
    content of the same length (failing without a change when the length
    differs).  No operation affects another key. *)
Theorem secure_storage_is_map {D} `{LawfulSec D} st (d : D) M name j n data buf :
  sec_rep st d M → key_name name → 0 <= n →
  is_byte_list data → Z.of_nat (length data) <= 4096 → key_readable (into_buf (Z.to_nat 4096) data) → slice 0 (length data) buf = Some data →
  sunxi_secure_storage_probe st (name ++ 0 :: j) = Some (match M !! name with Some _ => 0 | None => -1 end) ∧
  sunxi_secure_storage_read st d (name ++ 0 :: j) n =
    Some (match M !! name with
          | Some x => (Some (take (Z.to_nat n) x), Some (Z.of_nat (length x)), 0)
          | None => (None, None, -2)
          end) ∧
  (∃ st' d', sunxi_secure_storage_erase st d (name ++ 0 :: j) =
       Some (st', d', match M !! name with Some _ => 0 | None => -2 end) ∧ sec_rep st' d' (delete name M)) ∧
  (let fits := match M !! name with Some x => (length x =? length data)%nat | None => (size M <? 31)%nat end in
   ∃ st' d', sunxi_secure_storage_write st d (name ++ 0 :: j) buf (Z.of_nat (length data)) =
       Some (st', d', if fits then 0 else -1) ∧ sec_rep st' d' (if fits then <[name:=data]> M else M)).
Proof.
  intros Hrep Hn Hpos Hb Hl Hrd Hs. split; [by apply (sec_probe st d M)|]. split; [by apply sec_read|]. split; [by apply sec_erase|].
  destruct (M !! name) eqn:HM; [by apply sec_write_again|by apply sec_write_new].
Qed.

(** The key ["hdcp"] is written to a blank storage. *)
Definition hdcp : bytes := [104; 100; 99; 112].

Lemma secure_storage_is_map_witness :
  ∃ st, sunxi_secure_storage_init (SecState empty_map false false) blank_device = Some (st, blank_device, 0) ∧
  sec_rep st blank_device ∅ ∧
  ∃ st' d', sunxi_secure_storage_write st blank_device (hdcp ++ 0 :: []) [1; 2; 3] 3 = Some (st', d', 0) ∧
    sec_rep st' d' (<[hdcp:=[1; 2; 3]]> ∅).
Proof.
  destruct (blank_opens (SecState empty_map false false) eq_refl) as (st & Hi & Hr). exists st. split; [done|]. split; [done|].
  destruct (secure_storage_is_map st blank_device ∅ hdcp [] 0 [1; 2; 3] [1; 2; 3] Hr) as (_ & _ & _ & Hw);
    [apply (bool_decide_unpack _); vm_compute; exact I|lia|apply (bool_decide_unpack _); vm_compute; exact I|simpl; lia|done|done|].
  exact Hw.
Defined.

(** Closing the storage and opening it again gives the same keys with the
    same contents, whether the map was changed since it was opened or not: the
    map that was written back carries a magic and a CRC that the next
    [sunxi_secure_storage_init] accepts, and so a key can be written, the
    storage closed and opened, and the key read. *)
Theorem secure_storage_persists {D} `{LawfulSec D} st (d : D) M :
  sec_rep st d M →
  ∃ st1 d1 st2, sunxi_secure_storage_exit st d = Some (st1, d1, 0) ∧ secure_storage_inited st1 = false ∧
    sunxi_secure_storage_init st1 d1 = Some (st2, d1, 0) ∧ sec_rep st2 d1 M ∧
    ∀ name j n, key_name name → 0 <= n →
      sunxi_secure_storage_read st2 d1 (name ++ 0 :: j) n = sunxi_secure_storage_read st d (name ++ 0 :: j) n.
Proof.
  intros Hrep. destruct (sec_reopen st d M Hrep) as (st1 & d1 & st2 & He & H1 & Hi & Hr). exists st1, d1, st2.
  do 4 (split; [done|]). intros name j n Hn Hpos. by rewrite !(sec_read _ _ M).
Qed.

Lemma secure_storage_persists_witness :
  ∃ st st1 d1 st2, sec_rep st blank_device ∅ ∧ sunxi_secure_storage_exit st blank_device = Some (st1, d1, 0) ∧
    sunxi_secure_storage_init st1 d1 = Some (st2, d1, 0).
Proof.
  destruct (blank_opens (SecState empty_map false false) eq_refl) as (st & Hi & Hr).
  destruct (secure_storage_persists st blank_device ∅ Hr) as (st1 & d1 & st2 & He & _ & Hi2 & _). eauto 8.
Defined.

(** A name of 64 or more characters is entered into the map all the same,
    and the next new key finds the map dirty and clears it: every earlier key
    is gone, and the new key takes block 1, the block of the first of them. *)
Theorem long_name_clears_map map slots long j1 l1 name j2 l2 :
  map_rep map slots → Forall (λ s, is_Some s) slots → (length slots < 31)%nat →
  is_cstr long → Forall (λ c, c ≠ 58) long → (64 <= length long <= 1000)%nat → key_len l1 →
  key_name name → key_len l2 → list_find (has_name name) slots = None →
  ∃ map1 map2, __fill_name_in_map map (long ++ 0 :: j1) l1 = Some (map1, Z.of_nat (length slots) + 1) ∧
    __fill_name_in_map map1 (name ++ 0 :: j2) l2 = Some (map2, 1) ∧ map_rep map2 [Some (name, l2)] ∧
    ∀ other j, key_name other → other ≠ name → __probe_name_in_map map2 (other ++ 0 :: j) = Some (-1, None).
Proof.
  intros Hrep Hall H31 Hc H58 Hl Hl1 Hn Hl2 Hnf. pose proof Hrep as (_ & _ & _ & Hok & _).
  destruct (fill_long map slots long j1 l1) as (r & Hf1 & Hlen); [done..|].
  destruct (fill_after_long slots long r name j2 l2) as (map2 & Hf2 & Hr2); [done..|].
  eexists _, map2. split; [exact Hf1|]. split; [exact Hf2|]. split; [done|]. intros other j Ho Hne.
  rewrite (probe_rep _ _ _ _ Hr2 Ho). cbn [list_find]. rewrite decide_False; [done|]. by intros [= ->].
Qed.

Lemma long_name_clears_map_witness :
  ∃ map0 map1 map2, map_rep map0 [Some (hdcp, 3)] ∧
    __fill_name_in_map map0 (replicate 64 97 ++ 0 :: []) 5 = Some (map1, 2) ∧
    __fill_name_in_map map1 ([98] ++ 0 :: []) 7 = Some (map2, 1) ∧
    __probe_name_in_map map2 (hdcp ++ 0 :: []) = Some (-1, None).
Proof.
  assert (key_name hdcp) as Hk by (apply (bool_decide_unpack _); vm_compute; exact I).
  destruct (fill_rep empty_map [] hdcp [] empty_rep Hk 3) as (map0 & _ & Hm0 & _); [unfold key_len; lia|].
  change (map_rep map0 [Some (hdcp, 3)]) in Hm0.
  destruct (long_name_clears_map map0 [Some (hdcp, 3)] (replicate 64 97) [] 5 [98] [] 7 Hm0) as (map1 & map2 & H1 & H2 & _ & H3);
    [by repeat constructor|cbn; lia|apply (bool_decide_unpack _); vm_compute; exact I|by apply Forall_replicate
    |rewrite length_replicate; lia|unfold key_len; lia|apply (bool_decide_unpack _); vm_compute; exact I|unfold key_len; lia|done|].
  exists map0, map1, map2. do 3 (split; [done|]). by apply H3.
Defined.

(** A write of more than 4096 bytes fails, but leaves the new key in the map,
    with a length its block cannot have. *)
Lemma oversize_write_leaves_key {D} `{LawfulSec D} st (d : D) M name j buf len :
  sec_rep st d M → key_name name → M !! name = None → (size M < 31)%nat → 4096 < len → key_len len →
  ∃ st', sunxi_secure_storage_write st d (name ++ 0 :: j) buf len = Some (st', d, -1) ∧
    sunxi_secure_storage_probe st' (name ++ 0 :: j) = Some 0.
Proof.
  intros (Hin & Hwf & Hcl & slots & Hmap & Hh) Hn HM Hsz Hbig Hlen. pose proof Hmap as (_ & _ & H31 & Hok & _).
  unfold sunxi_secure_storage_write. rewrite Hin. cbn [negb]. rewrite (probe_rep _ _ _ _ Hmap Hn). sbind.
  pose proof (sec_holds_find _ _ _ name Hh Hwf H31 Hok) as Hf. destruct (list_find _ slots) as [[i s]|] eqn:Hfind.
  { destruct Hf as (x & _ & _ & _ & _ & _ & _ & Hx). by rewrite HM in Hx. }
  destruct Hf as [_ Hno]. cbn [Z.ltb Z.compare].
  destruct (fill_rep _ _ _ j Hmap Hn len Hlen) as (map' & Hfill & Hmap' & Hsame).
  rewrite Hfind in Hfill, Hmap', Hsame. rewrite Hfill. sbind.
  pose proof (put_spec (Some (name, len)) slots) as Hput. destruct (put (Some (name, len)) slots) as [slots' index]. cbn [fst snd] in *.
  rewrite (sec_holds_size _ _ _ Hh) in Hsz. destruct Hput as [(-> & -> & Hfull & Hall)|(i & -> & Hwas & Hi' & Ho)].
  { rewrite keys_all in Hsz by done. lia. }
  destruct (Z.ltb_spec (Z.of_nat i + 1) 0), (Z.ltb_spec 4096 len); [lia..| |lia]. eexists. split; [done|].
  unfold sunxi_secure_storage_probe. cbn [secure_storage_inited negb secure_storage_map]. rewrite (probe_rep _ _ _ _ Hmap' Hn). sbind.
  pose proof (find_name name slots') as Hf'. destruct (list_find (has_name name) slots') as [[k s]|].
  - destruct (Z.ltb_spec (Z.of_nat k + 1) 0); [lia|done].
  - by destruct (Hf' i len).
Qed.

(** A key with the reserved name, written after some key was erased, is written
    to the free block without being entered into the map: the write succeeds
    and the key is not found. *)
Example reserved_name_not_found :
  match
    '(st, d, _) ← sunxi_secure_storage_init (SecState empty_map false false) blank_device;
    '(st, d, _) ← sunxi_secure_storage_write st d (hdcp ++ [0]) [1; 2; 3] 3;
    '(st, d, _) ← sunxi_secure_storage_erase st d (hdcp ++ [0]);
    '(st, d, r) ← sunxi_secure_storage_write st d SECURE_STORAGE_DUMMY_KEY_NAME [7; 8] 2;
    p ← sunxi_secure_storage_probe st SECURE_STORAGE_DUMMY_KEY_NAME;
    Some (r, p)
  with Some rp => bool_decide (rp = (0, -1)) | None => false end = true.
Proof. vm_compute. done. Qed.
