(* ===== verification/SecObject.v ===== *)
(** * Secure objects (u-boot-2018/sprite/sprite_secure_object.c)

    Keys are not stored as they are but wrapped into a [store_object_t] of fixed
    size, with a magic, the actual length and a CRC; the wrapped object is what
    [SecMap] keeps under the key's name.  A key of the burning tool is itself
    put into a [sunxi_secure_storage_info_t] first.

    An object is modelled as the bytes of the structure.  The encryption by the
    secure OS is an argument of the model.

    The theorems: wrapping and unwrapping are inverse; a secure object that was
    written is read back after the storage was closed and opened, and the other
    keys are unchanged; up to which length the burning tool's keys are accepted. *)

From S2P Require Import Prelude Crc32 Mem CString Printf UCrc32 ImgDecode SecMap.

Local Open Scope Z_scope.

(** ** Data *)

Definition MAX_STORE_LEN : Z := 0xc00.
Definition SUNXI_SECSTORE_VERSION : Z := 1.
Definition STORE_REENCRYPT_MAGIC : Z := 0x86734716.
Definition STORE_WRITE_PROTECT_MAGIC : Z := 0x8ad3820f.

(** Offsets in [store_object_t]. *)
Definition off_obj_magic : nat := 0.
Definition off_obj_id : nat := 4.
Definition off_obj_name : nat := 8.
Definition off_obj_re_encrypt : nat := 72.
Definition off_obj_version : nat := 76.
Definition off_obj_write_protect : nat := 80.
Definition off_obj_reserved : nat := 84.
Definition off_obj_actual_len : nat := 96.
Definition off_obj_data : nat := 100.
Definition off_obj_crc : nat := Z.to_nat 3172.
Definition sizeof_store_object : Z := 3176.

Definition set4 (off : nat) (v : Z) (obj : bytes) : bytes := splice off (le_bytes 4 v) obj.

(** ** Objects *)

Definition __write_protect_item_id (item : bytes) : Z := 0.

(** The target, [*retLen] and the result. *)
Definition wrap_secure_object (src name : bytes) (len : Z) (tagt : bytes) : option (bytes * option Z * Z) :=
  let len := u32 len in
  if MAX_STORE_LEN <? len then Some (tagt, None, -1)
  else if (length tagt <? Z.to_nat sizeof_store_object)%nat then None
  else
    let obj := set4 off_obj_magic STORE_OBJECT_MAGIC tagt in
    field ← slice off_obj_name 64 obj;
    field ← strncpy field name 64;
    let obj := splice off_obj_name field obj in
    let obj := set4 off_obj_re_encrypt 0 obj in
    let obj := set4 off_obj_version SUNXI_SECSTORE_VERSION obj in
    let obj := set4 off_obj_id 0 obj in
    let obj := set4 off_obj_write_protect (if __write_protect_item_id name <? 0 then 0 else STORE_WRITE_PROTECT_MAGIC) obj in
    let obj := splice off_obj_reserved (replicate 3 0) obj in
    let obj := set4 off_obj_actual_len len obj in
    data ← slice 0 (Z.to_nat len) src;
    let obj := splice off_obj_data data obj in
    crc ← ucrc32 0 0 obj off_obj_crc;
    Some (set4 off_obj_crc crc obj, Some sizeof_store_object, 0).

(** Magic and CRC, as [unwrap_secure_object] looks at them. *)
Definition object_sealed (obj : bytes) : option bool :=
  magic ← load_le 4 off_obj_magic obj;
  if negb (magic =? STORE_OBJECT_MAGIC) then Some false
  else
    crc ← load_le 4 off_obj_crc obj;
    c ← ucrc32 0 0 obj off_obj_crc;
    Some (crc =? c).

(** The bytes copied to the payload and [*retLen]; the result. *)
Definition unwrap_secure_object (src : bytes) (len : Z) : option (option (bytes * Z) * Z) :=
  if negb (u32 len =? sizeof_store_object) then Some (None, -1)
  else
    ok ← object_sealed src;
    if negb ok then Some (None, -1)
    else
      actual_len ← load_le 4 off_obj_actual_len src;
      data ← slice off_obj_data (Z.to_nat actual_len) src;
      Some (Some (data, s32 actual_len), 0).

(** ** The list of protected names *)

Definition MAX_OEM_STORE_NUM : nat := 16.
Definition no_protected_items : list bytes := replicate MAX_OEM_STORE_NUM (replicate 64 0).

(** The first free entry is taken; [memcpy] copies no terminator. *)
Fixpoint set_protect_loop (items : list bytes) (name : bytes) : option (list bytes) :=
  match items with
  | [] => Some []
  | item :: items' =>
      c ← item !! 0%nat;
      if c =? 0 then
        n ← strnlen name 64;
        s ← slice 0 n name;
        Some (splice 0 s item :: items')
      else r ← set_protect_loop items' name; Some (item :: r)
  end.

Definition __set_write_protect_name (write_protect_item : list bytes) (name : bytes) : option (list bytes * Z) :=
  if 0 <? __write_protect_item_id name then Some (write_protect_item, 0)
  else items ← set_protect_loop write_protect_item name; Some (items, 0).

(** ** Reading and writing *)

Section objects.
Context {D : Type} `{SD : sec_device D}.

(** [buffer_len] is not looked at. *)
Definition sunxi_secure_object_read (st : sec_state) (d : D) (item_name : bytes) (buffer_len : Z) :
    option (option (bytes * Z) * Z) :=
  '(out, retLen, ret) ← sunxi_secure_storage_read st d item_name 4096;
  if negb (ret =? 0) then Some (None, -1)
  else
    out ← out;
    retLen ← retLen;
    unwrap_secure_object (splice 0 out empty_map) retLen.

Definition sunxi_secure_object_write (st : sec_state) (d : D) (item_name buffer : bytes) (length : Z) :
    option (sec_state * D * Z) :=
  '(so, retLen, ret) ← wrap_secure_object buffer item_name length empty_map;
  if ret <? 0 then Some (st, d, -1)
  else
    retLen ← retLen;
    if 4096 <? retLen then Some (st, d, -1)
    else sunxi_secure_storage_write st d item_name so sizeof_store_object.

(** What is read, when [dir] is set; the result. *)
Definition sunxi_secure_storage_write_or_read (st : sec_state) (d : D) (item_name buffer : bytes) (length dir : Z) :
    option (sec_state * D * option (bytes * Z) * Z) :=
  '(st, d, ret) ← sunxi_secure_storage_init st d;
  if ret <? 0 then Some (st, d, None, -1)
  else
    '(st, d, out, ret) ←
      (if negb (dir =? 0) then
         '(out, ret) ← sunxi_secure_object_read st d item_name length;
         Some (st, d, out, if ret <? 0 then -1 else ret)
       else
         '(st, d, ret) ← sunxi_secure_object_write st d item_name buffer length;
         Some (st, d, None, if ret <? 0 then -1 else ret));
    '(st, d, _) ← sunxi_secure_storage_exit st d;
    Some (st, d, out, ret).

Fixpoint clear_blocks (n : nat) (i : Z) (d : D) : option D :=
  match n with
  | O => Some d
  | S n' => '(d, _) ← secstorage_write d i empty_map; clear_blocks n' (i + 1) d
  end.

Definition clear_secure_store (d : D) (index : Z) : option (D * Z) :=
  d ← (if index =? 0xffff then clear_blocks 32 0 d else '(d, _) ← secstorage_write d index empty_map; Some d);
  Some (d, 0).

(** ** Keys of the burning tool *)

(** The secure mode of the board and the encryption of the secure OS, which
    gives the encrypted data or fails. *)
Class sec_os := SecOs { with_secureos : bool; smc_tee_ssk_encrypt : bytes → option bytes }.

Definition INFO_HEAD_LEN : Z := 76.
Definition off_info_len : nat := 64.
Definition off_info_encrypted : nat := 68.
Definition off_info_write_protect : nat := 72.
Definition off_info_key_data : nat := 76.

(** ["hdcpkeyV22"] and ["hdcpkey"], with their terminators. *)
Definition hdcpkeyV22 : bytes := [104; 100; 99; 112; 107; 101; 121; 86; 50; 50; 0].
Definition hdcpkey : bytes := [104; 100; 99; 112; 107; 101; 121; 0].

(** Names of more than 64 characters overrun [lower_name], and data of more
    than 4020 bytes overrun [key_data]. *)
Definition sunxi_secure_object_build `{sec_os} (name buf : bytes) (len encrypt write_protect : Z) (secdata : bytes) :
    option (bytes * Z) :=
  n ← strlen name;
  if (64 <? n)%nat then None
  else
    secdata ← strcpy secdata name;
    let secdata := set4 off_info_encrypted (u32 encrypt) secdata in
    let secdata := set4 off_info_write_protect (u32 write_protect) secdata in
    let secdata := set4 off_info_len (u32 len) secdata in
    data ← slice 0 (Z.to_nat len) buf;
    c1 ← strncmp hdcpkeyV22 secdata 10;
    c2 ← strncmp hdcpkey secdata 7;
    if (len <? 0) || (4020 <? len) then None
    else if with_secureos && negb ((c1 =? 0) || (c2 =? 0)) then
      match smc_tee_ssk_encrypt data with
      | None => Some (secdata, -1)
      | Some data =>
          if 4020 <? Z.of_nat (length data) then None
          else Some (set4 off_info_len (u32 (Z.of_nat (length data))) (splice off_info_key_data data secdata), 0)
      end
    else Some (splice off_info_key_data data secdata, 0).

Definition sunxi_secure_object_down `{sec_os} (st : sec_state) (d : D) (name buf : bytes) (len encrypt write_protect : Z) :
    option (sec_state * D * Z) :=
  if 4096 <? len then Some (st, d, -1)
  else
    '(secdata, ret) ← sunxi_secure_object_build name buf len encrypt write_protect empty_map;
    if negb (ret =? 0) then Some (st, d, ret)
    else
      n ← load_le 4 off_info_len secdata;
      '(st, d, ret) ← sunxi_secure_object_write st d secdata secdata (INFO_HEAD_LEN + n);
      Some (st, d, if negb (ret =? 0) then -1 else 0).

(** What is copied to [buf]; the structure has 4096 bytes. *)
Definition sunxi_secure_object_up (st : sec_state) (d : D) (name : bytes) (len : Z) : option (option bytes * Z) :=
  '(out, ret) ← sunxi_secure_object_read st d name 4096;
  if negb (ret =? 0) then Some (None, -1)
  else
    '(data, _) ← out;
    let n := u32 len in
    Some (Some (take (Z.to_nat (if n <? 4096 then n else 4096)) (splice 0 data empty_map)), 0).

End objects.

(** ** Lemmas: the structure *)

Definition obj_mem (obj : bytes) : Prop := length obj = Z.to_nat 4096 ∧ is_byte_list obj.

Lemma obj_mem_splice off bs obj :
  obj_mem obj → is_byte_list bs → (off + length bs <= Z.to_nat 4096)%nat → obj_mem (splice off bs obj).
Proof. intros [Hl Hb] Hbs Ho. split; [rewrite length_splice; lia|by apply splice_byte]. Qed.

Lemma obj_mem_set4 off v obj : obj_mem obj → (off + 4 <= Z.to_nat 4096)%nat → obj_mem (set4 off v obj).
Proof. intros Ho Hl. apply obj_mem_splice; [done|apply le_bytes_byte|by rewrite length_le_bytes]. Qed.

Lemma obj_mem_empty : obj_mem empty_map.
Proof. split; [done|]. apply Forall_replicate. unfold is_u8. lia. Qed.

(** A field that is not written keeps its value. *)
Lemma load_splice_ne off bs obj o :
  obj_mem obj → (off + length bs <= Z.to_nat 4096)%nat → (o + 4 <= off ∨ off + length bs <= o)%nat → (o + 4 <= Z.to_nat 4096)%nat →
  load_le 4 o (splice off bs obj) = load_le 4 o obj.
Proof.
  intros [Hl Hb] Ho Hne Hr. rewrite !load_le_take by (rewrite ?length_splice; lia). by rewrite splice_ne by lia.
Qed.

Lemma load_set4 off v obj :
  obj_mem obj → (off + 4 <= Z.to_nat 4096)%nat → is_u32 v → load_le 4 off (set4 off v obj) = Some v.
Proof.
  intros [Hl Hb] Ho Hv. unfold set4. rewrite load_le_take by (rewrite length_splice; rewrite ?length_le_bytes; lia).
  pose proof (splice_eq off (le_bytes 4 v) obj) as He. rewrite length_le_bytes in He. rewrite He by lia.
  rewrite le_val_bytes; [done|]. unfold is_u32 in Hv. simpl. lia.
Qed.

Lemma strncpy_total field name j n :
  is_byte_list field → is_cstr name → length field = n →
  ∃ f, strncpy field (name ++ 0 :: j) n = Some f ∧ length f = n ∧ is_byte_list f.
Proof.
  intros Hf Hn. revert field n Hf. induction Hn as [|c name Hc Hn IH]; intros field n Hf Hl.
  - destruct n; [by exists field|]. destruct Hf as [|x field Hx Hf]; [done|]. cbn. eexists. split; [done|].
    split; [done|]. by constructor; [unfold is_u8; lia|].
  - destruct n; [by exists field|]. destruct Hf as [|x field Hx Hf]; [done|]. cbn [strncpy app].
    rewrite char_nonzero by done. destruct (IH field n Hf) as (f & -> & Hfl & Hfb); [simpl in Hl; lia|]. sbind.
    eexists. split; [done|]. split; [simpl; lia|]. by constructor; [apply char_u8|].
Qed.

(** ** Lemmas: wrapping *)

(** A wrapped payload. *)
Definition wrapped (obj payload : bytes) : Prop :=
  length obj = Z.to_nat sizeof_store_object ∧ is_byte_list obj ∧ Z.of_nat (length payload) <= MAX_STORE_LEN ∧
  (∀ r, is_byte_list r → object_sealed (obj ++ r) = Some true) ∧
  (∀ r, load_le 4 off_obj_actual_len (obj ++ r) = Some (Z.of_nat (length payload))) ∧
  (∀ r, slice off_obj_data (length payload) (obj ++ r) = Some payload).

Lemma unwrap_wrapped obj payload r :
  wrapped obj payload → is_byte_list r →
  unwrap_secure_object (obj ++ r) sizeof_store_object = Some (Some (payload, Z.of_nat (length payload)), 0).
Proof.
  intros (Hl & Hb & Hp & Hs & Ha & Hd) Hr. unfold unwrap_secure_object. change (u32 sizeof_store_object) with sizeof_store_object.
  rewrite Z.eqb_refl. cbn [negb]. rewrite Hs by done. sbind. cbn [negb]. rewrite Ha. sbind.
  rewrite Nat2Z.id, Hd. sbind. unfold MAX_STORE_LEN in Hp. by rewrite s32_small by lia.
Qed.

(** The last steps of [wrap_secure_object]: data and CRC. *)
Lemma seal_wrapped obj payload :
  obj_mem obj → is_byte_list payload → Z.of_nat (length payload) <= MAX_STORE_LEN →
  load_le 4 off_obj_magic obj = Some STORE_OBJECT_MAGIC → load_le 4 off_obj_actual_len obj = Some (Z.of_nat (length payload)) →
  ∃ crc o r, ucrc32 0 0 (splice off_obj_data payload obj) off_obj_crc = Some crc ∧
    set4 off_obj_crc crc (splice off_obj_data payload obj) = o ++ r ∧ obj_mem (o ++ r) ∧ wrapped o payload.
Proof.
  intros Ho Hpb Hpl Hm Ha. unfold MAX_STORE_LEN in Hpl. set (o1 := splice off_obj_data payload obj).
  assert (obj_mem o1) as Ho1 by (apply obj_mem_splice; [done..|unfold off_obj_data; lia]).
  pose proof Ho1 as [Hl1 Hb1].
  set (crc := crc_ref (take off_obj_crc o1)). exists crc.
  assert (is_u32 crc) as Hw.
  { assert (0 <= crc < 2 ^ 32) by (apply lxor_bound; [lia|apply crc_state_word; [lia|by apply Forall_take]|lia]). unfold is_u32. lia. }
  set (o2 := set4 off_obj_crc crc o1).
  assert (obj_mem o2) as Ho2 by (apply obj_mem_set4; [done|unfold off_obj_crc; lia]). pose proof Ho2 as [Hl2 Hb2].
  exists (take (Z.to_nat sizeof_store_object) o2), (drop (Z.to_nat sizeof_store_object) o2). rewrite take_drop.
  split; [by apply ucrc32_take; [|unfold off_obj_crc; lia]|]. split; [done|]. split; [done|].
  assert (length (take (Z.to_nat sizeof_store_object) o2) = Z.to_nat sizeof_store_object) as Hlt
    by (rewrite length_take; unfold sizeof_store_object; lia).
  assert (∀ off r, (off + 4 <= Z.to_nat sizeof_store_object)%nat →
    load_le 4 off (take (Z.to_nat sizeof_store_object) o2 ++ r) = load_le 4 off o2) as Hload.
  { intros off r Hoff. rewrite load_le_app by lia. rewrite <- (take_drop (Z.to_nat sizeof_store_object) o2) at 2.
    by rewrite load_le_app by lia. }
  split; [done|]. split; [by apply Forall_take|]. split; [done|].
  assert (load_le 4 off_obj_crc o2 = Some crc) as Hcrc by (apply load_set4; [done|unfold off_obj_crc; lia|done]).
  assert (∀ o, (o + 4 <= 100)%nat → load_le 4 o o2 = load_le 4 o obj) as Hkeep.
  { intros o Hoff. unfold o2, set4. rewrite load_splice_ne by (done || rewrite ?length_le_bytes; unfold off_obj_crc; lia).
    unfold o1. apply load_splice_ne; [done|..]; unfold off_obj_data; lia. }
  assert (take off_obj_crc o2 = take off_obj_crc o1) as Htake.
  { pose proof (splice_ne off_obj_crc (le_bytes 4 crc) o1 0 off_obj_crc) as He. rewrite !drop_0, length_le_bytes in He.
    apply He; unfold off_obj_crc; lia. }
  split; [|split].
  - intros r Hr. unfold object_sealed. rewrite !Hload, (Hkeep off_obj_magic), Hm, Hcrc by (unfold off_obj_magic, off_obj_crc, sizeof_store_object; lia).
    sbind. rewrite Z.eqb_refl. cbn [negb]. rewrite ucrc32_take;
      [|apply Forall_app; split; [by apply Forall_take|done]|rewrite length_app, Hlt; unfold off_obj_crc, sizeof_store_object; lia].
    sbind. rewrite take_app_le by (rewrite Hlt; unfold off_obj_crc, sizeof_store_object; lia).
    rewrite take_take, Nat.min_l, Htake by (unfold off_obj_crc, sizeof_store_object; lia). fold crc. by rewrite Z.eqb_refl.
  - intros r. rewrite Hload, Hkeep by (unfold off_obj_actual_len, sizeof_store_object; lia). done.
  - intros r. apply slice_app_l. unfold slice. rewrite Hlt, decide_True by (unfold off_obj_data, sizeof_store_object; lia). f_equal.
    rewrite skipn_firstn_comm, take_take, Nat.min_l by (unfold off_obj_data, sizeof_store_object; lia).
    unfold o2, set4. rewrite splice_ne by (rewrite ?length_le_bytes; unfold off_obj_data, off_obj_crc; lia).
    unfold o1. destruct Ho as [Hol _]. apply splice_eq. rewrite Hol. unfold off_obj_data. lia.
Qed.

(** An object under construction. *)
Definition head_ok (obj : bytes) : Prop := obj_mem obj ∧ load_le 4 off_obj_magic obj = Some STORE_OBJECT_MAGIC.

Lemma head_splice off bs obj :
  head_ok obj → is_byte_list bs → (4 <= off)%nat → (length bs <= 64)%nat → (off <= 100)%nat → head_ok (splice off bs obj).
Proof.
  intros [Ho Hm] Hb H4 Hl H100. split; [apply obj_mem_splice; [done..|lia]|].
  rewrite load_splice_ne; [done|done|unfold off_obj_magic; lia..].
Qed.

Lemma head_set4 off v obj : head_ok obj → (4 <= off <= 100)%nat → head_ok (set4 off v obj).
Proof. intros Ho Hl. apply head_splice; [done|apply le_bytes_byte|..]; rewrite ?length_le_bytes; lia. Qed.

Lemma wrap_wrapped name j payload r :
  is_cstr name → is_byte_list payload → Z.of_nat (length payload) <= MAX_STORE_LEN →
  ∃ o t, wrap_secure_object (payload ++ r) (name ++ 0 :: j) (Z.of_nat (length payload)) empty_map =
      Some (o ++ t, Some sizeof_store_object, 0) ∧ obj_mem (o ++ t) ∧ wrapped o payload.
Proof.
  intros Hn Hpb Hpl. unfold MAX_STORE_LEN in Hpl. unfold wrap_secure_object. rewrite u32_small by (unfold is_u32; lia).
  destruct (Z.ltb_spec MAX_STORE_LEN (Z.of_nat (length payload))); [unfold MAX_STORE_LEN in *; lia|].
  change ((length empty_map <? Z.to_nat sizeof_store_object)%nat) with false. cbv zeta.
  set (o1 := set4 off_obj_magic STORE_OBJECT_MAGIC empty_map).
  assert (obj_mem o1) as Ho1 by (apply obj_mem_set4; [apply obj_mem_empty|unfold off_obj_magic; lia]). pose proof Ho1 as [Hl1 Hb1].
  assert (slice off_obj_name 64 o1 = Some (take 64 (drop off_obj_name o1))) as ->
    by (unfold slice; rewrite decide_True; [done|rewrite Hl1; unfold off_obj_name; lia]). sbind.
  destruct (strncpy_total (take 64 (drop off_obj_name o1)) name j 64) as (f & Hf & Hfl & Hfb);
    [by apply Forall_take, Forall_drop|done|rewrite length_take, length_drop, Hl1; unfold off_obj_name; lia|].
  rewrite Hf. sbind. set (o7 := splice off_obj_reserved _ _).
  assert (head_ok o7) as [Ho7 Hm7].
  { unfold o7. apply head_splice; [|apply Forall_replicate, u8_zero|unfold off_obj_reserved; cbn [length replicate]; lia..].
    apply head_set4; [|unfold off_obj_write_protect; lia]. apply head_set4; [|unfold off_obj_id; lia].
    apply head_set4; [|unfold off_obj_version; lia]. apply head_set4; [|unfold off_obj_re_encrypt; lia].
    apply head_splice; [|done|unfold off_obj_name; lia..]. split; [exact Ho1|].
    apply load_set4; [apply obj_mem_empty|unfold off_obj_magic; lia|unfold is_u32, STORE_OBJECT_MAGIC; lia]. }
  rewrite Nat2Z.id, slice_all. sbind. set (o8 := set4 off_obj_actual_len _ o7).
  destruct (seal_wrapped o8 payload) as (crc & o & t & Hc & Ho & Hom & Hw).
  - apply obj_mem_set4; [exact Ho7|unfold off_obj_actual_len; lia].
  - exact Hpb.
  - unfold MAX_STORE_LEN. lia.
  - etrans; [apply load_splice_ne; [exact Ho7|rewrite ?length_le_bytes; unfold off_obj_actual_len, off_obj_magic; lia..]|exact Hm7].
  - apply load_set4; [exact Ho7|unfold off_obj_actual_len; lia|unfold is_u32; lia].
  - rewrite Hc. sbind. rewrite Ho. eauto.
Qed.

(** ** Objects in the storage *)

(** The storage's device can read blocks that hold sealed objects. *)
Class ObjectStorage (D : Type) {SD : sec_device D} {LS : LawfulSec D} :=
  objects_readable b :
    length b = Z.to_nat 4096 → is_byte_list b → object_sealed b = Some true → key_readable b.

#[global] Instance ram_objects : ObjectStorage ram_blocks.
Proof. by intros b. Qed.

(** A name has room for an object: it is new and the storage is not full, or
    it names an object already. *)
Definition has_room (M : gmap bytes bytes) (name : bytes) : bool :=
  match M !! name with Some x => (length x =? Z.to_nat sizeof_store_object)%nat | None => (size M <? 31)%nat end.

Section store.
Context {D : Type} `{OS : ObjectStorage D}.
Context (st : sec_state) (d : D) (M : gmap bytes bytes) (name j : bytes).
Hypothesis Hrep : sec_rep st d M.
Hypothesis Hn : key_name name.

Lemma object_write_run payload r :
  is_byte_list payload → Z.of_nat (length payload) <= MAX_STORE_LEN →
  ∃ o st' d', wrapped o payload ∧
    sunxi_secure_object_write st d (name ++ 0 :: j) (payload ++ r) (Z.of_nat (length payload)) =
      Some (st', d', if has_room M name then 0 else -1) ∧
    sec_rep st' d' (if has_room M name then <[name:=o]> M else M).
Proof.
  intros Hb Hl. destruct (wrap_wrapped name j payload r) as (o & t & Hw & [Hol Hob] & Hwr); [apply Hn|done..|].
  pose proof Hwr as (Hlo & Hbo & _ & Hs & _). exists o. unfold sunxi_secure_object_write. rewrite Hw. sbind.
  assert (key_readable (into_buf (Z.to_nat 4096) o)) as Hrd.
  { apply objects_readable; [apply length_into_buf; rewrite Hlo; unfold sizeof_store_object; lia|by apply into_buf_byte|].
    apply Hs. apply Forall_replicate, u8_zero. }
  assert (Z.of_nat (length o) = sizeof_store_object) as Hz by (rewrite Hlo; done).
  assert (Z.of_nat (length o) <= 4096) as Hle by (rewrite Hz; unfold sizeof_store_object; lia).
  cbn [Z.ltb Z.compare]. change (4096 <? sizeof_store_object) with false. cbv iota. rewrite <- Hz.
  unfold has_room. destruct (M !! name) as [x|] eqn:HM.
  - destruct (sec_write_again st d M name j Hrep Hn x o (o ++ t) HM Hbo Hle Hrd (slice_all _ _)) as (st' & d' & -> & Hr).
    rewrite Hlo in *. eauto.
  - destruct (sec_write_new st d M name j Hrep Hn o (o ++ t) HM Hbo Hle Hrd (slice_all _ _)) as (st' & d' & -> & Hr). eauto.
Qed.

Lemma object_read_run o payload n :
  M !! name = Some o → wrapped o payload →
  sunxi_secure_object_read st d (name ++ 0 :: j) n = Some (Some (payload, Z.of_nat (length payload)), 0).
Proof.
  intros HM Hw. pose proof Hw as (Hlo & Hbo & _). unfold sunxi_secure_object_read.
  rewrite (sec_read st d M name j Hrep Hn 4096), HM by lia. sbind. cbn [Z.eqb negb].
  rewrite take_ge by (rewrite Hlo; unfold sizeof_store_object; lia).
  replace (Z.of_nat (length o)) with sizeof_store_object by (rewrite Hlo; done).
  unfold splice. rewrite take_0, app_nil_l. apply unwrap_wrapped; [done|]. apply Forall_drop, Forall_replicate, u8_zero.
Qed.

End store.

(** ** Lemmas: keys of the burning tool *)

(** A structure that starts with the name. *)
Definition info_ok (name s : bytes) : Prop := obj_mem s ∧ ∃ t, s = name ++ 0 :: t.

Lemma info_splice name off bs s :
  info_ok name s → is_byte_list bs → (length name < off)%nat → (off + length bs <= Z.to_nat 4096)%nat → info_ok name (splice off bs s).
Proof.
  intros [Ho [t ->]] Hb Hlt Hl. split; [by apply obj_mem_splice|].
  replace (name ++ 0 :: t) with ((name ++ [0]) ++ t) by (rewrite <- app_assoc; done).
  rewrite splice_behind by (rewrite length_app; cbn [length]; lia). rewrite <- app_assoc. by eexists.
Qed.

Lemma info_set4 name off v s : info_ok name s → (length name < off <= 100)%nat → info_ok name (set4 off v s).
Proof. intros Hs Hl. apply info_splice; [done|apply le_bytes_byte|lia|rewrite length_le_bytes; lia]. Qed.

Lemma build_plain `{sec_os} name j data r enc wp :
  with_secureos = false → key_name name → is_byte_list data → Z.of_nat (length data) <= 4020 →
  ∃ t, sunxi_secure_object_build (name ++ 0 :: j) (data ++ r) (Z.of_nat (length data)) enc wp empty_map =
      Some (name ++ 0 :: t, 0) ∧ obj_mem (name ++ 0 :: t) ∧
    load_le 4 off_info_len (name ++ 0 :: t) = Some (Z.of_nat (length data)) ∧
    slice off_info_key_data (length data) (name ++ 0 :: t) = Some data.
Proof.
  intros Hos [(Hc & _ & Hl) _] Hb Hlen. unfold sunxi_secure_object_build. rewrite strlen_spec by done. sbind.
  destruct (Nat.ltb_spec 64 (length name)); [lia|]. rewrite strcpy_spec by done.
  destruct (Nat.ltb_spec (length name) (length empty_map)) as [_|Hbad]; [|change (length empty_map) with (Z.to_nat 4096) in Hbad; lia].
  sbind. set (s0 := name ++ 0 :: _).
  assert (info_ok name s0) as Hs0.
  { split; [|by eexists]. split; [unfold s0; rewrite length_app; cbn [length]; rewrite length_drop; change (length empty_map) with (Z.to_nat 4096); lia|].
    apply Forall_app. split; [by apply cstr_bytes|]. constructor; [apply u8_zero|]. apply Forall_drop, Forall_replicate, u8_zero. }
  rewrite Nat2Z.id, slice_all, (u32_small (Z.of_nat (length data))) by (unfold is_u32; lia). sbind.
  set (s2 := set4 off_info_write_protect _ _). set (s3 := set4 off_info_len _ s2).
  assert (info_ok name s2) as Hs2 by (apply info_set4; [apply info_set4; [done|]|]; unfold off_info_encrypted, off_info_write_protect; lia).
  assert (info_ok name s3) as Hs3 by (apply info_set4; [done|]; unfold off_info_len; lia).
  pose proof Hs3 as [Hm3 [t3 Ht3]].
  destruct (strncmp_spec (take 10 hdcpkeyV22) name [] t3 10) as (c1 & Hc1 & _); [apply (bool_decide_unpack _); vm_compute; exact I|done|].
  destruct (strncmp_spec (take 7 hdcpkey) name [] t3 7) as (c2 & Hc2 & _); [apply (bool_decide_unpack _); vm_compute; exact I|done|].
  rewrite <- Ht3 in Hc1, Hc2. change (take 10 hdcpkeyV22 ++ [0]) with hdcpkeyV22 in Hc1. change (take 7 hdcpkey ++ [0]) with hdcpkey in Hc2.
  rewrite Hc1. sbind. rewrite Hc2. sbind. destruct (Z.ltb_spec (Z.of_nat (length data)) 0), (Z.ltb_spec 4020 (Z.of_nat (length data))); [lia..|].
  cbn [orb]. rewrite Hos. cbn [andb]. set (s4 := splice off_info_key_data data s3).
  destruct (info_splice name off_info_key_data data s3) as [Hm4 [t4 Ht4]]; [done..|unfold off_info_key_data; lia|unfold off_info_key_data; lia|].
  fold s4 in Hm4, Ht4. exists t4. rewrite <- Ht4. split; [done|]. split; [done|]. split.
  - unfold s4. rewrite load_splice_ne; [|done|unfold off_info_key_data, off_info_len; lia..].
    apply load_set4; [apply Hs2|unfold off_info_len; lia|unfold is_u32; lia].
  - destruct Hm4 as [Hl4 _]. unfold slice. rewrite decide_True by (rewrite Hl4; unfold off_info_key_data; lia). f_equal.
    apply splice_eq. destruct Hm3 as [Hl3 _]. rewrite Hl3. unfold off_info_key_data. lia.
Qed.

(** A key of up to 4020 bytes goes to the storage as head and data. *)
Lemma down_run {D} `{ObjectStorage D} `{sec_os} st (d : D) M name j data r enc wp :
  sec_rep st d M → with_secureos = false → key_name name → is_byte_list data → Z.of_nat (length data) <= 4020 →
  ∃ st' d' ret, sunxi_secure_object_down st d (name ++ 0 :: j) (data ++ r) (Z.of_nat (length data)) enc wp = Some (st', d', ret) ∧
    if INFO_HEAD_LEN + Z.of_nat (length data) <=? MAX_STORE_LEN
    then ∃ info payload o, info_ok name info ∧ payload = take (76 + length data) info ∧ wrapped o payload ∧
           load_le 4 off_info_len info = Some (Z.of_nat (length data)) ∧ slice off_info_key_data (length data) info = Some data ∧
           ret = (if has_room M name then 0 else -1) ∧ sec_rep st' d' (if has_room M name then <[name:=o]> M else M)
    else st' = st ∧ d' = d ∧ ret = -1.
Proof.
  intros Hrep Hos Hn Hb Hlen. unfold sunxi_secure_object_down. destruct (Z.ltb_spec 4096 (Z.of_nat (length data))); [lia|].
  destruct (build_plain name j data r enc wp Hos Hn Hb Hlen) as (t & -> & Hm & Hload & Hdata). sbind. cbn [Z.eqb negb].
  rewrite Hload. sbind. set (info := name ++ 0 :: t) in *. pose proof Hm as [Hli Hbi].
  destruct (Z.leb_spec (INFO_HEAD_LEN + Z.of_nat (length data)) MAX_STORE_LEN) as [Hfit|Hbig].
  - set (payload := take (76 + length data) info).
    assert (Z.of_nat (length payload) = INFO_HEAD_LEN + Z.of_nat (length data)) as Hpl
      by (unfold payload; rewrite length_take, Hli; unfold INFO_HEAD_LEN, MAX_STORE_LEN in *; lia).
    destruct (object_write_run st d M name t Hrep Hn payload (drop (76 + length data) info)) as (o & st' & d' & Hw & Hrun & Hr);
      [by apply Forall_take|lia|]. unfold payload in Hrun at 1. rewrite take_drop, Hpl in Hrun. fold info in Hrun.
    rewrite Hrun. sbind. exists st', d', (if has_room M name then 0 else -1). split; [by destruct (has_room M name)|].
    exists info, payload, o. do 6 (split; [done || (split; [done|by eexists])|]). done.
  - unfold sunxi_secure_object_write, wrap_secure_object.
    rewrite u32_small by (unfold is_u32, INFO_HEAD_LEN; lia). destruct (Z.ltb_spec MAX_STORE_LEN (INFO_HEAD_LEN + Z.of_nat (length data))); [|lia].
    sbind. cbn [Z.ltb Z.compare]. sbind. cbn [Z.eqb negb]. by exists st, d, (-1).
Qed.

(** Reading the key gives head and data, followed by zeros. *)
Lemma up_run {D} `{ObjectStorage D} st (d : D) M name j o info data :
  sec_rep st d M → key_name name → M !! name = Some o → info_ok name info → Z.of_nat (length data) <= 2996 →
  wrapped o (take (76 + length data) info) → slice off_info_key_data (length data) info = Some data →
  ∃ info', sunxi_secure_object_up st d (name ++ 0 :: j) 4096 = Some (Some info', 0) ∧ (∃ t, info' = name ++ 0 :: t) ∧
    load_le 4 off_info_len info' = load_le 4 off_info_len info ∧ slice off_info_key_data (length data) info' = Some data.
Proof.
  intros Hrep Hn HM [[Hli Hbi] [t Hinfo]] Hlen Hw Hdata. unfold sunxi_secure_object_up.
  assert (length (take (76 + length data) info) = (76 + length data)%nat) as Hlt by (rewrite length_take, Hli; lia).
  rewrite (object_read_run st d M name j Hrep Hn o _ 4096 HM Hw). sbind. cbn [Z.eqb negb].
  change (u32 4096) with 4096. cbn [Z.ltb Z.compare Pos.compare Pos.compare_cont].
  rewrite take_ge by (rewrite length_splice; [done|rewrite Hlt; change (length empty_map) with (Z.to_nat 4096); lia]).
  eexists. split; [done|]. unfold splice. rewrite take_0, app_nil_l. split; [|split].
  - assert (length name < 76 + length data)%nat by (destruct Hn as [(_ & _ & ?) _]; lia). generalize (drop (0 + length (take (76 + length data) info)) empty_map). intros z. rewrite Hinfo.
    replace (name ++ 0 :: t) with ((name ++ [0]) ++ t) by (rewrite <- app_assoc; done).
    rewrite take_app_ge by (rewrite length_app; cbn [length]; lia). rewrite <- !app_assoc. by eexists.
  - rewrite load_le_app by (rewrite Hlt; unfold off_info_len; lia).
    rewrite <- (take_drop (76 + length data) info) at 2. by rewrite load_le_app by (rewrite Hlt; unfold off_info_len; lia).
  - apply slice_app_l. unfold slice in *. rewrite Hlt, decide_True by (unfold off_info_key_data; lia).
    rewrite decide_True in Hdata by (rewrite Hli; unfold off_info_key_data; lia). injection Hdata as Hdata. f_equal.
    rewrite skipn_firstn_comm, take_take, Nat.min_l by (unfold off_info_key_data; lia). exact Hdata.
Qed.

(** ** Theorems *)

(** C20: a secure object survives the storage.  When a payload of up to 3072
    bytes is written under a name that has room for it, the write succeeds; after
    the storage was closed and opened again the object is read back with the
    same payload and length, and every other key reads as it did before the
    write. *)
Theorem secure_object_roundtrip {D} `{ObjectStorage D} st (d : D) M name j payload r :
  sec_rep st d M → key_name name → is_byte_list payload → Z.of_nat (length payload) <= MAX_STORE_LEN → has_room M name = true →
  ∃ st1 d1 st2 d2 st3,
    sunxi_secure_object_write st d (name ++ 0 :: j) (payload ++ r) (Z.of_nat (length payload)) = Some (st1, d1, 0) ∧
    sunxi_secure_storage_exit st1 d1 = Some (st2, d2, 0) ∧ sunxi_secure_storage_init st2 d2 = Some (st3, d2, 0) ∧
    (∀ n, sunxi_secure_object_read st3 d2 (name ++ 0 :: j) n = Some (Some (payload, Z.of_nat (length payload)), 0)) ∧
    (∀ other k n, key_name other → other ≠ name → 0 <= n →
       sunxi_secure_storage_read st3 d2 (other ++ 0 :: k) n = sunxi_secure_storage_read st d (other ++ 0 :: k) n).
Proof.
  intros Hrep Hn Hb Hl Hroom. destruct (object_write_run st d M name j Hrep Hn payload r Hb Hl) as (o & st1 & d1 & Hw & Hrun & Hr1).
  rewrite Hroom in Hrun, Hr1. destruct (sec_reopen st1 d1 _ Hr1) as (st2 & d2 & st3 & He & _ & Hi & Hr3).
  exists st1, d1, st2, d2, st3. do 3 (split; [done|]). split.
  - intros n. eapply object_read_run; [exact Hr3|done|apply lookup_insert_eq|done].
  - intros other k n Ho Hne Hpos. rewrite (sec_read _ _ _ _ k Hr3 Ho n Hpos), (sec_read _ _ _ _ k Hrep Ho n Hpos).
    by rewrite lookup_insert_ne by done.
Qed.

Lemma secure_object_roundtrip_witness :
  ∃ st st1 d1, sec_rep st blank_device ∅ ∧
    sunxi_secure_object_write st blank_device (hdcp ++ 0 :: []) ([1; 2; 3] ++ []) 3 = Some (st1, d1, 0).
Proof.
  destruct (blank_opens (SecState empty_map false false) eq_refl) as (st & Hi & Hr).
  destruct (secure_object_roundtrip st blank_device ∅ hdcp [] [1; 2; 3] [] Hr) as (st1 & d1 & _ & _ & _ & Hw & _);
    [apply (bool_decide_unpack _); vm_compute; exact I|apply (bool_decide_unpack _); vm_compute; exact I|unfold MAX_STORE_LEN; simpl; lia|done|].
  exists st, st1, d1. split; [done|]. exact Hw.
Defined.

(** C40: which keys the burning tool can store, on a board without secure OS.  A
    key of up to 2996 bytes whose name has room is stored, and reading it gives
    a structure with its name, its length and its data; a key of 2997 to 4020
    bytes is refused and nothing changes; one of 4021 to 4096 bytes, which
    passes the check of [sunxi_secure_object_down], overruns the structure it is
    copied to. *)
Theorem burned_key_bounds {D} `{ObjectStorage D} `{sec_os} st (d : D) M name j data r enc wp :
  sec_rep st d M → with_secureos = false → key_name name → is_byte_list data → has_room M name = true →
  let len := Z.of_nat (length data) in
  let down := sunxi_secure_object_down st d (name ++ 0 :: j) (data ++ r) len enc wp in
  (len <= 2996 →
     ∃ st' d' info, down = Some (st', d', 0) ∧ sunxi_secure_object_up st' d' (name ++ 0 :: j) 4096 = Some (Some info, 0) ∧
       (∃ t, info = name ++ 0 :: t) ∧ load_le 4 off_info_len info = Some len ∧ slice off_info_key_data (length data) info = Some data) ∧
  (2996 < len <= 4020 → down = Some (st, d, -1)) ∧
  (4020 < len <= 4096 → down = None).
Proof.
  intros Hrep Hos Hn Hb Hroom len down. split; [|split].
  - intros Hlen. destruct (down_run st d M name j data r enc wp Hrep Hos Hn Hb ltac:(lia)) as (st' & d' & ret & Hdown & Hcase).
    destruct (Z.leb_spec (INFO_HEAD_LEN + Z.of_nat (length data)) MAX_STORE_LEN) as [_|Hbig]; [|unfold INFO_HEAD_LEN, MAX_STORE_LEN in Hbig; lia].
    destruct Hcase as (info & payload & o & Hinfo & -> & Hw & Hload & Hdata & -> & Hr). rewrite Hroom in Hdown, Hr.
    destruct (up_run st' d' _ name j o info data Hr Hn (lookup_insert_eq _ _ _) Hinfo Hlen Hw Hdata) as (info' & Hup & Ht & Hl & Hd).
    exists st', d', info'. by rewrite Hl.
  - intros Hlen. destruct (down_run st d M name j data r enc wp Hrep Hos Hn Hb ltac:(lia)) as (st' & d' & ret & Hdown & Hcase).
    destruct (Z.leb_spec (INFO_HEAD_LEN + Z.of_nat (length data)) MAX_STORE_LEN) as [Hfit|_]; [unfold INFO_HEAD_LEN, MAX_STORE_LEN in Hfit; lia|].
    destruct Hcase as (-> & -> & ->). exact Hdown.
  - intros Hlen. unfold down, sunxi_secure_object_down. destruct (Z.ltb_spec 4096 len); [lia|].
    unfold sunxi_secure_object_build. destruct Hn as [(Hc & _ & Hl) _]. rewrite strlen_spec by done. sbind.
    destruct (Nat.ltb_spec 64 (length name)); [lia|]. destruct (strcpy empty_map (name ++ 0 :: j)); [|done]. sbind.
    destruct (slice 0 (Z.to_nat len) (data ++ r)); [|done]. sbind. destruct (strncmp hdcpkeyV22 _ _); [|done]. sbind. destruct (strncmp hdcpkey _ _); [|done]. sbind.
    destruct (Z.ltb_spec len 0), (Z.ltb_spec 4020 len); [lia..| |lia]. done.
Qed.

(** A board without secure OS. *)
#[local] Instance plain_board : sec_os := SecOs false (λ _, None).

Lemma burned_key_bounds_witness :
  ∃ st st1 d1 info, sec_rep st blank_device ∅ ∧
    sunxi_secure_object_down st blank_device (hdcp ++ 0 :: []) ([1; 2; 3] ++ []) 3 0 0 = Some (st1, d1, 0) ∧
    sunxi_secure_object_up st1 d1 (hdcp ++ 0 :: []) 4096 = Some (Some info, 0).
Proof.
  destruct (blank_opens (SecState empty_map false false) eq_refl) as (st & Hi & Hr).
  destruct (burned_key_bounds st blank_device ∅ hdcp [] [1; 2; 3] [] 0 0 Hr) as (Hok & _);
    [done|apply (bool_decide_unpack _); vm_compute; exact I|apply (bool_decide_unpack _); vm_compute; exact I|done|].
  destruct Hok as (st1 & d1 & info & Hd & Hu & _); [simpl; lia|]. exists st, st1, d1, info. split; [done|]. split; [exact Hd|exact Hu].
Defined.
