(* ===== verification/SecMmc.v ===== *)
(** * Secure storage on a card (u-boot-2018/drivers/sunxi_flash/mmc/sdmmc.c)

    Every item of the secure storage has two copies of 4 KiB on the card, one
    behind the other.  Writing writes both; reading takes the first copy, and
    the second one when the first cannot be read or is damaged.

    The cards are the byte maps of [Flash], reached through its driver
    interface; the work mode says which card and which routines are used.  The
    buffers are modelled by their contents: the copy through an aligned buffer
    does not change them, and what is in the buffer after a failure is not used
    by any caller.

    The theorems: the card is a block device as [SecMap] needs it, for objects
    of [SecObject]; which copy is read when one of them is damaged, and where
    the second copy is not used although it is good. *)

From S2P Require Import Prelude Crc32 Mem CString UCrc32 Flash ImgDecode SecMap SecObject.

Local Open Scope Z_scope.

(** ** Data *)

Definition MAX_SECURE_STORAGE_MAX_ITEM : Z := 32.
Definition SDMMC_ITEM_SIZE : Z := 8.
Definition WORK_MODE_BOOT : Z := 0.
Definition WORK_MODE_SPRITE_RECOVERY : Z := 0x13.
Definition WORK_MODE_PRODUCT : Z := 0x10.

(** [mmc_boot] and [mmc_sprite]; [None] is NULL. *)
Record sdmmc_cards := SdmmcCards { mmc_boot : option disk; mmc_sprite : option disk }.

(** The work mode and the start of the secure storage on the card
    ([sunxi_flashmap_offset(FLASHMAP_SDMMC, SEC_STORAGE)]). *)
Class sdmmc_cfg := SdmmcCfg { work_mode : Z; sec_start : Z }.

Section mmc.
Context `{DR : flash_driver} `{CF : sdmmc_cfg}.

Definition boot_mode : bool := (work_mode =? WORK_MODE_BOOT) || (work_mode =? WORK_MODE_SPRITE_RECOVERY).
Definition product_mode : bool := negb (Z.land work_mode WORK_MODE_PRODUCT =? 0) || (work_mode =? 0x30).

(** The first sector of copy [k] of an item. *)
Definition copy_sector (k item : Z) : Z := sec_start + SDMMC_ITEM_SIZE * 2 * item + SDMMC_ITEM_SIZE * k.

(** The tests of the item and the block count. *)
Definition sec_args_ok (item nblock : Z) : bool :=
  negb (MAX_SECURE_STORAGE_MAX_ITEM <? item) && negb (SDMMC_ITEM_SIZE <? nblock).

(** ** Copies *)

Definition read_copy (card : option disk) (k item nblock : Z) : option (bytes * Z) :=
  d ← card;
  let '(r, bs) := flash_read d (copy_sector k item) nblock in
  Some (bs, if r =? nblock then 0 else -1).

Definition sunxi_flash_mmc_secread (cards : sdmmc_cards) (item nblock : Z) : option (bytes * Z) :=
  if negb (sec_args_ok item nblock) then Some ([], -1) else read_copy (mmc_boot cards) 0 item nblock.

Definition sunxi_flash_mmc_secread_backup (cards : sdmmc_cards) (item nblock : Z) : option (bytes * Z) :=
  if negb (sec_args_ok item nblock) then Some ([], -1) else read_copy (mmc_boot cards) 1 item nblock.

Definition sunxi_sprite_mmc_secread (cards : sdmmc_cards) (item nblock : Z) : option (bytes * Z) :=
  match (match mmc_sprite cards with Some d => Some d | None => mmc_boot cards end) with
  | None => Some ([], -1)
  | Some d => if negb (sec_args_ok item nblock) then Some ([], -1) else read_copy (Some d) 0 item nblock
  end.

Definition sunxi_sprite_mmc_secread_backup (cards : sdmmc_cards) (item nblock : Z) : option (bytes * Z) :=
  if negb (sec_args_ok item nblock) then Some ([], -1) else read_copy (mmc_sprite cards) 1 item nblock.

(** Both copies, the second only when the first was written. *)
Definition write_copies (card : option disk) (item : Z) (buf : bytes) (nblock : Z) : option (disk * Z) :=
  d ← card;
  '(d, r) ← flash_write d (copy_sector 0 item) nblock buf;
  if negb (r =? nblock) then Some (d, -1)
  else
    '(d, r) ← flash_write d (copy_sector 1 item) nblock buf;
    Some (d, if r =? nblock then 0 else -1).

Definition sunxi_flash_mmc_secwrite (cards : sdmmc_cards) (item : Z) (buf : bytes) (nblock : Z) : option (sdmmc_cards * Z) :=
  if negb (sec_args_ok item nblock) then Some (cards, -1)
  else '(d, ret) ← write_copies (mmc_boot cards) item buf nblock; Some (SdmmcCards (Some d) (mmc_sprite cards), ret).

Definition sunxi_sprite_mmc_secwrite (cards : sdmmc_cards) (item : Z) (buf : bytes) (nblock : Z) : option (sdmmc_cards * Z) :=
  if negb (sec_args_ok item nblock) then Some (cards, -1)
  else '(d, ret) ← write_copies (mmc_sprite cards) item buf nblock; Some (SdmmcCards (mmc_boot cards) (Some d), ret).

(** ** Items *)

Definition blkcnt_of (len : Z) : Z := (len + 511) / 512.

Definition check_secure_storage_key (buffer : bytes) : option Z :=
  ok ← object_sealed buffer; Some (if (ok : bool) then 0 else -1).

(** The first copy, as both readers read it; [None] inside is the wrong work
    mode. *)
Definition read_first (cards : sdmmc_cards) (item blkcnt : Z) : option (option (bytes * Z)) :=
  if boot_mode then r ← sunxi_flash_mmc_secread cards item blkcnt; Some (Some r)
  else if product_mode then r ← sunxi_sprite_mmc_secread cards item blkcnt; Some (Some r)
  else Some None.

Definition mmc_secure_storage_read_key (cards : sdmmc_cards) (item len : Z) : option (bytes * Z) :=
  let blkcnt := blkcnt_of len in
  first ← read_first cards item blkcnt;
  match first with
  | None => Some ([], -1)
  | Some (buf, ret) =>
      good ← (if ret =? 0 then r ← check_secure_storage_key buf; Some (r =? 0) else Some false);
      if (good : bool) then Some (buf, 0)
      else
        '(buf, ret) ←
          (if boot_mode then
             '(buf, r) ← sunxi_flash_mmc_secread_backup cards item blkcnt;
             Some (buf, if r =? blkcnt then 0 else -1)
           else sunxi_sprite_mmc_secread_backup cards item blkcnt);
        good ← (if ret =? 0 then r ← check_secure_storage_key buf; Some (r =? 0) else Some false);
        Some (buf, if (good : bool) then 0 else -1)
  end.

Definition mmc_secure_storage_read_map (cards : sdmmc_cards) (item len : Z) : option (bytes * Z) :=
  let blkcnt := blkcnt_of len in
  first ← read_first cards item blkcnt;
  match first with
  | None => Some ([], -1)
  | Some (buf, ret) =>
      good ← (if ret =? 0 then r ← check_secure_storage_map buf; Some (r =? 0) else Some false);
      if (good : bool) then Some (buf, 0)
      else
        second ← read_first cards item blkcnt;
        match second with
        | None => Some ([], -1)
        | Some (buf, ret) =>
            if ret =? 0 then
              r ← check_secure_storage_map buf;
              Some (if r =? 0 then buf else replicate (Z.to_nat len) 0, 0)
            else Some (buf, -1)
        end
  end.

Definition mmc_secure_storage_read (cards : sdmmc_cards) (item len : Z) : option (bytes * Z) :=
  if item =? 0 then mmc_secure_storage_read_map cards item len else mmc_secure_storage_read_key cards item len.

Definition mmc_secure_storage_write (cards : sdmmc_cards) (item : Z) (buf : bytes) (len : Z) : option (sdmmc_cards * Z) :=
  let blkcnt := blkcnt_of len in
  if boot_mode then sunxi_flash_mmc_secwrite cards item buf blkcnt
  else if product_mode then sunxi_sprite_mmc_secwrite cards item buf blkcnt
  else Some (cards, -1).

(** The storage driver of the card, as [sunxi_secstorage_read] and its
    companions reach it; there is no flush. *)
#[global] Instance mmc_device : sec_device sdmmc_cards := {
  secstorage_read cards item := mmc_secure_storage_read cards item 4096;
  secstorage_write cards item buf := mmc_secure_storage_write cards item buf 4096;
  secstorage_flush cards := Some (cards, 0)
}.

(** ** Lemmas *)

Lemma object_sealed_total b : obj_mem b → ∃ ok, object_sealed b = Some ok.
Proof.
  intros [Hl Hb]. unfold object_sealed. rewrite !load_le_take by (rewrite Hl; unfold off_obj_magic, off_obj_crc; lia). sbind.
  case_match; [by eexists|]. rewrite ucrc32_take by (done || (rewrite Hl; unfold off_obj_crc; lia)). by eexists.
Qed.

Lemma check_map_total b : obj_mem b → ∃ r, check_secure_storage_map b = Some r.
Proof.
  intros [Hl Hb]. unfold check_secure_storage_map. rewrite !load_le_take by (rewrite Hl; unfold off_map_magic, off_map_crc; lia). sbind.
  case_match; [by eexists|]. rewrite ucrc32_take by (done || (rewrite Hl; unfold off_map_crc; lia)). sbind. case_match; by eexists.
Qed.

Definition driver_ok : Prop := ∀ start n, read_ok start n = true ∧ write_ok start n = true.

(** Copy [k] of item [i] on a card. *)
Definition copy_n (n : Z) (d : disk) (k i : Z) : option bytes := load_n (Z.to_nat (512 * n)) d (512 * copy_sector k i).
Abbreviation copy_of := (copy_n 8).

Lemma read_copy_n d k i n b :
  driver_ok → copy_n n d k i = Some b → read_copy (Some d) k i n = Some (b, 0).
Proof.
  intros Hdr Hb. unfold copy_n in Hb. unfold read_copy, flash_read. sbind. destruct (Hdr (copy_sector k i) n) as [-> _]. by rewrite Hb, Z.eqb_refl.
Qed.

Lemma read_copy_ok d k i b : driver_ok → copy_of d k i = Some b → read_copy (Some d) k i 8 = Some (b, 0).
Proof. intros Hdr Hb. by apply read_copy_n. Qed.

(** The card after both copies of item [i] were written. *)
Definition written (d : disk) (i : Z) (b : bytes) : disk :=
  write_bytes (write_bytes d (512 * copy_sector 0 i) b) (512 * copy_sector 1 i) b.

Lemma write_copies_n d i n b :
  driver_ok → Z.of_nat (length b) = 512 * n → write_copies (Some d) i b n = Some (written d i b, 0).
Proof.
  intros Hdr Hn. pose proof (flash_write_ok d (copy_sector 0 i) n b [] (proj2 (Hdr _ _)) Hn) as H0.
  pose proof (flash_write_ok (write_bytes d (512 * copy_sector 0 i) b) (copy_sector 1 i) n b [] (proj2 (Hdr _ _)) Hn) as H1.
  rewrite app_nil_r in H0, H1. unfold write_copies, written. sbind. rewrite H0. sbind. rewrite Z.eqb_refl. cbn [negb].
  rewrite H1. sbind. by rewrite Z.eqb_refl.
Qed.

Lemma write_copies_ok d i b :
  driver_ok → length b = Z.to_nat 4096 → write_copies (Some d) i b 8 = Some (written d i b, 0).
Proof. intros Hdr Hb. apply write_copies_n; [done|lia]. Qed.

Lemma copy_of_written d i b k :
  length b = Z.to_nat 4096 → 0 <= k < 2 → copy_of (written d i b) k i = Some b.
Proof.
  intros Hb Hk. unfold copy_n, written. replace (Z.to_nat (512 * 8)) with (length b) by lia. destruct (Z.eq_dec k 0) as [->|Hk0].
  - rewrite (load_n_ext (length b) _ (write_bytes d (512 * copy_sector 0 i) b)); [apply load_write_eq|].
    intros x Hx. apply lookup_write_out. unfold copy_sector, SDMMC_ITEM_SIZE in *. lia.
  - replace k with 1 by lia. apply load_write_eq.
Qed.

(** A write to copy [k] of item [i] leaves the other copies. *)
Lemma copy_of_other d k i b k' i' :
  length b = Z.to_nat 4096 → 0 <= k < 2 → 0 <= k' < 2 → (i', k') ≠ (i, k) →
  copy_of (write_bytes d (512 * copy_sector k i) b) k' i' = copy_of d k' i'.
Proof.
  intros Hb Hk Hk' Hne. unfold copy_n. apply load_n_ext. intros x Hx. apply lookup_write_out.
  assert (i' ≠ i ∨ k' ≠ k) by (destruct (Z.eq_dec i' i) as [->|]; [destruct (Z.eq_dec k' k) as [->|]; [done|by right]|by left]).
  unfold copy_sector, SDMMC_ITEM_SIZE in *. lia.
Qed.

Lemma copy_of_written_ne d i b k i' :
  length b = Z.to_nat 4096 → 0 <= k < 2 → i' ≠ i → copy_of (written d i b) k i' = copy_of d k i'.
Proof. intros Hb Hk Hne. unfold written. rewrite !copy_of_other; [done|done|lia|done|congruence|done|lia|done|congruence]. Qed.

(** ** The card as a device of blocks *)

Definition card_of (cards : sdmmc_cards) : option disk := if boot_mode then mmc_boot cards else mmc_sprite cards.

(** The card of the work mode is there and all copies can be read. *)
Definition mmc_wf (cards : sdmmc_cards) : Prop :=
  boot_mode || product_mode = true ∧ driver_ok ∧
  ∃ d, card_of cards = Some d ∧ ∀ i k, 0 <= i < 32 → 0 <= k < 2 → ∃ b, copy_of d k i = Some b ∧ obj_mem b.

Definition sealed (b : bytes) : bool := bool_decide (object_sealed b = Some true).

(** What is read: the second copy counts when the first is damaged, but not for
    the map and not when booting. *)
Definition mmc_blk (cards : sdmmc_cards) (i : Z) : bytes :=
  match card_of cards with
  | None => []
  | Some d =>
      let b0 := default [] (copy_of d 0 i) in
      if (i =? 0) || boot_mode || sealed b0 then b0 else default [] (copy_of d 1 i)
  end.

Lemma sec_args i : 0 <= i < 32 → sec_args_ok i 8 = true.
Proof.
  intros Hi. unfold sec_args_ok, MAX_SECURE_STORAGE_MAX_ITEM, SDMMC_ITEM_SIZE.
  by destruct (Z.ltb_spec 32 i); [lia|].
Qed.

Lemma read_first_ok cards d i b :
  mmc_wf cards → card_of cards = Some d → 0 <= i < 32 → copy_of d 0 i = Some b →
  read_first cards i 8 = Some (Some (b, 0)).
Proof.
  intros (Hmode & Hdr & _) Hd Hi Hb. unfold read_first, card_of in *. destruct boot_mode.
  - unfold sunxi_flash_mmc_secread. rewrite sec_args, Hd by done. cbn [negb]. by rewrite (read_copy_ok _ _ _ _ Hdr Hb).
  - cbn [orb] in Hmode. rewrite Hmode. unfold sunxi_sprite_mmc_secread. rewrite Hd, sec_args by done. cbn [negb].
    by rewrite (read_copy_ok _ _ _ _ Hdr Hb).
Qed.

(** Reading a key, whatever its copies hold. *)
Lemma mmc_read_key cards d i b0 b1 :
  mmc_wf cards → card_of cards = Some d → 0 <= i < 32 →
  copy_of d 0 i = Some b0 → copy_of d 1 i = Some b1 → obj_mem b0 → obj_mem b1 →
  ∃ buf, mmc_secure_storage_read_key cards i 4096 = Some (buf, if sealed b0 || negb boot_mode && sealed b1 then 0 else -1) ∧
    (sealed b0 = true → buf = b0) ∧ (sealed b0 = false → boot_mode = false → buf = b1).
Proof.
  intros Hwf Hd Hi H0 H1 Hm0 Hm1. unfold mmc_secure_storage_read_key. change (blkcnt_of 4096) with 8.
  rewrite (read_first_ok _ _ _ _ Hwf Hd Hi H0). sbind. cbn [Z.eqb].
  destruct (object_sealed_total b0 Hm0) as [ok0 Hok0], (object_sealed_total b1 Hm1) as [ok1 Hok1].
  unfold check_secure_storage_key, sealed. rewrite Hok0, Hok1. sbind. destruct ok0; [eexists; split; [done|done]|].
  cbn [Z.eqb]. destruct Hwf as (_ & Hdr & _). unfold card_of in Hd. destruct boot_mode.
  - unfold sunxi_flash_mmc_secread_backup. rewrite sec_args, Hd by done. cbn [negb]. rewrite (read_copy_ok _ _ _ _ Hdr H1). sbind.
    cbn. by eexists.
  - unfold sunxi_sprite_mmc_secread_backup. rewrite sec_args, Hd by done. cbn [negb]. rewrite (read_copy_ok _ _ _ _ Hdr H1). sbind.
    cbn [Z.eqb]. rewrite Hok1. sbind. destruct ok1; by eexists.
Qed.

(** Reading the map looks at the first copy only. *)
Lemma mmc_read_map cards d b0 :
  mmc_wf cards → card_of cards = Some d → copy_of d 0 0 = Some b0 → obj_mem b0 →
  ∃ r, check_secure_storage_map b0 = Some r ∧
    mmc_secure_storage_read_map cards 0 4096 = Some (if r =? 0 then b0 else empty_map, 0).
Proof.
  intros Hwf Hd H0 Hm0. destruct (check_map_total b0 Hm0) as [r Hr]. exists r. split; [done|].
  unfold mmc_secure_storage_read_map. change (blkcnt_of 4096) with 8.
  rewrite (read_first_ok cards d 0 b0 Hwf Hd ltac:(lia) H0). sbind. cbn [Z.eqb]. rewrite Hr. sbind.
  destruct (r =? 0) eqn:Hr0; done.
Qed.

Lemma mmc_blk_spec cards i :
  mmc_wf cards → 0 <= i < 32 →
  ∃ d b0 b1, card_of cards = Some d ∧ copy_of d 0 i = Some b0 ∧ copy_of d 1 i = Some b1 ∧ obj_mem b0 ∧ obj_mem b1 ∧
    mmc_blk cards i = if (i =? 0) || boot_mode || sealed b0 then b0 else b1.
Proof.
  intros (_ & _ & d & Hd & Hcopies) Hi. destruct (Hcopies i 0 Hi ltac:(lia)) as (b0 & H0 & Hm0).
  destruct (Hcopies i 1 Hi ltac:(lia)) as (b1 & H1 & Hm1). exists d, b0, b1. unfold mmc_blk. by rewrite Hd, H0, H1.
Qed.

(** The cards after an item was written. *)
Definition with_card (cards : sdmmc_cards) (d : disk) : sdmmc_cards :=
  if boot_mode then SdmmcCards (Some d) (mmc_sprite cards) else SdmmcCards (mmc_boot cards) (Some d).

Lemma card_with cards d : card_of (with_card cards d) = Some d.
Proof. unfold card_of, with_card. by destruct boot_mode. Qed.

Lemma mmc_write_ok cards d i b :
  mmc_wf cards → card_of cards = Some d → 0 <= i < 32 → length b = Z.to_nat 4096 →
  mmc_secure_storage_write cards i b 4096 = Some (with_card cards (written d i b), 0).
Proof.
  intros (Hmode & Hdr & _) Hd Hi Hb. unfold mmc_secure_storage_write, with_card, card_of in *. change (blkcnt_of 4096) with 8.
  destruct boot_mode.
  - unfold sunxi_flash_mmc_secwrite. rewrite sec_args, Hd by done. cbn [negb]. by rewrite write_copies_ok.
  - cbn [orb] in Hmode. rewrite Hmode. unfold sunxi_sprite_mmc_secwrite. rewrite sec_args, Hd by done. cbn [negb].
    by rewrite write_copies_ok.
Qed.

Lemma mmc_write_wf cards d i b :
  mmc_wf cards → card_of cards = Some d → obj_mem b → mmc_wf (with_card cards (written d i b)).
Proof.
  intros (Hmode & Hdr & d' & Hd' & Hcopies) Hd [Hl Hb]. rewrite Hd in Hd'. injection Hd' as <-.
  split; [done|]. split; [done|]. exists (written d i b). split; [apply card_with|]. intros i' k Hi' Hk.
  destruct (Z.eq_dec i' i) as [->|Hne]; [exists b; by rewrite copy_of_written|]. rewrite copy_of_written_ne by done. by apply Hcopies.
Qed.

Lemma mmc_write_blk cards d i b k :
  length b = Z.to_nat 4096 → card_of cards = Some d →
  mmc_blk (with_card cards (written d i b)) k = if k =? i then b else mmc_blk cards k.
Proof.
  intros Hl Hd. unfold mmc_blk. rewrite card_with, Hd. destruct (Z.eqb_spec k i) as [->|Hne].
  - rewrite !copy_of_written by (done || lia). cbn [default]. by case_match.
  - by rewrite !copy_of_written_ne by (done || lia).
Qed.

#[global] Program Instance mmc_lawful : LawfulSec sdmmc_cards := {
  sec_wf := mmc_wf;
  blk := mmc_blk;
  key_readable b := object_sealed b = Some true
}.
Next Obligation.
  intros cards i Hwf Hi. destruct (mmc_blk_spec cards i Hwf Hi) as (d & b0 & b1 & _ & _ & _ & Hm0 & Hm1 & ->). by case_match.
Qed.
Next Obligation.
  intros cards i Hwf Hi Hrd. cbn [secstorage_read mmc_device]. unfold mmc_secure_storage_read. destruct (Z.eqb_spec i 0) as [|Hi0]; [lia|].
  destruct (mmc_blk_spec cards i Hwf ltac:(lia)) as (d & b0 & b1 & Hd & H0 & H1 & Hm0 & Hm1 & Hblk). rewrite Hblk in *.
  destruct (mmc_read_key cards d i b0 b1 Hwf Hd ltac:(lia) H0 H1 Hm0 Hm1) as (buf & -> & Hb0 & Hb1).
  rewrite (proj2 (Z.eqb_neq i 0) Hi0) in *. cbn [orb] in *. destruct (sealed b0) eqn:Hs0.
  - rewrite orb_true_r. by rewrite Hb0.
  - rewrite orb_false_r in *. destruct boot_mode.
    + apply bool_decide_eq_false in Hs0. done.
    + cbn [orb negb andb]. unfold sealed. rewrite bool_decide_eq_true_2 by done. by rewrite Hb1.
Qed.
Next Obligation.
  intros cards Hwf Hck. destruct (mmc_blk_spec cards 0 Hwf ltac:(lia)) as (d & b0 & b1 & Hd & H0 & _ & Hm0 & _ & Hblk).
  rewrite Hblk in *. cbn [Z.eqb orb] in *. cbn [secstorage_read mmc_device]. unfold mmc_secure_storage_read. cbn [Z.eqb].
  destruct (mmc_read_map cards d b0 Hwf Hd H0 Hm0) as (r & Hr & ->). rewrite Hck in Hr. by injection Hr as <-.
Qed.
Next Obligation.
  intros cards cards' Hwf Hwf' Hb. destruct (mmc_blk_spec cards 0 Hwf ltac:(lia)) as (d & b0 & b1 & Hd & H0 & _ & Hm0 & _ & Hblk).
  destruct (mmc_blk_spec cards' 0 Hwf' ltac:(lia)) as (d' & b0' & b1' & Hd' & H0' & _ & Hm0' & _ & Hblk').
  rewrite Hblk, Hblk' in Hb. cbn [Z.eqb orb] in Hb. subst b0'. cbn [secstorage_read mmc_device]. unfold mmc_secure_storage_read. cbn [Z.eqb].
  destruct (mmc_read_map cards d b0 Hwf Hd H0 Hm0) as (r & Hr & ->).
  destruct (mmc_read_map cards' d' b0 Hwf' Hd' H0' Hm0) as (r' & Hr' & ->). rewrite Hr in Hr'. by injection Hr' as <-.
Qed.
Next Obligation.
  intros cards i b Hwf Hi Hl Hb. destruct (mmc_blk_spec cards i Hwf Hi) as (d & _ & _ & Hd & _).
  cbn [secstorage_write mmc_device]. exists (with_card cards (written d i b)). rewrite (mmc_write_ok cards d i b Hwf Hd Hi Hl).
  split; [done|]. split; [by apply mmc_write_wf|]. split; [rewrite mmc_write_blk by done; by rewrite Z.eqb_refl|].
  intros k Hk Hne. rewrite mmc_write_blk by done. by rewrite (proj2 (Z.eqb_neq k i) Hne).
Qed.
Next Obligation. intros cards Hwf. cbn. eauto. Qed.

#[global] Instance mmc_objects : ObjectStorage sdmmc_cards.
Proof. by intros b _ _ Hs. Qed.

(** Copy [k] of item [i] overwritten with [g]. *)
Definition damaged (cards : sdmmc_cards) (d : disk) (k i : Z) (g : bytes) : sdmmc_cards :=
  with_card cards (write_bytes d (512 * copy_sector k i) g).

Lemma copy_of_damaged d k i g :
  length g = Z.to_nat 4096 → copy_of (write_bytes d (512 * copy_sector k i) g) k i = Some g.
Proof. intros Hg. unfold copy_n. replace (Z.to_nat (512 * 8)) with (length g) by lia. apply load_write_eq. Qed.

Lemma damaged_wf cards d k i g :
  mmc_wf cards → card_of cards = Some d → 0 <= k < 2 → obj_mem g → mmc_wf (damaged cards d k i g).
Proof.
  intros (Hmode & Hdr & d' & Hd' & Hcopies) Hd Hk [Hl Hg]. rewrite Hd in Hd'. injection Hd' as <-.
  split; [done|]. split; [done|]. eexists. split; [apply card_with|]. intros i' k' Hi' Hk'.
  destruct (decide ((i', k') = (i, k))) as [[= -> ->]|Hne]; [rewrite copy_of_damaged by done; by exists g|].
  rewrite copy_of_other by done. by apply Hcopies.
Qed.

Lemma damaged_blk cards d i g k :
  boot_mode = false → card_of cards = Some d → length g = Z.to_nat 4096 → sealed g = false → 1 <= i →
  copy_of d 0 i = copy_of d 1 i → mmc_blk (damaged cards d 0 i g) k = mmc_blk cards k.
Proof.
  intros Hb Hd Hl Hg Hi Heq. unfold damaged, mmc_blk. rewrite card_with, Hd, Hb. destruct (Z.eq_dec k i) as [->|Hne].
  - rewrite (copy_of_damaged d 0 i g Hl), (copy_of_other d 0 i g 1 i Hl ltac:(lia) ltac:(lia)) by congruence.
    change (default [] (Some g)) with g. rewrite Hg.
    rewrite (proj2 (Z.eqb_neq i 0)) by lia. cbn [orb]. rewrite Heq. by case_match.
  - rewrite (copy_of_other d 0 i g 0 k Hl ltac:(lia) ltac:(lia)) by congruence.
    by rewrite (copy_of_other d 0 i g 1 k Hl ltac:(lia) ltac:(lia)) by congruence.
Qed.

End mmc.

(** ** Theorems *)

(** What reading an item does when its copies are damaged.  In the product
    modes a key is read from its first copy when that one is sealed, otherwise
    from its second copy when that one is sealed, and not at all otherwise.  When
    booting, a key is read only from its first copy: a good second copy is never
    accepted.  In either mode the map is read only from its first copy: when that
    one is damaged, an empty map is returned with success, whatever the second
    copy holds. *)
Theorem mmc_damaged_copies `{DR : flash_driver} `{CF : sdmmc_cfg} cards d i b0 b1 :
  mmc_wf cards → card_of cards = Some d → 0 <= i < 32 →
  copy_n 8 d 0 i = Some b0 → copy_n 8 d 1 i = Some b1 → obj_mem b0 → obj_mem b1 →
  (i ≠ 0 → boot_mode = false →
     ∃ buf, mmc_secure_storage_read cards i 4096 = Some (buf, if sealed b0 || sealed b1 then 0 else -1) ∧
       (sealed b0 = true → buf = b0) ∧ (sealed b0 = false → buf = b1)) ∧
  (i ≠ 0 → boot_mode = true →
     ∃ buf, mmc_secure_storage_read cards i 4096 = Some (buf, if sealed b0 then 0 else -1) ∧ (sealed b0 = true → buf = b0)) ∧
  (i = 0 → mmc_secure_storage_read cards i 4096 =
             Some (if bool_decide (check_secure_storage_map b0 = Some 0) then b0 else empty_map, 0)).
Proof.
  intros Hwf Hd Hi H0 H1 Hm0 Hm1. unfold mmc_secure_storage_read.
  destruct (mmc_read_key cards d i b0 b1 Hwf Hd Hi H0 H1 Hm0 Hm1) as (buf & Hkey & Hb0 & Hb1).
  split; [|split].
  - intros Hne Hb. rewrite (proj2 (Z.eqb_neq i 0) Hne), Hkey, Hb. exists buf. auto.
  - intros Hne Hb. rewrite (proj2 (Z.eqb_neq i 0) Hne), Hkey, Hb. exists buf. cbn [negb andb]. by rewrite orb_false_r.
  - intros ->. cbn [Z.eqb]. destruct (mmc_read_map cards d b0 Hwf Hd H0 Hm0) as (r & Hr & ->). rewrite Hr. do 2 f_equal.
    destruct (Z.eqb_spec r 0) as [->|Hne]; [by rewrite bool_decide_eq_true_2|]. rewrite bool_decide_eq_false_2; [done|congruence].
Qed.

(** C38: the second copies protect the keys while flashing.  In the product modes,
    when the two copies of an item other than the map agree and the first is then
    overwritten with anything that is no sealed object, the storage still holds
    the same keys and every key reads as before. *)
Theorem mmc_first_copy_lost `{DR : flash_driver} `{CF : sdmmc_cfg} st cards d M i g :
  sec_rep st cards M → boot_mode = false → card_of cards = Some d → 1 <= i < 32 →
  copy_n 8 d 0 i = copy_n 8 d 1 i → obj_mem g → sealed g = false →
  sec_rep st (damaged cards d 0 i g) M ∧
  ∀ name j n, key_name name → 0 <= n →
    sunxi_secure_storage_read st (damaged cards d 0 i g) (name ++ 0 :: j) n = sunxi_secure_storage_read st cards (name ++ 0 :: j) n.
Proof.
  intros Hrep Hb Hd Hi Heq Hg Hs. pose proof Hrep as (Hin & Hwf & Hcl & slots & Hmap & Hh). pose proof Hmap as (_ & _ & H31 & _).
  assert (mmc_wf (damaged cards d 0 i g)) as Hwf' by (apply damaged_wf; [done..|lia|done]).
  assert (∀ k, mmc_blk (damaged cards d 0 i g) k = mmc_blk cards k) as Hblk
    by (intros k; apply damaged_blk; [done|done|apply Hg|done|lia|done]).
  assert (sec_rep st (damaged cards d 0 i g) M) as Hrep'.
  { split; [done|]. split; [done|]. split; [by rewrite (read_map_same cards (damaged cards d 0 i g) Hwf Hwf' (Hblk 0))|].
    exists slots. split; [done|]. apply (sec_holds_ext slots cards); [done| |done]. intros k _. apply Hblk. }
  split; [done|]. intros name j n Hn Hpos. by rewrite (sec_read _ _ _ _ j Hrep' Hn n Hpos), (sec_read _ _ _ _ j Hrep Hn n Hpos).
Qed.

(** When the first copy of the map is damaged, opening the storage succeeds
    with an empty map, although the second copy may be good: no key is found any
    more, and the next key is written to block 1. *)
Theorem mmc_map_lost `{DR : flash_driver} `{CF : sdmmc_cfg} st cards d b0 :
  secure_storage_inited st = false → mmc_wf cards → card_of cards = Some d →
  copy_n 8 d 0 0 = Some b0 → obj_mem b0 → check_secure_storage_map b0 ≠ Some 0 →
  ∃ st', sunxi_secure_storage_init st cards = Some (st', cards, 0) ∧ secure_storage_map st' = empty_map ∧
    (map_dirty st = false → sec_rep st' cards ∅).
Proof.
  intros Hst Hwf Hd H0 Hm0 Hck. destruct (mmc_read_map cards d b0 Hwf Hd H0 Hm0) as (r & Hr & Hread).
  rewrite (proj2 (Z.eqb_neq r 0)) in Hread by (intros ->; done).
  assert (usable_map empty_map = Some empty_map) as Hu by (vm_compute; done).
  assert (secstorage_read cards 0 = Some (empty_map, 0)) as Hrd by exact Hread.
  unfold sunxi_secure_storage_init. rewrite Hst, Hrd. sbind. cbn [Z.ltb Z.compare]. rewrite Hu. sbind.
  eexists. split; [done|]. split; [done|]. intros Hdirty. rewrite Hdirty. apply empty_open; [done|]. intros _.
  exists empty_map. split; [exact Hrd|exact Hu].
Qed.

(** ** Witnesses *)

(** A card whose secure storage was never written, in the product mode. *)
#[local] Instance product_cfg : sdmmc_cfg := SdmmcCfg 0x10 12288.
#[local] Instance card_driver : flash_driver := good_driver.

(** A card with [n] zero bytes from the start of the secure storage on. *)
Definition zero_card (n : nat) : disk := write_bytes ∅ (512 * sec_start) (replicate n 0).
Definition blank_card : disk := zero_card (Z.to_nat 262144).
Definition blank_cards : sdmmc_cards := SdmmcCards None (Some blank_card).

Lemma zero_card_copy n k i :
  262144 <= Z.of_nat n → 0 <= i < 32 → 0 <= k < 2 → copy_n 8 (zero_card n) k i = Some empty_map.
Proof.
  intros Hn Hi Hk. pose proof (load_write_eq ∅ (512 * sec_start) (replicate n 0)) as Hl. rewrite length_replicate in Hl.
  apply (load_n_sub _ _ _ _ (Z.to_nat (8192 * i + 4096 * k)) (Z.to_nat (512 * 8))) in Hl; [|lia].
  rewrite Z2Nat.id in Hl by lia. unfold copy_n, zero_card.
  replace (512 * copy_sector k i) with (512 * sec_start + (8192 * i + 4096 * k)) by (unfold copy_sector, SDMMC_ITEM_SIZE; lia).
  rewrite Hl. f_equal. unfold empty_map. rewrite drop_replicate, take_replicate. f_equal. lia.
Qed.

Lemma blank_copy k i : 0 <= i < 32 → 0 <= k < 2 → copy_n 8 blank_card k i = Some empty_map.
Proof. intros Hi Hk. apply zero_card_copy; lia. Qed.

Lemma blank_wf : mmc_wf blank_cards.
Proof.
  split; [done|]. split; [by intros start n|]. exists blank_card. split; [done|]. intros i k Hi Hk. exists empty_map.
  split; [by apply blank_copy|apply obj_mem_empty].
Qed.

Lemma mmc_damaged_copies_witness :
  mmc_secure_storage_read blank_cards 0 4096 = Some (empty_map, 0) ∧
  ∃ buf, mmc_secure_storage_read blank_cards 1 4096 = Some (buf, -1).
Proof.
  assert (sealed empty_map = false) as Hs by (vm_compute; done). split.
  - destruct (mmc_damaged_copies blank_cards blank_card 0 empty_map empty_map blank_wf eq_refl) as (_ & _ & Hmap);
      [lia|apply blank_copy; lia|apply blank_copy; lia|apply obj_mem_empty|apply obj_mem_empty|]. rewrite Hmap by done. by case_match.
  - destruct (mmc_damaged_copies blank_cards blank_card 1 empty_map empty_map blank_wf eq_refl) as (Hkey & _ & _);
      [lia|apply blank_copy; lia|apply blank_copy; lia|apply obj_mem_empty|apply obj_mem_empty|].
    destruct Hkey as (buf & Hk & _); [lia|done|]. rewrite Hs in Hk. by exists buf.
Defined.

Lemma mmc_map_lost_witness :
  ∃ st', sunxi_secure_storage_init (SecState empty_map false false) blank_cards = Some (st', blank_cards, 0) ∧ sec_rep st' blank_cards ∅.
Proof.
  destruct (mmc_map_lost (SecState empty_map false false) blank_cards blank_card empty_map eq_refl blank_wf eq_refl) as (st' & Hi & _ & Hr);
    [apply blank_copy; lia|apply obj_mem_empty|vm_compute; discriminate|]. exists st'. split; [done|]. by apply Hr.
Defined.

Lemma mmc_first_copy_lost_witness :
  ∃ st', sec_rep st' blank_cards ∅ ∧ sec_rep st' (damaged blank_cards blank_card 0 1 (replicate (Z.to_nat 4096) 255)) ∅.
Proof.
  assert (sec_rep (SecState empty_map true true) blank_cards ∅) as Hr by (apply empty_open; [exact blank_wf|done]).
  exists (SecState empty_map true true). split; [done|].
  apply (mmc_first_copy_lost (SecState empty_map true true) blank_cards blank_card ∅ 1 (replicate (Z.to_nat 4096) 255) Hr);
    [done|done|lia|by rewrite !blank_copy by lia|split; [done|apply Forall_replicate; unfold is_u8; lia]|vm_compute; done].
Defined.
