(* ===== verification/Lz4.v ===== *)
(** * LZ4 decompression (spl/common/lz4/lz4.c, lz4_wrapper.c)

    [LZ4_decompress_generic] decodes a block in memory with copies of four bytes
    that run past the end of what they copy; [ulz4fn] walks the blocks of a
    frame.  Modelled is the instance that [ulz4fn] asks for: [endOnInputSize],
    full decoding, no dictionary; the branches that those constants exclude are
    left out.

    The format is described on its own: a block is a list of sequences
    (literals, then a match given by its offset and length) and last literals,
    with a decoder that appends byte by byte.  The theorems: on the encoding of
    a block that keeps the format's rules for its end, the code returns the
    length of the decoded data and leaves exactly that data at the destination,
    whatever else its copies wrote being inside the output buffer; a frame of
    such blocks and of stored blocks is decoded by [ulz4fn], block by block. *)

From S2P Require Import Prelude Mem CString Checksum Heap Gpt Env BootImage BootPkg BootParam LoadImage.

Local Open Scope Z_scope.
Local Open Scope c_scope.

(** ** lz4.c *)

Definition MINMATCH : Z := 4.
Definition LASTLITERALS : Z := 5.
Definition MFLIMIT : Z := 12.
Definition ML_BITS : Z := 4.
Definition ML_MASK : Z := 15.
Definition RUN_MASK : Z := 15.
Definition dec32table : list Z := [4; 1; 2; 1; 4; 4; 4; 4].
Definition dec64table : list Z := [0; 0; 0; -1; 0; 1; 2; 3].

Definition LZ4_copy4 (m : mem) (dst src : Z) : option mem :=
  bs ← load_n 4 m src; store_n m dst bs.

Fixpoint wild_loop (fuel : nat) (m : mem) (d s e : Z) : option mem :=
  match fuel with
  | O => None
  | S f => m ← LZ4_copy4 m d s; if d + 4 <? e then wild_loop f m (d + 4) (s + 4) e else Some m
  end.

(** The loop runs once more than it has to copy at most. *)
Definition LZ4_wildCopy (m : mem) (dstPtr srcPtr dstEnd : Z) : option mem :=
  wild_loop (S (Z.to_nat (dstEnd - dstPtr))) m dstPtr srcPtr dstEnd.

Definition LZ4_readLE16 (m : mem) (src : Z) : option Z := le_val <$> load_n 2 m src.

(** A byte copied: [*d = *s]. *)
Definition copy1 (m : mem) (d s : Z) : option mem := b ← m !! s; store_byte m d b.

(** [while (op < cpy) *op++ = *match++]. *)
Fixpoint byte_loop (n : nat) (m : mem) (op match_ : Z) : option mem :=
  match n with
  | O => Some m
  | S n' => m ← copy1 m op match_; byte_loop n' m (op + 1) (match_ + 1)
  end.

(** The additional bytes of a literal length: stops near the end of the input
    whatever the byte. *)
Fixpoint literal_length (fuel : nat) (m : mem) (ip iend length : Z) : option (Z * Z) :=
  match fuel with
  | O => None
  | S f =>
      s ← m !! ip;
      let ip := ip + 1 in
      let length := length ⊞ s in
      if (ip <? iend - RUN_MASK) && (s =? 255) then literal_length f m ip iend length else Some (ip, length)
  end.

(** Of a match length: [None] inside is the output error at [ip]. *)
Fixpoint match_length (fuel : nat) (m : mem) (ip iend length : Z) : option (Z * option Z) :=
  match fuel with
  | O => None
  | S f =>
      if iend - LASTLITERALS <? ip then Some (ip, None)
      else
        s ← m !! ip;
        let ip := ip + 1 in
        let length := length ⊞ s in
        if s =? 255 then match_length f m ip iend length else Some (ip, Some length)
  end.

(** The first bytes of a match: eight when it is near, four otherwise. *)
Definition match_head (m : mem) (op match_ : Z) : option (mem * Z * Z) :=
  if op <? match_ then None
  else if op - match_ <? 8 then
    dec64 ← dec64table !! Z.to_nat (op - match_);
    m ← byte_loop 4 m op match_;
    dec32 ← dec32table !! Z.to_nat (op - match_);
    let match_ := match_ + dec32 in
    m ← LZ4_copy4 m (op + 4) match_;
    Some (m, op + 8, match_ - dec64)
  else
    m ← LZ4_copy4 m op match_;
    Some (m, op + 4, match_ + 4).

(** "copy repeated sequence"; [false] is the output error. *)
Definition copy_match (m : mem) (op match_ length oend : Z) : option (mem * bool) :=
  let cpy := op ⊞ length in
  '(m, op, match_) ← match_head m op match_;
  if oend - 12 <? cpy then
    if oend - LASTLITERALS <? cpy then Some (m, false)
    else
      if op <? oend - 8 then
        m ← LZ4_wildCopy m op match_ (oend - 8);
        m ← byte_loop (Z.to_nat (cpy - (oend - 8))) m (oend - 8) (match_ + (oend - 8 - op));
        Some (m, true)
      else m ← byte_loop (Z.to_nat (cpy - op)) m op match_; Some (m, true)
  else m ← LZ4_wildCopy m op match_ cpy; Some (m, true).

(** The main loop; a negative result is -(position of the input) - 1. *)
Fixpoint lz4_loop (fuel : nat) (m : mem) (source iend dest oend ip op : Z) : option (mem * Z) :=
  match fuel with
  | O => None
  | S f =>
      let fail (m : mem) ip := Some (m, - (ip - source) - 1) in
      token ← m !! ip;
      let ip := ip + 1 in
      let length := Z.shiftr token ML_BITS in
      '(ip, length) ← (if length =? RUN_MASK then literal_length (S (Z.to_nat (iend - ip))) m ip iend length else Some (ip, length));
      if (Z.shiftr token ML_BITS =? RUN_MASK) && ((op ⊞ length <? op) || (ip ⊞ length <? ip)) then fail m ip
      else
        let cpy := op ⊞ length in
        if (oend - MFLIMIT <? cpy) || (iend - (2 + 1 + LASTLITERALS) <? ip ⊞ length) then
          if negb (ip ⊞ length =? iend) || (oend <? cpy) then fail m ip
          else m ← memcpy m op ip length; Some (m, op + length - dest)
        else
          m ← LZ4_wildCopy m op ip cpy;
          let ip := ip ⊞ length in
          let op := cpy in
          off ← LZ4_readLE16 m ip;
          let match_ := cpy ⊟ off in
          let ip := ip + 2 in
          if match_ <? dest then fail m ip
          else
            let length := Z.land token ML_MASK in
            '(ip, l) ← (if length =? ML_MASK then match_length (S (S (Z.to_nat (iend - ip)))) m ip iend length else Some (ip, Some length));
            match l with
            | None => fail m ip
            | Some length =>
                if (Z.land token ML_MASK =? ML_MASK) && (op ⊞ length <? op) then fail m ip
                else
                  let length := length ⊞ MINMATCH in
                  '(m, ok) ← copy_match m op match_ length oend;
                  if (ok : bool) then lz4_loop f m source iend dest oend ip (op ⊞ length) else fail m ip
            end
  end.

Definition LZ4_decompress_generic (m : mem) (source dest inputSize outputSize : Z) : option (mem * Z) :=
  if outputSize =? 0 then
    if inputSize =? 1 then b ← m !! source; Some (m, if b =? 0 then 0 else -1) else Some (m, -1)
  else lz4_loop (S (Z.to_nat inputSize)) m source (source + inputSize) dest (dest + outputSize) source dest.

(** ** The format of a block *)

Record sequence := Seq { lits : bytes; offset : Z; mlen : nat }.

Fixpoint append_match (n : nat) (out : bytes) (offset : Z) : bytes :=
  match n with
  | O => out
  | S n' => append_match n' (out ++ [nth (Z.to_nat (Z.of_nat (length out) - offset)) out 0]) offset
  end.

Definition decode_seq (out : bytes) (s : sequence) : bytes := append_match (mlen s) (out ++ lits s) (offset s).
Definition decode_block (seqs : list sequence) (last : bytes) : bytes := foldl decode_seq [] seqs ++ last.

(** A length: four bits in the token, more bytes from 15 on. *)
Definition nibble (v : Z) : Z := Z.min v 15.
Definition ext (v : Z) : bytes := if v <? 15 then [] else replicate (Z.to_nat ((v - 15) / 255)) 255 ++ [(v - 15) mod 255].

Definition enc_lits (l : bytes) (low : Z) : bytes :=
  (16 * nibble (Z.of_nat (length l)) + low) :: ext (Z.of_nat (length l)) ++ l.
Definition enc_seq (s : sequence) : bytes :=
  enc_lits (lits s) (nibble (Z.of_nat (mlen s) - 4)) ++ le_bytes 2 (offset s) ++ ext (Z.of_nat (mlen s) - 4).
Definition enc_block (seqs : list sequence) (last : bytes) : bytes := concat (enc_seq <$> seqs) ++ enc_lits last 0.

(** The rules: a match copies at least four bytes of what was decoded before, at
    a distance of at most 65535, and begins at least twelve bytes before the
    end; a block with a match ends with at least five literals. *)
Fixpoint seqs_ok (pos total : Z) (seqs : list sequence) : Prop :=
  match seqs with
  | [] => True
  | s :: seqs' =>
      let p := pos + Z.of_nat (length (lits s)) in
      1 <= offset s <= 65535 ∧ offset s <= p ∧ (4 <= mlen s)%nat ∧ p + 12 <= total ∧
      seqs_ok (p + Z.of_nat (mlen s)) total seqs'
  end.

Definition block_ok (seqs : list sequence) (last : bytes) : Prop :=
  seqs_ok 0 (Z.of_nat (length (decode_block seqs last))) seqs ∧ (seqs = [] ∨ (5 <= length last)%nat).

(** ** Copies *)

(** [m'] is [m] after [w] bytes at [d] were copied, in ascending order, from
    [k] bytes before. *)
Record copied (m m' : mem) (d w k : Z) : Prop := {
  cp_eq : ∀ x, d <= x < d + w → m' !! x = m' !! (x - k);
  cp_out : ∀ x, x < d ∨ d + w <= x → m' !! x = m !! x;
  cp_mapped : ∀ a n, mapped m a n → mapped m' a n
}.

Lemma copied_app m m1 m2 d w w' k :
  0 <= w → 0 <= w' → 0 < k ∨ k <= - (w + w') → copied m m1 d w k → copied m1 m2 (d + w) w' k → copied m m2 d (w + w') k.
Proof.
  intros Hw Hw' Hk [E1 O1 M1] [E2 O2 M2]. constructor.
  - intros x Hx. destruct (decide (x < d + w)); [|apply E2; lia]. rewrite (O2 x), (O2 (x - k)) by lia. apply E1. lia.
  - intros x Hx. rewrite O2 by lia. apply O1. lia.
  - auto.
Qed.

Lemma copy1_copied (m : mem) d s : mapped m s 1 → mapped m d 1 → d ≠ s → ∃ m', copy1 m d s = Some m' ∧ copied m m' d 1 (d - s).
Proof.
  intros Hs Hd Hne. destruct (Hs s) as [b Hb]; [lia|]. unfold copy1. rewrite Hb. sbind.
  rewrite (store_byte_mapped m d 1) by (done || lia). eexists. split; [done|]. constructor.
  - intros x Hx. assert (x = d) as -> by lia. rewrite lookup_insert_eq, lookup_insert_ne by lia.
    by replace (d - (d - s)) with s by lia.
  - intros x Hx. apply lookup_insert_ne. lia.
  - intros. by apply mapped_insert.
Qed.

Lemma copy4_copied (m : mem) d s :
  mapped m s 4 → mapped m d 4 → s + 4 <= d ∨ d + 4 <= s → ∃ m', LZ4_copy4 m d s = Some m' ∧ copied m m' d 4 (d - s).
Proof.
  intros Hs Hd Hap. destruct (mapped_load m s 4 Hs) as (bs & Hb & Hl). unfold LZ4_copy4. rewrite Hb. sbind.
  rewrite store_n_spec by (by rewrite Hl). eexists. split; [done|]. constructor.
  - intros x Hx. rewrite (lookup_write_out m d bs (x - (d - s))) by lia.
    assert (load_n 4 (write_bytes m d bs) d = Some bs) as Hw by (rewrite <- Hl; apply load_write_eq).
    replace x with (d + Z.of_nat (Z.to_nat (x - d))) at 1 by lia.
    replace (x - (d - s)) with (s + Z.of_nat (Z.to_nat (x - d))) by lia.
    by rewrite (load_n_lookup _ _ _ _ _ Hw), (load_n_lookup _ _ _ _ _ Hb) by lia.
  - intros x Hx. apply lookup_write_out. lia.
  - intros. by apply mapped_write.
Qed.

(** The copy of four bytes at a time: from behind, or from a place that it does
    not reach. *)
Lemma wild_loop_copied fuel (m : mem) d s e :
  let r := Z.max (e - d) 1 + 3 in
  (Z.to_nat (e - d) < fuel)%nat → mapped m s r → mapped m d r → s + 4 <= d ∨ d + r <= s →
  ∃ m' w, wild_loop fuel m d s e = Some m' ∧ Z.max (e - d) 1 <= w <= r ∧ copied m m' d w (d - s).
Proof.
  cbv zeta. revert m d s.
  induction fuel as [|fuel IH]; intros m d s Hf Hs Hd Hap; [lia|]. cbn [wild_loop].
  destruct (copy4_copied m d s) as (m1 & -> & H1); [eapply mapped_sub; [exact Hs|lia..]|eapply mapped_sub; [exact Hd|lia..]|lia|].
  sbind. destruct (Z.ltb_spec (d + 4) e) as [Hlt|Hge].
  - destruct (IH m1 (d + 4) (s + 4)) as (m2 & w & Hr & Hw & H2); [lia|..].
    { apply (cp_mapped _ _ _ _ _ H1). eapply mapped_sub; [exact Hs|lia..]. }
    { apply (cp_mapped _ _ _ _ _ H1). eapply mapped_sub; [exact Hd|lia..]. }
    { lia. }
    exists m2, (4 + w). split; [done|]. split; [lia|]. apply (copied_app m m1 m2); [lia..|done|].
    by replace (d - s) with (d + 4 - (s + 4)) by lia.
  - exists m1, 4. split; [done|]. split; [lia|done].
Qed.

Lemma wild_copied (m : mem) d s e :
  let r := Z.max (e - d) 1 + 3 in
  mapped m s r → mapped m d r → s + 4 <= d ∨ d + r <= s →
  ∃ m' w, LZ4_wildCopy m d s e = Some m' ∧ Z.max (e - d) 1 <= w <= r ∧ copied m m' d w (d - s).
Proof. intros r ???. apply wild_loop_copied; [lia|done..]. Qed.

Lemma byte_copied n (m : mem) d s :
  mapped m s (Z.of_nat n) → mapped m d (Z.of_nat n) → s < d →
  ∃ m', byte_loop n m d s = Some m' ∧ copied m m' d (Z.of_nat n) (d - s).
Proof.
  revert m d s. induction n as [|n IH]; intros m d s Hs Hd Hlt; cbn [byte_loop].
  - exists m. split; [done|]. constructor; [lia|done|done].
  - destruct (copy1_copied m d s) as (m1 & -> & H1); [eapply mapped_sub; [exact Hs|lia..]|eapply mapped_sub; [exact Hd|lia..]|lia|].
    sbind. destruct (IH m1 (d + 1) (s + 1)) as (m2 & -> & H2).
    { apply (cp_mapped _ _ _ _ _ H1). eapply mapped_sub; [exact Hs|lia..]. }
    { apply (cp_mapped _ _ _ _ _ H1). eapply mapped_sub; [exact Hd|lia..]. }
    { lia. }
    exists m2. split; [done|]. replace (Z.of_nat (S n)) with (1 + Z.of_nat n) by lia.
    apply (copied_app m m1 m2); [lia..|done|]. by replace (d - s) with (d + 1 - (s + 1)) by lia.
Qed.

(** ** Matches *)

(** Memory repeats itself at distance [k] from [a] to [b]. *)
Definition periodic (m : mem) (a b k : Z) : Prop := ∀ x, a <= x < b → m !! x = m !! (x - k).

(** A copy from a multiple of the distance continues the repetition. *)
Lemma periodic_extend (m : mem) a b c k j :
  periodic m a b k → periodic m b c (j * k) → 1 <= j → 1 <= k → a <= b - (j - 1) * k → periodic m a c k.
Proof.
  intros H1 H2 Hj Hk Hab x Hx. destruct (decide (x < b)) as [|Hxb]; [apply H1; lia|].
  remember (Z.to_nat (x - b)) as n eqn:En. revert x Hx Hxb En. induction n as [n IH] using lt_wf_ind. intros x Hx Hxb En.
  assert (∀ y, a <= y < x → m !! y = m !! (y - k)) as Hp.
  { intros y Hy. destruct (decide (y < b)); [apply H1; lia|]. apply (IH (Z.to_nat (y - b))); lia. }
  rewrite (H2 x) by lia.
  assert (∀ i : nat, (1 + Z.of_nat i <= j) → m !! (x - k) = m !! (x - (1 + Z.of_nat i) * k)) as Hch.
  { induction i as [|i IHi]; intros Hi; [by replace ((1 + Z.of_nat 0) * k) with k by lia|].
    rewrite IHi by lia. rewrite Hp by nia. f_equal. lia. }
  rewrite (Hch (Z.to_nat (j - 1))) by lia. f_equal. rewrite Z2Nat.id by lia. lia.
Qed.

(** The first bytes: they repeat at the match's distance, and the copy goes on
    from a multiple of it. *)
Lemma match_head_run (m : mem) op k lo hi :
  1 <= k → lo <= op - k → op + 8 <= hi → mapped m lo (hi - lo) →
  ∃ m' n j, match_head m op (op - k) = Some (m', op + n, op + n - j * k) ∧ (n = 4 ∨ n = 8) ∧ 1 <= j ∧ 4 <= j * k ∧
    lo <= op + n - j * k ∧ (j - 1) * k <= n ∧ copied m m' op n k.
Proof.
  intros Hk Hlo Hhi Hm. unfold match_head. rewrite (proj2 (Z.ltb_ge op (op - k))) by lia. replace (op - (op - k)) with k by lia.
  assert (∀ m' : mem, (∀ a n, mapped m a n → mapped m' a n) → ∀ a n, lo <= a → a + n <= hi → mapped m' a n) as Hsub.
  { intros m' Hp a n Ha Hn. apply Hp. eapply mapped_sub; [exact Hm|lia..]. }
  destruct (Z.ltb_spec k 8) as [Hlt|Hge].
  2:{ destruct (copy4_copied m op (op - k)) as (m1 & -> & H1); [apply (Hsub m ltac:(done)); lia..|lia|]. sbind.
      exists m1, 4, 1. replace (op - (op - k)) with k in H1 by lia. split; [do 2 f_equal; lia|]. split; [by left|]. do 4 (split; [lia|]). exact H1. }
  destruct (byte_copied 4 m op (op - k)) as (m4 & E4 & H14); [apply (Hsub m ltac:(done)); lia..|lia|].
  replace (op - (op - k)) with k in H14 by lia. pose proof (cp_mapped _ _ _ _ _ H14) as P4. change (Z.of_nat 4) with 4 in *.
  assert (∃ d32 d64 i j, dec32table !! Z.to_nat k = Some d32 ∧ dec64table !! Z.to_nat k = Some d64 ∧
    4 + k - d32 = i * k ∧ 4 <= i * k ∧ 1 <= i ∧ (i - 1) * k <= 4 ∧ op + 4 - i * k >= lo ∧
    8 + k - d32 + d64 = j * k ∧ 4 <= j * k ∧ 1 <= j ∧ (j - 1) * k <= 8 ∧ lo <= op + 8 - j * k)
    as (d32 & d64 & i & j & T1 & T2 & Hi1 & Hi2 & Hi3 & Hi4 & Hi5 & Hj1 & Hj2 & Hj3 & Hj4 & Hj5).
  { assert (k = 1 ∨ k = 2 ∨ k = 3 ∨ k = 4 ∨ k = 5 ∨ k = 6 ∨ k = 7) as Hc by lia.
    destruct Hc as [->|[->|[->|[->|[->|[->| ->]]]]]].
    - exists 1, 0, 4, 8. repeat split; try reflexivity; lia.
    - exists 2, 0, 2, 4. repeat split; try reflexivity; lia.
    - exists 1, (-1), 2, 3. repeat split; try reflexivity; lia.
    - exists 4, 0, 1, 2. repeat split; try reflexivity; lia.
    - exists 4, 1, 1, 2. repeat split; try reflexivity; lia.
    - exists 4, 2, 1, 2. repeat split; try reflexivity; lia.
    - exists 4, 3, 1, 2. repeat split; try reflexivity; lia. }
  rewrite T2. sbind. rewrite E4. sbind. rewrite T1. sbind.
  destruct (copy4_copied m4 (op + 4) (op - k + d32)) as (m5 & E5 & H5); [apply (Hsub m4 P4); lia..|lia|].
  rewrite E5. sbind. exists m5, 8, j. split; [do 2 f_equal; lia|]. split; [by right|]. do 4 (split; [lia|]). constructor.
  - apply (periodic_extend m5 op (op + 4) (op + 8) k i); [|..]; try lia.
    + intros x Hx. rewrite (cp_out _ _ _ _ _ H5 x), (cp_out _ _ _ _ _ H5 (x - k)) by lia. apply (cp_eq _ _ _ _ _ H14). lia.
    + intros x Hx. rewrite (cp_eq _ _ _ _ _ H5) by lia. f_equal. lia.
  - intros x Hx. rewrite (cp_out _ _ _ _ _ H5) by lia. apply (cp_out _ _ _ _ _ H14). lia.
  - intros a n Ha. by apply (cp_mapped _ _ _ _ _ H5), P4.
Qed.

Lemma copy_match_run (m : mem) op k len lo lim oend :
  1 <= k → lo <= op - k → 4 <= len → 0 <= op → op + len <= oend - 5 → op + 12 <= oend → oend < 2 ^ 32 → Z.min oend (op + len + 8) <= lim →
  mapped m lo (lim - lo) →
  ∃ m', copy_match m op (op - k) len oend = Some (m', true) ∧ periodic m' op (op + len) k ∧
    (∀ x, x < op ∨ lim <= x → m' !! x = m !! x) ∧ (∀ a n, mapped m a n → mapped m' a n).
Proof.
  change (2 ^ 32) with 4294967296. intros Hk Hlo Hlen Hop0 Hend Hop Hoe Hlim Hm. unfold copy_match.
  rewrite (u32_small (op + len)) by (unfold is_u32; lia).
  destruct (match_head_run m op k lo lim Hk Hlo ltac:(lia) Hm) as (m1 & n & j & -> & Hn & Hj & Hjk & Hsrc & Hjn & [E1 O1 P1]). sbind.
  assert (∀ (m' : mem) a c, (∀ a n, mapped m a n → mapped m' a n) → lo <= a → a + c <= lim → mapped m' a c) as Hsub.
  { intros m' a c Hp Ha Hc. apply Hp. eapply mapped_sub; [exact Hm|lia..]. }
  (* a memory in which the copy went on to [c] *)
  assert (∀ (m2 : mem) c, (∀ x, x < op + n ∨ lim <= x → m2 !! x = m1 !! x) → periodic m2 (op + n) c (j * k) → op + len <= Z.max c (op + n) →
    periodic m2 op (op + len) k ∧ (∀ x, x < op ∨ lim <= x → m2 !! x = m !! x)) as Hfin.
  { intros m2 c Ho Hp Hc. split.
    - intros x Hx. apply (periodic_extend m2 op (op + n) (Z.max c (op + n)) k j); [| |lia..].
      + intros y Hy. rewrite (Ho y), (Ho (y - k)) by lia. apply E1. lia.
      + intros y Hy. apply Hp. lia.
    - intros x Hx. rewrite Ho by lia. apply O1. lia. }
  destruct (Z.ltb_spec (oend - 12) (op + len)) as [Htail|Hmid].
  - unfold LASTLITERALS. destruct (Z.ltb_spec (oend - 5) (op + len)) as [|_]; [lia|].
    destruct (Z.ltb_spec (op + n) (oend - 8)) as [Hfar|Hnear].
    + destruct (wild_copied m1 (op + n) (op + n - j * k) (oend - 8)) as (m2 & w & -> & Hw & [E2 O2 P2]); [apply Hsub; (done || lia)..|lia|]. sbind.
      destruct (byte_copied (Z.to_nat (op + len - (oend - 8))) m2 (oend - 8) (op + n - j * k + (oend - 8 - (op + n))))
        as (m3 & -> & [E3 O3 P3]); [apply Hsub; [auto|lia|lia]..|lia|]. sbind.
      replace (op + n - (op + n - j * k)) with (j * k) in E2 by lia.
      replace (oend - 8 - (op + n - j * k + (oend - 8 - (op + n)))) with (j * k) in E3 by lia.
      exists m3. split; [done|]. apply and_assoc. split; [|auto]. apply (Hfin m3 (Z.max (op + len) (oend - 8))).
      * intros x Hx. rewrite O3, O2 by lia. done.
      * intros x Hx. destruct (decide (x < oend - 8)); [|apply E3; lia].
        rewrite (O3 x), (O3 (x - j * k)) by lia. apply E2. lia.
      * lia.
    + destruct (byte_copied (Z.to_nat (op + len - (op + n))) m1 (op + n) (op + n - j * k)) as (m3 & -> & [E3 O3 P3]); [apply Hsub; (done || lia)..|lia|]. sbind.
      replace (op + n - (op + n - j * k)) with (j * k) in E3 by lia.
      exists m3. split; [done|]. apply and_assoc. split; [|auto]. apply (Hfin m3 (op + len)); [|intros x Hx; apply E3; lia|lia].
      intros x Hx. apply O3. lia.
  - destruct (wild_copied m1 (op + n) (op + n - j * k) (op + len)) as (m2 & w & -> & Hw & [E2 O2 P2]); [apply Hsub; (done || lia)..|lia|]. sbind.
    replace (op + n - (op + n - j * k)) with (j * k) in E2 by lia.
    exists m2. split; [done|]. apply and_assoc. split; [|auto]. apply (Hfin m2 (op + len)); [|intros x Hx; apply E2; lia|lia].
    intros x Hx. apply O2. lia.
Qed.

(** ** Lengths and bytes *)

Lemma bytes_at_shift (m m' : mem) a b l :
  bytes_at m a l → (∀ x, b <= x < b + Z.of_nat (length l) → m' !! x = m !! (x + (a - b))) → bytes_at m' b l.
Proof.
  revert a b. induction l as [|c l IH]; intros a b Hm Hs; [done|]. destruct Hm as [Hc Hm]. cbn [length] in Hs. split.
  - rewrite Hs by lia. by replace (b + (a - b)) with a by lia.
  - apply (IH (a + 1)); [done|]. intros x Hx. rewrite Hs by lia. f_equal. lia.
Qed.

Lemma bytes_at_ext (m m' : mem) a l :
  bytes_at m a l → (∀ x, a <= x < a + Z.of_nat (length l) → m' !! x = m !! x) → bytes_at m' a l.
Proof. intros Hm Hs. apply (bytes_at_shift m m' a a l Hm). intros x Hx. rewrite Hs by lia. f_equal. lia. Qed.

Lemma bytes_at_mapped m a l : bytes_at m a l → mapped m a (Z.of_nat (length l)).
Proof.
  revert a. induction l as [|c l IH]; intros a Hm x Hx; cbn [length] in Hx; [lia|]. destruct Hm as [Hc Hm].
  destruct (decide (x = a)) as [->|]; [eauto|]. apply (IH (a + 1) Hm). lia.
Qed.

Lemma bytes_at_nth m a l i : bytes_at m a l → (i < length l)%nat → m !! (a + Z.of_nat i) = Some (nth i l 0).
Proof.
  revert a i. induction l as [|c l IH]; intros a i Hm Hi; cbn [length] in Hi; [lia|]. destruct Hm as [Hc Hm].
  destruct i as [|i]; cbn [nth]; [by rewrite Z.add_0_r|]. rewrite <- (IH (a + 1)) by (done || lia). f_equal. lia.
Qed.

Lemma literal_length_run q fuel (m : mem) ip iend len b :
  bytes_at m ip (replicate q 255 ++ [b]) → 0 <= b < 255 → (q < fuel)%nat → q = 0%nat ∨ ip + Z.of_nat q < iend - 15 →
  0 <= len → len + 255 * Z.of_nat q + b < 2 ^ 32 →
  literal_length fuel m ip iend len = Some (ip + Z.of_nat q + 1, len + 255 * Z.of_nat q + b).
Proof.
  change (2 ^ 32) with 4294967296. revert fuel ip len. induction q as [|q IH]; intros [|fuel] ip len Hm Hb Hf Hend Hl Hs; [lia..| |lia|];
    destruct Hm as [Hc Hm]; cbn [literal_length]; rewrite Hc; sbind; rewrite u32_small by (unfold is_u32; lia).
  - destruct (Z.eqb_spec b 255); [lia|]. rewrite andb_false_r. do 2 f_equal; lia.
  - unfold RUN_MASK. rewrite (proj2 (Z.ltb_lt _ _)), Z.eqb_refl by lia. cbn [andb]. rewrite IH; [|done..|lia|lia|lia|lia].
    do 2 f_equal; lia.
Qed.

Lemma match_length_run q fuel (m : mem) ip iend len b :
  bytes_at m ip (replicate q 255 ++ [b]) → 0 <= b < 255 → (q < fuel)%nat → ip + Z.of_nat q <= iend - 5 →
  0 <= len → len + 255 * Z.of_nat q + b < 2 ^ 32 →
  match_length fuel m ip iend len = Some (ip + Z.of_nat q + 1, Some (len + 255 * Z.of_nat q + b)).
Proof.
  change (2 ^ 32) with 4294967296. revert fuel ip len. induction q as [|q IH]; intros [|fuel] ip len Hm Hb Hf Hend Hl Hs; [lia..| |lia|];
    destruct Hm as [Hc Hm]; cbn [match_length]; unfold LASTLITERALS; rewrite (proj2 (Z.ltb_ge (iend - 5) ip)) by lia; rewrite Hc; sbind;
    rewrite u32_small by (unfold is_u32; lia).
  - destruct (Z.eqb_spec b 255); [lia|]. do 3 f_equal; lia.
  - rewrite Z.eqb_refl. rewrite IH; [|done..|lia|lia|lia|lia]. do 3 f_equal; lia.
Qed.

Lemma length_append_match n out k : length (append_match n out k) = (length out + n)%nat.
Proof. revert out. induction n as [|n IH]; intros out; cbn [append_match]; [lia|]. rewrite IH, length_app. simpl. lia. Qed.

Lemma length_decode_seq out s : length (decode_seq out s) = (length out + length (lits s) + mlen s)%nat.
Proof. unfold decode_seq. by rewrite length_append_match, length_app. Qed.

(** A repetition in memory is what the match appends. *)
Lemma append_match_run n (m : mem) dest out k :
  bytes_at m dest out → 1 <= k <= Z.of_nat (length out) →
  periodic m (dest + Z.of_nat (length out)) (dest + Z.of_nat (length out) + Z.of_nat n) k →
  bytes_at m dest (append_match n out k).
Proof.
  revert out. induction n as [|n IH]; intros out Hm Hk Hp; cbn [append_match]; [done|]. apply IH.
  - apply bytes_at_app. split; [done|]. split; [|done]. rewrite Hp by lia.
    rewrite <- (bytes_at_nth _ _ _ _ Hm) by lia. f_equal. lia.
  - rewrite length_app. cbn [length]. lia.
  - intros x Hx. apply Hp. rewrite length_app in Hx. cbn [length] in Hx. lia.
Qed.

Lemma token_parts a b : 0 <= b < 16 → Z.shiftr (16 * a + b) ML_BITS = a ∧ Z.land (16 * a + b) ML_MASK = b.
Proof.
  intros Hb. unfold ML_BITS, ML_MASK. rewrite Z.shiftr_div_pow2 by lia. change (2 ^ 4) with 16. split; [zmod|].
  change 15 with (Z.ones 4). rewrite Z.land_ones by lia. change (2 ^ 4) with 16. zmod.
Qed.

(** A token and the length of [n] literals, which end at [iend] at the latest. *)
Lemma literal_head_run (m : mem) ip iend n low :
  bytes_at m ip ((16 * nibble n + low) :: ext n) → 0 <= n → 0 <= low < 16 →
  ip + 1 + Z.of_nat (length (ext n)) + n <= iend → 0 <= ip → iend < 2 ^ 32 →
  ∃ token, m !! ip = Some token ∧ Z.land token ML_MASK = low ∧
    (if Z.shiftr token ML_BITS =? RUN_MASK then literal_length (S (Z.to_nat (iend - (ip + 1)))) m (ip + 1) iend (Z.shiftr token ML_BITS)
     else Some (ip + 1, Z.shiftr token ML_BITS)) = Some (ip + 1 + Z.of_nat (length (ext n)), n).
Proof.
  change (2 ^ 32) with 4294967296. intros [Htok He] Hn Hlow Hend Hip Hi32. unfold nibble in Htok.
  destruct (token_parts (Z.min n 15) low Hlow) as [Ht1 Ht2]. eexists. split; [exact Htok|]. split; [exact Ht2|].
  rewrite Ht1. unfold RUN_MASK. clear Ht1 Ht2 Htok. unfold ext in *.
  destruct (Z.ltb_spec n 15) as [Hs|Hb]; [destruct (Z.eqb_spec (Z.min n 15) 15); [lia|]; cbn [length]; do 2 f_equal; lia|].
  destruct (Z.eqb_spec (Z.min n 15) 15); [|lia]. rewrite length_app, length_replicate in *. cbn [length] in *.
  rewrite (literal_length_run (Z.to_nat ((n - 15) / 255)) _ m (ip + 1) iend _ ((n - 15) mod 255)); [|done|zmod|zmod|zmod|zmod|].
  - do 2 f_equal; [lia|]. zmod.
  - change (2 ^ 32) with 4294967296. zmod.
Qed.

(** The literal part of a sequence, with at least [|l|] bytes of input behind its length. *)
Lemma literals_run (m : mem) ip iend l low :
  bytes_at m ip (enc_lits l low) → 0 <= low < 16 → ip + Z.of_nat (length (enc_lits l low)) <= iend → 0 <= ip → iend < 2 ^ 32 →
  let n := Z.of_nat (length l) in
  let ip1 := ip + 1 + Z.of_nat (length (ext n)) in
  ∃ token, m !! ip = Some token ∧ Z.land token ML_MASK = low ∧
    (if Z.shiftr token ML_BITS =? RUN_MASK then literal_length (S (Z.to_nat (iend - (ip + 1)))) m (ip + 1) iend (Z.shiftr token ML_BITS)
     else Some (ip + 1, Z.shiftr token ML_BITS)) = Some (ip1, n) ∧
    bytes_at m ip1 l.
Proof.
  intros Hm Hlow Hend Hip Hi32 n ip1. unfold enc_lits in Hm, Hend. cbn [length] in Hend. rewrite length_app in Hend. fold n in Hm, Hend.
  rewrite app_comm_cons in Hm. apply bytes_at_app in Hm as [Hm Hl].
  destruct (literal_head_run m ip iend n low Hm) as (token & Ht & Hlo & Hr); [lia..|done|]. exists token. do 3 (split; [done|]).
  unfold ip1. replace (ip + 1 + Z.of_nat (length (ext n))) with (ip + Z.of_nat (length ((16 * nibble n + low) :: ext n))) by (cbn [length]; lia). done.
Qed.

(** The length of a match, with at least five bytes of input behind it. *)
Lemma match_length_parse (m : mem) ip iend v :
  bytes_at m ip (ext v) → 0 <= v → v + 4 < 2 ^ 32 → ip + Z.of_nat (length (ext v)) + 5 <= iend →
  (if nibble v =? ML_MASK then match_length (S (S (Z.to_nat (iend - ip)))) m ip iend (nibble v) else Some (ip, Some (nibble v))) =
    Some (ip + Z.of_nat (length (ext v)), Some v).
Proof.
  change (2 ^ 32) with 4294967296. intros Hm Hv Hs Hend. unfold nibble, ML_MASK, ext in *.
  destruct (Z.ltb_spec v 15) as [Hl|Hb]; [destruct (Z.eqb_spec (Z.min v 15) 15); [lia|]; cbn [length]; do 3 f_equal; lia|].
  destruct (Z.eqb_spec (Z.min v 15) 15); [|lia]. rewrite length_app, length_replicate in *. cbn [length] in *.
  rewrite (match_length_run (Z.to_nat ((v - 15) / 255)) _ m ip iend _ ((v - 15) mod 255)); [|done|zmod|zmod|zmod|zmod|].
  - do 2 f_equal; [lia|]. f_equal. zmod.
  - change (2 ^ 32) with 4294967296. zmod.
Qed.

(** ** A block *)

(** Memory holds [bs] at [a]. *)
Definition holds (m : mem) (a : Z) (bs : bytes) : Prop := load_n (length bs) m a = Some bs.

(** Changed between [lo] and [lim] only. *)
Definition keeps (m m' : mem) (lo lim : Z) : Prop :=
  (∀ x, x < lo ∨ lim <= x → m' !! x = m !! x) ∧ (∀ a n, mapped m a n → mapped m' a n).

Lemma keeps_trans m1 m2 m3 lo lim : keeps m1 m2 lo lim → keeps m2 m3 lo lim → keeps m1 m3 lo lim.
Proof. intros [H1 P1] [H2 P2]. split; [|auto]. intros x Hx. by rewrite H2, H1. Qed.

Lemma keeps_bytes (m m' : mem) lo lim a l :
  keeps m m' lo lim → bytes_at m a l → a + Z.of_nat (length l) <= lo ∨ lim <= a → bytes_at m' a l.
Proof. intros [Hk _] Hm Hd. apply (bytes_at_ext m); [done|]. intros x Hx. apply Hk. lia. Qed.

Section block.
Context (source iend dest oend lim : Z) (Hdest : 0 <= dest) (Hoend : oend < 2 ^ 32) (Hiend : iend < 2 ^ 32).

(** The literals of a sequence that is not the last. *)
Lemma literals_copy (m : mem) ip1 out l :
  let n := Z.of_nat (length l) in
  let op := dest + Z.of_nat (length out) in
  bytes_at m ip1 l → mapped m ip1 (n + 8) → bytes_at m dest out → ip1 + n + 8 <= dest ∨ lim <= ip1 → op + n + 4 <= lim →
  mapped m dest (lim - dest) →
  ∃ m', LZ4_wildCopy m op ip1 (op + n) = Some m' ∧ bytes_at m' dest (out ++ l) ∧ keeps m m' dest lim.
Proof.
  intros n op Hl Hsrc Hout Hap Hlim Hmap.
  destruct (wild_copied m op ip1 (op + n)) as (m1 & w & -> & Hw & [E1 O1 P1]);
    [eapply mapped_sub; [exact Hsrc|lia..]|eapply mapped_sub; [exact Hmap|lia..]|lia|].
  exists m1. split; [done|]. split; [|split; [intros x Hx; apply O1; lia|exact P1]].
  apply bytes_at_app. split; [apply (bytes_at_ext m); [done|]; intros x Hx; apply O1; lia|]. fold op.
  apply (bytes_at_shift m m1 ip1); [done|]. intros x Hx. rewrite E1 by lia. rewrite O1 by lia. f_equal. lia.
Qed.

(** The match of a sequence. *)
Lemma match_copy (m : mem) out off n :
  let op := dest + Z.of_nat (length out) in
  bytes_at m dest out → 1 <= off <= Z.of_nat (length out) → (4 <= n)%nat → op + 12 <= oend → op + Z.of_nat n <= oend - 5 →
  Z.min oend (op + Z.of_nat n + 8) <= lim → mapped m dest (lim - dest) →
  ∃ m', copy_match m op (op - off) (Z.of_nat n) oend = Some (m', true) ∧ bytes_at m' dest (append_match n out off) ∧ keeps m m' dest lim.
Proof.
  intros op Hout Hoff Hn Hp Hpm Hlim Hmap.
  destruct (copy_match_run m op off (Z.of_nat n) dest lim oend) as (m2 & -> & Hper & O2 & P2); [lia..|done|].
  exists m2. split; [done|]. split; [|split; [|done]].
  - apply append_match_run; [|lia|exact Hper]. apply (bytes_at_ext m); [done|]. intros x Hx. apply O2. lia.
  - intros x Hx. apply O2. lia.
Qed.

Lemma sequence_run f (m : mem) ip out s rest :
  let p := dest + Z.of_nat (length out) + Z.of_nat (length (lits s)) in
  bytes_at m ip (enc_seq s ++ rest) → ip + Z.of_nat (length (enc_seq s ++ rest)) = iend → (6 <= length rest)%nat → 0 <= ip →
  iend <= dest ∨ lim <= ip → bytes_at m dest out →
  1 <= offset s <= 65535 → offset s <= Z.of_nat (length out) + Z.of_nat (length (lits s)) → (4 <= mlen s)%nat →
  p + 12 <= oend → p + Z.of_nat (mlen s) <= oend - 5 → Z.min oend (p + Z.of_nat (mlen s) + 8) <= lim → mapped m dest (lim - dest) →
  ∃ m', lz4_loop (S f) m source iend dest oend ip (dest + Z.of_nat (length out)) =
      lz4_loop f m' source iend dest oend (ip + Z.of_nat (length (enc_seq s))) (dest + Z.of_nat (length (decode_seq out s))) ∧
    bytes_at m' dest (decode_seq out s) ∧ keeps m m' dest lim.
Proof.
  intros p Hin Hend Hrest Hip Hap Hout Hoff Hoff' Hmlen Hp12 Hpm Hlim Hmap. rewrite length_app in Hend.
  change (2 ^ 32) with 4294967296 in *.
  set (n := Z.of_nat (length (lits s))) in *. set (op := dest + Z.of_nat (length out)) in *. set (v := Z.of_nat (mlen s) - 4).
  assert (Z.of_nat (length (enc_seq s)) = 1 + Z.of_nat (length (ext n)) + n + 2 + Z.of_nat (length (ext v))) as Hlen.
  { unfold enc_seq, enc_lits. rewrite !length_app, length_le_bytes. cbn [length]. rewrite length_app. fold n v. lia. }
  unfold enc_seq in Hin. fold v in Hin. rewrite <- !app_assoc in Hin. apply bytes_at_app in Hin as [Hlit Hin].
  assert (Z.of_nat (length (enc_lits (lits s) (nibble v))) = 1 + Z.of_nat (length (ext n)) + n) as Hll.
  { unfold enc_lits. cbn [length]. rewrite length_app. fold n. lia. }
  rewrite Hll in Hin. apply bytes_at_app in Hin as [Hof Hin]. rewrite length_le_bytes in Hin. apply bytes_at_app in Hin as [Hext Hin].
  destruct (literals_run m ip iend (lits s) (nibble v) Hlit) as (token & Htok & Hlow & Hpar & Hl); [unfold nibble; lia|lia|done|done|].
  fold n in Hpar, Hl. set (ip1 := ip + 1 + Z.of_nat (length (ext n))) in *.
  cbn [lz4_loop]. rewrite Htok. sbind. rewrite Hpar. sbind.
  rewrite (u32_small (op + n)), (u32_small (ip1 + n)), (proj2 (Z.ltb_ge (op + n) op)), (proj2 (Z.ltb_ge (ip1 + n) ip1)) by (unfold is_u32; lia).
  cbn [orb]. rewrite andb_false_r. unfold MFLIMIT, LASTLITERALS.
  rewrite (proj2 (Z.ltb_ge (oend - 12) (op + n))), (proj2 (Z.ltb_ge (iend - (2 + 1 + 5)) (ip1 + n))) by lia. cbn [orb].
  (* the literals *)
  assert (mapped m ip1 (n + 8)) as Hsrc.
  { intros x Hx. destruct (decide (x < ip1 + n)); [apply (bytes_at_mapped _ _ _ Hl); lia|].
    destruct (decide (x < ip1 + n + 2)); [apply (bytes_at_mapped _ _ _ Hof); rewrite length_le_bytes; lia|].
    destruct (decide (x < ip1 + n + 2 + Z.of_nat (length (ext v)))); [apply (bytes_at_mapped _ _ _ Hext); lia|].
    apply (bytes_at_mapped _ _ _ Hin). lia. }
  destruct (literals_copy m ip1 out (lits s) Hl Hsrc Hout) as (m1 & Hw & Hout1 & K1); [lia|lia|done|]. fold n op in Hw. rewrite Hw. sbind.
  (* the offset *)
  pose proof (keeps_bytes _ _ _ _ _ _ K1 Hof) as Hof1. pose proof (keeps_bytes _ _ _ _ _ _ K1 Hext) as Hext1.
  rewrite length_le_bytes in Hof1. replace (ip + (1 + Z.of_nat (length (ext n)) + n)) with (ip1 + n) in Hof1, Hext1 by lia.
  assert (LZ4_readLE16 m1 (ip1 + n) = Some (offset s)) as ->.
  { unfold LZ4_readLE16. specialize (Hof1 ltac:(lia)). apply bytes_at_load in Hof1. rewrite length_le_bytes in Hof1. rewrite Hof1.
    cbn [fmap option_fmap option_map]. rewrite le_val_bytes; [done|]. change (256 ^ Z.of_nat 2) with 65536. lia. }
  sbind. rewrite (u32_small (op + n - offset s)), (proj2 (Z.ltb_ge (op + n - offset s) dest)) by (unfold is_u32; lia).
  (* the match *)
  rewrite Hlow. rewrite match_length_parse by (done || lia || (apply Hext1; lia)).
  sbind. rewrite (u32_small (op + n + v)), (proj2 (Z.ltb_ge (op + n + v) (op + n))), andb_false_r by (unfold is_u32; lia).
  unfold MINMATCH. rewrite (u32_small (v + 4)) by (unfold is_u32; lia). replace (v + 4) with (Z.of_nat (mlen s)) by lia.
  assert (op + n = dest + Z.of_nat (length (out ++ lits s))) as Hopn by (rewrite length_app; lia). rewrite Hopn.
  rewrite length_app in Hopn.
  destruct (match_copy m1 (out ++ lits s) (offset s) (mlen s) Hout1) as (m2 & Hc & Hb & K2); rewrite ?length_app; [lia..|by apply K1|].
  rewrite length_app in Hc. rewrite Hc. sbind. rewrite u32_small by (unfold is_u32; lia). exists m2. split; [|split].
  - rewrite length_decode_seq, Hlen. f_equal; lia.
  - exact Hb.
  - by apply (keeps_trans _ m1).
Qed.

(** The last literals. *)
Lemma last_run f (m : mem) ip out last :
  let p := dest + Z.of_nat (length out) + Z.of_nat (length last) in
  bytes_at m ip (enc_lits last 0) → ip + Z.of_nat (length (enc_lits last 0)) = iend → 0 <= ip →
  iend <= dest ∨ lim <= ip → bytes_at m dest out → p <= oend → p <= lim → mapped m dest (lim - dest) →
  ∃ m', lz4_loop (S f) m source iend dest oend ip (dest + Z.of_nat (length out)) =
      Some (m', Z.of_nat (length (out ++ last))) ∧ bytes_at m' dest (out ++ last) ∧ keeps m m' dest lim.
Proof.
  intros p Hin Hend Hip Hap Hout Hoe Hlim Hmap. change (2 ^ 32) with 4294967296 in *.
  set (n := Z.of_nat (length last)) in *. set (op := dest + Z.of_nat (length out)) in *.
  destruct (literals_run m ip iend last 0 Hin) as (token & Htok & _ & Hpar & Hl); [lia|lia|done|done|].
  unfold enc_lits in Hend. cbn [length] in Hend. rewrite length_app in Hend. fold n in Hpar, Hl, Hend.
  set (ip1 := ip + 1 + Z.of_nat (length (ext n))) in *. cbn [lz4_loop]. rewrite Htok. sbind. rewrite Hpar. sbind.
  rewrite (u32_small (op + n)), (u32_small (ip1 + n)), (proj2 (Z.ltb_ge (op + n) op)), (proj2 (Z.ltb_ge (ip1 + n) ip1)) by (unfold is_u32; lia).
  cbn [orb]. rewrite andb_false_r. unfold LASTLITERALS.
  rewrite (proj2 (Z.ltb_lt (iend - (2 + 1 + 5)) (ip1 + n))), orb_true_r by lia.
  rewrite (proj2 (Z.eqb_eq (ip1 + n) iend)), (proj2 (Z.ltb_ge oend (op + n))) by lia. cbn [negb orb].
  assert (memcpy m op ip1 n = Some (write_bytes m op last)) as ->.
  { apply memcpy_forward; [by apply bytes_at_load|eapply mapped_sub; [exact Hmap|lia..]|lia]. }
  sbind.
  eexists. split; [|split].
  - rewrite length_app. do 2 f_equal. lia.
  - apply bytes_at_app. fold op. split; [|apply bytes_at_load, load_write_eq].
    apply (bytes_at_ext m); [done|]. intros x Hx. apply lookup_write_out. lia.
  - split; [intros x Hx; apply lookup_write_out; lia|]. intros. by apply mapped_write.
Qed.

(** All sequences from [ip] on. *)
Lemma sequences_run seqs : ∀ f (m : mem) ip out last,
  let total := Z.of_nat (length (foldl decode_seq out seqs ++ last)) in
  bytes_at m ip (enc_block seqs last) → ip + Z.of_nat (length (enc_block seqs last)) = iend → 0 <= ip →
  iend <= dest ∨ lim <= ip → bytes_at m dest out → seqs_ok (Z.of_nat (length out)) total seqs → seqs = [] ∨ (5 <= length last)%nat →
  dest + total <= oend → dest + total <= lim → Z.min oend (dest + total + 8) <= lim → mapped m dest (lim - dest) → (length seqs <= f)%nat →
  ∃ m', lz4_loop (S f) m source iend dest oend ip (dest + Z.of_nat (length out)) = Some (m', total) ∧
    bytes_at m' dest (foldl decode_seq out seqs ++ last) ∧ keeps m m' dest lim.
Proof.
  induction seqs as [|s seqs IH]; intros f m ip out last total Hin Hend Hip Hap Hout Hok Hlast Hoe Hl1 Hl2 Hmap Hf; unfold total in *; clear total.
  - cbn [foldl] in *. rewrite length_app in *. unfold enc_block in Hin, Hend. cbn [fmap list_fmap concat app] in Hin, Hend.
    destruct (last_run f m ip out last Hin Hend Hip Hap Hout) as (m' & Hr & Hb & Hk); [lia|lia|done|].
    rewrite length_app in Hr. exists m'. by split.
  - destruct Hlast as [|Hlast]; [done|]. cbn [seqs_ok] in Hok. destruct Hok as (Ho1 & Ho2 & Ho3 & Ho4 & Hok).
    assert (enc_block (s :: seqs) last = enc_seq s ++ enc_block seqs last) as He by (unfold enc_block; cbn [fmap list_fmap concat]; by rewrite app_assoc).
    rewrite He in Hin, Hend. cbn [foldl] in *.
    assert (∀ l o, (length o <= length (foldl decode_seq o l))%nat) as Hgrow.
    { induction l as [|x l IHl]; intros o; cbn [foldl]; [lia|]. specialize (IHl (decode_seq o x)). rewrite length_decode_seq in IHl. lia. }
    specialize (Hgrow seqs (decode_seq out s)). rewrite length_decode_seq in Hgrow. rewrite length_app in *.
    assert (6 <= length (enc_block seqs last))%nat as H6.
    { unfold enc_block, enc_lits. rewrite length_app. cbn [length]. rewrite length_app. lia. }
    destruct f as [|f]; [cbn [length] in Hf; lia|].
    destruct (sequence_run (S f) m ip out s (enc_block seqs last) Hin) as (m1 & Hr & Hb & Hk); [rewrite length_app; lia|done..|lia|lia|lia|done|].
    rewrite Hr. assert (bytes_at m1 (ip + Z.of_nat (length (enc_seq s))) (enc_block seqs last)) as Hin1.
    { apply bytes_at_app in Hin as [_ Hin]. eapply keeps_bytes; [exact Hk|exact Hin|lia]. }
    assert (Z.of_nat (length (decode_seq out s)) = Z.of_nat (length out) + Z.of_nat (length (lits s)) + Z.of_nat (mlen s)) as Hld
      by (rewrite length_decode_seq; lia).
    destruct (IH f m1 (ip + Z.of_nat (length (enc_seq s))) (decode_seq out s) last Hin1) as (m' & Hr' & Hb' & Hk').
    { lia. } { lia. } { lia. } { exact Hb. } { rewrite Hld, length_app. exact Hok. } { by right. }
    { rewrite length_app. lia. } { rewrite length_app. lia. } { rewrite length_app. lia. } { by apply Hk. } { cbn [length] in Hf. lia. }
    cbv zeta in Hr'. rewrite length_app in Hr'. exists m'. split; [exact Hr'|]. split; [done|]. by eapply keeps_trans.
Qed.

End block.

Lemma block_length seqs last : (length seqs <= length (enc_block seqs last))%nat.
Proof.
  unfold enc_block. rewrite length_app. assert (length seqs <= length (concat (enc_seq <$> seqs)))%nat; [|lia].
  assert (∀ s, (1 <= length (enc_seq s))%nat) as H1 by (intros s; unfold enc_seq, enc_lits; cbn [app length]; lia).
  induction seqs as [|s seqs IH]; [done|]. rewrite fmap_cons. cbn [concat length]. rewrite length_app. specialize (H1 s). lia.
Qed.

(** The output buffer has [room] bytes that may be written: all of it, or eight
    bytes more than the data. *)
Lemma generic_run (m : mem) source dest seqs last size room :
  let total := Z.of_nat (length (decode_block seqs last)) in
  let n := Z.of_nat (length (enc_block seqs last)) in
  block_ok seqs last → bytes_at m source (enc_block seqs last) → 0 <= source → source + n < 2 ^ 32 →
  0 <= dest → 0 < size → dest + size < 2 ^ 32 → total <= size → total <= room → Z.min size (total + 8) <= room →
  mapped m dest room → source + n <= dest ∨ dest + room <= source →
  ∃ m', LZ4_decompress_generic m source dest n size = Some (m', total) ∧
    bytes_at m' dest (decode_block seqs last) ∧ keeps m m' dest (dest + room).
Proof.
  intros total n [Hok Hlast] Hin Hs Hs32 Hd Hsz Hd32 Ht Hr1 Hr2 Hmap Hap. unfold LZ4_decompress_generic.
  rewrite (proj2 (Z.eqb_neq size 0)) by lia. pose proof (block_length seqs last) as Hf.
  pose proof (sequences_run source (source + n) dest (dest + size) (dest + room) Hd Hd32 Hs32 seqs (Z.to_nat n) m source [] last) as H.
  cbn [length] in H. change (Z.of_nat 0) with 0 in H. rewrite Z.add_0_r in H. cbv zeta in H.
  fold (decode_block seqs last) in H. fold total in H.
  apply H; try done; try lia. by replace (dest + room - dest) with room by lia.
Qed.

(** ** lz4_wrapper.c *)

Definition LZ4F_MAGIC : Z := 0x184D2204.
Definition EINVAL : Z := 22.
Definition EPROTO : Z := 71.
Definition EPROTONOSUPPORT : Z := 93.
Definition ENOBUFS : Z := 105.

(** Bits [a .. a+n) of a byte, the bit fields of the two headers. *)
Definition bits (x a n : Z) : Z := Z.land (Z.shiftr x a) (Z.ones n).

Definition sizeof_frame_header : Z := 6.

(** The blocks from [in_] on; memory, end of the output and return code. *)
Fixpoint ulz4_blocks (fuel : nat) (m : mem) (src srcn end_ has_block_checksum in_ out : Z) : option (mem * Z * Z) :=
  match fuel with
  | O => None
  | S f =>
      raw ← rd32 m in_;
      let size := bits raw 0 31 in
      let in_ := in_ + 4 in
      if srcn <? u32 (in_ - src + size) then Some (m, out, - EINVAL)
      else if size =? 0 then Some (m, out, 0)
      else
        let next := in_ + size + (if negb (has_block_checksum =? 0) then 4 else 0) in
        if negb (bits raw 31 1 =? 0) then
          let n := Z.min size (end_ - out) in
          m ← memcpy m out in_ n;
          let out := out + n in
          if n <? size then Some (m, out, - ENOBUFS)
          else ulz4_blocks f m src srcn end_ has_block_checksum next out
        else
          '(m, ret) ← LZ4_decompress_generic m in_ out size (end_ - out);
          if ret <? 0 then Some (m, out, - EPROTO)
          else ulz4_blocks f m src srcn end_ has_block_checksum next (out + ret)
  end.

(** [*dstn] afterwards and the return code; with an early return [*dstn] is 0. *)
Definition ulz4fn (m : mem) (dst dstn src srcn : Z) : option (mem * Z * Z) :=
  if srcn <? sizeof_frame_header + 8 + 1 then Some (m, 0, - EINVAL)
  else
    magic ← rd32 m src;
    flags ← m !! (src + 4);
    bd ← m !! (src + 5);
    if negb (magic =? LZ4F_MAGIC) || negb (bits flags 6 2 =? 1) then Some (m, 0, - EPROTONOSUPPORT)
    else if negb (bits flags 0 2 =? 0) || negb (bits bd 0 4 =? 0) || negb (bits bd 7 1 =? 0) then Some (m, 0, - EINVAL)
    else if bits flags 5 1 =? 0 then Some (m, 0, - EPROTONOSUPPORT)
    else
      let in_ := src + sizeof_frame_header + (if negb (bits flags 3 1 =? 0) then 8 else 0) + 1 in
      '(m, out, ret) ← ulz4_blocks (S (Z.to_nat srcn)) m src srcn (dst + dstn) (bits flags 4 1) in_ dst;
      Some (m, out - dst, ret).

(** ** The format of a frame *)

Inductive payload := Stored (l : bytes) | Packed (seqs : list sequence) (last : bytes).

Definition pl_bytes (p : payload) : bytes := match p with Stored l => l | Packed seqs last => enc_block seqs last end.
Definition pl_data (p : payload) : bytes := match p with Stored l => l | Packed seqs last => decode_block seqs last end.
Definition pl_flag (p : payload) : Z := match p with Stored _ => 1 | Packed _ _ => 0 end.

(** A block with its checksum, which the code skips; [ck] tells whether the
    frame has them. *)
Record fblock := FBlock { fb_payload : payload; fb_sum : bytes }.

Definition enc_fblock (ck : bool) (b : fblock) : bytes :=
  le_bytes 4 (Z.of_nat (length (pl_bytes (fb_payload b))) + 2 ^ 31 * pl_flag (fb_payload b)) ++
  pl_bytes (fb_payload b) ++ (if ck then fb_sum b else []).

Record frame := Frame { fr_flags : Z; fr_bd : Z; fr_size : bytes; fr_hc : Z; fr_blocks : list fblock; fr_tail : bytes }.

Definition fr_ck (fr : frame) : bool := negb (bits (fr_flags fr) 4 1 =? 0).
Definition enc_frame (fr : frame) : bytes :=
  le_bytes 4 LZ4F_MAGIC ++ [fr_flags fr; fr_bd fr] ++ fr_size fr ++ [fr_hc fr] ++
  concat (enc_fblock (fr_ck fr) <$> fr_blocks fr) ++ le_bytes 4 0 ++ fr_tail fr.
Definition frame_data (fr : frame) : bytes := concat (pl_data ∘ fb_payload <$> fr_blocks fr).

Definition fblock_ok (b : fblock) : Prop :=
  length (fb_sum b) = 4%nat ∧ 0 < Z.of_nat (length (pl_bytes (fb_payload b))) < 2 ^ 31 ∧
  match fb_payload b with Stored _ => True | Packed seqs last => block_ok seqs last ∧ (0 < length (decode_block seqs last))%nat end.

(** Version 1, reserved bits zero, independent blocks. *)
Record frame_ok (fr : frame) : Prop := {
  fo_version : bits (fr_flags fr) 6 2 = 1;
  fo_reserved : bits (fr_flags fr) 0 2 = 0 ∧ bits (fr_bd fr) 0 4 = 0 ∧ bits (fr_bd fr) 7 1 = 0;
  fo_independent : bits (fr_flags fr) 5 1 = 1;
  fo_size : length (fr_size fr) = (if negb (bits (fr_flags fr) 3 1 =? 0)%Z then 8 else 0)%nat;
  fo_blocks : Forall fblock_ok (fr_blocks fr);
  fo_long : (15 <= length (enc_frame fr))%nat
}.

Lemma raw_parts n f : 0 <= n < 2 ^ 31 → 0 <= f <= 1 → bits (n + 2 ^ 31 * f) 0 31 = n ∧ bits (n + 2 ^ 31 * f) 31 1 = f.
Proof.
  intros Hn Hf. unfold bits. rewrite Z.shiftr_0_r, !Z.land_ones, Z.shiftr_div_pow2 by lia.
  change (2 ^ 31) with 2147483648 in *. change (2 ^ 1) with 2. split; zmod.
Qed.

Lemma rd32_bytes (m : mem) a v : bytes_at m a (le_bytes 4 v) → 0 <= v < 2 ^ 32 → rd32 m a = Some v.
Proof.
  intros Hm Hv. apply bytes_at_load in Hm. rewrite length_le_bytes in Hm. unfold rd32. rewrite Hm.
  cbn [fmap option_fmap option_map]. by rewrite le_val_bytes.
Qed.

Section frame.
Context (src srcn dst dstn lim : Z) (Hsrc : 0 <= src) (Hsrc' : src + srcn < 2 ^ 32) (Hsrcn : srcn < 2 ^ 31).
Context (Hdst : 0 <= dst) (Hdst' : dst + dstn < 2 ^ 32) (Hap : src + srcn <= dst ∨ lim <= src).

(** One block's payload. *)
Lemma payload_run (m : mem) in_ out p :
  let n := Z.of_nat (length (pl_bytes p)) in
  let t := Z.of_nat (length (pl_data p)) in
  bytes_at m in_ (pl_bytes p) → src <= in_ → in_ + n <= src + srcn → bytes_at m dst out →
  (match p with Stored _ => True | Packed seqs last => block_ok seqs last ∧ (0 < length (decode_block seqs last))%nat end) →
  let op := dst + Z.of_nat (length out) in
  op + t <= dst + dstn → op + t <= lim → Z.min (dst + dstn) (op + t + 8) <= lim → mapped m dst (lim - dst) →
  ∃ m', (match p with
         | Stored _ => memcpy m op in_ n = Some m'
         | Packed _ _ => LZ4_decompress_generic m in_ op n (dst + dstn - op) = Some (m', t)
         end) ∧ bytes_at m' dst (out ++ pl_data p) ∧ keeps m m' dst lim.
Proof.
  intros n t Hin Hi1 Hi2 Hout Hok op Ht1 Ht2 Ht3 Hmap. destruct p as [l|seqs last]; cbn [pl_bytes pl_data] in *.
  - exists (write_bytes m op l). split; [|split].
    + apply memcpy_forward; [by apply bytes_at_load|eapply mapped_sub; [exact Hmap|lia..]|lia].
    + apply bytes_at_app. fold op. split; [|apply bytes_at_load, load_write_eq].
      apply (bytes_at_ext m); [done|]. intros x Hx. apply lookup_write_out. lia.
    + split; [intros x Hx; apply lookup_write_out; lia|]. intros. by apply mapped_write.
  - destruct Hok as [Hok Hpos]. change (2 ^ 31) with 2147483648 in *. change (2 ^ 32) with 4294967296 in *.
    destruct (generic_run m in_ op seqs last (dst + dstn - op) (lim - op) Hok Hin) as (m' & Hr & Hb & [Hk1 Hk2]); try (change (2 ^ 32) with 4294967296); try lia.
    { eapply mapped_sub; [exact Hmap|lia..]. }
    exists m'. split; [exact Hr|]. split.
    + apply bytes_at_app. fold op. split; [|done]. apply (bytes_at_ext m); [done|]. intros x Hx. apply Hk1. lia.
    + split; [|exact Hk2]. intros x Hx. apply Hk1. lia.
Qed.

Lemma blocks_run ck bs tail : ∀ f (m : mem) in_ out,
  let data := out ++ concat (pl_data ∘ fb_payload <$> bs) in
  let total := dst + Z.of_nat (length data) in
  Forall fblock_ok bs → bytes_at m in_ (concat (enc_fblock ck <$> bs) ++ le_bytes 4 0 ++ tail) → src <= in_ →
  in_ + Z.of_nat (length (concat (enc_fblock ck <$> bs) ++ le_bytes 4 0 ++ tail)) = src + srcn →
  bytes_at m dst out → total <= dst + dstn → total <= lim → Z.min (dst + dstn) (total + 8) <= lim →
  mapped m dst (lim - dst) → (length bs <= f)%nat →
  ∃ m', ulz4_blocks (S f) m src srcn (dst + dstn) (if ck then 1 else 0) in_ (dst + Z.of_nat (length out)) = Some (m', total, 0) ∧
    bytes_at m' dst data ∧ keeps m m' dst lim.
Proof.
  change (2 ^ 31) with 2147483648 in *. change (2 ^ 32) with 4294967296 in *.
  induction bs as [|[p ckb] bs IH]; intros f m in_ out data total Hok Hin Hi1 Hi2 Hout Ht1 Ht2 Ht3 Hmap Hf.
  - subst data total. rewrite fmap_nil in *. cbn [concat app] in *. rewrite !app_nil_r in *.
    rewrite length_app, length_le_bytes in Hi2. apply bytes_at_app in Hin as [Hz _]. cbn [ulz4_blocks].
    rewrite (rd32_bytes m in_ 0) by (done || lia). sbind. change (bits 0 0 31) with 0.
    rewrite u32_small, (proj2 (Z.ltb_ge _ _)) by (unfold is_u32; lia). cbn [Z.eqb]. exists m. split; [done|]. split; [done|]. by split.
  - subst data total. rewrite fmap_cons in *. cbn [concat] in *. inversion_clear Hok as [|?? (Hcl & Hn & Hp) Hoks]. cbn [fb_payload fb_sum] in *.
    unfold enc_fblock in Hin at 1, Hi2 at 1. cbn [fb_payload fb_sum] in Hin, Hi2. rewrite <- !app_assoc in Hin, Hi2.
    set (n := Z.of_nat (length (pl_bytes p))) in *. set (rest := concat (enc_fblock ck <$> bs) ++ le_bytes 4 0 ++ tail) in *.
    apply bytes_at_app in Hin as [Hraw Hin]. apply bytes_at_app in Hin as [Hpl Hin]. apply bytes_at_app in Hin as [_ Hrest].
    rewrite length_le_bytes in Hpl, Hrest. change (Z.of_nat 4) with 4 in Hpl, Hrest. fold n in Hrest.
    rewrite !length_app, length_le_bytes in Hi2.
    change ((pl_data ∘ fb_payload) {| fb_payload := p; fb_sum := ckb |}) with (pl_data p) in *.
    rewrite !length_app in Ht1, Ht2, Ht3. rewrite (app_assoc out).
    assert (Z.of_nat (length (if ck then ckb else [])) = if negb ((if ck then 1 else 0) =? 0) then 4 else 0) as Hck
      by (destruct ck; [by rewrite Hcl|done]).
    assert (0 <= Z.of_nat (length (if ck then ckb else []))) as Hck0 by lia.
    assert (0 <= pl_flag p <= 1) as Hfl by (destruct p; simpl; lia).
    destruct (raw_parts n (pl_flag p)) as [Hr1 Hr2]; [lia|lia|].
    cbn [ulz4_blocks]. rewrite (rd32_bytes m in_ _ Hraw) by (change (2 ^ 31) with 2147483648; change (2 ^ 32) with 4294967296; lia).
    sbind. rewrite Hr1, Hr2. rewrite u32_small, (proj2 (Z.ltb_ge srcn _)) by (unfold is_u32; lia).
    rewrite (proj2 (Z.eqb_neq n 0)) by lia.
    destruct (payload_run m (in_ + 4) out p Hpl) as (m1 & Hrun & Hb & Hk); [lia|lia|done|done|lia|lia|lia|done|]. fold n in Hrun.
    destruct f as [|f]; [cbn [length] in Hf; lia|].
    assert (bytes_at m1 (in_ + 4 + n + (if negb ((if ck then 1 else 0) =? 0) then 4 else 0)) rest) as Hrest1.
    { eapply keeps_bytes; [exact Hk|by rewrite Hck in Hrest|lia]. }
    destruct (IH f m1 _ (out ++ pl_data p) Hoks Hrest1) as (m2 & Hrun2 & Hb2 & Hk2).
    { lia. } { fold rest. lia. } { done. }
    { rewrite !length_app. lia. } { rewrite !length_app. lia. } { rewrite !length_app. lia. } { by apply Hk. } { cbn [length] in Hf. lia. }
    exists m2. split; [|split; [done|by eapply keeps_trans]]. rewrite <- Hrun2. rewrite length_app, Nat2Z.inj_add, Z.add_assoc.
    destruct p; cbn [pl_flag pl_bytes pl_data] in *; cbn [negb Z.eqb].
    + rewrite Z.min_l by lia. fold n. rewrite Hrun. sbind. by rewrite Z.ltb_irrefl.
    + fold n. rewrite Hrun. sbind. by rewrite (proj2 (Z.ltb_ge _ 0)) by lia.
Qed.

End frame.

Lemma fblocks_length ck bs : (length bs <= length (concat (enc_fblock ck <$> bs)))%nat.
Proof.
  induction bs as [|b bs IH]; [done|]. rewrite fmap_cons. cbn [concat length]. rewrite length_app. unfold enc_fblock at 1.
  rewrite length_app, length_le_bytes. lia.
Qed.

Lemma frame_run (m : mem) src dst dstn room fr :
  let srcn := Z.of_nat (length (enc_frame fr)) in
  let total := Z.of_nat (length (frame_data fr)) in
  frame_ok fr → bytes_at m src (enc_frame fr) → 0 <= src → src + srcn < 2 ^ 32 → srcn < 2 ^ 31 → 0 <= dst → dst + dstn < 2 ^ 32 →
  total <= dstn → total <= room → Z.min dstn (total + 8) <= room → mapped m dst room → src + srcn <= dst ∨ dst + room <= src →
  ∃ m', ulz4fn m dst dstn src srcn = Some (m', total, 0) ∧ bytes_at m' dst (frame_data fr) ∧ keeps m m' dst (dst + room).
Proof.
  intros srcn total [Hv (Hz1 & Hz2 & Hz3) Hind Hsz Hbs Hlong] Hin Hs Hs' Hsn Hd Hd' Ht1 Ht2 Ht3 Hmap Hap.
  unfold ulz4fn, sizeof_frame_header. rewrite (proj2 (Z.ltb_ge srcn _)) by lia. pose proof (fblocks_length (fr_ck fr) (fr_blocks fr)) as Hf.
  assert (Z.of_nat (length (enc_frame fr)) = 7 + Z.of_nat (length (fr_size fr)) +
    Z.of_nat (length (concat (enc_fblock (fr_ck fr) <$> fr_blocks fr) ++ le_bytes 4 0 ++ fr_tail fr))) as Hlen.
  { unfold enc_frame. rewrite !length_app, !length_le_bytes. cbn [length]. lia. }
  unfold enc_frame in Hin. apply bytes_at_app in Hin as [Hmag Hin]. rewrite length_le_bytes in Hin. change (Z.of_nat 4) with 4 in Hin.
  apply bytes_at_app in Hin as [(Hfl & Hbd & _) Hin]. cbn [length] in Hin. change (Z.of_nat 2) with 2 in Hin.
  apply bytes_at_app in Hin as [_ Hin]. apply bytes_at_app in Hin as [_ Hin]. cbn [length] in Hin. change (Z.of_nat 1) with 1 in Hin.
  rewrite (rd32_bytes m src _ Hmag) by (unfold LZ4F_MAGIC; lia). sbind. rewrite Hfl. sbind.
  replace (src + 5) with (src + 4 + 1) by lia. rewrite Hbd. sbind.
  rewrite Z.eqb_refl, Hv, Hz1, Hz2, Hz3, Hind. cbn [negb orb Z.eqb].
  assert (bits (fr_flags fr) 4 1 = if fr_ck fr then 1 else 0) as ->.
  { unfold fr_ck. destruct (Z.eqb_spec (bits (fr_flags fr) 4 1) 0) as [E|E]; [done|]. cbn [negb]. unfold bits in *. rewrite Z.land_ones in * by lia.
    change (2 ^ 1) with 2 in *. zmod. }
  assert ((if negb (bits (fr_flags fr) 3 1 =? 0) then 8 else 0) = Z.of_nat (length (fr_size fr))) as ->.
  { rewrite Hsz. by destruct (negb (bits (fr_flags fr) 3 1 =? 0)). }
  replace (src + 4 + 2 + Z.of_nat (length (fr_size fr)) + 1) with (src + 6 + Z.of_nat (length (fr_size fr)) + 1) in Hin by lia.
  destruct (blocks_run src srcn dst dstn (dst + room) Hs Hs' Hsn Hd Hd' Hap (fr_ck fr) (fr_blocks fr) (fr_tail fr) (Z.to_nat srcn) m
    (src + 6 + Z.of_nat (length (fr_size fr)) + 1) []) as (m' & Hr & Hb & Hk); try done; try lia.
  - cbn [app]. fold (frame_data fr). lia.
  - cbn [app]. fold (frame_data fr). lia.
  - cbn [app]. fold (frame_data fr). lia.
  - by replace (dst + room - dst) with room by lia.
  - unfold srcn. rewrite Nat2Z.id. rewrite !length_app in Hlen. lia.
  - cbn [length app] in Hr. rewrite Z.add_0_r in Hr. rewrite Hr. sbind. fold (frame_data fr) in *. exists m'. split; [do 3 f_equal; lia|]. by split.
Qed.

(** ** Arbitrary input *)

(** Nothing changed but [lo .. hi). *)
Definition within (m m' : mem) (lo hi : Z) : Prop := ∀ x, x < lo ∨ hi <= x → m' !! x = m !! x.

Lemma within_trans m1 m2 m3 a b c d lo hi :
  within m1 m2 a b → within m2 m3 c d → lo <= a → lo <= c → b <= hi → d <= hi → within m1 m3 lo hi.
Proof. intros H1 H2 ???? x Hx. rewrite H2, H1 by lia. done. Qed.

Lemma within_mono m1 m2 a b lo hi : within m1 m2 a b → lo <= a → b <= hi → within m1 m2 lo hi.
Proof. intros H1 ?? x Hx. apply H1. lia. Qed.

Lemma store_within m a bs m' : store_n m a bs = Some m' → within m m' a (a + Z.of_nat (length bs)).
Proof. intros H x Hx. rewrite (store_n_inv _ _ _ _ H). apply lookup_write_out. lia. Qed.

Lemma copy_obj_within k m d s m' : copy_obj k m d s = Some m' → within m m' d (d + Z.of_nat k).
Proof. unfold copy_obj. intros H. apply bind_Some_inv in H as (bs & Hb & H). apply store_within in H. by rewrite (load_n_length _ _ _ _ Hb) in H. Qed.

Lemma copy4_within k m d s m' : copy4 k m d s = Some m' → within m m' d (d + 4 * Z.of_nat k).
Proof.
  unfold copy4. intros H. apply bind_Some_inv in H as (m1 & H1 & H). apply bind_Some_inv in H as (m2 & H2 & H).
  apply bind_Some_inv in H as (m3 & H3 & H4). apply copy_obj_within in H1, H2, H3, H4.
  intros x Hx. rewrite H4, H3, H2, H1 by lia. done.
Qed.

(** Both loops of [memcpy]: what is left, and what was written. *)
Lemma big_within k fuel m d s n m' d' s' n' :
  0 <= n → memcpy_big k fuel m d s n = Some (m', d', s', n') → 0 <= n' ∧ d' + n' = d + n ∧ d <= d' ∧ within m m' d d'.
Proof.
  revert m d s n. induction fuel as [|fuel IH]; intros m d s n Hn H; cbn [memcpy_big] in H; [done|]. case_match eqn:E.
  - apply bind_Some_inv in H as (m1 & H1 & H). bool_to_prop. apply IH in H as (? & ? & ? & Hw); [|lia]. do 3 (split; [lia|]).
    apply copy4_within in H1. eapply within_trans; [exact H1|exact Hw|lia..].
  - simplify_eq. do 3 (split; [lia|]). by intros x.
Qed.

Lemma little_within k fuel m d s n m' d' s' n' :
  0 <= n → memcpy_little k fuel m d s n = Some (m', d', s', n') → 0 <= n' ∧ d' + n' = d + n ∧ d <= d' ∧ within m m' d d'.
Proof.
  revert m d s n. induction fuel as [|fuel IH]; intros m d s n Hn H; cbn [memcpy_little] in H; [done|]. case_match eqn:E.
  - apply bind_Some_inv in H as (m1 & H1 & H). bool_to_prop. apply IH in H as (? & ? & ? & Hw); [|lia]. do 3 (split; [lia|]).
    apply copy_obj_within in H1. eapply within_trans; [exact H1|exact Hw|lia..].
  - simplify_eq. do 3 (split; [lia|]). by intros x.
Qed.

Lemma memcpy_within m d s n m' : 0 <= n → memcpy m d s n = Some m' → within m m' d (d + n).
Proof.
  unfold memcpy. intros Hn H. apply bind_Some_inv in H as ([[[m1 d1] s1] n1] & H1 & H).
  apply bind_Some_inv in H as ([[[m2 d2] s2] n2] & H2 & [= <-]).
  assert (0 <= n1 ∧ d1 + n1 = d + n ∧ d <= d1 ∧ within m m1 d d1) as (? & ? & ? & Hw1).
  { case_match.
    - apply bind_Some_inv in H1 as ([[[m3 d3] s3] n3] & H3 & H1). apply big_within in H3 as (?&?&?&Hw3); [|done].
      apply little_within in H1 as (?&?&?&Hw1); [|done]. do 3 (split; [lia|]). eapply within_trans; [exact Hw3|exact Hw1|lia..].
    - simplify_eq. do 3 (split; [lia|]). by intros x. }
  apply little_within in H2 as (?&?&?&Hw2); [|done]. eapply within_trans; [exact Hw1|exact Hw2|lia..].
Qed.

(** The copies of LZ4; memory remains a memory of bytes. *)
Lemma wild_within m d s e m' : byte_mem m → LZ4_wildCopy m d s e = Some m' → byte_mem m' ∧ within m m' d (d + Z.max (e - d) 1 + 3).
Proof.
  unfold LZ4_wildCopy. generalize (S (Z.to_nat (e - d))). intros fuel. revert m d s.
  induction fuel as [|fuel IH]; intros m d s Hm H; cbn [wild_loop] in H; [done|]. apply bind_Some_inv in H as (m1 & H1 & H).
  pose proof (byte_mem_copy_obj 4 m d s m1 Hm H1) as Hm1. apply (copy_obj_within 4) in H1. case_match eqn:E.
  - bool_to_prop. apply IH in H as [Hb Hw]; [|done]. split; [done|]. eapply within_trans; [exact H1|exact Hw|lia..].
  - simplify_eq. split; [done|]. eapply within_mono; [exact H1|lia..].
Qed.

Lemma byte_within n m d s m' : byte_mem m → byte_loop n m d s = Some m' → byte_mem m' ∧ within m m' d (d + Z.of_nat n).
Proof.
  revert m d s. induction n as [|n IH]; intros m d s Hm H; cbn [byte_loop] in H; [simplify_eq; split; [done|by intros x]|].
  apply bind_Some_inv in H as (m1 & H1 & H). unfold copy1 in H1. apply bind_Some_inv in H1 as (b & Hb & H1).
  assert (store_n m d [b] = Some m1) as Hs by (cbn [store_n]; by rewrite H1).
  apply IH in H as [Hb' Hw]; [|eapply byte_mem_store; [exact Hm|by constructor; [eapply Hm|constructor]|exact Hs]]. split; [done|].
  apply store_within in Hs. cbn [length] in Hs. eapply within_trans; [exact Hs|exact Hw|lia..].
Qed.

Lemma literal_length_bound fuel (m : mem) ip iend len ip' len' :
  0 <= len → literal_length fuel m ip iend len = Some (ip', len') → ip < ip' ∧ 0 <= len' < 2 ^ 32.
Proof.
  change (2 ^ 32) with 4294967296. revert ip len. induction fuel as [|fuel IH]; intros ip len Hl H; cbn [literal_length] in H; [done|].
  apply bind_Some_inv in H as (b & Hb & H). pose proof (u32_bound (len + b)) as Hu. unfold is_u32 in Hu. case_match.
  - apply IH in H as [? ?]; lia.
  - simplify_eq. lia.
Qed.

Lemma match_length_bound fuel (m : mem) ip iend len ip' l :
  byte_mem m → 0 <= len → match_length fuel m ip iend len = Some (ip', l) →
  ip <= ip' ∧ (∀ len', l = Some len' → ip' <= iend - 4 ∧ 0 <= len' <= len + 255 * (ip' - ip)).
Proof.
  intros Hm. revert ip len. induction fuel as [|fuel IH]; intros ip len Hl H; cbn [match_length] in H; [done|]. unfold LASTLITERALS in H.
  destruct (Z.ltb_spec (iend - 5) ip); [simplify_eq; split; [lia|done]|]. apply bind_Some_inv in H as (b & Hb & H).
  assert (is_u8 b) as Hb8 by (by eapply Hm). unfold is_u8 in Hb8. pose proof (u32_bound (len + b)) as Hu. unfold is_u32 in Hu.
  assert (u32 (len + b) <= len + b) as Hle by (unfold u32; apply Z.mod_le; lia). case_match.
  - apply IH in H as [? Hs]; [|lia]. split; [lia|]. intros len' E. specialize (Hs len' E). lia.
  - simplify_eq. split; [lia|]. intros len' [= <-]. lia.
Qed.

Lemma match_head_within (m : mem) op match_ m' op' match' :
  byte_mem m → match_head m op match_ = Some (m', op', match') → byte_mem m' ∧ within m m' op (op + 8) ∧ (op' = op + 4 ∨ op' = op + 8).
Proof.
  unfold match_head. intros Hm H. destruct (op <? match_); [done|]. case_match.
  - apply bind_Some_inv in H as (d64 & _ & H). apply bind_Some_inv in H as (m1 & H1 & H). apply bind_Some_inv in H as (d32 & _ & H).
    apply bind_Some_inv in H as (m2 & H2 & H). simplify_eq. apply byte_within in H1 as [Hb1 Hw1]; [|done].
    pose proof (byte_mem_copy_obj 4 _ _ _ _ Hb1 H2). apply (copy_obj_within 4) in H2. split; [done|]. split; [|by right].
    eapply within_trans; [exact Hw1|exact H2|lia..].
  - apply bind_Some_inv in H as (m2 & H2 & H). simplify_eq. pose proof (byte_mem_copy_obj 4 _ _ _ _ Hm H2). apply (copy_obj_within 4) in H2.
    split; [done|]. split; [|by left]. eapply within_mono; [exact H2|lia..].
Qed.

Lemma copy_match_within (m : mem) op match_ len oend m' ok :
  byte_mem m → 0 <= op → op + 12 <= oend → 4 <= len → op + len < 2 ^ 32 → copy_match m op match_ len oend = Some (m', ok) →
  byte_mem m' ∧ within m m' op oend ∧ (ok = true → op + len <= oend - 5).
Proof.
  change (2 ^ 32) with 4294967296. intros Hm Hop Hoe Hlen H32 H. unfold copy_match, LASTLITERALS in H. rewrite u32_small in H by (unfold is_u32; lia).
  apply bind_Some_inv in H as ([[m1 op1] match1] & H1 & H). apply match_head_within in H1 as (Hb1 & Hw1 & Hop1); [|done].
  destruct (Z.ltb_spec (oend - 12) (op + len)) as [Ht|Ht].
  - destruct (Z.ltb_spec (oend - 5) (op + len)) as [Ht5|Ht5]; [simplify_eq; split; [done|]; split; [eapply within_mono; [exact Hw1|lia..]|done]|].
    destruct (Z.ltb_spec op1 (oend - 8)) as [Ht8|Ht8].
    + apply bind_Some_inv in H as (m2 & H2 & H). apply bind_Some_inv in H as (m3 & H3 & H). simplify_eq.
      apply wild_within in H2 as [Hb2 Hw2]; [|done]. apply byte_within in H3 as [Hb3 Hw3]; [|done]. split; [done|]. split; [|lia].
      eapply within_trans; [exact Hw1|eapply within_trans; [exact Hw2|exact Hw3|..]|..]; [reflexivity|..]; try reflexivity; try lia.
    + apply bind_Some_inv in H as (m3 & H3 & H). simplify_eq. apply byte_within in H3 as [Hb3 Hw3]; [|done]. split; [done|]. split; [|lia].
      eapply within_trans; [exact Hw1|exact Hw3|lia..].
  - apply bind_Some_inv in H as (m3 & H3 & H). simplify_eq. apply wild_within in H3 as [Hb3 Hw3]; [|done]. split; [done|]. split; [|lia].
    eapply within_trans; [exact Hw1|exact Hw3|lia..].
Qed.

Lemma loop_within source iend dest oend fuel : ∀ (m : mem) ip op m' r,
  0 <= source → 0 <= dest → iend + 32 < 2 ^ 32 → oend + 255 * (iend - source) + 64 < 2 ^ 32 →
  byte_mem m → source <= ip <= iend → dest <= op <= oend → lz4_loop fuel m source iend dest oend ip op = Some (m', r) →
  byte_mem m' ∧ within m m' dest oend ∧ r <= oend - dest.
Proof.
  change (2 ^ 32) with 4294967296.
  induction fuel as [|fuel IH]; intros m ip op m' r Hs Hd Hi Ho Hm Hip Hop H; cbn [lz4_loop] in H; [done|].
  apply bind_Some_inv in H as (token & Htok & H). assert (is_u8 token) as Ht8 by (by eapply Hm). unfold is_u8 in Ht8.
  apply bind_Some_inv in H as ([ip1 len] & Hlit & H). unfold ML_BITS, RUN_MASK, MFLIMIT, LASTLITERALS in H, Hlit.
  assert (0 <= Z.shiftr token 4 <= 15) as Hnib by (rewrite Z.shiftr_div_pow2 by lia; change (2 ^ 4) with 16; zmod).
  assert (∀ (m1 : mem) p, byte_mem m1 → source <= p → within m m1 dest oend → Some (m1, - (p - source) - 1) = Some (m', r) → byte_mem m' ∧ within m m' dest oend ∧ r <= oend - dest) as Hfail.
  { intros m1 p Hb Hp Hw [= <- <-]. split; [done|]. split; [done|lia]. }
  assert (within m m dest oend) as Hmm by done.
  assert (ip < ip1 ∧ 0 <= len < 4294967296 ∧ (Z.shiftr token 4 ≠ 15 → len < 15 ∧ ip1 = ip + 1)) as (Hip1 & Hlen & Hshort).
  { destruct (Z.eqb_spec (Z.shiftr token 4) 15).
    - apply literal_length_bound in Hlit as [? ?]; [|lia]. change (2 ^ 32) with 4294967296 in *. repeat split; lia.
    - simplify_eq. repeat split; lia. }
  destruct ((Z.shiftr token 4 =? 15) && ((op ⊞ len <? op) || (ip1 ⊞ len <? ip1))) eqn:Hov; [eapply (Hfail m); [done| |exact Hmm|exact H]; lia|].
  assert (op ⊞ len = op + len ∧ (ip1 ⊞ len = ip1 + len ∨ iend < ip1)) as [Eop Eip].
  { apply andb_false_iff in Hov as [E|E]; bool_to_prop.
    - destruct (Hshort E). rewrite !u32_small by (unfold is_u32; lia). split; [done|by left].
    - unfold u32 in *. split; [zmod|]. destruct (decide (iend < ip1)); [by right|left]. zmod. }
  rewrite Eop in H. destruct (_ || _) eqn:Hlast in H.
  - destruct (_ || _) eqn:Hbad in H; [eapply (Hfail m); [done| |exact Hmm|exact H]; lia|]. bool_to_prop.
    apply bind_Some_inv in H as (m1 & H1 & H). simplify_eq. split; [by eapply byte_mem_memcpy|]. apply memcpy_within in H1; [|lia]. split; [eapply within_mono; [exact H1|lia..]|lia].
  - bool_to_prop. apply bind_Some_inv in H as (m1 & H1 & H). apply wild_within in H1 as [Hb1 Hw1]; [|done].
    assert (within m m1 dest oend) as Hw1' by (eapply within_mono; [exact Hw1|lia..]).
    apply bind_Some_inv in H as (off & _ & H). set (ip2 := ip1 ⊞ len) in *. assert (source <= ip2) as Hip2 by (unfold ip2, u32 in *; zmod).
    destruct (op + len ⊟ off <? dest); [eapply (Hfail m1); [done| |exact Hw1'|exact H]; lia|].
    apply bind_Some_inv in H as ([ip3 l] & Hml & H). unfold ML_MASK in H, Hml.
    assert (0 <= Z.land token 15 <= 15) as Hlow by (change 15 with (Z.ones 4) at 1 2; rewrite Z.land_ones by lia; change (2 ^ 4) with 16; zmod).
    assert (ip2 + 2 <= ip3 ∧ (∀ len', l = Some len' → ip3 <= iend ∧ 0 <= len' <= 15 + 255 * (ip3 - ip2 - 2))) as [Hip3 Hl'].
    { destruct (Z.land token 15 =? 15); [|simplify_eq; split; [lia|]; intros len' [= <-]; lia].
      apply match_length_bound in Hml as [? Hs']; [|done|lia]. split; [lia|]. intros len' E. specialize (Hs' len' E). lia. }
    destruct l as [len2|]; [|eapply (Hfail m1); [done| |exact Hw1'|exact H]; lia]. specialize (Hl' len2 eq_refl).
    destruct (_ && _) in H; [eapply (Hfail m1); [done| |exact Hw1'|exact H]; lia|]. unfold MINMATCH in H. rewrite (u32_small (len2 + 4)) in H by (unfold is_u32; lia).
    apply bind_Some_inv in H as ([m2 ok] & H2 & H). apply copy_match_within in H2 as (Hb2 & Hw2 & Hok); [|done|lia|lia|lia|change (2 ^ 32) with 4294967296; lia].
    assert (within m m2 dest oend) as Hw2' by (eapply within_trans; [exact Hw1'|exact Hw2|lia..]).
    destruct ok; [|eapply (Hfail m2); [done| |exact Hw2'|exact H]; lia]. specialize (Hok eq_refl). rewrite u32_small in H by (unfold is_u32; lia).
    apply IH in H as (Hb & Hw & Hr); [|done|done|lia|lia|done|lia|lia]. split; [done|]. split; [|done]. eapply within_trans; [exact Hw2'|exact Hw|lia..].
Qed.

Lemma generic_within (m : mem) source dest n size m' r :
  0 <= source → 0 <= n → 0 <= dest → 0 <= size → source + n + 32 < 2 ^ 32 → dest + size + 255 * n + 64 < 2 ^ 32 → byte_mem m →
  LZ4_decompress_generic m source dest n size = Some (m', r) → byte_mem m' ∧ within m m' dest (dest + size) ∧ r <= size.
Proof.
  change (2 ^ 32) with 4294967296. intros Hs Hn Hd Hsz H1 H2 Hm H. unfold LZ4_decompress_generic in H.
  destruct (Z.eqb_spec size 0) as [->|Hne].
  - assert (m' = m ∧ r <= 0) as [-> Hr] by (destruct (n =? 1); [apply bind_Some_inv in H as (b & _ & H)|]; simplify_eq; [case_match|]; split; (done || lia)).
    split; [done|]. split; [by intros x|lia].
  - apply loop_within in H as (Hb & Hw & Hr); try change (2 ^ 32) with 4294967296; [|done|done|lia|lia|done|lia|lia].
    split; [done|]. split; [done|lia].
Qed.

Lemma bits_bound x a n : 0 <= n → 0 <= bits x a n < 2 ^ n.
Proof. intros. unfold bits. rewrite Z.land_ones by done. apply Z.mod_pos_bound, Z.pow_pos_nonneg; lia. Qed.

Lemma blocks_within src srcn dst dstn ck : ∀ fuel (m : mem) in_ out m' out' ret,
  0 <= src → 0 <= srcn → srcn + 64 < 2 ^ 31 → src + srcn + 64 < 2 ^ 32 → 0 <= dst → dst + dstn + 255 * srcn + 64 < 2 ^ 32 → byte_mem m →
  src <= in_ <= src + srcn + 16 → dst <= out <= dst + dstn →
  ulz4_blocks fuel m src srcn (dst + dstn) ck in_ out = Some (m', out', ret) →
  within m m' dst (dst + dstn) ∧ dst <= out' <= dst + dstn.
Proof.
  change (2 ^ 32) with 4294967296. change (2 ^ 31) with 2147483648.
  induction fuel as [|fuel IH]; intros m in_ out m' out' ret Hs Hn Hn31 Hs32 Hd Hd32 Hm Hin Hout H; cbn [ulz4_blocks] in H; [done|].
  apply bind_Some_inv in H as (raw & _ & H). pose proof (bits_bound raw 0 31 ltac:(lia)) as Hsz. change (2 ^ 31) with 2147483648 in Hsz.
  set (size := bits raw 0 31) in *. rewrite u32_small in H by (unfold is_u32; lia).
  destruct (Z.ltb_spec srcn (in_ + 4 - src + size)) as [|Hfit]; [simplify_eq; split; [by intros x|lia]|].
  destruct (size =? 0); [simplify_eq; split; [by intros x|lia]|].
  assert (∀ i, src <= i → i <= src + srcn + 4 → src <= i + (if negb (ck =? 0) then 4 else 0) <= src + srcn + 16) as Hnext by (intros; destruct (negb (ck =? 0)); lia).
  destruct (negb (bits raw 31 1 =? 0)).
  - apply bind_Some_inv in H as (m1 & H1 & H). pose proof (byte_mem_memcpy _ _ _ _ _ Hm H1) as Hm1. apply memcpy_within in H1; [|lia].
    destruct (Z.min size (dst + dstn - out) <? size); [simplify_eq; split; [eapply within_mono; [exact H1|lia..]|lia]|].
    apply IH in H as [Hw Hr]; [|done|done|lia|lia|done|lia|done|apply Hnext; lia|lia]. split; [|done]. eapply within_trans; [exact H1|exact Hw|lia..].
  - apply bind_Some_inv in H as ([m1 r] & H1 & H). apply generic_within in H1 as (Hm1 & Hw1 & Hr1);
      try change (2 ^ 32) with 4294967296; [|lia|lia|lia|lia|lia|lia|done].
    destruct (Z.ltb_spec r 0); [simplify_eq; split; [eapply within_mono; [exact Hw1|lia..]|lia]|].
    apply IH in H as [Hw Hr]; [|done|done|lia|lia|done|lia|done|apply Hnext; lia|lia]. split; [|done]. eapply within_trans; [exact Hw1|exact Hw|lia..].
Qed.

(** ** Theorems *)

(** A block that keeps the rules is decoded: for every position of input and
    output that lie apart, every offset down to 1 (where a match overlaps
    itself) and every length, the code returns the number of bytes and leaves
    the decoded data; its copies of four bytes stay inside the buffer and
    within eight bytes of the data. *)
Theorem lz4_block_decodes (m : mem) source dest seqs last size room :
  let total := Z.of_nat (length (decode_block seqs last)) in
  let n := Z.of_nat (length (enc_block seqs last)) in
  block_ok seqs last → holds m source (enc_block seqs last) → 0 <= source → source + n < 2 ^ 32 →
  0 <= dest → 0 < size → dest + size < 2 ^ 32 → total <= size → total <= room → Z.min size (total + 8) <= room →
  mapped m dest room → source + n <= dest ∨ dest + room <= source →
  ∃ m', LZ4_decompress_generic m source dest n size = Some (m', total) ∧
    holds m' dest (decode_block seqs last) ∧ keeps m m' dest (dest + room).
Proof.
  intros total n Hok Hin ??????????. apply bytes_at_load in Hin.
  destruct (generic_run m source dest seqs last size room Hok Hin) as (m' & Hr & Hb & Hk); [done..|].
  exists m'. split; [done|]. split; [by apply bytes_at_load|done].
Qed.

Lemma demo_seqs_ok : block_ok [Seq [1; 2; 3] 3 7] [4; 5; 6; 7; 8].
Proof. split; [|right; simpl; lia]. cbn. lia. Qed.

(** "123" repeated to ten bytes, and five more. *)
Lemma lz4_block_decodes_witness :
  let m := mem_of 0x1000 (enc_block [Seq [1; 2; 3] 3 7] [4; 5; 6; 7; 8] ++ replicate 60 0) in
  ∃ m', LZ4_decompress_generic m 0x1000 0x1020 12 15 = Some (m', 15) ∧
    load_n 15 m' 0x1020 = Some [1; 2; 3; 1; 2; 3; 1; 2; 3; 1; 4; 5; 6; 7; 8].
Proof.
  intros m. destruct (lz4_block_decodes m 0x1000 0x1020 [Seq [1; 2; 3] 3 7] [4; 5; 6; 7; 8] 15 15 demo_seqs_ok) as (m' & Hr & Hb & _).
  - vm_compute. reflexivity.
  - lia.
  - vm_compute. reflexivity.
  - lia.
  - lia.
  - lia.
  - vm_compute. discriminate.
  - vm_compute. discriminate.
  - vm_compute. discriminate.
  - apply mappedb_spec. vm_compute. reflexivity.
  - left. vm_compute. discriminate.
  - exists m'. split; [exact Hr|exact Hb].
Defined.

(** C8: [ulz4fn] decodes every frame of the format, blocks stored and packed,
    with and without content size and checksums (which it does not verify): the
    return code is 0, [*dstn] the length of the data, the data lies at the
    destination, and nothing outside the buffer has changed, nor anything more
    than eight bytes behind the data. *)
Theorem ulz4fn_decodes (m : mem) src dst dstn room fr :
  let srcn := Z.of_nat (length (enc_frame fr)) in
  let total := Z.of_nat (length (frame_data fr)) in
  frame_ok fr → holds m src (enc_frame fr) → 0 <= src → src + srcn < 2 ^ 32 → srcn < 2 ^ 31 → 0 <= dst → dst + dstn < 2 ^ 32 →
  total <= dstn → total <= room → Z.min dstn (total + 8) <= room → mapped m dst room → src + srcn <= dst ∨ dst + room <= src →
  ∃ m', ulz4fn m dst dstn src srcn = Some (m', total, 0) ∧ holds m' dst (frame_data fr) ∧ keeps m m' dst (dst + room).
Proof.
  intros srcn total Hok Hin ??????????. apply bytes_at_load in Hin.
  destruct (frame_run m src dst dstn room fr Hok Hin) as (m' & Hr & Hb & Hk); [done..|].
  exists m'. split; [done|]. split; [by apply bytes_at_load|done].
Qed.

Definition demo_frame : frame :=
  Frame 0x60 0x40 [] 0x82 [FBlock (Packed [Seq [1; 2; 3] 3 7] [4; 5; 6; 7; 8]) [0; 0; 0; 0]; FBlock (Stored [9; 8; 7]) [0; 0; 0; 0]] [].

Lemma demo_frame_ok : frame_ok demo_frame.
Proof.
  constructor; [reflexivity|repeat split; reflexivity|reflexivity|reflexivity| |vm_compute; lia].
  constructor; [|constructor; [|constructor]]; (split; [reflexivity|]); cbn [fb_payload]; (split; [vm_compute; split; reflexivity|]); [|done].
  split; [exact demo_seqs_ok|vm_compute; lia].
Qed.

Lemma ulz4fn_decodes_witness :
  let m := mem_of 0x1000 (enc_frame demo_frame ++ replicate 200 0) in
  ∃ m', ulz4fn m 0x1080 64 0x1000 (Z.of_nat (length (enc_frame demo_frame))) = Some (m', 18, 0) ∧
    load_n 18 m' 0x1080 = Some [1; 2; 3; 1; 2; 3; 1; 2; 3; 1; 4; 5; 6; 7; 8; 9; 8; 7].
Proof.
  intros m. destruct (ulz4fn_decodes m 0x1000 0x1080 64 32 demo_frame demo_frame_ok) as (m' & Hr & Hb & _).
  - vm_compute. reflexivity.
  - lia.
  - vm_compute. reflexivity.
  - vm_compute. reflexivity.
  - lia.
  - lia.
  - vm_compute. discriminate.
  - vm_compute. discriminate.
  - vm_compute. discriminate.
  - apply mappedb_spec. vm_compute. reflexivity.
  - left. vm_compute. discriminate.
  - exists m'. split; [exact Hr|exact Hb].
Defined.

(** C17: whatever the input is, [ulz4fn] writes inside the output buffer only and
    reports a length that fits it, as long as a match length cannot reach the
    end of the address space (255 bytes of output for a byte of input). *)
Theorem ulz4fn_stays_inside (m : mem) src dst dstn srcn m' n ret :
  0 <= src → 0 <= srcn → srcn + 64 < 2 ^ 31 → src + srcn + 64 < 2 ^ 32 → 0 <= dst → 0 <= dstn → dst + dstn + 255 * srcn + 64 < 2 ^ 32 →
  byte_mem m → ulz4fn m dst dstn src srcn = Some (m', n, ret) → within m m' dst (dst + dstn) ∧ 0 <= n <= dstn.
Proof.
  intros Hs Hn Hn31 Hs32 Hd Hdn Hd32 Hm H. unfold ulz4fn, sizeof_frame_header in H.
  destruct (Z.ltb_spec srcn (6 + 8 + 1)) as [|Hlong]; [simplify_eq; split; [by intros x|lia]|].
  apply bind_Some_inv in H as (magic & _ & H). apply bind_Some_inv in H as (flags & _ & H). apply bind_Some_inv in H as (bd & _ & H).
  destruct (_ || _) in H; [simplify_eq; split; [by intros x|lia]|]. destruct (_ || _) in H; [simplify_eq; split; [by intros x|lia]|].
  destruct (bits flags 5 1 =? 0); [simplify_eq; split; [by intros x|lia]|].
  apply bind_Some_inv in H as ([[m1 out] r] & Hb & H). simplify_eq.
  apply blocks_within in Hb as [Hw Ho]; [|done..|case_match; lia|lia]. split; [done|lia].
Qed.

(** A frame that is damaged in its first block. *)
Lemma ulz4fn_stays_inside_witness :
  let m := mem_of 0x1000 (le_bytes 4 LZ4F_MAGIC ++ [0x60; 0x40; 0x82] ++ le_bytes 4 6 ++ [0x10; 7; 9; 0; 0; 0] ++ replicate 100 0) in
  ∃ m' n ret, ulz4fn m 0x1040 32 0x1000 17 = Some (m', n, ret) ∧ ret = - EPROTO ∧ within m m' 0x1040 (0x1040 + 32) ∧ 0 <= n <= 32.
Proof.
  intros m. destruct (ulz4fn m 0x1040 32 0x1000 17) as [[[m' n] ret]|] eqn:E; [|exfalso; vm_compute in E; discriminate].
  exists m', n, ret. split; [reflexivity|]. split.
  - assert (snd <$> ulz4fn m 0x1040 32 0x1000 17 = Some (- EPROTO)) as Hr by (vm_compute; reflexivity).
    rewrite E in Hr. injection Hr as Hr. exact Hr.
  - apply (ulz4fn_stays_inside m 0x1000 0x1040 32 17 m' n ret); [lia|lia|lia|lia|lia|lia|lia| |exact E].
    apply byte_mem_write; [apply map_Forall_empty|]. apply (bool_decide_unpack _). vm_compute. exact I.
Defined.
