(* ===== verification/Lz4Part.v ===== *)
(** * Decompression while the input arrives (spl/common/lz4/lz4.c and lz4_wrapper.c)

    [lz4_part_decompress] decodes an LZ4 frame in calls, each of which announces
    how many more bytes of the frame are in memory.  Its context is a state
    machine over the frame ([LZ4_PART_INIT], [LZ4_PART_BLOCK],
    [LZ4_PART_BLOCK_CPY], [LZ4_PART_DECOMP], [LZ4_PART_FINISH]) and holds the
    one of [LZ4_part_decompress_seq], which decodes a block and suspends before
    a token or between the literals and the match of a sequence.  As in [Lz4]
    the model is the instance the wrapper uses. *)

From S2P Require Import Prelude Mem Checksum Heap Gpt Env BootImage Lz4.

Local Open Scope Z_scope.
Local Open Scope c_scope.

(** ** lz4.c: a block *)

(** States of both machines. *)
Inductive part_state := LZ4_PART_INIT | LZ4_PART_BLOCK | LZ4_PART_BLOCK_CPY | LZ4_PART_DECOMP | LZ4_PART_FINISH
  | LZ4_PART_PARSE_TOKEN | LZ4_PART_PARSE_MATCH.

(** [struct LZ4_part_decompress_ctrl], without what is fixed in this instance. *)
Record part_ctrl := Ctrl {
  pc_source : Z; pc_dest : Z; pc_inputSize : Z; pc_outputSize : Z;
  pc_state : part_state; pc_token : Z; pc_ip : Z; pc_op : Z; pc_in_pos : Z
}.

Definition pc_iend (h : part_ctrl) : Z := pc_source h + pc_inputSize h.
Definition pc_oend (h : part_ctrl) : Z := pc_dest h + pc_outputSize h.

(** The fields set when the function returns. *)
Definition suspend (h : part_ctrl) (st : part_state) (token ip op : Z) : part_ctrl :=
  Ctrl (pc_source h) (pc_dest h) (pc_inputSize h) (pc_outputSize h) st token ip op (pc_in_pos h).
Definition set_ip (h : part_ctrl) (ip : Z) : part_ctrl := suspend h (pc_state h) (pc_token h) ip (pc_op h).
Definition set_in_pos (h : part_ctrl) (in_pos : Z) : part_ctrl :=
  Ctrl (pc_source h) (pc_dest h) (pc_inputSize h) (pc_outputSize h) (pc_state h) (pc_token h) (pc_ip h) (pc_op h) in_pos.

Definition LZ4_part_decompress_init (h : part_ctrl) (source dest inputSize outputSize : Z) : part_ctrl * Z :=
  if outputSize =? 0 then (h, - EINVAL)
  else (Ctrl source dest inputSize outputSize LZ4_PART_PARSE_TOKEN 0 source dest 0, 0).

Definition LZ4_part_decompress_get_processed_cnt (h : part_ctrl) : Z := pc_ip h ⊟ pc_source h.

(** A step returns from the function or goes on with [ip], [op] and [token]. *)
Inductive part_step := Return (ret : Z) | Go (token ip op : Z).

(** "_output_error" *)
Definition output_error (m : mem) (h : part_ctrl) (ip : Z) : option (mem * part_ctrl * part_step) :=
  Some (m, h, Return (- (ip - pc_source h) - 1)).

(** From the head of the loop to "parse_match". *)
Definition parse_token (m : mem) (h : part_ctrl) (ip op ip_end : Z) : option (mem * part_ctrl * part_step) :=
  if ip_end <? ip ⊞ MFLIMIT then Some (m, suspend h LZ4_PART_PARSE_TOKEN (pc_token h) ip op, Return 0)
  else
    let orig_ip := ip in
    token ← m !! ip;
    let ip := ip + 1 in
    let length := Z.shiftr token ML_BITS in
    '(ip, length) ← (if length =? RUN_MASK then literal_length (S (Z.to_nat (pc_iend h - ip))) m ip (pc_iend h) length
                     else Some (ip, length));
    if (Z.shiftr token ML_BITS =? RUN_MASK) && ((op ⊞ length <? op) || (ip ⊞ length <? ip)) then output_error m h ip
    else if ip_end <=? ip ⊞ length then Some (m, suspend h LZ4_PART_PARSE_TOKEN (pc_token h) orig_ip op, Return 0)
    else
      let cpy := op ⊞ length in
      if (pc_oend h - MFLIMIT <? cpy) || (pc_iend h - (2 + 1 + LASTLITERALS) <? ip ⊞ length) then
        if negb (ip ⊞ length =? pc_iend h) || (pc_oend h <? cpy) then output_error m h ip
        else
          m ← memcpy m op ip length;
          Some (m, suspend h LZ4_PART_FINISH (pc_token h) (ip + length) (op + length), Return (op + length - pc_dest h))
      else
        m ← LZ4_wildCopy m op ip cpy;
        Some (m, h, Go token (ip ⊞ length) cpy).

(** From "parse_match" to the next turn. *)
Definition parse_match (m : mem) (h : part_ctrl) (token ip op ip_end : Z) : option (mem * part_ctrl * part_step) :=
  let orig_ip := ip in
  if ip_end <=? ip ⊞ 2 then Some (m, suspend h LZ4_PART_PARSE_MATCH token ip op, Return 0)
  else
    off ← LZ4_readLE16 m ip;
    let match_ := op ⊟ off in
    let ip := ip + 2 in
    if match_ <? pc_dest h then output_error m h ip
    else
      let length := Z.land token ML_MASK in
      '(ip, l) ← (if length =? ML_MASK then match_length (S (S (Z.to_nat (pc_iend h - ip)))) m ip (pc_iend h) length
                  else Some (ip, Some length));
      match l with
      | None => output_error m h ip
      | Some length =>
          if (Z.land token ML_MASK =? ML_MASK) && (op ⊞ length <? op) then output_error m h ip
          else if (Z.land token ML_MASK =? ML_MASK) && (ip_end <=? ip) then
            Some (m, suspend h LZ4_PART_PARSE_MATCH token orig_ip op, Return 0)
          else
            let length := length ⊞ MINMATCH in
            let h := set_ip h ip in
            '(m, ok) ← copy_match m op match_ length (pc_oend h);
            if (ok : bool) then Some (m, h, Go token ip (op ⊞ length)) else output_error m h ip
      end.

(** The loop. *)
Fixpoint part_seq_loop (fuel : nat) (m : mem) (h : part_ctrl) (ip op ip_end : Z) : option (mem * part_ctrl * Z) :=
  match fuel with
  | O => None
  | S f =>
      '(m, h, s) ← parse_token m h ip op ip_end;
      match s with
      | Return r => Some (m, h, r)
      | Go token ip op =>
          '(m, h, s) ← parse_match m h token ip op ip_end;
          match s with
          | Return r => Some (m, h, r)
          | Go _ ip op => part_seq_loop f m h ip op ip_end
          end
      end
  end.

Definition LZ4_part_decompress_seq (m : mem) (h : part_ctrl) (size : Z) : option (mem * part_ctrl * Z) :=
  match pc_state h with
  | LZ4_PART_FINISH => Some (m, h, 0)
  | st =>
      let h := set_in_pos h (pc_in_pos h ⊞ size) in
      let ip_end := pc_source h ⊞ pc_in_pos h in
      let fuel := S (Z.to_nat (pc_inputSize h)) in
      match st with
      | LZ4_PART_PARSE_MATCH =>
          '(m, h, s) ← parse_match m h (pc_token h) (pc_ip h) (pc_op h) ip_end;
          match s with
          | Return r => Some (m, h, r)
          | Go _ ip op => part_seq_loop fuel m h ip op ip_end
          end
      | _ => part_seq_loop fuel m h (pc_ip h) (pc_op h) ip_end
      end
  end.

(** ** lz4_wrapper.c: a frame *)

(** [lz4_part_dec_context_t]; [pd_decompressed] is what [decompressed_size]
    points to. *)
Record part_ctx := PartCtx {
  pd_state : part_state; pd_ck : Z; pd_src : Z; pd_total : Z; pd_input : Z; pd_dst : Z; pd_room : Z; pd_decompressed : Z;
  pd_in : Z; pd_out : Z; pd_block : Z; pd_ctrl : part_ctrl
}.

Definition no_ctrl : part_ctrl := Ctrl 0 0 0 0 LZ4_PART_PARSE_TOKEN 0 0 0 0.

Definition lz4_part_dec_init (src srcn dst dstn : Z) : part_ctx :=
  PartCtx LZ4_PART_INIT 0 src srcn 0 dst dstn dstn src dst 0 no_ctrl.

Definition with_input (c : part_ctx) (n : Z) : part_ctx :=
  PartCtx (pd_state c) (pd_ck c) (pd_src c) (pd_total c) n (pd_dst c) (pd_room c) (pd_decompressed c) (pd_in c) (pd_out c) (pd_block c) (pd_ctrl c).
Definition with_ctrl (c : part_ctx) (h : part_ctrl) : part_ctx :=
  PartCtx (pd_state c) (pd_ck c) (pd_src c) (pd_total c) (pd_input c) (pd_dst c) (pd_room c) (pd_decompressed c) (pd_in c) (pd_out c) (pd_block c) h.
(** State, position in the input and in the output, bytes left of a stored block. *)
Definition at_state (c : part_ctx) (st : part_state) (in_ out block : Z) : part_ctx :=
  PartCtx st (pd_ck c) (pd_src c) (pd_total c) (pd_input c) (pd_dst c) (pd_room c) (pd_decompressed c) in_ out block (pd_ctrl c).

Definition LZ4_RET_INVALID_FRAME_SIZE : Z := -1000.
Definition LZ4_RET_INVALID_MAGIC : Z := -999.
Definition LZ4_RET_INVALID_VERSION : Z := -998.
Definition LZ4_RET_RESERVED_FIELD_NOT_ZERO : Z := -997.
Definition LZ4_RET_UNSUPPORTED_BLOCK_FORMAT : Z := -996.
Definition LZ4_RET_INCORRECT_BLOCK_SIZE_OR_FRAME_SIZE : Z := -995.
Definition LZ4_RET_OUT_BUF_SIZE_NOT_ENOUGH : Z := -994.
Definition LZ4_RET_BLK_PART_DEC_INIT_FAILED : Z := -993.
Definition LZ4_RET_BLK_PART_DEC_FAILED : Z := -992.
Definition LZ4_RET_INVALID_CONTEXT_STATE : Z := -991.

(** A turn of the machine: [inl] goes on ("again") with the new [size], [inr]
    returns. *)
Definition part_turn : Type := mem * part_ctx * (Z + Z).
Definition again (m : mem) (c : part_ctx) (size : Z) : option part_turn := Some (m, c, inl size).
Definition ret (m : mem) (c : part_ctx) (r : Z) : option part_turn := Some (m, c, inr r).

Definition turn_init (m : mem) (c : part_ctx) (size : Z) : option part_turn :=
  let h := pd_in c in
  if pd_total c <? sizeof_frame_header + 8 + 1 then ret m c LZ4_RET_INVALID_FRAME_SIZE
  else
    magic ← rd32 m h;
    flags ← m !! (h + 4);
    bd ← m !! (h + 5);
    if negb (magic =? LZ4F_MAGIC) then ret m c LZ4_RET_INVALID_MAGIC
    else if negb (bits flags 6 2 =? 1) then ret m c LZ4_RET_INVALID_VERSION
    else if negb (bits flags 0 2 =? 0) || negb (bits bd 0 4 =? 0) || negb (bits bd 7 1 =? 0) then ret m c LZ4_RET_RESERVED_FIELD_NOT_ZERO
    else if bits flags 5 1 =? 0 then ret m c LZ4_RET_UNSUPPORTED_BLOCK_FORMAT
    else
      let n := sizeof_frame_header + (if negb (bits flags 3 1 =? 0) then 8 else 0) + 1 in
      again m (PartCtx LZ4_PART_BLOCK (bits flags 4 1) (pd_src c) (pd_total c) (pd_input c) (pd_dst c) (pd_room c) (pd_decompressed c)
                 (h + n) (pd_out c) (pd_block c) (pd_ctrl c)) (size ⊟ n).

Definition turn_block (m : mem) (c : part_ctx) (size : Z) : option part_turn :=
  if pd_src c ⊞ pd_input c <? pd_in c ⊞ 4 then ret m c 0
  else
    raw ← rd32 m (pd_in c);
    let b_size := bits raw 0 31 in
    let in_ := pd_in c + 4 in
    let size := size ⊟ 4 in
    let c := at_state c LZ4_PART_BLOCK in_ (pd_out c) (pd_block c) in
    if pd_total c <? u32 (in_ - pd_src c + b_size) then ret m c LZ4_RET_INCORRECT_BLOCK_SIZE_OR_FRAME_SIZE
    else if b_size =? 0 then
      ret m (PartCtx LZ4_PART_FINISH (pd_ck c) (pd_src c) (pd_total c) (pd_input c) (pd_dst c) (pd_room c) (pd_out c ⊟ pd_dst c)
               in_ (pd_out c) (pd_block c) (pd_ctrl c)) 0
    else
      let left := pd_dst c + pd_room c - pd_out c in
      if negb (bits raw 31 1 =? 0) then
        if u32 (Z.min b_size left) <? b_size then ret m (at_state c LZ4_PART_BLOCK in_ (pd_out c) b_size) LZ4_RET_OUT_BUF_SIZE_NOT_ENOUGH
        else again m (at_state c LZ4_PART_BLOCK_CPY in_ (pd_out c) b_size) size
      else
        let c := at_state c LZ4_PART_DECOMP in_ (pd_out c) b_size in
        let '(h, r) := LZ4_part_decompress_init (pd_ctrl c) in_ (pd_out c) b_size left in
        let c := with_ctrl c h in
        if r <? 0 then ret m c LZ4_RET_BLK_PART_DEC_INIT_FAILED else again m c size.

(** The checksum behind a block is skipped. *)
Definition skip_ck (c : part_ctx) (in_ : Z) : Z := if negb (pd_ck c =? 0) then in_ + 4 else in_.

Definition turn_decomp (m : mem) (c : part_ctx) (size : Z) : option part_turn :=
  '(m, h, r) ← LZ4_part_decompress_seq m (pd_ctrl c) size;
  let c := with_ctrl c h in
  if 0 <? r then
    let in_ := skip_ck c (pd_in c + LZ4_part_decompress_get_processed_cnt h) in
    again m (at_state c LZ4_PART_BLOCK in_ (pd_out c + r) 0) (pd_input c ⊟ (in_ ⊟ pd_src c))
  else if r =? 0 then ret m c 0
  else ret m c LZ4_RET_BLK_PART_DEC_FAILED.

Definition turn_cpy (m : mem) (c : part_ctx) (size : Z) : option part_turn :=
  let n := Z.min (pd_block c) (pd_input c ⊟ (pd_in c ⊟ pd_src c)) in
  m ← memcpy m (pd_out c) (pd_in c) n;
  let c := at_state c LZ4_PART_BLOCK_CPY (pd_in c + n) (pd_out c + n) (pd_block c - n) in
  if pd_block c =? 0 then
    let in_ := skip_ck c (pd_in c) in
    again m (at_state c LZ4_PART_BLOCK in_ (pd_out c) 0) (pd_input c ⊟ (in_ ⊟ pd_src c))
  else again m c size.

Definition part_again_step (m : mem) (c : part_ctx) (size : Z) : option part_turn :=
  match pd_state c with
  | LZ4_PART_FINISH => ret m c 0
  | st =>
      if pd_in c =? pd_src c ⊞ pd_input c then ret m c 0
      else
        match st with
        | LZ4_PART_INIT => turn_init m c size
        | LZ4_PART_BLOCK => turn_block m c size
        | LZ4_PART_DECOMP => turn_decomp m c size
        | LZ4_PART_BLOCK_CPY => turn_cpy m c size
        | _ => ret m c LZ4_RET_INVALID_CONTEXT_STATE
        end
  end.

Fixpoint part_again (fuel : nat) (m : mem) (c : part_ctx) (size : Z) : option (mem * part_ctx * Z) :=
  match fuel with
  | O => None
  | S f =>
      '(m, c, t) ← part_again_step m c size;
      match t with
      | inl size => part_again f m c size
      | inr r => Some (m, c, r)
      end
  end.

(** A frame of [total] bytes has at most [total / 5] blocks, with two turns for
    each. *)
Definition lz4_part_decompress (m : mem) (c : part_ctx) (size : Z) : option (mem * part_ctx * Z) :=
  part_again (S (S (S (Z.to_nat (pd_total c))))) m (with_input c (pd_input c ⊞ size)) size.

Definition lz4_part_dec_get_decompressed_size (c : part_ctx) : Z := pd_out c ⊟ pd_dst c.
Definition is_lz4_part_dec_finish (c : part_ctx) : bool := match pd_state c with LZ4_PART_FINISH => true | _ => false end.

(** The input in pieces: each is written behind the last one, then announced. *)
Fixpoint feed (m : mem) (c : part_ctx) (pieces : list bytes) : option (mem * part_ctx * Z) :=
  match pieces with
  | [] => Some (m, c, 0)
  | p :: ps =>
      '(m, c, r) ← lz4_part_decompress (write_bytes m (pd_src c + pd_input c) p) c (Z.of_nat (length p));
      if r <? 0 then Some (m, c, r) else feed m c ps
  end.

(** ** Input that has arrived in part *)

(** The bytes [bs] are at [a] as far as [lim]; behind it every byte is either
    not 255 or already right.  The length of a match is read to its end before
    the code looks how far the input reaches, and a run of 255 that the frame
    does not have would be taken for a length that leaves the block. *)
Fixpoint arrived (m : mem) (a : Z) (bs : bytes) (lim : Z) : Prop :=
  match bs with
  | [] => True
  | b :: bs' => (∃ b', m !! a = Some b' ∧ is_u8 b' ∧ (b' = b ∨ lim <= a ∧ b' ≠ 255)) ∧ arrived m (a + 1) bs' lim
  end.

Lemma arrived_app m a l1 l2 lim : arrived m a (l1 ++ l2) lim ↔ arrived m a l1 lim ∧ arrived m (a + Z.of_nat (length l1)) l2 lim.
Proof.
  revert a. induction l1 as [|b l1 IH]; intros a; cbn [app arrived length].
  - rewrite Z.add_0_r. tauto.
  - rewrite IH. replace (a + 1 + Z.of_nat (length l1)) with (a + Z.of_nat (S (length l1))) by lia. tauto.
Qed.

Lemma arrived_bytes m a l lim : arrived m a l lim → a + Z.of_nat (length l) <= lim → bytes_at m a l.
Proof.
  revert a. induction l as [|b l IH]; intros a Hm Hl; [done|]. cbn [length] in Hl. destruct Hm as [(b' & Hb & _ & [->|[? _]]) Hm]; [|lia].
  split; [done|]. apply IH; [done|lia].
Qed.

Lemma arrived_mono m a l lim lim' : arrived m a l lim → lim' <= lim → arrived m a l lim'.
Proof.
  revert a. induction l as [|b l IH]; intros a Hm Hl; [done|]. destruct Hm as [(b' & Hb & H8 & Hr) Hm].
  split; [|auto]. exists b'. split; [done|]. split; [done|]. destruct Hr as [->|[? ?]]; [by left|right; split; [lia|done]].
Qed.

Lemma arrived_keeps m m' lo hi a l lim :
  keeps m m' lo hi → arrived m a l lim → a + Z.of_nat (length l) <= lo ∨ hi <= a → arrived m' a l lim.
Proof.
  intros [Hk _]. revert a. induction l as [|b l IH]; intros a Hm Hd; [done|]. cbn [length] in Hd. destruct Hm as [(b' & Hb & H8 & Hr) Hm].
  split; [|apply IH; [done|lia]]. exists b'. rewrite Hk by lia. done.
Qed.

Lemma arrived_lookup m a l lim x : arrived m a l lim → a <= x < a + Z.of_nat (length l) → ∃ b, m !! x = Some b ∧ is_u8 b.
Proof.
  revert a. induction l as [|b l IH]; intros a Hm Hx; cbn [length] in Hx; [lia|]. destruct Hm as [(b' & Hb & H8 & _) Hm].
  destruct (decide (x = a)) as [->|]; [by exists b'|]. apply (IH (a + 1)); [done|lia].
Qed.

Lemma arrived_right m a l lim i b : arrived m a l lim → l !! i = Some b → a + Z.of_nat i < lim → m !! (a + Z.of_nat i) = Some b.
Proof.
  revert a i. induction l as [|c l IH]; intros a i Hm Hi Hl; [done|]. destruct Hm as [(b' & Hb & _ & Hr) Hm]. destruct i as [|i].
  - injection Hi as ->. rewrite Z.add_0_r in *. destruct Hr as [->|[? _]]; [done|lia].
  - replace (a + Z.of_nat (S i)) with (a + 1 + Z.of_nat i) in * by lia. by apply IH.
Qed.

Lemma arrived_mapped m a l lim : arrived m a l lim → mapped m a (Z.of_nat (length l)).
Proof. intros Hm x Hx. destruct (arrived_lookup m a l lim x Hm Hx) as (b & -> & _). by eexists. Qed.

Lemma bytes_at_arrived m a l lim : bytes_at m a l → is_byte_list l → arrived m a l lim.
Proof.
  revert a. induction l as [|b l IH]; intros a Hm Hl; [done|]. destruct Hm as [Hb Hm]. inversion_clear Hl.
  split; [|by apply IH]. exists b. split; [done|]. split; [done|by left].
Qed.

(** A piece that arrives. *)
Lemma arrived_known m a l lim lim' : arrived m a l lim → a + Z.of_nat (length l) <= lim → arrived m a l lim'.
Proof.
  revert a. induction l as [|b l IH]; intros a Hm Hl; [done|]. cbn [length] in Hl. destruct Hm as [(b' & Hb & H8 & Hr) Hm].
  split; [|apply IH; [done|lia]]. exists b'. split; [done|]. split; [done|]. destruct Hr as [->|[? _]]; [by left|lia].
Qed.

Lemma arrived_late m a l lim lim' : arrived m a l lim → lim' <= a → arrived m a l lim'.
Proof.
  revert a. induction l as [|b l IH]; intros a Hm Hl; [done|]. destruct Hm as [(b' & Hb & H8 & Hr) Hm].
  split; [|apply IH; [done|lia]]. exists b'. split; [done|]. split; [done|]. destruct Hr as [->|[? ?]]; [by left|by right].
Qed.

Lemma keeps_write m a bs : keeps m (write_bytes m a bs) a (a + Z.of_nat (length bs)).
Proof. split; [intros x Hx; apply lookup_write_out; lia|intros; by apply mapped_write]. Qed.

Lemma arrived_write m a l1 p l2 :
  let e := a + Z.of_nat (length l1) in
  arrived m a (l1 ++ p ++ l2) e → is_byte_list p → arrived (write_bytes m e p) a (l1 ++ p ++ l2) (e + Z.of_nat (length p)).
Proof.
  intros e Ha Hp. pose proof (keeps_write m e p) as Hk. apply arrived_app in Ha as [H1 Ha]. fold e in Ha. apply arrived_app in Ha as [_ H2].
  apply arrived_app. split; [|fold e; apply arrived_app; split].
  - eapply arrived_keeps; [exact Hk|eapply arrived_known; [exact H1|lia]|lia].
  - apply bytes_at_arrived; [apply bytes_at_load, load_write_eq|done].
  - eapply arrived_keeps; [exact Hk|eapply arrived_late; [exact H2|lia]|lia].
Qed.

(** A literal length that has not arrived completely is read beyond [lim]. *)
Lemma literal_starved fuel (m : mem) ip iend len lim :
  (∀ x, ip <= x < iend → ∃ b, m !! x = Some b ∧ is_u8 b ∧ (x < lim → b = 255)) → ip < iend → lim < iend - 15 →
  (Z.to_nat (iend - ip) < fuel)%nat → 0 <= len → len + 255 * (iend - ip) < 2 ^ 32 →
  ∃ ip' len', literal_length fuel m ip iend len = Some (ip', len') ∧ lim < ip' <= iend ∧ ip <= ip' ∧ 0 <= len' <= len + 255 * (ip' - ip).
Proof.
  change (2 ^ 32) with 4294967296. revert ip len. induction fuel as [|fuel IH]; intros ip len Hm Hip Hlim Hf Hl Hs; [lia|].
  cbn [literal_length]. destruct (Hm ip ltac:(lia)) as (b & Hb & H8 & H255). rewrite Hb. sbind. unfold is_u8 in H8.
  rewrite u32_small by (unfold is_u32; lia). unfold RUN_MASK.
  destruct (Z.ltb_spec (ip + 1) (iend - 15)) as [Hg|Hg]; [destruct (Z.eqb_spec b 255) as [->|Hne]|]; cbn [andb].
  - destruct (IH (ip + 1) (len + 255)) as (ip' & len' & -> & ? & ? & ?); [intros; apply Hm; lia|lia..|]. exists ip', len'. split; [done|]. lia.
  - exists (ip + 1), (len + b). split; [done|]. destruct (Z_lt_le_dec ip lim); [tauto|lia].
  - exists (ip + 1), (len + b). split; [done|]. lia.
Qed.

(** A match length is read as it is, or beyond [lim]. *)
Lemma match_partial q fuel (m : mem) ip iend len b lim :
  arrived m ip (replicate q 255 ++ [b]) lim → 0 <= b < 255 → (q < fuel)%nat → ip + Z.of_nat q <= iend - 5 →
  0 <= len → len + 255 * (Z.of_nat q + 1) < 2 ^ 32 →
  ∃ ip' len', match_length fuel m ip iend len = Some (ip', Some len') ∧ 0 <= len' <= len + 255 * (Z.of_nat q + 1) ∧ ip < ip' <= ip + Z.of_nat q + 1 ∧
    (ip' = ip + Z.of_nat q + 1 ∧ len' = len + 255 * Z.of_nat q + b ∨ lim < ip').
Proof.
  change (2 ^ 32) with 4294967296. revert fuel ip len. induction q as [|q IH]; intros [|fuel] ip len Hm Hb Hf Hend Hl Hs; [lia..| |lia|];
    destruct Hm as [(b' & Hc & H8 & Hr) Hm]; unfold is_u8 in H8; cbn [match_length]; unfold LASTLITERALS;
    rewrite (proj2 (Z.ltb_ge (iend - 5) ip)) by lia; rewrite Hc; sbind; rewrite u32_small by (unfold is_u32; lia).
  - destruct (Z.eqb_spec b' 255); [lia|]. exists (ip + 1), (len + b'). split; [done|]. lia.
  - destruct (Z.eqb_spec b' 255) as [->|Hne].
    + destruct (IH fuel (ip + 1) (len + 255)) as (ip' & len' & -> & ? & ? & ?); [done|done|lia..|]. exists ip', len'. split; [done|]. lia.
    + exists (ip + 1), (len + b'). split; [done|]. lia.
Qed.

(** ** A block in pieces *)

(** Where the decoding of a block stands: before a token, or between the
    literals and the match of a sequence, with the output so far. *)
Inductive view := VToken (out : bytes) (seqs : list sequence) | VMatch (out : bytes) (off : Z) (n : nat) (seqs : list sequence).

Definition view_out (v : view) : bytes := match v with VToken out _ | VMatch out _ _ _ => out end.

Lemma foldl_grows seqs out : (length out <= length (foldl decode_seq out seqs))%nat.
Proof.
  revert out. induction seqs as [|s seqs IH]; intros out; cbn [foldl]; [lia|]. specialize (IH (decode_seq out s)).
  rewrite length_decode_seq in IH. lia.
Qed.

Section block.
Context (source dest n size lim : Z) (blk last data : bytes).
Let iend := source + n.
Let oend := dest + size.
Let total := Z.of_nat (length data).
Context (Hsource : 0 <= source) (Hdest : 0 <= dest) (Hn : iend + 256 * n + 16 < 2 ^ 32) (Hsize : oend + 256 * n + 16 < 2 ^ 32).
Context (Hap : iend <= dest ∨ lim <= source) (Hroom1 : dest + total <= oend) (Hroom2 : dest + total <= lim)
  (Hroom3 : Z.min oend (dest + total + 8) <= lim).

(** The input that is left, the output it completes, and the rules it keeps. *)
Definition view_rest (v : view) : bytes :=
  match v with
  | VToken _ seqs => enc_block seqs last
  | VMatch _ off k seqs => le_bytes 2 off ++ ext (Z.of_nat k - 4) ++ enc_block seqs last
  end.
Definition view_ok (v : view) : Prop :=
  match v with
  | VToken out seqs => foldl decode_seq out seqs ++ last = data ∧ seqs_ok (Z.of_nat (length out)) total seqs ∧ (seqs = [] ∨ (5 <= length last)%nat)
  | VMatch out off k seqs =>
      foldl decode_seq (append_match k out off) seqs ++ last = data ∧ seqs_ok (Z.of_nat (length out) + Z.of_nat k) total seqs ∧
      1 <= off <= 65535 ∧ off <= Z.of_nat (length out) ∧ (4 <= k)%nat ∧ Z.of_nat (length out) + 12 <= total ∧ (5 <= length last)%nat
  end.

Record at_view (m : mem) (ip op : Z) (v : view) : Prop := {
  av_ip : source <= ip;
  av_rest : ip + Z.of_nat (length (view_rest v)) = iend;
  av_op : op = dest + Z.of_nat (length (view_out v));
  av_out : bytes_at m dest (view_out v);
  av_ok : view_ok v;
  av_part : ∃ x, blk = x ++ view_rest v;
  av_map : mapped m dest (lim - dest)
}.

Record ctrl_at (h : part_ctrl) (in_pos : Z) : Prop := {
  ca_source : pc_source h = source; ca_dest : pc_dest h = dest; ca_n : pc_inputSize h = n; ca_size : pc_outputSize h = size;
  ca_pos : pc_in_pos h = in_pos
}.

Lemma ctrl_suspend h p st token ip op : ctrl_at h p → ctrl_at (suspend h st token ip op) p.
Proof. by intros []. Qed.

Lemma ctrl_ends h p : ctrl_at h p → pc_iend h = iend ∧ pc_oend h = oend.
Proof. intros [E1 E2 E3 E4 _]. unfold pc_iend, pc_oend. by rewrite E1, E2, E3, E4. Qed.

(** A context that a call leaves for the next one. *)
Definition paused (m : mem) (h : part_ctrl) (v : view) : Prop :=
  at_view m (pc_ip h) (pc_op h) v ∧
  match v with
  | VToken _ _ => pc_state h = LZ4_PART_PARSE_TOKEN
  | VMatch _ _ k _ => pc_state h = LZ4_PART_PARSE_MATCH ∧ Z.land (pc_token h) ML_MASK = nibble (Z.of_nat k - 4)
  end.

Definition completed (m : mem) (h : part_ctrl) : Prop :=
  bytes_at m dest data ∧ mapped m dest (lim - dest) ∧ pc_state h = LZ4_PART_FINISH ∧ pc_ip h = iend.

Lemma enc_block_cons s seqs : enc_block (s :: seqs) last = enc_seq s ++ enc_block seqs last.
Proof. unfold enc_block. rewrite fmap_cons. cbn [concat]. by rewrite app_assoc. Qed.

Lemma enc_block_long seqs : (1 + length last <= length (enc_block seqs last))%nat.
Proof. unfold enc_block, enc_lits. rewrite length_app. cbn [length]. rewrite length_app. lia. Qed.

Lemma length_ext v : 0 <= v → 0 <= Z.of_nat (length (ext v)) ∧ v <= 15 + 255 * Z.of_nat (length (ext v)).
Proof.
  intros Hv. unfold ext. destruct (Z.ltb_spec v 15); [cbn [length]; lia|]. rewrite length_app, length_replicate. cbn [length]. zmod.
Qed.

(** The length of the literals at a token: either it has arrived, or the length
    that is read ends behind [L]. *)
Lemma token_head (m : mem) ip k low rest L :
  arrived m ip ((16 * nibble k + low) :: ext k ++ rest) L → 0 <= k → 0 <= low < 16 → source <= ip → ip < L →
  ip + 1 + Z.of_nat (length (ext k ++ rest)) = iend → k <= Z.of_nat (length rest) →
  ∃ token ip1 len, m !! ip = Some token ∧ Z.land token ML_MASK = low ∧
    (if Z.shiftr token ML_BITS =? RUN_MASK then literal_length (S (Z.to_nat (iend - (ip + 1)))) m (ip + 1) iend (Z.shiftr token ML_BITS)
     else Some (ip + 1, Z.shiftr token ML_BITS)) = Some (ip1, len) ∧ ip < ip1 <= iend ∧ 0 <= len <= 15 + 255 * (ip1 - ip) ∧
    (ip1 = ip + 1 + Z.of_nat (length (ext k)) ∧ len = k ∨ L < ip1).
Proof.
  change (2 ^ 32) with 4294967296 in *. intros Hm Hk Hlow Hs HL Hend Hr. rewrite length_app in Hend. rewrite app_comm_cons in Hm.
  apply arrived_app in Hm as [Hm Hrest]. destruct (Z_le_gt_dec (ip + 1 + Z.of_nat (length (ext k))) L) as [Hin|Hout].
  - destruct (literal_head_run m ip iend k low) as (token & Ht & Hlo & Hp);
      [eapply arrived_bytes; [exact Hm|cbn [length]; lia]|done|done|lia|lia|change (2 ^ 32) with 4294967296; lia|].
    pose proof (length_ext k Hk). exists token, (ip + 1 + Z.of_nat (length (ext k))), k. do 3 (split; [done|]). split; [lia|]. split; [lia|by left].
  - destruct Hm as [(token & Ht & _ & [->|[? _]]) He]; [|lia].
    assert (15 <= k) as Hk15 by (unfold ext in Hout; destruct (Z.ltb_spec k 15); [cbn [length] in Hout; lia|lia]).
    destruct (token_parts (nibble k) low Hlow) as [E1 E2].
    assert (∀ x, ip + 1 <= x < iend → ∃ b, m !! x = Some b ∧ is_u8 b) as Hall.
    { intros x Hx. destruct (decide (x < ip + 1 + Z.of_nat (length (ext k)))) as [Hx1|Hx1].
      - apply (arrived_lookup m (ip + 1) (ext k) L); [done|lia].
      - eapply arrived_lookup; [exact Hrest|]. cbn [length]. lia. }
    destruct (literal_starved (S (Z.to_nat (iend - (ip + 1)))) m (ip + 1) iend 15 L) as (ip1 & len & Hr1 & ? & ? & ?).
    + intros x Hx. destruct (Hall x Hx) as (b & Hb & H8). exists b. split; [done|]. split; [done|]. intros HxL.
      assert (ext k !! Z.to_nat (x - (ip + 1)) = Some 255) as Hi.
      { unfold ext in *. rewrite (proj2 (Z.ltb_ge k 15)) in * by lia. rewrite length_app, length_replicate in *. cbn [length] in *.
        rewrite lookup_app_l by (rewrite length_replicate; lia). apply lookup_replicate. lia. }
      apply (arrived_right _ _ _ L _ _ He) in Hi; [|lia]. replace (ip + 1 + Z.of_nat (Z.to_nat (x - (ip + 1)))) with x in Hi by lia. congruence.
    + pose proof (length_ext k Hk). lia.
    + unfold ext in *. rewrite (proj2 (Z.ltb_ge k 15)) in * by lia. rewrite length_app, length_replicate in *. cbn [length] in *. zmod.
    + lia.
    + lia.
    + change (2 ^ 32) with 4294967296. lia.
    + eexists _, ip1, len. split; [exact Ht|]. rewrite E1, E2. unfold nibble. rewrite Z.min_r by lia. split; [done|]. split; [exact Hr1|]. lia.
Qed.

Lemma token_begin (m : mem) h p ip op k low rest L :
  ctrl_at h p → arrived m ip ((16 * nibble k + low) :: ext k ++ rest) L → 0 <= k → 0 <= low < 16 → source <= ip → dest <= op <= oend →
  ip + 1 + Z.of_nat (length (ext k ++ rest)) = iend → k <= Z.of_nat (length rest) →
  let ip1 := ip + 1 + Z.of_nat (length (ext k)) in
  (parse_token m h ip op L = Some (m, suspend h LZ4_PART_PARSE_TOKEN (pc_token h) ip op, Return 0) ∧ L < iend + 11) ∨
  ip1 + k < L ∧ ∃ token, Z.land token ML_MASK = low ∧
    parse_token m h ip op L =
      if (oend - 12 <? op + k) || (iend - 8 <? ip1 + k) then
        if negb (ip1 + k =? iend) || (oend <? op + k) then output_error m h ip1
        else m ← memcpy m op ip1 k; Some (m, suspend h LZ4_PART_FINISH (pc_token h) (ip1 + k) (op + k), Return (op + k - dest))
      else m ← LZ4_wildCopy m op ip1 (op + k); Some (m, h, Go token (ip1 + k) (op + k)).
Proof.
  change (2 ^ 32) with 4294967296 in *. intros Hc Hm Hk Hlow Hs Hop Hend Hkr ip1. destruct (ctrl_ends h p Hc) as [Ei Eo]. unfold parse_token.
  rewrite (u32_small (ip + MFLIMIT)), Ei, Eo, (ca_dest _ _ Hc) by (unfold is_u32, MFLIMIT; lia).
  destruct (Z.ltb_spec L (ip + MFLIMIT)) as [Hlt|Hge]; unfold MFLIMIT, LASTLITERALS in *; [left; split; [done|lia]|].
  destruct (token_head m ip k low rest L Hm) as (token & ip2 & len & Ht & Hlo & Hr & Hip2 & Hlen & Hor); [done|done|done|lia|done|done|].
  rewrite Ht. sbind. rewrite Hr. sbind. pose proof (length_ext k Hk). rewrite length_app in Hend.
  rewrite (u32_small (op + len)), (u32_small (ip2 + len)), (proj2 (Z.ltb_ge (op + len) op)), (proj2 (Z.ltb_ge (ip2 + len) ip2)) by (unfold is_u32; lia).
  cbn [orb]. rewrite andb_false_r. destruct (Z.leb_spec L (ip2 + len)) as [Hle|Hgt]; [left; split; [done|lia]|].
  right. destruct Hor as [[-> ->]|?]; [|lia]. fold ip1. split; [lia|]. exists token. split; [done|]. done.
Qed.

Lemma token_step (m : mem) h p ip op out s seqs L :
  ctrl_at h p → at_view m ip op (VToken out (s :: seqs)) → arrived m ip (view_rest (VToken out (s :: seqs))) L →
  (parse_token m h ip op L = Some (m, suspend h LZ4_PART_PARSE_TOKEN (pc_token h) ip op, Return 0) ∧ L < iend + 11) ∨
  ∃ m' token ip' op', parse_token m h ip op L = Some (m', h, Go token ip' op') ∧ keeps m m' dest lim ∧ ip <= ip' ∧
    Z.land token ML_MASK = nibble (Z.of_nat (mlen s) - 4) ∧
    at_view m' ip' op' (VMatch (out ++ lits s) (offset s) (mlen s) seqs) ∧ arrived m' ip' (view_rest (VMatch (out ++ lits s) (offset s) (mlen s) seqs)) L.
Proof.
  change (2 ^ 32) with 4294967296 in *. intros Hc [Hip Hrest -> Hout Hok [pre Hpre] Hmap] Ha. cbn [view_rest view_out view_ok] in *.
  destruct Hok as (Hfin & Hsq & Hl5). destruct Hl5 as [|Hl5]; [done|]. cbn [seqs_ok] in Hsq. destruct Hsq as (Ho1 & Ho2 & Ho3 & Ho4 & Hsq).
  rewrite enc_block_cons in Ha, Hrest, Hpre. unfold enc_seq, enc_lits in Ha, Hrest, Hpre. set (v := Z.of_nat (mlen s) - 4) in *.
  set (k := Z.of_nat (length (lits s))) in *. rewrite <- !app_assoc, <- app_comm_cons, <- !app_assoc in Ha, Hrest, Hpre.
  set (rest2 := le_bytes 2 (offset s) ++ ext v ++ enc_block seqs last) in *.
  cbn [length] in Hrest. rewrite !length_app in Hrest. fold k in Hrest.
  assert (8 <= Z.of_nat (length rest2)) as H8.
  { unfold rest2. rewrite !length_app, length_le_bytes. pose proof (enc_block_long seqs). lia. }
  pose proof (foldl_grows seqs (decode_seq out s)) as Hg. cbn [foldl] in Hfin. assert (length data = length (foldl decode_seq (decode_seq out s) seqs ++ last)) as Hd by (by rewrite Hfin).
  rewrite length_app in Hd. rewrite length_decode_seq in Hg.
  assert (Z.of_nat (length out) + k + Z.of_nat (mlen s) + 5 <= total) as Htot by (unfold total, k; lia).
  destruct (token_begin m h p ip (dest + Z.of_nat (length out)) k (nibble v) (lits s ++ rest2) L Hc Ha) as [Hret|(HL & token & Hlo & Hp)];
    [lia|unfold nibble; lia|done|lia|rewrite !length_app; fold k; lia|rewrite length_app; fold k; lia|by left|].
  right. set (ip1 := ip + 1 + Z.of_nat (length (ext k))) in *. set (op := dest + Z.of_nat (length out)) in *.
  rewrite (proj2 (Z.ltb_ge (oend - 12) (op + k))), (proj2 (Z.ltb_ge (iend - 8) (ip1 + k))) in Hp by lia. cbn [orb] in Hp.
  cbn [arrived] in Ha. destruct Ha as [_ Ha]. apply arrived_app in Ha as [_ Ha]. fold ip1 in Ha.
  pose proof (arrived_mapped _ _ _ _ Ha) as Hsrc. apply arrived_app in Ha as [Hl Ha]. rewrite length_app in Hsrc. fold k in Ha, Hsrc.
  apply arrived_bytes in Hl; [|fold k; lia].
  destruct (literals_copy dest lim m ip1 out (lits s) Hl) as (m1 & Hw & Hout1 & K1); try done; fold k op; try lia.
  { eapply mapped_sub; [exact Hsrc|lia..]. }
  fold k op in Hw. rewrite Hw in Hp. exists m1, token, (ip1 + k), (op + k). split; [exact Hp|]. split; [done|]. split; [lia|]. split; [done|]. split.
  - constructor; cbn [view_rest view_out view_ok]; [lia|fold v rest2; lia|rewrite length_app; lia|done| | |by apply K1];
      [|exists (pre ++ (16 * nibble k + nibble v) :: ext k ++ lits s); fold v rest2; rewrite Hpre, <- !app_assoc; cbn [app]; by rewrite <- !app_assoc].
    rewrite length_app, Nat2Z.inj_add. fold k. repeat split; try lia; done.
  - cbn [view_rest]. fold v rest2. eapply arrived_keeps; [exact K1|exact Ha|]. lia.
Qed.

Lemma last_step (m : mem) h p ip op out L :
  ctrl_at h p → at_view m ip op (VToken out []) → arrived m ip (view_rest (VToken out [])) L →
  (parse_token m h ip op L = Some (m, suspend h LZ4_PART_PARSE_TOKEN (pc_token h) ip op, Return 0) ∧ L < iend + 11) ∨
  iend < L ∧ ∃ m' h', parse_token m h ip op L = Some (m', h', Return total) ∧ keeps m m' dest lim ∧ ctrl_at h' p ∧ completed m' h'.
Proof.
  change (2 ^ 32) with 4294967296 in *. intros Hc [Hip Hrest -> Hout Hok [pre Hpre] Hmap] Ha. cbn [view_rest view_out view_ok foldl] in *.
  destruct Hok as (Hfin & _ & _). unfold enc_block, enc_lits in Ha, Hrest. cbn [fmap list_fmap concat app] in Ha, Hrest.
  set (k := Z.of_nat (length last)) in *. cbn [length] in Hrest. rewrite length_app in Hrest. fold k in Hrest.
  assert (Z.of_nat (length out) + k = total) as Htot by (unfold total, k; rewrite <- Hfin, length_app; lia).
  destruct (token_begin m h p ip (dest + Z.of_nat (length out)) k 0 last L Hc Ha) as [Hret|(HL & token & _ & Hp)];
    [lia|lia|done|lia|rewrite length_app; fold k; lia|lia|by left|].
  right. set (ip1 := ip + 1 + Z.of_nat (length (ext k))) in *. set (op := dest + Z.of_nat (length out)) in *.
  rewrite (proj2 (Z.ltb_lt (iend - 8) (ip1 + k))), orb_true_r, (proj2 (Z.eqb_eq (ip1 + k) iend)), (proj2 (Z.ltb_ge oend (op + k))) in Hp by lia.
  cbn [negb orb] in Hp. cbn [arrived] in Ha. destruct Ha as [_ Ha]. apply arrived_app in Ha as [_ Hl]. fold ip1 in Hl.
  apply arrived_bytes in Hl; [|fold k; lia].
  assert (memcpy m op ip1 k = Some (write_bytes m op last)) as Hcp.
  { apply memcpy_forward; [by apply bytes_at_load|eapply mapped_sub; [exact Hmap|lia..]|lia]. }
  rewrite Hcp in Hp. cbn [mbind option_bind] in Hp. split; [lia|]. eexists _, _. split; [rewrite Hp; do 3 f_equal; lia|]. split; [|split; [by apply ctrl_suspend|]].
  - split; [intros x Hx; apply lookup_write_out; lia|]. intros. by apply mapped_write.
  - split; [|split; [by apply mapped_write|split; [done|cbn [pc_ip suspend]; lia]]]. rewrite <- Hfin. apply bytes_at_app. fold op.
    split; [|apply bytes_at_load, load_write_eq]. apply (bytes_at_ext m); [done|]. intros x Hx. apply lookup_write_out. lia.
Qed.

(** The length of a match, whose end may not have arrived. *)
Lemma match_head_part (m : mem) ip v L token :
  arrived m ip (ext v) L → 0 <= v → source <= ip → ip + Z.of_nat (length (ext v)) + 5 <= iend → Z.land token ML_MASK = nibble v →
  ∃ ip1 len,
    (if Z.land token ML_MASK =? ML_MASK then match_length (S (S (Z.to_nat (iend - ip)))) m ip iend (Z.land token ML_MASK)
     else Some (ip, Some (Z.land token ML_MASK))) = Some (ip1, Some len) ∧ 0 <= len <= 15 + 255 * n ∧
    (ip1 = ip + Z.of_nat (length (ext v)) ∧ len = v ∨ Z.land token ML_MASK = ML_MASK ∧ L < ip1 <= iend).
Proof.
  change (2 ^ 32) with 4294967296 in *. intros Ha Hv Hs Hend ->. unfold nibble, ML_MASK, ext in *.
  destruct (Z.ltb_spec v 15) as [Hl|Hb].
  - destruct (Z.eqb_spec (Z.min v 15) 15); [lia|]. cbn [length] in *. exists ip, (Z.min v 15). split; [done|]. lia.
  - destruct (Z.eqb_spec (Z.min v 15) 15); [|lia]. rewrite length_app, length_replicate in *. cbn [length] in *.
    destruct (match_partial (Z.to_nat ((v - 15) / 255)) (S (S (Z.to_nat (iend - ip)))) m ip iend (Z.min v 15) ((v - 15) mod 255) L Ha)
      as (ip1 & len & -> & ? & ? & Hor); [zmod|lia|lia|lia|change (2 ^ 32) with 4294967296; lia|].
    exists ip1, len. split; [done|]. split; [lia|]. destruct Hor as [[-> ->]|?]; [left; split; [lia|zmod]|right; split; [done|lia]].
Qed.

Lemma match_step (m : mem) h p token ip op out off k seqs L :
  ctrl_at h p → at_view m ip op (VMatch out off k seqs) → arrived m ip (view_rest (VMatch out off k seqs)) L → 0 <= L →
  Z.land token ML_MASK = nibble (Z.of_nat k - 4) →
  (parse_match m h token ip op L = Some (m, suspend h LZ4_PART_PARSE_MATCH token ip op, Return 0) ∧ L < iend + 11) ∨
  ∃ m' ip' op', parse_match m h token ip op L = Some (m', set_ip h ip', Go token ip' op') ∧ keeps m m' dest lim ∧ ip <= ip' ∧
    at_view m' ip' op' (VToken (append_match k out off) seqs) ∧ arrived m' ip' (view_rest (VToken (append_match k out off) seqs)) L.
Proof.
  change (2 ^ 32) with 4294967296 in *. intros Hc [Hip Hrest -> Hout Hok [pre Hpre] Hmap] Ha HL0 Hlo. cbn [view_rest view_out view_ok] in *.
  destruct Hok as (Hfin & Hsq & Ho1 & Ho2 & Ho3 & Ho4 & Hl5). set (v := Z.of_nat k - 4) in *. set (op := dest + Z.of_nat (length out)) in *.
  rewrite !length_app, length_le_bytes in Hrest. pose proof (enc_block_long seqs) as Hlong. pose proof (length_ext v ltac:(lia)) as Hle.
  pose proof (foldl_grows seqs (append_match k out off)) as Hg. assert (length data = length (foldl decode_seq (append_match k out off) seqs ++ last)) as Hd by (by rewrite Hfin).
  rewrite length_app in Hd. rewrite length_append_match in Hg.
  assert (Z.of_nat (length out) + Z.of_nat k + 5 <= total) as Htot by (unfold total; lia).
  destruct (ctrl_ends h p Hc) as [Ei Eo]. unfold parse_match. rewrite (u32_small (ip + 2)), Ei, (ca_dest _ _ Hc) by (unfold is_u32; lia).
  destruct (Z.leb_spec L (ip + 2)) as [Hlt|Hge]; [left; split; [done|lia]|].
  apply arrived_app in Ha as [Hof Ha]. rewrite length_le_bytes in Ha. change (Z.of_nat 2) with 2 in *. apply arrived_app in Ha as [Hext Ha].
  apply arrived_bytes in Hof; [|rewrite length_le_bytes; lia].
  assert (LZ4_readLE16 m ip = Some off) as ->.
  { unfold LZ4_readLE16. apply bytes_at_load in Hof. rewrite length_le_bytes in Hof. rewrite Hof.
    cbn [fmap option_fmap option_map]. rewrite le_val_bytes; [done|]. change (256 ^ Z.of_nat 2) with 65536. lia. }
  sbind. rewrite (u32_small (op - off)), (proj2 (Z.ltb_ge (op - off) dest)) by (unfold is_u32; lia).
  destruct (match_head_part m (ip + 2) v L token Hext) as (ip1 & len & Hr & Hlen & Hor); [lia|lia|lia|done|].
  rewrite Hr. sbind. rewrite (u32_small (op + len)), (proj2 (Z.ltb_ge (op + len) op)), andb_false_r by (unfold is_u32; lia).
  assert (Z.land token ML_MASK = ML_MASK ∧ L <= ip1 ∧ L < iend + 11 ∨ ip1 = ip + 2 + Z.of_nat (length (ext v)) ∧ len = v ∧
    ((Z.land token ML_MASK =? ML_MASK) && (L <=? ip1) = false)) as [(E & HL & HL2)|(-> & -> & ->)].
  { destruct Hor as [[-> ->]|[E HL]].
    - destruct (Z.eqb_spec (Z.land token ML_MASK) ML_MASK) as [E|E]; [|by right].
      destruct (Z.leb_spec L (ip + 2 + Z.of_nat (length (ext v)))); [left; split; [done|lia]|by right].
    - left. split; [done|]. split; lia. }
  - rewrite E, Z.eqb_refl, (proj2 (Z.leb_le L ip1)) by lia. left. split; [done|lia].
  - right. unfold MINMATCH. rewrite (u32_small (v + 4)) by (unfold is_u32; lia). replace (v + 4) with (Z.of_nat k) by lia.
    destruct (match_copy dest oend lim ltac:(lia) ltac:(change (2 ^ 32) with 4294967296; lia) m out off k Hout) as (m2 & Hcp & Hb & K2); [lia..|done|].
    fold op in Hcp. assert (pc_oend (set_ip h (ip + 2 + Z.of_nat (length (ext v)))) = oend) as -> by exact Eo. rewrite Hcp. sbind.
    rewrite (u32_small (op + Z.of_nat k)) by (unfold is_u32; lia).
    eexists _, _, _. split; [done|]. split; [done|]. split; [lia|]. split.
    + constructor; cbn [view_rest view_out view_ok]; [lia|lia|rewrite length_append_match; lia|done| | |by apply K2];
        [|exists (pre ++ le_bytes 2 off ++ ext v); by rewrite Hpre, <- !app_assoc].
      rewrite length_append_match, Nat2Z.inj_add. split; [done|]. split; [done|by right].
    + cbn [view_rest]. eapply arrived_keeps; [exact K2|exact Ha|]. lia.
Qed.

(** A call: the block is complete, or the input has not reached eleven bytes
    behind its end and the context keeps its place. *)
Definition seq_result (m m' : mem) (h' : part_ctrl) (p r L : Z) : Prop :=
  keeps m m' dest lim ∧ ctrl_at h' p ∧ (r = 0 ∧ L < iend + 11 ∧ (∃ v, paused m' h' v) ∨ r = total ∧ iend < L ∧ completed m' h').

Lemma seq_result_trans m m1 m2 h' p r L : keeps m m1 dest lim → seq_result m1 m2 h' p r L → seq_result m m2 h' p r L.
Proof. intros Hk (Hk' & Hr). split; [by eapply keeps_trans|done]. Qed.

Lemma seq_paused (m : mem) h p L v st token ip op :
  ctrl_at h p → L < iend + 11 → at_view m ip op v →
  match v with
  | VToken _ _ => st = LZ4_PART_PARSE_TOKEN
  | VMatch _ _ k _ => st = LZ4_PART_PARSE_MATCH ∧ Z.land token ML_MASK = nibble (Z.of_nat k - 4)
  end → seq_result m m (suspend h st token ip op) p 0 L.
Proof.
  intros Hc HL Hv Hst. split; [by split|]. split; [by apply ctrl_suspend|]. left. split; [done|]. split; [done|]. exists v. by split.
Qed.

Lemma loop_run seqs : ∀ f (m : mem) h p ip op out L,
  ctrl_at h p → at_view m ip op (VToken out seqs) → arrived m ip (view_rest (VToken out seqs)) L → 0 <= L → (length seqs < f)%nat →
  ∃ m' h' r, part_seq_loop f m h ip op L = Some (m', h', r) ∧ seq_result m m' h' p r L.
Proof.
  induction seqs as [|s seqs IH]; intros f m h p ip op out L Hc Hv Ha HL Hf; (destruct f as [|f]; [lia|]); cbn [part_seq_loop].
  - destruct (last_step m h p ip op out L Hc Hv Ha) as [[-> Hlim]|(HiL & m' & h' & -> & Hk & Hc' & Hd)]; sbind; eexists _, _, _; (split; [done|]).
    + by eapply seq_paused.
    + split; [done|]. split; [done|by right].
  - destruct (token_step m h p ip op out s seqs L Hc Hv Ha) as [[-> Hlim]|(m1 & token & ip1 & op1 & -> & Hk1 & _ & Hlo & Hv1 & Ha1)]; sbind.
    { eexists _, _, _. split; [done|]. by eapply seq_paused. }
    destruct (match_step m1 h p token ip1 op1 _ _ _ _ L Hc Hv1 Ha1 HL Hlo) as [[-> Hlim]|(m2 & ip2 & op2 & -> & Hk2 & _ & Hv2 & Ha2)]; sbind.
    { eexists _, _, _. split; [done|]. apply (seq_result_trans m m1); [done|]. by eapply seq_paused. }
    cbn [length] in Hf. destruct (IH f m2 (set_ip h ip2) p ip2 op2 _ L (ctrl_suspend _ _ _ _ _ _ Hc) Hv2 Ha2 HL) as (m' & h' & r & Hr & Hres); [lia|].
    exists m', h', r. split; [exact Hr|]. apply (seq_result_trans m m1); [done|]. by apply (seq_result_trans m1 m2).
Qed.

Lemma seq_run (m : mem) h p v sz :
  let L := source ⊞ (p ⊞ sz) in
  ctrl_at h p → paused m h v → arrived m (pc_ip h) (view_rest v) L →
  ∃ m' h' r, LZ4_part_decompress_seq m h sz = Some (m', h', r) ∧ seq_result m m' h' (p ⊞ sz) r L.
Proof.
  intros L Hc [Hv Hst] Ha. assert (0 <= L) as HL by (unfold L; apply u32_bound). unfold LZ4_part_decompress_seq.
  rewrite (ca_pos _ _ Hc). set (h1 := set_in_pos h (p ⊞ sz)).
  assert (ctrl_at h1 (p ⊞ sz)) as Hc1 by (destruct Hc; by constructor).
  change (pc_source h1 ⊞ pc_in_pos h1) with (pc_source h ⊞ (p ⊞ sz)). rewrite (ca_source _ _ Hc). fold L.
  change (pc_inputSize h1) with (pc_inputSize h). rewrite (ca_n _ _ Hc).
  assert (∀ m ip op out seqs, at_view m ip op (VToken out seqs) → (length seqs < S (Z.to_nat n))%nat) as Hfuel.
  { intros m1 ip op out seqs [Hip Hr _ _ _ _ _]. cbn [view_rest] in Hr. pose proof (block_length seqs last). lia. }
  destruct v as [out seqs|out off k seqs].
  - rewrite Hst. apply (loop_run seqs _ m h1 (p ⊞ sz) _ _ out L); [done..|]. by eapply Hfuel.
  - destruct Hst as [-> Hlo]. destruct (match_step m h1 (p ⊞ sz) (pc_token h) _ _ out off k seqs L Hc1 Hv Ha HL Hlo)
      as [[Hr Hlim]|(m1 & ip1 & op1 & Hr & Hk1 & _ & Hv1 & Ha1)]; change (pc_token h1) with (pc_token h); change (pc_ip h1) with (pc_ip h);
      change (pc_op h1) with (pc_op h); rewrite Hr; sbind.
    + eexists _, _, _. split; [done|]. by eapply seq_paused.
    + destruct (loop_run seqs (S (Z.to_nat n)) m1 (set_ip h1 ip1) (p ⊞ sz) ip1 op1 _ L (ctrl_suspend _ _ _ _ _ _ Hc1) Hv1 Ha1 HL) as (m' & h' & r & Hl & Hres).
      { by eapply Hfuel. }
      exists m', h', r. split; [exact Hl|]. by apply (seq_result_trans m m1).
Qed.

End block.

Lemma view_out_length last data v : view_ok last data v → (length (view_out v) <= length data)%nat.
Proof.
  destruct v as [out seqs|out off k seqs]; cbn [view_ok view_out]; intros [E _]; apply (f_equal length) in E; rewrite length_app in E.
  - pose proof (foldl_grows seqs out). lia.
  - pose proof (foldl_grows seqs (append_match k out off)) as Hg. rewrite length_append_match in Hg. lia.
Qed.

(** ** A frame in pieces *)

Section frame.
Context (fr : frame) (src srcn dst dstn lim : Z).
Let F := enc_frame fr.
Let N := Z.of_nat (length F).
Let T := Z.of_nat (length (frame_data fr)).
Context (Hok : frame_ok fr) (Hck : fr_ck fr = false) (Htail : (10 <= length (fr_tail fr))%nat) (Hsrcn : N - Z.of_nat (length (fr_tail fr)) <= srcn < 2 ^ 31)
  (Hsrcn15 : 15 <= srcn).
Context (Hsrc : 3 <= src) (Hsrc32 : src + 257 * N + 16 < 2 ^ 32) (Hdst : 0 <= dst) (Hdst32 : dst + dstn + 256 * N + 16 < 2 ^ 32).
Context (Hap : src + N <= dst ∨ lim <= src) (HT1 : T <= dstn) (HT2 : dst + T <= lim) (HT3 : Z.min (dst + dstn) (dst + T + 8) <= lim).

(** The blocks that are left, and their data. *)
Definition blocks_rest (bs : list fblock) : bytes := concat (enc_fblock false <$> bs) ++ le_bytes 4 0 ++ fr_tail fr.
Definition blocks_data (bs : list fblock) : bytes := concat (pl_data ∘ fb_payload <$> bs).

Record frame_ctx (c : part_ctx) : Prop := {
  fc_src : pd_src c = src; fc_total : pd_total c = srcn; fc_dst : pd_dst c = dst; fc_room : pd_room c = dstn; fc_ck : pd_ck c = 0
}.

(** The context stands behind [pre] in the frame and behind [data] in the
    output; [rest] and [todo] are what is left of both. *)
Record stands (m : mem) (c : part_ctx) (pre rest data todo : bytes) : Prop := {
  st_ctx : frame_ctx c;
  st_frame : F = pre ++ rest;
  st_in : pd_in c = src + Z.of_nat (length pre);
  st_have : Z.of_nat (length pre) <= pd_input c;
  st_out : pd_out c = dst + Z.of_nat (length data);
  st_done : bytes_at m dst data;
  st_map : mapped m dst (lim - dst);
  st_data : data ++ todo = frame_data fr
}.

(** The control of the block at [pd_in]: what it counted of the input is at
    most three bytes short. *)
Record decoding (m : mem) (c : part_ctx) (seqs : list sequence) (last : bytes) (v : view) (p : Z) : Prop := {
  dc_ctrl : ctrl_at (pd_in c) (pd_out c) (Z.of_nat (length (enc_block seqs last))) (dst + dstn - pd_out c) (pd_ctrl c) p;
  dc_paused : paused (pd_in c) (pd_out c) (Z.of_nat (length (enc_block seqs last))) lim (enc_block seqs last) last (decode_block seqs last) m (pd_ctrl c) v
}.

Definition waiting (m : mem) (c : part_ctx) : Prop :=
  match pd_state c with
  | LZ4_PART_INIT => frame_ctx c ∧ pd_in c = src ∧ pd_out c = dst ∧ pd_input c = 0 ∧ mapped m dst (lim - dst)
  | LZ4_PART_BLOCK => ∃ pre bs data, stands m c pre (blocks_rest bs) data (blocks_data bs) ∧ Forall fblock_ok bs ∧
      pd_input c < Z.of_nat (length pre) + 4
  | LZ4_PART_BLOCK_CPY => ∃ pre l bs data, stands m c pre (l ++ blocks_rest bs) data (l ++ blocks_data bs) ∧ Forall fblock_ok bs ∧
      pd_block c = Z.of_nat (length l) ∧ 0 < Z.of_nat (length l) ∧ pd_input c = Z.of_nat (length pre)
  | LZ4_PART_DECOMP => ∃ pre seqs last bs data v u,
      stands m c pre (enc_block seqs last ++ blocks_rest bs) data (decode_block seqs last ++ blocks_data bs) ∧ Forall fblock_ok bs ∧
      0 < Z.of_nat (length (decode_block seqs last)) ∧ 0 <= u <= 3 ∧
      decoding m c seqs last v (u32 (pd_input c - Z.of_nat (length pre) - u)) ∧
      pd_input c - u < Z.of_nat (length pre) + Z.of_nat (length (enc_block seqs last)) + 11
  | LZ4_PART_FINISH => frame_ctx c ∧ bytes_at m dst (frame_data fr) ∧ pd_decompressed c = T ∧ pd_out c = dst + T ∧ mapped m dst (lim - dst) ∧
      N - Z.of_nat (length (fr_tail fr)) <= pd_input c
  | _ => False
  end.

(** With ten bytes behind the end mark announced, waiting is over. *)
Lemma waiting_finished m c : waiting m c → N - Z.of_nat (length (fr_tail fr)) + 10 <= pd_input c → pd_state c = LZ4_PART_FINISH.
Proof.
  assert (0 < N) as HN by (pose proof (fo_long _ Hok); unfold N, F; lia).
  assert (∀ bs, 4 + Z.of_nat (length (fr_tail fr)) <= Z.of_nat (length (blocks_rest bs))) as Hbs by (intros bs; unfold blocks_rest; rewrite !length_app, length_le_bytes; lia).
  unfold waiting. intros Hw HA. destruct (pd_state c); [| | | |done|done|done].
  - destruct Hw as (_ & _ & _ & E & _). assert (4 + Z.of_nat (length (fr_tail fr)) <= N) by (unfold N, F, enc_frame; rewrite !length_app, !length_le_bytes; lia). lia.
  - destruct Hw as (pre & bs & data & [_ E _ _ _ _ _ _] & _ & Hlt). unfold N in HA. rewrite E, length_app in HA. specialize (Hbs bs). lia.
  - destruct Hw as (pre & l & bs & data & [_ E _ _ _ _ _ _] & _ & _ & Hl & Hlt). unfold N in HA. rewrite E, !length_app in HA. specialize (Hbs bs). lia.
  - destruct Hw as (pre & seqs & last & bs & data & v & u & [_ E _ _ _ _ _ _] & _ & _ & Hu & _ & Hlt).
    unfold N in HA. rewrite E, !length_app in HA. specialize (Hbs bs). lia.
Qed.

(** The turns of one call, all of whose input has arrived. *)
Definition ready (m : mem) (c : part_ctx) : Prop := arrived m src F (src + pd_input c) ∧ src + pd_input c + 16 < 2 ^ 32.

Definition call_ok (f : nat) (m : mem) (c : part_ctx) (size : Z) : Prop :=
  ∃ m' c', part_again f m c size = Some (m', c', 0) ∧ waiting m' c' ∧ pd_input c' = pd_input c ∧ keeps m m' dst lim.

Lemma stands_rest m c pre rest data todo L : stands m c pre rest data todo → arrived m src F L → arrived m (pd_in c) rest L.
Proof. intros [_ E -> _ _ _ _ _] Ha. rewrite E in Ha. by apply arrived_app in Ha as [_ Ha]. Qed.

Lemma stands_length m c pre rest data todo : stands m c pre rest data todo → Z.of_nat (length pre) + Z.of_nat (length rest) = N.
Proof. intros [_ E _ _ _ _ _ _]. unfold N. rewrite E, length_app. lia. Qed.

Lemma stands_todo m c pre rest data todo : stands m c pre rest data todo → Z.of_nat (length data) + Z.of_nat (length todo) = T.
Proof. intros [_ _ _ _ _ _ _ E]. unfold T. rewrite <- E, length_app. lia. Qed.

Lemma ready_keeps m m' c : ready m c → keeps m m' dst lim → ready m' c.
Proof. intros [Ha H32] Hk. split; [|done]. eapply arrived_keeps; [exact Hk|exact Ha|]. fold N. lia. Qed.

Lemma call_ok_keeps f m m1 c c1 size size1 :
  part_again (S f) m c size = part_again f m1 c1 size1 → pd_input c1 = pd_input c → keeps m m1 dst lim → call_ok f m1 c1 size1 →
  call_ok (S f) m c size.
Proof.
  intros E Ei Hk (m' & c' & Hr & Hw & Hi & Hk'). exists m', c'. rewrite E. split; [done|]. split; [done|]. split; [congruence|].
  by eapply keeps_trans.
Qed.

Lemma call_ok_stop f m c size : part_again_step m c size = ret m c 0 → waiting m c → call_ok (S f) m c size.
Proof. intros E Hw. exists m, c. cbn [part_again]. rewrite E. unfold ret. sbind. by repeat split. Qed.

(** The state of the machine is not the last one. *)
Lemma step_eq m c size : pd_state c ≠ LZ4_PART_FINISH → src + pd_input c < 2 ^ 32 → pd_src c = src → 0 <= pd_input c →
  part_again_step m c size =
    if pd_in c =? src + pd_input c then ret m c 0
    else match pd_state c with
         | LZ4_PART_INIT => turn_init m c size
         | LZ4_PART_BLOCK => turn_block m c size
         | LZ4_PART_DECOMP => turn_decomp m c size
         | LZ4_PART_BLOCK_CPY => turn_cpy m c size
         | _ => ret m c LZ4_RET_INVALID_CONTEXT_STATE
         end.
Proof.
  change (2 ^ 32) with 4294967296. intros Hs H32 Es H0. unfold part_again_step. rewrite Es, u32_small by (unfold is_u32; lia). by destruct (pd_state c).
Qed.

(** From a block header on. *)
Definition block_goes (bs : list fblock) : Prop := ∀ f m c size pre data u,
  (2 * length bs + 2 <= f)%nat → pd_state c = LZ4_PART_BLOCK → stands m c pre (blocks_rest bs) data (blocks_data bs) → Forall fblock_ok bs →
  ready m c → 0 <= u <= 3 → size = u32 (pd_input c - Z.of_nat (length pre) - u) → call_ok f m c size.

Lemma copy_goes bs l f m c size pre data :
  block_goes bs → (2 * length bs + 3 <= f)%nat → pd_state c = LZ4_PART_BLOCK_CPY →
  stands m c pre (l ++ blocks_rest bs) data (l ++ blocks_data bs) → Forall fblock_ok bs → ready m c →
  pd_block c = Z.of_nat (length l) → 0 < Z.of_nat (length l) → call_ok f m c size.
Proof.
  change (2 ^ 32) with 4294967296 in *. intros IH Hf Hst Hs Hbs Hr Hl Hl0. pose proof Hr as [Ha H32].
  pose proof (stands_length _ _ _ _ _ _ Hs) as HNl. pose proof (stands_todo _ _ _ _ _ _ Hs) as HTl. rewrite !length_app in HNl, HTl.
  pose proof (stands_rest _ _ _ _ _ _ _ Hs Ha) as Hrest. destruct Hs as [Hc HF Hin Hhave Hout Hdone Hmap Hdata].
  destruct f as [|f]; [lia|].
  assert (part_again_step m c size = if pd_in c =? src + pd_input c then ret m c 0 else turn_cpy m c size) as Hstep
    by (rewrite step_eq by (rewrite ?Hst; done || lia || apply Hc); by rewrite Hst).
  destruct (Z.eqb_spec (pd_in c) (src + pd_input c)) as [Heq|Hne].
  { apply call_ok_stop; [exact Hstep|]. unfold waiting. rewrite Hst. exists pre, l, bs, data. split; [by constructor|]. split; [done|]. lia. }
  unfold turn_cpy in Hstep. rewrite (fc_src _ Hc), (u32_small (pd_in c - src)), (u32_small (pd_input c - _)), Hl in Hstep by (unfold is_u32; lia).
  set (k := Z.min (Z.of_nat (length l)) (pd_input c - (pd_in c - src))) in *. apply arrived_app in Hrest as [Hlm Hrest].
  assert (l = take (Z.to_nat k) l ++ drop (Z.to_nat k) l) as El by (by rewrite take_drop).
  set (l1 := take (Z.to_nat k) l) in *. set (l2 := drop (Z.to_nat k) l) in *.
  assert (Z.of_nat (length l1) = k) as Hl1 by (unfold l1; rewrite length_take; lia).
  assert (Z.of_nat (length l2) = Z.of_nat (length l) - k) as Hl2 by (unfold l2; rewrite length_drop; lia).
  assert (memcpy m (pd_out c) (pd_in c) k = Some (write_bytes m (pd_out c) l1)) as Hcp.
  { rewrite <- Hl1. apply memcpy_forward; [|eapply mapped_sub; [exact Hmap|lia..]|lia]. apply bytes_at_load.
    rewrite El in Hlm. apply arrived_app in Hlm as [Hlm _]. eapply arrived_bytes; [exact Hlm|lia]. }
  rewrite Hcp in Hstep. cbn [mbind option_bind] in Hstep. unfold skip_ck in Hstep. cbn [at_state pd_block pd_in pd_out pd_ck pd_src pd_input pd_state] in Hstep.
  rewrite (fc_ck _ Hc) in Hstep. cbn [Z.eqb negb] in Hstep.
  set (m1 := write_bytes m (pd_out c) l1) in *.
  assert (keeps m m1 dst lim) as K1.
  { split; [intros x Hx; apply lookup_write_out; lia|intros; by apply mapped_write]. }
  assert (∀ st b, stands m1 (at_state c st (pd_in c + k) (pd_out c + k) b) (pre ++ l1) (l2 ++ blocks_rest bs) (data ++ l1) (l2 ++ blocks_data bs)) as Hs1.
  { intros st b. constructor; cbn [at_state pd_in pd_out pd_input].
    - destruct Hc; by constructor.
    - rewrite HF, El at 1. by rewrite <- !app_assoc.
    - rewrite length_app. lia.
    - rewrite length_app. lia.
    - rewrite length_app. lia.
    - apply bytes_at_app. rewrite <- Hout. split; [|apply bytes_at_load, load_write_eq].
      apply (bytes_at_ext m); [done|]. intros x Hx. apply lookup_write_out. lia.
    - by apply K1.
    - rewrite <- Hdata, El at 1. by rewrite <- !app_assoc. }
  destruct (Z.eqb_spec (Z.of_nat (length l) - k) 0) as [Hz|Hnz].
  - eapply (call_ok_keeps f m m1 c (at_state c LZ4_PART_BLOCK (pd_in c + k) (pd_out c + k) 0)); [cbn [part_again]; rewrite Hstep; reflexivity|done|done|].
    assert (l2 = []) as E2 by (apply nil_length_inv; lia). specialize (Hs1 LZ4_PART_BLOCK 0). rewrite E2 in Hs1. cbn [app] in Hs1.
    eapply (IH f m1 _ _ (pre ++ l1) (data ++ l1) 0); [lia|done|exact Hs1|done|by apply (ready_keeps m)|lia|].
    cbn [at_state pd_input]. rewrite length_app, (fc_src _ Hc), (u32_small (pd_in c + k - src)) by (unfold is_u32; lia). f_equal. lia.
  - eapply (call_ok_keeps f m m1 c (at_state c LZ4_PART_BLOCK_CPY (pd_in c + k) (pd_out c + k) (Z.of_nat (length l) - k))); [cbn [part_again]; rewrite Hstep; reflexivity|done|done|].
    destruct f as [|f]; [lia|]. assert (pd_in c + k = src + pd_input c) as Hend by lia. apply call_ok_stop.
    + rewrite step_eq by (cbn [at_state pd_state pd_input pd_src]; done || lia || apply Hc). cbn [at_state pd_in pd_input].
      by rewrite Hend, Z.eqb_refl.
    + unfold waiting. cbn [at_state pd_state]. exists (pre ++ l1), l2, bs, (data ++ l1). split; [apply Hs1|]. split; [done|].
      cbn [at_state pd_block pd_input]. rewrite length_app. lia.
Qed.

Lemma decomp_goes bs seqs last v p u f m c size pre data :
  block_goes bs → (2 * length bs + 3 <= f)%nat → pd_state c = LZ4_PART_DECOMP →
  stands m c pre (enc_block seqs last ++ blocks_rest bs) data (decode_block seqs last ++ blocks_data bs) → Forall fblock_ok bs → ready m c →
  0 < Z.of_nat (length (decode_block seqs last)) → decoding m c seqs last v p → 0 <= u <= 3 →
  p ⊞ size = u32 (pd_input c - Z.of_nat (length pre) - u) →
  (pd_input c = Z.of_nat (length pre) → ∃ u0, 0 <= u0 <= 3 ∧ p = u32 (pd_input c - Z.of_nat (length pre) - u0)) → call_ok f m c size.
Proof.
  change (2 ^ 32) with 4294967296 in *. intros IH Hf Hst Hs Hbs Hr Hd0 Hdec Hu Hsz Hp. pose proof Hr as [Ha H32].
  pose proof (stands_length _ _ _ _ _ _ Hs) as HNl. pose proof (stands_todo _ _ _ _ _ _ Hs) as HTl. rewrite !length_app in HNl, HTl.
  pose proof (stands_rest _ _ _ _ _ _ _ Hs Ha) as Hrest. pose proof Hs as [Hc HF Hin Hhave Hout Hdone Hmap Hdata].
  set (n := Z.of_nat (length (enc_block seqs last))) in *. set (t := Z.of_nat (length (decode_block seqs last))) in *.
  destruct f as [|f]; [lia|].
  assert (part_again_step m c size = if pd_in c =? src + pd_input c then ret m c 0 else turn_decomp m c size) as Hstep
    by (rewrite step_eq by (rewrite ?Hst; done || lia || apply Hc); by rewrite Hst).
  destruct (Z.eqb_spec (pd_in c) (src + pd_input c)) as [Heq|Hne].
  { apply call_ok_stop; [exact Hstep|]. destruct Hp as (u0 & Hu0 & ->); [lia|]. unfold waiting. rewrite Hst.
    exists pre, seqs, last, bs, data, v, u0. do 5 (split; [done|]). lia. }
  unfold turn_decomp in Hstep. destruct Hdec as [Hctl Hpau].
  assert (pd_in c ⊞ (p ⊞ size) = src + pd_input c - u) as HL.
  { rewrite Hsz, Hin, u32_add_r, u32_small by (unfold is_u32; lia). lia. }
  assert (arrived m (pc_ip (pd_ctrl c)) (view_rest last v) (pd_in c ⊞ (p ⊞ size))) as Hav.
  { rewrite HL. destruct Hpau as [[Hip Hre _ _ _ [x Hx] _] _]. fold n in Hre. apply arrived_app in Hrest as [Hb _].
    rewrite Hx in Hb. apply arrived_app in Hb as [_ Hb]. unfold n in Hre. rewrite Hx, length_app in Hre.
    replace (pc_ip (pd_ctrl c)) with (pd_in c + Z.of_nat (length x)) by lia. eapply arrived_mono; [exact Hb|lia]. }
  destruct (seq_run (pd_in c) (pd_out c) n (dst + dstn - pd_out c) lim (enc_block seqs last) last (decode_block seqs last)) with (m := m) (h := pd_ctrl c) (p := p) (v := v) (sz := size)
    as (m1 & h1 & r & Hrun & Hk & Hc1 & Hor); try (change (2 ^ 32) with 4294967296); try (fold n t); try lia; try done.
  rewrite Hrun in Hstep. cbn [mbind option_bind] in Hstep. fold t in Hor.
  assert (keeps m m1 dst lim) as K1 by (destruct Hk as [Hk1 Hk2]; split; [intros x Hx; apply Hk1; lia|done]).
  assert (bytes_at m1 dst data) as Hdone1 by (eapply keeps_bytes; [exact Hk|exact Hdone|lia]).
  destruct Hor as [(-> & Hlt & v1 & Hp1)|(-> & Hgt & Hd1 & _ & Hfs & Hfi)].
  - cbn [Z.ltb Z.compare Z.eqb] in Hstep. exists m1, (with_ctrl c h1). cbn [part_again]. rewrite Hstep. unfold ret. sbind. split; [done|].
    split; [|by split]. unfold waiting. cbn [with_ctrl pd_state]. rewrite Hst. exists pre, seqs, last, bs, data, v1, u.
    split; [constructor; try done; try (by apply K1); destruct Hc; by constructor|]. split; [done|]. split; [lia|]. split; [done|].
    cbn [with_ctrl pd_input]. rewrite <- Hsz. split; [by constructor|]. fold n. lia.
  - rewrite (proj2 (Z.ltb_lt 0 t)) in Hstep by lia. unfold skip_ck in Hstep. cbn [with_ctrl pd_ck pd_in pd_out pd_input pd_src] in Hstep.
    assert (LZ4_part_decompress_get_processed_cnt h1 = n) as Hcnt.
    { unfold LZ4_part_decompress_get_processed_cnt. rewrite Hfi, (ca_source _ _ _ _ _ _ Hc1), u32_small by (unfold is_u32; lia). lia. }
    rewrite Hcnt, (fc_ck _ Hc), (fc_src _ Hc) in Hstep. cbn [Z.eqb negb] in Hstep.
    eapply (call_ok_keeps f m m1 c (at_state (with_ctrl c h1) LZ4_PART_BLOCK (pd_in c + n) (pd_out c + t) 0)); [cbn [part_again]; rewrite Hstep; reflexivity|done|done|].
    eapply (IH f m1 _ _ (pre ++ enc_block seqs last) (data ++ decode_block seqs last) 0); [lia|done| |done|by apply (ready_keeps m)|lia|].
    + constructor; cbn [at_state with_ctrl pd_in pd_out pd_input].
      * destruct Hc; by constructor.
      * by rewrite HF, <- app_assoc.
      * rewrite length_app. fold n. lia.
      * rewrite length_app. fold n. lia.
      * rewrite length_app. fold t. lia.
      * apply bytes_at_app. rewrite <- Hout. done.
      * by apply K1.
      * by rewrite <- Hdata, <- app_assoc.
    + cbn [at_state with_ctrl pd_input]. rewrite length_app. fold n. rewrite (u32_small (pd_in c + n - src)) by (unfold is_u32; lia). f_equal. lia.
Qed.

Lemma blocks_rest_cons b bs : blocks_rest (b :: bs) =
  le_bytes 4 (Z.of_nat (length (pl_bytes (fb_payload b))) + 2 ^ 31 * pl_flag (fb_payload b)) ++ pl_bytes (fb_payload b) ++ blocks_rest bs.
Proof. unfold blocks_rest. rewrite fmap_cons. cbn [concat]. unfold enc_fblock at 1. by rewrite app_nil_r, <- !app_assoc. Qed.

Lemma block_start m c h bs seqs last pre data :
  stands m c pre (enc_block seqs last ++ blocks_rest bs) data (decode_block seqs last ++ blocks_data bs) → block_ok seqs last →
  pd_ctrl c = h → h = fst (LZ4_part_decompress_init h (pd_in c) (pd_out c) (Z.of_nat (length (enc_block seqs last))) (dst + dstn - pd_out c)) →
  dst + dstn - pd_out c ≠ 0 → decoding m c seqs last (VToken [] seqs) 0.
Proof.
  intros Hs [Hb1 Hb2] E Eh Hne. pose proof (stands_todo _ _ _ _ _ _ Hs) as HTl. destruct Hs as [Hc HF Hin Hhave Hout Hdone Hmap Hdata].
  unfold LZ4_part_decompress_init in Eh. rewrite (proj2 (Z.eqb_neq _ 0) Hne) in Eh. cbn [fst] in Eh. rewrite Eh in E.
  constructor; rewrite E; [by constructor|]. split; [|done]. constructor; cbn [pc_ip pc_op view_rest view_out view_ok length]; [lia|lia|lia|done| |by exists []|].
  - by repeat split.
  - eapply mapped_sub; [exact Hmap|lia..].
Qed.

(** Before a block header the call ends, or the header has arrived. *)
Lemma block_begin bs f m c size pre data :
  pd_state c = LZ4_PART_BLOCK → stands m c pre (blocks_rest bs) data (blocks_data bs) → Forall fblock_ok bs → ready m c →
  call_ok (S f) m c size ∨ pd_in c + 4 <= src + pd_input c ∧ part_again_step m c size = turn_block m c size.
Proof.
  intros Hst Hs Hbs [_ H32]. change (2 ^ 32) with 4294967296 in *. pose proof Hs as [Hc _ Hin Hhave _ _ _ _].
  assert (part_again_step m c size = if pd_in c =? src + pd_input c then ret m c 0 else turn_block m c size) as Hstep
    by (rewrite step_eq by (rewrite ?Hst; done || (change (2 ^ 32) with 4294967296; lia) || apply Hc); by rewrite Hst).
  assert (pd_input c < Z.of_nat (length pre) + 4 → waiting m c) as Hwait by (intros Hlt; unfold waiting; rewrite Hst; by eexists _, _, _).
  destruct (Z.eqb_spec (pd_in c) (src + pd_input c)); [left; apply call_ok_stop; [done|apply Hwait; lia]|].
  destruct (Z_lt_le_dec (src + pd_input c) (pd_in c + 4)) as [Hlt|]; [|by right]. left. apply call_ok_stop; [|apply Hwait; lia].
  rewrite Hstep. unfold turn_block. rewrite (fc_src _ Hc), (u32_small (src + _)), (u32_small (pd_in c + 4)) by (unfold is_u32; lia).
  by rewrite (proj2 (Z.ltb_lt _ _)) by lia.
Qed.

(** The end mark. *)
Lemma block_end f m c size pre data :
  pd_state c = LZ4_PART_BLOCK → stands m c pre (blocks_rest []) data (blocks_data []) → ready m c → call_ok (S f) m c size.
Proof.
  intros Hst Hs Hr. destruct (block_begin [] f m c size pre data Hst Hs (Forall_nil_2 _) Hr) as [|[Hge Hstep]]; [done|].
  destruct Hr as [Ha H32]. change (2 ^ 32) with 4294967296 in *. change (2 ^ 31) with 2147483648 in *.
  pose proof (stands_length _ _ _ _ _ _ Hs) as HNl. pose proof (stands_todo _ _ _ _ _ _ Hs) as HTl.
  pose proof (stands_rest _ _ _ _ _ _ _ Hs Ha) as Hrest. destruct Hs as [Hc HF Hin Hhave Hout Hdone Hmap Hdata].
  unfold turn_block in Hstep. rewrite (fc_src _ Hc), (u32_small (src + _)), (u32_small (pd_in c + 4)), (proj2 (Z.ltb_ge _ _)) in Hstep by (unfold is_u32; lia).
  unfold blocks_rest in Hrest, HNl. cbn [fmap list_fmap concat app] in Hrest, HNl. rewrite length_app, length_le_bytes in HNl.
  apply arrived_app in Hrest as [Hz _]. apply arrived_bytes in Hz; [|rewrite length_le_bytes; lia].
  rewrite (rd32_bytes m _ 0 Hz) in Hstep by lia. cbn [mbind option_bind] in Hstep. change (bits 0 0 31) with 0 in Hstep.
  cbn [at_state pd_total pd_src pd_in pd_out pd_dst pd_room pd_ck pd_input pd_block pd_ctrl] in Hstep.
  rewrite (fc_total _ Hc), (fc_src _ Hc), (u32_small (pd_in c + 4 - src + 0)), (proj2 (Z.ltb_ge srcn _)) in Hstep by (unfold is_u32; lia). cbn [Z.eqb] in Hstep.
  unfold call_ok. cbn [part_again]. rewrite Hstep. unfold ret. sbind. eexists _, _. split; [done|]. split; [|split; [done|by split]].
  unfold waiting. cbn [pd_state pd_decompressed pd_out]. unfold blocks_data in Hdata. cbn [fmap list_fmap concat] in Hdata. rewrite app_nil_r in Hdata.
  rewrite (fc_dst _ Hc). split; [destruct Hc; by constructor|]. rewrite <- Hdata. split; [done|]. unfold T in *. rewrite <- Hdata in *.
  rewrite u32_small by (unfold is_u32; lia). cbn [pd_input]. repeat split; try lia; done.
Qed.

Lemma block_run bs : block_goes bs.
Proof.
  change (2 ^ 32) with 4294967296 in *. change (2 ^ 31) with 2147483648 in *.
  induction bs as [|[p ck] bs IH]; intros f m c size pre data u Hf Hst Hs Hbs Hr Hu Hsz; (destruct f as [|f]; [lia|]); [by eapply block_end|].
  destruct (block_begin _ f m c size pre data Hst Hs Hbs Hr) as [|[Hge Hstep]]; [done|].
  pose proof Hr as [Ha H32]. change (2 ^ 32) with 4294967296 in H32.
  pose proof (stands_length _ _ _ _ _ _ Hs) as HNl. pose proof (stands_todo _ _ _ _ _ _ Hs) as HTl.
  pose proof (stands_rest _ _ _ _ _ _ _ Hs Ha) as Hrest. pose proof Hs as [Hc HF Hin Hhave Hout Hdone Hmap Hdata].
  unfold turn_block in Hstep. rewrite (fc_src _ Hc), (u32_small (src + _)), (u32_small (pd_in c + 4)), (proj2 (Z.ltb_ge _ _)) in Hstep by (unfold is_u32; lia).
  inversion_clear Hbs as [|?? (_ & Hn & Hp) Hoks]. cbn [fb_payload] in *. rewrite blocks_rest_cons in Hrest, HNl. cbn [fb_payload] in Hrest, HNl.
  set (n := Z.of_nat (length (pl_bytes p))) in *. rewrite !length_app, length_le_bytes in HNl. fold n in HNl. change (Z.of_nat 4) with 4 in HNl.
  assert (blocks_data ({| fb_payload := p; fb_sum := ck |} :: bs) = pl_data p ++ blocks_data bs) as Ebd by done. rewrite Ebd in *. rewrite length_app in HTl.
  assert (0 <= pl_flag p <= 1) as Hfl by (destruct p; simpl; lia).
  apply arrived_app in Hrest as [Hraw Hrest]. apply arrived_bytes in Hraw; [|rewrite length_le_bytes; lia].
  destruct (raw_parts n (pl_flag p)) as [Hr1 Hr2]; [change (2 ^ 31) with 2147483648; lia|lia|].
  assert (Z.of_nat (length (blocks_rest bs)) >= 4 + Z.of_nat (length (fr_tail fr))) as Hbl by (unfold blocks_rest; rewrite !length_app, length_le_bytes; lia).
  rewrite (rd32_bytes m _ _ Hraw) in Hstep by (change (2 ^ 31) with 2147483648; lia). cbn [mbind option_bind] in Hstep.
  rewrite Hr1, Hr2 in Hstep. cbn [at_state pd_total pd_src pd_in pd_out pd_dst pd_room pd_ck pd_input pd_block pd_ctrl] in Hstep.
  rewrite (fc_total _ Hc), (fc_src _ Hc), (u32_small (pd_in c + 4 - src + n)), (proj2 (Z.ltb_ge srcn _)), (proj2 (Z.eqb_neq n 0)), (fc_dst _ Hc), (fc_room _ Hc) in Hstep
    by (unfold is_u32; lia).
  assert (∀ c', frame_ctx c' → pd_in c' = pd_in c + 4 → pd_input c' = pd_input c → pd_out c' = pd_out c →
    stands m c' (pre ++ le_bytes 4 (n + 2147483648 * pl_flag p)) (pl_bytes p ++ blocks_rest bs) data (pl_data p ++ blocks_data bs)) as Hs'.
  { intros c' Hc' E1 E2 E3. constructor; [done| | | | |done|done|done]; rewrite ?E1, ?E2, ?E3, ?length_app, ?length_le_bytes; try lia.
    rewrite HF, blocks_rest_cons. by rewrite <- app_assoc. }
  assert (∀ st b h, frame_ctx (with_ctrl (at_state c st (pd_in c + 4) (pd_out c) b) h)) as Hfc by (intros; destruct Hc; by constructor).
  assert (∀ st b, frame_ctx (at_state c st (pd_in c + 4) (pd_out c) b)) as Hfc2 by (intros; destruct Hc; by constructor).
  destruct p as [l|seqs last]; cbn [pl_flag pl_bytes pl_data] in *; cbn [Z.eqb negb] in Hstep.
  - rewrite Z.min_l, u32_small, (proj2 (Z.ltb_ge n n)) in Hstep by (unfold is_u32; lia).
    eapply (call_ok_keeps f m m c (at_state c LZ4_PART_BLOCK_CPY (pd_in c + 4) (pd_out c) n)); [cbn [part_again]; rewrite Hstep; reflexivity|done|by split|].
    eapply (copy_goes bs l); [exact IH|cbn [length] in Hf; lia|done|by apply Hs'|done|by split|done|lia].
  - destruct Hp as [Hp Hd0]. set (t := Z.of_nat (length (decode_block seqs last))) in *.
    unfold LZ4_part_decompress_init in Hstep. rewrite (proj2 (Z.eqb_neq (dst + dstn - pd_out c) 0)) in Hstep by lia. cbn [Z.ltb Z.compare] in Hstep.
    set (h := Ctrl (pd_in c + 4) (pd_out c) n (dst + dstn - pd_out c) LZ4_PART_PARSE_TOKEN 0 (pd_in c + 4) (pd_out c) 0) in *.
    eapply (call_ok_keeps f m m c (with_ctrl (at_state c LZ4_PART_DECOMP (pd_in c + 4) (pd_out c) n) h)); [cbn [part_again]; rewrite Hstep; reflexivity|done|by split|].
    eapply (decomp_goes bs seqs last (VToken [] seqs) 0 u); [exact IH|cbn [length] in Hf; lia|done|by apply Hs'|done|by split|lia| |done| |].
    + eapply block_start; [by apply Hs'|done|done| |]; cbn [with_ctrl at_state pd_in pd_out].
      { unfold LZ4_part_decompress_init. by rewrite (proj2 (Z.eqb_neq (dst + dstn - pd_out c) 0)) by lia. }
      { lia. }
    + cbn [with_ctrl at_state pd_input]. rewrite Hsz, length_app, length_le_bytes, Z.add_0_l. rewrite u32_idemp, u32_sub_l. f_equal. lia.
    + cbn [with_ctrl at_state pd_input]. rewrite length_app, length_le_bytes. intros E. exists 0. split; [lia|]. by rewrite E, Z.sub_diag.
Qed.

Lemma blocks_count bs : (2 * length bs + 4 + length (fr_tail fr) <= length (blocks_rest bs))%nat.
Proof.
  unfold blocks_rest. rewrite !length_app, length_le_bytes. assert (2 * length bs <= length (concat (enc_fblock false <$> bs)))%nat; [|lia].
  induction bs as [|b bs IH]; [done|]. rewrite fmap_cons. cbn [concat length]. rewrite length_app. unfold enc_fblock at 1.
  rewrite length_app, length_le_bytes. lia.
Qed.

Lemma stands_input m c pre rest data todo n :
  stands m c pre rest data todo → pd_input c <= n → stands m (with_input c n) pre rest data todo.
Proof. intros [[] ? ? ? ? ? ? ?] Hn. constructor; cbn [with_input pd_input]; try done; try lia; by constructor. Qed.

(** The blocks that are left fit the fuel. *)
Lemma stands_fuel m c pre l bs data todo : stands m c pre (l ++ blocks_rest bs) data todo → (2 * length bs + 3 <= S (S (S (Z.to_nat srcn))))%nat.
Proof.
  intros Hs. apply stands_length in Hs. rewrite length_app in Hs. pose proof (blocks_count bs) as Hb. lia.
Qed.

(** The header. *)
Lemma init_run (m : mem) c size f :
  pd_state c = LZ4_PART_INIT → frame_ctx c → pd_in c = src → pd_out c = dst → pd_input c = size → 7 + Z.of_nat (length (fr_size fr)) <= size → ready m c → mapped m dst (lim - dst) →
  (2 * length (fr_blocks fr) + 3 <= f)%nat → call_ok f m c size.
Proof.
  change (2 ^ 32) with 4294967296 in *. intros Hst Hc Hin Hout Hi H15 Hr Hmap Hf. pose proof Hr as [Ha H32]. change (2 ^ 32) with 4294967296 in H32.
  destruct f as [|f]; [lia|]. pose proof Hok as [Hv (Hz1 & Hz2 & Hz3) Hind Hsz Hbs Hlong].
  assert (part_again_step m c size = turn_init m c size) as Hstep.
  { rewrite step_eq by (rewrite ?Hst; done || (change (2 ^ 32) with 4294967296; lia) || apply Hc). rewrite Hst. by rewrite (proj2 (Z.eqb_neq (pd_in c) _)) by lia. }
  set (pre := le_bytes 4 LZ4F_MAGIC ++ [fr_flags fr; fr_bd fr] ++ fr_size fr ++ [fr_hc fr]).
  assert (F = pre ++ blocks_rest (fr_blocks fr)) as HF by (unfold F, enc_frame, pre, blocks_rest; rewrite Hck, <- !app_assoc; done).
  assert (Z.of_nat (length pre) = 7 + Z.of_nat (length (fr_size fr))) as Hpre
    by (unfold pre; rewrite !length_app, length_le_bytes; cbn [length]; lia).
  assert (Z.of_nat (length (fr_size fr)) = if negb (bits (fr_flags fr) 3 1 =? 0) then 8 else 0) as Hfs
    by (rewrite Hsz; by destruct (negb (bits (fr_flags fr) 3 1 =? 0))).
  assert (Z.of_nat (length (fr_size fr)) <= 8) as H8 by (rewrite Hfs; case_match; lia).
  assert (bytes_at m src pre) as Hb.
  { rewrite HF in Ha. apply arrived_app in Ha as [Ha _]. eapply arrived_bytes; [exact Ha|lia]. }
  unfold pre in Hb. apply bytes_at_app in Hb as [Hmag Hb]. rewrite length_le_bytes in Hb. apply bytes_at_app in Hb as [(Hfl & Hbd & _) _].
  change (Z.of_nat 4) with 4 in *. unfold turn_init in Hstep.
  rewrite Hin, (fc_total _ Hc), (rd32_bytes m src _ Hmag) in Hstep by (unfold LZ4F_MAGIC; change (2 ^ 32) with 4294967296; lia). cbn [mbind option_bind] in Hstep.
  rewrite Hfl in Hstep. cbn [mbind option_bind] in Hstep. replace (src + 4 + 1) with (src + 5) in Hbd by lia. rewrite Hbd in Hstep. cbn [mbind option_bind] in Hstep.
  unfold sizeof_frame_header in Hstep. rewrite (proj2 (Z.ltb_ge srcn _)), Z.eqb_refl, Hv, Hz1, Hz2, Hz3, Hind in Hstep by lia. cbn [negb orb Z.eqb] in Hstep.
  assert (bits (fr_flags fr) 4 1 = 0) as Hck0 by (unfold fr_ck in Hck; apply negb_false_iff, Z.eqb_eq in Hck; exact Hck).
  rewrite Hck0, <- Hfs in Hstep. replace (6 + Z.of_nat (length (fr_size fr)) + 1) with (Z.of_nat (length pre)) in Hstep by lia.
  eapply (call_ok_keeps f m m c _ _ _); [cbn [part_again]; rewrite Hstep; reflexivity|done|by split|].
  eapply (block_run (fr_blocks fr) f m _ _ pre [] 0); [lia|done| |done|by split|lia|].
  - constructor; cbn [pd_in pd_input pd_out length]; try done; try lia. destruct Hc; by constructor.
  - cbn [pd_input]. f_equal. lia.
Qed.

Lemma call_run (m : mem) c size :
  waiting m c → 0 <= size → (pd_state c = LZ4_PART_INIT → 7 + Z.of_nat (length (fr_size fr)) <= size) → arrived m src F (src + pd_input c + size) → src + pd_input c + size + 16 < 2 ^ 32 →
  0 <= pd_input c →
  ∃ m' c', lz4_part_decompress m c size = Some (m', c', 0) ∧ waiting m' c' ∧ pd_input c' = pd_input c + size ∧ keeps m m' dst lim.
Proof.
  change (2 ^ 32) with 4294967296 in *. intros Hw Hs0 Hi Ha H32 Hp0. unfold lz4_part_decompress. rewrite u32_small by (unfold is_u32; lia).
  set (c1 := with_input c (pd_input c + size)).
  assert (ready m c1) as Hr by (split; [unfold c1; cbn [with_input pd_input]; by rewrite Z.add_assoc|change (2 ^ 32) with 4294967296; unfold c1; cbn [with_input pd_input]; lia]).
  assert (∀ f, pd_total c = srcn → (f = S (S (S (Z.to_nat srcn))))%nat → call_ok f m c1 size → ∃ m' c', part_again (S (S (S (Z.to_nat (pd_total c))))) m c1 size = Some (m', c', 0) ∧ waiting m' c' ∧
    pd_input c' = pd_input c + size ∧ keeps m m' dst lim) as Hfin by (intros f -> -> Hc; exact Hc).
  unfold waiting in Hw. destruct (pd_state c) eqn:Hst; [| | | | |done|done].
  - destruct Hw as (Hc & Hin & Hout & Hi0 & Hmap). eapply Hfin; [apply Hc|done|].
    apply init_run; try done; [destruct Hc; by constructor|unfold c1; cbn [with_input pd_input]; lia|auto|].
    assert (F = (le_bytes 4 LZ4F_MAGIC ++ [fr_flags fr; fr_bd fr] ++ fr_size fr ++ [fr_hc fr]) ++ blocks_rest (fr_blocks fr)) as HF
      by (unfold F, enc_frame, blocks_rest; rewrite Hck, <- !app_assoc; done).
    pose proof (blocks_count (fr_blocks fr)). assert (N = Z.of_nat (length F)) as HN by done. rewrite HF, length_app in HN. lia.
  - destruct Hw as (pre & bs & data & Hs & Hbs & Hlt). eapply Hfin; [apply Hs|done|]. pose proof (st_have _ _ _ _ _ _ Hs) as Hh.
    eapply (block_run bs _ m c1 size pre data (pd_input c - Z.of_nat (length pre))); [|done|apply stands_input; [done|lia]|done|done|lia|].
    + pose proof (stands_fuel m c pre [] bs data _ Hs). lia.
    + unfold c1. cbn [with_input pd_input]. rewrite u32_small by (unfold is_u32; lia). lia.
  - destruct Hw as (pre & l & bs & data & Hs & Hbs & Hl & Hl0 & HA). eapply Hfin; [apply Hs|done|].
    eapply (copy_goes bs l); [apply block_run|by eapply stands_fuel|done|apply stands_input; [done|lia]|done|done|done|done].
  - destruct Hw as (pre & seqs & last & bs & data & v & u & Hs & Hbs & Ht & Hu & [Hd1 Hd2] & Hlt). eapply Hfin; [apply Hs|done|].
    pose proof (st_have _ _ _ _ _ _ Hs) as Hh.
    eapply (decomp_goes bs seqs last v _ u); [apply block_run|by eapply stands_fuel|done|apply stands_input; [exact Hs|lia]|done|done|done| |done| |].
    + constructor; [exact Hd1|exact Hd2].
    + unfold c1. cbn [with_input pd_input]. rewrite u32_add_l. f_equal. lia.
    + unfold c1. cbn [with_input pd_input]. intros E. exists u. split; [done|]. f_equal. lia.
  - assert (part_again (S (S (S (Z.to_nat (pd_total c))))) m c1 size = Some (m, c1, 0)) as ->.
    { cbn [part_again]. unfold part_again_step, c1. cbn [with_input pd_state]. by rewrite Hst. }
    exists m, c1. split; [done|]. split; [|by split]. unfold waiting, c1. cbn [with_input pd_state]. rewrite Hst.
    destruct Hw as ([] & ? & ? & ? & ? & ?). repeat split; try done. cbn [with_input pd_input]. lia.
Qed.

(** Waiting does not depend on the rest of memory. *)
Lemma stands_keeps m m' lo hi c pre rest data todo :
  keeps m m' lo hi → lim <= lo ∨ hi <= dst → stands m c pre rest data todo → stands m' c pre rest data todo.
Proof.
  intros Hk Hd Hs. pose proof (stands_todo _ _ _ _ _ _ Hs) as HTl. destruct Hs as [Hc HF Hin Hhave Hout Hdone Hmap Hdata]. constructor; try done.
  - eapply keeps_bytes; [exact Hk|exact Hdone|lia].
  - by apply Hk.
Qed.

Lemma waiting_keeps m m' lo hi c : keeps m m' lo hi → lim <= lo ∨ hi <= dst → waiting m c → waiting m' c.
Proof.
  intros Hk Hd. unfold waiting. destruct (pd_state c); [| | | | |done|done].
  - intros (? & ? & ? & ? & ?). do 4 (split; [done|]). by apply Hk.
  - intros (pre & bs & data & Hs & Hr). exists pre, bs, data. split; [by eapply stands_keeps|done].
  - intros (pre & l & bs & data & Hs & Hr). exists pre, l, bs, data. split; [by eapply stands_keeps|done].
  - intros (pre & seqs & last & bs & data & v & u & Hs & Hbs & Ht & Hu & [Hd1 [Hd2 Hd3]] & Hlt).
    exists pre, seqs, last, bs, data, v, u. split; [by eapply stands_keeps|]. do 3 (split; [done|]). split; [|done].
    constructor; [done|]. split; [|done]. destruct Hd2 as [Hv1 Hv2 Hv3 Hv4 Hv5 Hv6 Hv7]. constructor; try done; [|by apply Hk].
    pose proof (stands_todo _ _ _ _ _ _ Hs) as HTl. rewrite length_app in HTl. destruct Hs as [_ _ _ _ Hout _ _ _].
    pose proof (view_out_length _ _ _ Hv5) as Hvl. eapply keeps_bytes; [exact Hk|exact Hv4|]. lia.
  - intros (? & Hb & ? & ? & ? & ?). split; [done|]. split; [eapply keeps_bytes; [exact Hk|exact Hb|fold T; lia]|].
    do 2 (split; [done|]). split; [by apply Hk|done].
Qed.

Lemma waiting_ctx m c : waiting m c → frame_ctx c.
Proof.
  unfold waiting. destruct (pd_state c); [| | | | |done|done]; [by intros [? _]| | | |by intros [? _]].
  - by intros (? & ? & ? & [] & _).
  - by intros (? & ? & ? & ? & [] & _).
  - by intros (? & ? & ? & ? & ? & ? & ? & [] & _).
Qed.

Lemma feed_run pieces : ∀ (m : mem) c got,
  F = got ++ concat pieces → Forall is_byte_list pieces → pd_input c = Z.of_nat (length got) → waiting m c →
  (0 < Z.of_nat (length got) ∨ 7 + Z.of_nat (length (fr_size fr)) <= Z.of_nat (length (default [] (head pieces)))) → arrived m src F (src + pd_input c) →
  ∃ m' c', feed m c pieces = Some (m', c', 0) ∧ waiting m' c' ∧ pd_input c' = N ∧
    (∀ x, (x < dst ∨ lim <= x) → (x < src ∨ src + N <= x) → m' !! x = m !! x).
Proof.
  change (2 ^ 32) with 4294967296 in *.
  induction pieces as [|p ps IH]; intros m c got HF Hbs Hi Hw H15 Ha; cbn [feed].
  - exists m, c. cbn [concat] in HF. rewrite app_nil_r in HF. split; [done|]. split; [done|]. split; [by rewrite Hi, <- HF|done].
  - inversion_clear Hbs as [|?? Hp Hps]. cbn [concat] in HF. rewrite (fc_src _ (waiting_ctx m c Hw)), Hi. cbn [head default id] in H15.
    assert (N = Z.of_nat (length got) + Z.of_nat (length p) + Z.of_nat (length (concat ps))) as HN by (unfold N; rewrite HF, !length_app; lia).
    set (e := src + Z.of_nat (length got)) in *. pose proof (keeps_write m e p) as K1. set (m1 := write_bytes m e p) in *.
    assert (arrived m1 src F (src + pd_input c + Z.of_nat (length p))) as Ha1.
    { rewrite HF, Hi. apply arrived_write; [|done]. rewrite <- HF, <- Hi. exact Ha. }
    destruct (call_run m1 c (Z.of_nat (length p))) as (m2 & c2 & -> & Hw2 & Hi2 & Hk2).
    { eapply waiting_keeps; [exact K1|lia|exact Hw]. } { lia. }
    { intros E. unfold waiting in Hw. rewrite E in Hw. destruct Hw as (_ & _ & _ & E0 & _). lia. } { done. } { change (2 ^ 32) with 4294967296. lia. } { lia. }
    sbind. cbn [Z.ltb Z.compare].
    destruct (IH m2 c2 (got ++ p)) as (m' & c' & Hr & Hw' & Hi' & Ho'); try done.
    + by rewrite <- app_assoc.
    + rewrite length_app. lia.
    + rewrite length_app. lia.
    + rewrite Hi2, Z.add_assoc. eapply arrived_keeps; [exact Hk2|exact Ha1|]. fold N. lia.
    + exists m', c'. split; [done|]. split; [done|]. split; [done|]. intros x Hx1 Hx2. rewrite Ho' by done.
      destruct Hk2 as [Hk2 _]. rewrite Hk2 by done. destruct K1 as [K1 _]. apply K1. lia.
Qed.

End frame.

(** ** Theorems *)

(** Memory that can hold the bytes still to come. *)
Lemma arrived_blank (m : mem) a l lim : (∀ x, a <= x < a + Z.of_nat (length l) → ∃ b, m !! x = Some b ∧ is_u8 b ∧ b ≠ 255) → lim <= a → arrived m a l lim.
Proof.
  revert a. induction l as [|b l IH]; intros a Hm Hl; [done|]. cbn [length] in Hm. split; [|apply IH; [intros; apply Hm; lia|lia]].
  destruct (Hm a ltac:(lia)) as (b' & Hb & H8 & Hne). exists b'. split; [done|]. split; [done|by right].
Qed.

(** C9: a well-formed frame without block checksums that arrives in pieces is
    decoded piece by piece: if the first piece holds the frame's header, at
    least ten bytes follow the end mark, and the memory in which the frame
    arrives held no 255 before, then no call fails, however the frame is cut
    behind its header, the decoder finishes, and it leaves exactly the frame's
    data and its size, and all other memory as it was. *)
Theorem lz4_part_decodes (m : mem) fr pieces src srcn dst dstn room :
  let n := Z.of_nat (length (enc_frame fr)) in
  let total := Z.of_nat (length (frame_data fr)) in
  frame_ok fr → fr_ck fr = false → (10 <= length (fr_tail fr))%nat → concat pieces = enc_frame fr → Forall is_byte_list pieces →
  7 + Z.of_nat (length (fr_size fr)) <= Z.of_nat (length (default [] (head pieces))) → 15 <= srcn → n - Z.of_nat (length (fr_tail fr)) <= srcn < 2 ^ 31 →
  3 <= src → src + 257 * n + 16 < 2 ^ 32 → 0 <= dst → dst + dstn + 256 * n + 16 < 2 ^ 32 →
  total <= dstn → total <= room → Z.min dstn (total + 8) <= room → mapped m dst room → src + n <= dst ∨ dst + room <= src →
  (∀ x, src <= x < src + n → ∃ b, m !! x = Some b ∧ is_u8 b ∧ b ≠ 255) →
  ∃ m' c, feed m (lz4_part_dec_init src srcn dst dstn) pieces = Some (m', c, 0) ∧ is_lz4_part_dec_finish c = true ∧ pd_decompressed c = total ∧
    holds m' dst (frame_data fr) ∧ (∀ x, (x < dst ∨ dst + room <= x) → (x < src ∨ src + n <= x) → m' !! x = m !! x).
Proof.
  intros n total Hok Hck Htail Hcat Hbs H15 Hs15 Hsn Hs Hs32 Hd Hd32 Ht1 Ht2 Ht3 Hmap Hap Hblank.
  destruct (feed_run fr src srcn dst dstn (dst + room)) with (pieces := pieces) (m := m) (c := lz4_part_dec_init src srcn dst dstn) (got := @nil Z)
    as (m' & c & Hr & Hw & Hi & Ho); try done; try lia.
  - unfold waiting. cbn [lz4_part_dec_init pd_state pd_in pd_out pd_input]. split; [by constructor|]. do 3 (split; [done|]).
    by replace (dst + room - dst) with room by lia.
  - apply arrived_blank; [done|]. cbn [lz4_part_dec_init pd_input]. lia.
  - exists m', c. split; [done|]. pose proof (waiting_finished fr src srcn dst dstn (dst + room) Hok Htail m' c Hw ltac:(unfold n in *; lia)) as Hf.
    unfold is_lz4_part_dec_finish. rewrite Hf. split; [done|]. unfold waiting in Hw. rewrite Hf in Hw. destruct Hw as (_ & Hb & He & _).
    split; [done|]. split; [by apply bytes_at_load|]. intros x Hx1 Hx2. by apply Ho.
Qed.

Lemma filled_lookup a k b i : (i < k)%nat → mem_of a (replicate k b) !! (a + Z.of_nat i) = Some b.
Proof.
  intros Hi. assert (bytes_at (mem_of a (replicate k b)) a (replicate k b)) as Hm by (apply bytes_at_load, load_write_eq).
  rewrite (bytes_at_nth _ _ _ i Hm) by (by rewrite length_replicate). f_equal. rewrite nth_lookup, lookup_replicate_2 by done. done.
Qed.

(** Cut behind the header, in the middle of the first block's size and of a match. *)
Definition demo_part_frame : frame := Frame 0x60 0x40 [] 0x82 (fr_blocks demo_frame) (replicate 12 0).
Definition demo_pieces : list bytes :=
  let f := enc_frame demo_part_frame in [take 7 f; take 2 (drop 7 f); take 9 (drop 9 f); take 1 (drop 18 f); take 7 (drop 19 f); drop 26 f].

Lemma lz4_part_decodes_witness :
  let m := mem_of 0x1000 (replicate 200 7) in
  ∃ m' c, feed m (lz4_part_dec_init 0x1000 46 0x1080 64) demo_pieces = Some (m', c, 0) ∧ is_lz4_part_dec_finish c = true ∧ pd_decompressed c = 18 ∧
    holds m' 0x1080 [1; 2; 3; 1; 2; 3; 1; 2; 3; 1; 4; 5; 6; 7; 8; 9; 8; 7].
Proof.
  intros m. destruct (lz4_part_decodes m demo_part_frame demo_pieces 0x1000 46 0x1080 64 32) as (m' & c & Hr & Hf & Hd & Hh & _).
  - constructor; [reflexivity|repeat split; reflexivity|reflexivity|reflexivity|exact (fo_blocks _ demo_frame_ok)|vm_compute; lia].
  - reflexivity.
  - vm_compute. lia.
  - reflexivity.
  - apply (bool_decide_unpack _). vm_compute. exact I.
  - vm_compute. discriminate.
  - lia.
  - vm_compute. split; [discriminate|reflexivity].
  - lia.
  - vm_compute. reflexivity.
  - lia.
  - vm_compute. reflexivity.
  - vm_compute. discriminate.
  - vm_compute. discriminate.
  - vm_compute. discriminate.
  - apply mappedb_spec. vm_compute. reflexivity.
  - left. vm_compute. discriminate.
  - change (Z.of_nat (length (enc_frame demo_part_frame))) with 46. intros x Hx.
    exists 7. split; [|unfold is_u8; lia].
    replace x with (0x1000 + Z.of_nat (Z.to_nat (x - 0x1000))) by lia. apply filled_lookup. lia.
  - exists m', c. split; [exact Hr|]. split; [exact Hf|]. split; [exact Hd|exact Hh].
Defined.

(** The pieces of [l], cut after the given numbers of bytes. *)
Fixpoint cut_at (cuts : list nat) (l : bytes) : list bytes :=
  match cuts with [] => [l] | n :: cuts' => take n l :: cut_at cuts' (drop n l) end.

(** A frame with a match of 280 bytes, cut in the middle of its length. *)
Definition long_match_frame : frame :=
  Frame 0x60 0x40 [] 0x82 [FBlock (Packed [Seq [1; 2; 3; 1; 2; 3; 1; 2; 3; 1; 2; 3] 3 280] [4; 5; 6; 7; 8; 9; 1; 2; 3; 4; 5; 6]) [0; 0; 0; 0]] (replicate 12 0).

Definition feed_into (fill : Z) (fr : frame) (cuts : list nat) : option (mem * part_ctx * Z) :=
  feed (mem_of 0x1000 (replicate 600 fill)) (lz4_part_dec_init 0x1000 (Z.of_nat (length (enc_frame fr))) 0x1080 400) (cut_at cuts (enc_frame fr)).

(** The same pieces of a well-formed frame are decoded, or refused as damaged,
    depending on what the memory holds before they arrive: the end of a match
    length is looked for in bytes that were not read yet, and a run of 255 up to
    the end of the block is an error. *)
Theorem unread_bytes_decide :
  frame_ok long_match_frame ∧ snd <$> feed_into 7 long_match_frame [27%nat] = Some 0 ∧
  snd <$> feed_into 255 long_match_frame [27%nat] = Some LZ4_RET_BLK_PART_DEC_FAILED.
Proof.
  split; [|by split; vm_compute]. constructor; [reflexivity|repeat split; reflexivity|reflexivity|reflexivity| |vm_compute; lia].
  constructor; [|constructor]. split; [reflexivity|]. split; [vm_compute; split; reflexivity|]. split; [|vm_compute; lia].
  split; [|right; vm_compute; lia]. cbn [seqs_ok]. vm_compute. repeat split; try discriminate. lia.
Qed.

(** Two blocks with checksums. *)
Definition checked_frame : frame :=
  Frame 0x70 0x40 [] 0x82
    [FBlock (Packed [Seq [1; 2; 3] 3 8] [4; 5; 6; 7; 8; 9; 10; 11; 12; 13; 14; 15; 16]) [0; 0; 0; 0];
     FBlock (Packed [Seq [11; 12; 13; 14; 15; 16; 17; 18; 19; 20; 21; 22; 23] 3 8] [4; 5; 6; 7; 8]) [0; 0; 0; 0]] (replicate 12 0).

(** A frame with block checksums, cut inside the first of them: the checksum is
    skipped before it is there and not counted when it comes, so the decoder
    runs ahead of its input, and the kernel it reports as complete is not the
    frame's data. *)
Theorem split_checksum_corrupts :
  frame_ok checked_frame ∧
  ∃ m' c, feed_into 7 checked_frame [32%nat; 19%nat] = Some (m', c, 0) ∧ is_lz4_part_dec_finish c = true ∧
    pd_decompressed c = Z.of_nat (length (frame_data checked_frame)) ∧ ¬ holds m' 0x1080 (frame_data checked_frame).
Proof.
  split.
  - constructor; [reflexivity|repeat split; reflexivity|reflexivity|reflexivity| |vm_compute; lia].
    constructor; [|constructor; [|constructor]]; (split; [reflexivity|]); (split; [vm_compute; split; reflexivity|]); (split; [|vm_compute; lia]);
      (split; [|right; vm_compute; lia]); cbn [seqs_ok]; vm_compute; repeat split; try discriminate; lia.
  - assert (match feed_into 7 checked_frame [32%nat; 19%nat] with
      | Some (m, c, r) => r = 0 ∧ is_lz4_part_dec_finish c = true ∧ pd_decompressed c = Z.of_nat (length (frame_data checked_frame)) ∧
          bool_decide (load_n (length (frame_data checked_frame)) m 0x1080 = Some (frame_data checked_frame)) = false
      | None => False
      end) as H by (vm_compute; by repeat split).
    destruct (feed_into 7 checked_frame [32%nat; 19%nat]) as [[[m c] r]|]; [|done]. destruct H as (-> & Hf & Hd & Hh).
    exists m, c. split; [done|]. split; [done|]. split; [done|]. by apply bool_decide_eq_false in Hh.
Qed.
