(* ===== verification/KernelImage.v ===== *)
(** * Starting a kernel from boot0 (spl/common/linux_loader.c, solution/solution_common/sunxi_bootimage.c, common/flash_loader.c)

    The fast-boot variants of boot0 load a kernel themselves.  [load_bimage]
    reads an Android boot image, whose header it goes on reading from the
    memory it was loaded to, and from it places the device tree, the kernel
    (copied or decompressed) and the ramdisk; [load_uimage] reads an image of
    fixed size.  [load_kernel_from_flash] finds the image, at fixed sectors with
    an optional second copy or in the partition that the environment names, and
    [load_and_run_kernel] jumps.  [early_fastboot_load_dtb] and
    [load_isp_param] load other partitions the same way.

    The reading function is an argument, as in the code; LZ4 is the decoder of
    [Lz4], the other decompressors are the class of [LoadImage], the device-tree
    library's [fdt_initrd] is the class [fdt_lib].  Modelled are the builds without [CFG_KERNEL_CHECKSUM],
    which does not compile, with decompression after reading, and without the
    options that record times or flags in RTC registers. *)

From S2P Require Import Prelude Mem CString Checksum Heap Gpt Env BootImage BootPkg BootParam LoadImage Lz4 Boot0.

Local Open Scope Z_scope.
Local Open Scope c_scope.

(** ** Data *)

(** [struct andr_img_hdr] *)
Definition ANDR_BOOT_MAGIC : bytes := [0x41; 0x4e; 0x44; 0x52; 0x4f; 0x49; 0x44; 0x21].
Definition off_kernel_size : nat := 8.
Definition off_kernel_addr : nat := 12.
Definition off_ramdisk_size : nat := 16.
Definition off_ramdisk_addr : nat := 20.
Definition off_second_size : nat := 24.
Definition off_page_size : nat := 36.
Definition off_recovery_dtbo_size : nat := 1632.
Definition off_dtb_size : nat := 1648.
Definition sizeof_andr_img_hdr : nat := 1660.

Definition SUNXI_FLASH_READ_FIRST_SIZE : Z := 4 * 1024.
Definition KERNEL_CODE_OFFSET_IN_BIMAGE : Z := 0x800.
Definition KERNEL_CODE_OFFSET_IN_UIMAGE : Z := 0x40.
Definition GZIP_MAGIC : Z := 0x8b1f.
Definition LZ4_MAGIC : Z := 0x184d2204.
Definition LZMA_MAGIC : Z := 0x005d.

(** Build options beside those of [image_build]; [CFG_RAMDISK_ADDR] is [None]
    without [CFG_SUNXI_SUPPORT_RAMDISK]. *)
Class kernel_build := KernelBuild {
  CFG_KERNEL_LOAD_ADDR : Z;
  CFG_RAMDISK_ADDR : option Z;
  CFG_EARLY_FASTBOOT : bool;
  CFG_SUNXI_NO_UPDATE_FDT_CHOSEN : bool;
  CFG_SUNXI_LOGIC_OFFSET : Z
}.

(** [fdt_initrd(fdt, start, end)] of fdt_support.c, over libfdt. *)
Class fdt_lib := FdtLib { fdt_initrd : mem → Z → Z → Z → option (mem * Z) }.

(** A reading function: start sector, number of sectors, buffer. *)
Definition reader : Type := mem → Z → Z → Z → option (mem * Z).

(** The messages that ask to check the memory layout. *)
Inductive warning := WARN_KERNEL | WARN_RAMDISK.

(** The result of a loader: memory, the value stored through [kernel_addr] if
    any, the warnings printed and the return code. *)
Record loaded := Loaded { ld_mem : mem; ld_kernel : option Z; ld_warn : list warning; ld_ret : Z }.

(** ** linux_loader.c *)

(** On [u32] operands. *)
Definition ALIGN (x a : Z) : Z := Z.land (x ⊞ (a ⊟ 1)) (u32 (Z.lnot (a ⊟ 1))).

(** A field of the header at [hdr]. *)
Definition field (m : mem) (hdr : Z) (off : nat) : option Z := rd32 m (hdr + Z.of_nat off).

(** Both return -1, and leave the caller's variables, when the image has no
    such part. *)
Definition android_image_get_ramdisk (m : mem) (hdr : Z) : option (option (Z * Z)) :=
  rs ← field m hdr off_ramdisk_size;
  if rs =? 0 then Some None
  else
    page ← field m hdr off_page_size;
    ks ← field m hdr off_kernel_size;
    Some (Some (hdr ⊞ page ⊞ ALIGN ks page, rs)).

Definition android_image_get_dtb (m : mem) (hdr : Z) : option (option (Z * Z)) :=
  ds ← field m hdr off_dtb_size;
  if ds =? 0 then Some None
  else
    page ← field m hdr off_page_size;
    ks ← field m hdr off_kernel_size;
    rs ← field m hdr off_ramdisk_size;
    ss ← field m hdr off_second_size;
    os ← field m hdr off_recovery_dtbo_size;
    Some (Some (hdr ⊞ page ⊞ ALIGN ks page ⊞ ALIGN rs page ⊞ ALIGN ss page ⊞ ALIGN os page, ds)).

Definition sunxi_mem_info (mem_addr mem_len other_mem_addr other_mem_len : Z) : Z :=
  if (other_mem_addr <=? mem_addr) && (mem_addr <? other_mem_addr ⊞ other_mem_len) then -1
  else if (mem_addr <? other_mem_addr) && (other_mem_addr <=? mem_addr ⊞ mem_len) then -1
  else if (mem_addr <? other_mem_addr) && (other_mem_addr ⊞ other_mem_len <=? mem_addr ⊞ mem_len) then -1
  else 0.

Section loader.
Context `{I : image_build} `{K : kernel_build} `{D : decompressors} `{T : fdt_lib}.

(** The codec whose branch the build has. *)
Definition kernel_codec : option codec :=
  if CFG_SUNXI_GUNZIP then Some GZ
  else if CFG_SUNXI_LZ4 then Some LZ4
  else if CFG_SUNXI_LZMA then Some LZMA
  else None.

(** The first word of the kernel announces the codec. *)
Definition packed_by (c : codec) (w : Z) : bool :=
  match c with
  | GZ => Z.land w 0xffff =? GZIP_MAGIC
  | LZ4 => w =? LZ4_MAGIC
  | LZMA => w =? LZMA_MAGIC
  end.

(** [size] is the header's, read before the call. *)
Definition unpack_kernel (c : codec) (m : mem) (dst src size : Z) : option (mem * Z) :=
  '(m, _, ret) ←
    match c with
    | GZ => gunzip m dst (u32 (size * 3)) src size
    | LZ4 => Lz4.ulz4fn m dst 0xa00000 src size
    | LZMA => lzmaBuffToBuffDecompress m dst 0xFFFFFFFF src size
    end;
  Some (m, ret).

(** The device tree is read from flash again, in whole sectors, and its size
    field raised to the reserved size. *)
Definition load_dtb (flash_read : reader) (m : mem) (from_flash hdr : Z) : option (mem * Z) :=
  if CFG_EARLY_FASTBOOT || negb CFG_LOAD_DTB_FROM_KERNEL then Some (m, 0)
  else
    fdt ← CFG_SUNXI_FDT_ADDR;
    dtb ← android_image_get_dtb m hdr;
    match dtb with
    | None => Some (m, 0)
    | Some (dtb_data, dtb_size) =>
        '(m, ret) ← flash_read m (from_flash ⊞ (dtb_data ⊟ hdr) / 512) (ALIGN dtb_size 512 / 512) fdt;
        if negb (ret =? 0) then Some (m, -1)
        else m ← reserve_fdt m fdt; Some (m, 0)
    end.

(** [load_bimage]'s step from the image to [kernel_addr]; the warnings are
    those printed before, with what this step adds. *)
Definition move_kernel (m : mem) (to_ddr rbytes : Z) : option (mem * list warning * Z) :=
  ka ← field m to_ddr off_kernel_addr;
  let code := to_ddr ⊞ KERNEL_CODE_OFFSET_IN_BIMAGE in
  if ka =? code then Some (m, [], 0)
  else
    ks ← field m to_ddr off_kernel_size;
    let w := if sunxi_mem_info to_ddr rbytes ka ks <? 0 then [WARN_KERNEL] else [] in
    packed ← match kernel_codec with
             | Some c => v ← rd32 m code; Some (if packed_by c v then Some c else None)
             | None => Some None
             end;
    match packed with
    | Some c =>
        '(m, ret) ← unpack_kernel c m ka code ks;
        Some (m, w, if negb (ret =? 0) then -1 else 0)
    | None => m ← memcpy m ka code ks; Some (m, w, 0)
    end.

(** The address goes into the header in memory, and from there on. *)
Definition move_ramdisk (m : mem) (to_ddr rbytes : Z) : option (mem * list warning * Z) :=
  match CFG_RAMDISK_ADDR with
  | None => Some (m, [], 0)
  | Some addr =>
      m ← wr32 m (to_ddr + Z.of_nat off_ramdisk_addr) addr;
      rd ← android_image_get_ramdisk m to_ddr;
      match rd with
      | None => Some (m, [], 0)
      | Some (rd_data, rd_len) =>
          ra ← field m to_ddr off_ramdisk_addr;
          let w := if sunxi_mem_info to_ddr rbytes ra rd_len <? 0 then [WARN_RAMDISK] else [] in
          m ← memcpy m ra rd_data rd_len;
          fdt ← CFG_SUNXI_FDT_ADDR;
          ra ← field m to_ddr off_ramdisk_addr;
          '(m, ret) ← fdt_initrd m fdt ra (ra ⊞ rd_len);
          Some (m, w, if negb (ret =? 0) then -1 else 0)
      end
  end.

(** [load_bimage] from the complete image on. *)
Definition place_bimage (flash_read : reader) (m : mem) (from_flash to_ddr rbytes : Z) : option loaded :=
  '(m, r) ← load_dtb flash_read m from_flash to_ddr;
  if negb (r =? 0) then Some (Loaded m None [] (-1))
  else
    '(m, w1, r) ← move_kernel m to_ddr rbytes;
    if negb (r =? 0) then Some (Loaded m None w1 (-1))
    else
      '(m, w2, r) ← move_ramdisk m to_ddr rbytes;
      if negb (r =? 0) then Some (Loaded m None (w1 ++ w2) (-1))
      else ka ← field m to_ddr off_kernel_addr; Some (Loaded m (Some ka) (w1 ++ w2) 0).

Definition load_bimage (flash_read : reader) (m : mem) (from_flash to_ddr : Z) : option loaded :=
  '(m, r) ← flash_read m from_flash (SUNXI_FLASH_READ_FIRST_SIZE / 512) to_ddr;
  if negb (r =? 0) then Some (Loaded m None [] (-1))
  else
    magic ← load_n 8 m to_ddr;
    c ← memcmp magic ANDR_BOOT_MAGIC 8;
    if negb (c =? 0) then Some (Loaded m None [] (-1))
    else
      ks ← field m to_ddr off_kernel_size;
      rs ← field m to_ddr off_ramdisk_size;
      ss ← field m to_ddr off_second_size;
      let rbytes := ks ⊞ rs ⊞ ss ⊞ 4 * 1024 ⊞ 511 in
      let rblock := rbytes / 512 ⊟ SUNXI_FLASH_READ_FIRST_SIZE / 512 in
      '(m, r) ← flash_read m (from_flash ⊞ SUNXI_FLASH_READ_FIRST_SIZE / 512) rblock (to_ddr ⊞ SUNXI_FLASH_READ_FIRST_SIZE);
      if negb (r =? 0) then Some (Loaded m None [] (-1))
      else place_bimage flash_read m from_flash to_ddr rbytes.

Definition load_uimage (flash_read : reader) (m : mem) (from_flash to_ddr image_size_KB : Z) : option loaded :=
  let rbytes := u32 (image_size_KB * 1024) in
  '(m, r) ← flash_read m from_flash (SUNXI_FLASH_READ_FIRST_SIZE / 512) to_ddr;
  if negb (r =? 0) then Some (Loaded m None [] (-1))
  else
    let rblock := rbytes / 512 ⊟ SUNXI_FLASH_READ_FIRST_SIZE / 512 in
    '(m, r) ← flash_read m (from_flash ⊞ SUNXI_FLASH_READ_FIRST_SIZE / 512) rblock (to_ddr ⊞ SUNXI_FLASH_READ_FIRST_SIZE);
    Some (Loaded m (Some (to_ddr ⊞ KERNEL_CODE_OFFSET_IN_UIMAGE)) [] (if r =? 0 then 0 else -1)).

End loader.

(** ** sunxi_bootimage.c *)

(** [nos_base] of [struct spare_monitor_head]. *)
Definition off_nos_base : Z := 20.

(** A kernel at fixed sectors: no second copy, a second copy that the switch
    flag may choose (SPI NOR), or one tried after a failure (SPI NAND). *)
Inductive backup_build := NO_BACKUP | NOR_BACKUP (sector : Z) (get_switch_kernel_flag : Z) | NAND_BACKUP (sector : Z).

(** Where [load_and_run_kernel] ends: its return, [boot0_jmp_opensbi_v1x(0, ...)],
    waiting for interrupts, [boot0_jmp_monitor], [optee_jump_kernel], or
    [boot0_jump_kernel]. *)
Inductive kernel_target :=
  KReturn | KOpensbi (dtb opensbi kernel : Z) | KWait | KMonitor (monitor : Z) | KOptee (optee dtb kernel : Z) | KKernel (dtb kernel : Z).

#[global] Instance kernel_target_eq_dec : EqDecision kernel_target.
Proof. solve_decision. Defined.

(** The string at [p] with its terminator; no string is longer than memory. *)
Definition c_string (m : mem) (p : Z) : option bytes := cstr_at (S (size m)) m p.

(** Addresses of the local [kernel_start] and of [rootfs_name]. *)
Class kernel_vars := KernelVars { kernel_start : Z; rootfs_name : Z }.

Section from_flash.
Context `{L : heap_layout} `{F : storage} `{V : env_vars} `{O : env_config} `{B : boot0_build}.
Context `{I : image_build} `{K : kernel_build} `{D : decompressors} `{T : fdt_lib} `{W : kernel_vars}.

(** The build with fixed sectors. *)
Definition load_kernel_fixed (flash_read : reader) (m : mem) (start : Z) (b : backup_build) : option loaded :=
  match b with
  | NO_BACKUP => load_bimage flash_read m start CFG_KERNEL_LOAD_ADDR
  | NOR_BACKUP backup flag =>
      if flag =? 0 then load_bimage flash_read m backup CFG_KERNEL_LOAD_ADDR
      else
        l ← load_bimage flash_read m start CFG_KERNEL_LOAD_ADDR;
        if ld_ret l <? 0 then load_bimage flash_read (ld_mem l) backup CFG_KERNEL_LOAD_ADDR else Some l
  | NAND_BACKUP backup =>
      l ← load_bimage flash_read m start CFG_KERNEL_LOAD_ADDR;
      if ld_ret l <? 0 then load_bimage flash_read (ld_mem l) backup CFG_KERNEL_LOAD_ADDR else Some l
  end.

Definition gpt_env_init (g : gpt_state) (e : env_state) (m : mem) : option (mem * gpt_state * env_state * Z) :=
  '(m, g, r) ← init_gpt g m;
  if negb (r =? 0) then Some (m, g, e, -1)
  else
    '(m, e, r) ← fw_env_open g e m;
    if r =? -1 then Some (m, g, e, -1) else Some (m, g, e, 0).

(** The name is copied without its terminator and without a length check. *)
Definition save_rootfs_name (e : env_state) (m : mem) : option mem :=
  if CFG_SUNXI_NO_UPDATE_FDT_CHOSEN then Some m
  else
    tmp_name ← fw_getenv e m (cstr "root_partition");
    s ← c_string m tmp_name;
    memcpy m rootfs_name tmp_name (Z.of_nat (length s - 1)).

(** The build with environment. *)
Definition load_kernel_from_flash (flash_read : reader) (g : gpt_state) (e : env_state) (m : mem) :
    option (gpt_state * env_state * loaded) :=
  m ← wr32 m kernel_start 0;
  '(m, g, e, ret) ← (if CFG_EARLY_FASTBOOT then Some (m, g, e, -1) else gpt_env_init g e m);
  if negb CFG_EARLY_FASTBOOT && negb (ret =? 0) then Some (g, e, Loaded m None [] ret)
  else
    m ← save_rootfs_name e m;
    kernel_name ← fw_getenv e m (cstr "boot_partition");
    if kernel_name =? 0 then Some (g, e, Loaded m None [] ret)
    else
      name ← c_string m kernel_name;
      '(m, r) ← get_part_info_by_name g m name kernel_start 0;
      if negb (r =? 0) then Some (g, e, Loaded m None [] ret)
      else
        '(m, e, _) ← fw_env_close e m;
        start ← rd32 m kernel_start;
        l ← load_bimage flash_read m (start ⊞ CFG_SUNXI_LOGIC_OFFSET) CFG_KERNEL_LOAD_ADDR;
        Some (g, e, l).

(** After either loader: [stack] is what the local [kernel_addr] holds before,
    [update_fdt] is [sunxi_update_fdt_para_for_kernel], where the build has
    it. *)
Definition run_kernel (update_fdt : mem → option mem) (l : loaded) (stack optee_base opensbi_base monitor_base : Z) :
    option (mem * kernel_target) :=
  if negb (ld_ret l =? 0) then Some (ld_mem l, KReturn)
  else
    let kernel_addr := default stack (ld_kernel l) in
    m ← update_fdt (ld_mem l);
    fdt ← CFG_SUNXI_FDT_ADDR;
    if CFG_ARCH_RISCV then
      Some (m, if negb (opensbi_base =? 0) then KOpensbi fdt opensbi_base kernel_addr else KWait)
    else if negb (monitor_base =? 0) then
      m ← wr32 m (monitor_base + off_secureos_base) optee_base;
      m ← wr32 m (monitor_base + off_nos_base) kernel_addr;
      Some (m, KMonitor monitor_base)
    else if negb (optee_base =? 0) then Some (m, KOptee optee_base fdt kernel_addr)
    else Some (m, KKernel fdt kernel_addr).

Definition load_and_run_kernel (flash_read : reader) (update_fdt : mem → option mem) (g : gpt_state) (e : env_state) (m : mem)
    (stack optee_base opensbi_base monitor_base : Z) : option (mem * kernel_target) :=
  '(_, _, l) ← load_kernel_from_flash flash_read g e m;
  run_kernel update_fdt l stack optee_base opensbi_base monitor_base.

(** The device tree alone, before the kernel. *)
Definition EARLY_READ_FIRST_SIZE : Z := 32 * 1024.

Definition early_fastboot_load_dtb (g : gpt_state) (e : env_state) (m : mem) : option (mem * Z) :=
  m ← wr32 m kernel_start 0;
  kernel_name ← fw_getenv e m (cstr "boot_partition");
  if kernel_name =? 0 then Some (m, -1)
  else
    name ← c_string m kernel_name;
    '(m, r) ← get_part_info_by_name g m name kernel_start 0;
    if negb (r =? 0) then Some (m, -1)
    else
      start ← rd32 m kernel_start;
      '(m, r) ← flash_read_to m start (EARLY_READ_FIRST_SIZE / 512) CFG_KERNEL_LOAD_ADDR;
      if negb (r =? 0) then Some (m, -1)
      else if negb CFG_LOAD_DTB_FROM_KERNEL then Some (m, 0)
      else
        fdt ← CFG_SUNXI_FDT_ADDR;
        dtb ← android_image_get_dtb m CFG_KERNEL_LOAD_ADDR;
        match dtb with
        | None => Some (m, 0)
        | Some (dtb_data, dtb_size) =>
            start ← rd32 m kernel_start;
            '(m, ret) ← flash_read_to m (start ⊞ (dtb_data ⊟ CFG_KERNEL_LOAD_ADDR) / 512) (ALIGN dtb_size 512 / 512) fdt;
            if negb (ret =? 0) then Some (m, ret)
            else m ← reserve_fdt m fdt; Some (m, 0)
        end.

(** ** flash_loader.c *)

(** The build that finds the parameters by partition; the reader passed in is
    not used.  [iq] is the second file (sectors, address) where the build has
    it; [start_sector] and [sector_num] are the locals' addresses. *)
Definition isp_part (name : string) (g : gpt_state) (m : mem) (size addr start_sector sector_num : Z) :
    option (mem * gpt_state * option Z) :=
  '(m, g, r) ← init_gpt g m;
  if negb (r =? 0) then Some (m, g, None)
  else
    '(m, r) ← get_part_info_by_name g m (cstr name) start_sector sector_num;
    if negb (r =? 0) then Some (m, g, None)
    else
      start ← rd32 m start_sector;
      '(m, r) ← flash_read_to m start size addr;
      Some (m, g, Some r).

Definition load_isp_param (g : gpt_state) (m : mem) (size addr start_sector sector_num : Z) (iq : option (Z * Z)) :
    option (mem * gpt_state * Z) :=
  '(m, g, r) ← isp_part "isp_param" g m size addr start_sector sector_num;
  match r, iq with
  | None, _ => Some (m, g, -1)
  | Some r, None => Some (m, g, r)
  | Some _, Some (iq_size, iq_addr) =>
      '(m, g, r) ← isp_part "isp_iq_bin" g m iq_size iq_addr start_sector sector_num;
      Some (m, g, default (-1) r)
  end.

(** The build with a fixed offset, in bytes. *)
Definition load_isp_param_fixed (flash_read : reader) (m : mem) (offset size addr : Z) : option (mem * Z) :=
  flash_read m (offset / 512) (size / 512) addr.

End from_flash.

(** ** Arithmetic *)

Lemma mask_u32 k y : 0 <= k <= 32 → is_u32 y → Z.land y (u32 (Z.lnot (2 ^ k - 1))) = 2 ^ k * (y / 2 ^ k).
Proof.
  intros Hk Hy. assert (Z.land y (u32 (Z.lnot (2 ^ k - 1))) = Z.ldiff y (Z.ones k)) as ->.
  { apply Z.bits_inj'. intros n Hn. rewrite Z.ones_equiv, <- Z.sub_1_r, Z.land_spec, Z.ldiff_spec.
    unfold u32. change 4294967296 with (2 ^ 32).
    destruct (Z.ltb_spec n 32); [by rewrite Z.mod_pow2_bits_low, Z.lnot_spec by lia|].
    by rewrite (testbit_above y 32 n) by (unfold is_u32 in Hy; lia). }
  rewrite Z.ldiff_ones_r, Z.shiftl_mul_pow2, Z.shiftr_div_pow2 by lia. lia.
Qed.

Lemma ALIGN_spec k x : 0 <= k < 32 → 0 <= x → x + 2 ^ k - 1 < 2 ^ 32 → ALIGN x (2 ^ k) = 2 ^ k * ((x + 2 ^ k - 1) / 2 ^ k).
Proof.
  intros Hk Hx Hs. unfold ALIGN. assert (0 < 2 ^ k) by (apply Z.pow_pos_nonneg; lia).
  assert (2 ^ k < 2 ^ 32) by (apply Z.pow_lt_mono_r; lia). change (2 ^ 32) with 4294967296 in *.
  rewrite (u32_small (2 ^ k - 1)), Z.add_sub_assoc, (u32_small (x + 2 ^ k - 1)), mask_u32 by (unfold is_u32; lia). done.
Qed.

Lemma ALIGN_2048 x : 0 <= x → x + 2047 < 2 ^ 32 → ALIGN x 2048 = 2048 * ((x + 2047) / 2048).
Proof. intros. change 2048 with (2 ^ 11) at 1. rewrite ALIGN_spec by lia. do 2 f_equal; lia. Qed.

Lemma ALIGN_512 x : 0 <= x → x + 511 < 2 ^ 32 → ALIGN x 512 = 512 * ((x + 511) / 512).
Proof. intros. change 512 with (2 ^ 9) at 1. rewrite ALIGN_spec by lia. do 2 f_equal; lia. Qed.

(** [sunxi_mem_info] on ranges that end below 4 GiB. *)
Lemma mem_info_run a n b k :
  0 <= a → 0 <= n → 0 <= b → 0 <= k → a + n < 2 ^ 32 → b + k < 2 ^ 32 →
  sunxi_mem_info a n b k = if decide (a + n < b ∨ b + k <= a) then 0 else -1.
Proof.
  change (2 ^ 32) with 4294967296. intros. unfold sunxi_mem_info. rewrite !u32_small by (unfold is_u32; lia).
  destruct (Z.leb_spec b a), (Z.ltb_spec a (b + k)), (Z.ltb_spec a b), (Z.leb_spec b (a + n)), (Z.leb_spec (b + k) (a + n));
    cbn [andb]; case_decide; lia.
Qed.

(** ** Parts of an image *)

(** [n] bytes from [off], and a little-endian word. *)
Definition cut (off n : Z) (l : bytes) : bytes := take (Z.to_nat n) (drop (Z.to_nat off) l).
Definition hf (l : bytes) (off : nat) : Z := le_val (take 4 (drop off l)).

(** [m'] is [m] with [bs] at [a], changed within [n] bytes only. *)
Definition placed (m m' : mem) (a : Z) (bs : bytes) (n : Z) : Prop :=
  holds m' a bs ∧ (∀ x, x < a ∨ a + n <= x → m' !! x = m !! x) ∧ (∀ b k, mapped m b k → mapped m' b k).

Lemma length_cut off n l : 0 <= off → 0 <= n → off + n <= Z.of_nat (length l) → Z.of_nat (length (cut off n l)) = n.
Proof. intros. unfold cut. rewrite length_take, length_drop. lia. Qed.

Lemma cut_app off n k l : 0 <= off → 0 <= n → 0 <= k → cut off (n + k) l = cut off n l ++ cut (off + n) k l.
Proof.
  intros. unfold cut. rewrite !Z2Nat.inj_add by lia. rewrite <- drop_drop. symmetry. apply take_take_drop.
Qed.

Lemma cut_cut off n o k l : 0 <= off → 0 <= o → 0 <= k → o + k <= n → cut o k (cut off n l) = cut (off + o) k l.
Proof.
  intros. unfold cut. rewrite skipn_firstn_comm, take_take, drop_drop, Nat.min_l by lia. do 2 f_equal. lia.
Qed.

Lemma hf_cut n l off : Z.of_nat off + 4 <= n → hf (cut 0 n l) off = hf l off.
Proof.
  intros. unfold hf, cut. rewrite drop_0, skipn_firstn_comm, take_take, Nat.min_l by lia. done.
Qed.

Lemma hf_bound l off : is_byte_list l → is_u32 (hf l off).
Proof.
  intros H. unfold hf, is_u32. pose proof (le_val_bound (take 4 (drop off l)) ltac:(by apply Forall_take, Forall_drop)) as Hb.
  assert (256 ^ Z.of_nat (length (take 4 (drop off l))) <= 256 ^ 4) by (apply Z.pow_le_mono_r; rewrite ?length_take; lia).
  change (256 ^ 4) with 4294967296 in *. lia.
Qed.

Lemma holds_field m a bs off : holds m a bs → (off + 4 <= length bs)%nat → field m a off = Some (hf bs off).
Proof. intros H Hl. unfold field, rd32, hf. by rewrite (load_n_sub _ _ _ _ _ _ H Hl). Qed.

Lemma holds_cut m a bs o n : holds m a bs → 0 <= o → 0 <= n → o + n <= Z.of_nat (length bs) → holds m (a + o) (cut o n bs).
Proof.
  intros H Ho Hn Hle. unfold holds, cut. rewrite length_take, length_drop, Nat.min_l by lia.
  rewrite <- (Z2Nat.id o) at 1 by lia. apply (load_n_sub _ _ _ _ _ _ H). lia.
Qed.

Lemma holds_same (m m' : mem) a bs :
  holds m a bs → (∀ x, a <= x < a + Z.of_nat (length bs) → m' !! x = m !! x) → holds m' a bs.
Proof. unfold holds. intros H Hs. by rewrite (load_n_ext _ m' m) by done. Qed.

Lemma holds_mapped m a bs : holds m a bs → mapped m a (Z.of_nat (length bs)).
Proof.
  intros H x Hx. replace x with (a + Z.of_nat (Z.to_nat (x - a))) by lia.
  rewrite (load_n_lookup _ _ _ _ _ H) by lia. apply lookup_lt_is_Some_2. lia.
Qed.

Lemma placed_write m a bs : placed m (write_bytes m a bs) a bs (Z.of_nat (length bs)).
Proof.
  split; [apply load_write_eq|]. split; [intros; by apply lookup_write_out|]. intros. by apply mapped_write.
Qed.

Lemma placed_mono m m' a bs n n' : placed m m' a bs n → n <= n' → placed m m' a bs n'.
Proof. intros (Hh & Ho & Hp) Hn. split; [done|]. split; [|done]. intros x Hx. apply Ho. lia. Qed.

(** A forward copy of what lies at [src]. *)
Lemma memcpy_placed (m : mem) dst src bs :
  holds m src bs → mapped m dst (Z.of_nat (length bs)) → dst <= src ∨ src + Z.of_nat (length bs) <= dst →
  ∃ m', memcpy m dst src (Z.of_nat (length bs)) = Some m' ∧ placed m m' dst bs (Z.of_nat (length bs)).
Proof.
  intros H Hm Hd. exists (write_bytes m dst bs). split; [by apply memcpy_forward|]. apply placed_write.
Qed.

(** ** The reserved size of a device tree *)

(** The size field raised to the reserved size. *)
Definition reserved `{I : image_build} (dtb : bytes) : bytes :=
  match CFG_RESERVE_FDT_SIZE with
  | Some size =>
      let fdt_ext_size := Z.land (size ⊞ 31) (Z.lnot 31) in
      if fdt_ext_size <? be32 (take 4 (drop 4 dtb)) then dtb else splice 4 (rev (le_bytes 4 fdt_ext_size)) dtb
  | None => dtb
  end.
Lemma reserve_run `{I : image_build} (m : mem) fdt dtb :
  CFG_SUNXI_FDT_ADDR = Some fdt → holds m fdt dtb → (8 <= length dtb)%nat →
  ∃ m', reserve_fdt m fdt = Some m' ∧ placed m m' fdt (reserved dtb) (Z.of_nat (length dtb)).
Proof.
  intros Hf Hh Hlen. unfold reserve_fdt, reserved. rewrite Hf. assert (placed m m fdt dtb (Z.of_nat (length dtb))) as Hid by (by split).
  destruct CFG_RESERVE_FDT_SIZE as [size|]; [|by exists m].
  change (fdt + 4) with (fdt + Z.of_nat 4). rewrite (load_n_sub _ _ _ _ 4 4 Hh) by lia. sbind. case_match; [by exists m|].
  set (bs := rev (le_bytes 4 _)). assert (length bs = 4%nat) as Hbs by (unfold bs; by rewrite length_rev, length_le_bytes).
  rewrite store_n_spec by (eapply mapped_sub; [by apply (holds_mapped m fdt dtb)|lia..]). eexists. split; [done|]. split; [|split].
  - unfold holds. rewrite length_splice by lia. apply load_write_inside; [done|lia].
  - intros x Hx. rewrite lookup_write_out by lia. done.
  - intros. by apply mapped_write.
Qed.

Lemma placed_trans m m1 m2 a bs bs1 n : placed m m1 a bs1 n → placed m1 m2 a bs n → placed m m2 a bs n.
Proof. intros (_ & Ho1 & Hp1) (Hh & Ho2 & Hp2). split; [done|]. split; [|auto]. intros x Hx. by rewrite Ho2, Ho1. Qed.

(** ** A well-formed boot image *)

(** What [load_bimage] reads of it, and where its parts lie. *)
Definition read_bytes (img : bytes) : Z :=
  hf img off_kernel_size + hf img off_ramdisk_size + hf img off_second_size + 4607.
Definition pages (n : Z) : Z := 2048 * ((n + 2047) / 2048).

Lemma pages_spec n : 0 <= n → n <= pages n < n + 2048 ∧ pages n mod 512 = 0.
Proof. intros. unfold pages. split; zmod. Qed.

Lemma ALIGN_pages n : 0 <= n < 2 ^ 31 → ALIGN n 2048 = pages n.
Proof. change (2 ^ 31) with 2147483648. intros. apply ALIGN_2048; lia. Qed.

Definition ramdisk_offset (img : bytes) : Z := 2048 + pages (hf img off_kernel_size).
Definition dtb_offset (img : bytes) : Z :=
  ramdisk_offset img + pages (hf img off_ramdisk_size) + pages (hf img off_second_size) + pages (hf img off_recovery_dtbo_size).
Definition dtb_bytes (img : bytes) : Z := 512 * ((hf img off_dtb_size + 511) / 512).

Definition kernel_part (img : bytes) : bytes := cut 2048 (hf img off_kernel_size) img.
Definition ramdisk_part (img : bytes) : bytes := cut (ramdisk_offset img) (hf img off_ramdisk_size) img.
Definition dtb_part (img : bytes) : bytes := cut (dtb_offset img) (dtb_bytes img) img.

(** The image on flash: magic, the page size that the code's constants assume,
    and all that is read inside it, below 4 GiB. *)
Record bimage (img : bytes) : Prop := {
  bm_bytes : is_byte_list img;
  bm_magic : take 8 img = ANDR_BOOT_MAGIC;
  bm_page : hf img off_page_size = 2048;
  bm_read : 512 * (read_bytes img / 512) <= Z.of_nat (length img);
  bm_dtb : dtb_offset img + dtb_bytes img <= Z.of_nat (length img);
  bm_small : Z.of_nat (length img) < 2 ^ 31
}.

(** A reader that has [img] from sector [from] on. *)
Definition has_image (flash_read : reader) (from : Z) (img : bytes) : Prop :=
  ∀ m s n b, 0 <= s → 0 <= n → 512 * (s + n) <= Z.of_nat (length img) → mapped m b (512 * n) →
    flash_read m (from + s) n b = Some (write_bytes m b (cut (512 * s) (512 * n) img), 0).

Section image.
Context (img : bytes) (Himg : bimage img).

Lemma bimage_fields :
  0 <= hf img off_kernel_size ∧ 0 <= hf img off_ramdisk_size ∧ 0 <= hf img off_second_size ∧
  0 <= hf img off_recovery_dtbo_size ∧ 0 <= hf img off_dtb_size.
Proof. repeat split; apply hf_bound, (bm_bytes _ Himg). Qed.

(** The parts lie inside the image, the first two inside what is read. *)
Lemma bimage_inside :
  4096 <= 512 * (read_bytes img / 512) ∧ read_bytes img < 2 ^ 32 ∧
  2048 + hf img off_kernel_size <= 512 * (read_bytes img / 512) ∧
  ramdisk_offset img + hf img off_ramdisk_size <= 512 * (read_bytes img / 512) ∧
  2048 <= ramdisk_offset img <= dtb_offset img ∧ dtb_offset img mod 512 = 0 ∧ hf img off_dtb_size <= dtb_bytes img ∧
  pages (hf img off_kernel_size) < 2 ^ 31 ∧ pages (hf img off_ramdisk_size) < 2 ^ 31 ∧
  pages (hf img off_second_size) < 2 ^ 31 ∧ pages (hf img off_recovery_dtbo_size) < 2 ^ 31 ∧
  0 <= pages (hf img off_kernel_size) ∧ 0 <= pages (hf img off_ramdisk_size) ∧
  0 <= pages (hf img off_second_size) ∧ 0 <= pages (hf img off_recovery_dtbo_size).
Proof.
  pose proof bimage_fields as (?&?&?&?&?). destruct Himg as [_ _ _ Hr Hd Hs]. change (2 ^ 31) with 2147483648 in *.
  change (2 ^ 32) with 4294967296.
  unfold dtb_offset, ramdisk_offset, dtb_bytes, read_bytes, pages in *. repeat split; zmod.
Qed.


(** [load_bimage]'s result when the two reads succeed. *)
Context `{I : image_build} `{K : kernel_build} `{D : decompressors} `{T : fdt_lib}.
Context (flash_read : reader) (from to : Z) (Hflash : has_image flash_read from img).
Context (Hfrom : 0 <= from) (Hfrom' : from + Z.of_nat (length img) / 512 < 2 ^ 32).
Context (Hto : 0 <= to) (Hto' : to + Z.of_nat (length img) < 2 ^ 32).

Definition area : bytes := cut 0 (512 * (read_bytes img / 512)) img.

Lemma length_area : Z.of_nat (length area) = 512 * (read_bytes img / 512).
Proof. pose proof bimage_inside. destruct Himg. apply length_cut; lia. Qed.

Lemma area_field (m : mem) off : holds m to area → (off + 4 <= 4096)%nat → field m to off = Some (hf img off).
Proof.
  intros Hm Ho. pose proof bimage_inside. pose proof length_area.
  rewrite (holds_field m to area off Hm) by lia. f_equal. apply hf_cut. lia.
Qed.

Lemma load_bimage_read (m : mem) :
  mapped m to (512 * (read_bytes img / 512)) →
  load_bimage flash_read m from to = place_bimage flash_read (write_bytes m to area) from to (read_bytes img).
Proof.
  intros Hm. pose proof bimage_inside as (Hin & Hsm & _). pose proof bimage_fields as (Hk & Hr & Hs & _).
  destruct Himg as [_ Hmag _ Hrd _ Hlen]. change (2 ^ 31) with 2147483648 in *. change (2 ^ 32) with 4294967296 in *.
  unfold load_bimage. change SUNXI_FLASH_READ_FIRST_SIZE with 4096. change (4096 / 512) with 8.
  pose proof (Hflash m 0 8 to ltac:(lia) ltac:(lia) ltac:(lia)) as H1. rewrite Z.add_0_r in H1.
  rewrite H1 by (eapply mapped_sub; [exact Hm|lia..]). sbind. cbn [negb Z.eqb]. clear H1.
  change (512 * 0) with 0. change (512 * 8) with 4096. set (m1 := write_bytes m to (cut 0 4096 img)).
  assert (Z.of_nat (length (cut 0 4096 img)) = 4096) as Hl1 by (apply length_cut; lia).
  assert (holds m1 to (cut 0 4096 img)) as Hm1 by apply load_write_eq.
  assert (load_n 8 m1 to = Some ANDR_BOOT_MAGIC) as ->.
  { pose proof (load_n_sub _ _ _ _ 0 8 Hm1 ltac:(lia)) as H. rewrite Z.add_0_r, drop_0 in H. rewrite H. f_equal.
    unfold cut. rewrite drop_0, take_take, Nat.min_l by lia. exact Hmag. }
  sbind. change (memcmp ANDR_BOOT_MAGIC ANDR_BOOT_MAGIC 8) with (Some 0). sbind. cbn [negb Z.eqb].
  rewrite !(holds_field m1 to _ _ Hm1), !hf_cut by (unfold off_kernel_size, off_ramdisk_size, off_second_size; lia). sbind.
  unfold read_bytes in Hin, Hsm, Hrd, Hm.
  rewrite (u32_small (hf img off_kernel_size + _)), (u32_small (hf img off_kernel_size + _ + _)),
    (u32_small (_ + 4 * 1024)), (u32_small (_ + 511)) by (unfold is_u32; lia).
  replace (hf img off_kernel_size + hf img off_ramdisk_size + hf img off_second_size + 4 * 1024 + 511) with (read_bytes img)
    by (unfold read_bytes; lia).
  fold (read_bytes img) in Hin, Hsm, Hrd, Hm.
  rewrite (u32_small (from + 8)), (u32_small (to + 4096)), (u32_small (read_bytes img / 512 - 8)) by (unfold is_u32; zmod).
  rewrite (Hflash m1 8 (read_bytes img / 512 - 8) (to + 4096)); [|lia|lia|lia|].
  2:{ apply mapped_write. eapply mapped_sub; [exact Hm|lia..]. }
  sbind. cbn [negb Z.eqb]. f_equal. unfold m1, area.
  replace (512 * (read_bytes img / 512)) with (4096 + 512 * (read_bytes img / 512 - 8)) by lia.
  rewrite cut_app, write_bytes_app, Hl1 by lia. do 2 f_equal.
Qed.

(** ** The device tree *)

Definition dtb_final : bytes := reserved (dtb_part img).

(** The header in memory. *)
Definition header_at (m : mem) : Prop := ∀ off, (off + 4 <= 4096)%nat → field m to off = Some (hf img off).

Lemma get_dtb_run (m : mem) :
  header_at m → 0 < hf img off_dtb_size →
  android_image_get_dtb m to = Some (Some (to + dtb_offset img, hf img off_dtb_size)).
Proof.
  intros Hm Hd. pose proof bimage_inside as (_ & _ & _ & _ & _ & _ & Hdb & ? & ? & ? & ? & ? & ? & ? & ?).
  pose proof bimage_fields as (Hk & Hr & Hs & Ho & _). pose proof (bm_dtb _ Himg) as Hdt. pose proof (bm_small _ Himg) as Hsm.
  change (2 ^ 31) with 2147483648 in *. change (2 ^ 32) with 4294967296 in *.
  unfold android_image_get_dtb.
  rewrite !Hm by (done || unfold off_dtb_size, off_page_size, off_kernel_size, off_ramdisk_size, off_second_size, off_recovery_dtbo_size; lia).
  sbind. destruct (Z.eqb_spec (hf img off_dtb_size) 0) as [|_]; [lia|]. rewrite (bm_page _ Himg).
  pose proof (pages_spec _ Hk) as [? _]. pose proof (pages_spec _ Hr) as [? _]. pose proof (pages_spec _ Hs) as [? _]. pose proof (pages_spec _ Ho) as [? _].
  rewrite !ALIGN_pages by (change (2 ^ 31) with 2147483648; lia). unfold dtb_offset, ramdisk_offset in *. do 3 f_equal.
  rewrite (u32_small (to + 2048)), (u32_small (to + 2048 + _)), (u32_small (to + 2048 + _ + _)),
    (u32_small (to + 2048 + _ + _ + _)), (u32_small (to + 2048 + _ + _ + _ + _)) by (unfold is_u32; lia). lia.
Qed.

Lemma load_dtb_run (m : mem) fdt room :
  CFG_EARLY_FASTBOOT = false → CFG_LOAD_DTB_FROM_KERNEL = true → CFG_SUNXI_FDT_ADDR = Some fdt →
  holds m to area → 0 < hf img off_dtb_size → mapped m fdt room → dtb_bytes img <= room →
  ∃ m', load_dtb flash_read m from to = Some (m', 0) ∧ placed m m' fdt dtb_final room.
Proof.
  intros He Hl Hf Hm Hd Hroom Hfit. unfold load_dtb. rewrite He, Hl, Hf. cbn [orb negb]. sbind.
  rewrite get_dtb_run by (done || (intros off; by apply area_field)). sbind. pose proof (bm_dtb _ Himg) as Hdt. pose proof (bm_small _ Himg) as Hsm.
  pose proof bimage_inside as (_ & _ & _ & _ & Hoff & Hmod & Hdb & _).
  assert (ALIGN (hf img off_dtb_size) 512 = dtb_bytes img) as -> by (apply ALIGN_512; lia).
  change (2 ^ 31) with 2147483648 in *. change (2 ^ 32) with 4294967296 in *.
  rewrite (u32_small (to + dtb_offset img - to)), (u32_small (from + _)) by (unfold is_u32; zmod).
  replace (to + dtb_offset img - to) with (dtb_offset img) by lia.
  assert (512 * (dtb_offset img / 512) = dtb_offset img) as E1 by zmod.
  assert (512 * (dtb_bytes img / 512) = dtb_bytes img) as E2 by (unfold dtb_bytes; zmod).
  rewrite Hflash; [|lia|lia|lia|eapply mapped_sub; [exact Hroom|lia..]].
  rewrite E1, E2. sbind. cbn [negb Z.eqb]. fold (dtb_part img). set (m1 := write_bytes m fdt (dtb_part img)).
  assert (Z.of_nat (length (dtb_part img)) = dtb_bytes img) as Hlen by (apply length_cut; lia).
  assert (512 <= dtb_bytes img) by (unfold dtb_bytes in *; zmod).
  pose proof (placed_write m fdt (dtb_part img)) as Hp. fold m1 in Hp.
  destruct (reserve_run m1 fdt (dtb_part img) Hf) as (m' & -> & Hp'); [apply Hp|lia|]. sbind. exists m'. split; [done|].
  eapply placed_mono; [by eapply placed_trans|lia].
Qed.

(** ** The kernel *)

(** The decompressor of the build turns [src] into [out], wherever both lie
    apart, in [room] bytes. *)
Definition unpacks (c : codec) (src out : bytes) (room : Z) : Prop :=
  ∀ m dst s, holds m s src → mapped m dst room → 0 <= s → s + Z.of_nat (length src) < 2 ^ 32 → 0 <= dst → dst + 0xa00000 < 2 ^ 32 →
    s + Z.of_nat (length src) <= dst ∨ dst + room <= s →
    ∃ m', unpack_kernel c m dst s (Z.of_nat (length src)) = Some (m', 0) ∧ placed m m' dst out room.

(** What the code makes of the image's kernel. *)
Definition kernel_becomes (out : bytes) (room : Z) : Prop :=
  match kernel_codec with
  | Some c => if packed_by c (hf img 2048) then unpacks c (kernel_part img) out room
              else out = kernel_part img ∧ Z.of_nat (length out) <= room
  | None => out = kernel_part img ∧ Z.of_nat (length out) <= room
  end.

Lemma length_kernel_part : Z.of_nat (length (kernel_part img)) = hf img off_kernel_size.
Proof. pose proof bimage_inside. pose proof bimage_fields. destruct Himg. apply length_cut; lia. Qed.

Lemma area_kernel (m : mem) : holds m to area → holds m (to + 2048) (kernel_part img).
Proof.
  intros Hm. pose proof bimage_inside. pose proof bimage_fields. pose proof length_area.
  unfold kernel_part. rewrite <- (cut_cut 0 (512 * (read_bytes img / 512)) 2048) by lia. apply (holds_cut m to area); [done|lia..].
Qed.

Lemma move_kernel_run (m : mem) out room :
  let ka := hf img off_kernel_addr in
  holds m to area → kernel_becomes out room → mapped m ka room →
  ka + hf img off_kernel_size < 2 ^ 32 → ka + 0xa00000 < 2 ^ 32 → to + read_bytes img < 2 ^ 32 →
  to + read_bytes img < ka ∨ ka + Z.max room (hf img off_kernel_size) <= to →
  ∃ m', move_kernel m to (read_bytes img) = Some (m', [], 0) ∧ placed m m' ka out room.
Proof.
  intros ka Hm Hb Hmap Hka Hka' Hrb Hap. pose proof bimage_inside as (Hin & Hsm & Hkin & _). pose proof bimage_fields as (Hk & Hfs).
  pose proof length_kernel_part as Hlk. pose proof (area_kernel m Hm) as Hsrc. pose proof length_area as Hla.
  assert (0 <= ka) as Hka0 by apply hf_bound, (bm_bytes _ Himg).
  assert (512 * (read_bytes img / 512) <= read_bytes img) as Hrd by zmod.
  unfold move_kernel. rewrite !(area_field m) by (done || unfold off_kernel_addr, off_kernel_size; lia). sbind. fold ka.
  unfold KERNEL_CODE_OFFSET_IN_BIMAGE. change 0x800 with 2048.
  change (2 ^ 32) with 4294967296 in *. rewrite (u32_small (to + 2048)) by (unfold is_u32; lia).
  destruct (Z.eqb_spec ka (to + 2048)) as [|_]; [lia|].
  rewrite mem_info_run by (change (2 ^ 32) with 4294967296; lia). rewrite decide_True by lia. cbn [Z.ltb Z.compare].
  assert (out = kernel_part img ∧ Z.of_nat (length out) <= room →
    ∃ m', (m' ← memcpy m ka (to + 2048) (hf img off_kernel_size); Some (m', @nil warning, 0)) = Some (m', [], 0) ∧ placed m m' ka out room) as Hcopy.
  { intros [-> Hr]. destruct (memcpy_placed m ka (to + 2048) (kernel_part img) Hsrc) as (m' & Hc & Hp);
      [eapply mapped_sub; [exact Hmap|lia..]|lia|].
    exists m'. rewrite <- Hlk, Hc. split; [done|]. by eapply placed_mono. }
  unfold kernel_becomes in Hb. destruct kernel_codec as [c|]; [|sbind; by apply Hcopy].
  assert (rd32 m (to + 2048) = Some (hf img 2048)) as ->.
  { change (rd32 m (to + 2048)) with (field m to 2048). apply area_field; [done|lia]. }
  sbind. destruct (packed_by c (hf img 2048)); [|by apply Hcopy].
  destruct (Hb m ka (to + 2048) Hsrc Hmap) as (m' & Hr & Hp); [lia|change (2 ^ 32) with 4294967296; lia|lia|done|lia|].
  rewrite <- Hlk, Hr. sbind. by exists m'.
Qed.

(** ** The ramdisk *)

Lemma length_ramdisk_part : Z.of_nat (length (ramdisk_part img)) = hf img off_ramdisk_size.
Proof. pose proof bimage_inside. pose proof bimage_fields. destruct Himg. apply length_cut; lia. Qed.

(** The area after the header's [ramdisk_addr] was set. *)
Lemma area_ramdisk (m : mem) ra :
  holds m to area → is_u32 ra →
  let m1 := w32 m (to + Z.of_nat off_ramdisk_addr) ra in
  wr32 m (to + Z.of_nat off_ramdisk_addr) ra = Some m1 ∧
  field m1 to off_ramdisk_addr = Some ra ∧
  (∀ off, (off + 4 <= 20 ∨ 24 <= off)%nat → (off + 4 <= 4096)%nat → field m1 to off = Some (hf img off)) ∧
  holds m1 (to + ramdisk_offset img) (ramdisk_part img).
Proof.
  intros Hm Hra m1. pose proof bimage_inside as (Hin & _ & _ & Hrin & Hoff & _). pose proof bimage_fields as (_ & Hr & _).
  pose proof length_area as Hla.
  pose proof (holds_mapped m to area Hm) as Hmp.
  split; [apply wr32_mapped; eapply mapped_sub; [exact Hmp|unfold off_ramdisk_addr; lia..]|].
  split; [by apply rd32_w32_eq|]. split.
  - intros off Ho Hlt. rewrite <- (area_field m off Hm Hlt). apply rd32_w32_ne. unfold off_ramdisk_addr. lia.
  - eapply holds_same.
    + unfold ramdisk_part. rewrite <- (cut_cut 0 (512 * (read_bytes img / 512)) (ramdisk_offset img)) by lia.
      apply (holds_cut m to area); [exact Hm|lia..].
    + intros x Hx. apply lookup_w32_out. unfold off_ramdisk_addr. lia.
Qed.

Lemma move_ramdisk_run (m : mem) ra fdt :
  let n := hf img off_ramdisk_size in
  CFG_RAMDISK_ADDR = Some ra → CFG_SUNXI_FDT_ADDR = Some fdt → holds m to area → 0 < n →
  mapped m ra n → 0 <= ra → ra + n < 2 ^ 32 → to + read_bytes img < 2 ^ 32 → to + read_bytes img < ra ∨ ra + n <= to →
  ∃ m1, holds m1 ra (ramdisk_part img) ∧
    (∀ x, x < to + 20 ∨ to + 24 <= x → x < ra ∨ ra + n <= x → m1 !! x = m !! x) ∧
    move_ramdisk m to (read_bytes img) =
      ('(m2, ret) ← fdt_initrd m1 fdt ra (ra + n); Some (m2, [], if negb (ret =? 0) then -1 else 0)).
Proof.
  intros n Hcfg Hfdt Hm Hn Hmap Hra Hra' Hrb Hap.
  pose proof bimage_inside as (Hin & Hsm & _ & Hrin & Hoff & _ & _ & Hpk & _ & _ & _ & Hpk0 & _).
  pose proof bimage_fields as (Hk & _). pose proof length_ramdisk_part as Hlr. fold n in Hrin, Hlr.
  pose proof (bm_dtb _ Himg). assert (512 * (read_bytes img / 512) <= read_bytes img) as Hrd by zmod.
  change (2 ^ 31) with 2147483648 in *. change (2 ^ 32) with 4294967296 in *.
  destruct (area_ramdisk m ra Hm) as (Hw & Hfa & Hf & Hsrc); [unfold is_u32; lia|].
  set (m0 := w32 m (to + Z.of_nat off_ramdisk_addr) ra) in *.
  unfold move_ramdisk. rewrite Hcfg, Hw. sbind. unfold android_image_get_ramdisk.
  rewrite (Hf off_ramdisk_size), (Hf off_page_size), (Hf off_kernel_size)
    by (unfold off_ramdisk_size, off_page_size, off_kernel_size; lia).
  sbind. fold n.
  destruct (Z.eqb_spec n 0) as [|_]; [lia|]. rewrite (bm_page _ Himg). sbind. rewrite Hfa. sbind.
  unfold ramdisk_offset in *. pose proof (pages_spec (hf img off_kernel_size) ltac:(lia)) as [? _].
  rewrite ALIGN_pages, (u32_small (to + 2048)), (u32_small (to + 2048 + _)) by (unfold is_u32; change (2 ^ 31) with 2147483648; lia).
  rewrite mem_info_run by (change (2 ^ 32) with 4294967296; lia). rewrite decide_True by lia. cbn [Z.ltb Z.compare].
  destruct (memcpy_placed m0 ra (to + 2048 + pages (hf img off_kernel_size)) (ramdisk_part img)) as (m1 & Hc & Hh & Hout & _).
  { by rewrite <- Z.add_assoc. }
  { apply mapped_w32. by rewrite Hlr. }
  { lia. }
  rewrite Hlr in Hc, Hout. rewrite Hc. sbind. rewrite Hfdt. sbind. exists m1. split; [done|]. split.
  - intros x Hx1 Hx2. rewrite Hout by lia. apply lookup_w32_out. unfold off_ramdisk_addr. lia.
  - assert (field m1 to off_ramdisk_addr = Some ra) as ->.
    { rewrite <- Hfa. apply rd32_ext. intros x Hx. apply Hout. unfold off_ramdisk_addr in Hx. lia. }
    sbind. by rewrite (u32_small (ra + n)) by (unfold is_u32; lia).
Qed.

(** Without a ramdisk at most the header changes. *)
Lemma move_ramdisk_none (m : mem) :
  holds m to area → (∀ ra, CFG_RAMDISK_ADDR = Some ra → is_u32 ra) → CFG_RAMDISK_ADDR = None ∨ hf img off_ramdisk_size = 0 →
  ∃ m1, move_ramdisk m to (read_bytes img) = Some (m1, [], 0) ∧ ∀ x, x < to + 20 ∨ to + 24 <= x → m1 !! x = m !! x.
Proof.
  intros Hm Hra Hno. unfold move_ramdisk. destruct CFG_RAMDISK_ADDR as [ra|]; [|by exists m].
  destruct Hno as [|Hz]; [done|]. destruct (area_ramdisk m ra Hm (Hra ra eq_refl)) as (Hw & _ & Hf & _).
  rewrite Hw. sbind. unfold android_image_get_ramdisk. rewrite (Hf off_ramdisk_size), Hz by (unfold off_ramdisk_size; lia). sbind.
  eexists. split; [done|]. intros x Hx. apply lookup_w32_out. unfold off_ramdisk_addr. lia.
Qed.

(** ** All parts *)

(** Where the build puts this image's ramdisk, if it has one. *)
Definition ramdisk_to : option Z := if hf img off_ramdisk_size =? 0 then None else CFG_RAMDISK_ADDR.

Definition disjoint (a n b k : Z) : Prop := a + n <= b ∨ b + k <= a.

(** The four places: the image as read, the device tree with [room] bytes, the
    kernel [out] with [kroom] (in place, or apart from the image), and the
    ramdisk. *)
Record layout (m : mem) (out : bytes) (kroom fdt room : Z) : Prop := {
  lo_image : mapped m to (512 * (read_bytes img / 512));
  lo_below : to + read_bytes img < 2 ^ 32;
  lo_fdt : mapped m fdt room ∧ dtb_bytes img <= room ∧ disjoint fdt room to (read_bytes img);
  lo_kernel :
    let ka := hf img off_kernel_addr in
    Z.of_nat (length out) <= kroom ∧
    (ka = to + 2048 ∧ out = kernel_part img ∨
     kernel_becomes out kroom ∧ mapped m ka kroom ∧ (ka + hf img off_kernel_size < 2 ^ 32 ∧ ka + 0xa00000 < 2 ^ 32) ∧
      (to + read_bytes img < ka ∨ ka + Z.max kroom (hf img off_kernel_size) <= to) ∧ disjoint ka kroom fdt room);
  lo_ramdisk : ∀ ra, ramdisk_to = Some ra →
    let n := hf img off_ramdisk_size in
    mapped m ra n ∧ ra + n < 2 ^ 32 ∧ (to + read_bytes img < ra ∨ ra + n <= to) ∧
      disjoint ra n fdt room ∧ disjoint ra n (hf img off_kernel_addr) kroom;
  lo_addr : ∀ ra, CFG_RAMDISK_ADDR = Some ra → is_u32 ra
}.

Lemma layout_mono (m m' : mem) out kroom fdt room :
  (∀ b k, mapped m b k → mapped m' b k) → layout m out kroom fdt room → layout m' out kroom fdt room.
Proof.
  intros Hp [Ha Hb (Hc & Hc') Hk Hr Hra]. constructor; try done; [by apply Hp|by split; [apply Hp|]|..].
  - cbv zeta in *. destruct Hk as [Hlen [?|(?&?&?)]]; (split; [done|]); [by left|]. right. split; [done|]. split; [by apply Hp|done].
  - intros ra Era. destruct (Hr ra Era) as (? & Hs). split; [by apply Hp|exact Hs].
Qed.

Lemma kernel_step (m : mem) out kroom fdt room :
  layout m out kroom fdt room → holds m to area →
  ∃ m', move_kernel m to (read_bytes img) = Some (m', [], 0) ∧ holds m' (hf img off_kernel_addr) out ∧ holds m' to area ∧
    (∀ x, fdt <= x < fdt + room → m' !! x = m !! x) ∧ (∀ b k, mapped m b k → mapped m' b k) ∧
    (∀ x, x < hf img off_kernel_addr ∨ hf img off_kernel_addr + kroom <= x → m' !! x = m !! x).
Proof.
  intros [_ Hlow (_ & _ & Hfi) Hk _ _] Hm. pose proof bimage_inside as (Hin & _). pose proof length_area as Hla.
  assert (512 * (read_bytes img / 512) <= read_bytes img) as Hrd by zmod. cbv zeta in Hk.
  destruct Hk as [Hlen [[Hka ->]|(Hb & Hmp & [Hka Hka'] & Hap & Hdf)]].
  - exists m. unfold move_kernel. rewrite (area_field m off_kernel_addr) by (done || unfold off_kernel_addr; lia). sbind.
    rewrite Hka. unfold KERNEL_CODE_OFFSET_IN_BIMAGE. change 0x800 with 2048. change (2 ^ 32) with 4294967296 in *.
    rewrite u32_small, Z.eqb_refl by (unfold is_u32; lia). split; [done|]. split; [by apply area_kernel|]. done.
  - destruct (move_kernel_run m out kroom Hm Hb Hmp Hka Hka' Hlow Hap) as (m' & Hr & Hh & Hout & Hmp'). exists m'.
    split; [done|]. split; [done|]. split; [|split; [|by split]].
    + eapply holds_same; [exact Hm|]. intros x Hx. apply Hout. lia.
    + intros x Hx. apply Hout. unfold disjoint in Hdf. lia.
Qed.

(** The device tree as [fdt_initrd] leaves it: the code's return code is 0 and
    it stays inside the reserved space. *)
Definition initrd_ok (fdt room : Z) : Prop :=
  ∀ m s e, holds m fdt dtb_final → ∃ m', fdt_initrd m fdt s e = Some (m', 0) ∧ ∀ x, x < fdt ∨ fdt + room <= x → m' !! x = m !! x.

Lemma length_dtb_final room : 0 < hf img off_dtb_size → dtb_bytes img <= room → Z.of_nat (length dtb_final) <= room.
Proof.
  intros Hd Hr. pose proof bimage_inside as (_ & _ & _ & _ & Hoff & _ & Hdb & _). pose proof (bm_dtb _ Himg).
  assert (Z.of_nat (length (dtb_part img)) = dtb_bytes img) as Hl by (apply length_cut; lia).
  assert (512 <= dtb_bytes img) by (unfold dtb_bytes in *; zmod).
  unfold dtb_final, reserved. repeat case_match; rewrite ?length_splice; rewrite ?length_rev, ?length_le_bytes; lia.
Qed.

(** Addresses that belong to no part. *)
Definition no_part (kroom fdt room x : Z) : Prop :=
  (x < to ∨ to + read_bytes img <= x) ∧ (x < fdt ∨ fdt + room <= x) ∧
  (x < hf img off_kernel_addr ∨ hf img off_kernel_addr + kroom <= x) ∧
  ∀ ra, ramdisk_to = Some ra → x < ra ∨ ra + hf img off_ramdisk_size <= x.

Lemma place_bimage_run (m : mem) out kroom fdt room :
  CFG_EARLY_FASTBOOT = false → CFG_LOAD_DTB_FROM_KERNEL = true → CFG_SUNXI_FDT_ADDR = Some fdt →
  layout m out kroom fdt room → holds m to area → 0 < hf img off_dtb_size → initrd_ok fdt room →
  ∃ m', place_bimage flash_read m from to (read_bytes img) = Some (Loaded m' (Some (hf img off_kernel_addr)) [] 0) ∧
    holds m' (hf img off_kernel_addr) out ∧
    match ramdisk_to with
    | Some ra => holds m' ra (ramdisk_part img) ∧
        ∃ m1, holds m1 fdt dtb_final ∧ fdt_initrd m1 fdt ra (ra + hf img off_ramdisk_size) = Some (m', 0)
    | None => holds m' fdt dtb_final
    end ∧ ∀ x, no_part kroom fdt room x → m' !! x = m !! x.
Proof.
  intros He Hl Hf Hlay Hm Hd Hini. pose proof Hlay as [_ Hlow (Hmf & Hfit & Hfi) [Hkl Hk] Hrd Hra].
  pose proof bimage_inside as (Hin & _ & Hkin & Hrin & Hoff & _). pose proof length_area as Hla.
  pose proof length_kernel_part as Hlk. pose proof length_ramdisk_part as Hlr. pose proof bimage_fields as (Hk0 & Hr0 & _).
  pose proof (length_dtb_final room Hd Hfit) as Hlf. unfold disjoint in *. cbv zeta in Hk, Hrd.
  assert (512 * (read_bytes img / 512) <= read_bytes img) as Hfl by zmod.
  destruct (load_dtb_run m fdt room He Hl Hf Hm Hd Hmf Hfit) as (m1 & Hr1 & Hh1 & Ho1 & Hp1).
  assert (holds m1 to area) as Hm1 by (eapply holds_same; [exact Hm|]; intros x Hx; apply Ho1; lia).
  destruct (kernel_step m1 out kroom fdt room) as (m2 & Hr2 & Hk2 & Hm2 & Ho2 & Hp2 & Hq2); [|done|].
  { by eapply layout_mono. }
  assert (holds m2 fdt dtb_final) as Hh2 by (eapply holds_same; [exact Hh1|]; intros x Hx; apply Ho2; lia).
  unfold place_bimage. rewrite Hr1. sbind. cbn [negb Z.eqb]. rewrite Hr2. sbind. cbn [negb Z.eqb].
  assert (∀ m3 : mem, (∀ x, to <= x < to + 2048 → x < to + 20 ∨ to + 24 <= x → m3 !! x = m2 !! x) →
    field m3 to off_kernel_addr = Some (hf img off_kernel_addr)) as Hfin.
  { intros m3 Hs. rewrite <- (area_field m2 off_kernel_addr Hm2) by (unfold off_kernel_addr; lia).
    apply rd32_ext. intros x Hx. apply Hs; unfold off_kernel_addr in Hx; lia. }
destruct ramdisk_to as [ra|] eqn:Era; unfold ramdisk_to in Era.
  - destruct (Z.eqb_spec (hf img off_ramdisk_size) 0) as [|Hz]; [done|].
    destruct (Hrd ra eq_refl) as (Hmr & Hr32 & Hap & Hdf & Hdk).
    destruct (move_ramdisk_run m2 ra fdt Era Hf Hm2) as (m3 & Hh3 & Ho3 & Hrun);
      [lia|by apply Hp2, Hp1|by apply (Hra ra Era)|lia|lia|lia|].
    assert (holds m3 fdt dtb_final) as Hf3 by (eapply holds_same; [exact Hh2|]; intros x Hx; apply Ho3; lia).
    destruct (Hini m3 ra (ra + hf img off_ramdisk_size) Hf3) as (m4 & Hi4 & Ho4).
    rewrite Hrun, Hi4. sbind. cbn [negb Z.eqb]. rewrite Hfin by (intros x Hx Hx'; rewrite Ho4, Ho3 by lia; done). sbind.
    exists m4. split; [done|]. split; [|split; [split; [|by exists m3]|]].
    + eapply holds_same; [exact Hk2|]. intros x Hx.
      destruct Hk as [[Hka ->]|(_ & _ & _ & Hap' & Hdf')]; rewrite Ho4, Ho3 by lia; done.
    + eapply holds_same; [exact Hh3|]. intros x Hx. apply Ho4. lia.
    + intros x (Hx1 & Hx2 & Hx3 & Hx4). unfold ramdisk_to in Hx4. rewrite Era in Hx4. specialize (Hx4 ra).
      rewrite (proj2 (Z.eqb_neq _ _) Hz) in Hx4. specialize (Hx4 eq_refl). rewrite Ho4, Ho3, Hq2, Ho1 by lia. done.
  - destruct (move_ramdisk_none m2 Hm2 Hra) as (m3 & Hrun & Ho3).
    { destruct (Z.eqb_spec (hf img off_ramdisk_size) 0); auto. }
    rewrite Hrun. sbind. cbn [negb Z.eqb]. rewrite Hfin by (intros; by apply Ho3). sbind.
    exists m3. split; [done|]. split; [|split].
    + eapply holds_same; [exact Hk2|]. intros x Hx. apply Ho3. destruct Hk as [[Hka ->]|(_ & _ & _ & Hap' & Hdf')]; lia.
    + eapply holds_same; [exact Hh2|]. intros x Hx. apply Ho3. lia.
    + intros x (Hx1 & Hx2 & Hx3 & _). rewrite Ho3, Hq2, Ho1 by lia. done.
Qed.

End image.

(** ** Strings and variables outside the heap *)

Lemma mapped_size (m : mem) a n : mapped m a (Z.of_nat n) → (n <= size m)%nat.
Proof.
  intros Hm. rewrite <- (length_seq n 0), <- (length_fmap (λ j, a + Z.of_nat j)).
  rewrite <- (size_list_to_set (C := gset Z)), <- (size_dom (D := gset Z)).
  - apply subseteq_size. intros x Hx. apply elem_of_list_to_set, list_elem_of_fmap in Hx as (j & -> & Hj).
    apply elem_of_seq in Hj. apply elem_of_dom, Hm. lia.
  - apply NoDup_fmap_2; [intros i j; lia|apply NoDup_seq].
Qed.

Lemma c_string_run (m : mem) p v : is_cstr v → holds m p (v ++ [0]) → c_string m p = Some (v ++ [0]).
Proof.
  intros Hv Hm. unfold c_string. pose proof (mapped_size m p _ (holds_mapped _ _ _ Hm)) as Hf. rewrite length_app in Hf.
  cbn [length] in Hf. assert (length v < S (size m))%nat as Hlt by lia. clear Hf. apply bytes_at_load in Hm.
  revert p Hm. generalize dependent (S (size m)).
  induction Hv as [|c v Hc Hv IH]; intros [|fuel] Hlt p [Hp Hm]; simpl in Hlt; try lia; cbn [cstr_at]; rewrite Hp; sbind.
  - done.
  - rewrite char_nonzero by done. by rewrite IH by (done || lia).
Qed.

Lemma lookup_var_cstr vs key v : Forall var_ok vs → lookup_var vs key = Some v → is_cstr v.
Proof.
  intros Hvs. induction Hvs as [|[n w] vs (_ & _ & Hw) _ IH]; [done|]. cbn [lookup_var]. case_match; [by intros [= <-]|done].
Qed.

Lemma rep_w32_outside `{L : heap_layout} base limit m l a v :
  heap_rep base limit m l → var_outside base limit a → heap_rep base limit (w32 m a v) l.
Proof.
  intros Hrep (Ha & Hh & Ht). pose proof Hrep as [Hroom Hmh Hmt Hm Hwf Hend (ot & Htl) (o & Hl)].
  constructor; auto with heap.
  - exists ot. eapply node_at_same; [|exact Htl]. apply same_w32. lia.
  - exists o. eapply linked_same; [|exact Hl]. intros b Hb. apply same_w32.
    apply elem_of_cons in Hb as [->|Hb]; [cbn [hdr head_blk]; lia|].
    destruct (wfl_mem _ _ _ Hwf Hb) as (?&?&?&?&?&?). lia.
Qed.

(** ** A concrete image *)

(** A kernel for 0x4000, 8 bytes of ramdisk and a device tree of 16 bytes, each
    on its page. *)
Definition demo_image_of (kernel : bytes) : bytes :=
  ANDR_BOOT_MAGIC ++ le_bytes 4 (Z.of_nat (length kernel)) ++ le_bytes 4 0x4000 ++ le_bytes 4 8 ++ replicate 16 0 ++ le_bytes 4 2048 ++
  replicate 1608 0 ++ le_bytes 4 16 ++ replicate 396 0 ++ kernel ++ replicate (2048 - length kernel) 0 ++
  (Z.of_nat <$> seq 101 8) ++ replicate 2040 0 ++ [0xd0; 0x0d; 0xfe; 0xed; 0; 0; 0; 16] ++ replicate 504 7.
Definition demo_bimage : bytes := demo_image_of (Z.of_nat <$> seq 1 16).
Definition demo_lz4_bimage : bytes := demo_image_of (enc_frame demo_frame).

Definition demo_kernel_opts : image_build :=
  ImageBuild false true true None true (Some 0x3000) (Some 64) false None true None false None None.
Definition demo_kernel_build : kernel_build := KernelBuild 0x1000 (Some 0x5000) false true 0.
Definition demo_decompressors : decompressors :=
  Decompressors (λ m _ _ _ _, Some (m, 0, -1)) (λ m _ _ _ _, Some (m, 0, -1)) (λ m _ _ _ _, Some (m, 0, -1)).
Definition demo_fdt : fdt_lib := FdtLib (λ m _ _ _, Some (m, 0)).

(** A flash with [img] from sector [from] on. *)
Definition demo_reader (from : Z) (img : bytes) : reader := λ m s n b,
  if 512 * (s - from + n) <=? Z.of_nat (length img) then Some (write_bytes m b (cut (512 * (s - from)) (512 * n) img), 0)
  else Some (m, -1).

Definition demo_kernel_mem : mem := mem_of 0x1000 (replicate (Z.to_nat 0x5000) 0).

Lemma demo_reader_has from img : has_image (demo_reader from img) from img.
Proof.
  intros m s n b ? ? Hle ?. unfold demo_reader. replace (from + s - from) with s by lia.
  by rewrite (proj2 (Z.leb_le _ _) Hle).
Qed.

Record demo_fields (img : bytes) (ks : Z) : Prop := {
  df_len : Z.of_nat (length img) = 6656;
  df_ks : hf img off_kernel_size = ks;
  df_ka : hf img off_kernel_addr = 0x4000;
  df_rs : hf img off_ramdisk_size = 8;
  df_ss : hf img off_second_size = 0;
  df_page : hf img off_page_size = 2048;
  df_os : hf img off_recovery_dtbo_size = 0;
  df_ds : hf img off_dtb_size = 16
}.

Lemma demo_bimage_fields : demo_fields demo_bimage 16.
Proof. constructor; vm_compute; reflexivity. Qed.

Lemma demo_lz4_fields : demo_fields demo_lz4_bimage 34.
Proof. constructor; vm_compute; reflexivity. Qed.

Lemma demo_fields_ok img ks : demo_fields img ks → 0 < ks <= 40 → is_byte_list img → take 8 img = ANDR_BOOT_MAGIC → bimage img.
Proof.
  intros [Hl Hk _ Hr Hs Hp Ho Hd] Hks Hb Hm. constructor; try done.
  - unfold read_bytes. rewrite Hl, Hk, Hr, Hs. zmod.
  - unfold dtb_offset, ramdisk_offset, dtb_bytes, pages. rewrite Hl, Hk, Hr, Hs, Ho, Hd. zmod.
  - by rewrite Hl.
Qed.

Lemma demo_bimage_ok : bimage demo_bimage.
Proof. apply (demo_fields_ok _ 16); [exact demo_bimage_fields|lia|apply (bool_decide_unpack _); vm_compute; exact I|reflexivity]. Qed.

Lemma demo_lz4_ok : bimage demo_lz4_bimage.
Proof. apply (demo_fields_ok _ 34); [exact demo_lz4_fields|lia|apply (bool_decide_unpack _); vm_compute; exact I|reflexivity]. Qed.

Lemma demo_kernel_mapped a n : 0x1000 <= a → a + n <= 0x6000 → mapped demo_kernel_mem a n.
Proof.
  intros. unfold demo_kernel_mem. eapply mapped_sub; [apply mapped_mem_of|lia|]. rewrite length_replicate, Z2Nat.id by lia. lia.
Qed.

Lemma demo_layout_ok :
  layout (I := demo_kernel_opts) (K := demo_kernel_build) (D := demo_decompressors) demo_bimage 0x1000 demo_kernel_mem
    (kernel_part demo_bimage) 16 0x3000 1024.
Proof.
  pose proof demo_bimage_fields as [Hl Hk Ha Hr Hs Hp Ho Hd].
  assert (read_bytes demo_bimage = 4631) as Hrb by (unfold read_bytes; rewrite Hk, Hr, Hs; reflexivity).
  assert (dtb_bytes demo_bimage = 512) as Hdb by (unfold dtb_bytes; rewrite Hd; reflexivity).
  assert (Z.of_nat (length (kernel_part demo_bimage)) = 16) as Hn by (vm_compute; reflexivity).
  constructor; unfold disjoint; rewrite ?Hrb, ?Hdb, ?Ha, ?Hk, ?Hr, ?Hn.
  - change (512 * (4631 / 512)) with 4608. apply demo_kernel_mapped; lia.
  - lia.
  - split; [apply demo_kernel_mapped; lia|]. lia.
  - split; [lia|]. right. split; [vm_compute; split; [reflexivity|discriminate]|]. split; [apply demo_kernel_mapped; lia|]. lia.
  - intros ra E. unfold ramdisk_to in E. rewrite Hr in E. injection E as <-. split; [apply demo_kernel_mapped; lia|]. lia.
  - intros ra [= <-]. unfold is_u32. lia.
Qed.

(** ** Theorems *)

(** What a loaded image means: the kernel [out] at the header's address, which
    is also the result; the ramdisk, if any, at the build's address, and the
    device tree, [dtb_final], given to [fdt_initrd] together with it. *)
Definition image_loaded `{I : image_build} `{K : kernel_build} `{T : fdt_lib} (img out : bytes) (fdt : Z) (r : option loaded) : Prop :=
  ∃ m', r = Some (Loaded m' (Some (hf img off_kernel_addr)) [] 0) ∧ holds m' (hf img off_kernel_addr) out ∧
    match ramdisk_to img with
    | Some ra => holds m' ra (ramdisk_part img) ∧
        ∃ m1, holds m1 fdt (dtb_final img) ∧ fdt_initrd m1 fdt ra (ra + hf img off_ramdisk_size) = Some (m', 0)
    | None => holds m' fdt (dtb_final img)
    end.

Lemma load_bimage_run `{I : image_build} `{K : kernel_build} `{D : decompressors} `{T : fdt_lib}
    flash_read from to img out m kroom fdt room :
  bimage img → has_image flash_read from img → 0 <= from → from + Z.of_nat (length img) / 512 < 2 ^ 32 →
  0 <= to → to + Z.of_nat (length img) < 2 ^ 32 →
  CFG_EARLY_FASTBOOT = false → CFG_LOAD_DTB_FROM_KERNEL = true → CFG_SUNXI_FDT_ADDR = Some fdt →
  0 < hf img off_dtb_size → layout img to m out kroom fdt room → initrd_ok img fdt room →
  ∃ m', load_bimage flash_read m from to = Some (Loaded m' (Some (hf img off_kernel_addr)) [] 0) ∧
    image_loaded img out fdt (Some (Loaded m' (Some (hf img off_kernel_addr)) [] 0)) ∧
    ∀ x, no_part img to kroom fdt room x → m' !! x = m !! x.
Proof.
  intros Himg Hfl Hf0 Hf1 Ht0 Ht1 He Hl Hfdt Hd Hlay Hini. pose proof (lo_image _ _ _ _ _ _ _ Hlay) as Hmap.
  rewrite (load_bimage_read img Himg flash_read from to Hfl Hf0 Hf1 Ht0 Ht1 m Hmap).
  destruct (place_bimage_run img Himg flash_read from to Hfl Hf0 Hf1 Ht0 Ht1 (write_bytes m to (area img)) out kroom fdt room He Hl Hfdt)
    as (m' & Hr & Hk & Hrest & Hsame); [|apply load_write_eq|done..|].
  { eapply layout_mono; [|exact Hlay]. intros. by apply mapped_write. }
  exists m'. split; [done|]. split; [by exists m'|]. intros x Hx. rewrite Hsame by done. apply lookup_write_out.
  rewrite (length_area img Himg). destruct Hx as (Hx & _). zmod.
Qed.

(** A kernel that is an LZ4 frame becomes the frame's data. *)
Lemma frame_kernel_becomes `{I : image_build} `{D : decompressors} img fr kroom :
  let total := Z.of_nat (length (frame_data fr)) in
  bimage img → kernel_codec = Some LZ4 → kernel_part img = enc_frame fr → frame_ok fr → total <= 0xa00000 → total + 8 <= kroom →
  kernel_becomes img (frame_data fr) kroom.
Proof.
  intros total Himg Hc Hk Hfr Ht Hroom. pose proof (length_kernel_part img Himg) as Hlk. rewrite Hk in Hlk.
  pose proof (bimage_inside img Himg) as (_ & _ & Hkin & _). pose proof (bm_read img Himg) as Hrd. pose proof (bm_small img Himg) as Hsm.
  pose proof (fo_long fr Hfr) as Hlong. change (2 ^ 31) with 2147483648 in *.
  unfold kernel_becomes. rewrite Hc.
  assert (hf img 2048 = LZ4F_MAGIC) as ->.
  { unfold hf. assert (take 4 (drop 2048 img) = take 4 (kernel_part img)) as ->.
    { unfold kernel_part, cut. rewrite take_take, Nat.min_l by lia. done. }
    rewrite Hk. unfold enc_frame. rewrite take_app_length' by (by rewrite length_le_bytes). by rewrite le_val_bytes. }
  change (packed_by LZ4 LZ4F_MAGIC) with true. cbv iota. rewrite Hk. intros m dst s Hh Hm Hs Hs32 Hd Hd32 Hap.
  assert (bytes_at m s (enc_frame fr)) as Hin by (by apply bytes_at_load).
  destruct (frame_run m s dst 0xa00000 kroom fr Hfr Hin) as (m' & Hr & Hb & Hkeep); [lia|done|change (2 ^ 31) with 2147483648; lia|lia|done|lia..|done|lia|].
  exists m'. unfold unpack_kernel. rewrite Hr. sbind. split; [done|]. split; [by apply bytes_at_load|exact Hkeep].
Qed.

(** C15: a well-formed boot image of 2 KiB pages on flash is loaded part by
    part: when the image, the device tree, the kernel and the ramdisk have
    places apart from each other, [load_bimage] prints no warning, returns 0
    and the kernel's address; the kernel lies there as stored, or as the
    build's decompressor makes it, the ramdisk at the build's address, and the
    device tree, read a second time from its own sectors with its size field
    raised to the reserved size, is what [fdt_initrd] completes. *)
Theorem bimage_loads `{I : image_build} `{K : kernel_build} `{D : decompressors} `{T : fdt_lib}
    flash_read from to img out m kroom fdt room :
  bimage img → has_image flash_read from img → 0 <= from → from + Z.of_nat (length img) / 512 < 2 ^ 32 →
  0 <= to → to + Z.of_nat (length img) < 2 ^ 32 →
  CFG_EARLY_FASTBOOT = false → CFG_LOAD_DTB_FROM_KERNEL = true → CFG_SUNXI_FDT_ADDR = Some fdt →
  0 < hf img off_dtb_size → layout img to m out kroom fdt room → initrd_ok img fdt room →
  image_loaded img out fdt (load_bimage flash_read m from to).
Proof. intros. destruct (load_bimage_run flash_read from to img out m kroom fdt room) as (m' & -> & Hl & _); done. Qed.

(** The same for a build with LZ4 and a kernel that is stored as an LZ4
    frame: the kernel's address holds the frame's data, decoded by the loader's
    own decoder. *)
Theorem lz4_bimage_loads `{I : image_build} `{K : kernel_build} `{D : decompressors} `{T : fdt_lib}
    flash_read from to img fr m kroom fdt room :
  let total := Z.of_nat (length (frame_data fr)) in
  let ka := hf img off_kernel_addr in
  bimage img → has_image flash_read from img → 0 <= from → from + Z.of_nat (length img) / 512 < 2 ^ 32 →
  0 <= to → to + Z.of_nat (length img) < 2 ^ 32 → to + read_bytes img < 2 ^ 32 →
  CFG_EARLY_FASTBOOT = false → CFG_LOAD_DTB_FROM_KERNEL = true → CFG_SUNXI_FDT_ADDR = Some fdt → CFG_RAMDISK_ADDR = None →
  CFG_SUNXI_GUNZIP = false → CFG_SUNXI_LZ4 = true → kernel_part img = enc_frame fr → frame_ok fr →
  total <= 0xa00000 → total + 8 <= kroom →
  mapped m to (512 * (read_bytes img / 512)) → mapped m ka kroom → mapped m fdt room → dtb_bytes img <= room →
  ka + hf img off_kernel_size < 2 ^ 32 → ka + 0xa00000 < 2 ^ 32 →
  to + read_bytes img < ka ∨ ka + Z.max kroom (hf img off_kernel_size) <= to →
  disjoint fdt room to (read_bytes img) → disjoint ka kroom fdt room →
  0 < hf img off_dtb_size → initrd_ok img fdt room →
  image_loaded img (frame_data fr) fdt (load_bimage flash_read m from to).
Proof.
  intros total ka Himg Hfl Hf0 Hf1 Ht0 Ht1 Hrb He Hl Hfdt Hra Hgz Hlz Hk Hfr Ht Hroom Hm1 Hm2 Hm3 Hfit Hka1 Hka2 Hap Hd1 Hd2 Hd Hini.
  destruct (load_bimage_run flash_read from to img (frame_data fr) m kroom fdt room) as (m' & -> & Hres & _); try done.
  constructor; [done|done|by repeat split| | |].
  - split; [lia|]. right. split; [|by repeat split]. eapply frame_kernel_becomes; try done. unfold kernel_codec. by rewrite Hgz, Hlz.
  - intros ra E. unfold ramdisk_to in E. rewrite Hra in E. by destruct (_ =? _).
  - intros ra E. by rewrite Hra in E.
Qed.

Lemma bimage_loads_witness :
  image_loaded (I := demo_kernel_opts) (K := demo_kernel_build) (T := demo_fdt) demo_bimage (kernel_part demo_bimage) 0x3000
    (load_bimage (I := demo_kernel_opts) (K := demo_kernel_build) (D := demo_decompressors) (T := demo_fdt)
       (demo_reader 64 demo_bimage) demo_kernel_mem 64 0x1000).
Proof.
  pose proof demo_bimage_fields as [Hl _ _ _ _ _ _ Hd].
  apply (bimage_loads (I := demo_kernel_opts) (K := demo_kernel_build) (D := demo_decompressors) (T := demo_fdt)
    (demo_reader 64 demo_bimage) 64 0x1000 demo_bimage (kernel_part demo_bimage) demo_kernel_mem 16 0x3000 1024).
  - exact demo_bimage_ok.
  - apply demo_reader_has.
  - lia.
  - rewrite Hl. reflexivity.
  - lia.
  - rewrite Hl. reflexivity.
  - reflexivity.
  - reflexivity.
  - reflexivity.
  - rewrite Hd. lia.
  - exact demo_layout_ok.
  - intros m s e _. exists m. split; [reflexivity|done].
Defined.

Definition demo_lz4_build : kernel_build := KernelBuild 0x1000 None false true 0.

Lemma lz4_bimage_loads_witness :
  image_loaded (I := demo_kernel_opts) (K := demo_lz4_build) (T := demo_fdt) demo_lz4_bimage
    [1; 2; 3; 1; 2; 3; 1; 2; 3; 1; 4; 5; 6; 7; 8; 9; 8; 7] 0x3000
    (load_bimage (I := demo_kernel_opts) (K := demo_lz4_build) (D := demo_decompressors) (T := demo_fdt)
       (demo_reader 64 demo_lz4_bimage) demo_kernel_mem 64 0x1000).
Proof.
  pose proof demo_lz4_fields as [Hl Hk Ha Hr Hs Hp Ho Hd].
  assert (read_bytes demo_lz4_bimage = 4649) as Hrb by (unfold read_bytes; rewrite Hk, Hr, Hs; reflexivity).
  assert (dtb_bytes demo_lz4_bimage = 512) as Hdb by (unfold dtb_bytes; rewrite Hd; reflexivity).
  apply (lz4_bimage_loads (I := demo_kernel_opts) (K := demo_lz4_build) (D := demo_decompressors) (T := demo_fdt)
    (demo_reader 64 demo_lz4_bimage) 64 0x1000 demo_lz4_bimage demo_frame demo_kernel_mem 32 0x3000 1024); rewrite ?Hrb, ?Hdb, ?Ha, ?Hk; unfold disjoint.
  - exact demo_lz4_ok.
  - apply demo_reader_has.
  - lia.
  - rewrite Hl. reflexivity.
  - lia.
  - rewrite Hl. reflexivity.
  - reflexivity.
  - reflexivity.
  - reflexivity.
  - reflexivity.
  - reflexivity.
  - reflexivity.
  - reflexivity.
  - vm_compute. reflexivity.
  - exact demo_frame_ok.
  - vm_compute. discriminate.
  - vm_compute. discriminate.
  - change (512 * (4649 / 512)) with 4608. apply demo_kernel_mapped; lia.
  - apply demo_kernel_mapped; lia.
  - apply demo_kernel_mapped; lia.
  - lia.
  - lia.
  - lia.
  - lia.
  - lia.
  - lia.
  - rewrite Hd. lia.
  - intros m s e _. exists m. split; [reflexivity|done].
Defined.

(** On ranges that end below 4 GiB [sunxi_mem_info] accepts exactly those that
    do not overlap, except that a range ending where the other begins is
    refused as well. *)
Theorem mem_info_exact a n b k :
  0 <= a → 0 <= n → 0 <= b → 0 <= k → a + n < 2 ^ 32 → b + k < 2 ^ 32 →
  (sunxi_mem_info a n b k = 0 ↔ a + n < b ∨ b + k <= a) ∧
  (sunxi_mem_info a n b k = 0 → ∀ x, a <= x < a + n → ¬ b <= x < b + k).
Proof. intros. rewrite mem_info_run by done. case_decide; split; intros; lia. Qed.

Lemma mem_info_exact_witness : sunxi_mem_info 0x1000 0x100 0x1101 0x100 = 0 ∧ sunxi_mem_info 0x1000 0x100 0x1100 0x100 ≠ 0.
Proof.
  split.
  - apply (proj1 (mem_info_exact 0x1000 0x100 0x1101 0x100 ltac:(lia) ltac:(lia) ltac:(lia) ltac:(lia) ltac:(lia) ltac:(lia))). lia.
  - intros H. apply (proj1 (mem_info_exact 0x1000 0x100 0x1100 0x100 ltac:(lia) ltac:(lia) ltac:(lia) ltac:(lia) ltac:(lia) ltac:(lia))) in H. lia.
Defined.

(** Every outcome of [load_bimage], for any reader and decompressor: -1 with no
    kernel address stored, or 0 with the address that the header in memory ends
    up with, and then the first read had succeeded and had brought the magic. *)
Theorem bimage_verdict `{I : image_build} `{K : kernel_build} `{D : decompressors} `{T : fdt_lib} flash_read m from to l :
  load_bimage flash_read m from to = Some l →
  (ld_ret l = -1 ∧ ld_kernel l = None) ∨
  (ld_ret l = 0 ∧ ld_kernel l = field (ld_mem l) to off_kernel_addr ∧ is_Some (ld_kernel l) ∧
   ∃ m1 magic, flash_read m from 8 to = Some (m1, 0) ∧ load_n 8 m1 to = Some magic ∧ memcmp magic ANDR_BOOT_MAGIC 8 = Some 0).
Proof.
  unfold load_bimage. change (SUNXI_FLASH_READ_FIRST_SIZE / 512) with 8. intros H.
  apply bind_Some_inv in H as ([m1 r] & Hread & H). destruct (Z.eqb_spec r 0) as [->|_]; cbn [negb] in H; [|injection H as <-; by left].
  apply bind_Some_inv in H as (magic & Hm & H). apply bind_Some_inv in H as (c & Hc & H).
  destruct (Z.eqb_spec c 0) as [->|_]; cbn [negb] in H; [|injection H as <-; by left].
  apply bind_Some_inv in H as (ks & _ & H). apply bind_Some_inv in H as (rs & _ & H). apply bind_Some_inv in H as (ss & _ & H).
  apply bind_Some_inv in H as ([m2 r] & _ & H). destruct (negb (r =? 0)); [injection H as <-; by left|].
  unfold place_bimage in H. apply bind_Some_inv in H as ([m3 r3] & _ & H). destruct (negb (r3 =? 0)); [injection H as <-; by left|].
  apply bind_Some_inv in H as ([[m4 w1] r4] & _ & H). destruct (negb (r4 =? 0)); [injection H as <-; by left|].
  apply bind_Some_inv in H as ([[m5 w2] r5] & _ & H). destruct (negb (r5 =? 0)); [injection H as <-; by left|].
  apply bind_Some_inv in H as (ka & Hka & [= <-]). right. cbn [ld_ret ld_kernel ld_mem]. rewrite Hka. split; [done|].
  split; [done|]. split; [by eexists|]. by exists m1, magic.
Qed.

Lemma bimage_verdict_witness :
  let l := Loaded demo_kernel_mem None [] (-1) in
  load_bimage (I := demo_kernel_opts) (K := demo_kernel_build) (D := demo_decompressors) (T := demo_fdt)
    (demo_reader 64 []) demo_kernel_mem 64 0x1000 = Some l ∧ (ld_ret l = -1 ∧ ld_kernel l = None ∨ ld_ret l = 0).
Proof.
  assert (load_bimage (I := demo_kernel_opts) (K := demo_kernel_build) (D := demo_decompressors) (T := demo_fdt)
    (demo_reader 64 []) demo_kernel_mem 64 0x1000 = Some (Loaded demo_kernel_mem None [] (-1))) as H by reflexivity.
  split; [exact H|]. destruct (bimage_verdict (I := demo_kernel_opts) (K := demo_kernel_build) (D := demo_decompressors) (T := demo_fdt)
    (demo_reader 64 []) demo_kernel_mem 64 0x1000 _ H) as [Hv|[Hv _]]; [by left|by right].
Defined.

(** A copy without the magic is refused after its first 4 KiB. *)
Lemma load_bimage_bad `{I : image_build} `{K : kernel_build} `{D : decompressors} `{T : fdt_lib} flash_read from to bad m :
  has_image flash_read from bad → is_byte_list bad → 4096 <= Z.of_nat (length bad) → take 8 bad ≠ ANDR_BOOT_MAGIC → mapped m to 4096 →
  load_bimage flash_read m from to = Some (Loaded (write_bytes m to (cut 0 4096 bad)) None [] (-1)).
Proof.
  intros Hfl Hb Hlen Hne Hm. unfold load_bimage. change (SUNXI_FLASH_READ_FIRST_SIZE / 512) with 8.
  pose proof (Hfl m 0 8 to ltac:(lia) ltac:(lia) ltac:(lia) Hm) as H1. rewrite Z.add_0_r in H1. rewrite H1. sbind.
  cbn [negb Z.eqb]. change (512 * 0) with 0. change (512 * 8) with 4096.
  assert (Z.of_nat (length (cut 0 4096 bad)) = 4096) as Hl1 by (apply length_cut; lia).
  set (m1 := write_bytes _ _ _). assert (load_n 8 m1 to = Some (take 8 bad)) as ->.
  { assert (holds m1 to (cut 0 4096 bad)) as Hm1 by apply load_write_eq.
    pose proof (load_n_sub _ _ _ _ 0 8 Hm1 ltac:(lia)) as H. rewrite Z.add_0_r, drop_0 in H. rewrite H. f_equal.
    unfold cut. rewrite drop_0, take_take, Nat.min_l by lia. done. }
  sbind. destruct (memcmp_loop_spec (take 8 bad) ANDR_BOOT_MAGIC 8) as (res & Hr & Hz).
  { by apply Forall_take. }
  { unfold ANDR_BOOT_MAGIC. repeat (apply Forall_cons_2; [unfold is_u8; lia|]). by apply Forall_nil_2. }
  { rewrite length_take. lia. }
  { simpl. lia. }
  unfold memcmp. rewrite Hr. sbind. destruct (Z.eqb_spec res 0) as [->|]; [|done].
  exfalso. apply Hne. rewrite take_take, Nat.min_id in Hz. by apply Hz.
Qed.

(** With a second copy of the kernel, a first copy that has lost its header
    does no harm: whichever way the build keeps the copy, and whatever the
    switch flag says, the image that is loaded is the second one. *)
Theorem kernel_second_copy `{I : image_build} `{K : kernel_build} `{D : decompressors} `{T : fdt_lib}
    flash_read start backup flag bad img out m kroom fdt room :
  has_image flash_read start bad → is_byte_list bad → 4096 <= Z.of_nat (length bad) → take 8 bad ≠ ANDR_BOOT_MAGIC →
  bimage img → has_image flash_read backup img → 0 <= backup → backup + Z.of_nat (length img) / 512 < 2 ^ 32 →
  0 <= CFG_KERNEL_LOAD_ADDR → CFG_KERNEL_LOAD_ADDR + Z.of_nat (length img) < 2 ^ 32 →
  CFG_EARLY_FASTBOOT = false → CFG_LOAD_DTB_FROM_KERNEL = true → CFG_SUNXI_FDT_ADDR = Some fdt →
  0 < hf img off_dtb_size → layout img CFG_KERNEL_LOAD_ADDR m out kroom fdt room → initrd_ok img fdt room →
  image_loaded img out fdt (load_kernel_fixed flash_read m start (NOR_BACKUP backup flag)) ∧
  image_loaded img out fdt (load_kernel_fixed flash_read m start (NAND_BACKUP backup)).
Proof.
  intros Hbad Hbb Hbl Hbm Himg Hfl Hf0 Hf1 Ht0 Ht1 He Hl Hfdt Hd Hlay Hini.
  assert (∀ m', (∀ b k, mapped m b k → mapped m' b k) → image_loaded img out fdt (load_bimage flash_read m' backup CFG_KERNEL_LOAD_ADDR)) as Hgood.
  { intros m' Hp. destruct (load_bimage_run flash_read backup CFG_KERNEL_LOAD_ADDR img out m' kroom fdt room) as (m1 & -> & Hres & _); try done.
    by eapply layout_mono. }
  assert (mapped m CFG_KERNEL_LOAD_ADDR 4096) as Hm4.
  { pose proof (bimage_inside img Himg) as (Hin & _). eapply mapped_sub; [apply (lo_image _ _ _ _ _ _ _ Hlay)|lia..]. }
  unfold load_kernel_fixed. rewrite (load_bimage_bad flash_read start _ bad m) by done. sbind.
  assert (image_loaded img out fdt (load_bimage flash_read (write_bytes m CFG_KERNEL_LOAD_ADDR (cut 0 4096 bad)) backup CFG_KERNEL_LOAD_ADDR)) as H2
    by (apply Hgood; intros; by apply mapped_write).
  split; [|done]. destruct (flag =? 0); [by apply Hgood|done].
Qed.

(** Nothing but zeros at the first place. *)
Lemma kernel_second_copy_witness :
  let rd := λ m s n b, if s <? 64 then demo_reader 0 (replicate (Z.to_nat 4096) 0) m s n b else demo_reader 64 demo_bimage m s n b in
  image_loaded (I := demo_kernel_opts) (K := demo_kernel_build) (T := demo_fdt) demo_bimage (kernel_part demo_bimage) 0x3000
    (load_kernel_fixed (I := demo_kernel_opts) (K := demo_kernel_build) (D := demo_decompressors) (T := demo_fdt) rd demo_kernel_mem 0 (NAND_BACKUP 64)).
Proof.
  intros rd. pose proof demo_bimage_fields as [Hl _ _ _ _ _ _ Hd].
  assert (∀ k, length (replicate (Z.to_nat k) 0) = Z.to_nat k) as Hrep by (intros; apply length_replicate).
  apply (kernel_second_copy (I := demo_kernel_opts) (K := demo_kernel_build) (D := demo_decompressors) (T := demo_fdt)
    rd 0 64 1 (replicate (Z.to_nat 4096) 0) demo_bimage (kernel_part demo_bimage) demo_kernel_mem 16 0x3000 1024).
  - intros m s n b ? ? Hle ?. rewrite Hrep in Hle. unfold rd. rewrite (proj2 (Z.ltb_lt _ _)) by lia.
    apply demo_reader_has; [lia|lia|by rewrite Hrep|done].
  - apply Forall_replicate. unfold is_u8. lia.
  - rewrite Hrep. lia.
  - intros H. apply (f_equal (λ l, nth 0 l 0)) in H. vm_compute in H. discriminate.
  - exact demo_bimage_ok.
  - intros m s n b ? ? Hle ?. unfold rd. rewrite (proj2 (Z.ltb_ge _ _)) by lia. by apply demo_reader_has.
  - lia.
  - rewrite Hl. reflexivity.
  - simpl. lia.
  - rewrite Hl. reflexivity.
  - reflexivity.
  - reflexivity.
  - reflexivity.
  - rewrite Hd. lia.
  - exact demo_layout_ok.
  - intros m s e _. exists m. split; [reflexivity|done].
Defined.

Definition boot_partition_key : bytes := chars (cstr "boot_partition").

Lemma boot_partition_key_ok : name_ok boot_partition_key.
Proof. apply (bool_decide_unpack _). vm_compute. exact I. Qed.

(** With environment and partition table open, the kernel is loaded from the
    first sector of the partition that the variable [boot_partition] names
    (plus the build's offset), after the environment was closed and its buffer
    given back.  When the variable or the partition is missing the loader
    returns 0 all the same, without a kernel. *)
Lemma from_env_run `{L : heap_layout} `{F : storage} `{V : env_vars} `{O : env_config} `{I : image_build} `{K : kernel_build}
    `{D : decompressors} `{T : fdt_lib} `{W : kernel_vars} flash_read g e m g0 e0 m0 vs es base limit l b :
  CFG_EARLY_FASTBOOT = false → CFG_SUNXI_NO_UPDATE_FDT_CHOSEN = true →
  mapped m kernel_start 4 → gpt_env_init g e (w32 m kernel_start 0) = Some (m0, g0, e0, 0) →
  0 < e_data (environment e0) → Forall var_ok vs → vs ≠ [] → holds m0 (e_data (environment e0)) (block_text vs) →
  Z.of_nat (length (block_text vs)) <= usable_envsize e0 →
  gpt_rep m0 (gpt_data_point g0) es → mapped m0 kernel_start 4 → mapped m0 0 4 →
  kernel_start + 4 <= gpt_data_point g0 + 1024 ∨ gpt_data_point g0 + 1024 + 128 * Z.of_nat (length es) <= kernel_start →
  heap_rep base limit m0 l → b ∈ l → e_image (environment e0) = adr b →
  var_outside base limit kernel_start → var_outside base limit 0 → 4 <= kernel_start →
  let r := load_kernel_from_flash flash_read g e m in
  match lookup_var vs boot_partition_key ≫= λ name, find_part name es with
  | Some p => ∃ m1 e1 l', heap_rep base limit m1 l' ∧ l ≡ₚ b :: l' ∧ s_is_env_opened e1 = 0 ∧
      Heap.same_outside base limit (w32 (w32 m0 kernel_start (u32 (p_start p))) 0 (u32 (p_end p + 1 - p_start p))) m1 ∧
      r = (ld ← load_bimage flash_read m1 (u32 (p_start p) ⊞ CFG_SUNXI_LOGIC_OFFSET) CFG_KERNEL_LOAD_ADDR; Some (g0, e1, ld))
  | None => r = Some (g0, e0, Loaded m0 None [] 0)
  end.
Proof.
  intros He Hn Hms Hinit Hdp Hvs Hne Hld Husz Hgpt Hmk Hm0 Hapart Hrep Hb Himg Hvk Hv0 Hk4 r.
  unfold r, load_kernel_from_flash. rewrite wr32_mapped by done. sbind. rewrite He, Hinit. sbind. cbn [negb andb Z.eqb].
  unfold save_rootfs_name. rewrite Hn. sbind.
  pose proof (fw_getenv_run e0 m0 boot_partition_key [] vs Hdp boot_partition_key_ok Hvs Hne Hld Husz) as Hget.
  change (cstr "boot_partition") with (boot_partition_key ++ [0]).
  destruct (lookup_var vs boot_partition_key) as [name|] eqn:Ename; cbn [mbind option_bind].
  2:{ by rewrite Hget. }
  destruct Hget as (p & Hp & Hp0 & Hpl).
  rewrite Hp. sbind. destruct (Z.eqb_spec p 0) as [|_]; [done|].
  pose proof (lookup_var_cstr vs _ _ Hvs Ename) as Hcs.
  rewrite (c_string_run m0 p name Hcs) by (unfold holds; rewrite length_app, Nat.add_1_r; exact Hpl). sbind.
  rewrite (part_lookup_run g0 m0 es name [] kernel_start 0) by done.
  destruct (find_part name es) as [pt|]; sbind; [|done]. cbn [negb Z.eqb].
  set (m2 := w32 _ 0 _).
  assert (heap_rep base limit m2 l) as Hrep2 by (apply rep_w32_outside; [by apply rep_w32_outside|done]).
  unfold fw_env_close. rewrite Himg.
  destruct (live_split base limit m2 b) as (_ & _ & _ & Hpos); [by eexists|].
  destruct (Z.eqb_spec (adr b) 0) as [|_]; [lia|]. cbn [negb].
  apply list_elem_of_split in Hb as (x & y & ->).
  pose proof (free_spec base limit m2 _ (adr b) Hrep2 ltac:(lia) ltac:(lia)) as Hf.
  rewrite (split_at_mid _ _ _ _ (rep_wf _ _ _ _ Hrep2)) in Hf. destruct Hf as (m3 & -> & Hrep3 & _ & Hout). sbind.
  assert (rd32 m3 kernel_start = Some (u32 (p_start pt))) as ->.
  { rewrite (rd32_ext m3 m2) by (destruct Hvk as (?&?&?); intros z Hz; apply Hout; lia). unfold m2. rewrite rd32_w32_ne by lia. apply rd32_w32_eq, u32_bound. }
  sbind. exists m3, (set_opened (set_image e0 0) 0), (x ++ y). split; [done|]. split; [by rewrite Permutation_middle|]. split; [done|]. split; [exact Hout|]. done.
Qed.

(** A heap with one block, an open environment [vs] in it, and the table of
    [Gpt] at 0x300. *)
Definition demo_boot_env : env_state := EnvState 64 59 0 1 (Environment 0x150 0x150 0x154 0x155 FLAG_INCREMENTAL).
Definition demo_boot_mem (vs : list (bytes * bytes)) : mem :=
  let m := default ∅ (malloc_init (L := demo_layout None) (mem_of 0 (replicate 0x300 0 ++ demo_gpt)) 0x140 (0x2c0 - 0x140)) in
  let m := fst (default (∅, 0) (malloc (L := demo_layout None) m 64)) in
  write_bytes m 0x155 (block_text vs).
Definition demo_boot_locals : kernel_vars := KernelVars 0x130 0x134.

Definition demo_riscv : boot0_build := Boot0Build 0 0 false false true true.

(** When the environment does not name a boot partition, the loader's return
    value is still the 0 of [gpt_env_init]: [load_and_run_kernel] starts OpenSBI
    with whatever its uninitialised local [kernel_addr] holds. *)
Theorem missing_partition_jumps flash_read stack :
  lookup_var demo_text boot_partition_key = None ∧
  ∃ m', load_and_run_kernel (L := demo_layout None) (F := demo_storage) (V := demo_vars) (O := demo_config) (B := demo_riscv)
      (I := demo_kernel_opts) (K := demo_kernel_build) (D := demo_decompressors) (T := demo_fdt) (W := demo_boot_locals)
      flash_read Some (GptState 0x300 1) demo_boot_env (demo_boot_mem demo_text) stack 0 0x8000 0 =
    Some (m', KOpensbi 0x3000 0x8000 stack).
Proof.
  split; [reflexivity|]. exists (w32 (demo_boot_mem demo_text) 0x130 0).
  unfold load_and_run_kernel, load_kernel_from_flash. cbn [kernel_start demo_boot_locals].
  rewrite wr32_mapped by (apply mappedb_spec; vm_compute; reflexivity).
  assert (fw_getenv demo_boot_env (w32 (demo_boot_mem demo_text) 0x130 0) (cstr "boot_partition") = Some 0) as Hg by (vm_compute; reflexivity).
  generalize dependent (w32 (demo_boot_mem demo_text) 0x130 0). intros m Hg. sbind.
  cbn [CFG_EARLY_FASTBOOT demo_kernel_build]. change (gpt_env_init _ _ m) with (Some (m, GptState 0x300 1, demo_boot_env, 0)).
  sbind. cbn [negb andb Z.eqb]. change (save_rootfs_name demo_boot_env m) with (Some m). sbind. rewrite Hg. reflexivity.
Qed.
