(* ===== verification/KernelRun.v ===== *)
(** * A kernel started from the flash's own table and environment (sunxi_bootimage.c)

    [load_and_run_kernel] from a cold start: the partition table is read into a
    new buffer, the two copies of the environment are opened, the partition
    that [boot_partition] names is looked up, its boot image is loaded part by
    part, and the first of the programs present is entered.  The theorem joins
    those of [Gpt], [Env], [Heap] and [KernelImage]; what it assumes is what
    lies on the flash and which memory is there. *)

From S2P Require Import Prelude Crc32 Mem CString Checksum Heap Gpt Env BootImage BootPkg BootParam LoadImage Lz4 Boot0 KernelImage.

Local Open Scope Z_scope.
Local Open Scope c_scope.

(** ** A table wherever it lies *)

Lemma load_n_moved (m : mem) p b bs o k x :
  load_n (length bs) m p = Some bs → 0 <= o → load_n k (mem_of b bs) (b + o) = Some x → load_n k m (p + o) = Some x.
Proof.
  intros Hl. revert o x. induction k as [|k IH]; intros o x Ho Hx; [done|]. cbn [load_n] in *.
  assert (∀ v, mem_of b bs !! (b + o) = Some v → m !! (p + o) = Some v) as Hv.
  { intros v Hv. destruct (decide (o < Z.of_nat (length bs))) as [Hin|Hout].
    - pose proof (load_n_lookup _ _ _ _ (Z.to_nat o) Hl ltac:(lia)) as H1.
      pose proof (load_n_lookup _ _ _ _ (Z.to_nat o) (load_write_eq ∅ b bs) ltac:(lia)) as H2.
      rewrite Z2Nat.id in H1, H2 by done. unfold mem_of in Hv. congruence.
    - unfold mem_of in Hv. rewrite lookup_write_out in Hv by lia. done. }
  apply bind_Some_inv in Hx as (v & H1 & Hx). apply bind_Some_inv in Hx as (l & H2 & [= <-]).
  rewrite (Hv v H1). sbind. rewrite <- Z.add_assoc. rewrite (IH (o + 1) l); [done|lia|]. by rewrite Z.add_assoc.
Qed.

Section moved.
Context (m : mem) (p b : Z) (bs : bytes) (Hl : load_n (length bs) m p = Some bs).

Lemma rdn_moved n o v : 0 <= o → rdn n (mem_of b bs) (b + o) = Some v → rdn n m (p + o) = Some v.
Proof.
  unfold rdn. intros Ho Hv. destruct (load_n n (mem_of b bs) (b + o)) as [x|] eqn:Hx; [|done].
  by rewrite (load_n_moved m p b bs o n x Hl Ho Hx).
Qed.

Lemma char8_moved k o cs : 0 <= o → char8_name k (mem_of b bs) (b + o) = Some cs → char8_name k m (p + o) = Some cs.
Proof.
  revert o cs. induction k as [|k IH]; intros o cs Ho Hc; [done|]. cbn [char8_name] in *.
  apply bind_Some_inv in Hc as (c & H1 & Hc). apply bind_Some_inv in Hc as (l & H2 & [= <-]).
  rewrite (rdn_moved 2 o c Ho H1). sbind. rewrite <- Z.add_assoc in *. by rewrite (IH (o + 2) l) by (done || lia).
Qed.

Lemma entries_moved es o : 0 <= o → entries_rep (mem_of b bs) (b + o) es → entries_rep m (p + o) es.
Proof.
  revert o. induction es as [|e es IH]; intros o Ho He; [done|]. destruct He as [(H1 & H2 & H3 & pad & H4) He].
  cbn [entries_rep]. unfold entry_rep. unfold off_starting_lba, off_ending_lba, off_partition_name, sizeof_gpt_entry in *.
  rewrite <- !Z.add_assoc in *. split.
  - split; [apply rdn_moved; [lia|done]|]. split; [apply rdn_moved; [lia|done]|]. split; [done|]. exists pad. apply char8_moved; [lia|done].
  - apply IH; [lia|done].
Qed.

(** The table [es] in [bs], wherever [bs] is loaded. *)
Lemma gpt_rep_moved es : gpt_rep (mem_of b bs) b es → p ≠ 0 → gpt_rep m p es.
Proof.
  intros (_ & H1 & H2 & H3) Hp. split; [done|].
  unfold GPT_HEAD_OFFSET, GPT_ENTRY_OFFSET, off_signature, off_num_partition_entries in *. rewrite <- !Z.add_assoc in *.
  split; [by apply rdn_moved|]. split; [by apply rdn_moved|by apply entries_moved].
Qed.

End moved.

(** Only one copy can be the one to keep. *)
Lemma kept_copy_unique ok0 ok1 f0 f1 k k' : kept_copy ok0 ok1 f0 f1 k → kept_copy ok0 ok1 f0 f1 k' → k = k'.
Proof. intros H H'. destruct H, H'; congruence || done. Qed.

(** ** What lies on the flash, and where memory is *)

Definition env_key : bytes := [0x65; 0x6e; 0x76].
Definition env_key_2 : bytes := [0x65; 0x6e; 0x76; 0x2d; 0x72; 0x65; 0x64; 0x75; 0x6e; 0x64].

Section boot.
Context `{L : heap_layout} `{F : storage} `{V : env_vars} `{O : env_config} `{B : boot0_build}.
Context `{I : image_build} `{K : kernel_build} `{D : decompressors} `{T : fdt_lib} `{W : kernel_vars}.
Context (base limit : Z) (cur : nat).

(** The table [tbl] lists the partitions [es], among them the two of the
    environment; of its two copies the one to keep holds the variables [vs]. *)
Record flash_holds (tbl : bytes) (es : list part) (p0 p1 : part) (img0 img1 : bytes) (d : Z) (vs : list (bytes * bytes)) : Prop := {
  fh_init : spl_flash_init = 0;
  fh_table : spl_flash_read gpt_start_sector 8 = Some tbl ∧ length tbl = 4096%nat ∧ gpt_rep (mem_of 1 tbl) 1 es ∧ (length es <= 24)%nat;
  fh_parts : find_part env_key es = Some p0 ∧ find_part env_key_2 es = Some p1;
  fh_some : u32 (p_start p0) ≠ 0 ∧ u32 (p_end p0 + 1 - p_start p0) ≠ 0;
  fh_copy0 : spl_flash_read (u32 (p_start p0)) (Z.of_nat cur / 512) = Some img0 ∧ length img0 = cur;
  fh_copy1 : spl_flash_read (u32 (p_start p1)) (Z.of_nat cur / 512) = Some img1 ∧ length img1 = cur;
  fh_kept : kept_copy (copy_ok cur img0) (copy_ok cur img1) (copy_flag img0) (copy_flag img1) (Some d);
  fh_vars : ∃ rest, drop 5 (if d =? 0 then img0 else img1) = block_text vs ++ rest;
  fh_vars_ok : Forall var_ok vs ∧ vs ≠ []
}.

(** The static words; the last one is the NULL that the loader passes for a
    size it does not want. *)
Definition statics : list Z := [env_start_sector; env_sectors; env_start_sector_2; env_sectors_2; kernel_start; 0].

Definition env_block (l1 : list blk) : blk := env_blk base cur l1.

(** A heap with the blocks [l] and room for the table, after [l1], and for the
    two copies, and the static words outside it. *)
Record memory_ready (m : mem) (l l1 l2 j1 j2 k1 k2 : list blk) : Prop := {
  mr_heap : heap_rep base limit m l;
  mr_table : first_gap limit base 4096 l = Some (l1, l2);
  mr_copy0 : first_gap limit base (env_need cur) (l1 ++ gpt_blk base l1 :: l2) = Some (j1, j2);
  mr_copy1 : first_gap limit base (env_need cur) (j1 ++ env_block j1 :: j2) = Some (k1, k2);
  mr_room : limit + Z.of_nat cur + 1071 < 2 ^ 32 ∧ limit + 4143 < 2 ^ 32;
  mr_statics : Forall (λ a, mapped m a 4 ∧ var_outside base limit a ∧ 0 <= a) statics;
  mr_apart : ForallOrdPairs (λ a b, a + 4 <= b ∨ b + 4 <= a) statics
}.

(** The build: no cache lines, a redundant environment of [cur] bytes, no
    early fast boot, and no name of the root file system to pass on. *)
Record build_ok : Prop := {
  bo_cache : cache_line = None;
  bo_env : have_redundenv = true ∧ env_size = Z.of_nat cur ∧ (512 <= cur)%nat;
  bo_boot : CFG_EARLY_FASTBOOT = false ∧ CFG_SUNXI_NO_UPDATE_FDT_CHOSEN = true
}.

(** What the heap does keeps memory mapped. *)
Lemma heap_grows (m m' : mem) l : Heap.same_outside base limit m m' → heap_rep base limit m' l → grows m m'.
Proof.
  intros Hs Hr x Hx. destruct (decide (x < base ∨ limit <= x)) as [H1|H1].
  2:{ apply (rep_map _ _ _ _ Hr). lia. }
  destruct (decide (x < boot_heap_head ∨ boot_heap_head + 16 <= x)) as [H2|H2]; [|apply (rep_map_head _ _ _ _ Hr); lia].
  destruct (decide (x < boot_heap_tail ∨ boot_heap_tail + 16 <= x)) as [H3|H3]; [|apply (rep_map_tail _ _ _ _ Hr); lia].
  by rewrite Hs.
Qed.

Lemma grows_w32 (m : mem) a v : grows m (w32 m a v).
Proof. apply grows_write. Qed.

(** A block's contents survive a write to a word outside the heap. *)
Lemma payload_w32 m l b a v n bs :
  heap_rep base limit m l → b ∈ l → var_outside base limit a → Z.of_nat n <= sz b → load_n n m (adr b) = Some bs →
  load_n n (w32 m a v) (adr b) = Some bs.
Proof.
  intros Hr Hb (Ha & _) Hn Hl. rewrite <- Hl. apply load_n_ext. intros x Hx. apply lookup_w32_out.
  pose proof (rep_end _ _ _ _ Hr). destruct (wfl_mem _ _ _ (rep_wf _ _ _ _ Hr) Hb) as (?&?&?&?&?&?). lia.
Qed.

(** ** Opening table and environment *)

Lemma pairs_cons {A} (R : A → A → Prop) x l : ForallOrdPairs R (x :: l) → Forall (R x) l ∧ ForallOrdPairs R l.
Proof. by inversion_clear 1. Qed.

(** One lookup in the table of the block [gb]. *)
Lemma table_lookup (m : mem) l gb tbl es key a c p :
  heap_rep base limit m l → gb ∈ l → sz gb = 4096 → load_n 4096 m (adr gb) = Some tbl → gpt_rep (mem_of 1 tbl) 1 es → (length es <= 24)%nat →
  is_cstr key → find_part key es = Some p → mapped m a 4 → mapped m c 4 → var_outside base limit a → var_outside base limit c →
  let m' := w32 (w32 m a (u32 (p_start p))) c (u32 (p_end p + 1 - p_start p)) in
  get_part_info_by_name (GptState (adr gb) 1) m (key ++ [0]) a c = Some (m', 0) ∧
  heap_rep base limit m' l ∧ load_n 4096 m' (adr gb) = Some tbl.
Proof.
  intros Hr Hb Hsz Hl Hg Hn Hk Hf Ha Hc Hva Hvc m'. pose proof (rep_end _ _ _ _ Hr).
  destruct (wfl_mem _ _ _ (rep_wf _ _ _ _ Hr) Hb) as (?&?&?&?&?&?). pose proof (room_base _ _ (rep_room _ _ _ _ Hr)) as Hbase.
  pose proof (load_n_length _ _ _ _ Hl) as Hlen. split; [|split].
  - rewrite (part_lookup_run (GptState (adr gb) 1) m es key [] a c); [by rewrite Hf| |done|done|done|].
    + cbn [gpt_data_point]. eapply gpt_rep_moved; [by rewrite Hlen|exact Hg|lia].
    + cbn [gpt_data_point]. destruct Hva as (Hva & _). lia.
  - unfold m'. apply rep_w32_outside; [by apply rep_w32_outside|done].
  - unfold m'. eapply (payload_w32 _ l gb); [by apply rep_w32_outside|done|done|lia|]. eapply (payload_w32 _ l gb); done || lia.
Qed.

Section opening.
Context (Hbo : build_ok) (tbl : bytes) (es : list part) (p0 p1 : part) (img0 img1 : bytes) (d : Z) (vs : list (bytes * bytes)).
Context (Hfh : flash_holds tbl es p0 p1 img0 img1 d vs).

Let gb l1 : blk := gpt_blk base l1.

Lemma table_opened (m : mem) l l1 l2 :
  heap_rep base limit m l → limit + 4143 < 2 ^ 32 → first_gap limit base 4096 l = Some (l1, l2) →
  ∃ m', init_gpt (GptState 0 0) m = Some (m', GptState (adr (gb l1)) 1, 0) ∧
    heap_rep base limit m' (l1 ++ gb l1 :: l2) ∧ load_n 4096 m' (adr (gb l1)) = Some tbl ∧ Heap.same_outside base limit m m'.
Proof.
  intros Hr Hroom Hg. destruct Hfh as [Hi (Ht & Htl & (_ & Hsig & _) & _) _ _ _ _ _ _ _].
  pose proof (init_gpt_spec base limit (bo_cache Hbo) tbl Htl Hi Ht m l Hr ltac:(unfold request_ok; change (2 ^ 32) with 4294967296 in *; lia)) as Ho.
  unfold init_outcome in Ho. rewrite Hg in Ho. destruct Ho as (m' & _ & Hs & [(_ & Hrun & Hr' & Hl)|(Hns & _)]); [by exists m'|].
  destruct Hns. unfold sig_ok. rewrite <- Hsig. unfold GPT_HEAD_OFFSET, off_signature. symmetry.
  pose proof (rdn_slice 8 (mem_of 1 tbl) 1 tbl (length tbl) 512 (load_write_eq ∅ 1 tbl) ltac:(lia)) as He. exact He.
Qed.

Lemma is_env_key : is_cstr env_key ∧ is_cstr env_key_2.
Proof. split; apply (bool_decide_unpack _); vm_compute; exact Logic.I. Qed.

(** The environment's two partitions. *)
Lemma env_sectors_found (m : mem) e l b :
  heap_rep base limit m l → b ∈ l → sz b = 4096 → load_n 4096 m (adr b) = Some tbl →
  Forall (λ a, mapped m a 4 ∧ var_outside base limit a ∧ 0 <= a) statics → ForallOrdPairs (λ a b, a + 4 <= b ∨ b + 4 <= a) statics →
  ∃ m', flash_env_init (GptState (adr b) 1) e m = Some (m', set_cur_envsize e (Z.of_nat cur), 0) ∧
    heap_rep base limit m' l ∧ load_n 4096 m' (adr b) = Some tbl ∧ grows m m' ∧
    rd32 m' env_start_sector = Some (u32 (p_start p0)) ∧ rd32 m' env_start_sector_2 = Some (u32 (p_start p1)).
Proof.
  intros Hr Hb Hsz Hl Hst Hap. destruct Hfh as [_ (_ & _ & Hg & Hn) [Hf0 Hf1] [Hs0 Hn0] _ _ _ _ _].
  destruct (bo_env Hbo) as (Hred & Hsize & _). destruct is_env_key as [Hk0 Hk1]. unfold statics in *.
  repeat (apply Forall_cons in Hst as [(?&?&?) Hst]).
  repeat (apply pairs_cons in Hap as [Hfp Hap]; repeat (apply Forall_cons in Hfp as [? Hfp]); clear Hfp).
  unfold flash_env_init. change ENV_NAME with (env_key ++ [0]). change ENV_NAME_2 with (env_key_2 ++ [0]).
  destruct (table_lookup m l b tbl es env_key env_start_sector env_sectors p0) as (-> & Hr1 & Hl1); [done..|]. sbind. rewrite Hred.
  set (m1 := w32 _ env_sectors _) in *.
  destruct (table_lookup m1 l b tbl es env_key_2 env_start_sector_2 env_sectors_2 p1) as (-> & Hr2 & Hl2);
    [done..|by repeat apply mapped_w32|by repeat apply mapped_w32|done|done|]. sbind.
  set (m2 := w32 _ env_sectors_2 _) in *.
  assert (rd32 m2 env_start_sector = Some (u32 (p_start p0)) ∧ rd32 m2 env_sectors = Some (u32 (p_end p0 + 1 - p_start p0)) ∧
    rd32 m2 env_start_sector_2 = Some (u32 (p_start p1)) ∧ rd32 m2 env_sectors_2 = Some (u32 (p_end p1 + 1 - p_start p1))) as (E1 & E2 & E3 & E4).
  { unfold m2, m1. repeat split; repeat (rewrite rd32_w32_ne by lia); apply rd32_w32_eq, u32_bound. }
  rewrite E1, E3. sbind. rewrite (proj2 (Z.eqb_neq _ 0) Hs0). cbn [andb]. rewrite E2, E4. sbind.
  rewrite (proj2 (Z.eqb_neq _ 0) Hn0). cbn [negb orb]. exists m2. rewrite Hsize. split; [done|]. split; [done|]. split; [done|].
  split; [|done]. unfold m2, m1. intros x Hx. by repeat apply grows_w32.
Qed.

(** The state with both open. *)
Record opened (m : mem) (e : env_state) (l : list blk) (b be : blk) : Prop := {
  op_heap : heap_rep base limit m l;
  op_table : b ∈ l ∧ sz b = 4096 ∧ load_n 4096 m (adr b) = Some tbl;
  op_env : be ∈ l ∧ e_image (environment e) = adr be ∧ e_data (environment e) = adr be + 5 ∧ usable_envsize e = Z.of_nat cur - 5;
  op_copy : load_n cur m (adr be) = Some (if d =? 0 then img0 else img1)
}.

Lemma gpt_env_opened (m : mem) e l l1 l2 j1 j2 k1 k2 :
  memory_ready m l l1 l2 j1 j2 k1 k2 → s_is_env_opened e = 0 →
  ∃ m' e' l' be, gpt_env_init (GptState 0 0) e m = Some (m', GptState (adr (gb l1)) 1, e', 0) ∧ opened m' e' l' (gb l1) be ∧ grows m m'.
Proof.
  intros [Hr Ht Hc0 Hc1 [Hroom Hroom'] Hst Hap] He. unfold gpt_env_init.
  destruct (table_opened m l l1 l2 Hr Hroom' Ht) as (m1 & -> & Hr1 & Hl1 & Ho1). sbind. cbn [negb Z.eqb].
  assert (gb l1 ∈ l1 ++ gb l1 :: l2) as Hb by apply elem_mid.
  assert (Forall (λ a, mapped m1 a 4 ∧ var_outside base limit a ∧ 0 <= a) statics) as Hst1.
  { eapply Forall_impl; [exact Hst|]. intros a (Hm & Hv & H0). split; [|by split]. eapply grows_mapped; [by eapply heap_grows|done]. }
  destruct (env_sectors_found m1 e _ (gb l1) Hr1 Hb eq_refl Hl1 Hst1 Hap) as (m2 & Hrun & Hr2 & Hl2 & Hg2 & E0 & E1).
  pose proof Hfh as [Hi _ _ _ [Hread0 Hlen0] [Hread1 Hlen1] Hkept _ _]. destruct (bo_env Hbo) as (Hred & Hsize & Hcur).
  unfold statics in Hst. repeat (apply Forall_cons in Hst as [(_&?&_) Hst]).
  pose proof (env_open_spec base limit cur (bo_cache Hbo) Hred Hsize Hcur Hroom Hi ltac:(done) ltac:(done)
    (GptState (adr (gb l1)) 1) e m1 m2 _ _ j1 j2 k1 k2 _ _ img0 img1 He Hrun Hr2 E0 E1 Hread0 Hlen0 Hread1 Hlen1 Hc0 Hc1)
    as (m3 & e' & l' & k & Hr3 & Hsame & Ho3 & Hk & Hout).
  pose proof (kept_copy_unique _ _ _ _ _ _ Hk Hkept) as ->.
  destruct Hout as (Hopen & _ & Hperm & Himg & Hdata & Husz & Hcopy). rewrite Hopen. sbind. cbn [Z.eqb].
  eexists m3, e', l', _. split; [done|]. split.
  - split; [done| | |].
    + split; [rewrite Hperm; by right|]. split; [done|]. rewrite <- Hl2. apply load_n_ext. intros x Hx. apply (Hsame (gb l1) Hb). exact Hx.
    + split; [rewrite Hperm; by left|]. split; [done|]. by split.
    + rewrite Hcopy. by destruct (d =? 0).
  - eapply grows_trans; [by eapply heap_grows|]. eapply grows_trans; [exact Hg2|by eapply heap_grows].
Qed.

(** The variables in the copy that is kept. *)
Lemma opened_vars (m : mem) e l b be :
  opened m e l b be → 0 < e_data (environment e) ∧ holds m (e_data (environment e)) (block_text vs) ∧
  Z.of_nat (length (block_text vs)) <= usable_envsize e.
Proof.
  intros [Hr _ (Hb & _ & Hd & Hu) Hc]. destruct Hfh as [_ _ _ _ [_ H0] [_ H1] _ [rest Hrest] _]. rewrite Hd, Hu.
  pose proof (room_base _ _ (rep_room _ _ _ _ Hr)) as Hbase. destruct (wfl_mem _ _ _ (rep_wf _ _ _ _ Hr) Hb) as (?&?&?&?&?&?).
  destruct (bo_env Hbo) as (_ & _ & Hcur). set (img := if d =? 0 then img0 else img1) in *.
  assert (length img = cur) as Hl by (unfold img; by destruct (d =? 0)). split; [lia|].
  assert (length (block_text vs) <= cur - 5)%nat as Hlb
    by (rewrite <- Hl, <- length_drop, Hrest, length_app; lia).
  split; [|lia]. pose proof (load_n_sub _ _ _ _ 5 (length (block_text vs)) Hc ltac:(lia)) as Hs. rewrite Hrest, take_app_length in Hs. exact Hs.
Qed.

Lemma memory_ready_w32 (m : mem) l l1 l2 j1 j2 k1 k2 a v :
  memory_ready m l l1 l2 j1 j2 k1 k2 → var_outside base limit a → memory_ready (w32 m a v) l l1 l2 j1 j2 k1 k2.
Proof.
  intros [Hr Ht Hc0 Hc1 Hroom Hst Hap] Ha. split; try done; [by apply rep_w32_outside|].
  eapply Forall_impl; [exact Hst|]. intros x (Hm & ? & ?). split; [by apply mapped_w32|by split].
Qed.

(** From a cold start to the call that reads the image. *)
Lemma kernel_found flash_read (m : mem) e l l1 l2 j1 j2 k1 k2 name p :
  memory_ready m l l1 l2 j1 j2 k1 k2 → s_is_env_opened e = 0 → lookup_var vs boot_partition_key = Some name → find_part name es = Some p →
  ∃ g1 e1 m1, load_kernel_from_flash flash_read (GptState 0 0) e m =
      (ld ← load_bimage flash_read m1 (u32 (p_start p) ⊞ CFG_SUNXI_LOGIC_OFFSET) CFG_KERNEL_LOAD_ADDR; Some (g1, e1, ld)) ∧ grows m m1.
Proof.
  intros Hmr He Hvar Hpart. destruct (bo_boot Hbo) as [Hfast Hno]. destruct (fh_vars_ok _ _ _ _ _ _ _ _ Hfh) as [Hvs Hne].
  pose proof (mr_statics _ _ _ _ _ _ _ _ Hmr) as Hst. pose proof (mr_apart _ _ _ _ _ _ _ _ Hmr) as Hap. unfold statics in *.
  repeat (apply Forall_cons in Hst as [(?&?&?) Hst]). do 4 apply pairs_cons in Hap as [_ Hap].
  apply pairs_cons in Hap as [Hk0 _]. apply Forall_cons in Hk0 as [Hk0 _].
  destruct (gpt_env_opened (w32 m kernel_start 0) e l l1 l2 j1 j2 k1 k2) as (m0 & e0 & l' & be & Hinit & Hop & Hg);
    [by apply memory_ready_w32|done|].
  destruct (opened_vars m0 e0 l' (gb l1) be Hop) as (Hd0 & Hld & Husz).
  destruct Hop as [Hr (Hb & Hsz & Htbl) (Hbe & Himg & _ & _) _]. pose proof (rep_end _ _ _ _ Hr).
  destruct (wfl_mem _ _ _ (rep_wf _ _ _ _ Hr) Hb) as (?&?&?&?&?&?). pose proof (room_base _ _ (rep_room _ _ _ _ Hr)) as Hbase.
  destruct (fh_table _ _ _ _ _ _ _ _ Hfh) as (_ & Htl & Hgpt & Hn).
  assert (∀ a, mapped m a 4 → mapped m0 a 4) as Hmap by (intros a Ha; eapply grows_mapped; [exact Hg|by apply mapped_w32]).
  pose proof (from_env_run flash_read (GptState 0 0) e m (GptState (adr (gb l1)) 1) e0 m0 vs es base limit l' be Hfast Hno ltac:(done) Hinit
    Hd0 Hvs Hne Hld Husz) as Hrun.
  cbv zeta in Hrun. rewrite Hvar in Hrun. cbn [mbind option_bind] in Hrun. rewrite Hpart in Hrun.
  destruct Hrun as (m1 & e1 & l'' & Hr1 & _ & _ & Ho & Hrun); try done.
  - cbn [gpt_data_point]. eapply gpt_rep_moved; [by rewrite Htl|exact Hgpt|]. lia.
  - by apply Hmap.
  - by apply Hmap.
  - cbn [gpt_data_point]. assert (var_outside base limit kernel_start) as (Hvk & _) by done. lia.
  - lia.
  - eexists _, e1, m1. split; [exact Hrun|]. eapply grows_trans; [apply (grows_w32 m kernel_start 0)|]. eapply grows_trans; [exact Hg|].
    eapply grows_trans; [|by eapply heap_grows]. intros x Hx. by repeat apply grows_w32.
Qed.

End opening.

(** ** Entering the kernel *)

(** Which program is entered, with what: on RISC-V OpenSBI, with the device
    tree and the kernel, or none; else the monitor, whose head has been given
    the bases of OP-TEE and of the kernel; else OP-TEE, with both addresses;
    else the kernel itself. *)
Inductive entered (m : mem) (fdt kernel optee_base opensbi_base monitor_base : Z) : kernel_target → Prop :=
| entered_opensbi :
    CFG_ARCH_RISCV = true → opensbi_base ≠ 0 → entered m fdt kernel optee_base opensbi_base monitor_base (KOpensbi fdt opensbi_base kernel)
| entered_wait : CFG_ARCH_RISCV = true → opensbi_base = 0 → entered m fdt kernel optee_base opensbi_base monitor_base KWait
| entered_monitor :
    CFG_ARCH_RISCV = false → monitor_base ≠ 0 →
    load_n 4 m (monitor_base + 20) = Some (le_bytes 4 kernel) → load_n 4 m (monitor_base + 24) = Some (le_bytes 4 optee_base) →
    entered m fdt kernel optee_base opensbi_base monitor_base (KMonitor monitor_base)
| entered_optee :
    CFG_ARCH_RISCV = false → monitor_base = 0 → optee_base ≠ 0 →
    entered m fdt kernel optee_base opensbi_base monitor_base (KOptee optee_base fdt kernel)
| entered_kernel :
    CFG_ARCH_RISCV = false → monitor_base = 0 → optee_base = 0 →
    entered m fdt kernel optee_base opensbi_base monitor_base (KKernel fdt kernel).

Lemma load_w32_eq (m : mem) a v : load_n 4 (w32 m a v) a = Some (le_bytes 4 v).
Proof. unfold w32. rewrite <- (length_le_bytes 4 v) at 1. apply load_write_eq. Qed.

Lemma run_kernel_enters update_fdt (lm mu : mem) fdt kernel stack optee_base opensbi_base monitor_base :
  CFG_SUNXI_FDT_ADDR = Some fdt → update_fdt lm = Some mu → (monitor_base ≠ 0 → mapped mu (monitor_base + 20) 8) →
  ∃ m' t, run_kernel update_fdt (Loaded lm (Some kernel) [] 0) stack optee_base opensbi_base monitor_base = Some (m', t) ∧
    entered m' fdt kernel optee_base opensbi_base monitor_base t ∧
    ∀ x, monitor_base = 0 ∨ x < monitor_base + 20 ∨ monitor_base + 28 <= x → m' !! x = mu !! x.
Proof.
  intros Hf Hu Hm. unfold run_kernel. cbn [ld_ret ld_kernel ld_mem negb Z.eqb]. rewrite Hu. sbind. rewrite Hf. sbind. cbn [from_option id].
  destruct CFG_ARCH_RISCV eqn:Hr.
  { destruct (Z.eqb_spec opensbi_base 0); cbn [negb]; eexists _, _; (split; [done|split; [|done]]); [by apply entered_wait|by apply entered_opensbi]. }
  destruct (Z.eqb_spec monitor_base 0) as [|Hm0]; cbn [negb].
  { destruct (Z.eqb_spec optee_base 0); cbn [negb]; eexists _, _; (split; [done|split; [|done]]); [by apply entered_kernel|by apply entered_optee]. }
  specialize (Hm Hm0). unfold off_secureos_base, off_nos_base.
  rewrite wr32_mapped by (eapply mapped_sub; [exact Hm|lia..]). sbind.
  rewrite wr32_mapped by (apply mapped_w32; eapply mapped_sub; [exact Hm|lia..]). sbind.
  eexists _, _. split; [done|]. split.
  - apply entered_monitor; [done|done|apply load_w32_eq|].
    rewrite <- (load_w32_eq mu (monitor_base + 24) optee_base). apply load_n_ext. intros x Hx. apply lookup_w32_out. lia.
  - intros x Hx. rewrite !lookup_w32_out by lia. done.
Qed.

(** C10: from a cold start, [load_and_run_kernel] starts the kernel that the
    flash names: with the partition table and two copies of the environment on
    flash, of which the one to keep gives the variable [boot_partition], and a
    well-formed boot image from the first sector of the partition of that name
    (plus the build's offset), whose parts have places in memory apart from each
    other, it enters the first program present (OpenSBI, monitor, OP-TEE or the
    kernel) with the kernel's address, and at that moment the kernel lies there
    as stored or decompressed, the ramdisk at the build's address, and the
    device tree as [fdt_initrd] and the kernel's update made it. *)
Theorem kernel_boots flash_read update_fdt (m : mem) e tbl es p0 p1 img0 img1 d vs l l1 l2 j1 j2 k1 k2 name p img out kroom fdt room
    stack optee_base opensbi_base monitor_base :
  let from := u32 (p_start p) ⊞ CFG_SUNXI_LOGIC_OFFSET in
  let to := CFG_KERNEL_LOAD_ADDR in
  let ka := hf img off_kernel_addr in
  build_ok → flash_holds tbl es p0 p1 img0 img1 d vs → memory_ready m l l1 l2 j1 j2 k1 k2 → s_is_env_opened e = 0 →
  lookup_var vs boot_partition_key = Some name → find_part name es = Some p →
  bimage img → has_image flash_read from img → from + Z.of_nat (length img) / 512 < 2 ^ 32 →
  0 <= to → to + Z.of_nat (length img) < 2 ^ 32 → CFG_LOAD_DTB_FROM_KERNEL = true → CFG_SUNXI_FDT_ADDR = Some fdt →
  0 < hf img off_dtb_size → layout img to m out kroom fdt room → initrd_ok img fdt room →
  (∀ lm, image_loaded img out fdt (Some (Loaded lm (Some ka) [] 0)) →
     ∃ mu, update_fdt lm = Some mu ∧ ∀ x, x < fdt ∨ fdt + room <= x → mu !! x = lm !! x) →
  (monitor_base ≠ 0 → mapped m (monitor_base + 20) 8 ∧ ∀ x, monitor_base + 20 <= x < monitor_base + 28 → no_part img to kroom fdt room x) →
  ∃ lm mu m' t,
    load_and_run_kernel flash_read update_fdt (GptState 0 0) e m stack optee_base opensbi_base monitor_base = Some (m', t) ∧
    entered m' fdt ka optee_base opensbi_base monitor_base t ∧
    holds m' ka out ∧ (∀ ra, ramdisk_to img = Some ra → holds m' ra (ramdisk_part img)) ∧
    image_loaded img out fdt (Some (Loaded lm (Some ka) [] 0)) ∧ update_fdt lm = Some mu ∧
    (∀ x, fdt <= x < fdt + room → m' !! x = mu !! x).
Proof.
  intros from to ka Hbo Hfh Hmr He Hvar Hpart Himg Hfl Hf1 Ht0 Ht1 Hdtb Hfdt Hd Hlay Hini Hupd Hmon.
  destruct (kernel_found Hbo tbl es p0 p1 img0 img1 d vs Hfh flash_read m e l l1 l2 j1 j2 k1 k2 name p Hmr He Hvar Hpart)
    as (g1 & e1 & m1 & Hrun & Hg). fold from to in Hrun.
  assert (layout img to m1 out kroom fdt room) as Hlay1 by (eapply layout_mono; [|exact Hlay]; intros; by eapply grows_mapped).
  destruct (load_bimage_run flash_read from to img out m1 kroom fdt room) as (lm & Hload & Hil & Hsame); try done;
    [apply u32_bound|apply (bo_boot Hbo)|]. fold ka in Hload, Hil.
  destruct (Hupd lm Hil) as (mu & Hu & Hoff). rewrite Hload in Hrun. cbn [mbind option_bind] in Hrun.
  destruct (run_kernel_enters update_fdt lm mu fdt ka stack optee_base opensbi_base monitor_base Hfdt Hu) as (m' & t & Hr & Hent & Hout).
  { intros Hmz. destruct (Hmon Hmz) as [Hm Hno]. intros x Hx. pose proof (Hno x ltac:(lia)) as Hnx. pose proof Hnx as (_ & Hx2 & _).
    rewrite Hoff, Hsame by done. apply Hg, Hm. lia. }
  exists lm, mu, m', t. unfold load_and_run_kernel. rewrite Hrun. sbind. split; [exact Hr|]. split; [done|].
  assert (∀ x, (x < fdt ∨ fdt + room <= x) → ¬ no_part img to kroom fdt room x → m' !! x = lm !! x) as Hkeep.
  { intros x Hx Hp. rewrite <- Hoff by done. apply Hout. destruct (decide (monitor_base = 0)) as [|Hmz]; [by left|right].
    destruct (Hmon Hmz) as [_ Hno]. destruct (decide (monitor_base + 20 <= x < monitor_base + 28)) as [Hin|]; [by destruct Hp; apply Hno|lia]. }
  pose proof Hil as (lm' & [= <-] & Hk & Hrest). destruct Hlay as [_ _ (_ & _ & Hdi) [Hlen Hkp] Hrd _]. unfold disjoint in *.
  pose proof (bimage_inside img Himg) as (_ & _ & Hkin & Hrin & _ & _ & _). pose proof (bimage_fields img Himg) as (? & ? & _).
  pose proof (length_kernel_part img Himg) as Hlk. pose proof (length_ramdisk_part img Himg) as Hlr.
  assert (512 * (read_bytes img / 512) <= read_bytes img) as Hfl2 by zmod. fold ka in Hk, Hkp.
  split; [|split; [|split; [done|split; [done|]]]].
  - eapply holds_same; [exact Hk|]. intros x Hx. apply Hkeep; [|intros (_ & _ & Hx3 & _); fold ka in Hx3; lia].
    destruct Hkp as [[Hka ->]|(_ & _ & _ & _ & Hdj)]; lia.
  - intros ra Era. rewrite Era in Hrest. destruct Hrest as [Hrh _]. destruct (Hrd ra Era) as (_ & _ & _ & Hdf & _).
    eapply holds_same; [exact Hrh|]. intros x Hx. apply Hkeep; [lia|]. intros (_ & _ & _ & Hx4). specialize (Hx4 ra Era). lia.
  - intros x Hx. apply Hout. destruct (decide (monitor_base = 0)) as [|Hmz]; [by left|right]. destruct (Hmon Hmz) as [_ Hno].
    destruct (decide (monitor_base + 20 <= x < monitor_base + 28)) as [Hin|]; [|lia]. destruct (Hno x Hin) as (_ & Hx2 & _). lia.
Qed.

End boot.

(** ** A board with a monitor

    Sector 2016 holds the table, sectors 5 and 6 the environment, and the image
    begins at sector 164. *)

Module demo.

Definition parts : list part := [Part 5 5 env_key; Part 6 6 env_key_2; Part 164 1187 [0x62; 0x6f; 0x6f; 0x74]].
Definition table : bytes :=
  replicate 512 0 ++ le_bytes 8 GPT_HEADER_SIGNATURE ++ replicate 72 0 ++ le_bytes 4 3 ++ replicate 428 0 ++
  concat ((λ p, demo_entry (p_start p) (p_end p) (p_name p)) <$> parts) ++ replicate 2688 0.
Definition vars : list (bytes * bytes) := [(boot_partition_key, [0x62; 0x6f; 0x6f; 0x74])].
Definition data : bytes := block_text vars ++ replicate (507 - length (block_text vars)) 0.
Definition copy (flag : Z) : bytes := le_bytes 4 (default 0 (crc32 0 data 507)) ++ [flag] ++ data.
Definition flash : storage := Storage 0 (λ s _, Some (if s =? 2016 then table else copy (if s =? 5 then 255 else 0))) 2016.
Definition arm : boot0_build := Boot0Build 0 0 false false false false.
Definition ram : mem := mem_of 0 (replicate (Z.to_nat 0x8200) 0).
Definition closed : env_state := EnvState 0 0 0 0 (Environment 0 0 0 0 FLAG_NONE).

Lemma ram_mapped a n : 0 <= a → a + n <= 0x8200 → mapped ram a n.
Proof. intros. unfold ram. eapply mapped_sub; [apply mapped_mem_of|lia|]. rewrite length_replicate, Z2Nat.id by lia. lia. Qed.

Lemma ram_heap :
  ∃ m, heap_rep (L := demo_layout None) 0x6000 0x8100 m [] ∧ ∀ a n, 0 <= a → a + n <= 0x8200 → mapped m a n.
Proof.
  destruct (malloc_init_spec (L := demo_layout None) 0x6000 0x8100 ram) as (m & _ & Hr & Hs).
  - constructor; simpl; try lia. by repeat split.
  - apply ram_mapped; simpl; lia.
  - apply ram_mapped; simpl; lia.
  - apply ram_mapped; lia.
  - exists m. split; [done|]. intros a n Ha Hn. eapply grows_mapped; [by eapply heap_grows|by apply ram_mapped].
Qed.

Lemma flash_ok : flash_holds (F := flash) 512 table parts (Part 5 5 env_key) (Part 6 6 env_key_2) (copy 255) (copy 0) 1 vars.
Proof.
  split.
  - reflexivity.
  - split; [reflexivity|]. split; [vm_compute; reflexivity|]. split; [|cbn; lia].
    split; [done|]. split; [vm_compute; reflexivity|]. split; [vm_compute; reflexivity|].
    split; [|split; [|split; [|done]]]; (split; [vm_compute; reflexivity|]); (split; [vm_compute; reflexivity|]);
      (split; [repeat constructor; unfold is_char; simpl; lia|]); eexists; vm_compute; reflexivity.
  - split; vm_compute; reflexivity.
  - split; vm_compute; discriminate.
  - split; [reflexivity|vm_compute; reflexivity].
  - split; [reflexivity|vm_compute; reflexivity].
  - apply kept_second; [vm_compute; reflexivity|vm_compute; reflexivity|]. right. split; vm_compute; reflexivity.
  - exists (replicate (507 - length (block_text vars)) 0). vm_compute. reflexivity.
  - split; [apply (bool_decide_unpack _); vm_compute; exact Logic.I|discriminate].
Qed.

Lemma ready m :
  heap_rep (L := demo_layout None) 0x6000 0x8100 m [] → (∀ a n, 0 <= a → a + n <= 0x8200 → mapped m a n) →
  ∃ j1 j2 k1 k2, memory_ready (L := demo_layout None) (V := demo_vars) (W := demo_boot_locals) 0x6000 0x8100 512 m [] [] [] j1 j2 k1 k2.
Proof.
  intros Hr Hm.
  eexists _, _, _, _. split; [exact Hr|vm_compute; reflexivity|vm_compute; reflexivity|vm_compute; reflexivity|lia| |].
  - repeat (apply Forall_cons; split; [split; [apply Hm; simpl; lia|unfold var_outside; simpl; lia]|]). by apply Forall_nil.
  - repeat constructor; simpl; lia.
Qed.

Lemma lookup_mem_of_out a n c x : x < a ∨ a + n <= x → 0 <= n → mem_of a (replicate (Z.to_nat n) c) !! x = None.
Proof. intros Hx Hn. unfold mem_of. rewrite lookup_write_out by (rewrite length_replicate; lia). done. Qed.

Lemma kernel_mem_out x : x < 0x1000 ∨ 0x6000 <= x → demo_kernel_mem !! x = None.
Proof. intros Hx. apply (lookup_mem_of_out 0x1000 0x5000 0); lia. Qed.

Lemma image_layout m :
  (∀ a n, 0 <= a → a + n <= 0x8200 → mapped m a n) →
  layout (I := demo_kernel_opts) (K := demo_kernel_build) (D := demo_decompressors) demo_bimage 0x1000 m (kernel_part demo_bimage) 16 0x3000 1024.
Proof.
  intros Hg. eapply layout_mono; [|exact demo_layout_ok]. intros b k Hm x Hx. specialize (Hm x Hx).
  destruct (decide (0x1000 <= x < 0x6000)) as [|Hout]; [apply (Hg 0x1000 0x5000); lia|].
  rewrite (kernel_mem_out x) in Hm by lia. by destruct Hm.
Qed.

Lemma monitor_apart x : 0x5800 + 20 <= x < 0x5800 + 28 → no_part (K := demo_kernel_build) demo_bimage 0x1000 16 0x3000 1024 x.
Proof.
  pose proof demo_bimage_fields as [Hl Hk Ha Hrs Hs Hp Ho Hd].
  assert (read_bytes demo_bimage = 4631) as Hrb by (unfold read_bytes; rewrite Hk, Hrs, Hs; reflexivity).
  intros Hx. unfold no_part. rewrite Hrb, Ha, Hrs. split; [lia|]. split; [lia|]. split; [lia|].
  intros ra Era. unfold ramdisk_to in Era. rewrite Hrs in Era. injection Era as <-. lia.
Qed.

End demo.

Lemma kernel_boots_witness :
  ∃ m m', load_and_run_kernel (L := demo_layout None) (F := demo.flash) (V := demo_vars) (O := demo_config) (B := demo.arm)
      (I := demo_kernel_opts) (K := demo_kernel_build) (D := demo_decompressors) (T := demo_fdt) (W := demo_boot_locals)
      (demo_reader 164 demo_bimage) Some (GptState 0 0) demo.closed m 0 0x7000 0 0x5800 = Some (m', KMonitor 0x5800) ∧
    load_n 4 m' (0x5800 + 20) = Some (le_bytes 4 0x4000) ∧ holds m' 0x4000 (kernel_part demo_bimage).
Proof.
  destruct demo.ram_heap as (m & Hr & Hg). destruct (demo.ready m Hr Hg) as (j1 & j2 & k1 & k2 & Hmr).
  pose proof demo_bimage_fields as [Hl Hk Ha Hrs Hs Hp Ho Hd].
  destruct (kernel_boots (L := demo_layout None) (F := demo.flash) (V := demo_vars) (O := demo_config) (B := demo.arm)
    (I := demo_kernel_opts) (K := demo_kernel_build) (D := demo_decompressors) (T := demo_fdt) (W := demo_boot_locals)
    0x6000 0x8100 512 (demo_reader 164 demo_bimage) Some m demo.closed demo.table demo.parts (Part 5 5 env_key) (Part 6 6 env_key_2)
    (demo.copy 255) (demo.copy 0) 1 demo.vars [] [] [] j1 j2 k1 k2 [0x62; 0x6f; 0x6f; 0x74] (Part 164 1187 [0x62; 0x6f; 0x6f; 0x74])
    demo_bimage (kernel_part demo_bimage) 16 0x3000 1024 0 0x7000 0 0x5800) as (lm & mu & m' & t & Hrun & Hent & Hh & _).
  - split; [reflexivity| |by split]. split; [reflexivity|]. split; [reflexivity|lia].
  - exact demo.flash_ok.
  - exact Hmr.
  - reflexivity.
  - reflexivity.
  - reflexivity.
  - exact demo_bimage_ok.
  - apply demo_reader_has.
  - rewrite Hl. reflexivity.
  - discriminate.
  - rewrite Hl. reflexivity.
  - reflexivity.
  - reflexivity.
  - rewrite Hd. lia.
  - apply demo.image_layout, Hg.
  - intros x s e _. exists x. split; [reflexivity|done].
  - intros lm _. by exists lm.
  - intros _. split; [apply Hg; lia|exact demo.monitor_apart].
  - exists m, m'. rewrite Ha in Hent, Hh. inversion Hent; subst; done.
Defined.
