(* ===== verification/KernelPar.v ===== *)
(** * The kernel decompressed while it is read (spl/common/linux_loader.c)

    The build with [CFG_PARALLEL_DECOMP_KERNEL]: [load_bimage] starts an
    asynchronous read of the boot image, and [para_dec_lz4_kernel_image] polls
    how far it is and hands what has arrived to the piecewise decoder of
    [Lz4Part].  The transfer is a record of its own, the bytes still to arrive
    and where they go; every poll is a step in which some of them arrive and
    the driver answers with a count.  Device tree and ramdisk are copied out of
    memory afterwards.  The rest of the loader is as in [KernelImage]. *)

From S2P Require Import Prelude Mem CString Checksum Heap Gpt Env BootImage LoadImage Lz4 Lz4Part KernelImage.

Local Open Scope Z_scope.
Local Open Scope c_scope.

Definition ENODATA : Z := 61.

(** ** The transfer *)

(** Memory, the address of the next byte, and the bytes that are not there
    yet. *)
Record dma := Dma { dma_mem : mem; dma_at : Z; dma_pending : bytes }.

Definition set_mem (d : dma) (m : mem) : dma := Dma m (dma_at d) (dma_pending d).

(** The next [n] bytes arrive. *)
Definition arrive (n : nat) (d : dma) : dma :=
  let bs := take n (dma_pending d) in
  Dma (write_bytes (dma_mem d) (dma_at d) bs) (dma_at d + Z.of_nat (length bs)) (drop n (dma_pending d)).

(** A call of [read_cnt]: the bytes that arrive before it, and its answer. *)
Definition poll : Type := nat * Z.

(** How the decoding ends: with a return code, in the endless loop behind a
    decoding error, or not within the polls given. *)
Inductive para_end := ParaRet (r : Z) | ParaHang | ParaPolling.

(** ** linux_loader.c *)

Section loader.
Context `{I : image_build} `{K : kernel_build} `{T : fdt_lib}.

(** The read of the image in the background: the transfer, or the error code. *)
Context (read_async : mem → Z → Z → Z → option (dma * Z)).

(** [ops.read_done], which waits for the whole transfer: a card has it, SPI NOR
    does not. *)
Context (has_read_done : bool).

(** The loop; the context is kept for the result. *)
Fixpoint para_loop (polls : list poll) (d : dma) (c : part_ctx) (size read_cnt : Z) : option (dma * part_ctx * para_end) :=
  match polls with
  | [] => Some (d, c, ParaPolling)
  | (n, tmp) :: polls' =>
      let d := arrive n d in
      if tmp =? - ENODATA then Some (d, c, ParaRet 0)
      else if tmp <? 0 then Some (d, c, ParaRet (-1))
      else
        let '(d, tmp) :=
          if tmp <? size then (d, Z.land tmp (Z.lnot (64 * 1024 - 1)))
          else (if has_read_done then arrive (length (dma_pending d)) d else d, tmp) in
        if tmp <=? read_cnt then para_loop polls' d c size read_cnt
        else
          '(m, c, r) ← lz4_part_decompress (dma_mem d) c (tmp - read_cnt);
          let d := set_mem d m in
          if r <? 0 then Some (d, c, ParaHang)
          else if is_lz4_part_dec_finish c then Some (d, c, ParaRet 0)
          else para_loop polls' d c size tmp
  end.

(** [image->addr], [size] and [kernel_load_addr]. *)
Definition para_dec_lz4_kernel_image (polls : list poll) (d : dma) (addr size kernel_load_addr : Z) : option (dma * para_end) :=
  let c := lz4_part_dec_init addr size kernel_load_addr 0xa00000 in
  '(m, c, r) ← lz4_part_decompress (dma_mem d) c (SUNXI_FLASH_READ_FIRST_SIZE - KERNEL_CODE_OFFSET_IN_BIMAGE);
  let d := set_mem d m in
  if r <? 0 then Some (d, ParaHang)
  else
    '(d, _, e) ← para_loop polls d c size 0;
    Some (d, e).

(** What the loader comes to: its result and the transfer as it is then, or no
    result. *)
Inductive par_result := ParLoaded (l : loaded) (d : dma) | ParStuck (e : para_end) (d : dma).

Definition par_codec : option codec := if CFG_SUNXI_GUNZIP then Some GZ else if CFG_SUNXI_LZ4 then Some LZ4 else None.

(** [inr] is the return of the loader. *)
Definition par_kernel (polls : list poll) (d : dma) (to_ddr rbytes : Z) : option (dma * list warning * (para_end + Z)) :=
  let m := dma_mem d in
  ks ← field m to_ddr off_kernel_size;
  ka ← field m to_ddr off_kernel_addr;
  let code := to_ddr ⊞ KERNEL_CODE_OFFSET_IN_BIMAGE in
  if ka =? code then Some (d, [], inl (ParaRet 0))
  else
    let w := if sunxi_mem_info to_ddr rbytes ka ks <? 0 then [WARN_KERNEL] else [] in
    packed ← match par_codec with
             | Some c => v ← rd32 m code; Some (if packed_by c v then Some c else None)
             | None => Some None
             end;
    match packed with
    | Some GZ => Some (d, w, inr (-1))
    | Some _ => '(d, e) ← para_dec_lz4_kernel_image polls d code ks ka; Some (d, w, inl e)
    | None => m ← memcpy m ka code ks; Some (set_mem d m, w, inl (ParaRet 0))
    end.

(** The device tree is copied out of the image. *)
Definition par_dtb (m : mem) (to_ddr : Z) : option mem :=
  if CFG_EARLY_FASTBOOT || negb CFG_LOAD_DTB_FROM_KERNEL then Some m
  else
    fdt ← CFG_SUNXI_FDT_ADDR;
    dtb ← android_image_get_dtb m to_ddr;
    match dtb with
    | None => Some m
    | Some (dtb_data, dtb_len) => m ← memcpy m fdt dtb_data dtb_len; reserve_fdt m fdt
    end.

(** From the kernel on; [ret] of the kernel is lost where a ramdisk is
    loaded. *)
Definition par_rest (d : dma) (w : list warning) (ret to_ddr rbytes : Z) : option par_result :=
  m ← par_dtb (dma_mem d) to_ddr;
  ret ← match CFG_RAMDISK_ADDR with
        | Some _ => rs ← field m to_ddr off_ramdisk_size; Some (if rs =? 0 then ret else 0)
        | None => Some ret
        end;
  '(m, w2, r) ← move_ramdisk m to_ddr rbytes;
  if negb (r =? 0) then Some (ParLoaded (Loaded m None (w ++ w2) (-1)) (set_mem d m))
  else
    ka ← field m to_ddr off_kernel_addr;
    Some (ParLoaded (Loaded m (Some ka) (w ++ w2) (if ret =? 0 then 0 else -1)) (set_mem d m)).

Definition load_bimage_parallel (flash_read : reader) (polls : list poll) (m : mem) (from_flash to_ddr : Z) : option par_result :=
  let fail (m : mem) := Some (ParLoaded (Loaded m None [] (-1)) (Dma m 0 [])) in
  '(m, r) ← flash_read m from_flash (SUNXI_FLASH_READ_FIRST_SIZE / 512) to_ddr;
  if negb (r =? 0) then fail m
  else
    magic ← load_n 8 m to_ddr;
    c ← memcmp magic ANDR_BOOT_MAGIC 8;
    if negb (c =? 0) then fail m
    else
      page ← field m to_ddr off_page_size;
      ks ← field m to_ddr off_kernel_size;
      rs ← field m to_ddr off_ramdisk_size;
      ss ← field m to_ddr off_second_size;
      os ← field m to_ddr off_recovery_dtbo_size;
      ds ← field m to_ddr off_dtb_size;
      let rbytes := page ⊞ ALIGN ks page ⊞ ALIGN rs page ⊞ ALIGN ss page ⊞ ALIGN os page ⊞ ALIGN ds page in
      let rblock := rbytes / 512 ⊟ SUNXI_FLASH_READ_FIRST_SIZE / 512 in
      '(d, r) ← read_async m (from_flash ⊞ SUNXI_FLASH_READ_FIRST_SIZE / 512) rblock (to_ddr ⊞ SUNXI_FLASH_READ_FIRST_SIZE);
      if negb (r =? 0) then fail (dma_mem d)
      else
        '(d, w, e) ← par_kernel polls d to_ddr rbytes;
        match e with
        | inr r => Some (ParLoaded (Loaded (dma_mem d) None w r) d)
        | inl (ParaRet ret) => par_rest d w ret to_ddr rbytes
        | inl e => Some (ParStuck e d)
        end.

End loader.

(** ** The image in memory *)

(** What is read: all parts, each to the end of its page. *)
Definition par_bytes (img : bytes) : Z := dtb_offset img + pages (hf img off_dtb_size).

(** From the kernel on. *)
Definition stream (img : bytes) : bytes := cut 2048 (par_bytes img - 2048) img.
Definition dtb_exact (img : bytes) : bytes := cut (dtb_offset img) (hf img off_dtb_size) img.

(** What the loop makes of an answer before the kernel is complete: whole
    64 KiB. *)
Definition whole_64k (tmp : Z) : Z := Z.land tmp (Z.lnot (64 * 1024 - 1)).

(** The bytes that arrive in the polls. *)
Fixpoint delivered (polls : list poll) : Z :=
  match polls with
  | [] => 0
  | (n, _) :: polls' => Z.of_nat n + delivered polls'
  end.

(** Polls during which the loop goes on, with [got] of [total] bytes there: an
    answer promises no more than what is there and less than the kernel's
    [size], and what is announced to the decoder stays before the byte at
    [limit]. *)
Fixpoint waiting_polls (polls : list poll) (got total size limit : Z) : Prop :=
  match polls with
  | [] => True
  | (n, tmp) :: polls' =>
      (0 <= tmp <= got + Z.of_nat n ∧ got + Z.of_nat n <= total) ∧ tmp < size ∧ whole_64k tmp < limit ∧
      waiting_polls polls' (got + Z.of_nat n) total size limit
  end.

(** The poll that finds the kernel.  The rest of the image is there too, or the
    medium can wait for it. *)
Definition last_poll (has_read_done : bool) (n : nat) (tmp got total size : Z) : Prop :=
  size <= tmp <= got + Z.of_nat n ∧ got + Z.of_nat n <= total ∧ (has_read_done = true ∨ got + Z.of_nat n = total).

Section decode.
Context (fr : frame) (src ks ka kroom : Z).
Let F := enc_frame fr.
Let N := Z.of_nat (length F).
Let T := Z.of_nat (length (frame_data fr)).
Let seen := N - Z.of_nat (length (fr_tail fr)).
Context (Hok : frame_ok fr) (Hck : fr_ck fr = false) (Htail : (10 <= length (fr_tail fr))%nat) (Hks : seen <= ks < 2 ^ 31) (Hks2 : ks <= N - 2048)
  (Hks15 : 15 <= ks).
Context (Hsrc : 3 <= src) (Hsrc32 : src + 257 * N + 16 < 2 ^ 32) (Hka : 0 <= ka) (Hka32 : ka + 0xa00000 + 256 * N + 16 < 2 ^ 32).
Context (Hap : src + N <= ka ∨ ka + kroom <= src) (HT1 : T <= 0xa00000) (HT2 : T <= kroom) (HT3 : Z.min 0xa00000 (T + 8) <= kroom).

Let waits := waiting fr src ks ka 0xa00000 (ka + kroom).

(** The transfer behind [got] bytes, with the decoder [read_cnt] bytes behind
    the first 2048. *)
Record polling (d : dma) (c : part_ctx) (got read_cnt : Z) : Prop := {
  pl_at : dma_at d = src + 2048 + got;
  pl_got : 0 <= got <= N - 2048;
  pl_cnt : 0 <= read_cnt <= got;
  pl_pending : dma_pending d = drop (Z.to_nat (2048 + got)) F;
  pl_arrived : arrived (dma_mem d) src F (src + 2048 + got);
  pl_input : pd_input c = 2048 + read_cnt;
  pl_waits : waits (dma_mem d) c
}.

Lemma polling_arrive d c got read_cnt n :
  polling d c got read_cnt → is_byte_list F → got + Z.of_nat n <= N - 2048 → polling (arrive n d) c (got + Z.of_nat n) read_cnt.
Proof.
  intros [Ea Hg Hc Hp Har Hi Hw] HF Hn. unfold arrive. rewrite Hp. set (p := take n (drop (Z.to_nat (2048 + got)) F)).
  assert (length p = n) as Hlp by (unfold p; rewrite length_take, length_drop; unfold N in *; lia).
  assert (F = take (Z.to_nat (2048 + got)) F ++ p ++ drop (Z.to_nat (2048 + got) + n) F) as HFs.
  { unfold p. rewrite <- drop_drop, take_drop. by rewrite take_drop. }
  assert (Z.of_nat (length (take (Z.to_nat (2048 + got)) F)) = 2048 + got) as Hl1 by (rewrite length_take; unfold N in *; lia).
  pose proof (keeps_write (dma_mem d) (dma_at d) p) as Hk. constructor; cbn [dma_mem dma_at dma_pending].
  - lia.
  - lia.
  - lia.
  - rewrite drop_drop. f_equal. lia.
  - set (l1 := take (Z.to_nat (2048 + got)) F) in *. set (l2 := drop (Z.to_nat (2048 + got) + n) F) in *.
    assert (arrived (write_bytes (dma_mem d) (src + Z.of_nat (length l1)) p) src (l1 ++ p ++ l2) (src + Z.of_nat (length l1) + Z.of_nat (length p))) as Hw1.
    { apply arrived_write; [rewrite <- HFs, Hl1; by replace (src + (2048 + got)) with (src + 2048 + got) by lia|by apply Forall_take, Forall_drop]. }
    rewrite <- HFs, Hl1, Hlp in Hw1. rewrite Ea. replace (src + (2048 + got)) with (src + 2048 + got) in Hw1 by lia.
    by replace (src + 2048 + (got + Z.of_nat n)) with (src + 2048 + got + Z.of_nat n) by lia.
  - done.
  - eapply waiting_keeps; try exact Hk; try exact Hw; try done; unfold N, T in *; lia.
Qed.

(** Nothing is changed outside the kernel and the stream behind its first 2048
    bytes. *)
Definition untouched (m m' : mem) : Prop :=
  (∀ x, (x < ka ∨ ka + kroom <= x) → (x < src + 2048 ∨ src + N <= x) → m' !! x = m !! x) ∧ (∀ a n, mapped m a n → mapped m' a n).

Lemma untouched_trans m1 m2 m3 : untouched m1 m2 → untouched m2 m3 → untouched m1 m3.
Proof. intros [H1 P1] [H2 P2]. split; [|auto]. intros x Hx1 Hx2. by rewrite H2, H1. Qed.

Lemma keeps_untouched m m' : keeps m m' ka (ka + kroom) → untouched m m'.
Proof. intros [H P]. split; [|done]. intros x Hx _. by apply H. Qed.

Lemma arrive_untouched d c got read_cnt n :
  polling d c got read_cnt → got + Z.of_nat n <= N - 2048 → untouched (dma_mem d) (dma_mem (arrive n d)).
Proof.
  intros [Ea Hg _ _ _ _ _] Hn. unfold arrive. cbn [dma_mem]. split; [|intros; by apply mapped_write].
  intros x _ Hx. apply lookup_write_out. rewrite length_take, Ea. lia.
Qed.

(** A poll that announces something. *)
Lemma poll_step d c got read_cnt tmp :
  polling d c got read_cnt → read_cnt < tmp <= got →
  ∃ m' c', lz4_part_decompress (dma_mem d) c (tmp - read_cnt) = Some (m', c', 0) ∧ polling (set_mem d m') c' got tmp ∧ untouched (dma_mem d) m'.
Proof.
  intros [Ea Hg Hc Hp Har Hi Hw] Ht. change (2 ^ 32) with 4294967296 in *. change (2 ^ 31) with 2147483648 in *.
  destruct (call_run fr src ks ka 0xa00000 (ka + kroom)) with (m := dma_mem d) (c := c) (size := tmp - read_cnt) as (m' & c' & Hr & Hw' & Hi' & Hk);
    try done; try (change (2 ^ 32) with 4294967296); try (change (2 ^ 31) with 2147483648); try (fold F N T seen); try lia.
  - intros E. unfold waits, waiting in Hw. rewrite E in Hw. destruct Hw as (_ & _ & _ & E0 & _). lia.
  - eapply arrived_mono; [exact Har|lia].
  - exists m', c'. split; [done|]. split; [|by apply keeps_untouched]. constructor; cbn [set_mem dma_mem dma_at dma_pending]; try done; try lia.
    eapply arrived_keeps; [exact Hk|exact Har|]. fold N. lia.
Qed.

Lemma whole_64k_spec tmp : 0 <= tmp → 0 <= whole_64k tmp <= tmp.
Proof.
  intros H. unfold whole_64k. change (64 * 1024 - 1) with (Z.ones 16). rewrite <- Z.ldiff_land, Z.ldiff_ones_r, Z.shiftl_mul_pow2, Z.shiftr_div_pow2 by lia. zmod.
Qed.

(** Before the byte behind the end mark is seen the decoder does not finish. *)
Lemma not_finished d c got read_cnt : polling d c got read_cnt → 2048 + read_cnt < seen → is_lz4_part_dec_finish c = false.
Proof.
  intros [_ _ _ _ _ Hi Hw] Hlt. unfold is_lz4_part_dec_finish. destruct (pd_state c) eqn:E; try done.
  unfold waits, waiting in Hw. rewrite E in Hw. destruct Hw as (_ & _ & _ & _ & _ & H). fold F N seen in H. lia.
Qed.

(** Once the kernel is announced and everything is there, both are complete. *)
Lemma polling_end d c read_cnt :
  polling d c (N - 2048) read_cnt → ks <= read_cnt → is_lz4_part_dec_finish c = true ∧ holds (dma_mem d) ka (frame_data fr) ∧ holds (dma_mem d) src F.
Proof.
  intros [_ _ _ _ Ha Hi Hw] E. assert (pd_state c = LZ4_PART_FINISH) as Hf.
  { eapply waiting_finished; [exact Hok|exact Htail|exact Hw|]. fold F N seen. lia. }
  unfold is_lz4_part_dec_finish. rewrite Hf. split; [done|]. unfold waits, waiting in Hw. rewrite Hf in Hw. destruct Hw as (_ & Hb & _).
  split; [by apply bytes_at_load|]. apply bytes_at_load. eapply arrived_bytes; [exact Ha|]. fold N. lia.
Qed.

(** The polls before the last. *)
Lemma para_loop_waits has_read_done pre rest : is_byte_list F → ∀ d c got read_cnt,
  polling d c got read_cnt → waiting_polls pre got (N - 2048) ks (seen - 2048) → read_cnt < ks →
  ∃ d' c' read_cnt', para_loop has_read_done (pre ++ rest) d c ks read_cnt = para_loop has_read_done rest d' c' ks read_cnt' ∧
    polling d' c' (got + delivered pre) read_cnt' ∧ read_cnt' < ks ∧ untouched (dma_mem d) (dma_mem d').
Proof.
  intros HF. induction pre as [|[n tmp] pre IH]; intros d c got read_cnt Hpl Hps Hrc; cbn [delivered].
  - exists d, c, read_cnt. rewrite Z.add_0_r. split; [done|]. split; [done|]. split; [done|]. by split.
  - destruct Hps as ([Ht Hn] & Hlt & Hlim & Hps). cbn [app para_loop].
    pose proof (polling_arrive d c got read_cnt n Hpl HF Hn) as Hpl1. pose proof (arrive_untouched d c got read_cnt n Hpl Hn) as Hu.
    unfold ENODATA. rewrite (proj2 (Z.eqb_neq tmp (- (61)))), (proj2 (Z.ltb_ge tmp 0)), (proj2 (Z.ltb_lt tmp ks)) by lia.
    pose proof (whole_64k_spec tmp ltac:(lia)) as Hmask. unfold whole_64k in *. set (tmp' := Z.land tmp _) in *. rewrite Z.add_assoc.
    destruct (Z.leb_spec tmp' read_cnt) as [Hle|Hgt].
    + destruct (IH _ _ _ _ Hpl1 Hps Hrc) as (d' & c' & rc' & Hr & Hpl' & Hrc' & Hu'). exists d', c', rc'.
      split; [exact Hr|]. split; [done|]. split; [done|]. by eapply untouched_trans.
    + destruct (poll_step _ c _ read_cnt tmp' Hpl1) as (m' & c' & -> & Hpl3 & Hk); [lia|]. sbind.
      cbn [Z.ltb Z.compare]. rewrite (not_finished _ _ _ _ Hpl3) by lia.
      destruct (IH _ _ _ _ Hpl3 Hps) as (d' & c2 & rc' & Hr & Hpl' & Hrc' & Hu'); [lia|]. exists d', c2, rc'.
      split; [exact Hr|]. split; [done|]. split; [done|]. eapply untouched_trans; [exact Hu|]. by eapply untouched_trans.
Qed.

(** The last poll. *)
Lemma para_loop_last has_read_done n tmp post d c got read_cnt :
  is_byte_list F → polling d c got read_cnt → read_cnt < ks → last_poll has_read_done n tmp got (N - 2048) ks →
  ∃ d' c', para_loop has_read_done ((n, tmp) :: post) d c ks read_cnt = Some (d', c', ParaRet 0) ∧
    holds (dma_mem d') ka (frame_data fr) ∧ holds (dma_mem d') src F ∧ untouched (dma_mem d) (dma_mem d').
Proof.
  intros HF Hpl Hrc (Ht & Hn & Hall). cbn [para_loop].
  pose proof (polling_arrive d c got read_cnt n Hpl HF Hn) as Hpl1. pose proof (arrive_untouched d c got read_cnt n Hpl Hn) as Hu.
  unfold ENODATA. rewrite (proj2 (Z.eqb_neq tmp (- (61)))), (proj2 (Z.ltb_ge tmp 0)), (proj2 (Z.ltb_ge tmp ks)) by lia.
  set (d1 := if has_read_done then arrive (length (dma_pending (arrive n d))) (arrive n d) else arrive n d).
  assert (polling d1 c (N - 2048) read_cnt ∧ untouched (dma_mem d) (dma_mem d1)) as [Hpl2 Hu2].
  { unfold d1. destruct has_read_done; [|destruct Hall as [|<-]; done]. set (d2 := arrive n d) in *.
    assert (got + Z.of_nat n + Z.of_nat (length (dma_pending d2)) = N - 2048) as Hz.
    { rewrite (pl_pending _ _ _ _ Hpl1), length_drop. pose proof (pl_got _ _ _ _ Hpl). unfold N in *. lia. }
    split; [rewrite <- Hz; apply polling_arrive; [done|done|lia]|]. eapply untouched_trans; [exact Hu|].
    eapply arrive_untouched; [exact Hpl1|lia]. }
  rewrite (proj2 (Z.leb_gt tmp read_cnt)) by lia. destruct (poll_step d1 c _ read_cnt tmp Hpl2) as (m' & c' & -> & Hpl3 & Hk); [lia|]. sbind.
  cbn [Z.ltb Z.compare]. destruct (polling_end _ _ _ Hpl3) as (-> & Hh & Hs); [lia|]. exists (set_mem d1 m'), c'. split; [done|].
  split; [done|]. split; [done|]. by eapply untouched_trans.
Qed.

(** A poll that reports an error. *)
Lemma para_loop_error has_read_done n err post d c got read_cnt :
  is_byte_list F → polling d c got read_cnt → got + Z.of_nat n <= N - 2048 → err < 0 → err ≠ - ENODATA →
  ∃ d' c', para_loop has_read_done ((n, err) :: post) d c ks read_cnt = Some (d', c', ParaRet (-1)) ∧
    dma_pending d' = drop (Z.to_nat (2048 + (got + Z.of_nat n))) F ∧ untouched (dma_mem d) (dma_mem d').
Proof.
  intros HF Hpl Hn Herr Hnd. cbn [para_loop]. rewrite (proj2 (Z.eqb_neq _ _) Hnd), (proj2 (Z.ltb_lt _ _) Herr).
  exists (arrive n d), c. split; [done|]. split; [|by eapply arrive_untouched]. apply (pl_pending _ c _ read_cnt). by apply polling_arrive.
Qed.

(** The first piece, behind the header, is there before the loop. *)
Lemma para_dec_start has_read_done polls d :
  is_byte_list F → 2048 < N → dma_at d = src + 2048 → dma_pending d = drop 2048 F → arrived (dma_mem d) src F (src + 2048) →
  mapped (dma_mem d) ka kroom →
  ∃ d1 c1, polling d1 c1 0 0 ∧ untouched (dma_mem d) (dma_mem d1) ∧
    para_dec_lz4_kernel_image has_read_done polls d src ks ka = ('(d, _, e) ← para_loop has_read_done polls d1 c1 ks 0; Some (d, e)).
Proof.
  intros HF HN Hat Hp Ha Hmap. change (2 ^ 32) with 4294967296 in *. change (2 ^ 31) with 2147483648 in *. unfold para_dec_lz4_kernel_image.
  change (SUNXI_FLASH_READ_FIRST_SIZE - KERNEL_CODE_OFFSET_IN_BIMAGE) with 2048.
  destruct (call_run fr src ks ka 0xa00000 (ka + kroom)) with (m := dma_mem d) (c := lz4_part_dec_init src ks ka 0xa00000) (size := 2048)
    as (m' & c' & -> & Hw' & Hi' & Hk); try done; try (change (2 ^ 32) with 4294967296); try (change (2 ^ 31) with 2147483648); try (fold F N T seen); try lia.
  - unfold waiting. cbn [lz4_part_dec_init pd_state pd_in pd_out pd_input]. split; [by constructor|]. do 3 (split; [done|]).
    by replace (ka + kroom - ka) with kroom by lia.
  - intros _. rewrite (fo_size _ Hok). case_match; lia.
  - cbn [lz4_part_dec_init pd_input]. by rewrite Z.add_0_r.
  - cbn [lz4_part_dec_init pd_input]. lia.
  - sbind. cbn [Z.ltb Z.compare]. exists (set_mem d m'), c'. split; [|split; [by apply keeps_untouched|done]].
    constructor; cbn [set_mem dma_mem dma_at dma_pending]; try done; try lia. rewrite Z.add_0_r. eapply arrived_keeps; [exact Hk|exact Ha|]. fold N. lia.
Qed.

End decode.

(** ** The loader *)

(** A transfer that [read_async] starts without an error. *)
Definition has_image_async (read_async : mem → Z → Z → Z → option (dma * Z)) (from : Z) (img : bytes) : Prop :=
  ∀ m s n b, 0 <= s → 0 <= n → 512 * (s + n) <= Z.of_nat (length img) →
    read_async m (from + s) n b = Some (Dma m b (cut (512 * s) (512 * n) img), 0).

Section image.
Context (img : bytes) (Himg : bimage img) (to : Z) (Hto : 3 <= to) (Hto2 : to + Z.of_nat (length img) < 2 ^ 32)
  (Hto' : to + 257 * par_bytes img + 16 < 2 ^ 32).
Context (Hpar : par_bytes img <= Z.of_nat (length img)) (Hds : 0 < hf img off_dtb_size).
Let P := par_bytes img.
Let ks := hf img off_kernel_size.

Lemma par_inside :
  2048 + pages ks <= dtb_offset img ∧ ks <= pages ks ∧ dtb_offset img + hf img off_dtb_size <= P ∧ ks + 4096 <= P ∧ P mod 512 = 0 ∧ P < 2 ^ 31 ∧ 0 <= ks.
Proof.
  pose proof (bimage_fields img Himg) as (Hk&Hr&Hs&Ho&Hd). change (2 ^ 31) with 2147483648 in *. change (2 ^ 32) with 4294967296 in *.
  pose proof (pages_spec _ Hk) as [? Mk]. pose proof (pages_spec _ Hr) as [? Mr]. pose proof (pages_spec _ Hs) as [? Ms].
  pose proof (pages_spec _ Ho) as [? Mo]. pose proof (pages_spec _ Hd) as [? Md].
  unfold P, ks, par_bytes, dtb_offset, ramdisk_offset in *.
  assert (2048 <= pages (hf img off_dtb_size)) by (unfold pages; zmod).
  split; [lia|]. split; [lia|]. split; [lia|]. split; [lia|]. split; [|lia].
  apply Z.mod_divide in Mk, Mr, Ms, Mo, Md; try lia. apply Z.mod_divide; [lia|].
  repeat apply Z.divide_add_r; try done. by exists 4.
Qed.

Lemma par_rbytes :
  2048 ⊞ ALIGN ks 2048 ⊞ ALIGN (hf img off_ramdisk_size) 2048 ⊞ ALIGN (hf img off_second_size) 2048 ⊞ ALIGN (hf img off_recovery_dtbo_size) 2048 ⊞
    ALIGN (hf img off_dtb_size) 2048 = P.
Proof.
  pose proof (bimage_fields img Himg) as (Hk&Hr&Hs&Ho&Hd). change (2 ^ 32) with 4294967296 in *.
  pose proof (pages_spec _ Hk) as [? _]. pose proof (pages_spec _ Hr) as [? _]. pose proof (pages_spec _ Hs) as [? _].
  pose proof (pages_spec _ Ho) as [? _]. pose proof (pages_spec _ Hd) as [? _].
  unfold P, ks, par_bytes, dtb_offset, ramdisk_offset in *. rewrite !ALIGN_pages by (change (2 ^ 31) with 2147483648; lia).
  rewrite (u32_small (2048 + _)), (u32_small (2048 + _ + _)), (u32_small (2048 + _ + _ + _)),
    (u32_small (2048 + _ + _ + _ + _)), (u32_small (2048 + _ + _ + _ + _ + _)) by (unfold is_u32; lia). done.
Qed.

Lemma length_stream : Z.of_nat (length (stream img)) = P - 2048.
Proof. pose proof par_inside. apply length_cut; unfold P in *; lia. Qed.

Lemma stream_split : stream img = cut 2048 2048 img ++ cut 4096 (P - 4096) img.
Proof. pose proof par_inside. unfold stream. fold P. replace (P - 2048) with (2048 + (P - 4096)) by lia. by rewrite cut_app by lia. Qed.

(** Header and stream in memory are the image. *)
Lemma image_at (m : mem) : holds m to (cut 0 2048 img) → holds m (to + 2048) (stream img) → holds m to (cut 0 P img).
Proof.
  intros Hh Hs. pose proof par_inside. replace P with (2048 + (P - 2048)) by lia. rewrite cut_app by lia. apply bytes_at_load, bytes_at_app.
  split; [by apply bytes_at_load|]. rewrite length_cut by (unfold P in *; lia). by apply bytes_at_load.
Qed.

Lemma image_header (m : mem) : holds m to (cut 0 P img) → header_at img to m.
Proof.
  intros Hm off Ho. pose proof par_inside. rewrite (holds_field m to _ off Hm).
  - f_equal. apply hf_cut. lia.
  - assert (Z.of_nat (length (cut 0 P img)) = P) by (apply length_cut; unfold P in *; lia). lia.
Qed.

Context `{I : image_build} `{K : kernel_build} `{T : fdt_lib}.

(** What is where the device tree belongs is copied, whatever it is. *)
Lemma par_dtb_copies (m : mem) fdt room tree :
  CFG_EARLY_FASTBOOT = false → CFG_LOAD_DTB_FROM_KERNEL = true → CFG_SUNXI_FDT_ADDR = Some fdt →
  header_at img to m → holds m (to + dtb_offset img) tree → Z.of_nat (length tree) = hf img off_dtb_size →
  8 <= hf img off_dtb_size <= room → mapped m fdt room → disjoint fdt room to P →
  ∃ m', par_dtb m to = Some m' ∧ placed m m' fdt (reserved tree) room.
Proof.
  intros He Hl Hf Hm Hsrc Hlen Hd Hmap Hdis. pose proof par_inside as (? & ? & ? & ? & ? & ? & ?). unfold par_dtb. rewrite He, Hl, Hf. cbn [orb negb]. sbind.
  pose proof (bm_small _ Himg) as Hsm. change (2 ^ 31) with 2147483648 in *. change (2 ^ 32) with 4294967296 in *. unfold disjoint in Hdis.
  rewrite (get_dtb_run img Himg to ltac:(lia) Hto2) by (done || lia). sbind.
  destruct (memcpy_placed m fdt (to + dtb_offset img) tree Hsrc) as (m1 & Hc & Hp1); [eapply mapped_sub; [exact Hmap|lia..]|lia|].
  rewrite Hlen in Hc. rewrite Hc. sbind. destruct (reserve_run m1 fdt tree Hf) as (m2 & -> & Hp2); [apply Hp1|lia|].
  exists m2. split; [done|]. eapply placed_mono; [by eapply placed_trans|lia].
Qed.

(** In any build it is done without leaving the space of the device tree. *)
Lemma par_dtb_frame (m : mem) fdt room :
  CFG_SUNXI_FDT_ADDR = Some fdt → header_at img to m → mapped m to P → 8 <= hf img off_dtb_size <= room → mapped m fdt room → disjoint fdt room to P →
  ∃ m', par_dtb m to = Some m' ∧ (∀ x, x < fdt ∨ fdt + room <= x → m' !! x = m !! x) ∧ (∀ b k, mapped m b k → mapped m' b k).
Proof.
  intros Hf Hm Hmp Hd Hmap Hdis. destruct (CFG_EARLY_FASTBOOT || negb CFG_LOAD_DTB_FROM_KERNEL) eqn:E.
  - exists m. unfold par_dtb. by rewrite E.
  - apply orb_false_iff in E as [He Hl%negb_false_iff]. pose proof par_inside as (? & ? & ? & ? & ? & ? & ?).
    destruct (mapped_load m (to + dtb_offset img) (Z.to_nat (hf img off_dtb_size))) as (tree & Ht & Hlen).
    { eapply mapped_sub; [exact Hmp|lia|lia]. }
    destruct (par_dtb_copies m fdt room tree He Hl Hf Hm) as (m' & Hr & _ & Ho & Hp); try done; [by unfold holds; rewrite Hlen|lia|].
    by exists m'.
Qed.

(** The ramdisk is copied out of memory, whatever is there; the device tree
    library decides the result. *)
Lemma par_ramdisk (m : mem) fdt :
  let n := hf img off_ramdisk_size in
  CFG_SUNXI_FDT_ADDR = Some fdt → header_at img to m → mapped m to P → (∀ ra, CFG_RAMDISK_ADDR = Some ra → is_u32 ra) →
  (∀ ra, ramdisk_to img = Some ra → mapped m ra n ∧ ra + n < 2 ^ 32 ∧ (to + P < ra ∨ ra + n <= to)) →
  ∃ m1, (∀ x, (x < to + 20 ∨ to + 24 <= x) → (∀ ra, ramdisk_to img = Some ra → x < ra ∨ ra + n <= x) → m1 !! x = m !! x) ∧
    move_ramdisk m to P =
      match ramdisk_to img with
      | Some ra => '(m2, r) ← fdt_initrd m1 fdt ra (ra + n); Some (m2, [], if negb (r =? 0) then -1 else 0)
      | None => Some (m1, [], 0)
      end.
Proof.
  intros n Hf Hm Hmp Hra Hrd. pose proof par_inside as (Hi1 & Hi2 & Hi3 & Hi4 & Hi5 & Hi6 & Hi7). pose proof (bimage_fields img Himg) as (Hk & Hr & Hs & Ho & _).
  pose proof (pages_spec _ Hk) as [? _]. pose proof (pages_spec _ Hr) as [? _]. pose proof (pages_spec _ Hs) as [? _]. pose proof (pages_spec _ Ho) as [? _].
  change (2 ^ 31) with 2147483648 in *. change (2 ^ 32) with 4294967296 in *. unfold move_ramdisk, ramdisk_to in *. fold n in Hrd, Hr |- *.
  destruct CFG_RAMDISK_ADDR as [ra|] eqn:Era; [|exists m; by destruct (n =? 0)].
  specialize (Hra ra eq_refl). set (m0 := w32 m (to + Z.of_nat off_ramdisk_addr) ra).
  rewrite (wr32_mapped m _ ra) by (eapply mapped_sub; [exact Hmp|unfold off_ramdisk_addr; lia..]). fold m0. sbind.
  assert (∀ off, (off + 4 <= 20 ∨ 24 <= off)%nat → (off + 4 <= 4096)%nat → field m0 to off = Some (hf img off)) as Hf0.
  { intros off Ho1 Ho2. rewrite <- (Hm off Ho2). apply rd32_w32_ne. unfold off_ramdisk_addr. lia. }
  assert (∀ x, x < to + 20 ∨ to + 24 <= x → m0 !! x = m !! x) as Hout0 by (intros x Hx; apply lookup_w32_out; unfold off_ramdisk_addr; lia).
  unfold android_image_get_ramdisk. rewrite (Hf0 off_ramdisk_size) by (unfold off_ramdisk_size; lia). sbind. fold n.
  destruct (Z.eqb_spec n 0) as [Hz|Hz]; [exists m0; split; [intros x Hx _; by apply Hout0|done]|].
  rewrite (Hf0 off_page_size), (Hf0 off_kernel_size) by (unfold off_page_size, off_kernel_size; lia). sbind. rewrite (bm_page _ Himg).
  assert (field m0 to off_ramdisk_addr = Some ra) as Hfa by by apply rd32_w32_eq. rewrite Hfa. sbind.
  destruct (Hrd ra eq_refl) as (Hmr & Hr32 & Hap). fold n in Hr. unfold is_u32 in Hra. change (2 ^ 32) with 4294967296 in *.
  unfold dtb_offset, ramdisk_offset in *.
  rewrite ALIGN_pages, (u32_small (to + 2048)), (u32_small (to + 2048 + _)) by (unfold is_u32; change (2 ^ 31) with 2147483648; lia).
  rewrite mem_info_run by (change (2 ^ 32) with 4294967296; lia). rewrite decide_True by lia. cbn [Z.ltb Z.compare].
  set (src := to + 2048 + pages (hf img off_kernel_size)).
  destruct (mapped_load m0 src (Z.to_nat n)) as (rd & Hld & Hlen).
  { apply mapped_w32. eapply mapped_sub; [exact Hmp|unfold src, n in *; lia..]. }
  destruct (memcpy_placed m0 ra src rd) as (m1 & Hc & Hh & Hout & _).
  { unfold holds. by rewrite Hlen. }
  { apply mapped_w32. by rewrite Hlen, Z2Nat.id by lia. }
  { unfold src. lia. }
  rewrite Hlen, Z2Nat.id in Hc, Hout by lia. rewrite Hc. sbind. rewrite Hf. sbind. exists m1. split.
  - intros x Hx1 Hx2. rewrite Hout by (apply Hx2; done). by apply Hout0.
  - assert (field m1 to off_ramdisk_addr = Some ra) as ->.
    { rewrite <- Hfa. apply rd32_ext. intros x Hx. apply Hout. unfold off_ramdisk_addr in Hx. lia. }
    sbind. rewrite (u32_small (ra + n)) by (unfold is_u32; change (2 ^ 32) with 4294967296; lia). done.
Qed.

End image.

(** What a run starts from: an image on the flash that an asynchronous read
    delivers, whose kernel is an LZ4 frame without block checksums, no build
    with gunzip, and memory for header, stream and kernel; the memory the
    stream will come to holds no byte 255 yet. *)
Record par_start `{I : image_build} (flash_read : reader) (read_async : mem → Z → Z → Z → option (dma * Z))
    (m : mem) (from to : Z) (img : bytes) (fr : frame) (kroom : Z) : Prop := {
  ps_image : bimage img;
  ps_read : has_image flash_read from img ∧ has_image_async read_async from img;
  ps_from : 0 <= from ∧ from + Z.of_nat (length img) / 512 < 2 ^ 32;
  ps_to : 3 <= to ∧ to + Z.of_nat (length img) < 2 ^ 32 ∧ to + 257 * par_bytes img + 16 < 2 ^ 32;
  ps_whole : par_bytes img <= Z.of_nat (length img) ∧ 8 <= hf img off_dtb_size;
  ps_build : CFG_SUNXI_GUNZIP = false ∧ CFG_SUNXI_LZ4 = true;
  ps_frame : stream img = enc_frame fr ∧ frame_ok fr ∧ fr_ck fr = false;
  ps_size : Z.of_nat (length (enc_frame fr)) - Z.of_nat (length (fr_tail fr)) <= hf img off_kernel_size ∧ 15 <= hf img off_kernel_size;
  ps_room : let total := Z.of_nat (length (frame_data fr)) in
    total <= 0xa00000 ∧ total <= kroom ∧ Z.min 0xa00000 (total + 8) <= kroom ∧ hf img off_kernel_addr + 0xa00000 + 256 * par_bytes img + 16 < 2 ^ 32;
  ps_apart : to + par_bytes img < hf img off_kernel_addr ∨ hf img off_kernel_addr + Z.max kroom (hf img off_kernel_size) <= to;
  ps_mapped : mapped m to 4096 ∧ mapped m (hf img off_kernel_addr) kroom;
  ps_blank : ∀ x, to + 4096 <= x < to + par_bytes img → ∃ b, m !! x = Some b ∧ is_u8 b ∧ b ≠ 255
}.

Section run.
Context `{I : image_build} `{K : kernel_build} `{T : fdt_lib}.
Context (flash_read : reader) (read_async : mem → Z → Z → Z → option (dma * Z)) (has_read_done : bool).
Context (m : mem) (from to : Z) (img : bytes) (fr : frame) (kroom : Z) (Hst : par_start flash_read read_async m from to img fr kroom).
Let P := par_bytes img.
Let ks := hf img off_kernel_size.
Let ka := hf img off_kernel_addr.
Let N := Z.of_nat (length (enc_frame fr)).
Let seen := N - Z.of_nat (length (fr_tail fr)).
Let m1 := write_bytes m to (cut 0 4096 img).

Lemma start_inside :
  N = P - 2048 ∧ ks + 4096 <= P ∧ P < 2 ^ 31 ∧ 0 <= ks ∧ 0 <= ka ∧ drop 2048 (enc_frame fr) = cut 4096 (P - 4096) img ∧
  enc_frame fr = cut 2048 2048 img ++ cut 4096 (P - 4096) img ∧ is_byte_list (enc_frame fr).
Proof.
  destruct Hst as [Himg _ _ (Hto & Hto2 & Hto3) [Hw Hd] _ (Hs & _) _ _ _ _ _]. assert (0 < hf img off_dtb_size) as Hd0 by lia.
  pose proof (par_inside img Himg to Hto Hto3 Hd0) as (_ & _ & _ & Hi & _ & Hi6 & Hi7). fold P ks in Hi, Hi6, Hi7.
  pose proof (length_stream img Himg to Hto Hto3 Hw Hd0) as Hl. pose proof (stream_split img Himg to Hto Hto3 Hd0) as Hsp. fold P in Hl, Hsp.
  assert (Z.of_nat (length (cut 2048 2048 img)) = 2048) as Hl1 by (apply length_cut; unfold P in *; lia).
  unfold N. rewrite <- Hs. split; [done|]. split; [done|]. split; [done|]. split; [done|]. split; [by apply hf_bound, (bm_bytes _ Himg)|].
  split; [|split; [done|]]; [rewrite Hsp; apply drop_app_length'; lia|]. by apply Forall_take, Forall_drop, (bm_bytes _ Himg).
Qed.

Lemma header_read : length (cut 0 4096 img) = 4096%nat ∧ holds m1 to (cut 0 4096 img).
Proof.
  pose proof start_inside as (_ & Hi & _ & H0 & _). pose proof (proj1 (ps_whole _ _ _ _ _ _ _ _ Hst)). split; [|apply load_write_eq].
  apply Nat2Z.inj. rewrite length_cut; unfold P in *; lia.
Qed.

(** While only stream and kernel are written the header stays. *)
Lemma untouched_header m2 : untouched fr (to + 2048) ka kroom m1 m2 → holds m2 to (cut 0 4096 img) ∧ header_at img to m2.
Proof.
  intros [Hu _]. pose proof header_read as [Hl Hh]. pose proof start_inside as (HN & Hi & _ & H0 & _). pose proof (ps_apart _ _ _ _ _ _ _ _ Hst) as Hap.
  assert (holds m2 to (cut 0 4096 img)) as Hh2.
  { eapply holds_same; [exact Hh|]. intros x Hx. rewrite Hl in Hx. apply Hu; unfold P, ka, ks in *; lia. }
  split; [done|]. intros off Ho. rewrite (holds_field _ _ _ off Hh2) by lia. f_equal. apply hf_cut. lia.
Qed.

Lemma par_kernel_start polls :
  ∃ d1 c1, polling fr (to + 2048) ks ka kroom d1 c1 0 0 ∧ untouched fr (to + 2048) ka kroom m1 (dma_mem d1) ∧
    par_kernel has_read_done polls (Dma m1 (to + 4096) (cut 4096 (P - 4096) img)) to P =
      ('(d, _, e) ← para_loop has_read_done polls d1 c1 ks 0; Some (d, [], inl e)).
Proof.
  pose proof start_inside as (HN & Hi & Hi31 & Hk0 & Hka0 & Hdrop & Hsplit & HF). pose proof header_read as [Hl Hh].
  destruct (untouched_header m1) as [_ Hf]; [by split|].
  destruct Hst as [Himg _ _ (Hto & Hto2 & Hto3) [Hw Hd] [Hgz Hlz] (Hs & Hfr & Hck) [Hsz Hsz15] (Ht1 & Ht2 & Ht3 & Hka32) Hap [Hm1 Hm2] Hblank].
  fold P ks ka in Hto3, Hw, Hsz, Hsz15, Hka32, Hap, Hm2, Hblank. fold N in Hsz. fold seen in Hsz.
  change (2 ^ 31) with 2147483648 in *. change (2 ^ 32) with 4294967296 in *.
  assert (Z.of_nat (length (cut 2048 2048 img)) = 2048) as Hl1 by (apply length_cut; lia).
  unfold par_kernel. cbn [dma_mem]. rewrite !Hf by (unfold off_kernel_size, off_kernel_addr; lia). sbind. fold ks ka.
  unfold KERNEL_CODE_OFFSET_IN_BIMAGE. change 0x800 with 2048. rewrite (u32_small (to + 2048)) by (unfold is_u32; lia).
  destruct (Z.eqb_spec ka (to + 2048)) as [|_]; [lia|].
  rewrite mem_info_run by (change (2 ^ 32) with 4294967296; lia). rewrite decide_True by lia. cbn [Z.ltb Z.compare].
  unfold par_codec. rewrite Hgz, Hlz. change (rd32 m1 (to + 2048)) with (field m1 to 2048). rewrite Hf by lia. sbind.
  assert (hf img 2048 = LZ4F_MAGIC) as ->.
  { unfold hf. assert (take 4 (drop 2048 img) = take 4 (stream img)) as ->.
    { unfold stream, cut. rewrite take_take, Nat.min_l by lia. done. }
    rewrite Hs. unfold enc_frame. rewrite take_app_length' by (by rewrite length_le_bytes). by rewrite le_val_bytes. }
  change (packed_by LZ4 LZ4F_MAGIC) with true. cbv iota.
  destruct (para_dec_start fr (to + 2048) ks ka kroom) with (has_read_done := has_read_done) (polls := polls)
    (d := Dma m1 (to + 4096) (cut 4096 (P - 4096) img)) as (d1 & c1 & Hpl & Hu & Hr);
    try done; try (change (2 ^ 32) with 4294967296); try (change (2 ^ 31) with 2147483648); cbn [dma_mem dma_at]; try (fold N seen); try lia.
  - rewrite Hsplit. apply arrived_app. split.
    + apply bytes_at_arrived; [|by apply Forall_take, Forall_drop, (bm_bytes _ Himg)]. apply bytes_at_load.
      change (holds m1 (to + 2048) (cut 2048 2048 img)). rewrite <- (cut_cut 0 4096 2048) by lia.
      apply (holds_cut _ to); [done|lia|lia|]. rewrite Hl. lia.
    + rewrite Hl1. apply arrived_blank; [|lia]. rewrite length_cut by lia. intros x Hx.
      destruct (Hblank x) as (b & Hb & Hr); [lia|]. exists b. split; [|done]. unfold m1. rewrite lookup_write_out by (rewrite Hl; lia). done.
  - by apply mapped_write.
  - exists d1, c1. split; [done|]. split; [done|]. rewrite Hr. by destruct (para_loop has_read_done polls d1 c1 ks 0) as [[[? ?] ?]|].
Qed.

(** The loader up to the polls. *)
Lemma load_start polls :
  ∃ d1 c1, polling fr (to + 2048) ks ka kroom d1 c1 0 0 ∧ untouched fr (to + 2048) ka kroom m1 (dma_mem d1) ∧
    load_bimage_parallel read_async has_read_done flash_read polls m from to =
      ('(d, _, e) ← para_loop has_read_done polls d1 c1 ks 0;
       match e with ParaRet r => par_rest d [] r to P | e => Some (ParStuck e d) end).
Proof.
  destruct (par_kernel_start polls) as (d1 & c1 & Hpl & Hu & Hrun). exists d1, c1. split; [done|]. split; [done|].
  pose proof header_read as [Hl Hh]. pose proof start_inside as (HN & Hi & Hi31 & Hk0 & _).
  destruct Hst as [Himg [Hfl Has] [Hf0 Hf1] (Hto & Hto2 & Hto3) [Hw Hd] _ _ _ _ _ [Hm1 _] _]. assert (0 < hf img off_dtb_size) as Hd0 by lia.
  pose proof (par_inside img Himg to Hto Hto3 Hd0) as (_ & _ & _ & _ & Hi5 & _). fold P in Hto3, Hw, Hi5.
  change (2 ^ 31) with 2147483648 in *. change (2 ^ 32) with 4294967296 in *.
  unfold load_bimage_parallel. change SUNXI_FLASH_READ_FIRST_SIZE with 4096. change (4096 / 512) with 8.
  pose proof (Hfl m 0 8 to ltac:(lia) ltac:(lia) ltac:(lia) Hm1) as H1. rewrite Z.add_0_r in H1. rewrite H1. sbind. cbn [negb Z.eqb]. clear H1.
  change (512 * 0) with 0. change (512 * 8) with 4096. fold m1.
  assert (load_n 8 m1 to = Some ANDR_BOOT_MAGIC) as ->.
  { pose proof (load_n_sub _ _ _ _ 0 8 Hh ltac:(lia)) as H. rewrite Z.add_0_r, drop_0 in H. rewrite H. f_equal.
    unfold cut. rewrite drop_0, take_take, Nat.min_l by lia. exact (bm_magic _ Himg). }
  sbind. change (memcmp ANDR_BOOT_MAGIC ANDR_BOOT_MAGIC 8) with (Some 0). sbind. cbn [negb Z.eqb].
  rewrite !(holds_field m1 to _ _ Hh), !hf_cut
    by (unfold off_kernel_size, off_ramdisk_size, off_second_size, off_page_size, off_recovery_dtbo_size, off_dtb_size; lia). sbind.
  rewrite (bm_page _ Himg), (par_rbytes img Himg to Hto Hto3 Hd0). fold P.
  rewrite (u32_small (from + 8)), (u32_small (to + 4096)), (u32_small (P / 512 - 8)) by (unfold is_u32; zmod).
  rewrite Has by (lia || zmod). sbind. cbn [negb Z.eqb]. change (512 * 8) with 4096. replace (512 * (P / 512 - 8)) with (P - 4096) by zmod.
  rewrite Hrun. by destruct (para_loop has_read_done polls d1 c1 ks 0) as [[[? ?] []]|].
Qed.

(** The loop over the polls before the last one. *)
Lemma load_waits pre rest : waiting_polls pre 0 (P - 4096) ks (seen - 2048) →
  ∃ d1 c1 read_cnt, polling fr (to + 2048) ks ka kroom d1 c1 (delivered pre) read_cnt ∧ read_cnt < ks ∧
    untouched fr (to + 2048) ka kroom m1 (dma_mem d1) ∧
    load_bimage_parallel read_async has_read_done flash_read (pre ++ rest) m from to =
      ('(d, _, e) ← para_loop has_read_done rest d1 c1 ks read_cnt;
       match e with ParaRet r => par_rest d [] r to P | e => Some (ParStuck e d) end).
Proof.
  intros Hpre. destruct (load_start (pre ++ rest)) as (d0 & c0 & Hpl & Hu & ->).
  pose proof start_inside as (HN & Hi & Hi31 & Hk0 & Hka0 & _ & _ & HF).
  destruct Hst as [_ _ _ (Hto & Hto2 & Hto3) _ _ (Hs & Hfr & Hck) [Hsz Hsz15] (Ht1 & Ht2 & Ht3 & Hka32) Hap _ _].
  fold P ks ka in Hto3, Hsz, Hsz15, Hka32, Hap. fold N in Hsz. fold seen in Hsz.
  change (2 ^ 31) with 2147483648 in *. change (2 ^ 32) with 4294967296 in *.
  destruct (para_loop_waits fr (to + 2048) ks ka kroom) with (has_read_done := has_read_done) (pre := pre) (rest := rest) (d := d0) (c := c0) (got := 0) (read_cnt := 0)
    as (d1 & c1 & rc & Hr & Hpl1 & Hrc & Hu1); try done; try (change (2 ^ 32) with 4294967296); try (change (2 ^ 31) with 2147483648); try (fold N seen); try lia.
  { replace (N - 2048) with (P - 4096) by lia. done. }
  exists d1, c1, rc. split; [done|]. split; [done|]. split; [by eapply untouched_trans|]. by rewrite Hr.
Qed.

End run.

(** ** Theorems *)


(** C39: a read error while the kernel is being decoded reaches the caller only
    where no ramdisk is loaded.  Whatever was read before, and whatever negative
    answer but [-ENODATA] a poll gives: without a ramdisk the loader returns -1;
    with one the return code of [fdt_initrd] takes the place of the error, and
    the loader returns 0 with the kernel's address as soon as that succeeds.
    What had not arrived of the image never does. *)
Theorem read_error_boots `{I : image_build} `{K : kernel_build} `{T : fdt_lib} flash_read read_async has_read_done pre n err post m from to img fr kroom fdt room :
  let P := par_bytes img in
  let rs := hf img off_ramdisk_size in
  let got := delivered pre + Z.of_nat n in
  let run := load_bimage_parallel read_async has_read_done flash_read (pre ++ (n, err) :: post) m from to in
  let seen := Z.of_nat (length (enc_frame fr)) - Z.of_nat (length (fr_tail fr)) in
  par_start flash_read read_async m from to img fr kroom →
  CFG_SUNXI_FDT_ADDR = Some fdt → hf img off_dtb_size <= room → mapped m fdt room → disjoint fdt room to P →
  (∀ ra, CFG_RAMDISK_ADDR = Some ra → is_u32 ra) →
  (∀ ra, ramdisk_to img = Some ra → mapped m ra rs ∧ ra + rs < 2 ^ 32 ∧ (to + P < ra ∨ ra + rs <= to)) →
  (∀ m1 s e m2 r, fdt_initrd m1 fdt s e = Some (m2, r) → ∀ x, x < fdt ∨ fdt + room <= x → m2 !! x = m1 !! x) →
  waiting_polls pre 0 (P - 4096) (hf img off_kernel_size) (seen - 2048) → got <= P - 4096 → err < 0 → err ≠ - ENODATA →
  ∃ m1 d, dma_pending d = cut (4096 + got) (P - 4096 - got) img ∧
    run = match ramdisk_to img with
          | Some ra =>
              '(m2, r) ← fdt_initrd m1 fdt ra (ra + rs);
              Some (ParLoaded (if r =? 0 then Loaded m2 (Some (hf img off_kernel_addr)) [] 0 else Loaded m2 None [] (-1)) (set_mem d m2))
          | None => Some (ParLoaded (Loaded m1 (Some (hf img off_kernel_addr)) [] (-1)) (set_mem d m1))
          end.
Proof.
  intros P rs got run seen Hst Hfdt Hroom Hmf Hdis Hra Hrd Hlib Hpre Hgot Herr Hnd. unfold run.
  destruct (load_waits flash_read read_async has_read_done m from to img fr kroom Hst pre ((n, err) :: post) Hpre)
    as (d1 & c1 & rc & Hpl & Hrc & Hu & ->).
  destruct (start_inside flash_read read_async m from to img fr kroom Hst) as (HN & Hi & Hi31 & Hk0 & Hka0 & Hdrop & _ & HF).
  pose proof (untouched_header flash_read read_async m from to img fr kroom Hst) as Hhd.
  pose proof Hst as [Himg _ _ (Hto & Hto2 & Hto3) [Hw Hd] _ (Hs & Hfr & Hck) [Hsz Hsz15] (Ht1 & Ht2 & Ht3 & Hka32) Hap [Hm1 _] Hblank].
  fold P in HN, Hi, Hi31, Hto3, Hw, Hka32, Hap, Hdrop, Hblank. fold seen in Hsz.
  change (2 ^ 31) with 2147483648 in *. change (2 ^ 32) with 4294967296 in *.
  destruct (para_loop_error fr (to + 2048) (hf img off_kernel_size) (hf img off_kernel_addr) kroom) with (has_read_done := has_read_done) (n := n) (err := err)
    (post := post) (d := d1) (c := c1) (got := delivered pre) (read_cnt := rc) as (d2 & c2 & -> & Hp2 & Hu2);
    try done; try (change (2 ^ 32) with 4294967296); try (change (2 ^ 31) with 2147483648); try (fold seen); try lia.
  sbind. pose proof (untouched_trans _ _ _ _ _ _ _ Hu Hu2) as Hu3. destruct (Hhd _ Hu3) as [_ Hh2].
  pose proof (pl_got _ _ _ _ _ _ _ _ _ Hpl) as Hg0.
  assert (dma_pending d2 = cut (4096 + got) (P - 4096 - got) img) as Hpend.
  { rewrite Hp2. fold got. rewrite Z2Nat.inj_add, <- drop_drop by (unfold got in *; lia). change (Z.to_nat 2048) with 2048%nat. rewrite Hdrop.
    unfold cut. rewrite skipn_firstn_comm, drop_drop. f_equal; [|f_equal]; unfold got in *; lia. }
  assert (mapped (dma_mem d2) to P) as Hmp.
  { apply (proj2 Hu3). intros x Hx. destruct (decide (x < to + 4096)); [apply (mapped_write m to 4096); [exact Hm1|lia]|].
    apply mapped_write with (a := x) (n := 1); [|lia]. intros y Hy. destruct (Hblank y) as (b & -> & _); [lia|by eexists]. }
  assert (0 < hf img off_dtb_size) as Hd0 by lia.
  destruct (par_dtb_frame img Himg to Hto Hto2 Hto3 Hd0 (dma_mem d2) fdt room) as (m3 & Hr3 & Ho3 & Hp3); try done.
  { apply (proj2 Hu3). by apply mapped_write. }
  fold P in Hdis. unfold disjoint in Hdis.
  assert (∀ m4 : mem, (∀ x, to <= x < to + P → (x < to + 20 ∨ to + 24 <= x) → m4 !! x = m3 !! x) → field m4 to off_kernel_addr = Some (hf img off_kernel_addr)) as Hka4.
  { intros m4 H4. rewrite <- (Hh2 off_kernel_addr) by (unfold off_kernel_addr; lia). apply rd32_ext. intros x Hx. unfold off_kernel_addr in Hx.
    rewrite H4, Ho3 by lia. done. }
  assert (header_at img to m3) as Hh3.
  { intros off Ho. rewrite <- (Hh2 off Ho). apply rd32_ext. intros x Hx. apply Ho3. lia. }
  destruct (par_ramdisk img Himg to Hto Hto3 Hd0 m3 fdt Hfdt Hh3) as (m4 & Ho4 & Hr4); [by apply Hp3|done| |].
  { intros ra E. destruct (Hrd ra E) as (Hm & Hx). split; [apply Hp3, (proj2 Hu3); by apply mapped_write|done]. }
  fold P rs in Hr4, Ho4 |- *. exists m4, d2. split; [done|]. unfold par_rest. rewrite Hr3. sbind.
  assert (∀ o : option Z, CFG_RAMDISK_ADDR = o → (match o with Some _ => r ← field m3 to off_ramdisk_size; Some (if r =? 0 then -1 else 0) | None => Some (-1) end)
    = Some (match ramdisk_to img with Some _ => 0 | None => -1 end)) as Hret.
  { intros o Eo. unfold ramdisk_to. rewrite Eo. rewrite (Hh3 off_ramdisk_size) by (unfold off_ramdisk_size; lia). fold rs. sbind. by destruct o, (rs =? 0). }
  rewrite (Hret _ eq_refl). sbind. rewrite Hr4. destruct (ramdisk_to img) as [ra|] eqn:Era.
  - destruct (fdt_initrd m4 fdt ra (ra + rs)) as [[m5 r]|] eqn:Einit; [|done]. sbind. pose proof (Hlib _ _ _ _ _ Einit) as Ho5.
    destruct (r =? 0); cbn [negb Z.eqb app]; [|done]. destruct (Hrd ra eq_refl) as (_ & _ & Hap').
    rewrite (Hka4 m5); [sbind; done|]. intros x Hx1 Hx2. rewrite Ho5 by lia. apply Ho4; [done|]. intros ra' [= <-]. lia.
  - sbind. cbn [negb Z.eqb app]. rewrite (Hka4 m4); [sbind; done|]. intros x Hx1 Hx2. by apply Ho4.
Qed.

(** ** A concrete image *)

(** 3000 bytes that are stored, behind the packed ones of [demo_frame]. *)
Definition demo_par_blocks : list fblock := fr_blocks demo_frame ++ [FBlock (Stored (replicate 3000 1)) [0; 0; 0; 0]].
Definition demo_kernel : bytes := enc_frame (Frame 0x60 0x40 [] 0x82 demo_par_blocks []).
Definition demo_par_image : bytes :=
  ANDR_BOOT_MAGIC ++ le_bytes 4 (Z.of_nat (length demo_kernel)) ++ le_bytes 4 0x4000 ++ le_bytes 4 8 ++ replicate 16 0 ++ le_bytes 4 2048 ++
  replicate 1608 0 ++ le_bytes 4 16 ++ replicate 396 0 ++ demo_kernel ++ replicate (4096 - length demo_kernel) 0 ++
  (Z.of_nat <$> seq 101 8) ++ replicate 2040 0 ++ [0xd0; 0x0d; 0xfe; 0xed; 0; 0; 0; 16] ++ replicate 2040 7.
Definition demo_par_frame : frame := Frame 0x60 0x40 [] 0x82 demo_par_blocks (drop (length demo_kernel) (stream demo_par_image)).

Definition demo_par_opts : image_build :=
  ImageBuild false true true None true (Some 0x3800) (Some 64) false None true None false None None.

Definition demo_async (from : Z) (img : bytes) : mem → Z → Z → Z → option (dma * Z) := λ m s n b,
  Some (Dma m b (cut (512 * (s - from)) (512 * n) img), 0).

Lemma demo_async_has from img : has_image_async (demo_async from img) from img.
Proof. intros m s n b _ _ _. unfold demo_async. by replace (from + s - from) with s by lia. Qed.

Record par_facts : Prop := {
  pf_len : Z.of_nat (length demo_par_image) = 10240;
  pf_par : par_bytes demo_par_image = 10240;
  pf_ks : hf demo_par_image off_kernel_size = 3038;
  pf_ka : hf demo_par_image off_kernel_addr = 0x4000;
  pf_ds : hf demo_par_image off_dtb_size = 16;
  pf_rd : read_bytes demo_par_image = 7653;
  pf_data : Z.of_nat (length (frame_data demo_par_frame)) = 3018;
  pf_enc : Z.of_nat (length (enc_frame demo_par_frame)) = 8192;
  pf_tail : Z.of_nat (length (fr_tail demo_par_frame)) = 5154
}.

Lemma demo_par_facts : par_facts.
Proof. constructor; vm_compute; reflexivity. Qed.

Definition demo_par_frame_ok : frame_ok demo_par_frame.
Proof.
  constructor; [reflexivity|repeat split; reflexivity|reflexivity|reflexivity| |].
  - apply Forall_app. split; [exact (fo_blocks _ demo_frame_ok)|]. constructor; [|constructor]. split; [reflexivity|].
    split; [vm_compute; split; reflexivity|done].
  - apply Nat2Z.inj_le. rewrite (pf_enc demo_par_facts). lia.
Qed.

Lemma demo_par_ok : bimage demo_par_image.
Proof.
  pose proof demo_par_facts as [Hl Hp Hk Ha Hd Hr _ _ _]. constructor.
  - apply (bool_decide_unpack _). vm_compute. exact I.
  - reflexivity.
  - vm_compute. reflexivity.
  - rewrite Hr, Hl. vm_compute. discriminate.
  - rewrite Hl. vm_compute. discriminate.
  - rewrite Hl. reflexivity.
Qed.

(** Memory from 0x1000 to 0x6000 with the image at its start. *)
Definition demo_par_mem : mem := mem_of 0x1000 (replicate (Z.to_nat 0x5000) 0).

Lemma demo_par_mapped a n : 0x1000 <= a → a + n <= 0x6000 → mapped demo_par_mem a n.
Proof. intros H1 H2. eapply mapped_sub; [apply mapped_mem_of|exact H1|]. rewrite length_replicate. lia. Qed.

Lemma demo_par_start :
  par_start (I := demo_par_opts) (demo_reader 64 demo_par_image) (demo_async 64 demo_par_image) demo_par_mem 64 0x1000 demo_par_image demo_par_frame 3032.
Proof.
  pose proof demo_par_facts as [Hl Hp Hk Ha Hd Hr Hfd Hen Hta].
  constructor; rewrite ?Hl, ?Hp, ?Hk, ?Ha, ?Hd, ?Hfd, ?Hen, ?Hta.
  - exact demo_par_ok.
  - split; [apply demo_reader_has|apply demo_async_has].
  - split; [lia|reflexivity].
  - split; [lia|]. split; reflexivity.
  - lia.
  - split; reflexivity.
  - split; [vm_compute; reflexivity|]. split; [exact demo_par_frame_ok|reflexivity].
  - lia.
  - cbv zeta. split; [lia|]. split; [lia|]. split; [lia|reflexivity].
  - lia.
  - split; apply demo_par_mapped; lia.
  - intros x Hx. exists 0. split; [|unfold is_u8; lia]. replace x with (0x1000 + Z.of_nat (Z.to_nat (x - 0x1000))) by lia. apply filled_lookup. lia.
Qed.


(** 400 bytes of the kernel, then an error: the loader returns 0. *)
Lemma read_error_boots_witness :
  ∃ m' d, load_bimage_parallel (I := demo_par_opts) (K := demo_kernel_build) (T := demo_fdt) (demo_async 64 demo_par_image) false
      (demo_reader 64 demo_par_image) [(500%nat, 400); (0%nat, -5)] demo_par_mem 64 0x1000 = Some (ParLoaded (Loaded m' (Some 0x4000) [] 0) d) ∧
    dma_pending d = cut 4596 5644 demo_par_image.
Proof.
  pose proof demo_par_facts as [Hl Hp Hk Ha Hd Hr Hfd Hen Hta]. assert (hf demo_par_image off_ramdisk_size = 8) as Hrs by (vm_compute; reflexivity).
  destruct (read_error_boots (I := demo_par_opts) (K := demo_kernel_build) (T := demo_fdt) (demo_reader 64 demo_par_image) (demo_async 64 demo_par_image)
    false [(500%nat, 400)] 0 (-5) [] demo_par_mem 64 0x1000 demo_par_image demo_par_frame 3032 0x3800 1024) as (m1 & d & Hpend & Hrun);
    rewrite ?Hp, ?Hk, ?Ha, ?Hd, ?Hen, ?Hta, ?Hrs; unfold disjoint.
  - exact demo_par_start.
  - reflexivity.
  - lia.
  - apply demo_par_mapped; lia.
  - lia.
  - intros ra [= <-]. unfold is_u32. lia.
  - intros ra E. unfold ramdisk_to in E. rewrite Hrs in E. injection E as <-. split; [apply demo_par_mapped; lia|]. lia.
  - intros m1 s e m2 r [= <- <-] x _. reflexivity.
  - vm_compute. repeat split; try reflexivity; discriminate.
  - vm_compute. discriminate.
  - lia.
  - vm_compute. discriminate.
  - rewrite Ha, Hrs in Hrun. unfold ramdisk_to in Hrun. rewrite Hrs in Hrun. exists m1, (set_mem d m1). split; [exact Hrun|]. rewrite Hp in Hpend. exact Hpend.
Defined.

(** The result of a run on this image, with what the memory then holds at
    [a]. *)
Definition par_outcome (polls : list poll) (img : bytes) (B : image_build) (K : kernel_build) (a : Z) (n : nat) : option (option Z * Z * option bytes) :=
  match load_bimage_parallel (I := B) (K := K) (T := demo_fdt) (demo_async 64 img) false (demo_reader 64 img) polls
          demo_par_mem 64 0x1000 with
  | Some (ParLoaded l d) => Some (ld_kernel l, ld_ret l, load_n n (dma_mem d) a)
  | _ => None
  end.

(** Without [read_done], as on SPI NOR, the device tree is copied as soon as the
    kernel is decoded, even if it has not been read yet. *)
Theorem device_tree_unread :
  par_outcome [(1024%nat, 1000); (2000%nat, 3040)] demo_par_image demo_par_opts demo_lz4_build 0x3800 8 = Some (Some 0x4000, 0, Some [0; 0; 0; 0; 0; 0; 0; 64]) ∧
  take 8 (reserved (I := demo_par_opts) (dtb_exact demo_par_image)) = [0xd0; 0x0d; 0xfe; 0xed; 0; 0; 0; 64].
Proof. split; vm_compute; reflexivity. Qed.

(** A kernel that is not packed is copied without waiting for it. *)
Definition demo_plain_image : bytes := splice 2048 (replicate 3038 9) demo_par_image.

Theorem plain_kernel_unread :
  par_outcome [] demo_plain_image demo_par_opts demo_lz4_build (0x4000 + 3000) 8 = Some (Some 0x4000, 0, Some (replicate 8 0)) ∧
  take 8 (drop 3000 (kernel_part demo_plain_image)) = replicate 8 9.
Proof. split; vm_compute; reflexivity. Qed.
